(* ===== verification/_CoqProject ===== *)
-Q . S2P
Prelude.v
WireBase.v
Wire.v
WireStream.v
Config.v
Lines.v
GlobalOrder.v
State.v
ReplicaState.v
Cursor.v
Log.v
LogSpec.v
LogInv.v
Admission.v
ScheduleProto.v
SchedInv.v
Merge.v
MergeSpec.v
Gaps.v
Sync.v
ViewChange.v
Recovery.v
LogFrame.v
ViewInv.v
RecoveryInv.v
RecoveryLog.v
RecoveryExec.v
FetchLog.v
Client.v
ClientRun.v
ClientInv.v
ClientPlan.v
DurableLog.v
DurableSpec.v
DurableInv.v
Serve.v
Listener.v
Hook.v
QuorumSets.v
GobWire.v
DefsWire.v
Handlers.v
Paxos.v
PaxosInv.v
PaxosNet.v
Rpc.v
PaxosWire.v
N2Wire.v
N2Paxos.v
N2Inv.v
N2Turns.v
FastWire.v
CurpWire.v
EpaxosWire.v
EPaxos.v
EpaxosExec.v
EpaxosOrder.v
EpaxosInv.v
SwiftWire.v
SwiftKeys.v
WireProps.v
ConfigProps.v
ScheduleProps.v
LogProps.v
AgreementProps.v
NodeInv.v
NodeView.v
NodeSteps.v
MergeProps.v
NodeProps.v
GapProps.v
ViewProps.v
RecoveryProps.v
ClientProps.v
DurableProps.v
BaseWireProps.v
BaseProps.v
N2Props.v
EpaxosProps.v
