(* ===== verification/Prelude.v ===== *)
(** * PaxosBus: a verification development

    The program is [src/paxosbus/], a replicated log in which clients announce
    when their messages ("buses" of requests) arrive, so that every replica can
    compute the position of a bus in the log before it arrives.

    ** The program and its parts

    Clients ([client.go], [client_schedule.go]) ask the leader of the current
    view for a schedule window.  The leader proposes the windows of all clients
    to the replicas, commits a proposal a quorum accepted and answers the
    clients ([schedule.go], [schedule_transport.go]).  A client then sends one
    bus per scheduled arrival to every replica; the bus's sequence number is its
    arrival time.  A replica ([replica.go]) admits the bus, computes its slot
    (the number of scheduled buses before it), executes slots in order, keeps a
    rolling hash of the executed prefix and answers each request with its log
    index.  A missing slot is asked for, and closed as a no-op by agreement
    (gap recovery).  The leader regularly makes a prefix stable (synchronisation),
    and a replica that stops making progress starts a view change, whose new
    leader merges the reports of a quorum and sends the merged log
    ([recovery.go]).  [state.go] is the replicated store, [wire/] the message
    formats, [config/] the configuration, [durablelog.go] and [logreader.go] the
    on-disk record of executed slots.

    The repository also holds the protocols PaxosBus is compared with, which share
    the store, a message table ([src/rpc]), connections ([src/replica]) and
    generated marshalling ([defs.go] of each) and no state with PaxosBus: Multi-Paxos
    ([src/paxos]), N2Paxos, EPaxos, Fast Paxos, CURP and SwiftPaxos.

    ** Files

    Foundations:
    - [Prelude]: fixed-width integers, record update, sums, [sort.Search].
    - [WireBase], [Wire], [WireStream]: byte buffers, every message of
      [wire/msgs.go] and [wire/schedule_msgs.go] with its codec (class
      [WireCodec]), and the framing of messages on a connection.
    - [Config]: [config.go].
    - [State]: [src/state/state.go]; the third-party tree map is the class
      [Treemap] with the laws [TreemapLaws].

    The schedule:
    - [Lines], [GlobalOrder]: lines of windows, [countBefore], [validSequence],
      [computeGlobalSlot], and the order of buses they define.
    - [ScheduleProto], [SchedInv]: the agreement on windows and its invariant.
    - [Cursor]: the enumeration of scheduled buses that names the owner of a
      missing slot, and its reset.

    The client:
    - [Client], [ClientRun]: the client's requests, buses, replies, schedule and
      connections ([client.go], [client_plan.go], [client_schedule.go],
      [client_control.go]) and its goroutines as one transition system.
    - [ClientInv], [ClientPlan]: what its runs keep; its windows; the queue a
      connection's sender is.

    The replica:
    - [ReplicaState]: the record [Replica], all of its fields that the protocol
      reads, and [NewReplica].
    - [Log], [LogSpec], [LogInv], [LogFrame]: receiving, no-oping, executing,
      pruning, rewinding and clearing slots; the specification of each operation;
      the invariant [log_inv r h], which ties the rings, the hash, the dedup
      table, the undo records and the store to one history [h] of executed
      slots; and what the log operations leave alone.
    - [Admission]: admission of buses, the fault injector, replies, connections.
    - [Gaps]: gap recovery.
    - [Merge], [MergeSpec]: view-change reports, their merge, start views.
    - [Sync], [ViewChange], [Recovery]: synchronisation, view changes, the
      installation of a view and the fetch loop.
    - [ViewInv], [RecoveryInv]: the invariant [view_inv] through all of these.
    - [RecoveryLog], [RecoveryExec], [FetchLog]: the bus log through a recovery.

    - [DurableLog], [DurableSpec], [DurableInv]: the on-disk logs, the text of
      their records, and the map they refine.
    - [Serve], [Listener]: the state served to peers, and the replica as a whole:
      its message handlers, connections and goroutines as steps.
    - [NodeInv], [NodeView], [NodeSteps]: the log's invariant, the views and the
      history of a replica through every one of those steps.

    The baselines:
    - [Hook], [QuorumSets], [Handlers]: deferred calls, quorum systems and sets of
      replies, how a handler ends, and the sender.
    - [GobWire], [DefsWire], [PaxosWire], [N2Wire], [FastWire], [CurpWire],
      [EpaxosWire], [SwiftWire]: every generated message with its codec, sizes and
      caches; [Rpc]: the table of message types and a peer's connection.
    - [Paxos], [PaxosInv], [PaxosNet]: Multi-Paxos, its acceptor, and replicas with
      the messages between them as one transition system.
    - [N2Paxos], [N2Inv], [N2Turns]: N2Paxos with its descriptors and batcher; what
      replicas and their messages keep.
    - [EPaxos], [EpaxosExec]: EPaxos, its recovery, and the execution of its
      dependency graph; [EpaxosInv]: what its handlers keep; [EpaxosOrder]: the
      invariant of the graph algorithm.
    - [SwiftKeys]: what SwiftPaxos remembers per key, its comparison of
      dependencies and its log of hashes.

    Properties, by subject: [WireProps], [ConfigProps] (with the store),
    [ScheduleProps], [LogProps], [AgreementProps], [MergeProps], [NodeProps],
    [GapProps], [ViewProps], [RecoveryProps] (with the fetch loop), [ClientProps],
    [DurableProps] (with the state served), [BaseWireProps], [BaseProps], [N2Props],
    [EpaxosProps].

    ** How the code is translated

    A Go method on [*Replica] is a function of the state [Replica TM]; a section
    under [r.mu] is one step, and a goroutine that waits is cut at its waits into
    steps that take its local variables as arguments.  What a step sends is a
    list of [effect]s.  Clocks are arguments.  Integers are [Z] with the
    wrap-around of their Go type written out ([add64], [u64], [i64], ...); a map
    is a [gmap]; a ring indexed modulo its size is a [gmap] from positions with
    the same index arithmetic.  A pointer that the code compares for identity is
    an allocation number.  Channels with a capacity are lists with that bound.
    Definitions carry the Go name, without the suffix [Locked]; the part of a
    body that is a loop or a long branch has a name of its own next to it.

    ** What the theorems show

    - Wire and configuration: what is written is read back in sequence, a
      truncated message is an error, what is accepted from arbitrary bytes is
      within the limits; an accepted configuration gives intersecting quorums.
    - Schedule: [validateSchedule] accepts exactly the valid schedules, slots
      number the scheduled buses without holes, in order, and do not move when
      the schedule grows; the cursor inverts the numbering; the agreement commits
      only what a quorum prepared and every step keeps its invariant.
    - Log: every operation keeps [log_inv]; execution runs exactly the filled
      slots, answers a request once and deduplicates; a rewind undoes exactly
      what was executed; pruning drops nothing that may still be needed.
    - Views: the merge keeps every slot a quorum-blocking set holds; the merged
      start view passes the followers' validation; a recovery keeps the committed
      prefix and verifies the executed one; the view never goes back, and outside
      normal operation a watchdog leads to the next view; stable slots were
      acknowledged by a quorum; the fetch loop ends.
    - Gap recovery: the leader's reply to a missing slot fills it with the same
      requests; a no-op needs a quorum of acknowledgements in the gap's view.
    - The replica as a whole: no step but the installation of a view changes what
      was executed below the commit point.
    - Client: a request is committed only by a quorum with the leader, is never
      lost before that, and buses follow the windows granted; a connection's sender
      is a queue.
    - Durable log: pushes, writer, ticker and reads, however they interleave,
      behave as a map; an executed slot is read back as it was; what is served is
      accepted.
    - Baselines: what is written to a peer is read back; a Multi-Paxos acceptor
      keeps its promises and only proposed commands are chosen; N2Paxos replicas
      agree, and a follower executes what a majority accepted; an EPaxos acceptor
      keeps what is committed, dependencies cover the conflicts a replica knows,
      and execution respects them; deferred calls, quorum sets, per-key tables and
      the log of hashes refine simple data types.
    - Lemmas named after a failure ([leaders_disagree], [late_reply_uncommits],
      [rewound_ring_is_stale], ...) are concrete runs in which the code loses
      something it means to keep.

    ** Fuel and bounds

    Loops bounded by data recurse on it.  [search_loop] has [S n] fuel for a
    range of [n] (it halves the range).  The loops over slots ([advance_loop],
    [rewind_down], [clear_up]) take the number of slots as fuel, computed from
    the state before the loop as the code's own bound; [advance_executes_run]
    shows that the loop stops at the first empty slot, not at its fuel.
    [strongconnect] of [EpaxosExec] has as fuel one more than the instances there
    are, and [executeCommand] is shown never to run out of it.  Theorems
    about counters assume the log is shorter than 2^63 slots where an addition
    could wrap, and say so.

    ** Not modelled

    Sockets, timers, the logger and the mutexes (a step is a critical section);
    dialling and reconnecting loops except for the state they change; process
    entry points and flag parsing ([cmd/], [main.go], [run.go], [master/],
    [src/client], [src/config]).  Of the baselines: the handlers of SwiftPaxos
    ([swift.go], [recovery.go], [client.go]), CURP ([curp.go]) and Fast Paxos
    ([fastpaxos.go]); of [replica.go] what dials, accepts and measures latencies;
    the clocks that pace batches; and [MSync] of SwiftPaxos, whose form is that of
    [encoding/gob].  A handler of EPaxos and a turn of its executor are atomic
    steps, though two goroutines share their fields.  Liveness under a fair network
    is not stated.  The theorems on PaxosBus are about the steps of one process and
    the messages it exchanges; those on Multi-Paxos and N2Paxos are about runs of
    all replicas with messages that may be late, reordered or lost. *)
From Stdlib Require Export Strings.Byte.
From stdpp Require Export prelude gmap.

#[global] Open Scope Z_scope.

(** * Machine integers

    A [uint64] is a [Z] in [[0, 2^64)]; the operations below are Go's, with
    their wrap-around written out.  An [int64] is a [Z] in
    [[-2^63, 2^63)]. *)

Definition W32 : Z := 2 ^ 32.
Definition W64 : Z := 2 ^ 64.
Definition MaxInt64 : Z := 2 ^ 63 - 1.

Definition u32 (z : Z) : Z := z mod W32.
Definition u64 (z : Z) : Z := z mod W64.
(** conversion of a 64-bit pattern to a signed value: Go's [int64(x)] *)
Definition i64 (z : Z) : Z :=
  let m := z mod W64 in if m <? 2 ^ 63 then m else m - W64.

Definition add64 (a b : Z) : Z := u64 (a + b).
Definition sub64 (a b : Z) : Z := u64 (a - b).
Definition mul64 (a b : Z) : Z := u64 (a * b).

Definition is_u32 (z : Z) : Prop := 0 <= z < W32.
Definition is_u64 (z : Z) : Prop := 0 <= z < W64.
Definition is_i64 (z : Z) : Prop := - 2 ^ 63 <= z < 2 ^ 63.

#[export] Instance is_u32_dec z : Decision (is_u32 z).
Proof. unfold is_u32. apply _. Defined.
#[export] Instance is_u64_dec z : Decision (is_u64 z).
Proof. unfold is_u64. apply _. Defined.
#[export] Instance is_i64_dec z : Decision (is_i64 z).
Proof. unfold is_i64. apply _. Defined.

Create HintDb bus discriminated.
Create HintDb bus_rw.

Lemma u64_small z : is_u64 z -> u64 z = z.
Proof. unfold is_u64, u64. intros H. by apply Z.mod_small. Qed.

Lemma u32_small z : is_u32 z -> u32 z = z.
Proof. unfold is_u32, u32. intros H. by apply Z.mod_small. Qed.

Lemma u64_range z : is_u64 (u64 z).
Proof. unfold is_u64, u64. apply Z.mod_pos_bound. unfold W64. lia. Qed.

Lemma u32_range z : is_u32 (u32 z).
Proof. unfold is_u32, u32. apply Z.mod_pos_bound. unfold W32. lia. Qed.

Lemma u64_u64 z : u64 (u64 z) = u64 z.
Proof. apply u64_small, u64_range. Qed.

Lemma i64_small z : 0 <= z <= MaxInt64 -> i64 z = z.
Proof.
  unfold MaxInt64, i64. intros H. rewrite Z.mod_small by (unfold W64; lia).
  destruct (Z.ltb_spec z (2 ^ 63)); lia.
Qed.

#[export] Hint Resolve u64_range u32_range : bus.

(** [word_lia]: arithmetic over the named bounds. *)
Ltac unfold_words :=
  unfold is_u64, is_u32, is_i64, W64, W32, MaxInt64 in *.
Ltac word_lia := unfold_words; lia.

(** * Functional record update

    [r <| f := v |>] and [r <| f ::= g |>], as in Go's field assignment.  A
    record type declares its eta expansion once; the setter of a field is
    computed from it. *)

Class Eta (R : Type) := eta : R -> R.
Class Setter {R T : Type} (proj : R -> T) := upd : (T -> T) -> R -> R.

Ltac build_setter :=
  lazymatch goal with
  | |- @Setter ?R ?T ?proj =>
      let e := constr:(_ : Eta R) in
      let e := eval hnf in e in
      lazymatch eval pattern proj in e with
      | (fun _ => ?body) _ => fail
      | ?abs _ =>
          let t := constr:(fun (f : T -> T) (r : R) => abs (fun r' => f (proj r')) r) in
          let t := eval cbv beta in t in
          exact t
      end
  end.

#[export] Hint Extern 0 (Setter _) => build_setter : typeclass_instances.

Declare Scope go_scope.
Delimit Scope go_scope with go.
Notation "r <| f ::= g |>" := (upd (proj := f) g r)
  (at level 1, left associativity, f constr at level 0, g constr at level 200)
  : go_scope.
Notation "r <| f := v |>" := (upd (proj := f) (fun _ => v) r)
  (at level 1, left associativity, f constr at level 0, v constr at level 200)
  : go_scope.
#[global] Open Scope go_scope.
Arguments upd {R T} proj {Setter} _ _ : simpl never.
(** Conversion unfolds an update last, so that chains of updates are compared
    before they are computed. *)
#[global] Strategy 1000 [upd].

(** [rsimpl]: reads a field through updates of other fields. *)
Ltac is_proj p :=
  lazymatch p with upd _ _ => fail | _ => idtac end; let _ := constr:(_ : Setter p) in idtac.
Ltac read_eq R T p q s :=
  lazymatch p with
  | q => constr:((fun f r => eq_refl) : forall (f : T -> T) (r : R), p (@upd R T q s f r) = f (p r))
  | _ => constr:((fun f r => eq_refl) : forall (f : T -> T) (r : R), p (@upd R T q s f r) = p r)
  end.
Ltac rsimpl_goal :=
  repeat match goal with
  | |- context [?p (@upd ?R ?T ?q ?s ?f ?r)] =>
      is_proj p; let E := read_eq R T p q s in
      let H := fresh in pose proof (E f r) as H; rewrite H; clear H; cbv beta
  end.
Ltac rsimpl_hyp H :=
  repeat match type of H with
  | context [?p (@upd ?R ?T ?q ?s ?f ?r)] =>
      is_proj p; let E := read_eq R T p q s in
      let H' := fresh in pose proof (E f r) as H'; rewrite H' in H; clear H'; cbv beta in H
  end.
Ltac rsimpl_all :=
  repeat match goal with
         | H : context [?p (@upd _ _ _ _ _ _)] |- _ =>
             is_proj p; progress rsimpl_hyp H
         end; rsimpl_goal.
Tactic Notation "rsimpl" := rsimpl_goal.
Tactic Notation "rsimpl" "in" hyp(H) := rsimpl_hyp H.
Tactic Notation "rsimpl" "in" "*" := rsimpl_all.

(** * Sums over lists *)

Fixpoint zsum {A} (f : A -> Z) (l : list A) : Z :=
  match l with
  | [] => 0
  | x :: l => f x + zsum f l
  end.

Section zsum.
Context {A : Type}.
Implicit Types (f g : A -> Z) (l : list A).

Lemma zsum_app f l1 l2 : zsum f (l1 ++ l2) = zsum f l1 + zsum f l2.
Proof. induction l1; simpl; lia. Qed.

Lemma zsum_ext f g l : (forall x, x ∈ l -> f x = g x) -> zsum f l = zsum g l.
Proof.
  induction l as [|x l IH]; intros H; simpl; [done|].
  rewrite (H x), IH; [done| |]; set_solver.
Qed.

Lemma zsum_le f g l : (forall x, x ∈ l -> f x <= g x) -> zsum f l <= zsum g l.
Proof.
  induction l as [|x l IH]; intros H; simpl; [lia|].
  assert (f x <= g x) by (apply H; set_solver).
  assert (zsum f l <= zsum g l) by (apply IH; set_solver). lia.
Qed.

Lemma zsum_lt f g l x :
  (forall x, x ∈ l -> f x <= g x) -> x ∈ l -> f x < g x -> zsum f l < zsum g l.
Proof.
  intros H Hx Hlt. apply list_elem_of_split in Hx as (l1 & l2 & ->).
  rewrite !zsum_app. simpl.
  assert (zsum f l1 <= zsum g l1) by (apply zsum_le; set_solver).
  assert (zsum f l2 <= zsum g l2) by (apply zsum_le; set_solver). lia.
Qed.

Lemma zsum_nonneg f l : (forall x, x ∈ l -> 0 <= f x) -> 0 <= zsum f l.
Proof.
  induction l as [|x l IH]; intros H; simpl; [lia|].
  assert (0 <= f x) by (apply H; set_solver).
  assert (0 <= zsum f l) by (apply IH; set_solver). lia.
Qed.

Lemma zsum_perm f l1 l2 : l1 ≡ₚ l2 -> zsum f l1 = zsum f l2.
Proof. induction 1; simpl; lia. Qed.

Lemma zsum_elem_le f l x : (forall x, x ∈ l -> 0 <= f x) -> x ∈ l -> f x <= zsum f l.
Proof.
  intros H Hx. apply list_elem_of_split in Hx as (l1 & l2 & ->).
  rewrite zsum_app. simpl.
  assert (0 <= zsum f l1) by (apply zsum_nonneg; set_solver).
  assert (0 <= zsum f l2) by (apply zsum_nonneg; set_solver). lia.
Qed.
End zsum.

(** * [sort.Search]: the binary search of the standard library *)

Fixpoint search_loop (fuel : nat) (f : nat -> bool) (i j : nat) : nat :=
  match fuel with
  | O => i
  | S fuel =>
      if Nat.ltb i j then
        let h := Nat.div (i + j) 2 in
        if f h then search_loop fuel f i h else search_loop fuel f (S h) j
      else i
  end.
Definition Search (n : nat) (f : nat -> bool) : nat := search_loop (S n) f 0 n.

Section search.
Context (n : nat) (f : nat -> bool).
Hypothesis mono : forall i j, (i <= j < n)%nat -> f i = true -> f j = true.

Lemma search_loop_spec fuel i j :
  (j - i < fuel)%nat -> (i <= j <= n)%nat ->
  (forall x, (x < i)%nat -> f x = false) -> (forall x, (j <= x < n)%nat -> f x = true) ->
  let r := search_loop fuel f i j in
  (i <= r <= j)%nat /\ (forall x, (x < r)%nat -> f x = false) /\
  (forall x, (r <= x < n)%nat -> f x = true).
Proof.
  revert i j. induction fuel as [|fuel IH]; intros i j Hf Hij Hlo Hhi; [lia|].
  cbn [search_loop]. destruct (Nat.ltb_spec i j) as [Hlt|Hge].
  2:{ assert (i = j) as -> by lia. split_and!; auto. }
  cbv zeta. set (h := Nat.div (i + j) 2).
  assert (i <= h < j)%nat as Hh.
  { unfold h. pose proof (Nat.div_mod_eq (i + j) 2).
    pose proof (Nat.mod_upper_bound (i + j) 2 ltac:(lia)). lia. }
  destruct (f h) eqn:E.
  - destruct (IH i h) as (? & ? & ?); [lia|lia|done| |split; [lia|auto]].
    intros x Hx. apply (mono h); [lia|done].
  - destruct (IH (S h) j) as (? & ? & ?); [lia|lia| |done|split; [lia|auto]].
    intros x Hx. destruct (f x) eqn:Ex; [|done].
    rewrite <- E. symmetry. apply (mono x); [lia|done].
Qed.

Lemma Search_spec :
  let r := Search n f in
  (r <= n)%nat /\ (forall x, (x < r)%nat -> f x = false) /\
  (forall x, (r <= x < n)%nat -> f x = true).
Proof.
  destruct (search_loop_spec (S n) 0 n) as (? & ? & ?);
    [lia|lia|intros; exfalso; lia..|].
  split; [unfold Search; lia|auto].
Qed.
End search.
