(* ===== verification/WireBase.v ===== *)
(** Byte buffers and readers: what the codec of [src/paxosbus/internal/wire]
    uses of Go's [encoding/binary], [io.ReadFull] and fixed-size byte arrays,
    with the [WireCodec] class every message type instantiates. *)
From S2P Require Import Prelude.

(** * Bytes *)

Lemma to_N_inj x y : Byte.to_N x = Byte.to_N y -> x = y.
Proof. intros E. pose proof (Byte.of_to_N x). pose proof (Byte.of_to_N y). congruence. Qed.

#[export] Instance byte_eq_dec : EqDecision byte.
Proof.
  refine (fun x y => cast_if (decide (Byte.to_N x = Byte.to_N y))); [|congruence].
  by apply to_N_inj.
Defined.

Definition byte_val (b : byte) : Z := Z.of_N (Byte.to_N b).
Definition byte_of (z : Z) : byte :=
  match Byte.of_N (Z.to_N (z mod 256)) with Some b => b | None => x00 end.

Lemma byte_val_range b : 0 <= byte_val b < 256.
Proof. unfold byte_val. pose proof (Byte.to_N_bounded b). lia. Qed.

Lemma byte_val_of z : byte_val (byte_of z) = z mod 256.
Proof.
  unfold byte_val, byte_of.
  pose proof (Z.mod_pos_bound z 256 eq_refl) as Hb.
  destruct (Byte.of_N (Z.to_N (z mod 256))) as [b|] eqn:E.
  - apply Byte.to_of_N in E. rewrite E. lia.
  - apply Byte.of_N_None_iff in E. lia.
Qed.

Lemma byte_of_val b : byte_of (byte_val b) = b.
Proof.
  unfold byte_of. rewrite Z.mod_small by apply byte_val_range.
  unfold byte_val. by rewrite N2Z.id, Byte.of_to_N.
Qed.

(** [binary.LittleEndian.PutUint32/PutUint64]: the low [n] bytes of [v]. *)
Fixpoint le_bytes (n : nat) (v : Z) : list byte :=
  match n with
  | O => []
  | S n => byte_of v :: le_bytes n (v / 256)
  end.

(** [binary.LittleEndian.Uint32/Uint64] *)
Fixpoint le_val (bs : list byte) : Z :=
  match bs with
  | [] => 0
  | b :: bs => byte_val b + 256 * le_val bs
  end.

Lemma length_le_bytes n v : length (le_bytes n v) = n.
Proof. revert v. induction n; intros v; simpl; auto. Qed.

Lemma le_val_range bs : 0 <= le_val bs < 256 ^ Z.of_nat (length bs).
Proof.
  induction bs as [|b bs IH]; simpl le_val; [simpl; lia|].
  cbn [length]. rewrite Nat2Z.inj_succ, Z.pow_succ_r by lia.
  pose proof (byte_val_range b). nia.
Qed.

Lemma le_val_bytes n v : le_val (le_bytes n v) = v mod 256 ^ Z.of_nat n.
Proof.
  revert v. induction n as [|n IH]; intros v.
  - simpl. by rewrite Z.mod_1_r.
  - simpl le_bytes. simpl le_val. rewrite IH, byte_val_of.
    rewrite Nat2Z.inj_succ, Z.pow_succ_r by lia.
    rewrite Z.rem_mul_r by lia. lia.
Qed.

(** * Fixed-size buffers

    [var b \[n\]byte] is [zeros n]; [put b off bs] is the write of [bs] at
    offset [off], [sub b off n] the slice [b\[off : off+n\]]. *)

Definition zeros (n : nat) : list byte := replicate n x00.
Definition put (b : list byte) (off : nat) (bs : list byte) : list byte :=
  take (length b) (take off b ++ bs ++ drop (off + length bs) b).
Definition sub (b : list byte) (off n : nat) : list byte := take n (drop off b).

Definition PutUint64 (b : list byte) (off : nat) (v : Z) := put b off (le_bytes 8 v).
Definition PutUint32 (b : list byte) (off : nat) (v : Z) := put b off (le_bytes 4 v).
Definition PutByte (b : list byte) (off : nat) (v : byte) := put b off [v].
Definition Uint64 (b : list byte) (off : nat) : Z := le_val (sub b off 8).
Definition Uint32 (b : list byte) (off : nat) : Z := le_val (sub b off 4).
Definition ByteAt (b : list byte) (off : nat) : byte := default x00 (b !! off).

Lemma length_zeros n : length (zeros n) = n.
Proof. apply length_replicate. Qed.

Lemma length_put b off bs : length (put b off bs) = length b.
Proof.
  unfold put. rewrite length_take, !length_app, length_take, length_drop. lia.
Qed.

Lemma lookup_put b off bs i :
  (off + length bs <= length b)%nat ->
  put b off bs !! i =
    if decide (off <= i < off + length bs)%nat then bs !! (i - off)%nat else b !! i.
Proof.
  intros Hle. unfold put. case_decide as Hi.
  - rewrite lookup_take_lt by lia.
    rewrite lookup_app_r by (rewrite length_take; lia).
    rewrite length_take, Nat.min_l by lia.
    by rewrite lookup_app_l by lia.
  - destruct (decide (length b <= i)%nat) as [Hge|Hlt].
    { rewrite lookup_take_ge by lia. symmetry. by apply lookup_ge_None. }
    rewrite lookup_take_lt by lia.
    destruct (decide (i < off)%nat).
    + rewrite lookup_app_l by (rewrite length_take; lia).
      by rewrite lookup_take_lt by lia.
    + rewrite lookup_app_r by (rewrite length_take; lia).
      rewrite length_take, Nat.min_l by lia.
      rewrite lookup_app_r by lia. rewrite lookup_drop. f_equal. lia.
Qed.

Lemma lookup_sub b off n i :
  sub b off n !! i = if decide (i < n)%nat then b !! (off + i)%nat else None.
Proof.
  unfold sub. case_decide.
  - by rewrite lookup_take_lt, lookup_drop by lia.
  - by rewrite lookup_take_ge by lia.
Qed.

Lemma sub_put_eq b off bs n :
  n = length bs -> (off + n <= length b)%nat -> sub (put b off bs) off n = bs.
Proof.
  intros -> Hle. apply list_eq. intros i. rewrite lookup_sub.
  case_decide.
  - rewrite lookup_put by done. rewrite decide_True by lia. f_equal. lia.
  - symmetry. apply lookup_ge_None. lia.
Qed.

Lemma sub_put_ne b off bs off' n :
  (off + length bs <= length b)%nat ->
  (off' + n <= off \/ off + length bs <= off')%nat ->
  sub (put b off bs) off' n = sub b off' n.
Proof.
  intros Hle Hd. apply list_eq. intros i. rewrite !lookup_sub.
  case_decide; [|done]. rewrite lookup_put by done.
  rewrite decide_False by lia. done.
Qed.

Lemma ByteAt_put_eq b off v :
  (off < length b)%nat -> ByteAt (put b off [v]) off = v.
Proof.
  intros H. unfold ByteAt. rewrite lookup_put by (simpl; lia).
  rewrite decide_True by (simpl; lia). by rewrite Nat.sub_diag.
Qed.

Lemma ByteAt_put_ne b off bs off' :
  (off + length bs <= length b)%nat ->
  (off' < off \/ off + length bs <= off')%nat ->
  ByteAt (put b off bs) off' = ByteAt b off'.
Proof.
  intros Hle Hd. unfold ByteAt. rewrite lookup_put by done.
  by rewrite decide_False by lia.
Qed.

Lemma ByteAt_zeros n off : ByteAt (zeros n) off = x00.
Proof.
  unfold ByteAt, zeros. destruct (replicate n x00 !! off) eqn:E; [|done].
  apply lookup_replicate in E as [-> _]. done.
Qed.

Lemma Uint64_range b off : is_u64 (Uint64 b off).
Proof.
  unfold Uint64, is_u64. pose proof (le_val_range (sub b off 8)) as H.
  assert (length (sub b off 8) <= 8)%nat as Hl.
  { unfold sub. rewrite length_take. lia. }
  assert (256 ^ Z.of_nat (length (sub b off 8)) <= 256 ^ 8).
  { apply Z.pow_le_mono_r; lia. }
  change W64 with (256 ^ 8). lia.
Qed.

Lemma Uint32_range b off : is_u32 (Uint32 b off).
Proof.
  unfold Uint32, is_u32. pose proof (le_val_range (sub b off 4)) as H.
  assert (length (sub b off 4) <= 4)%nat as Hl.
  { unfold sub. rewrite length_take. lia. }
  assert (256 ^ Z.of_nat (length (sub b off 4)) <= 256 ^ 4).
  { apply Z.pow_le_mono_r; lia. }
  change W32 with (256 ^ 4). lia.
Qed.

Lemma le_val_bytes64 v : is_u64 v -> le_val (le_bytes 8 v) = v.
Proof. intros H. rewrite le_val_bytes. by apply Z.mod_small. Qed.

Lemma le_val_bytes32 v : is_u32 v -> le_val (le_bytes 4 v) = v.
Proof. intros H. rewrite le_val_bytes. by apply Z.mod_small. Qed.

#[export] Hint Resolve Uint64_range Uint32_range : bus.

Arguments put : simpl never.
Arguments sub : simpl never.
Arguments zeros : simpl never.
Arguments le_bytes : simpl never.
Arguments le_val : simpl never.

(** [buf_simpl]: the lengths and reads of a buffer just written. *)
Ltac buf_len :=
  unfold PutUint64, PutUint32, PutByte in *;
  rewrite ?length_put, ?length_le_bytes, ?length_zeros; cbn [length]; lia.
Ltac buf_simpl :=
  unfold Uint64, Uint32, PutUint64, PutUint32, PutByte;
  repeat first
    [ rewrite sub_put_eq by buf_len
    | rewrite sub_put_ne by buf_len
    | rewrite ByteAt_put_eq by buf_len
    | rewrite ByteAt_put_ne by buf_len
    | rewrite ByteAt_zeros ].

(** * Readers

    [io.ReadFull] reports [EOF] when nothing could be read and
    [ErrUnexpectedEOF] on a partial read; a decoder adds its own length
    errors.  A reader returns the unread bytes with its result. *)

Inductive wire_error :=
| EOF
| ErrUnexpectedEOF
| ErrTooLong (n : Z)      (* a declared element count above its limit *)
| ErrUnknownType (c : Z). (* a message code the receiver does not know *)

Inductive result (A : Type) :=
| Ok (a : A) (rest : list byte)
| Err (e : wire_error).
Arguments Ok {A}.
Arguments Err {A}.

Definition reader (A : Type) := list byte -> result A.

Definition rd_ret {A} (a : A) : reader A := fun bs => Ok a bs.
Definition rd_fail {A} (e : wire_error) : reader A := fun _ => Err e.
Definition rd_bind {A B} (p : reader A) (k : A -> reader B) : reader B :=
  fun bs => match p bs with Ok a rest => k a rest | Err e => Err e end.

Notation "x <- p ;; k" := (rd_bind p (fun x => k))
  (at level 100, p at next level, right associativity) : go_scope.

Definition ReadFull (n : nat) : reader (list byte) := fun bs =>
  if decide (n <= length bs)%nat then Ok (take n bs) (drop n bs)
  else Err (if decide (bs = []) then EOF else ErrUnexpectedEOF).

(** [for i := range out { out\[i\].Unmarshal(r) }] *)
Fixpoint read_n {A} (p : reader A) (n : nat) : reader (list A) :=
  match n with
  | O => rd_ret []
  | S n => x <- p ;; xs <- read_n p n ;; rd_ret (x :: xs)
  end.

(** ** Properties of readers, closed under the combinators *)

(** more input after an accepted message does not change what is read *)
Definition Ext {A} (p : reader A) : Prop :=
  forall bs a rest ext, p bs = Ok a rest -> p (bs ++ ext) = Ok a (rest ++ ext).

(** every accepted value satisfies [Q] *)
Definition Post {A} (p : reader A) (Q : A -> Prop) : Prop :=
  forall bs a rest, p bs = Ok a rest -> Q a.

(** [bs] is read back as [a], whatever follows *)
Definition Reads {A} (p : reader A) (bs : list byte) (a : A) : Prop :=
  forall rest, p (bs ++ rest) = Ok a rest.

Section combinators.
Context {A B : Type}.

Lemma Ext_ret (a : A) : Ext (rd_ret a).
Proof. intros bs a' rest ext [= -> ->]. done. Qed.

Lemma Ext_fail e : Ext (@rd_fail A e).
Proof. intros bs a' rest ext H. done. Qed.

Lemma Ext_bind (p : reader A) (k : A -> reader B) :
  Ext p -> (forall a, Ext (k a)) -> Ext (rd_bind p k).
Proof.
  intros Hp Hk bs b rest ext. unfold rd_bind.
  destruct (p bs) as [a r|] eqn:E; [|done].
  rewrite (Hp _ _ _ ext E). apply Hk.
Qed.

Lemma Ext_ReadFull n : Ext (ReadFull n).
Proof.
  intros bs a rest ext. unfold ReadFull.
  case_decide as Hn; [|done]. intros [= <- <-].
  rewrite decide_True by (rewrite length_app; lia).
  by rewrite take_app_le, drop_app_le by lia.
Qed.

Lemma Ext_read_n (p : reader A) n : Ext p -> Ext (read_n p n).
Proof.
  intros Hp. induction n; simpl; [intros ???? [= <- <-]; done|].
  intros bs a rest ext. unfold rd_bind, rd_ret.
  destruct (p bs) as [x r|] eqn:E; [|done]. rewrite (Hp _ _ _ ext E).
  destruct (read_n p n r) as [xs r'|] eqn:E'; [|done].
  rewrite (IHn _ _ _ ext E'). by intros [= <- <-].
Qed.

Lemma Ext_if (b : bool) (p q : reader A) : Ext p -> Ext q -> Ext (if b then p else q).
Proof. by destruct b. Qed.

Lemma Post_ret (a : A) (Q : A -> Prop) : Q a -> Post (rd_ret a) Q.
Proof. by intros H bs a' rest [= -> ->]. Qed.

Lemma Post_fail e (Q : A -> Prop) : Post (rd_fail e) Q.
Proof. intros bs a rest H. done. Qed.

Lemma Post_bind (p : reader A) (k : A -> reader B) P Q :
  Post p P -> (forall a, P a -> Post (k a) Q) -> Post (rd_bind p k) Q.
Proof.
  intros Hp Hk bs b rest. unfold rd_bind.
  destruct (p bs) as [a r|] eqn:E; [|done].
  apply Hk. by eapply Hp.
Qed.

Lemma Post_if (c : bool) (p q : reader A) Q :
  (c = true -> Post p Q) -> (c = false -> Post q Q) -> Post (if c then p else q) Q.
Proof. destruct c; auto. Qed.

Lemma Post_ReadFull n : Post (ReadFull n) (fun b => length b = n).
Proof.
  intros bs a rest. unfold ReadFull. case_decide; [|done].
  intros [= <- <-]. rewrite length_take. lia.
Qed.

Lemma Post_read_n (p : reader A) n Q :
  Post p Q -> Post (read_n p n) (fun xs => length xs = n /\ Forall Q xs).
Proof.
  intros Hp. induction n; intros bs a rest.
  - intros [= <- <-]. auto.
  - simpl. unfold rd_bind, rd_ret.
    destruct (p bs) as [x r|] eqn:E; [|done].
    destruct (read_n p n r) as [xs r'|] eqn:E'; [|done].
    intros [= <- <-]. destruct (IHn _ _ _ E') as [<- HF].
    split; [done|]. constructor; [by eapply Hp|done].
Qed.

Lemma Reads_ret (a : A) : Reads (rd_ret a) [] a.
Proof. intros rest. done. Qed.

Lemma Reads_bind (p : reader A) (k : A -> reader B) bs1 bs2 a b :
  Reads p bs1 a -> Reads (k a) bs2 b -> Reads (rd_bind p k) (bs1 ++ bs2) b.
Proof.
  intros Hp Hk rest. unfold rd_bind. rewrite <- (assoc_L (++)), Hp. apply Hk.
Qed.

Lemma Reads_bind_last (p : reader A) (k : A -> reader B) bs a b :
  Reads p bs a -> Reads (k a) [] b -> Reads (rd_bind p k) bs b.
Proof.
  intros Hp Hk. rewrite <- (app_nil_r bs). by eapply Reads_bind.
Qed.

Lemma Reads_ReadFull n bs : length bs = n -> Reads (ReadFull n) bs bs.
Proof.
  intros <- rest. unfold ReadFull.
  rewrite decide_True by (rewrite length_app; lia).
  by rewrite take_app_length, drop_app_length.
Qed.

Lemma Reads_read_n (p : reader A) (m : A -> list byte) xs :
  Forall (fun x => Reads p (m x) x) xs ->
  Reads (read_n p (length xs)) (concat (m <$> xs)) xs.
Proof.
  induction 1 as [|x xs Hx Hxs IH]; simpl; [by intros rest|].
  intros rest. unfold rd_bind, rd_ret.
  rewrite <- (assoc_L (++)), Hx, IH. done.
Qed.

Lemma Reads_if (c : bool) (p q : reader A) bs a :
  c = false -> Reads q bs a -> Reads (if c then p else q) bs a.
Proof. by intros ->. Qed.

(** A strict prefix of an accepted message is an error. *)
Lemma Reads_prefix_fails (p : reader A) bs a pre suf :
  Ext p -> Reads p bs a -> bs = pre ++ suf -> suf <> [] ->
  exists e, p pre = Err e.
Proof.
  intros He Hr -> Hne. specialize (Hr []). rewrite app_nil_r in Hr.
  destruct (p pre) as [a' r|e] eqn:E; [|eauto].
  rewrite (He _ _ _ suf E) in Hr. injection Hr as _ Hr.
  apply app_eq_nil in Hr as [_ ?]. done.
Qed.
End combinators.

#[export] Hint Resolve Ext_ret Ext_fail Ext_bind Ext_ReadFull Ext_read_n Ext_if : bus.

(** * The codec interface

    What a message type promises to its users: a well-formed value is read
    back exactly, accepting does not depend on what follows on the stream,
    and whatever is accepted is well formed. *)

Class WireCodec (A : Type) := {
  Marshal : A -> list byte;
  Unmarshal : reader A;
  Wf : A -> Prop;
  codec_reads m : Wf m -> Reads Unmarshal (Marshal m) m;
  codec_ext : Ext Unmarshal;
  codec_post : Post Unmarshal Wf;
}.

Section codec.
Context `{WireCodec A}.

Lemma codec_roundtrip m : Wf m -> Unmarshal (Marshal m) = Ok m [].
Proof. intros Hm. rewrite <- (app_nil_r (Marshal m)). by apply codec_reads. Qed.

Lemma codec_truncated m pre suf :
  Wf m -> Marshal m = pre ++ suf -> suf <> [] -> exists e, Unmarshal pre = Err e.
Proof. intros Hm. eapply Reads_prefix_fails; [apply codec_ext|by apply codec_reads]. Qed.

Lemma codec_inj m1 m2 : Wf m1 -> Wf m2 -> Marshal m1 = Marshal m2 -> m1 = m2.
Proof.
  intros H1 H2 E. apply codec_roundtrip in H1, H2. rewrite E in H1. congruence.
Qed.
End codec.
#[export] Hint Resolve codec_ext : bus.

(** * Shared steps of the decoders *)

(** [for i, v := range \[...\]uint64{...} { PutUint64(b\[off+i*8:\], v) }] *)
Fixpoint PutUint64s (b : list byte) (off : nat) (vs : list Z) : list byte :=
  match vs with
  | [] => b
  | v :: vs => PutUint64s (PutUint64 b off v) (off + 8) vs
  end.

(** [if len(p) > 0 { w.Write(p) }] *)
Definition WriteBytes (p : list byte) : list byte :=
  if decide (0 < length p)%nat then p else [].

Lemma WriteBytes_eq p : WriteBytes p = p.
Proof. unfold WriteBytes. case_decide; [done|]. destruct p; [done|simpl in *; lia]. Qed.

Definition putBool (b : list byte) (off : nat) (v : bool) : list byte :=
  if v then PutByte b off x01 else PutByte b off x00.

(** [b\[off\] != 0] *)
Definition getBool (b : list byte) (off : nat) : bool :=
  negb (Byte.eqb (ByteAt b off) x00).

Lemma putBool_eq b off v : putBool b off v = put b off [if v then x01 else x00].
Proof. by destruct v. Qed.

Lemma Reads_ret_eq {A} (a a' : A) : a = a' -> Reads (rd_ret a) [] a'.
Proof. intros ->. apply Reads_ret. Qed.

(** a fixed-size header is read by one [ReadFull] *)
Lemma Reads_header {B} n hdr (k : list byte -> reader B) tl b :
  length hdr = n -> Reads (k hdr) tl b -> Reads (rd_bind (ReadFull n) k) (hdr ++ tl) b.
Proof. intros Hl Hk. eapply Reads_bind; [by apply Reads_ReadFull|done]. Qed.

Lemma Reads_header_last {B} n hdr (k : list byte -> reader B) b :
  length hdr = n -> Reads (k hdr) [] b -> Reads (rd_bind (ReadFull n) k) hdr b.
Proof. intros Hl Hk. eapply Reads_bind_last; [by apply Reads_ReadFull|done]. Qed.

(** [solve_ext]: a decoder built from the combinators extends. *)
Ltac solve_ext :=
  repeat first
    [ apply Ext_ret | apply Ext_fail | apply Ext_ReadFull | apply codec_ext
    | apply Ext_if | apply Ext_read_n | apply Ext_bind; [|intros ?]
    | progress cbv zeta | progress auto with bus ].

(** [fields]: a decoded record is the encoded one, field by field. *)
Ltac fields :=
  first [ apply Reads_ret_eq | idtac ];
  unfold getBool; rewrite ?putBool_eq; buf_simpl;
  rewrite ?le_val_bytes64, ?le_val_bytes32 by (first [done | tauto | word_lia]).
