(* ===== verification/Wire.v ===== *)
(** The messages of [src/paxosbus/internal/wire/msgs.go] and
    [schedule_msgs.go] (and the control message of
    [protocol/client_control.go]): one record per Go struct, its [Marshal] and
    [Unmarshal] with the source's byte offsets and limits, and a [WireCodec]
    instance per type.  At the end, the stream framing: a code byte followed
    by the message, as [lockedWriter.sendMsg] writes it and
    [Replica.clientListener] reads it. *)
From S2P Require Import Prelude WireBase.

(** * Codes and limits *)

Definition MsgBusGapRequest : Z := 4.
Definition MsgBusGapReply : Z := 5.
Definition MsgBusGapCommit : Z := 6.
Definition MsgBusGapCommitReply : Z := 7.
Definition MsgBus : Z := 8.
Definition MsgRequestReply : Z := 9.
Definition MsgBusSyncPrepare : Z := 10.
Definition MsgBusSyncReply : Z := 11.
Definition MsgBusSyncCommit : Z := 12.
Definition MsgBusViewChangeRequest : Z := 13.
Definition MsgBusViewChange : Z := 14.
Definition MsgBusStartView : Z := 15.
Definition MsgBusStateQuery : Z := 16.
Definition MsgBusGetState : Z := 17.
Definition MsgBusNewState : Z := 18.
Definition MsgClientPause : Z := 19.
Definition MsgClientStatusQuery : Z := 20.
Definition MsgClientStatusReply : Z := 21.
Definition MsgBusScheduleInstall : Z := 24.
Definition MsgHsRequest : Z := MsgBusScheduleInstall + 3 + 0.
Definition MsgSchdPrepare : Z := MsgBusScheduleInstall + 3 + 1.
Definition MsgSchdPrepareReply : Z := MsgBusScheduleInstall + 3 + 2.
Definition MsgSchdCommit : Z := MsgBusScheduleInstall + 3 + 3.
Definition MsgHsReply : Z := MsgBusScheduleInstall + 3 + 4.

Definition MaxBitmapBytes : Z := Z.shiftl 1 20.
Definition maxSlotListLen : Z := Z.shiftl 1 20.
Definition MaxStateEntries : Z := Z.shiftl 1 16.
Definition MaxScheduleLen : Z := Z.shiftl 1 16.
Definition MaxScheduleHistoryLen : Z := Z.shiftl 1 24.

Lemma MaxScheduleLen_u32 : MaxScheduleLen < W32. Proof. reflexivity. Qed.
Lemma MaxScheduleHistoryLen_u32 : MaxScheduleHistoryLen < W32. Proof. reflexivity. Qed.
Lemma MaxStateEntries_u32 : MaxStateEntries < W32. Proof. reflexivity. Qed.
Lemma maxSlotListLen_u32 : maxSlotListLen < W32. Proof. reflexivity. Qed.
Lemma MaxBitmapBytes_u32 : MaxBitmapBytes < W32. Proof. reflexivity. Qed.
#[export] Hint Resolve MaxScheduleLen_u32 MaxScheduleHistoryLen_u32 MaxStateEntries_u32
  maxSlotListLen_u32 MaxBitmapBytes_u32 : bus.
#[global] Opaque MaxScheduleLen MaxScheduleHistoryLen MaxStateEntries maxSlotListLen
  MaxBitmapBytes.

Abbreviation Zlength l := (Z.of_nat (length l)).

(** A list that a decoder with limit [lim] accepts, of elements satisfying [Q]. *)
Definition bounded {A} (lim : Z) (Q : A -> Prop) (l : list A) : Prop :=
  Zlength l <= lim /\ Forall Q l.

Lemma limit_u32 n lim : 0 <= n <= lim -> lim < W32 -> is_u32 n.
Proof. word_lia. Qed.

(** * Counted lists

    [putSchedule]/[readSchedule] and their kin: a 32-bit count, checked
    against a limit, then the elements. *)

Definition put_counted {A} (m : A -> list byte) (l : list A) : list byte :=
  PutUint32 (zeros 4) 0 (Zlength l) ++ concat (m <$> l).

Definition read_counted {A} (lim : Z) (p : reader A) : reader (list A) :=
  b <- ReadFull 4 ;;
  let n := Uint32 b 0 in
  if lim <? n then rd_fail (ErrTooLong n) else read_n p (Z.to_nat n).

Lemma count_reads {A} (l : list A) (lim : Z) :
  Zlength l <= lim -> lim < W32 -> Uint32 (PutUint32 (zeros 4) 0 (Zlength l)) 0 = Zlength l.
Proof.
  intros. buf_simpl. apply le_val_bytes32. eapply limit_u32; [|done]. lia.
Qed.

Lemma Ext_counted {A} lim (p : reader A) : Ext p -> Ext (read_counted lim p).
Proof. intros. unfold read_counted. solve_ext. Qed.

Lemma Post_counted {A} lim (p : reader A) Q :
  Post p Q -> Post (read_counted lim p) (bounded lim Q).
Proof.
  intros Hp. unfold read_counted.
  eapply Post_bind; [apply Post_ReadFull|]. intros b Hb. cbv zeta.
  apply Post_if; intros Hc; [apply Post_fail|].
  intros bs a rest E. apply (Post_read_n _ _ _ Hp) in E as [Hl HF].
  split; [|done]. apply Z.ltb_ge in Hc. pose proof (Uint32_range b 0). word_lia.
Qed.

Lemma Reads_counted {A} lim (p : reader A) (m : A -> list byte) l :
  lim < W32 -> bounded lim (fun x => Reads p (m x) x) l ->
  Reads (read_counted lim p) (put_counted m l) l.
Proof.
  intros Hlim [Hl HF]. unfold read_counted, put_counted.
  apply Reads_header; [buf_len|]. cbv zeta. erewrite count_reads by done.
  rewrite (proj2 (Z.ltb_ge _ _)) by lia. rewrite Nat2Z.id.
  by apply Reads_read_n.
Qed.

#[export] Hint Resolve Ext_counted : bus.

(** [fixed_codec]: the laws of a message made of one fixed-size buffer. *)
Ltac destruct_ands :=
  repeat match goal with H : _ /\ _ |- _ => destruct H end.
Ltac bool_fields :=
  repeat match goal with b : bool |- _ => destruct b end.
Ltac ranges :=
  repeat match goal with |- _ /\ _ => split end; auto with bus.
(** a goal that unfolds to a conjunction of hypotheses *)
Ltac wf_split :=
  hnf; cbn in *; repeat match goal with |- _ /\ _ => split end;
  first [assumption | auto with bus].
Ltac fixed_codec m u w :=
  first
    [ intros []; intros; unfold w in *; cbn in *; destruct_ands; unfold m, u; cbn;
      apply Reads_header_last; [rewrite ?putBool_eq; buf_len|];
      bool_fields; by fields
    | solve [unfold u; solve_ext]
    | unfold u, w; eapply Post_bind; [apply Post_ReadFull|]; intros; apply Post_ret;
      cbn; ranges ].

(** * Client schedule handshake ([schedule_msgs.go]) *)

Record HsRequest := mkHsRequest {
  hs_ClientId : Z; hs_StartTime : Z; hs_IntervalMs : Z }.

Record SchdPrepareReply := mkSchdPrepareReply {
  spr_ReplicaId : Z; spr_ViewId : Z; spr_StartTime : Z; spr_EndTime : Z }.

(** [type SchdCommit SchdPrepareReply] *)
Definition SchdCommit : Type := SchdPrepareReply.

Record SchdPrepare := mkSchdPrepare {
  sp_ReplicaId : Z; sp_ViewId : Z; sp_HsReqList : list HsRequest;
  sp_StartTime : Z; sp_EndTime : Z }.

Record HsReply := mkHsReply {
  hr_ReplicaId : Z; hr_ViewId : Z; hr_IntervalMs : Z;
  hr_StartTime : Z; hr_EndTime : Z }.

Definition HsRequest_Marshal (m : HsRequest) : list byte :=
  PutUint64s (zeros 24) 0 [hs_ClientId m; hs_StartTime m; hs_IntervalMs m].

Definition HsRequest_Unmarshal : reader HsRequest :=
  b <- ReadFull 24 ;;
  rd_ret {| hs_ClientId := Uint64 b 0; hs_StartTime := Uint64 b 8;
            hs_IntervalMs := Uint64 b 16 |}.

Definition HsRequest_wf (m : HsRequest) : Prop :=
  is_u64 (hs_ClientId m) /\ is_u64 (hs_StartTime m) /\ is_u64 (hs_IntervalMs m).

#[export, refine] Instance HsRequest_codec : WireCodec HsRequest := {|
  Marshal := HsRequest_Marshal; Unmarshal := HsRequest_Unmarshal; Wf := HsRequest_wf |}.
Proof. all: fixed_codec HsRequest_Marshal HsRequest_Unmarshal HsRequest_wf. Defined.
Arguments HsRequest_Marshal : simpl never.
Arguments HsRequest_Unmarshal : simpl never.

Lemma HsRequest_reads m : HsRequest_wf m -> Reads HsRequest_Unmarshal (HsRequest_Marshal m) m.
Proof. exact (codec_reads m). Qed.
Lemma HsRequest_ext : Ext HsRequest_Unmarshal.
Proof. exact codec_ext. Qed.
Lemma HsRequest_post : Post HsRequest_Unmarshal HsRequest_wf.
Proof. exact codec_post. Qed.
#[export] Hint Resolve HsRequest_reads HsRequest_ext : bus.

Definition SchdPrepareReply_Marshal (m : SchdPrepareReply) : list byte :=
  let b := PutUint32 (zeros 28) 0 (spr_ReplicaId m) in
  PutUint64s b 4 [spr_ViewId m; spr_StartTime m; spr_EndTime m].

Definition SchdPrepareReply_Unmarshal : reader SchdPrepareReply :=
  b <- ReadFull 28 ;;
  rd_ret {| spr_ReplicaId := Uint32 b 0; spr_ViewId := Uint64 b 4;
            spr_StartTime := Uint64 b 12; spr_EndTime := Uint64 b 20 |}.

Definition SchdPrepareReply_wf (m : SchdPrepareReply) : Prop :=
  is_u32 (spr_ReplicaId m) /\ is_u64 (spr_ViewId m) /\
  is_u64 (spr_StartTime m) /\ is_u64 (spr_EndTime m).

#[export, refine] Instance SchdPrepareReply_codec : WireCodec SchdPrepareReply := {|
  Marshal := SchdPrepareReply_Marshal; Unmarshal := SchdPrepareReply_Unmarshal;
  Wf := SchdPrepareReply_wf |}.
Proof.
  all: fixed_codec SchdPrepareReply_Marshal SchdPrepareReply_Unmarshal SchdPrepareReply_wf.
Defined.
Arguments SchdPrepareReply_Marshal : simpl never.
Arguments SchdPrepareReply_Unmarshal : simpl never.

Lemma SchdPrepareReply_reads m : SchdPrepareReply_wf m -> Reads SchdPrepareReply_Unmarshal (SchdPrepareReply_Marshal m) m.
Proof. exact (codec_reads m). Qed.
Lemma SchdPrepareReply_ext : Ext SchdPrepareReply_Unmarshal.
Proof. exact codec_ext. Qed.
Lemma SchdPrepareReply_post : Post SchdPrepareReply_Unmarshal SchdPrepareReply_wf.
Proof. exact codec_post. Qed.
#[export] Hint Resolve SchdPrepareReply_reads SchdPrepareReply_ext : bus.

Definition SchdCommit_Marshal (m : SchdCommit) : list byte := SchdPrepareReply_Marshal m.
Definition SchdCommit_Unmarshal : reader SchdCommit := SchdPrepareReply_Unmarshal.

Definition SchdPrepare_Marshal (m : SchdPrepare) : list byte :=
  SchdPrepareReply_Marshal
    {| spr_ReplicaId := sp_ReplicaId m; spr_ViewId := sp_ViewId m;
       spr_StartTime := sp_StartTime m; spr_EndTime := sp_EndTime m |} ++
  put_counted HsRequest_Marshal (sp_HsReqList m).

Definition SchdPrepare_Unmarshal : reader SchdPrepare :=
  h <- SchdPrepareReply_Unmarshal ;;
  l <- read_counted MaxScheduleLen HsRequest_Unmarshal ;;
  rd_ret {| sp_ReplicaId := spr_ReplicaId h; sp_ViewId := spr_ViewId h; sp_HsReqList := l;
            sp_StartTime := spr_StartTime h; sp_EndTime := spr_EndTime h |}.

Definition SchdPrepare_wf (m : SchdPrepare) : Prop :=
  is_u32 (sp_ReplicaId m) /\ is_u64 (sp_ViewId m) /\ is_u64 (sp_StartTime m) /\
  is_u64 (sp_EndTime m) /\ bounded MaxScheduleLen HsRequest_wf (sp_HsReqList m).

#[export, refine] Instance SchdPrepare_codec : WireCodec SchdPrepare := {|
  Marshal := SchdPrepare_Marshal; Unmarshal := SchdPrepare_Unmarshal; Wf := SchdPrepare_wf |}.
Proof.
  - intros [] (?&?&?&?&Hn&HF); cbn in *. unfold SchdPrepare_Marshal, SchdPrepare_Unmarshal; cbn.
    eapply Reads_bind; [apply SchdPrepareReply_reads; wf_split|].
    eapply Reads_bind_last; [|by apply Reads_ret_eq].
    apply Reads_counted; [auto with bus|]. split; [done|].
    eapply Forall_impl; [exact HF|]. auto with bus.
  - unfold SchdPrepare_Unmarshal. solve_ext.
  - eapply Post_bind; [apply SchdPrepareReply_post|]. intros h (?&?&?&?).
    eapply Post_bind; [apply Post_counted, HsRequest_post|]. intros l Hl.
    apply Post_ret. wf_split.
Defined.
Arguments SchdPrepare_Marshal : simpl never.
Arguments SchdPrepare_Unmarshal : simpl never.

Definition HsReply_Marshal (m : HsReply) : list byte :=
  SchdPrepareReply_Marshal
    {| spr_ReplicaId := hr_ReplicaId m; spr_ViewId := hr_ViewId m;
       spr_StartTime := hr_StartTime m; spr_EndTime := hr_EndTime m |} ++
  PutUint64 (zeros 8) 0 (hr_IntervalMs m).

Definition HsReply_Unmarshal : reader HsReply :=
  h <- SchdPrepareReply_Unmarshal ;;
  b <- ReadFull 8 ;;
  rd_ret {| hr_ReplicaId := spr_ReplicaId h; hr_ViewId := spr_ViewId h;
            hr_IntervalMs := Uint64 b 0;
            hr_StartTime := spr_StartTime h; hr_EndTime := spr_EndTime h |}.

Definition HsReply_wf (m : HsReply) : Prop :=
  is_u32 (hr_ReplicaId m) /\ is_u64 (hr_ViewId m) /\ is_u64 (hr_IntervalMs m) /\
  is_u64 (hr_StartTime m) /\ is_u64 (hr_EndTime m).

#[export, refine] Instance HsReply_codec : WireCodec HsReply := {|
  Marshal := HsReply_Marshal; Unmarshal := HsReply_Unmarshal; Wf := HsReply_wf |}.
Proof.
  - intros [] (?&?&?&?&?); cbn in *. unfold HsReply_Marshal, HsReply_Unmarshal; cbn.
    eapply Reads_bind; [apply SchdPrepareReply_reads; wf_split|].
    apply Reads_header_last; [buf_len|]. cbn. by fields.
  - unfold HsReply_Unmarshal. solve_ext.
  - eapply Post_bind; [apply SchdPrepareReply_post|]. intros h (?&?&?&?).
    eapply Post_bind; [apply Post_ReadFull|]. intros b _.
    apply Post_ret. wf_split.
Defined.
Arguments HsReply_Marshal : simpl never.
Arguments HsReply_Unmarshal : simpl never.

(** * Client schedules ([msgs.go]) *)

(** One client's bus line over one schedule window: buses arrive at [FirstMsgNs + (n-1) * IntervalMs], before [EndTime]. *)
Record BusSyncMessage := mkBusSyncMessage { bs_EndTime : Z; bs_ClientId : Z; bs_FirstMsgNs : Z; bs_IntervalMs : Z }.

Definition BusSyncMessage_Marshal (m : BusSyncMessage) : list byte :=
  let b := zeros 32 in
  let b := PutUint64 b 0 (bs_ClientId m) in
  let b := PutUint64 b 8 (bs_FirstMsgNs m) in
  let b := PutUint64 b 16 (bs_IntervalMs m) in
  let b := PutUint64 b 24 (bs_EndTime m) in
  b.

Definition BusSyncMessage_Unmarshal : reader BusSyncMessage :=
  b <- ReadFull 32 ;;
  rd_ret {| bs_EndTime := Uint64 b 24;
            bs_ClientId := Uint64 b 0;
            bs_FirstMsgNs := Uint64 b 8;
            bs_IntervalMs := Uint64 b 16 |}.

Definition BusSyncMessage_wf (m : BusSyncMessage) : Prop :=
  is_u64 (bs_EndTime m) /\ is_u64 (bs_ClientId m) /\ is_u64 (bs_FirstMsgNs m) /\ is_u64 (bs_IntervalMs m).

#[export, refine] Instance BusSyncMessage_codec : WireCodec BusSyncMessage := {|
  Marshal := BusSyncMessage_Marshal; Unmarshal := BusSyncMessage_Unmarshal; Wf := BusSyncMessage_wf |}.
Proof. all: fixed_codec BusSyncMessage_Marshal BusSyncMessage_Unmarshal BusSyncMessage_wf. Defined.
Arguments BusSyncMessage_Marshal : simpl never.
Arguments BusSyncMessage_Unmarshal : simpl never.

Lemma BusSyncMessage_reads m : BusSyncMessage_wf m -> Reads BusSyncMessage_Unmarshal (BusSyncMessage_Marshal m) m.
Proof. exact (codec_reads m). Qed.
Lemma BusSyncMessage_ext : Ext BusSyncMessage_Unmarshal.
Proof. exact codec_ext. Qed.
Lemma BusSyncMessage_post : Post BusSyncMessage_Unmarshal BusSyncMessage_wf.
Proof. exact codec_post. Qed.
#[export] Hint Resolve BusSyncMessage_reads BusSyncMessage_ext : bus.

#[export] Instance BusSyncMessage_eq_dec : EqDecision BusSyncMessage.
Proof. solve_decision. Defined.

Definition putSchedule (schedule : list BusSyncMessage) : list byte :=
  put_counted BusSyncMessage_Marshal schedule.

Definition readSchedule : reader (list BusSyncMessage) :=
  read_counted MaxScheduleHistoryLen BusSyncMessage_Unmarshal.

Definition schedule_wf : list BusSyncMessage -> Prop :=
  bounded MaxScheduleHistoryLen BusSyncMessage_wf.

Lemma Reads_schedule l : schedule_wf l -> Reads readSchedule (putSchedule l) l.
Proof.
  intros [Hn HF]. apply Reads_counted; [auto with bus|]. split; [done|].
  eapply Forall_impl; [exact HF|]. auto with bus.
Qed.
Lemma Ext_schedule : Ext readSchedule.
Proof. apply Ext_counted, BusSyncMessage_ext. Qed.
Lemma Post_schedule : Post readSchedule schedule_wf.
Proof. apply Post_counted, BusSyncMessage_post. Qed.
#[export] Hint Resolve Ext_schedule : bus.

(** The leader's authoritative, complete client schedule. *)
Record BusScheduleInstall := mkBusScheduleInstall {
  si_Epoch : Z; si_Digest : Z; si_SenderIdx : Z; si_Schedule : list BusSyncMessage }.

Definition BusScheduleInstall_Marshal (m : BusScheduleInstall) : list byte :=
  let b := zeros 20 in
  let b := PutUint64 b 0 (si_Epoch m) in
  let b := PutUint64 b 8 (si_Digest m) in
  let b := PutUint32 b 16 (si_SenderIdx m) in
  b ++ putSchedule (si_Schedule m).

Definition BusScheduleInstall_Unmarshal : reader BusScheduleInstall :=
  b <- ReadFull 20 ;;
  s <- readSchedule ;;
  rd_ret {| si_Epoch := Uint64 b 0; si_Digest := Uint64 b 8;
            si_SenderIdx := Uint32 b 16; si_Schedule := s |}.

Definition BusScheduleInstall_wf (m : BusScheduleInstall) : Prop :=
  is_u64 (si_Epoch m) /\ is_u64 (si_Digest m) /\ is_u32 (si_SenderIdx m) /\
  schedule_wf (si_Schedule m).

#[export, refine] Instance BusScheduleInstall_codec : WireCodec BusScheduleInstall := {|
  Marshal := BusScheduleInstall_Marshal; Unmarshal := BusScheduleInstall_Unmarshal;
  Wf := BusScheduleInstall_wf |}.
Proof.
  - intros [] (?&?&?&?); cbn in *.
    unfold BusScheduleInstall_Marshal, BusScheduleInstall_Unmarshal; cbn.
    apply Reads_header; [buf_len|].
    eapply Reads_bind_last; [by apply Reads_schedule|]. by fields.
  - unfold BusScheduleInstall_Unmarshal. solve_ext.
  - eapply Post_bind; [apply Post_ReadFull|]. intros b _.
    eapply Post_bind; [apply Post_schedule|]. intros s Hs.
    apply Post_ret. wf_split.
Defined.
Arguments BusScheduleInstall_Marshal : simpl never.
Arguments BusScheduleInstall_Unmarshal : simpl never.

(** * Requests and buses *)

Record RequestMessage := mkRequestMessage {
  rq_ClientId : Z; rq_RequestId : Z; rq_SendTimeNs : Z; rq_Op : list byte }.

Record BusMessage := mkBusMessage {
  bm_ClientId : Z; bm_BusSeqNum : Z; bm_SendTimeNs : Z;
  bm_Requests : list RequestMessage }.

Record RequestReplyMessage := mkRequestReplyMessage {
  rr_ClientId : Z; rr_RequestId : Z; rr_BusSlotNum : Z; rr_LogIndex : Z;
  rr_ViewId : Z; rr_ReplicaIdx : Z; rr_Result : list byte }.

#[export] Instance RequestMessage_eq_dec : EqDecision RequestMessage.
Proof. solve_decision. Defined.

(** a payload whose 32-bit length is in the header read before it *)
Definition payload_wf (p : list byte) : Prop := is_u32 (Zlength p).

Lemma payload_reads p rest :
  payload_wf p -> ReadFull (Z.to_nat (le_val (le_bytes 4 (Zlength p)))) (p ++ rest) = Ok p rest.
Proof.
  intros H. rewrite le_val_bytes32 by done. rewrite Nat2Z.id. by apply Reads_ReadFull.
Qed.

Lemma Post_payload b off : Post (ReadFull (Z.to_nat (Uint32 b off))) payload_wf.
Proof.
  intros bs p rest E. apply Post_ReadFull in E. unfold payload_wf. rewrite E.
  pose proof (Uint32_range b off). rewrite Z2Nat.id; [done|]. word_lia.
Qed.

(** [payload_codec]: the laws of a header followed by one payload. *)
Ltac payload_codec m u w :=
  first
    [ intros []; intros; unfold w in *; cbn in *; destruct_ands; unfold m, u; cbn;
      rewrite ?WriteBytes_eq; bool_fields; rewrite ?putBool_eq;
      (apply Reads_header; [buf_len|]); cbv zeta; buf_simpl;
      (eapply Reads_bind_last; [intros rest; by apply payload_reads|]); by fields
    | solve [unfold u; solve_ext]
    | unfold u, w; eapply Post_bind; [apply Post_ReadFull|]; intros; cbv zeta;
      eapply Post_bind; [apply Post_payload|]; intros; apply Post_ret;
      cbn; ranges; assumption ].

Definition RequestMessage_Marshal (m : RequestMessage) : list byte :=
  let b := zeros 28 in
  let b := PutUint64 b 0 (rq_ClientId m) in
  let b := PutUint64 b 8 (rq_RequestId m) in
  let b := PutUint64 b 16 (rq_SendTimeNs m) in
  let b := PutUint32 b 24 (Zlength (rq_Op m)) in
  b ++ WriteBytes (rq_Op m).

Definition RequestMessage_Unmarshal : reader RequestMessage :=
  b <- ReadFull 28 ;;
  let opLen := Uint32 b 24 in
  op <- ReadFull (Z.to_nat opLen) ;;
  rd_ret {| rq_ClientId := Uint64 b 0; rq_RequestId := Uint64 b 8;
            rq_SendTimeNs := Uint64 b 16; rq_Op := op |}.

Definition RequestMessage_wf (m : RequestMessage) : Prop :=
  is_u64 (rq_ClientId m) /\ is_u64 (rq_RequestId m) /\ is_u64 (rq_SendTimeNs m) /\
  payload_wf (rq_Op m).

#[export, refine] Instance RequestMessage_codec : WireCodec RequestMessage := {|
  Marshal := RequestMessage_Marshal; Unmarshal := RequestMessage_Unmarshal;
  Wf := RequestMessage_wf |}.
Proof. all: payload_codec RequestMessage_Marshal RequestMessage_Unmarshal RequestMessage_wf. Defined.
Arguments RequestMessage_Marshal : simpl never.
Arguments RequestMessage_Unmarshal : simpl never.

Lemma RequestMessage_reads m : RequestMessage_wf m -> Reads RequestMessage_Unmarshal (RequestMessage_Marshal m) m.
Proof. exact (codec_reads m). Qed.
Lemma RequestMessage_ext : Ext RequestMessage_Unmarshal.
Proof. exact codec_ext. Qed.
Lemma RequestMessage_post : Post RequestMessage_Unmarshal RequestMessage_wf.
Proof. exact codec_post. Qed.
#[export] Hint Resolve RequestMessage_reads RequestMessage_ext : bus.

(** [count := Uint32(...)] elements with no limit of their own *)
Definition requests_wf (l : list RequestMessage) : Prop := bounded (W32 - 1) RequestMessage_wf l.

Definition BusMessage_Marshal (m : BusMessage) : list byte :=
  let b := zeros 28 in
  let b := PutUint64 b 0 (bm_ClientId m) in
  let b := PutUint64 b 8 (bm_BusSeqNum m) in
  let b := PutUint64 b 16 (bm_SendTimeNs m) in
  let b := PutUint32 b 24 (Zlength (bm_Requests m)) in
  b ++ concat (RequestMessage_Marshal <$> bm_Requests m).

Definition BusMessage_Unmarshal : reader BusMessage :=
  b <- ReadFull 28 ;;
  let count := Uint32 b 24 in
  rs <- read_n RequestMessage_Unmarshal (Z.to_nat count) ;;
  rd_ret {| bm_ClientId := Uint64 b 0; bm_BusSeqNum := Uint64 b 8;
            bm_SendTimeNs := Uint64 b 16; bm_Requests := rs |}.

Definition BusMessage_wf (m : BusMessage) : Prop :=
  is_u64 (bm_ClientId m) /\ is_u64 (bm_BusSeqNum m) /\ is_u64 (bm_SendTimeNs m) /\
  requests_wf (bm_Requests m).

(** elements after a header that carries their count *)
Lemma elements_reads {A} (p : reader A) (m : A -> list byte) (w : A -> Prop) l lim :
  (forall x, w x -> Reads p (m x) x) -> lim < W32 -> bounded lim w l ->
  Reads (read_n p (Z.to_nat (le_val (le_bytes 4 (Zlength l))))) (concat (m <$> l)) l.
Proof.
  intros Hp Hlim [Hn HF].
  rewrite le_val_bytes32 by (eapply limit_u32; [|done]; lia).
  rewrite Nat2Z.id. apply Reads_read_n. eapply Forall_impl; [exact HF|]. done.
Qed.

Lemma Post_elements {A} (p : reader A) Q b off :
  Post p Q -> Post (read_n p (Z.to_nat (Uint32 b off))) (bounded (W32 - 1) Q).
Proof.
  intros Hp bs l rest E. apply (Post_read_n _ _ _ Hp) in E as [E HF].
  split; [|done]. pose proof (Uint32_range b off). word_lia.
Qed.

#[export, refine] Instance BusMessage_codec : WireCodec BusMessage := {|
  Marshal := BusMessage_Marshal; Unmarshal := BusMessage_Unmarshal; Wf := BusMessage_wf |}.
Proof.
  - intros [] (?&?&?&?); cbn in *. unfold BusMessage_Marshal, BusMessage_Unmarshal; cbn.
    apply Reads_header; [buf_len|]. cbv zeta. buf_simpl.
    eapply Reads_bind_last; [|by fields].
    apply (elements_reads _ _ RequestMessage_wf _ (W32 - 1)); auto with bus; lia.
  - unfold BusMessage_Unmarshal. solve_ext.
  - eapply Post_bind; [apply Post_ReadFull|]. intros b _. cbv zeta.
    eapply Post_bind; [apply Post_elements, RequestMessage_post|]. intros l Hl.
    apply Post_ret. wf_split.
Defined.
Arguments BusMessage_Marshal : simpl never.
Arguments BusMessage_Unmarshal : simpl never.

Definition RequestReplyMessage_Marshal (m : RequestReplyMessage) : list byte :=
  let b := zeros 48 in
  let b := PutUint64 b 0 (rr_ClientId m) in
  let b := PutUint64 b 8 (rr_RequestId m) in
  let b := PutUint64 b 16 (rr_BusSlotNum m) in
  let b := PutUint64 b 24 (rr_LogIndex m) in
  let b := PutUint64 b 32 (rr_ViewId m) in
  let b := PutUint32 b 40 (rr_ReplicaIdx m) in
  let b := PutUint32 b 44 (Zlength (rr_Result m)) in
  b ++ WriteBytes (rr_Result m).

Definition RequestReplyMessage_Unmarshal : reader RequestReplyMessage :=
  b <- ReadFull 48 ;;
  let resLen := Uint32 b 44 in
  res <- ReadFull (Z.to_nat resLen) ;;
  rd_ret {| rr_ClientId := Uint64 b 0; rr_RequestId := Uint64 b 8;
            rr_BusSlotNum := Uint64 b 16; rr_LogIndex := Uint64 b 24;
            rr_ViewId := Uint64 b 32; rr_ReplicaIdx := Uint32 b 40; rr_Result := res |}.

Definition RequestReplyMessage_wf (m : RequestReplyMessage) : Prop :=
  is_u64 (rr_ClientId m) /\ is_u64 (rr_RequestId m) /\ is_u64 (rr_BusSlotNum m) /\
  is_u64 (rr_LogIndex m) /\ is_u64 (rr_ViewId m) /\ is_u32 (rr_ReplicaIdx m) /\
  payload_wf (rr_Result m).

#[export, refine] Instance RequestReplyMessage_codec : WireCodec RequestReplyMessage := {|
  Marshal := RequestReplyMessage_Marshal; Unmarshal := RequestReplyMessage_Unmarshal;
  Wf := RequestReplyMessage_wf |}.
Proof.
  all: payload_codec RequestReplyMessage_Marshal RequestReplyMessage_Unmarshal
         RequestReplyMessage_wf.
Defined.
Arguments RequestReplyMessage_Marshal : simpl never.
Arguments RequestReplyMessage_Unmarshal : simpl never.

(** [MarshalRequests]/[UnmarshalRequests]: the payload a bus travels in during
    gap recovery and state transfer.  Trailing bytes are ignored. *)
Definition MarshalRequests (reqs : list RequestMessage) : list byte :=
  PutUint32 (zeros 4) 0 (Zlength reqs) ++ concat (RequestMessage_Marshal <$> reqs).

Definition readRequests : reader (list RequestMessage) :=
  b <- ReadFull 4 ;;
  let n := Uint32 b 0 in
  read_n RequestMessage_Unmarshal (Z.to_nat n).

Definition UnmarshalRequests (p : list byte) : option (list RequestMessage) :=
  match readRequests p with Ok reqs _ => Some reqs | Err _ => None end.

Lemma Reads_requests reqs : requests_wf reqs -> Reads readRequests (MarshalRequests reqs) reqs.
Proof.
  intros H. unfold readRequests, MarshalRequests.
  apply Reads_header; [buf_len|]. cbv zeta. buf_simpl.
  apply (elements_reads _ _ RequestMessage_wf _ (W32 - 1)); auto with bus; lia.
Qed.

Lemma UnmarshalRequests_Marshal reqs :
  requests_wf reqs -> UnmarshalRequests (MarshalRequests reqs) = Some reqs.
Proof.
  intros H. unfold UnmarshalRequests. rewrite <- (app_nil_r (MarshalRequests reqs)).
  by rewrite Reads_requests.
Qed.

Lemma UnmarshalRequests_wf p reqs : UnmarshalRequests p = Some reqs -> requests_wf reqs.
Proof.
  unfold UnmarshalRequests. destruct (readRequests p) as [l rest|] eqn:E; [|done].
  intros [= <-]. unfold readRequests in E. revert E.
  apply (Post_bind _ _ (fun _ => True)); [done|]. intros b _. cbv zeta.
  apply Post_elements, RequestMessage_post.
Qed.

(** * Gap agreement

    [(ViewId, Slot)] identifies one agreement. *)

Record BusGapRequest := mkBusGapRequest { gq_Slot : Z; gq_SenderIdx : Z; gq_ViewId : Z }.

Definition BusGapRequest_Marshal (m : BusGapRequest) : list byte :=
  let b := zeros 20 in
  let b := PutUint64 b 0 (gq_Slot m) in
  let b := PutUint32 b 8 (gq_SenderIdx m) in
  let b := PutUint64 b 12 (gq_ViewId m) in
  b.

Definition BusGapRequest_Unmarshal : reader BusGapRequest :=
  b <- ReadFull 20 ;;
  rd_ret {| gq_Slot := Uint64 b 0;
            gq_SenderIdx := Uint32 b 8;
            gq_ViewId := Uint64 b 12 |}.

Definition BusGapRequest_wf (m : BusGapRequest) : Prop :=
  is_u64 (gq_Slot m) /\ is_u32 (gq_SenderIdx m) /\ is_u64 (gq_ViewId m).

#[export, refine] Instance BusGapRequest_codec : WireCodec BusGapRequest := {|
  Marshal := BusGapRequest_Marshal; Unmarshal := BusGapRequest_Unmarshal; Wf := BusGapRequest_wf |}.
Proof. all: fixed_codec BusGapRequest_Marshal BusGapRequest_Unmarshal BusGapRequest_wf. Defined.
Arguments BusGapRequest_Marshal : simpl never.
Arguments BusGapRequest_Unmarshal : simpl never.

Record BusGapReply := mkBusGapReply {
  gr_Slot : Z; gr_SenderIdx : Z; gr_ViewId : Z; gr_Found : bool; gr_Bus : bool;
  gr_Op : list byte }.

Definition BusGapReply_Marshal (m : BusGapReply) : list byte :=
  let b := zeros 26 in
  let b := PutUint64 b 0 (gr_Slot m) in
  let b := PutUint32 b 8 (gr_SenderIdx m) in
  let b := PutUint64 b 12 (gr_ViewId m) in
  let b := if gr_Found m then PutByte b 20 x01 else b in
  let b := if gr_Bus m then PutByte b 21 x01 else b in
  let b := PutUint32 b 22 (Zlength (gr_Op m)) in
  b ++ WriteBytes (gr_Op m).

Definition BusGapReply_Unmarshal : reader BusGapReply :=
  b <- ReadFull 26 ;;
  let opLen := Uint32 b 22 in
  op <- ReadFull (Z.to_nat opLen) ;;
  rd_ret {| gr_Slot := Uint64 b 0; gr_SenderIdx := Uint32 b 8; gr_ViewId := Uint64 b 12;
            gr_Found := getBool b 20; gr_Bus := getBool b 21; gr_Op := op |}.

Definition BusGapReply_wf (m : BusGapReply) : Prop :=
  is_u64 (gr_Slot m) /\ is_u32 (gr_SenderIdx m) /\ is_u64 (gr_ViewId m) /\
  payload_wf (gr_Op m).

#[export, refine] Instance BusGapReply_codec : WireCodec BusGapReply := {|
  Marshal := BusGapReply_Marshal; Unmarshal := BusGapReply_Unmarshal; Wf := BusGapReply_wf |}.
Proof. all: payload_codec BusGapReply_Marshal BusGapReply_Unmarshal BusGapReply_wf. Defined.
Arguments BusGapReply_Marshal : simpl never.
Arguments BusGapReply_Unmarshal : simpl never.

Record BusGapCommit := mkBusGapCommit { gc_Slot : Z; gc_SenderIdx : Z; gc_ViewId : Z }.

Definition BusGapCommit_Marshal (m : BusGapCommit) : list byte :=
  let b := zeros 20 in
  let b := PutUint64 b 0 (gc_Slot m) in
  let b := PutUint32 b 8 (gc_SenderIdx m) in
  let b := PutUint64 b 12 (gc_ViewId m) in
  b.

Definition BusGapCommit_Unmarshal : reader BusGapCommit :=
  b <- ReadFull 20 ;;
  rd_ret {| gc_Slot := Uint64 b 0;
            gc_SenderIdx := Uint32 b 8;
            gc_ViewId := Uint64 b 12 |}.

Definition BusGapCommit_wf (m : BusGapCommit) : Prop :=
  is_u64 (gc_Slot m) /\ is_u32 (gc_SenderIdx m) /\ is_u64 (gc_ViewId m).

#[export, refine] Instance BusGapCommit_codec : WireCodec BusGapCommit := {|
  Marshal := BusGapCommit_Marshal; Unmarshal := BusGapCommit_Unmarshal; Wf := BusGapCommit_wf |}.
Proof. all: fixed_codec BusGapCommit_Marshal BusGapCommit_Unmarshal BusGapCommit_wf. Defined.
Arguments BusGapCommit_Marshal : simpl never.
Arguments BusGapCommit_Unmarshal : simpl never.

Record BusGapCommitReply := mkBusGapCommitReply { ga_Slot : Z; ga_SenderIdx : Z; ga_ViewId : Z }.

Definition BusGapCommitReply_Marshal (m : BusGapCommitReply) : list byte :=
  let b := zeros 20 in
  let b := PutUint64 b 0 (ga_Slot m) in
  let b := PutUint32 b 8 (ga_SenderIdx m) in
  let b := PutUint64 b 12 (ga_ViewId m) in
  b.

Definition BusGapCommitReply_Unmarshal : reader BusGapCommitReply :=
  b <- ReadFull 20 ;;
  rd_ret {| ga_Slot := Uint64 b 0;
            ga_SenderIdx := Uint32 b 8;
            ga_ViewId := Uint64 b 12 |}.

Definition BusGapCommitReply_wf (m : BusGapCommitReply) : Prop :=
  is_u64 (ga_Slot m) /\ is_u32 (ga_SenderIdx m) /\ is_u64 (ga_ViewId m).

#[export, refine] Instance BusGapCommitReply_codec : WireCodec BusGapCommitReply := {|
  Marshal := BusGapCommitReply_Marshal; Unmarshal := BusGapCommitReply_Unmarshal; Wf := BusGapCommitReply_wf |}.
Proof. all: fixed_codec BusGapCommitReply_Marshal BusGapCommitReply_Unmarshal BusGapCommitReply_wf. Defined.
Arguments BusGapCommitReply_Marshal : simpl never.
Arguments BusGapCommitReply_Unmarshal : simpl never.

(** * Slot and replica lists *)

Definition putSlotList (slots : list Z) : list byte :=
  put_counted (fun s => PutUint64 (zeros 8) 0 s) slots.

Definition readSlotList : reader (list Z) :=
  read_counted maxSlotListLen (b <- ReadFull 8 ;; rd_ret (Uint64 b 0)).

Definition putReplicaList (replicas : list Z) : list byte :=
  put_counted (fun r => PutUint32 (zeros 4) 0 r) replicas.

Definition readReplicaList : reader (list Z) :=
  read_counted MaxStateEntries (b <- ReadFull 4 ;; rd_ret (Uint32 b 0)).

Definition slots_wf : list Z -> Prop := bounded maxSlotListLen is_u64.
Definition replicas_wf : list Z -> Prop := bounded MaxStateEntries is_u32.

Lemma Reads_slots l : slots_wf l -> Reads readSlotList (putSlotList l) l.
Proof.
  intros [Hn HF]. apply Reads_counted; [auto with bus|]. split; [done|].
  eapply Forall_impl; [exact HF|]. intros s Hs.
  apply Reads_header_last; [buf_len|]. apply Reads_ret_eq. buf_simpl. by apply le_val_bytes64.
Qed.

Lemma Reads_replicas l : replicas_wf l -> Reads readReplicaList (putReplicaList l) l.
Proof.
  intros [Hn HF]. apply Reads_counted; [auto with bus|]. split; [done|].
  eapply Forall_impl; [exact HF|]. intros s Hs.
  apply Reads_header_last; [buf_len|]. apply Reads_ret_eq. buf_simpl. by apply le_val_bytes32.
Qed.

Lemma Ext_slots : Ext readSlotList.
Proof. apply Ext_counted. solve_ext. Qed.
Lemma Ext_replicas : Ext readReplicaList.
Proof. apply Ext_counted. solve_ext. Qed.
#[export] Hint Resolve Ext_slots Ext_replicas : bus.

Lemma Post_slots : Post readSlotList slots_wf.
Proof.
  apply Post_counted. eapply Post_bind; [apply Post_ReadFull|]. intros. apply Post_ret.
  auto with bus.
Qed.
Lemma Post_replicas : Post readReplicaList replicas_wf.
Proof.
  apply Post_counted. eapply Post_bind; [apply Post_ReadFull|]. intros. apply Post_ret.
  auto with bus.
Qed.

(** * Sync point *)

Record BusSyncPrepare := mkBusSyncPrepare { yp_ViewId : Z; yp_SlotToSync : Z; yp_HasSlot : bool; yp_PrefixHash : Z; yp_SenderIdx : Z }.

Definition BusSyncPrepare_Marshal (m : BusSyncPrepare) : list byte :=
  let b := zeros 29 in
  let b := PutUint64 b 0 (yp_ViewId m) in
  let b := PutUint64 b 8 (yp_SlotToSync m) in
  let b := putBool b 16 (yp_HasSlot m) in
  let b := PutUint64 b 17 (yp_PrefixHash m) in
  let b := PutUint32 b 25 (yp_SenderIdx m) in
  b.

Definition BusSyncPrepare_Unmarshal : reader BusSyncPrepare :=
  b <- ReadFull 29 ;;
  rd_ret {| yp_ViewId := Uint64 b 0;
            yp_SlotToSync := Uint64 b 8;
            yp_HasSlot := getBool b 16;
            yp_PrefixHash := Uint64 b 17;
            yp_SenderIdx := Uint32 b 25 |}.

Definition BusSyncPrepare_wf (m : BusSyncPrepare) : Prop :=
  is_u64 (yp_ViewId m) /\ is_u64 (yp_SlotToSync m) /\ is_u64 (yp_PrefixHash m) /\ is_u32 (yp_SenderIdx m).

#[export, refine] Instance BusSyncPrepare_codec : WireCodec BusSyncPrepare := {|
  Marshal := BusSyncPrepare_Marshal; Unmarshal := BusSyncPrepare_Unmarshal; Wf := BusSyncPrepare_wf |}.
Proof. all: fixed_codec BusSyncPrepare_Marshal BusSyncPrepare_Unmarshal BusSyncPrepare_wf. Defined.
Arguments BusSyncPrepare_Marshal : simpl never.
Arguments BusSyncPrepare_Unmarshal : simpl never.

Record BusSyncReply := mkBusSyncReply { yr_ViewId : Z; yr_Slot : Z; yr_SenderIdx : Z }.

Definition BusSyncReply_Marshal (m : BusSyncReply) : list byte :=
  let b := zeros 20 in
  let b := PutUint64 b 0 (yr_ViewId m) in
  let b := PutUint64 b 8 (yr_Slot m) in
  let b := PutUint32 b 16 (yr_SenderIdx m) in
  b.

Definition BusSyncReply_Unmarshal : reader BusSyncReply :=
  b <- ReadFull 20 ;;
  rd_ret {| yr_ViewId := Uint64 b 0;
            yr_Slot := Uint64 b 8;
            yr_SenderIdx := Uint32 b 16 |}.

Definition BusSyncReply_wf (m : BusSyncReply) : Prop :=
  is_u64 (yr_ViewId m) /\ is_u64 (yr_Slot m) /\ is_u32 (yr_SenderIdx m).

#[export, refine] Instance BusSyncReply_codec : WireCodec BusSyncReply := {|
  Marshal := BusSyncReply_Marshal; Unmarshal := BusSyncReply_Unmarshal; Wf := BusSyncReply_wf |}.
Proof. all: fixed_codec BusSyncReply_Marshal BusSyncReply_Unmarshal BusSyncReply_wf. Defined.
Arguments BusSyncReply_Marshal : simpl never.
Arguments BusSyncReply_Unmarshal : simpl never.

Record BusSyncCommit := mkBusSyncCommit { yc_ViewId : Z; yc_StableSlot : Z; yc_SenderIdx : Z }.

Definition BusSyncCommit_Marshal (m : BusSyncCommit) : list byte :=
  let b := zeros 20 in
  let b := PutUint64 b 0 (yc_ViewId m) in
  let b := PutUint64 b 8 (yc_StableSlot m) in
  let b := PutUint32 b 16 (yc_SenderIdx m) in
  b.

Definition BusSyncCommit_Unmarshal : reader BusSyncCommit :=
  b <- ReadFull 20 ;;
  rd_ret {| yc_ViewId := Uint64 b 0;
            yc_StableSlot := Uint64 b 8;
            yc_SenderIdx := Uint32 b 16 |}.

Definition BusSyncCommit_wf (m : BusSyncCommit) : Prop :=
  is_u64 (yc_ViewId m) /\ is_u64 (yc_StableSlot m) /\ is_u32 (yc_SenderIdx m).

#[export, refine] Instance BusSyncCommit_codec : WireCodec BusSyncCommit := {|
  Marshal := BusSyncCommit_Marshal; Unmarshal := BusSyncCommit_Unmarshal; Wf := BusSyncCommit_wf |}.
Proof. all: fixed_codec BusSyncCommit_Marshal BusSyncCommit_Unmarshal BusSyncCommit_wf. Defined.
Arguments BusSyncCommit_Marshal : simpl never.
Arguments BusSyncCommit_Unmarshal : simpl never.

(** * View change *)

Record BusViewChangeRequest := mkBusViewChangeRequest { vq_ViewId : Z; vq_SenderIdx : Z }.

Definition BusViewChangeRequest_Marshal (m : BusViewChangeRequest) : list byte :=
  let b := zeros 12 in
  let b := PutUint64 b 0 (vq_ViewId m) in
  let b := PutUint32 b 8 (vq_SenderIdx m) in
  b.

Definition BusViewChangeRequest_Unmarshal : reader BusViewChangeRequest :=
  b <- ReadFull 12 ;;
  rd_ret {| vq_ViewId := Uint64 b 0;
            vq_SenderIdx := Uint32 b 8 |}.

Definition BusViewChangeRequest_wf (m : BusViewChangeRequest) : Prop :=
  is_u64 (vq_ViewId m) /\ is_u32 (vq_SenderIdx m).

#[export, refine] Instance BusViewChangeRequest_codec : WireCodec BusViewChangeRequest := {|
  Marshal := BusViewChangeRequest_Marshal; Unmarshal := BusViewChangeRequest_Unmarshal; Wf := BusViewChangeRequest_wf |}.
Proof. all: fixed_codec BusViewChangeRequest_Marshal BusViewChangeRequest_Unmarshal BusViewChangeRequest_wf. Defined.
Arguments BusViewChangeRequest_Marshal : simpl never.
Arguments BusViewChangeRequest_Unmarshal : simpl never.

Record BusStateQuery := mkBusStateQuery { sq_ViewId : Z; sq_SenderIdx : Z }.

Definition BusStateQuery_Marshal (m : BusStateQuery) : list byte :=
  let b := zeros 12 in
  let b := PutUint64 b 0 (sq_ViewId m) in
  let b := PutUint32 b 8 (sq_SenderIdx m) in
  b.

Definition BusStateQuery_Unmarshal : reader BusStateQuery :=
  b <- ReadFull 12 ;;
  rd_ret {| sq_ViewId := Uint64 b 0;
            sq_SenderIdx := Uint32 b 8 |}.

Definition BusStateQuery_wf (m : BusStateQuery) : Prop :=
  is_u64 (sq_ViewId m) /\ is_u32 (sq_SenderIdx m).

#[export, refine] Instance BusStateQuery_codec : WireCodec BusStateQuery := {|
  Marshal := BusStateQuery_Marshal; Unmarshal := BusStateQuery_Unmarshal; Wf := BusStateQuery_wf |}.
Proof. all: fixed_codec BusStateQuery_Marshal BusStateQuery_Unmarshal BusStateQuery_wf. Defined.
Arguments BusStateQuery_Marshal : simpl never.
Arguments BusStateQuery_Unmarshal : simpl never.

(** A replica's report: suffix metadata, not log entries.  Bit [i] of
    [FilledBitmap] says that slot [BitmapBase + i] is non-empty;
    [PrefixHash] is at [StableSlot]. *)
Record BusViewChange := mkBusViewChange {
  vc_SenderIdx : Z; vc_ViewId : Z; vc_LastNormalView : Z;
  vc_StableSlot : Z; vc_HasStable : bool; vc_PrefixHash : Z;
  vc_NextExpected : Z; vc_MaxSlotFilled : Z; vc_HasMax : bool;
  vc_BitmapBase : Z; vc_FilledBitmap : list byte; vc_NoOpSlots : list Z;
  vc_Schedule : list BusSyncMessage }.

Definition BusViewChange_Marshal (m : BusViewChange) : list byte :=
  let b := zeros 58 in
  let b := PutUint32 b 0 (vc_SenderIdx m) in
  let b := PutUint64 b 4 (vc_ViewId m) in
  let b := PutUint64 b 12 (vc_LastNormalView m) in
  let b := PutUint64 b 20 (vc_StableSlot m) in
  let b := putBool b 28 (vc_HasStable m) in
  let b := PutUint64 b 29 (vc_PrefixHash m) in
  let b := PutUint64 b 37 (vc_NextExpected m) in
  let b := PutUint64 b 45 (vc_MaxSlotFilled m) in
  let b := putBool b 53 (vc_HasMax m) in
  let b := PutUint32 b 54 (Zlength (vc_FilledBitmap m)) in
  b ++ WriteBytes (vc_FilledBitmap m) ++
  PutUint64 (zeros 8) 0 (vc_BitmapBase m) ++
  putSlotList (vc_NoOpSlots m) ++ putSchedule (vc_Schedule m).

Definition BusViewChange_Unmarshal : reader BusViewChange :=
  b <- ReadFull 58 ;;
  let bmLen := Uint32 b 54 in
  if MaxBitmapBytes <? bmLen then rd_fail (ErrTooLong bmLen) else
  bm <- ReadFull (Z.to_nat bmLen) ;;
  base <- ReadFull 8 ;;
  slots <- readSlotList ;;
  schedule <- readSchedule ;;
  rd_ret {| vc_SenderIdx := Uint32 b 0; vc_ViewId := Uint64 b 4;
            vc_LastNormalView := Uint64 b 12; vc_StableSlot := Uint64 b 20;
            vc_HasStable := getBool b 28; vc_PrefixHash := Uint64 b 29;
            vc_NextExpected := Uint64 b 37; vc_MaxSlotFilled := Uint64 b 45;
            vc_HasMax := getBool b 53; vc_BitmapBase := Uint64 base 0;
            vc_FilledBitmap := bm; vc_NoOpSlots := slots; vc_Schedule := schedule |}.

Definition BusViewChange_wf (m : BusViewChange) : Prop :=
  is_u32 (vc_SenderIdx m) /\ is_u64 (vc_ViewId m) /\ is_u64 (vc_LastNormalView m) /\
  is_u64 (vc_StableSlot m) /\ is_u64 (vc_PrefixHash m) /\ is_u64 (vc_NextExpected m) /\
  is_u64 (vc_MaxSlotFilled m) /\ is_u64 (vc_BitmapBase m) /\
  Zlength (vc_FilledBitmap m) <= MaxBitmapBytes /\
  slots_wf (vc_NoOpSlots m) /\ schedule_wf (vc_Schedule m).

Lemma bitmap_reads (p : list byte) rest :
  Zlength p <= MaxBitmapBytes ->
  ReadFull (Z.to_nat (le_val (le_bytes 4 (Zlength p)))) (p ++ rest) = Ok p rest.
Proof.
  intros H. apply payload_reads. eapply limit_u32; [|apply MaxBitmapBytes_u32]. lia.
Qed.

#[export, refine] Instance BusViewChange_codec : WireCodec BusViewChange := {|
  Marshal := BusViewChange_Marshal; Unmarshal := BusViewChange_Unmarshal;
  Wf := BusViewChange_wf |}.
Proof.
  - intros [] (?&?&?&?&?&?&?&?&Hbm&?&?); cbn in *.
    unfold BusViewChange_Marshal, BusViewChange_Unmarshal; cbn. rewrite WriteBytes_eq.
    apply Reads_header; [rewrite !putBool_eq; buf_len|]. cbv zeta.
    apply Reads_if.
    { rewrite ?putBool_eq; buf_simpl. apply Z.ltb_ge. rewrite le_val_bytes32; [done|].
      eapply limit_u32; [|apply MaxBitmapBytes_u32]. lia. }
    eapply Reads_bind.
    { intros rest. rewrite ?putBool_eq; buf_simpl. by apply bitmap_reads. }
    apply Reads_header; [buf_len|].
    eapply Reads_bind; [by apply Reads_slots|].
    eapply Reads_bind_last; [by apply Reads_schedule|]. cbn. bool_fields; by fields.
  - unfold BusViewChange_Unmarshal. solve_ext.
  - eapply Post_bind; [apply Post_ReadFull|]. intros b _. cbv zeta.
    apply Post_if; intros Hlim; [apply Post_fail|]. apply Z.ltb_ge in Hlim.
    eapply Post_bind; [apply Post_ReadFull|]. intros bm Hbm.
    eapply Post_bind; [apply Post_ReadFull|]. intros base _.
    eapply Post_bind; [apply Post_slots|]. intros slots Hs.
    eapply Post_bind; [apply Post_schedule|]. intros sch Hsch.
    apply Post_ret. assert (Zlength bm <= MaxBitmapBytes).
    { pose proof (Uint32_range b 54). word_lia. }
    wf_split.
Defined.
Arguments BusViewChange_Marshal : simpl never.
Arguments BusViewChange_Unmarshal : simpl never.

(** The new leader's merge: metadata, not log entries. *)
Record BusStartView := mkBusStartView {
  sv_ViewId : Z; sv_SourceNormalView : Z; sv_StableSlot : Z; sv_HasStable : bool;
  sv_MaxSlot : Z; sv_HasMax : bool; sv_PrefixHash : Z; sv_SenderIdx : Z;
  sv_NoOpSlots : list Z; sv_SelectedReports : list Z; sv_Schedule : list BusSyncMessage }.

Definition BusStartView_Marshal (m : BusStartView) : list byte :=
  let b := zeros 46 in
  let b := PutUint64 b 0 (sv_ViewId m) in
  let b := PutUint64 b 8 (sv_StableSlot m) in
  let b := putBool b 16 (sv_HasStable m) in
  let b := PutUint64 b 17 (sv_MaxSlot m) in
  let b := putBool b 25 (sv_HasMax m) in
  let b := PutUint64 b 26 (sv_PrefixHash m) in
  let b := PutUint32 b 34 (sv_SenderIdx m) in
  let b := PutUint64 b 38 (sv_SourceNormalView m) in
  b ++ putSlotList (sv_NoOpSlots m) ++ putReplicaList (sv_SelectedReports m) ++
  putSchedule (sv_Schedule m).

Definition BusStartView_Unmarshal : reader BusStartView :=
  b <- ReadFull 46 ;;
  slots <- readSlotList ;;
  replicas <- readReplicaList ;;
  schedule <- readSchedule ;;
  rd_ret {| sv_ViewId := Uint64 b 0; sv_SourceNormalView := Uint64 b 38;
            sv_StableSlot := Uint64 b 8; sv_HasStable := getBool b 16;
            sv_MaxSlot := Uint64 b 17; sv_HasMax := getBool b 25;
            sv_PrefixHash := Uint64 b 26; sv_SenderIdx := Uint32 b 34;
            sv_NoOpSlots := slots; sv_SelectedReports := replicas;
            sv_Schedule := schedule |}.

Definition BusStartView_wf (m : BusStartView) : Prop :=
  is_u64 (sv_ViewId m) /\ is_u64 (sv_SourceNormalView m) /\ is_u64 (sv_StableSlot m) /\
  is_u64 (sv_MaxSlot m) /\ is_u64 (sv_PrefixHash m) /\ is_u32 (sv_SenderIdx m) /\
  slots_wf (sv_NoOpSlots m) /\ replicas_wf (sv_SelectedReports m) /\
  schedule_wf (sv_Schedule m).

#[export, refine] Instance BusStartView_codec : WireCodec BusStartView := {|
  Marshal := BusStartView_Marshal; Unmarshal := BusStartView_Unmarshal;
  Wf := BusStartView_wf |}.
Proof.
  - intros [] (?&?&?&?&?&?&?&?&?); cbn in *.
    unfold BusStartView_Marshal, BusStartView_Unmarshal; cbn.
    apply Reads_header; [rewrite !putBool_eq; buf_len|].
    eapply Reads_bind; [by apply Reads_slots|].
    eapply Reads_bind; [by apply Reads_replicas|].
    eapply Reads_bind_last; [by apply Reads_schedule|]. cbn. bool_fields; by fields.
  - unfold BusStartView_Unmarshal. solve_ext.
  - eapply Post_bind; [apply Post_ReadFull|]. intros b _.
    eapply Post_bind; [apply Post_slots|]. intros slots Hs.
    eapply Post_bind; [apply Post_replicas|]. intros replicas Hr.
    eapply Post_bind; [apply Post_schedule|]. intros sch Hsch.
    apply Post_ret. wf_split.
Defined.
Arguments BusStartView_Marshal : simpl never.
Arguments BusStartView_Unmarshal : simpl never.

(** * State transfer *)

(** An empty [Slots] requests the full range. *)
Record BusGetState := mkBusGetState {
  gs_ViewId : Z; gs_FromSlot : Z; gs_ToSlot : Z; gs_FetchId : Z; gs_SenderIdx : Z;
  gs_Slots : list Z }.

Record StateEntry := mkStateEntry {
  se_Slot : Z; se_ClientId : Z; se_ReqId : Z; se_IsBus : bool; se_IsNoOp : bool;
  se_Payload : list byte }.

Record BusNewState := mkBusNewState {
  ns_ViewId : Z; ns_FromSlot : Z; ns_ToSlot : Z; ns_FetchId : Z; ns_SenderIdx : Z;
  ns_Entries : list StateEntry }.

Definition BusGetState_Marshal (m : BusGetState) : list byte :=
  let b := zeros 36 in
  let b := PutUint64 b 0 (gs_ViewId m) in
  let b := PutUint64 b 8 (gs_FromSlot m) in
  let b := PutUint64 b 16 (gs_ToSlot m) in
  let b := PutUint64 b 24 (gs_FetchId m) in
  let b := PutUint32 b 32 (gs_SenderIdx m) in
  b ++ putSlotList (gs_Slots m).

Definition BusGetState_Unmarshal : reader BusGetState :=
  b <- ReadFull 36 ;;
  slots <- readSlotList ;;
  rd_ret {| gs_ViewId := Uint64 b 0; gs_FromSlot := Uint64 b 8; gs_ToSlot := Uint64 b 16;
            gs_FetchId := Uint64 b 24; gs_SenderIdx := Uint32 b 32; gs_Slots := slots |}.

Definition BusGetState_wf (m : BusGetState) : Prop :=
  is_u64 (gs_ViewId m) /\ is_u64 (gs_FromSlot m) /\ is_u64 (gs_ToSlot m) /\
  is_u64 (gs_FetchId m) /\ is_u32 (gs_SenderIdx m) /\ slots_wf (gs_Slots m).

#[export, refine] Instance BusGetState_codec : WireCodec BusGetState := {|
  Marshal := BusGetState_Marshal; Unmarshal := BusGetState_Unmarshal; Wf := BusGetState_wf |}.
Proof.
  - intros [] (?&?&?&?&?&?); cbn in *. unfold BusGetState_Marshal, BusGetState_Unmarshal; cbn.
    apply Reads_header; [buf_len|].
    eapply Reads_bind_last; [by apply Reads_slots|]. by fields.
  - unfold BusGetState_Unmarshal. solve_ext.
  - eapply Post_bind; [apply Post_ReadFull|]. intros b _.
    eapply Post_bind; [apply Post_slots|]. intros slots Hs.
    apply Post_ret. wf_split.
Defined.
Arguments BusGetState_Marshal : simpl never.
Arguments BusGetState_Unmarshal : simpl never.

Definition StateEntry_Marshal (e : StateEntry) : list byte :=
  let b := zeros 30 in
  let b := PutUint64 b 0 (se_Slot e) in
  let b := PutUint64 b 8 (se_ClientId e) in
  let b := PutUint64 b 16 (se_ReqId e) in
  let b := putBool b 24 (se_IsBus e) in
  let b := putBool b 25 (se_IsNoOp e) in
  let b := PutUint32 b 26 (Zlength (se_Payload e)) in
  b ++ WriteBytes (se_Payload e).

Definition StateEntry_Unmarshal : reader StateEntry :=
  b <- ReadFull 30 ;;
  let n := Uint32 b 26 in
  p <- ReadFull (Z.to_nat n) ;;
  rd_ret {| se_Slot := Uint64 b 0; se_ClientId := Uint64 b 8; se_ReqId := Uint64 b 16;
            se_IsBus := getBool b 24; se_IsNoOp := getBool b 25; se_Payload := p |}.

Definition StateEntry_wf (e : StateEntry) : Prop :=
  is_u64 (se_Slot e) /\ is_u64 (se_ClientId e) /\ is_u64 (se_ReqId e) /\
  payload_wf (se_Payload e).

#[export, refine] Instance StateEntry_codec : WireCodec StateEntry := {|
  Marshal := StateEntry_Marshal; Unmarshal := StateEntry_Unmarshal; Wf := StateEntry_wf |}.
Proof. all: payload_codec StateEntry_Marshal StateEntry_Unmarshal StateEntry_wf. Defined.
Arguments StateEntry_Marshal : simpl never.
Arguments StateEntry_Unmarshal : simpl never.

Lemma StateEntry_reads m : StateEntry_wf m -> Reads StateEntry_Unmarshal (StateEntry_Marshal m) m.
Proof. exact (codec_reads m). Qed.
Lemma StateEntry_ext : Ext StateEntry_Unmarshal.
Proof. exact codec_ext. Qed.
Lemma StateEntry_post : Post StateEntry_Unmarshal StateEntry_wf.
Proof. exact codec_post. Qed.
#[export] Hint Resolve StateEntry_reads StateEntry_ext : bus.

Definition BusNewState_Marshal (m : BusNewState) : list byte :=
  let b := zeros 40 in
  let b := PutUint64 b 0 (ns_ViewId m) in
  let b := PutUint64 b 8 (ns_FromSlot m) in
  let b := PutUint64 b 16 (ns_ToSlot m) in
  let b := PutUint64 b 24 (ns_FetchId m) in
  let b := PutUint32 b 32 (ns_SenderIdx m) in
  let b := PutUint32 b 36 (Zlength (ns_Entries m)) in
  b ++ concat (StateEntry_Marshal <$> ns_Entries m).

Definition BusNewState_Unmarshal : reader BusNewState :=
  b <- ReadFull 40 ;;
  let n := Uint32 b 36 in
  if MaxStateEntries <? n then rd_fail (ErrTooLong n) else
  es <- read_n StateEntry_Unmarshal (Z.to_nat n) ;;
  rd_ret {| ns_ViewId := Uint64 b 0; ns_FromSlot := Uint64 b 8; ns_ToSlot := Uint64 b 16;
            ns_FetchId := Uint64 b 24; ns_SenderIdx := Uint32 b 32; ns_Entries := es |}.

Definition BusNewState_wf (m : BusNewState) : Prop :=
  is_u64 (ns_ViewId m) /\ is_u64 (ns_FromSlot m) /\ is_u64 (ns_ToSlot m) /\
  is_u64 (ns_FetchId m) /\ is_u32 (ns_SenderIdx m) /\
  bounded MaxStateEntries StateEntry_wf (ns_Entries m).

#[export, refine] Instance BusNewState_codec : WireCodec BusNewState := {|
  Marshal := BusNewState_Marshal; Unmarshal := BusNewState_Unmarshal; Wf := BusNewState_wf |}.
Proof.
  - intros [] (?&?&?&?&?&Hes); cbn in *. unfold BusNewState_Marshal, BusNewState_Unmarshal; cbn.
    apply Reads_header; [buf_len|]. cbv zeta. apply Reads_if.
    { buf_simpl. apply Z.ltb_ge. rewrite le_val_bytes32; [apply Hes|].
      eapply limit_u32; [|apply MaxStateEntries_u32]. destruct Hes; lia. }
    buf_simpl. eapply Reads_bind_last; [|by fields].
    apply (elements_reads _ _ StateEntry_wf _ MaxStateEntries); auto with bus.
  - unfold BusNewState_Unmarshal. solve_ext.
  - eapply Post_bind; [apply Post_ReadFull|]. intros b _. cbv zeta.
    apply Post_if; intros Hlim; [apply Post_fail|]. apply Z.ltb_ge in Hlim.
    eapply Post_bind; [apply Post_read_n, StateEntry_post|]. intros es [Hn HF].
    apply Post_ret. assert (bounded MaxStateEntries StateEntry_wf es).
    { split; [|done]. pose proof (Uint32_range b 36). word_lia. }
    wf_split.
Defined.
Arguments BusNewState_Marshal : simpl never.
Arguments BusNewState_Unmarshal : simpl never.

(** * Client control ([protocol/client_control.go]) *)

Record clientControlMessage := mkclientControlMessage {
  cc_ClientId : Z; cc_ViewId : Z; cc_ReplicaIdx : Z; cc_Normal : bool }.

Definition clientControlMessage_Marshal (m : clientControlMessage) : list byte :=
  let b := PutUint64s (zeros 21) 0 [cc_ClientId m; cc_ViewId m] in
  let b := PutUint32 b 16 (cc_ReplicaIdx m) in
  if cc_Normal m then PutByte b 20 x01 else b.

Definition clientControlMessage_Unmarshal : reader clientControlMessage :=
  b <- ReadFull 21 ;;
  rd_ret {| cc_ClientId := Uint64 b 0; cc_ViewId := Uint64 b 8; cc_ReplicaIdx := Uint32 b 16;
            cc_Normal := Byte.eqb (ByteAt b 20) x01 |}.

Definition clientControlMessage_wf (m : clientControlMessage) : Prop :=
  is_u64 (cc_ClientId m) /\ is_u64 (cc_ViewId m) /\ is_u32 (cc_ReplicaIdx m).

#[export, refine] Instance clientControlMessage_codec : WireCodec clientControlMessage := {|
  Marshal := clientControlMessage_Marshal; Unmarshal := clientControlMessage_Unmarshal;
  Wf := clientControlMessage_wf |}.
Proof.
  - intros [] (?&?&?); cbn in *.
    unfold clientControlMessage_Marshal, clientControlMessage_Unmarshal; cbn.
    apply Reads_header_last; [bool_fields; buf_len|]. bool_fields; by fields.
  - unfold clientControlMessage_Unmarshal. solve_ext.
  - eapply Post_bind; [apply Post_ReadFull|]. intros. apply Post_ret. wf_split.
Defined.
Arguments clientControlMessage_Marshal : simpl never.
Arguments clientControlMessage_Unmarshal : simpl never.
