(* ===== verification/WireStream.v ===== *)
(** The message stream between processes: [lockedWriter.sendMsg]
    ([protocol/client.go]) writes a code byte and the message;
    [Replica.clientListener] ([protocol/replica.go]) reads a code byte and
    dispatches on it to the decoder.  [scheduleBatch]
    ([protocol/schedule_transport.go]) packs several messages in one write. *)
From S2P Require Import Prelude WireBase Wire.

(** What a replica's listener accepts, one constructor per [case]. *)
Inductive replica_msg :=
| RHsRequest (m : HsRequest)
| RSchdPrepare (m : SchdPrepare)
| RSchdPrepareReply (m : SchdPrepareReply)
| RSchdCommit (m : SchdCommit)
| RClientStatusQuery (m : clientControlMessage)
| RBus (m : BusMessage)
| RGapRequest (m : BusGapRequest)
| RGapReply (m : BusGapReply)
| RGapCommit (m : BusGapCommit)
| RGapCommitReply (m : BusGapCommitReply)
| RSyncPrepare (m : BusSyncPrepare)
| RSyncReply (m : BusSyncReply)
| RSyncCommit (m : BusSyncCommit)
| RScheduleInstall (m : BusScheduleInstall)
| RViewChangeRequest (m : BusViewChangeRequest)
| RViewChange (m : BusViewChange)
| RStartView (m : BusStartView)
| RStateQuery (m : BusStateQuery)
| RGetState (m : BusGetState)
| RNewState (m : BusNewState).

Definition msg_code (m : replica_msg) : Z :=
  match m with
  | RHsRequest _ => MsgHsRequest
  | RSchdPrepare _ => MsgSchdPrepare
  | RSchdPrepareReply _ => MsgSchdPrepareReply
  | RSchdCommit _ => MsgSchdCommit
  | RClientStatusQuery _ => MsgClientStatusQuery
  | RBus _ => MsgBus
  | RGapRequest _ => MsgBusGapRequest
  | RGapReply _ => MsgBusGapReply
  | RGapCommit _ => MsgBusGapCommit
  | RGapCommitReply _ => MsgBusGapCommitReply
  | RSyncPrepare _ => MsgBusSyncPrepare
  | RSyncReply _ => MsgBusSyncReply
  | RSyncCommit _ => MsgBusSyncCommit
  | RScheduleInstall _ => MsgBusScheduleInstall
  | RViewChangeRequest _ => MsgBusViewChangeRequest
  | RViewChange _ => MsgBusViewChange
  | RStartView _ => MsgBusStartView
  | RStateQuery _ => MsgBusStateQuery
  | RGetState _ => MsgBusGetState
  | RNewState _ => MsgBusNewState
  end.

Definition msg_body (m : replica_msg) : list byte :=
  match m with
  | RHsRequest m => HsRequest_Marshal m
  | RSchdPrepare m => SchdPrepare_Marshal m
  | RSchdPrepareReply m => SchdPrepareReply_Marshal m
  | RSchdCommit m => SchdCommit_Marshal m
  | RClientStatusQuery m => clientControlMessage_Marshal m
  | RBus m => BusMessage_Marshal m
  | RGapRequest m => BusGapRequest_Marshal m
  | RGapReply m => BusGapReply_Marshal m
  | RGapCommit m => BusGapCommit_Marshal m
  | RGapCommitReply m => BusGapCommitReply_Marshal m
  | RSyncPrepare m => BusSyncPrepare_Marshal m
  | RSyncReply m => BusSyncReply_Marshal m
  | RSyncCommit m => BusSyncCommit_Marshal m
  | RScheduleInstall m => BusScheduleInstall_Marshal m
  | RViewChangeRequest m => BusViewChangeRequest_Marshal m
  | RViewChange m => BusViewChange_Marshal m
  | RStartView m => BusStartView_Marshal m
  | RStateQuery m => BusStateQuery_Marshal m
  | RGetState m => BusGetState_Marshal m
  | RNewState m => BusNewState_Marshal m
  end.

Definition msg_wf (m : replica_msg) : Prop :=
  match m with
  | RHsRequest m => Wf m
  | RSchdPrepare m => Wf m
  | RSchdPrepareReply m => Wf m
  | RSchdCommit m => SchdPrepareReply_wf m
  | RClientStatusQuery m => Wf m
  | RBus m => Wf m
  | RGapRequest m => Wf m
  | RGapReply m => Wf m
  | RGapCommit m => Wf m
  | RGapCommitReply m => Wf m
  | RSyncPrepare m => Wf m
  | RSyncReply m => Wf m
  | RSyncCommit m => Wf m
  | RScheduleInstall m => Wf m
  | RViewChangeRequest m => Wf m
  | RViewChange m => Wf m
  | RStartView m => Wf m
  | RStateQuery m => Wf m
  | RGetState m => Wf m
  | RNewState m => Wf m
  end.

(** [lw.w.WriteByte(code); msg.Marshal(lw.w)] *)
Definition sendMsg (code : Z) (body : list byte) : list byte := byte_of code :: body.
Definition send_msg (m : replica_msg) : list byte := sendMsg (msg_code m) (msg_body m).

Definition rd_map {A B} (f : A -> B) (p : reader A) : reader B := a <- p ;; rd_ret (f a).

(** the [switch msgType] of [clientListener] *)
Definition read_body (c : Z) : reader replica_msg :=
  if c =? MsgHsRequest then rd_map RHsRequest HsRequest_Unmarshal
  else if c =? MsgSchdPrepare then rd_map RSchdPrepare SchdPrepare_Unmarshal
  else if c =? MsgSchdPrepareReply then rd_map RSchdPrepareReply SchdPrepareReply_Unmarshal
  else if c =? MsgSchdCommit then rd_map RSchdCommit SchdCommit_Unmarshal
  else if c =? MsgClientStatusQuery
       then rd_map RClientStatusQuery clientControlMessage_Unmarshal
  else if c =? MsgBus then rd_map RBus BusMessage_Unmarshal
  else if c =? MsgBusGapRequest then rd_map RGapRequest BusGapRequest_Unmarshal
  else if c =? MsgBusGapReply then rd_map RGapReply BusGapReply_Unmarshal
  else if c =? MsgBusGapCommit then rd_map RGapCommit BusGapCommit_Unmarshal
  else if c =? MsgBusGapCommitReply then rd_map RGapCommitReply BusGapCommitReply_Unmarshal
  else if c =? MsgBusSyncPrepare then rd_map RSyncPrepare BusSyncPrepare_Unmarshal
  else if c =? MsgBusSyncReply then rd_map RSyncReply BusSyncReply_Unmarshal
  else if c =? MsgBusSyncCommit then rd_map RSyncCommit BusSyncCommit_Unmarshal
  else if c =? MsgBusScheduleInstall
       then rd_map RScheduleInstall BusScheduleInstall_Unmarshal
  else if c =? MsgBusViewChangeRequest
       then rd_map RViewChangeRequest BusViewChangeRequest_Unmarshal
  else if c =? MsgBusViewChange then rd_map RViewChange BusViewChange_Unmarshal
  else if c =? MsgBusStartView then rd_map RStartView BusStartView_Unmarshal
  else if c =? MsgBusStateQuery then rd_map RStateQuery BusStateQuery_Unmarshal
  else if c =? MsgBusGetState then rd_map RGetState BusGetState_Unmarshal
  else if c =? MsgBusNewState then rd_map RNewState BusNewState_Unmarshal
  else rd_fail (ErrUnknownType c).

Definition read_msg : reader replica_msg :=
  b <- ReadFull 1 ;; read_body (byte_val (ByteAt b 0)).

(** The listener's loop: the messages handled before the connection ends, and
    the error that ended it.  Every iteration consumes the code byte, so the
    length of the input bounds the number of iterations. *)
Fixpoint read_stream (fuel : nat) (bs : list byte) : list replica_msg * wire_error :=
  match fuel with
  | O => ([], EOF)
  | S fuel =>
      match read_msg bs with
      | Ok m rest => let '(ms, e) := read_stream fuel rest in (m :: ms, e)
      | Err e => ([], e)
      end
  end.

(** [func (m *scheduleBatch) Marshal]: the snapshot, the window being
    prepared and, when it is committed, its commit, as one write whose code
    byte announces the snapshot. *)
Record scheduleBatch := mkscheduleBatch {
  sb_snapshot : BusScheduleInstall; sb_prepare : SchdPrepare; sb_committed : bool }.

Definition scheduleBatch_Marshal (m : scheduleBatch) : list byte :=
  BusScheduleInstall_Marshal (sb_snapshot m) ++
  [byte_of MsgSchdPrepare] ++ SchdPrepare_Marshal (sb_prepare m) ++
  (if sb_committed m then
     [byte_of MsgSchdCommit] ++
     SchdCommit_Marshal
       {| spr_ReplicaId := sp_ReplicaId (sb_prepare m); spr_ViewId := sp_ViewId (sb_prepare m);
          spr_StartTime := sp_StartTime (sb_prepare m);
          spr_EndTime := sp_EndTime (sb_prepare m) |}
   else []).

(** ** Reading back *)

Lemma Reads_map {A B} (f : A -> B) (p : reader A) bs a :
  Reads p bs a -> Reads (rd_map f p) bs (f a).
Proof. intros H. eapply Reads_bind_last; [exact H|]. by apply Reads_ret_eq. Qed.

Lemma Ext_map {A B} (f : A -> B) (p : reader A) : Ext p -> Ext (rd_map f p).
Proof. intros H. apply Ext_bind; [done|]. auto with bus. Qed.

Lemma body_reads m : msg_wf m -> Reads (read_body (msg_code m)) (msg_body m) m.
Proof.
  destruct m as [m|m|m|m|m|m|m|m|m|m|m|m|m|m|m|m|m|m|m|m]; intros Hwf; cbn [msg_wf] in Hwf;
    cbn [msg_code msg_body]; unfold read_body; cbn [Z.eqb Pos.eqb];
    apply Reads_map; exact (codec_reads m Hwf).
Qed.

Lemma read_body_ext c : Ext (read_body c).
Proof.
  unfold read_body.
  repeat (apply Ext_if;
    [apply Ext_map;
     first [ exact SchdPrepareReply_ext
           | match goal with |- @Ext ?T _ => exact (codec_ext (A:=T)) end ]|]).
  apply Ext_fail.
Qed.

Lemma msg_code_byte m : byte_val (byte_of (msg_code m)) = msg_code m.
Proof. rewrite byte_val_of. by destruct m. Qed.

Lemma msg_reads m : msg_wf m -> Reads read_msg (send_msg m) m.
Proof.
  intros Hwf. unfold read_msg, send_msg, sendMsg.
  change (byte_of (msg_code m) :: msg_body m) with ([byte_of (msg_code m)] ++ msg_body m).
  apply Reads_header; [done|]. change (ByteAt [byte_of (msg_code m)] 0) with (byte_of (msg_code m)).
  rewrite msg_code_byte. by apply body_reads.
Qed.

Lemma read_msg_ext : Ext read_msg.
Proof. apply Ext_bind; [apply Ext_ReadFull|]. intros. apply read_body_ext. Qed.

Lemma read_stream_reads ms fuel :
  Forall msg_wf ms -> (length ms < fuel)%nat ->
  read_stream fuel (concat (send_msg <$> ms)) = (ms, EOF).
Proof.
  intros Hwf. revert fuel. induction Hwf as [|m ms Hm _ IH]; intros [|fuel] Hf;
    cbn [length] in Hf; try lia; cbn [read_stream].
  - done.
  - cbn [fmap list_fmap concat]. rewrite (msg_reads m Hm). rewrite IH by lia. done.
Qed.
