(* ===== verification/Config.v ===== *)
(** The replica configuration: [src/paxosbus/internal/config/config.go].

    [ReadConfig] works on the lines [bufio.Scanner] delivers ([scan_err] is
    [scanner.Err()]); of the string functions it uses ([TrimSpace], [Fields],
    [Atoi], [ParseUint]) the model covers ASCII text.  Error values are named
    after their messages. *)
From S2P Require Import Prelude.
From stdpp Require Import strings.
From S2P Require Import WireBase Wire.
#[local] Open Scope Z_scope.

Definition maxReplicaCount : Z := 32.

Record Config := mkConfig {
  cfg_N : Z; cfg_F : Z; cfg_ExpectedClients : Z; cfg_ScheduleWindowMs : Z;
  cfg_Replicas : list string }.

#[export] Instance eta_Config : Eta Config := fun c =>
  mkConfig (cfg_N c) (cfg_F c) (cfg_ExpectedClients c) (cfg_ScheduleWindowMs c) (cfg_Replicas c).

Inductive config_error :=
| MalformedFLine
| MalformedReplicaLine
| MalformedScheduleWindow
| InvalidScheduleWindow
| MalformedClientsLine
| DuplicateClientsLine
| ClientsExceedScheduleLimit
| UnknownDirective
| ScanError
| MissingFLine
| NoReplicaLines
| MissingClientsLine
| ReplicaMaskLimit
| InvalidNF.

(** * The standard library's string functions *)

Definition is_space (a : Ascii.ascii) : bool :=
  let n := Ascii.nat_of_ascii a in (Nat.eqb n 32) || (Nat.leb 9 n && Nat.leb n 13).

Fixpoint trim_left (s : string) : string :=
  match s with
  | String a s' => if is_space a then trim_left s' else s
  | EmptyString => EmptyString
  end.

Definition TrimSpace (s : string) : string :=
  String.rev (trim_left (String.rev (trim_left s))).

(** [strings.Fields]: [cur] is the field being read, reversed *)
Fixpoint fields_from (cur : string) (s : string) : list string :=
  let flush := match cur with EmptyString => [] | _ => [String.rev cur] end in
  match s with
  | EmptyString => flush
  | String a s' =>
      if is_space a then flush ++ fields_from EmptyString s'
      else fields_from (String a cur) s'
  end.
Definition Fields (s : string) : list string := fields_from EmptyString s.

Fixpoint contains_char (c : Ascii.ascii) (s : string) : bool :=
  match s with
  | EmptyString => false
  | String a s' => Ascii.eqb a c || contains_char c s'
  end.

Definition digit (a : Ascii.ascii) : option Z :=
  let n := Ascii.nat_of_ascii a in
  if (Nat.leb 48 n && Nat.leb n 57)%bool then Some (Z.of_nat n - 48) else None.

Fixpoint digits (acc : Z) (s : string) : option Z :=
  match s with
  | EmptyString => Some acc
  | String a s' => match digit a with Some d => digits (10 * acc + d) s' | None => None end
  end.

(** [strconv.ParseUint(s, 10, 64)] *)
Definition ParseUint (s : string) : option Z :=
  match s with
  | EmptyString => None
  | _ => match digits 0 s with
         | Some v => if v <? W64 then Some v else None
         | None => None
         end
  end.

Definition ascii_minus : Ascii.ascii := Ascii.ascii_of_nat 45.
Definition ascii_plus : Ascii.ascii := Ascii.ascii_of_nat 43.
Definition ascii_colon : Ascii.ascii := Ascii.ascii_of_nat 58.

(** [strconv.Atoi] on a 64-bit platform *)
Definition Atoi (s : string) : option Z :=
  let '(neg, body) :=
    match s with
    | String a s' => if Ascii.eqb a ascii_minus then (true, s')
                     else if Ascii.eqb a ascii_plus then (false, s') else (false, s)
    | EmptyString => (false, s)
    end in
  match ParseUint body with
  | None => None
  | Some v => if neg then (if v <=? 2 ^ 63 then Some (- v) else None)
              else (if v <? 2 ^ 63 then Some v else None)
  end.

(** * Reading the file *)

Definition maxScheduleWindowMs : Z := Z.quot (Z.quot MaxInt64 1000000) 4.

Definition read_f (c : Config) (fields : list string) : Config + config_error :=
  match fields with
  | [_; v] => match Atoi v with
              | Some v => inl (c <| cfg_F := v |>)
              | None => inr MalformedFLine
              end
  | _ => inr MalformedFLine
  end.

Definition read_replica (c : Config) (fields : list string) : Config + config_error :=
  match fields with
  | [_; addr] => if contains_char ascii_colon addr
                 then inl (c <| cfg_Replicas ::= fun rs => rs ++ [addr] |>)
                 else inr MalformedReplicaLine
  | _ => inr MalformedReplicaLine
  end.

Definition read_window (c : Config) (fields : list string) : Config + config_error :=
  match fields with
  | [_; v] => match ParseUint v with
              | Some v => if (v =? 0) || (maxScheduleWindowMs <? v)
                          then inr InvalidScheduleWindow
                          else inl (c <| cfg_ScheduleWindowMs := v |>)
              | None => inr InvalidScheduleWindow
              end
  | _ => inr MalformedScheduleWindow
  end.

Definition read_clients (c : Config) (fields : list string) : Config + config_error :=
  match fields with
  | [_; v] =>
      match Atoi v with
      | Some v =>
          if v <=? 0 then inr MalformedClientsLine
          else if negb (cfg_ExpectedClients c =? 0) then inr DuplicateClientsLine
          else if MaxScheduleLen <? v then inr ClientsExceedScheduleLimit
          else inl (c <| cfg_ExpectedClients := v |>)
      | None => inr MalformedClientsLine
      end
  | _ => inr MalformedClientsLine
  end.

(** one iteration of the scanner loop *)
Definition read_line (c : Config) (text : string) : Config + config_error :=
  let line := TrimSpace text in
  if String.eqb line EmptyString || String.prefix "#" line then inl c else
  let fields := Fields line in
  match fields with
  | [] => inl c
  | directive :: _ =>
      if String.eqb directive "f" then read_f c fields
      else if String.eqb directive "replica" then read_replica c fields
      else if String.eqb directive "schedule-window-ms" then read_window c fields
      else if String.eqb directive "clients" then read_clients c fields
      else inr UnknownDirective
  end.

Fixpoint read_lines (c : Config) (lines : list string) : Config + config_error :=
  match lines with
  | [] => inl c
  | text :: lines => match read_line c text with
                     | inl c => read_lines c lines
                     | inr e => inr e
                     end
  end.

(** the checks after the loop *)
Definition finish_config (c : Config) : Config + config_error :=
  if cfg_F c <? 0 then inr MissingFLine
  else if Zlength (cfg_Replicas c) =? 0 then inr NoReplicaLines
  else if cfg_ExpectedClients c =? 0 then inr MissingClientsLine
  else
    let c := c <| cfg_N := Zlength (cfg_Replicas c) |> in
    if maxReplicaCount <? cfg_N c then inr ReplicaMaskLimit
    else
      let expectedF := Z.quot (cfg_N c - 1) 2 in
      if (Z.rem (cfg_N c) 2 =? 0) || negb (cfg_F c =? expectedF) then inr InvalidNF
      else inl c.

Definition ReadConfig (lines : list string) (scan_err : bool) : Config + config_error :=
  let c := {| cfg_N := 0; cfg_F := -1; cfg_ExpectedClients := 0;
              cfg_ScheduleWindowMs := 0; cfg_Replicas := [] |} in
  match read_lines c lines with
  | inr e => inr e
  | inl c => if scan_err then inr ScanError else finish_config c
  end.

(** * What the rest of the program asks of it *)

Definition QuorumSize (c : Config) : Z := cfg_F c + 1.

Definition LeaderIndex (c : Config) (viewId : Z) : Z := viewId mod cfg_N c.

(** [addr\[strings.LastIndex(addr, ":")+1:\]] *)
Fixpoint after_last_colon (acc : string) (s : string) : string :=
  match s with
  | EmptyString => acc
  | String a s' => after_last_colon (if Ascii.eqb a ascii_colon then s' else acc) s'
  end.

Definition Port (c : Config) (i : nat) : option string :=
  addr ← cfg_Replicas c !! i; Some (after_last_colon addr addr).

(** nanoseconds *)
Definition ScheduleWindow (c : Config) : Z :=
  if cfg_ScheduleWindowMs c =? 0 then 2 * 1000000000
  else cfg_ScheduleWindowMs c * 1000000.

(** * Well-formed configurations *)

Record config_ok (c : Config) : Prop := {
  ok_N : cfg_N c = Zlength (cfg_Replicas c);
  ok_NF : cfg_N c = 2 * cfg_F c + 1;
  ok_F : 0 <= cfg_F c;
  ok_mask : cfg_N c <= maxReplicaCount;
  ok_clients : 0 < cfg_ExpectedClients c <= MaxScheduleLen;
  ok_window : 0 <= cfg_ScheduleWindowMs c <= maxScheduleWindowMs;
  ok_addrs : Forall (fun a => contains_char ascii_colon a = true) (cfg_Replicas c);
}.

(** what holds of the partial configuration during the loop *)
Definition partial_ok (c : Config) : Prop :=
  0 <= cfg_ExpectedClients c <= MaxScheduleLen /\
  0 <= cfg_ScheduleWindowMs c <= maxScheduleWindowMs /\
  Forall (fun a => contains_char ascii_colon a = true) (cfg_Replicas c).

Lemma digits_nonneg acc s v : 0 <= acc -> digits acc s = Some v -> 0 <= v.
Proof.
  revert acc. induction s as [|a s IH]; intros acc Ha; simpl; [by intros [= <-]|].
  unfold digit. destruct (Nat.leb 48 _ && Nat.leb _ 57)%bool eqn:E; [|done].
  apply andb_prop in E as [E _]. apply Nat.leb_le in E. apply IH. lia.
Qed.

Lemma ParseUint_nonneg s v : ParseUint s = Some v -> 0 <= v.
Proof.
  unfold ParseUint. destruct s as [|a s]; [done|].
  destruct (digits 0 (String a s)) as [w|] eqn:E; [|done].
  destruct (w <? W64); [|done]. intros [= <-]. by eapply digits_nonneg, E.
Qed.

Ltac case_if_in H :=
  repeat match type of H with
  | context [if ?b then _ else _] => let E := fresh "E" in destruct b eqn:E; try discriminate
  end.

Lemma read_line_ok c text c' : partial_ok c -> read_line c text = inl c' -> partial_ok c'.
Proof.
  intros Hc. unfold read_line.
  destruct (_ || _); [by intros [= <-]|].
  destruct (Fields _) as [|d fs]; [by intros [= <-]|].
  destruct (String.eqb d "f").
  { unfold read_f. destruct fs as [|v [|]]; try done.
    destruct (Atoi v); [|done]. intros [= <-]. done. }
  destruct (String.eqb d "replica").
  { unfold read_replica. destruct fs as [|v [|]]; try done.
    destruct (contains_char _ v) eqn:E; [|done]. intros [= <-].
    destruct Hc as (?&?&?). split; [|split]; rsimpl; [done..|].
    apply Forall_app. auto. }
  destruct (String.eqb d "schedule-window-ms").
  { unfold read_window. destruct fs as [|v [|]]; try done.
    destruct (ParseUint v) as [w|] eqn:Ev; [|done]. apply ParseUint_nonneg in Ev.
    destruct (_ || _) eqn:E; [done|]. intros [= <-].
    apply orb_false_elim in E as [_ E]. apply Z.ltb_ge in E.
    destruct Hc as (?&?&?). split; [|split]; rsimpl; auto. }
  destruct (String.eqb d "clients"); [|done].
  unfold read_clients. destruct fs as [|v [|]]; try done.
  destruct (Atoi v) as [w|]; [|done].
  destruct (Z.leb_spec w 0); [done|]. destruct (negb _); [done|].
  destruct (Z.ltb_spec MaxScheduleLen w); [done|]. intros [= <-].
  destruct Hc as (?&?&?). split; [|split]; rsimpl; [lia|done..].
Qed.

Lemma read_lines_ok lines c c' : partial_ok c -> read_lines c lines = inl c' -> partial_ok c'.
Proof.
  revert c. induction lines as [|t ls IH]; intros c Hc; simpl; [by intros [= <-]|].
  destruct (read_line c t) as [c1|] eqn:E; [|done].
  apply IH. by eapply read_line_ok.
Qed.

Lemma finish_config_ok c c' : partial_ok c -> finish_config c = inl c' -> config_ok c'.
Proof.
  intros (Hcl & Hw & Ha). unfold finish_config.
  destruct (Z.ltb_spec (cfg_F c) 0); [done|].
  destruct (Z.eqb_spec (Zlength (cfg_Replicas c)) 0); [done|].
  destruct (Z.eqb_spec (cfg_ExpectedClients c) 0); [done|]. cbv zeta.
  rsimpl. destruct (Z.ltb_spec maxReplicaCount (Zlength (cfg_Replicas c))); [done|].
  destruct (_ || _) eqn:E; [done|]. intros [= <-].
  apply orb_false_elim in E as [E1 E2]. apply Z.eqb_neq in E1.
  apply negb_false_iff, Z.eqb_eq in E2.
  constructor; rsimpl; auto; [|lia].
  rewrite E2. rewrite Z.rem_mod_nonneg in E1 by lia.
  rewrite Z.quot_div_nonneg by lia.
  pose proof (Z.div_mod (Zlength (cfg_Replicas c) - 1) 2 ltac:(lia)).
  pose proof (Z.mod_pos_bound (Zlength (cfg_Replicas c) - 1) 2 ltac:(lia)).
  pose proof (Z.div_mod (Zlength (cfg_Replicas c)) 2 ltac:(lia)).
  pose proof (Z.mod_pos_bound (Zlength (cfg_Replicas c)) 2 ltac:(lia)).
  lia.
Qed.

Lemma config_quorum c : config_ok c -> 0 < QuorumSize c <= cfg_N c /\ cfg_N c < 2 * QuorumSize c.
Proof. intros []. unfold QuorumSize. lia. Qed.

Lemma LeaderIndex_range c v : config_ok c -> 0 <= LeaderIndex c v < cfg_N c.
Proof. intros []. apply Z.mod_pos_bound. lia. Qed.

Lemma ScheduleWindow_range c :
  config_ok c -> 0 < ScheduleWindow c /\ 4 * ScheduleWindow c <= MaxInt64.
Proof.
  intros []. unfold ScheduleWindow. change maxScheduleWindowMs with 2305843009213 in *.
  change MaxInt64 with 9223372036854775807.
  destruct (Z.eqb_spec (cfg_ScheduleWindowMs c) 0); lia.
Qed.
