(* ===== verification/Lines.v ===== *)
(** Client schedules and the global bus order: [src/paxosbus/internal/protocol/]
    [schedule.go], [schedule_transport.go] and the slot computations of
    [replica.go].

    Every client announces, per schedule window, when its buses arrive at the
    replicas; the buses of all clients, ordered by arrival time and then by
    client, form one global sequence, and a bus's position in it is its slot.
    A bus's sequence number is its arrival time in nanoseconds. *)
From S2P Require Import Prelude WireBase Wire.

(** * Schedules *)

Definition msNs : Z := 1000000.

Definition fnvOffset64 : Z := 14695981039346656037.
Definition fnvPrime64 : Z := 1099511628211.

(** [hash/fnv]'s 64-bit FNV-1a: one [Write] *)
Fixpoint fnv1a (h : Z) (bs : list byte) {struct bs} : Z :=
  match bs with
  | [] => h
  | b :: bs => fnv1a (mul64 (Z.lxor h (byte_val b)) fnvPrime64) bs
  end.

Fixpoint digest_from (h : Z) (schedule : list BusSyncMessage) {struct schedule} : Z :=
  match schedule with
  | [] => h
  | m :: schedule =>
      let b := zeros 32 in
      let b := PutUint64 b 0 (bs_ClientId m) in
      let b := PutUint64 b 8 (bs_FirstMsgNs m) in
      let b := PutUint64 b 16 (bs_IntervalMs m) in
      let b := PutUint64 b 24 (bs_EndTime m) in
      digest_from (fnv1a h b) schedule
  end.
Definition scheduleDigest (schedule : list BusSyncMessage) : Z :=
  digest_from fnvOffset64 schedule.

(** the timing test of one entry *)
Definition bad_timing (m : BusSyncMessage) : bool :=
  (MaxInt64 <? bs_FirstMsgNs m) || (MaxInt64 <? bs_EndTime m) ||
  (bs_EndTime m <=? bs_FirstMsgNs m) || (MaxInt64 / msNs <? bs_IntervalMs m).

(** the order test of an entry against its predecessor *)
Definition bad_order (p m : BusSyncMessage) : bool :=
  (bs_FirstMsgNs m <? bs_FirstMsgNs p) ||
  ((bs_FirstMsgNs m =? bs_FirstMsgNs p) &&
   (negb (bs_EndTime m =? bs_EndTime p) || (bs_ClientId m <=? bs_ClientId p))) ||
  ((bs_FirstMsgNs p <? bs_FirstMsgNs m) && (bs_FirstMsgNs m <? bs_EndTime p)).

Fixpoint validate_from (prev : option BusSyncMessage) (schedule : list BusSyncMessage)
    {struct schedule} : bool :=
  match schedule with
  | [] => true
  | m :: schedule =>
      if bad_timing m then false
      else if match prev with Some p => bad_order p m | None => false end then false
      else validate_from (Some m) schedule
  end.

(** [validateSchedule(...) == nil] *)
Definition validateSchedule (schedule : list BusSyncMessage) : bool :=
  if MaxScheduleHistoryLen <? Zlength schedule then false
  else validate_from None schedule.

Fixpoint equal_elements (a b : list BusSyncMessage) : bool :=
  match a, b with
  | x :: a, y :: b => if decide (x = y) then equal_elements a b else false
  | _, _ => true
  end.

Definition schedulesEqual (a b : list BusSyncMessage) : bool :=
  if negb (Nat.eqb (length a) (length b)) then false else equal_elements a b.

Definition schedulePrefix (a b : list BusSyncMessage) : bool :=
  Nat.leb (length a) (length b) && schedulesEqual a (take (length a) b).

(** * Arrival lines *)

Record clientLine := mkclientLine {
  cl_windows : list BusSyncMessage;
  cl_windowCounts : list Z;
  cl_baseNs : Z;
  cl_intervalNs : Z;
  cl_maxSeqSeen : Z }.

#[export] Instance eta_clientLine : Eta clientLine := fun c =>
  mkclientLine (cl_windows c) (cl_windowCounts c) (cl_baseNs c) (cl_intervalNs c)
    (cl_maxSeqSeen c).

Definition expectedNs (cl : clientLine) (n : Z) : Z :=
  if Nat.ltb 0 (length (cl_windows cl)) then i64 n
  else i64 (cl_baseNs cl + i64 (i64 (n - 1) * cl_intervalNs cl)).

Definition arrivalNs (cl : clientLine) (n : Z) : Z := expectedNs cl n.

(** [countBefore] on a line without windows *)
Definition countBefore_plain (baseNs intervalNs y : Z) (tiePrecedes : bool) : Z :=
  let d := i64 (y - baseNs) in
  let k := intervalNs in
  if k <=? 0 then 0 else
  let cnt := if 0 <? d then add64 (u64 (Z.quot (d - 1) k)) 1 else 0 in
  if tiePrecedes && (0 <=? d) && (Z.rem d k =? 0) then add64 cnt 1 else cnt.

(** [countBefore(&clientLine{baseNs: int64(w.FirstMsgNs), intervalNs:
    int64(w.IntervalMs) * 1e6}, y, tiePrecedes)] *)
Definition countBefore_window (w : BusSyncMessage) (y : Z) (tiePrecedes : bool) : Z :=
  countBefore_plain (i64 (bs_FirstMsgNs w)) (i64 (i64 (bs_IntervalMs w) * msNs)) y tiePrecedes.

(** [sort.Search(len(windows), windows\[i\].EndTime > t)] *)
Definition search_window (ws : list BusSyncMessage) (t : Z) : nat :=
  Search (length ws)
    (fun i => match ws !! i with Some w => t <? bs_EndTime w | None => true end).

Definition countBefore (line : clientLine) (y : Z) (tiePrecedes : bool) : Z :=
  if Nat.ltb 0 (length (cl_windows line)) then
    let i := search_window (cl_windows line) (u64 y) in
    let total := default 0 (cl_windowCounts line !! i) in
    match cl_windows line !! i with
    | Some w => add64 total (countBefore_window w y tiePrecedes)
    | None => total
    end
  else countBefore_plain (cl_baseNs line) (cl_intervalNs line) y tiePrecedes.

Definition computeGlobalSlot (lines : gmap Z clientLine) (clientId reqId : Z) : Z :=
  match lines !! clientId with
  | None => sub64 reqId 1
  | Some self =>
      let y := expectedNs self reqId in
      let slot := sub64 reqId 1 in
      let slot := if Nat.ltb 0 (length (cl_windows self)) then countBefore self y false
                  else slot in
      map_fold (fun cid line slot =>
                  if cid =? clientId then slot
                  else add64 slot (countBefore line y (cid <? clientId))) slot lines
  end.

(** [end] is the committed end of the schedule: a bus of a window beyond it
    is not valid yet. *)
Definition validSequence (cl : clientLine) (seq end_ : Z) : bool :=
  if Nat.eqb (length (cl_windows cl)) 0 then true else
  match cl_windows cl !! search_window (cl_windows cl) seq with
  | Some w =>
      negb (bs_IntervalMs w =? 0) && (bs_FirstMsgNs w <=? seq) && (bs_EndTime w <=? end_) &&
      (sub64 seq (bs_FirstMsgNs w) mod mul64 (bs_IntervalMs w) msNs =? 0)
  | None => false
  end.

(** the loop of [nextSequence] over the windows from the one being searched *)
Fixpoint next_in (ws : list BusSyncMessage) (seq : Z) {struct ws} : Z :=
  match ws with
  | [] => 0
  | w :: ws =>
      if bs_IntervalMs w =? 0 then next_in ws seq
      else if seq <=? bs_FirstMsgNs w then bs_FirstMsgNs w
      else
        let step := mul64 (bs_IntervalMs w) msNs in
        let n := add64 (bs_FirstMsgNs w)
                   (mul64 (add64 (sub64 (sub64 seq (bs_FirstMsgNs w)) 1 / step) 1) step) in
        if n <? bs_EndTime w then n else next_in ws seq
  end.

Definition nextSequence (cl : clientLine) (seq : Z) : Z :=
  next_in (drop (search_window (cl_windows cl) seq) (cl_windows cl)) seq.

(** [installScheduleLocked]'s loop: the line of one entry's client is created
    at its first window and extended by each further one.  [old] is the
    previous [r.clients]. *)
Definition add_window (old : gmap Z clientLine) (lines : gmap Z clientLine)
    (m : BusSyncMessage) : gmap Z clientLine :=
  let line :=
    match lines !! bs_ClientId m with
    | Some line => line
    | None =>
        {| cl_windows := []; cl_windowCounts := [0];
           cl_baseNs := i64 (bs_FirstMsgNs m);
           cl_intervalNs := i64 (i64 (bs_IntervalMs m) * msNs);
           cl_maxSeqSeen := match old !! bs_ClientId m with
                            | Some o => cl_maxSeqSeen o
                            | None => 0
                            end |}
    end in
  let count := countBefore_window m (i64 (bs_EndTime m)) false in
  let line := line <| cl_windows ::= fun ws => ws ++ [m] |>
                   <| cl_windowCounts ::= fun cs => cs ++ 
                      [add64 (default 0 (cs !! (length cs - 1)%nat)) count] |> in
  <[bs_ClientId m := line]> lines.

Definition schedule_lines (old : gmap Z clientLine) (schedule : list BusSyncMessage) :
    gmap Z clientLine :=
  foldl (add_window old) ∅ schedule.

(** * What the schedule denotes *)

(** the times at which a window's buses arrive *)
Definition window_arrivals (w : BusSyncMessage) : list Z :=
  if bs_IntervalMs w =? 0 then []
  else let step := bs_IntervalMs w * msNs in
       (fun j => bs_FirstMsgNs w + Z.of_nat j * step) <$>
         seq 0 (Z.to_nat ((bs_EndTime w - bs_FirstMsgNs w - 1) / step + 1)).

Definition line_arrivals (cl : clientLine) : list Z :=
  concat (window_arrivals <$> cl_windows cl).

(** how many of the times are before [y] *)
Definition nb (l : list Z) (y : Z) : Z := Zlength (filter (fun s => s < y) l).

(** the bound a tie-breaking count uses: times equal to [y] count too *)
Definition upto (y : Z) (tiePrecedes : bool) : Z := if tiePrecedes then y + 1 else y.

Record window_ok (w : BusSyncMessage) : Prop := {
  wok_client : is_u64 (bs_ClientId w);
  wok_first : 0 <= bs_FirstMsgNs w;
  wok_end : bs_FirstMsgNs w < bs_EndTime w <= MaxInt64;
  wok_interval : 0 <= bs_IntervalMs w <= MaxInt64 / msNs }.

(** consecutive windows of one line do not overlap *)
Definition windows_ordered (ws : list BusSyncMessage) : Prop :=
  forall i j w w', (i < j)%nat -> ws !! i = Some w -> ws !! j = Some w' ->
    bs_EndTime w <= bs_FirstMsgNs w'.

Record line_ok (cl : clientLine) : Prop := {
  lok_nonempty : cl_windows cl <> [];
  lok_windows : Forall window_ok (cl_windows cl);
  lok_ordered : windows_ordered (cl_windows cl);
  lok_counts : forall i, (i <= length (cl_windows cl))%nat ->
    cl_windowCounts cl !! i =
      Some (u64 (zsum (fun w => Zlength (window_arrivals w)) (take i (cl_windows cl)))) }.

Lemma nb_app l1 l2 y : nb (l1 ++ l2) y = nb l1 y + nb l2 y.
Proof. unfold nb. rewrite filter_app, length_app. lia. Qed.

Lemma nb_cons s l y : nb (s :: l) y = (if decide (s < y) then 1 else 0) + nb l y.
Proof. unfold nb. rewrite filter_cons. case_decide; cbn [length]; lia. Qed.

Lemma nb_nonneg l y : 0 <= nb l y.
Proof. unfold nb. lia. Qed.

Lemma nb_le_length l y : nb l y <= Zlength l.
Proof. unfold nb. pose proof (length_filter (fun s => s < y) l). lia. Qed.

Lemma nb_mono l y y' : y <= y' -> nb l y <= nb l y'.
Proof.
  intros Hy. induction l as [|s l IH]; [done|]. rewrite !nb_cons.
  repeat case_decide; lia.
Qed.

Lemma nb_all l y : Forall (fun s => s < y) l -> nb l y = Zlength l.
Proof.
  induction 1 as [|s l Hs _ IH]; [done|]. rewrite nb_cons, decide_True by done.
  cbn [length]. lia.
Qed.

Lemma nb_none l y : Forall (fun s => y <= s) l -> nb l y = 0.
Proof.
  induction 1 as [|s l Hs _ IH]; [done|]. rewrite nb_cons, decide_False by lia. lia.
Qed.

Lemma nb_lt l s y : s ∈ l -> s < y -> nb l s + 1 <= nb l y.
Proof.
  intros Hs Hy. apply list_elem_of_split in Hs as (l1 & l2 & ->).
  rewrite !nb_app, !nb_cons, decide_False, (decide_True _ _ Hy) by lia.
  pose proof (nb_mono l1 s y). pose proof (nb_mono l2 s y). lia.
Qed.

(** ** One window *)

Definition progression (b k : Z) (n : nat) : list Z :=
  (fun j => b + Z.of_nat j * k) <$> seq 0 n.

Lemma progression_S b k n : progression b k (S n) = progression b k n ++ [b + Z.of_nat n * k].
Proof. unfold progression. by rewrite seq_S, fmap_app. Qed.

Lemma elem_of_progression b k n s :
  s ∈ progression b k n <-> exists j, 0 <= j < Z.of_nat n /\ s = b + j * k.
Proof.
  unfold progression. rewrite list_elem_of_fmap. split.
  - intros (j & -> & Hj). apply elem_of_seq in Hj. exists (Z.of_nat j). lia.
  - intros (j & Hj & ->). exists (Z.to_nat j). rewrite Z2Nat.id by lia.
    split; [done|]. apply elem_of_seq. lia.
Qed.

Lemma nb_progression b k n y :
  0 < k ->
  nb (progression b k n) y =
    Z.min (Z.of_nat n) (if decide (b < y) then (y - b - 1) / k + 1 else 0).
Proof.
  intros Hk. induction n as [|n IH].
  { unfold nb. simpl. case_decide; [|lia].
    assert (0 <= (y - b - 1) / k) by (apply Z.div_pos; lia). lia. }
  rewrite progression_S, nb_app, nb_cons, IH. unfold nb. cbn [filter list_filter length].
  assert (forall q, q <= (y - b - 1) / k <-> b + q * k < y) as Hq.
  { intros q. pose proof (Z.div_mod (y - b - 1) k ltac:(lia)).
    pose proof (Z.mod_pos_bound (y - b - 1) k Hk).
    split; intros; nia. }
  specialize (Hq (Z.of_nat n)). repeat case_decide; try nia.
Qed.

Lemma window_arrivals_progression w :
  bs_IntervalMs w <> 0 ->
  window_arrivals w =
    progression (bs_FirstMsgNs w) (bs_IntervalMs w * msNs)
      (Z.to_nat ((bs_EndTime w - bs_FirstMsgNs w - 1) / (bs_IntervalMs w * msNs) + 1)).
Proof. intros H. unfold window_arrivals. by rewrite (proj2 (Z.eqb_neq _ _) H). Qed.

Lemma window_step w : window_ok w -> bs_IntervalMs w <> 0 ->
  0 < bs_IntervalMs w * msNs <= MaxInt64.
Proof.
  intros [_ _ _ Hi] H. unfold msNs, MaxInt64 in *.
  pose proof (Z.mul_div_le (2 ^ 63 - 1) 1000000 ltac:(lia)). lia.
Qed.

(** membership: a time of the window's progression before its end *)
Lemma elem_of_window_arrivals w s :
  window_ok w ->
  s ∈ window_arrivals w <->
    bs_IntervalMs w <> 0 /\ bs_FirstMsgNs w <= s < bs_EndTime w /\
    (s - bs_FirstMsgNs w) mod (bs_IntervalMs w * msNs) = 0.
Proof.
  intros Hok. destruct (decide (bs_IntervalMs w = 0)) as [E|E].
  { unfold window_arrivals. rewrite E. cbn. split; [by intros ?%elem_of_nil|tauto]. }
  rewrite window_arrivals_progression, elem_of_progression by done.
  pose proof (window_step w Hok E) as Hk. destruct Hok as [_ H0 He _].
  set (k := bs_IntervalMs w * msNs) in *.
  set (d := bs_EndTime w - bs_FirstMsgNs w - 1) in *.
  assert (0 <= d / k) by (apply Z.div_pos; lia).
  pose proof (Z.div_mod d k ltac:(lia)). pose proof (Z.mod_pos_bound d k ltac:(lia)).
  split.
  - intros (j & Hj & ->). split; [done|]. split; [nia|].
    replace (bs_FirstMsgNs w + j * k - bs_FirstMsgNs w) with (j * k) by lia.
    apply Z.mod_mul. lia.
  - intros (_ & Hs & Hm). exists ((s - bs_FirstMsgNs w) / k).
    pose proof (Z.div_mod (s - bs_FirstMsgNs w) k ltac:(lia)).
    assert (0 <= (s - bs_FirstMsgNs w) / k) by (apply Z.div_pos; lia).
    split; [|lia]. split; [done|]. rewrite Z2Nat.id by lia. nia.
Qed.

Lemma window_arrivals_bounds w s :
  window_ok w -> s ∈ window_arrivals w -> bs_FirstMsgNs w <= s < bs_EndTime w.
Proof. intros Hok Hs. by apply (elem_of_window_arrivals w s Hok) in Hs as (_ & ? & _). Qed.

Lemma i64_nonneg_sub a b : 0 <= a <= MaxInt64 -> 0 <= b <= MaxInt64 -> i64 (a - b) = a - b.
Proof.
  intros Ha Hb. unfold i64, W64, MaxInt64 in *.
  destruct (decide (b <= a)).
  - rewrite Z.mod_small by lia. destruct (Z.ltb_spec (a - b) (2 ^ 63)); lia.
  - replace ((a - b) mod 2 ^ 64) with (a - b + 2 ^ 64).
    2:{ apply (Z.mod_unique _ _ (-1)); lia. }
    destruct (Z.ltb_spec (a - b + 2 ^ 64) (2 ^ 63)); lia.
Qed.

Lemma window_step_i64 w : window_ok w ->
  i64 (i64 (bs_IntervalMs w) * msNs) = bs_IntervalMs w * msNs.
Proof.
  intros [_ _ _ Hi]. unfold msNs, MaxInt64 in *.
  pose proof (Z.mul_div_le (2 ^ 63 - 1) 1000000 ltac:(lia)).
  rewrite (i64_small (bs_IntervalMs w)) by (unfold MaxInt64; lia).
  apply i64_small. unfold MaxInt64. lia.
Qed.

(** [countBefore] of one window counts the progression's times, whether or
    not they are before the window's end. *)
Lemma countBefore_window_spec w y tie :
  window_ok w -> 0 <= y <= MaxInt64 -> y < bs_EndTime w ->
  countBefore_window w y tie = nb (window_arrivals w) (upto y tie).
Proof.
  intros Hok Hy Hlt. unfold countBefore_window, countBefore_plain.
  rewrite window_step_i64 by done.
  destruct (decide (bs_IntervalMs w = 0)) as [E|E].
  { unfold window_arrivals. rewrite E. cbn. done. }
  pose proof (window_step w Hok E) as Hk. destruct Hok as [_ H0 He _].
  rewrite (i64_small (bs_FirstMsgNs w)) by lia. rewrite i64_nonneg_sub by lia.
  rewrite window_arrivals_progression by done. rewrite nb_progression by lia.
  set (k := bs_IntervalMs w * msNs) in *. set (b := bs_FirstMsgNs w) in *.
  rewrite (proj2 (Z.leb_gt _ _)) by lia.
  assert (forall t, 0 <= t -> t <= bs_EndTime w - b - 1 ->
    t / k + 1 <= Z.of_nat (Z.to_nat ((bs_EndTime w - b - 1) / k + 1))) as Hcap.
  { intros t Ht Hle. assert (t / k <= (bs_EndTime w - b - 1) / k) by (apply Z.div_le_mono; lia).
    assert (0 <= t / k) by (apply Z.div_pos; lia). lia. }
  assert (forall t, 0 <= t <= MaxInt64 -> 0 <= t / k <= MaxInt64) as Hdiv.
  { intros t Ht. split; [apply Z.div_pos; lia|].
    apply Z.div_le_upper_bound; [lia|]. nia. }
  unfold add64, upto.
  destruct (Z.ltb_spec 0 (y - b)) as [Hd|Hd].
  - rewrite Z.quot_div_nonneg by lia.
    pose proof (Hdiv (y - b - 1) ltac:(lia)).
    rewrite (u64_small ((y - b - 1) / k)) by word_lia.
    rewrite (u64_small ((y - b - 1) / k + 1)) by word_lia.
    destruct tie; cbn [andb].
    2:{ rewrite decide_True by lia. rewrite Z.min_r; [done|].
        apply Hcap; lia. }
    rewrite (proj2 (Z.leb_le _ _)) by lia. cbn [andb].
    rewrite Z.rem_mod_nonneg by lia. rewrite decide_True by lia.
    replace (y + 1 - b - 1) with (y - b) by lia.
    rewrite Z.min_r by (apply Hcap; lia).
    pose proof (Z.div_mod (y - b) k ltac:(lia)). pose proof (Z.mod_pos_bound (y - b) k ltac:(lia)).
    pose proof (Z.div_mod (y - b - 1) k ltac:(lia)).
    pose proof (Z.mod_pos_bound (y - b - 1) k ltac:(lia)).
    destruct (Z.eqb_spec ((y - b) mod k) 0) as [Em|Em].
    + rewrite u64_small by word_lia. nia.
    + nia.
  - destruct tie; cbn [andb].
    2:{ rewrite decide_False by lia. rewrite Z.min_r; [done|lia]. }
    destruct (Z.leb_spec 0 (y - b)) as [Hz|Hz]; cbn [andb].
    + assert (y - b = 0) as -> by lia. rewrite Z.rem_0_l by lia. cbn.
      rewrite decide_True by lia. replace (y + 1 - b - 1) with 0 by lia.
      rewrite Z.div_0_l by lia. pose proof (Hcap 0 ltac:(lia) ltac:(lia)) as Hc.
      rewrite Z.div_0_l in Hc by lia. rewrite Z.min_r by lia. done.
    + rewrite decide_False by lia. rewrite Z.min_r; [done|lia].
Qed.

(** the full count of a window, as [installScheduleLocked] computes it *)
Lemma countBefore_window_full w :
  window_ok w -> countBefore_window w (i64 (bs_EndTime w)) false = Zlength (window_arrivals w).
Proof.
  intros Hok. destruct (decide (bs_IntervalMs w = 0)) as [E|E].
  { unfold countBefore_window, countBefore_plain, window_arrivals. rewrite E. cbn. done. }
  unfold countBefore_window, countBefore_plain. rewrite window_step_i64 by done.
  pose proof (window_step w Hok E) as Hk. destruct Hok as [_ H0 He _].
  rewrite (i64_small (bs_FirstMsgNs w)), (i64_small (bs_EndTime w)) by lia.
  rewrite i64_nonneg_sub by lia.
  rewrite window_arrivals_progression by done.
  set (k := bs_IntervalMs w * msNs) in *. set (b := bs_FirstMsgNs w) in *.
  rewrite (proj2 (Z.leb_gt _ _)), (proj2 (Z.ltb_lt _ _)) by lia. cbn [andb].
  rewrite Z.quot_div_nonneg by lia.
  assert (0 <= (bs_EndTime w - b - 1) / k <= MaxInt64).
  { split; [apply Z.div_pos; lia|]. apply Z.div_le_upper_bound; [lia|]. nia. }
  unfold add64. rewrite (u64_small ((bs_EndTime w - b - 1) / k)) by word_lia.
  rewrite u64_small by word_lia.
  unfold progression. rewrite length_fmap, length_seq. lia.
Qed.

(** ** One line *)

Lemma line_windows_pos cl : line_ok cl -> Nat.ltb 0 (length (cl_windows cl)) = true.
Proof.
  intros Hok. apply Nat.ltb_lt. pose proof (lok_nonempty _ Hok).
  destruct (cl_windows cl); [done|]. simpl. lia.
Qed.

Lemma line_window_ok cl i w : line_ok cl -> cl_windows cl !! i = Some w -> window_ok w.
Proof. intros Hok Hi. by eapply Forall_lookup_1, Hi; apply lok_windows. Qed.

(** the search finds the first window that ends after [t] *)
Lemma search_window_spec cl t :
  line_ok cl ->
  let i := search_window (cl_windows cl) t in
  (i <= length (cl_windows cl))%nat /\
  (forall j w, cl_windows cl !! j = Some w -> (j < i)%nat -> bs_EndTime w <= t) /\
  (forall j w, cl_windows cl !! j = Some w -> (i <= j)%nat -> t < bs_EndTime w).
Proof.
  intros Hok. unfold search_window.
  set (f := fun i => match cl_windows cl !! i with Some w => t <? bs_EndTime w | None => true end).
  destruct (Search_spec (length (cl_windows cl)) f) as (Hle & Hlo & Hhi).
  { intros i j Hij. unfold f.
    destruct (lookup_lt_is_Some_2 (cl_windows cl) i) as [w Hw]; [lia|].
    destruct (lookup_lt_is_Some_2 (cl_windows cl) j) as [w' Hw']; [lia|].
    rewrite Hw, Hw'. intros E. apply Z.ltb_lt in E. apply Z.ltb_lt.
    destruct (decide (i = j)) as [->|]; [congruence|].
    pose proof (lok_ordered _ Hok i j w w' ltac:(lia) Hw Hw').
    pose proof (wok_end _ (line_window_ok _ _ _ Hok Hw')). lia. }
  split; [done|]. split; intros j w Hw Hj.
  - specialize (Hlo j Hj). unfold f in Hlo. rewrite Hw in Hlo. by apply Z.ltb_ge.
  - pose proof (lookup_lt_Some _ _ _ Hw). specialize (Hhi j ltac:(lia)).
    unfold f in Hhi. rewrite Hw in Hhi. by apply Z.ltb_lt.
Qed.

Lemma nb_windows_all ws y :
  Forall window_ok ws -> Forall (fun w => bs_EndTime w <= y) ws ->
  nb (concat (window_arrivals <$> ws)) y = zsum (fun w => Zlength (window_arrivals w)) ws.
Proof.
  induction 1 as [|w ws Hw _ IH]; intros Hy; [done|]. inversion_clear Hy.
  cbn [fmap list_fmap concat zsum]. rewrite nb_app, IH by done. f_equal.
  apply nb_all, Forall_forall. intros s Hs.
  apply window_arrivals_bounds in Hs; [|done]. lia.
Qed.

Lemma nb_windows_none ws y :
  Forall window_ok ws -> Forall (fun w => y <= bs_FirstMsgNs w) ws ->
  nb (concat (window_arrivals <$> ws)) y = 0.
Proof.
  induction 1 as [|w ws Hw _ IH]; intros Hy; [done|]. inversion_clear Hy.
  cbn [fmap list_fmap concat]. rewrite nb_app, IH, nb_none; [done| |done].
  apply Forall_forall. intros s Hs. apply window_arrivals_bounds in Hs; [|done]. lia.
Qed.

Lemma zsum_len_nonneg ws : 0 <= zsum (fun w => Zlength (window_arrivals w)) ws.
Proof. apply zsum_nonneg. intros. lia. Qed.

Lemma u64_add_l a b : u64 (u64 a + b) = u64 (a + b).
Proof. unfold u64. by rewrite Z.add_mod_idemp_l. Qed.
Lemma u64_add_r a b : u64 (a + u64 b) = u64 (a + b).
Proof. unfold u64. by rewrite Z.add_mod_idemp_r. Qed.

Lemma line_arrivals_split cl i :
  line_arrivals cl = concat (window_arrivals <$> take i (cl_windows cl)) ++
                     concat (window_arrivals <$> drop i (cl_windows cl)).
Proof.
  unfold line_arrivals. by rewrite <- concat_app, <- fmap_app, take_drop.
Qed.

Lemma countBefore_spec cl y tie :
  line_ok cl -> 0 <= y <= MaxInt64 ->
  countBefore cl y tie = u64 (nb (line_arrivals cl) (upto y tie)).
Proof.
  intros Hok Hy. unfold countBefore. rewrite line_windows_pos by done.
  rewrite u64_small by word_lia. cbv zeta.
  destruct (search_window_spec cl y Hok) as (Hle & Hlo & Hhi).
  set (i := search_window (cl_windows cl) y) in *.
  rewrite (lok_counts _ Hok i Hle). cbn [default from_option id].
  rewrite (line_arrivals_split cl i), nb_app.
  pose proof (lok_windows _ Hok) as HF.
  rewrite (nb_windows_all (take i _)).
  2:{ by apply Forall_take. }
  2:{ apply Forall_lookup. intros j w Hj. apply lookup_take_Some in Hj as [Hj Hlt].
      specialize (Hlo j w Hj Hlt). unfold upto. destruct tie; lia. }
  destruct (cl_windows cl !! i) as [w|] eqn:Ew.
  - pose proof (line_window_ok _ _ _ Hok Ew) as Hw.
    pose proof (Hhi i w Ew ltac:(lia)) as Hend.
    rewrite countBefore_window_spec by done.
    rewrite (drop_S _ w i Ew). cbn [fmap list_fmap concat]. rewrite nb_app.
    rewrite (nb_windows_none (drop (S i) _)).
    2:{ by apply Forall_drop. }
    2:{ apply Forall_lookup. intros j w' Hj. rewrite lookup_drop in Hj.
        pose proof (lok_ordered _ Hok i (S i + j)%nat w w' ltac:(lia) Ew Hj).
        unfold upto. destruct tie; lia. }
    unfold add64. rewrite u64_add_l. f_equal. lia.
  - apply lookup_ge_None in Ew. rewrite drop_ge by done. cbn [fmap list_fmap concat].
    f_equal. unfold nb at 1. cbn. lia.
Qed.

Lemma list_elem_of_concat {A} (x : A) ls :
  x ∈ concat ls <-> exists l, x ∈ l /\ l ∈ ls.
Proof.
  induction ls as [|l ls IH]; cbn [concat].
  - split; [by intros ?%elem_of_nil|]. intros (? & _ & ?%elem_of_nil). done.
  - rewrite elem_of_app, IH. split.
    + intros [H|(l' & ? & ?)]; [exists l|exists l']; split; auto using list_elem_of_here, list_elem_of_further.
    + intros (l' & H & [->|H']%elem_of_cons); eauto.
Qed.

Lemma elem_of_line_arrivals cl s :
  s ∈ line_arrivals cl <-> exists i w, cl_windows cl !! i = Some w /\ s ∈ window_arrivals w.
Proof.
  unfold line_arrivals. rewrite list_elem_of_concat. setoid_rewrite list_elem_of_fmap. split.
  - intros (l & Hs & w & -> & Hw). apply list_elem_of_lookup in Hw as [i Hi]. eauto.
  - intros (i & w & Hi & Hs). apply list_elem_of_lookup_2 in Hi. eauto.
Qed.

Lemma line_arrivals_bounds cl s :
  line_ok cl -> s ∈ line_arrivals cl -> 0 <= s < MaxInt64.
Proof.
  intros Hok (i & w & Hi & Hs)%elem_of_line_arrivals.
  pose proof (line_window_ok _ _ _ Hok Hi) as Hw.
  pose proof (window_arrivals_bounds _ _ Hw Hs). destruct Hw. lia.
Qed.

(** an arrival belongs to the window the search finds *)
Lemma arrival_window cl s i w :
  line_ok cl -> cl_windows cl !! i = Some w -> s ∈ window_arrivals w ->
  search_window (cl_windows cl) s = i.
Proof.
  intros Hok Hi Hs. destruct (search_window_spec cl s Hok) as (Hle & Hlo & Hhi).
  set (k := search_window (cl_windows cl) s) in *.
  pose proof (window_arrivals_bounds _ _ (line_window_ok _ _ _ Hok Hi) Hs) as Hb.
  destruct (lt_eq_lt_dec k i) as [[Hlt| ->]|Hlt]; [|done|].
  - pose proof (lookup_lt_Some _ _ _ Hi).
    destruct (lookup_lt_is_Some_2 (cl_windows cl) k) as [w' Hk]; [lia|].
    specialize (Hhi k w' Hk ltac:(lia)).
    pose proof (lok_ordered _ Hok k i w' w Hlt Hk Hi). lia.
  - specialize (Hlo i w Hi Hlt). lia.
Qed.

(** The step of a window does not overflow 64 bits. *)
Lemma window_step_u64 w : window_ok w -> mul64 (bs_IntervalMs w) msNs = bs_IntervalMs w * msNs.
Proof.
  intros [_ _ _ Hi]. unfold mul64. apply u64_small.
  pose proof (Z.mul_div_le MaxInt64 msNs ltac:(done)). unfold msNs in *. word_lia.
Qed.

(** [validSequence] accepts exactly the arrivals of the committed windows. *)
Lemma validSequence_spec cl s end_ :
  line_ok cl -> 0 <= s <= MaxInt64 ->
  validSequence cl s end_ = true <->
  exists i w, cl_windows cl !! i = Some w /\ s ∈ window_arrivals w /\ bs_EndTime w <= end_.
Proof.
  intros Hok Hs. unfold validSequence.
  pose proof (line_windows_pos cl Hok) as Hne. apply Nat.ltb_lt in Hne.
  rewrite (proj2 (Nat.eqb_neq _ _)) by lia.
  destruct (search_window_spec cl s Hok) as (Hle & Hlo & Hhi).
  split.
  - destruct (cl_windows cl !! _) as [w|] eqn:Ew; [|done].
    pose proof (line_window_ok _ _ _ Hok Ew) as Hw.
    specialize (Hhi _ w Ew ltac:(lia)). rewrite !andb_true_iff, negb_true_iff.
    rewrite Z.eqb_neq, !Z.leb_le, Z.eqb_eq, window_step_u64 by done.
    intros (((Hi & Hf) & He) & Hm). exists (search_window (cl_windows cl) s), w.
    split; [done|]. split; [|done]. apply elem_of_window_arrivals; [done|].
    split; [done|]. split; [done|]. rewrite <- Hm. unfold sub64.
    rewrite u64_small; [done|]. destruct Hw. unfold MaxInt64 in *. word_lia.
  - intros (i & w & Hi & Hsw & He). pose proof (line_window_ok _ _ _ Hok Hi) as Hw.
    rewrite (arrival_window cl s i w), Hi by done.
    apply elem_of_window_arrivals in Hsw as (Hz & Hf & Hm); [|done].
    rewrite !andb_true_iff, negb_true_iff, Z.eqb_neq, !Z.leb_le, Z.eqb_eq.
    rewrite window_step_u64 by done. split_and!; [done|lia|done|].
    rewrite <- Hm. unfold sub64. rewrite u64_small; [done|]. destruct Hw. unfold MaxInt64 in *. word_lia.
Qed.

(** ** The next arrival *)

(** [n] is the least element of [l] that is at least [s] *)
Definition least_from (l : list Z) (s n : Z) : Prop :=
  n ∈ l /\ s <= n /\ forall m, m ∈ l -> s <= m -> n <= m.

Definition next_spec (l : list Z) (s n : Z) : Prop :=
  least_from l s n \/ (n = 0 /\ forall m, m ∈ l -> m < s).

Lemma next_in_window w s :
  window_ok w -> bs_IntervalMs w <> 0 -> bs_FirstMsgNs w < s < bs_EndTime w ->
  let step := bs_IntervalMs w * msNs in
  let n := bs_FirstMsgNs w + ((s - bs_FirstMsgNs w - 1) / step + 1) * step in
  add64 (bs_FirstMsgNs w)
    (mul64 (add64 (sub64 (sub64 s (bs_FirstMsgNs w)) 1 / step) 1) step) = n /\
  (n < bs_EndTime w -> least_from (window_arrivals w) s n) /\
  (bs_EndTime w <= n -> forall m, m ∈ window_arrivals w -> m < s).
Proof.
  intros Hok Hz Hs. cbv zeta. pose proof (window_step w Hok Hz) as Hk.
  set (k := bs_IntervalMs w * msNs) in *. set (b := bs_FirstMsgNs w) in *.
  pose proof (Z.div_mod (s - b - 1) k ltac:(lia)) as Hdm.
  pose proof (Z.mod_pos_bound (s - b - 1) k ltac:(lia)) as Hmb.
  assert (0 <= (s - b - 1) / k) as Hq by (apply Z.div_pos; lia).
  set (q := (s - b - 1) / k) in *.
  assert (0 <= b /\ bs_EndTime w <= MaxInt64) as [Hb He] by (destruct Hok; unfold b; lia).
  assert ((q + 1) * k < 2 ^ 64 - b) as Hbig by (unfold MaxInt64 in *; nia).
  assert (q + 1 <= (q + 1) * k) by nia.
  assert (forall m, m ∈ window_arrivals w -> exists j, 0 <= j /\ m = b + j * k) as Hmem.
  { intros m Hm. rewrite window_arrivals_progression in Hm by done.
    apply elem_of_progression in Hm as (j & Hj & ->). exists j. split; [lia|done]. }
  assert (forall j, b + j * k < s \/ (q + 1) * k <= j * k) as Hcmp.
  { intros j. destruct (decide (j <= q)); [left|right].
    - assert (j * k <= q * k) by (apply Z.mul_le_mono_nonneg_r; lia). lia.
    - apply Z.mul_le_mono_nonneg_r; lia. }
  split; [|split].
  - unfold add64, mul64, sub64.
    rewrite (u64_small (s - b)) by (unfold MaxInt64 in *; word_lia).
    rewrite (u64_small (s - b - 1)) by (unfold MaxInt64 in *; word_lia).
    fold q. rewrite (u64_small (q + 1)) by (unfold is_u64, W64; lia).
    rewrite (u64_small ((q + 1) * k)) by (unfold is_u64, W64; lia).
    apply u64_small. unfold is_u64, W64. lia.
  - intros Hn. split; [|split].
    + apply elem_of_window_arrivals; [done|]. split; [done|]. fold b k. split; [lia|].
      replace (b + (q + 1) * k - b) with ((q + 1) * k) by lia. apply Z.mod_mul. lia.
    + lia.
    + intros m Hm Hsm. apply Hmem in Hm as (j & Hj & ->).
      destruct (Hcmp j) as [Hl|Hl]; lia.
  - intros Hn m Hm. pose proof (window_arrivals_bounds w m Hok Hm).
    apply Hmem in Hm as (j & Hj & ->). destruct (Hcmp j) as [Hl|Hl]; lia.
Qed.

Lemma next_in_spec ws s :
  Forall window_ok ws -> windows_ordered ws -> Forall (fun w => s < bs_EndTime w) ws ->
  0 <= s -> next_spec (concat (window_arrivals <$> ws)) s (next_in ws s).
Proof.
  intros Hok. induction Hok as [|w ws Hw Hws IH]; intros Hord Hend Hs.
  { right. split; [done|]. intros m Hm. by apply elem_of_nil in Hm. }
  inversion_clear Hend as [|? ? Hwe Hrest]. cbn [next_in fmap list_fmap concat].
  assert (windows_ordered ws) as Hord'.
  { intros i j x x' Hij Hi Hj. apply (Hord (S i) (S j)); [lia|done..]. }
  assert (forall m, m ∈ concat (window_arrivals <$> ws) -> bs_EndTime w <= m) as Hlater.
  { intros m Hm. apply list_elem_of_concat in Hm as (l & Hm & Hl).
    apply list_elem_of_fmap in Hl as (w' & -> & Hw').
    apply list_elem_of_lookup in Hw' as [j Hj].
    pose proof (Hord 0%nat (S j) w w' ltac:(lia) eq_refl Hj).
    pose proof (window_arrivals_bounds w' m (Forall_lookup_1 _ _ _ _ Hws Hj) Hm). lia. }
  specialize (IH Hord' Hrest Hs).
  assert ((forall m, m ∈ window_arrivals w -> m < s) ->
    next_spec (window_arrivals w ++ concat (window_arrivals <$> ws)) s (next_in ws s)) as Hskip.
  { intros Hsk. destruct IH as [(H1 & H2 & H3)|[H1 H2]]; [left|right].
    - split; [set_solver|]. split; [done|]. intros m [Hm|Hm]%elem_of_app ?; [|auto].
      specialize (Hsk m Hm). lia.
    - split; [done|]. intros m [Hm|Hm]%elem_of_app; auto. }
  destruct (Z.eqb_spec (bs_IntervalMs w) 0) as [Ez|Ez].
  { apply Hskip. intros m Hm. unfold window_arrivals in Hm. rewrite Ez in Hm.
    cbn in Hm. by apply elem_of_nil in Hm. }
  destruct (Z.leb_spec s (bs_FirstMsgNs w)) as [Hle|Hgt].
  { left. assert (bs_FirstMsgNs w ∈ window_arrivals w) as Hin.
    { apply elem_of_window_arrivals; [done|]. split; [done|]. destruct Hw. split; [lia|].
      by rewrite Z.sub_diag, Zmod_0_l. }
    split; [set_solver|]. split; [done|]. intros m [Hm|Hm]%elem_of_app ?.
    - by apply window_arrivals_bounds in Hm; [lia|].
    - apply Hlater in Hm. destruct Hw. lia. }
  rewrite window_step_u64 by done.
  destruct (next_in_window w s Hw Ez ltac:(lia)) as (-> & Hin & Hout).
  destruct (Z.ltb_spec (bs_FirstMsgNs w + ((s - bs_FirstMsgNs w - 1) /
    (bs_IntervalMs w * msNs) + 1) * (bs_IntervalMs w * msNs)) (bs_EndTime w)) as [Hn|Hn].
  - destruct (Hin Hn) as (H1 & H2 & H3). left. split; [set_solver|]. split; [done|].
    intros m [Hm|Hm]%elem_of_app ?; [auto|]. apply Hlater in Hm. lia.
  - by apply Hskip, Hout.
Qed.

(** [nextSequence] returns the line's first arrival at or after [s], or 0 when
    there is none. *)
Lemma nextSequence_spec cl s :
  line_ok cl -> 0 <= s -> next_spec (line_arrivals cl) s (nextSequence cl s).
Proof.
  intros Hok Hs. unfold nextSequence, line_arrivals.
  destruct (search_window_spec cl s Hok) as (Hle & Hlo & Hhi).
  set (i := search_window (cl_windows cl) s) in *.
  assert (next_spec (concat (window_arrivals <$> drop i (cl_windows cl))) s
            (next_in (drop i (cl_windows cl)) s)) as H.
  { apply next_in_spec; [apply Forall_drop, Hok| | |done].
    - intros a b w w' Hab Ha Hb. rewrite lookup_drop in Ha, Hb.
      apply (lok_ordered _ Hok (i + a)%nat (i + b)%nat); [lia|done..].
    - apply Forall_lookup. intros j w Hj. rewrite lookup_drop in Hj.
      apply (Hhi _ w Hj). lia. }
  fold (line_arrivals cl). rewrite (line_arrivals_split cl i).
  assert (forall m, m ∈ concat (window_arrivals <$> take i (cl_windows cl)) -> m < s) as Hbefore.
  { intros m Hm. apply list_elem_of_concat in Hm as (l & Hm & Hl).
    apply list_elem_of_fmap in Hl as (w & -> & Hw).
    apply list_elem_of_lookup in Hw as [j Hj]. apply lookup_take_Some in Hj as [Hj Hlt].
    specialize (Hlo j w Hj Hlt).
    pose proof (window_arrivals_bounds w m (line_window_ok _ _ _ Hok Hj) Hm). lia. }
  destruct H as [(H1 & H2 & H3)|[H1 H2]]; [left|right].
  - split; [set_solver|]. split; [done|]. intros m [Hm|Hm]%elem_of_app ?; [|auto].
    apply Hbefore in Hm. lia.
  - split; [done|]. intros m [Hm|Hm]%elem_of_app; auto.
Qed.
