(* ===== verification/GlobalOrder.v ===== *)
(** The global order of buses: the lines of a validated schedule
    ([installScheduleLocked], [validateSchedule] of [schedule.go]) and the
    slots [computeGlobalSlot] of [replica.go] gives their buses. *)
From stdpp Require Import sorting.
From S2P Require Import Prelude WireBase Wire Lines.

Lemma Forall_filter {A} (P Q : A -> Prop) `{!forall x, Decision (P x)} l :
  Forall Q l -> Forall Q (filter P l).
Proof. rewrite !Forall_forall. intros HQ x [_ Hx]%list_elem_of_filter. auto. Qed.

(** * Valid schedules *)

Definition same_group (p m : BusSyncMessage) : Prop :=
  bs_FirstMsgNs p = bs_FirstMsgNs m /\ bs_EndTime p = bs_EndTime m /\
  bs_ClientId p < bs_ClientId m.

(** [p] is announced before [m]: in the same window by a smaller client, or
    in a window that ends no later than [m]'s begins *)
Definition announced_before (p m : BusSyncMessage) : Prop :=
  same_group p m \/ bs_EndTime p <= bs_FirstMsgNs m.

Record schedule_valid (s : list BusSyncMessage) : Prop := {
  sv_length : Zlength s <= MaxScheduleHistoryLen;
  sv_windows : Forall window_ok s;
  sv_sorted : StronglySorted announced_before s }.

Definition entry_u64 (m : BusSyncMessage) : Prop :=
  is_u64 (bs_ClientId m) /\ 0 <= bs_FirstMsgNs m /\ 0 <= bs_IntervalMs m.

Lemma bad_timing_spec m : entry_u64 m -> bad_timing m = false <-> window_ok m.
Proof.
  intros (Hc & Hf & Hi). unfold bad_timing. rewrite !orb_false_iff, !Z.ltb_ge, Z.leb_gt. split.
  - intros (((H1 & H2) & H3) & H4). split; [done|lia..].
  - intros [_ H0 He Hw]. lia.
Qed.

Lemma bad_order_spec p m :
  window_ok p -> bad_order p m = false <-> announced_before p m.
Proof.
  intros [_ _ He _]. unfold bad_order, announced_before, same_group.
  destruct (Z.ltb_spec (bs_FirstMsgNs m) (bs_FirstMsgNs p)),
    (Z.eqb_spec (bs_FirstMsgNs m) (bs_FirstMsgNs p)),
    (Z.eqb_spec (bs_EndTime m) (bs_EndTime p)),
    (Z.leb_spec (bs_ClientId m) (bs_ClientId p)),
    (Z.ltb_spec (bs_FirstMsgNs p) (bs_FirstMsgNs m)),
    (Z.ltb_spec (bs_FirstMsgNs m) (bs_EndTime p)); cbn; split; intros; try lia; try done.
Qed.

Lemma announced_before_trans p m q :
  window_ok m -> announced_before p m -> announced_before m q -> announced_before p q.
Proof. intros [_ _ He _]. unfold announced_before, same_group. lia. Qed.

Lemma validate_from_spec prev s :
  Forall entry_u64 s -> (forall p, prev = Some p -> window_ok p) ->
  validate_from prev s = true <->
  Forall window_ok s /\ StronglySorted announced_before s /\ (forall p, prev = Some p -> Forall (announced_before p) s).
Proof.
  intros Hu. revert prev. induction Hu as [|m s Hm _ IH]; intros prev Hp; cbn [validate_from].
  { split; [|done]. intros _. split_and!; [done|constructor|done]. }
  destruct (bad_timing m) eqn:Et.
  { split; [done|]. intros (Hw & _). inversion_clear Hw as [|? ? Hw' _].
    by rewrite (proj2 (bad_timing_spec m Hm) Hw') in Et. }
  apply bad_timing_spec in Et; [|done].
  assert (forall q, Some m = Some q -> window_ok q) as Hm' by (by intros ? [= <-]).
  specialize (IH (Some m) Hm').
  destruct (match prev with Some p => bad_order p m | None => false end) eqn:Eo.
  - split; [done|]. intros (_ & _ & Hall). destruct prev as [p|]; [|done].
    specialize (Hall p eq_refl). inversion_clear Hall as [|? ? Hb _].
    by rewrite (proj2 (bad_order_spec p m (Hp p eq_refl)) Hb) in Eo.
  - rewrite IH. split.
    + intros (Hw & Hs & Hall). specialize (Hall m eq_refl). split; [by constructor|].
      split; [by constructor|]. intros p ->. apply bad_order_spec in Eo; [|auto].
      constructor; [done|]. eapply Forall_impl; [exact Hall|].
      intros q. by apply announced_before_trans.
    + intros (Hw & Hs & _). inversion_clear Hw. inversion_clear Hs.
      split_and!; [done..|]. by intros ? [= <-].
Qed.

(** [validateSchedule] decides validity. *)
Lemma validateSchedule_spec s :
  Forall entry_u64 s -> validateSchedule s = true <-> schedule_valid s.
Proof.
  intros Hu. unfold validateSchedule. destruct (Z.ltb_spec MaxScheduleHistoryLen (Zlength s)).
  { split; [done|]. intros [? _ _]. lia. }
  rewrite validate_from_spec by done. split.
  - intros (Hw & Hs & _). by constructor.
  - intros [_ Hw Hs]. done.
Qed.

Lemma schedule_valid_prefix s1 s2 : schedule_valid (s1 ++ s2) -> schedule_valid s1.
Proof.
  intros [Hl Hw Hs]. apply Forall_app in Hw as [Hw _].
  rewrite length_app in Hl. split; [lia|done|]. clear Hl Hw.
  induction s1 as [|m s1 IH]; [constructor|]. cbn in Hs. inversion_clear Hs as [|? ? Hs' Hf].
  constructor; [by apply IH|]. by apply Forall_app in Hf as [? _].
Qed.

Lemma StronglySorted_lookup {A} (R : A -> A -> Prop) l i j x y :
  StronglySorted R l -> (i < j)%nat -> l !! i = Some x -> l !! j = Some y -> R x y.
Proof.
  intros Hs. revert i j. induction Hs as [|z l Hs IH Hf]; intros [|i] [|j] Hij Hi Hj;
    try done; try lia.
  - injection Hi as <-. by eapply Forall_lookup_1 in Hf.
  - apply (IH i j); [lia|done..].
Qed.

(** the windows of one client in a valid schedule do not overlap *)
Lemma client_windows_ordered s c :
  Forall window_ok s -> StronglySorted announced_before s ->
  windows_ordered (filter (fun m => bs_ClientId m = c) s).
Proof.
  intros Hw Hs i j w w' Hij Hi Hj.
  assert (StronglySorted announced_before (filter (fun m => bs_ClientId m = c) s)) as Hs'.
  { clear -Hs. induction Hs as [|m s Hs IH Hf]; [constructor|].
    rewrite filter_cons. case_decide; [|done]. constructor; [done|].
    by apply Forall_filter. }
  pose proof (StronglySorted_lookup _ _ i j w w' Hs' Hij Hi Hj) as [(_ & _ & Hc)|Hb]; [|done].
  apply list_elem_of_lookup_2, list_elem_of_filter in Hi as [Hi _].
  apply list_elem_of_lookup_2, list_elem_of_filter in Hj as [Hj _]. lia.
Qed.

(** * The lines of a schedule *)

Definition window_total (ws : list BusSyncMessage) : Z :=
  zsum (fun w => Zlength (window_arrivals w)) ws.

Definition counts_of (ws : list BusSyncMessage) : list Z :=
  (fun i => u64 (window_total (take i ws))) <$> seq 0 (S (length ws)).

(** what [installScheduleLocked]'s loop has built after the entries [s] *)
Definition lines_of (lines : gmap Z clientLine) (s : list BusSyncMessage) : Prop :=
  forall c, let ws := filter (fun m => bs_ClientId m = c) s in
    match lines !! c with
    | None => ws = []
    | Some cl => ws <> [] /\ cl_windows cl = ws /\ cl_windowCounts cl = counts_of ws
    end.

Lemma counts_of_snoc ws m :
  counts_of (ws ++ [m]) =
    counts_of ws ++ [u64 (window_total ws + Zlength (window_arrivals m))].
Proof.
  unfold counts_of. rewrite length_app. cbn [length].
  replace (S (length ws + 1)) with (S (S (length ws))) by lia.
  rewrite seq_S, fmap_app. f_equal.
  - apply list_fmap_ext. intros i k Hi. apply lookup_seq in Hi as [-> Hlt].
    f_equal. f_equal. rewrite take_app_le by lia. done.
  - cbn [fmap list_fmap]. f_equal. f_equal. rewrite take_ge by (rewrite length_app; cbn; lia).
    unfold window_total. rewrite zsum_app. cbn [zsum]. lia.
Qed.

Lemma counts_of_last ws :
  default 0 (counts_of ws !! (length (counts_of ws) - 1)%nat) = u64 (window_total ws).
Proof.
  unfold counts_of. rewrite length_fmap, length_seq.
  replace (S (length ws) - 1)%nat with (length ws) by lia.
  rewrite list_lookup_fmap, lookup_seq_lt by lia. cbn.
  by rewrite take_ge.
Qed.

Lemma filter_snoc {A} (P : A -> Prop) `{!forall x, Decision (P x)} l x :
  filter P (l ++ [x]) = filter P l ++ (if decide (P x) then [x] else []).
Proof. rewrite filter_app, filter_cons, filter_nil. by case_decide. Qed.

Lemma add_window_lines old lines s m :
  lines_of lines s -> window_ok m -> lines_of (add_window old lines m) (s ++ [m]).
Proof.
  intros Hl Hm c. cbv zeta. rewrite filter_snoc. unfold add_window. cbv zeta.
  rewrite countBefore_window_full by done.
  destruct (decide (bs_ClientId m = c)) as [<-|Hc].
  2:{ rewrite lookup_insert_ne by done. rewrite app_nil_r. apply Hl. }
  rewrite lookup_insert_eq. specialize (Hl (bs_ClientId m)). cbv zeta in Hl.
  destruct (lines !! bs_ClientId m) as [cl|].
  - destruct Hl as (Hne & Hw & Hcs). rsimpl. rewrite Hw, Hcs.
    split; [by destruct (filter _ s)|]. split; [done|].
    rewrite counts_of_last, counts_of_snoc. unfold add64. by rewrite u64_add_l.
  - rewrite Hl. rsimpl. split; [done|]. split; [done|].
    cbn [app]. unfold counts_of. cbn. unfold window_total. cbn. unfold add64. by rewrite Z.add_0_r.
Qed.

Lemma schedule_lines_of old s : Forall window_ok s -> lines_of (schedule_lines old s) s.
Proof.
  unfold schedule_lines. induction s as [|m s IH] using rev_ind; intros Hw.
  { intros c. cbn. by rewrite lookup_empty. }
  apply Forall_app in Hw as [Hs Hm]. rewrite foldl_app. cbn [foldl].
  apply add_window_lines; [by apply IH|]. by inversion_clear Hm.
Qed.

Definition lines_ok (lines : gmap Z clientLine) : Prop :=
  forall c cl, lines !! c = Some cl -> line_ok cl.

Lemma lines_of_ok lines s : lines_of lines s -> schedule_valid s -> lines_ok lines.
Proof.
  intros Hl [_ Hw Hs] c cl Hc. specialize (Hl c). cbv zeta in Hl. rewrite Hc in Hl.
  destruct Hl as (Hne & Hws & Hcs). split.
  - by rewrite Hws.
  - rewrite Hws. by apply Forall_filter.
  - rewrite Hws. by apply client_windows_ordered.
  - intros i Hi. rewrite Hcs, Hws. rewrite Hws in Hi. unfold counts_of.
    rewrite list_lookup_fmap, lookup_seq_lt by lia. done.
Qed.

(** The lines of a valid schedule are well formed. *)
Lemma schedule_lines_ok old s : schedule_valid s -> lines_ok (schedule_lines old s).
Proof. intros Hv. eapply lines_of_ok, Hv. apply schedule_lines_of, Hv. Qed.

(** * Slots *)

(** A bus is its arrival time and its client; buses are ordered by time, ties
    by client. *)
Definition bus_lt (b b' : Z * Z) : Prop := b.1 < b'.1 \/ (b.1 = b'.1 /\ b.2 < b'.2).

#[export] Instance bus_lt_dec b b' : Decision (bus_lt b b').
Proof. unfold bus_lt. apply _. Defined.

(** the buses the lines schedule *)
Definition scheduled (lines : gmap Z clientLine) (b : Z * Z) : Prop :=
  exists cl, lines !! b.2 = Some cl /\ b.1 ∈ line_arrivals cl.

Definition all_buses (lines : gmap Z clientLine) : list (Z * Z) :=
  concat ((fun p => (fun s => (s, p.1)) <$> line_arrivals p.2) <$> map_to_list lines).

(** the number of buses scheduled before [b] *)
Definition rank (lines : gmap Z clientLine) (b : Z * Z) : Z :=
  Zlength (filter (fun b' => bus_lt b' b) (all_buses lines)).

Definition count_term (s c : Z) (p : Z * clientLine) : Z :=
  nb (line_arrivals p.2) (upto s (p.1 <? c)).

Lemma filter_bus_lt s c c' l :
  Zlength (filter (fun b' => bus_lt b' (s, c)) ((fun s' => (s', c')) <$> l)) =
    nb l (upto s (c' <? c)).
Proof.
  induction l as [|s' l IH]; [done|]. rewrite nb_cons, fmap_cons, filter_cons.
  unfold upto, bus_lt in *. cbn [fst snd] in *.
  destruct (Z.ltb_spec c' c); repeat case_decide; cbn [length]; lia.
Qed.

Lemma rank_sum lines s c : rank lines (s, c) = zsum (count_term s c) (map_to_list lines).
Proof.
  unfold rank, all_buses. induction (map_to_list lines) as [|p l IH]; [done|].
  cbn [fmap list_fmap concat zsum]. rewrite filter_app, length_app.
  pose proof (filter_bus_lt s c p.1 (line_arrivals p.2)). unfold count_term at 1. lia.
Qed.

(** [computeGlobalSlot]'s fold over the other clients, in any order *)
Lemma slot_fold s c lines start :
  (forall p, p ∈ lines -> line_ok p.2) -> 0 <= s <= MaxInt64 ->
  foldr (fun p slot => if p.1 =? c then slot
                       else add64 slot (countBefore p.2 s (p.1 <? c))) (u64 start) lines =
  u64 (start + zsum (fun p => if p.1 =? c then 0 else count_term s c p) lines).
Proof.
  intros Hok Hs. induction lines as [|p lines IH]; cbn [foldr zsum].
  { by rewrite Z.add_0_r. }
  rewrite IH by (intros q Hq; apply Hok; set_solver).
  destruct (p.1 =? c); [f_equal; lia|].
  rewrite countBefore_spec by (try done; apply Hok; set_solver).
  unfold add64. rewrite u64_add_l, u64_add_r. f_equal. unfold count_term. lia.
Qed.

Lemma line_entry_ok lines p : lines_ok lines -> p ∈ map_to_list lines -> line_ok p.2.
Proof. intros Hok Hp. destruct p. apply elem_of_map_to_list in Hp. by eapply Hok. Qed.

(** The slot [computeGlobalSlot] gives a client's bus at time [s] is the number
    of buses scheduled before it, modulo 2^64. *)
Lemma computeGlobalSlot_rank lines c cl s :
  lines_ok lines -> lines !! c = Some cl -> 0 <= s <= MaxInt64 ->
  computeGlobalSlot lines c s = u64 (rank lines (s, c)).
Proof.
  intros Hok Hc Hs. unfold computeGlobalSlot. rewrite Hc.
  unfold expectedNs. rewrite line_windows_pos by (by eapply Hok).
  rewrite (i64_small s) by done.
  rewrite countBefore_spec by (try done; by eapply Hok).
  rewrite map_fold_foldr, rank_sum. change (upto s false) with s.
  transitivity (foldr (fun p slot => if p.1 =? c then slot
                       else add64 slot (countBefore p.2 s (p.1 <? c)))
                  (u64 (nb (line_arrivals cl) s)) (map_to_list lines)).
  { induction (map_to_list lines) as [|[k x] l IH]; [done|]. cbn. by rewrite IH. }
  rewrite slot_fold; [|by intros; eapply line_entry_ok|done]. f_equal.
  assert (Permutation ((c, cl) :: map_to_list (delete c lines)) (map_to_list lines)) as Hp.
  { by apply map_to_list_delete. }
  rewrite <- (zsum_perm _ _ _ Hp), <- (zsum_perm (count_term s c) _ _ Hp).
  cbn [zsum fst]. rewrite Z.eqb_refl. unfold count_term at 2. cbn [fst snd].
  rewrite Z.ltb_irrefl. change (upto s false) with s.
  enough (zsum (fun p => if p.1 =? c then 0 else count_term s c p) (map_to_list (delete c lines))
          = zsum (count_term s c) (map_to_list (delete c lines))) by lia.
  apply zsum_ext. intros [k x] Hk. apply elem_of_map_to_list, lookup_delete_Some in Hk as [Hk _].
  cbn [fst]. by rewrite (proj2 (Z.eqb_neq _ _)) by congruence.
Qed.

Lemma elem_of_all_buses lines b : b ∈ all_buses lines <-> scheduled lines b.
Proof.
  unfold all_buses, scheduled. rewrite list_elem_of_concat. setoid_rewrite list_elem_of_fmap. split.
  - intros (l & Hb & [c cl] & -> & Hp). apply elem_of_map_to_list in Hp.
    apply list_elem_of_fmap in Hb as (s & -> & Hs). cbn in *. eauto.
  - intros (cl & Hc & Hs). exists ((fun s => (s, b.2)) <$> line_arrivals cl). split.
    + apply list_elem_of_fmap. exists b.1. by destruct b.
    + exists (b.2, cl). split; [done|]. by apply elem_of_map_to_list.
Qed.

(** ** The order is total and the slots are dense *)

Lemma bus_lt_irrefl b : ~ bus_lt b b.
Proof. unfold bus_lt. lia. Qed.
Lemma bus_lt_trans b1 b2 b3 : bus_lt b1 b2 -> bus_lt b2 b3 -> bus_lt b1 b3.
Proof. unfold bus_lt. lia. Qed.
Lemma bus_lt_total b1 b2 : bus_lt b1 b2 \/ b1 = b2 \/ bus_lt b2 b1.
Proof.
  destruct b1 as [s c], b2 as [s' c']. unfold bus_lt. cbn.
  destruct (decide (s = s')) as [->|]; [|lia]. destruct (decide (c = c')) as [->|]; [|lia]. auto.
Qed.

(** the count of smaller elements of a duplicate-free list is a strictly
    monotone bijection with the positions of the list *)
Section ranks.
Context {A : Type} `{!EqDecision A} (lt : A -> A -> Prop) `{!forall x y, Decision (lt x y)}.
Context (lt_irrefl : forall x, ~ lt x x).
Context (lt_trans : forall x y z, lt x y -> lt y z -> lt x z).
Context (lt_total : forall x y, lt x y \/ x = y \/ lt y x).

Definition below (l : list A) (x : A) : Z := Zlength (filter (fun y => lt y x) l).

Lemma below_cons l x y : below (y :: l) x = (if decide (lt y x) then 1 else 0) + below l x.
Proof. unfold below. rewrite filter_cons. case_decide; cbn [length]; lia. Qed.

Lemma below_app l1 l2 x : below (l1 ++ l2) x = below l1 x + below l2 x.
Proof. unfold below. rewrite filter_app, length_app. lia. Qed.

Lemma below_le l x y : lt x y -> below l x <= below l y.
Proof.
  intros Hxy. induction l as [|z l IH]; [done|]. rewrite !below_cons.
  repeat case_decide; try lia. exfalso. eauto.
Qed.

Lemma below_lt l x y : x ∈ l -> lt x y -> below l x < below l y.
Proof.
  intros (l1 & l2 & ->)%list_elem_of_split Hxy. rewrite !below_app, !below_cons.
  rewrite decide_False by apply lt_irrefl. rewrite decide_True by done.
  pose proof (below_le l1 x y Hxy). pose proof (below_le l2 x y Hxy). lia.
Qed.

Lemma below_inj l x y : x ∈ l -> y ∈ l -> below l x = below l y -> x = y.
Proof.
  intros Hx Hy E. destruct (lt_total x y) as [Hl|[Hl|Hl]]; [|done|].
  - pose proof (below_lt l x y Hx Hl). lia.
  - pose proof (below_lt l y x Hy Hl). lia.
Qed.

Lemma below_bound l x : x ∈ l -> 0 <= below l x < Zlength l.
Proof.
  intros (l1 & l2 & ->)%list_elem_of_split. rewrite below_app, below_cons.
  rewrite decide_False by apply lt_irrefl. unfold below.
  pose proof (length_filter (fun y => lt y x) l1).
  pose proof (length_filter (fun y => lt y x) l2).
  rewrite length_app. cbn [length]. lia.
Qed.

Lemma below_dense l k :
  NoDup l -> 0 <= k < Zlength l -> exists x, x ∈ l /\ below l x = k.
Proof.
  intros Hnd Hk. set (ks := below l <$> l).
  assert (NoDup ks) as Hks.
  { unfold ks. apply NoDup_fmap_2_strong; [|done]. intros x y Hx Hy. by apply below_inj. }
  assert (ks ⊆+ seqZ 0 (Zlength l)) as Hsub.
  { apply NoDup_submseteq; [done|]. intros z (x & -> & Hx)%list_elem_of_fmap.
    apply elem_of_seqZ. pose proof (below_bound l x Hx). lia. }
  assert (Permutation ks (seqZ 0 (Zlength l))) as Hperm.
  { apply submseteq_length_Permutation; [done|]. unfold ks.
    rewrite length_fmap, length_seqZ. lia. }
  assert (k ∈ ks) as Hin by (rewrite Hperm; apply elem_of_seqZ; lia).
  apply list_elem_of_fmap in Hin as (x & -> & Hx). eauto.
Qed.
End ranks.

Lemma rank_below lines b : rank lines b = below bus_lt (all_buses lines) b.
Proof. done. Qed.

Lemma NoDup_concat {A} (ls : list (list A)) :
  Forall NoDup ls ->
  (forall i j l l', (i < j)%nat -> ls !! i = Some l -> ls !! j = Some l' -> l ## l') ->
  NoDup (concat ls).
Proof.
  induction 1 as [|l ls Hl _ IH]; intros Hd; cbn [concat]; [constructor|].
  apply NoDup_app. split; [done|]. split.
  - intros x Hx Hc. apply list_elem_of_concat in Hc as (l' & Hx' & Hl').
    apply list_elem_of_lookup in Hl' as [j Hj].
    exact (Hd 0%nat (S j) l l' ltac:(lia) eq_refl Hj x Hx Hx').
  - apply IH. intros i j x y Hij Hi Hj. exact (Hd (S i) (S j) x y ltac:(lia) Hi Hj).
Qed.

Lemma NoDup_window w : window_ok w -> NoDup (window_arrivals w).
Proof.
  intros Hw. destruct (decide (bs_IntervalMs w = 0)) as [E|E].
  { unfold window_arrivals. rewrite E. constructor. }
  rewrite window_arrivals_progression by done. unfold progression.
  pose proof (window_step w Hw E). apply NoDup_fmap_2_strong; [|apply NoDup_seq].
  intros x y _ _. nia.
Qed.

Lemma NoDup_line cl : line_ok cl -> NoDup (line_arrivals cl).
Proof.
  intros Hok. apply NoDup_concat.
  - apply Forall_fmap, Forall_forall. intros w Hw. apply NoDup_window.
    pose proof (lok_windows _ Hok) as HF. rewrite Forall_forall in HF. auto.
  - intros i j l l' Hij Hi Hj s Hs Hs'.
    rewrite list_lookup_fmap in Hi, Hj.
    destruct (cl_windows cl !! i) as [w|] eqn:Ei; [|done].
    destruct (cl_windows cl !! j) as [w'|] eqn:Ej; [|done].
    injection Hi as <-. injection Hj as <-.
    pose proof (window_arrivals_bounds w s (line_window_ok _ _ _ Hok Ei) Hs).
    pose proof (window_arrivals_bounds w' s (line_window_ok _ _ _ Hok Ej) Hs').
    pose proof (lok_ordered _ Hok i j w w' Hij Ei Ej). lia.
Qed.

Lemma NoDup_all_buses lines : lines_ok lines -> NoDup (all_buses lines).
Proof.
  intros Hok. apply NoDup_concat.
  - apply Forall_fmap, Forall_forall. intros p Hp. cbn.
    apply NoDup_fmap_2_strong; [by intros ? ? _ _ [=]|].
    apply NoDup_line. by eapply line_entry_ok.
  - intros i j l l' Hij Hi Hj b Hb Hb'. rewrite list_lookup_fmap in Hi, Hj.
    destruct (map_to_list lines !! i) as [[c cl]|] eqn:Ei; [|done].
    destruct (map_to_list lines !! j) as [[c' cl']|] eqn:Ej; [|done].
    injection Hi as <-. injection Hj as <-. cbn in *.
    apply list_elem_of_fmap in Hb as (s & -> & _).
    apply list_elem_of_fmap in Hb' as (s' & [= <- <-] & _).
    pose proof (NoDup_fst_map_to_list lines) as Hnd.
    assert ((map_to_list lines).*1 !! i = Some c) as H1 by (rewrite list_lookup_fmap, Ei; done).
    assert ((map_to_list lines).*1 !! j = Some c) as H2 by (rewrite list_lookup_fmap, Ej; done).
    pose proof (NoDup_lookup _ _ _ _ Hnd H1 H2). lia.
Qed.

(** An earlier bus has a smaller slot. *)
Lemma rank_lt lines b b' : scheduled lines b -> bus_lt b b' -> rank lines b < rank lines b'.
Proof.
  intros Hb Hlt. rewrite !rank_below. apply below_lt; [apply bus_lt_irrefl|..|done].
  - apply bus_lt_trans.
  - by apply elem_of_all_buses.
Qed.

Lemma rank_inj lines b b' :
  scheduled lines b -> scheduled lines b' -> rank lines b = rank lines b' -> b = b'.
Proof.
  intros Hb Hb'. rewrite !rank_below. apply below_inj.
  - apply bus_lt_irrefl.
  - apply bus_lt_trans.
  - apply bus_lt_total.
  - by apply elem_of_all_buses.
  - by apply elem_of_all_buses.
Qed.

Lemma rank_bound lines b : scheduled lines b -> 0 <= rank lines b < Zlength (all_buses lines).
Proof.
  intros Hb. rewrite rank_below. apply below_bound; [apply bus_lt_irrefl|].
  by apply elem_of_all_buses.
Qed.

(** Every position below the number of scheduled buses is some bus's slot. *)
Lemma rank_dense lines k :
  lines_ok lines -> 0 <= k < Zlength (all_buses lines) ->
  exists b, scheduled lines b /\ rank lines b = k.
Proof.
  intros Hok Hk. destruct (below_dense bus_lt bus_lt_irrefl bus_lt_trans bus_lt_total
    (all_buses lines) k (NoDup_all_buses _ Hok) Hk) as (b & Hb & <-).
  exists b. split; [by apply elem_of_all_buses|done].
Qed.

(** ** Extending a schedule *)

(** the arrivals the lines schedule are those of the schedule's entries *)
Lemma scheduled_entry lines s b :
  lines_of lines s ->
  scheduled lines b <-> exists m, m ∈ s /\ bs_ClientId m = b.2 /\ b.1 ∈ window_arrivals m.
Proof.
  intros Hl. specialize (Hl b.2). cbv zeta in Hl. unfold scheduled. split.
  - intros (cl & Hc & Hin). rewrite Hc in Hl. destruct Hl as (_ & Hw & _).
    apply elem_of_line_arrivals in Hin as (i & w & Hi & Ha). exists w. rewrite Hw in Hi.
    apply list_elem_of_lookup_2, list_elem_of_filter in Hi as [? ?]. done.
  - intros (m & Hm & Hc & Ha). destruct (lines !! b.2) as [cl|].
    + destruct Hl as (_ & Hw & _). exists cl. split; [done|].
      assert (m ∈ cl_windows cl) as Hin by (rewrite Hw; by apply list_elem_of_filter).
      apply list_elem_of_lookup_1 in Hin as [i Hi]. apply elem_of_line_arrivals. eauto.
    + exfalso. assert (m ∈ filter (fun m => bs_ClientId m = b.2) s) as Hin
        by (by apply list_elem_of_filter).
      rewrite Hl in Hin. by apply elem_of_nil in Hin.
Qed.

(** the windows of [s2] begin when those of [s1] have ended *)
Definition later_windows (s1 s2 : list BusSyncMessage) : Prop :=
  forall m m', m ∈ s1 -> m' ∈ s2 -> bs_EndTime m <= bs_FirstMsgNs m'.

(** Later windows do not move the buses scheduled before them. *)
Lemma rank_extend l1 l2 s1 s2 b :
  lines_of l1 s1 -> lines_of l2 (s1 ++ s2) -> schedule_valid (s1 ++ s2) ->
  later_windows s1 s2 -> scheduled l1 b -> rank l2 b = rank l1 b.
Proof.
  intros H1 H2 Hv Hlater Hb. unfold rank. f_equal. apply Permutation_length.
  pose proof (lines_of_ok l1 s1 H1 (schedule_valid_prefix s1 s2 Hv)) as Hok1.
  pose proof (lines_of_ok l2 _ H2 Hv) as Hok2.
  apply NoDup_Permutation; [by apply NoDup_filter, NoDup_all_buses..|].
  intros b'. rewrite !list_elem_of_filter, !elem_of_all_buses.
  rewrite (scheduled_entry l2 (s1 ++ s2) b' H2), (scheduled_entry l1 s1 b' H1).
  split; intros [Hlt (m & Hm & Hc & Ha)]; (split; [done|]); exists m; (split; [|done]).
  2:{ apply elem_of_app. by left. }
  apply elem_of_app in Hm as [Hm|Hm]; [done|]. exfalso.
  apply (scheduled_entry l1 s1 b H1) in Hb as (m0 & Hm0 & _ & Ha0).
  pose proof (sv_windows _ Hv) as Hw. rewrite Forall_forall in Hw.
  pose proof (window_arrivals_bounds m b'.1 (Hw m ltac:(apply elem_of_app; by right)) Ha).
  pose proof (window_arrivals_bounds m0 b.1 (Hw m0 ltac:(apply elem_of_app; by left)) Ha0).
  pose proof (Hlater m0 m Hm0 Hm). destruct Hlt as [|[? _]]; lia.
Qed.

Lemma scheduled_extend l1 l2 s1 s2 b :
  lines_of l1 s1 -> lines_of l2 (s1 ++ s2) -> scheduled l1 b -> scheduled l2 b.
Proof.
  intros H1 H2. rewrite (scheduled_entry l2 (s1 ++ s2) b H2), (scheduled_entry l1 s1 b H1).
  intros (m & Hm & ?). exists m. split; [apply elem_of_app; by left|done].
Qed.

Lemma scheduled_time lines b : lines_ok lines -> scheduled lines b -> 0 <= b.1 < MaxInt64.
Proof. intros Hok (cl & Hc & Hin). by apply (line_arrivals_bounds cl), Hin; eapply Hok. Qed.
