(* ===== verification/State.v ===== *)
(** The replicated state machine: [src/state/state.go].

    The store is a [treemap.Map] of [gods], which is not part of the
    repository: it is a parameter, with the documented behaviour of an ordered
    map as the laws [TreemapLaws]. *)
From stdpp Require Import sorting.
From S2P Require Import Prelude WireBase Wire.

(** * The ordered map *)

Class Treemap (V : Type) := {
  tm_carrier : Type;
  tm_New : tm_carrier;
  tm_Get : tm_carrier -> Z -> option V;
  tm_Put : tm_carrier -> Z -> V -> tm_carrier;
  tm_Remove : tm_carrier -> Z -> tm_carrier;
  (** [Select(p).Iterator()]: the values of the keys [p] holds of, in key order *)
  tm_Select : (Z -> V -> bool) -> tm_carrier -> list V }.
Arguments tm_carrier {V} _.

Class TreemapLaws {V} (TM : Treemap V) : Prop := {
  tm_Get_New k : tm_Get tm_New k = None;
  tm_Get_Put m k v k' : tm_Get (tm_Put m k v) k' = if decide (k = k') then Some v else tm_Get m k';
  tm_Get_Remove m k k' : tm_Get (tm_Remove m k) k' = if decide (k = k') then None else tm_Get m k' }.

(** an instance: finite maps *)
Definition key_le {V} (a b : Z * V) : Prop := a.1 <= b.1.
#[export] Instance key_le_dec {V} (a b : Z * V) : Decision (key_le a b).
Proof. unfold key_le. apply _. Defined.

Definition gmap_Select {V} (p : Z -> V -> bool) (m : gmap Z V) : list V :=
  (merge_sort key_le (map_to_list (filter (fun kv => p kv.1 kv.2 = true) m))).*2.

Definition gmap_Treemap V : Treemap V := {|
  tm_carrier := gmap Z V; tm_New := ∅;
  tm_Get := fun m k => m !! k;
  tm_Put := fun m k v => <[k := v]> m;
  tm_Remove := fun m k => delete k m;
  tm_Select := gmap_Select |}.

Lemma gmap_TreemapLaws V : TreemapLaws (gmap_Treemap V).
Proof.
  split; intros; cbn.
  - apply lookup_empty.
  - case_decide; [by subst; rewrite lookup_insert_eq|by rewrite lookup_insert_ne].
  - case_decide; [by subst; rewrite lookup_delete_eq|by rewrite lookup_delete_ne].
Qed.

(** * Commands *)

Inductive Operation := NONE | PUT | GET | SCAN.
(** a decoded [Operation] outside the named ones does nothing *)
Definition op_of (z : Z) : option Operation :=
  if z =? 0 then Some NONE else if z =? 1 then Some PUT
  else if z =? 2 then Some GET else if z =? 3 then Some SCAN else None.

Definition Value : Type := list byte.
Definition Key : Type := Z.
Definition NIL : Value := [].

Record Command := mkCommand { cmd_Op : Z; cmd_K : Key; cmd_V : Value }.

#[export] Instance Command_eq_dec : EqDecision Command.
Proof. solve_decision. Defined.

Definition NOOP : list Command := [mkCommand 0 0 NIL].

(** [KeyComparator] *)
Definition KeyComparator (a b : Key) : Z :=
  if b <? a then 1 else if a <? b then -1 else 0.

(** [binary.LittleEndian.Uint64(v)]: panics on fewer than 8 bytes *)
Definition value_u64 (v : Value) : option Z :=
  if Nat.ltb (length v) 8 then None else Some (Uint64 v 0).

Definition is_op (c : Command) (o : Operation) : bool :=
  match op_of (cmd_Op c), o with
  | Some PUT, PUT | Some GET, GET | Some SCAN, SCAN | Some NONE, NONE => true
  | _, _ => false
  end.

Definition put_between (gamma delta : Command) (key lb ub : Key) : bool :=
  if (lb <=? key) && (key <=? ub) then is_op gamma PUT || is_op delta PUT else false.

(** [None]: the call panics. *)
Definition Conflict (gamma delta : Command) : option bool :=
  if is_op gamma SCAN && is_op delta SCAN then Some false
  else if is_op gamma SCAN then
    match value_u64 (cmd_V gamma) with
    | None => None
    | Some n => Some (put_between gamma delta (cmd_K delta) (cmd_K gamma)
                        (i64 (cmd_K gamma + i64 n)))
    end
  else if is_op delta SCAN then
    match value_u64 (cmd_V delta) with
    | None => None
    | Some n => Some (put_between gamma delta (cmd_K gamma) (cmd_K delta)
                        (i64 (cmd_K delta + i64 n)))
    end
  else Some (put_between gamma delta (cmd_K gamma) (cmd_K delta) (cmd_K delta)).

Fixpoint conflict_any (c : Command) (batch : list Command) : option bool :=
  match batch with
  | [] => Some false
  | d :: batch =>
      match Conflict c d with
      | None => None
      | Some true => Some true
      | Some false => conflict_any c batch
      end
  end.
Fixpoint ConflictBatch (batch1 batch2 : list Command) : option bool :=
  match batch1 with
  | [] => Some false
  | c :: batch1 =>
      match conflict_any c batch2 with
      | None => None
      | Some true => Some true
      | Some false => ConflictBatch batch1 batch2
      end
  end.

Definition IsRead (c : Command) : bool := is_op c GET.

(** [concat(slices)] *)
Definition concat_values (slices : list Value) : Value := concat slices.

Section execute.
Context {TM : Treemap Value}.

Definition InitState : tm_carrier TM := tm_New.

(** [Command.Execute]: the result and the new store; [None]: it panics. *)
Definition Execute (c : Command) (st : tm_carrier TM) : option (Value * tm_carrier TM) :=
  match op_of (cmd_Op c) with
  | Some PUT => Some (NIL, tm_Put st (cmd_K c) (cmd_V c))
  | Some GET =>
      match tm_Get st (cmd_K c) with
      | Some v => Some (v, st)
      | None => Some (NIL, st)
      end
  | Some SCAN =>
      match value_u64 (cmd_V c) with
      | None => None
      | Some count =>
          let found := tm_Select (fun k _ =>
                         (cmd_K c <=? k) && (k <=? i64 (cmd_K c + i64 count))) st in
          Some (concat_values found, st)
      end
  | _ => Some (NIL, st)
  end.
End execute.

(** * Encoding *)

Definition Operation_Marshal (o : Z) : list byte := [byte_of o].
Definition Operation_Unmarshal : reader Z :=
  b <- ReadFull 1 ;; rd_ret (byte_val (ByteAt b 0)).

Definition Key_Marshal (k : Key) : list byte := PutUint64 (zeros 8) 0 (u64 k).
Definition Key_Unmarshal : reader Key := b <- ReadFull 8 ;; rd_ret (i64 (Uint64 b 0)).

(** The length is written as 16 bits in a four-byte field. *)
Definition PutUint16 (b : list byte) (off : nat) (v : Z) := put b off (le_bytes 2 v).
Definition Uint16 (b : list byte) (off : nat) : Z := le_val (sub b off 2).

Definition Value_Marshal (v : Value) : list byte :=
  PutUint16 (zeros 4) 0 (Zlength v) ++ v.
Definition Value_Unmarshal : reader Value :=
  b <- ReadFull 4 ;; ReadFull (Z.to_nat (Uint16 b 0)).

Definition Command_Marshal (c : Command) : list byte :=
  Operation_Marshal (cmd_Op c) ++ Key_Marshal (cmd_K c) ++ Value_Marshal (cmd_V c).
Definition Command_Unmarshal : reader Command :=
  op <- Operation_Unmarshal ;; k <- Key_Unmarshal ;; v <- Value_Unmarshal ;;
  rd_ret (mkCommand op k v).

Definition Command_wf (c : Command) : Prop :=
  0 <= cmd_Op c < 256 /\ is_i64 (cmd_K c) /\ Zlength (cmd_V c) < 2 ^ 16.

Lemma le_val_bytes16 v : 0 <= v < 2 ^ 16 -> le_val (le_bytes 2 v) = v.
Proof. intros H. rewrite le_val_bytes. change (256 ^ Z.of_nat 2) with (2 ^ 16). by apply Z.mod_small. Qed.

Lemma i64_u64 k : is_i64 k -> i64 (u64 k) = k.
Proof.
  unfold is_i64, i64, u64, W64. intros H. rewrite Z.mod_mod by lia.
  destruct (decide (0 <= k)).
  - rewrite Z.mod_small by lia. destruct (Z.ltb_spec k (2 ^ 63)); lia.
  - replace (k mod 2 ^ 64) with (k + 2 ^ 64) by (apply (Z.mod_unique _ _ (-1)); lia).
    destruct (Z.ltb_spec (k + 2 ^ 64) (2 ^ 63)); lia.
Qed.

Lemma Key_reads k : is_i64 k -> Reads Key_Unmarshal (Key_Marshal k) k.
Proof.
  intros H. unfold Key_Unmarshal, Key_Marshal. apply Reads_header_last; [by unfold PutUint64; rewrite length_put|].
  apply Reads_ret_eq. unfold Uint64, PutUint64. rewrite sub_put_eq by (rewrite ?length_zeros, ?length_le_bytes; lia).
  rewrite le_val_bytes64 by apply u64_range. by apply i64_u64.
Qed.

Lemma Value_reads v : Zlength v < 2 ^ 16 -> Reads Value_Unmarshal (Value_Marshal v) v.
Proof.
  intros H. unfold Value_Unmarshal, Value_Marshal, PutUint16. apply Reads_header; [by rewrite length_put|].
  unfold Uint16. rewrite sub_put_eq by (rewrite ?length_zeros, ?length_le_bytes; lia).
  rewrite le_val_bytes16 by lia. rewrite Nat2Z.id. by apply Reads_ReadFull.
Qed.

Lemma Operation_reads o : 0 <= o < 256 -> Reads Operation_Unmarshal (Operation_Marshal o) o.
Proof.
  intros H. unfold Operation_Unmarshal, Operation_Marshal. apply Reads_header_last; [done|].
  apply Reads_ret_eq. unfold ByteAt. cbn [lookup list_lookup default].
  cbn. by rewrite byte_val_of, Z.mod_small.
Qed.

Lemma Command_reads c : Command_wf c -> Reads Command_Unmarshal (Command_Marshal c) c.
Proof.
  intros (Ho & Hk & Hv). unfold Command_Unmarshal, Command_Marshal.
  eapply Reads_bind; [by apply Operation_reads|].
  eapply Reads_bind; [by apply Key_reads|].
  eapply Reads_bind_last; [by apply Value_reads|]. by destruct c; apply Reads_ret_eq.
Qed.

(** A value of 64 KiB or more is not read back: its length is truncated. *)
Lemma Value_truncated v rest v' rest' :
  2 ^ 16 <= Zlength v -> Value_Unmarshal (Value_Marshal v ++ rest) = Ok v' rest' -> v' <> v.
Proof.
  intros H. unfold Value_Unmarshal, Value_Marshal, PutUint16. rewrite <- app_assoc.
  unfold rd_bind. rewrite (Reads_ReadFull 4 (put (zeros 4) _ _) (length_put (zeros 4) _ _)).
  unfold ReadFull. case_decide; [|done]. intros [= <- <-] E.
  apply (f_equal length) in E. rewrite length_take in E. unfold Uint16, PutUint16 in E.
  rewrite sub_put_eq in E by (rewrite ?length_zeros, ?length_le_bytes; lia). rewrite le_val_bytes in E.
  change (256 ^ Z.of_nat 2) with (2 ^ 16) in E.
  pose proof (Z.mod_pos_bound (Zlength v) (2 ^ 16) ltac:(lia)). lia.
Qed.

(** * Laws of the state machine *)

Section laws.
Context {TM : Treemap Value} {TL : TreemapLaws TM}.

(** stores that answer alike *)
Definition store_equiv (s1 s2 : tm_carrier TM) : Prop := forall k, tm_Get s1 k = tm_Get s2 k.

#[export] Instance store_equiv_equivalence : Equivalence store_equiv.
Proof.
  split; [done| |].
  - intros s1 s2 H k. by rewrite H.
  - intros s1 s2 s3 H1 H2 k. by rewrite H1, H2.
Qed.

#[export] Instance tm_Put_proper :
  Proper (store_equiv ==> eq ==> eq ==> store_equiv) (@tm_Put _ TM).
Proof. intros s1 s2 H k ? <- v ? <- k'. rewrite !tm_Get_Put. by case_decide. Qed.

#[export] Instance tm_Remove_proper :
  Proper (store_equiv ==> eq ==> store_equiv) (@tm_Remove _ TM).
Proof. intros s1 s2 H k ? <- k'. rewrite !tm_Get_Remove. by case_decide. Qed.

#[export] Instance tm_Get_proper :
  Proper (store_equiv ==> eq ==> eq) (@tm_Get _ TM).
Proof. intros s1 s2 H k ? <-. apply H. Qed.

(** commands on single keys: what [Conflict] decides *)
Definition single (c : Command) : Prop := is_op c SCAN = false.

(** Two commands on single keys that do not conflict commute: the same
    results and, up to answers, the same store. *)
Lemma Execute_commute c d st vc vd s1 s2 vc' vd' s1' s2' :
  single c -> single d -> Conflict c d = Some false ->
  Execute c st = Some (vc, s1) -> Execute d s1 = Some (vd, s2) ->
  Execute d st = Some (vd', s1') -> Execute c s1' = Some (vc', s2') ->
  vc = vc' /\ vd = vd' /\ store_equiv s2 s2'.
Proof.
  unfold single, Conflict, put_between, is_op, Execute. intros Hc Hd.
  destruct (op_of (cmd_Op c)) as [[]|] eqn:Ec; try done;
  destruct (op_of (cmd_Op d)) as [[]|] eqn:Ed; try done; cbn [andb orb]; intros H;
  repeat match goal with
  | |- match tm_Get ?s ?k with _ => _ end = _ -> _ => destruct (tm_Get s k) eqn:?
  | |- Some _ = Some _ -> _ => intros [= <- <-]
  end; split_and!; try done; try congruence.
  all: injection H as H; destruct (Z.leb_spec (cmd_K d) (cmd_K c)); cbn [andb] in H;
    try (destruct (Z.leb_spec (cmd_K c) (cmd_K d)); try done).
  all: try (intros k; rewrite !tm_Get_Put; repeat case_decide; subst; try done; lia).
  all: match goal with
    | G : tm_Get (tm_Put _ _ _) _ = _ |- _ =>
        rewrite tm_Get_Put, decide_False in G by lia; congruence
    end.
Qed.
End laws.
