(* ===== verification/ReplicaState.v ===== *)
(** The replica's state: [Replica] and the types it holds
    ([src/paxosbus/internal/protocol/replica.go], [recovery.go],
    [client_control.go]), with Go's field names.

    Not in the record: the mutexes (every section under [r.mu] is one step of
    the model), the timers and tickers, the sockets (a connection is an opaque
    [conn]) and the log label.  A Go pointer that the code compares for
    identity ([gapState], [vcState]) carries an allocation number, taken from
    [r_nextAlloc].  The durable logs are the sequences of records appended to
    them. *)
From Stdlib Require Import Strings.String.
From S2P Require Import Prelude WireBase Wire WireStream Config Lines State.

(** * Components of the state *)

(** a connection's [*lockedWriter] *)
Definition conn : Type := Z.

Inductive slotState := slotEmpty | slotReceived | slotNoOp.
#[export] Instance slotState_eq_dec : EqDecision slotState.
Proof. solve_decision. Defined.
Definition slotState_code (s : slotState) : Z :=
  match s with slotEmpty => 0 | slotReceived => 1 | slotNoOp => 2 end.

Record writeUndo := mkwriteUndo { wu_key : Key; wu_value : Value; wu_present : bool }.

Record globalEntry := mkglobalEntry {
  ge_clientId : Z;
  ge_reqId : Z;
  ge_state : slotState;
  ge_op : list byte;
  ge_requests : list RequestMessage;
  ge_isBus : bool;
  ge_ownerSet : bool;
  ge_logIdxLo : Z;
  ge_logIdxHi : Z;
  ge_prefixHash : Z;
  ge_logIndexAfter : Z;
  ge_undo : list writeUndo;
  ge_sizeBytes : Z }.

#[export] Instance eta_globalEntry : Eta globalEntry := fun r =>
  mkglobalEntry (ge_clientId r) (ge_reqId r) (ge_state r) (ge_op r) (ge_requests r) (ge_isBus r) (ge_ownerSet r) (ge_logIdxLo r) (ge_logIdxHi r) (ge_prefixHash r) (ge_logIndexAfter r) (ge_undo r) (ge_sizeBytes r).

(** [&globalEntry{state: slotEmpty}] *)
Definition emptyEntry : globalEntry :=
  mkglobalEntry 0 0 slotEmpty [] [] false false 0 0 0 0 [] 0.

Definition requestOverheadBytes : Z := 48.

Definition busSizeBytes (reqs : list RequestMessage) : Z :=
  foldl (fun n rq => add64 n (Zlength (rq_Op rq)))
    (mul64 (Zlength reqs) requestOverheadBytes) reqs.

(** [reqKey] *)
Definition reqKey (rq : RequestMessage) : Z * Z := (rq_ClientId rq, rq_RequestId rq).

Record pendingReply := mkpendingReply {
  pr_clientId : Z; pr_requestId : Z; pr_busSlot : Z; pr_logIndex : Z; pr_viewId : Z }.

Record slotMetaEntry := mkslotMetaEntry {
  sm_clientId : Z; sm_reqId : Z; sm_expectedNs : Z }.
Definition slotMeta0 : slotMetaEntry := mkslotMetaEntry 0 0 0.

(** [gapState]: the channels hold the messages not yet taken, each with its
    capacity; the ones of capacity 1 and [abortCh] are flags. *)
Record gapState := mkgapState {
  gap_id : Z;
  gap_view : Z;
  gap_start : Z;
  gap_askers : gset Z;
  gap_probeReplies : list BusGapReply;
  gap_commitAcks : list Z;
  gap_done : bool }.

#[export] Instance eta_gapState : Eta gapState := fun r =>
  mkgapState (gap_id r) (gap_view r) (gap_start r) (gap_askers r) (gap_probeReplies r) (gap_commitAcks r) (gap_done r).

Definition newGapState (id start view : Z) : gapState :=
  mkgapState id view start ∅ [] [] false.

Definition defaultGapDeltaMs : Z := 5000.

Inductive dropMode := dropNone | dropLeader | dropFollowers | dropAll.
#[export] Instance dropMode_eq_dec : EqDecision dropMode.
Proof. solve_decision. Defined.

Definition ParseDropMode (s : string) : option dropMode :=
  if String.eqb s EmptyString || String.eqb s "none" then Some dropNone
  else if String.eqb s "leader" then Some dropLeader
  else if String.eqb s "followers" then Some dropFollowers
  else if String.eqb s "all" then Some dropAll
  else None.

Definition dropMode_String (m : dropMode) : string :=
  match m with
  | dropLeader => "leader" | dropFollowers => "followers" | dropAll => "all"
  | dropNone => "none"
  end.

Inductive replicaStatus := statusNormal | statusViewChange.
#[export] Instance replicaStatus_eq_dec : EqDecision replicaStatus.
Proof. solve_decision. Defined.

Record syncCatchup := mksyncCatchup {
  cu_generation : Z;
  cu_view : Z;
  cu_leader : Z;
  cu_target : Z;
  cu_prepare : BusSyncPrepare;
  cu_active : bool }.

#[export] Instance eta_syncCatchup : Eta syncCatchup := fun r =>
  mksyncCatchup (cu_generation r) (cu_view r) (cu_leader r) (cu_target r) (cu_prepare r) (cu_active r).
Definition BusSyncPrepare0 : BusSyncPrepare := mkBusSyncPrepare 0 0 false 0 0.
Definition syncCatchup0 : syncCatchup := mksyncCatchup 0 0 0 0 BusSyncPrepare0 false.

Record viewRecovery := mkviewRecovery {
  rec_view : Z;
  rec_generation : Z;
  rec_leader : Z;
  rec_stable : Z;
  rec_hasStable : bool;
  rec_maxSlot : Z;
  rec_hasMax : bool;
  rec_replayFrom : Z;
  rec_replayTo : Z;
  rec_verifyPrefix : bool;
  rec_prefixHash : Z;
  rec_repairFrom : Z }.

#[export] Instance eta_viewRecovery : Eta viewRecovery := fun r =>
  mkviewRecovery (rec_view r) (rec_generation r) (rec_leader r) (rec_stable r) (rec_hasStable r) (rec_maxSlot r) (rec_hasMax r) (rec_replayFrom r) (rec_replayTo r) (rec_verifyPrefix r) (rec_prefixHash r) (rec_repairFrom r).

Record syncRound := mksyncRound {
  sr_prepare : BusSyncPrepare;
  sr_acks : gset Z;
  sr_done : bool }.

#[export] Instance eta_syncRound : Eta syncRound := fun r =>
  mksyncRound (sr_prepare r) (sr_acks r) (sr_done r).

(** [vcState]: [reports] has capacity [n]; [abort] is closed when the state
    leaves [r.vc]. *)
Record vcState := mkvcState {
  vcs_id : Z;
  vcs_view : Z;
  vcs_reports : list BusViewChange;
  vcs_requests : gset Z;
  vcs_reportSent : bool }.

#[export] Instance eta_vcState : Eta vcState := fun r =>
  mkvcState (vcs_id r) (vcs_view r) (vcs_reports r) (vcs_requests r) (vcs_reportSent r).

Definition newVCState (id view : Z) : vcState := mkvcState id view [] ∅ false.

Record viewChangeWatchdog := mkviewChangeWatchdog { wd_view : Z; wd_generation : Z }.

Record clientControlState := mkclientControlState {
  ccs_writer : conn; ccs_holdView : Z; ccs_holdUntil : Z }.

#[export] Instance eta_clientControlState : Eta clientControlState := fun r =>
  mkclientControlState (ccs_writer r) (ccs_holdView r) (ccs_holdUntil r).

(** [fetchReq]: [vc] is the allocation number of the view change it serves;
    [slots] is [None] for a nil slice. *)
Record fetchReq := mkfetchReq {
  fq_peer : Z; fq_from : Z; fq_to : Z; fq_view : Z; fq_fetchID : Z;
  fq_syncGen : Z; fq_installGen : Z; fq_vc : option Z; fq_slots : option (list Z) }.

(** the arguments of [durableLog.recordBus] and [durableLog.recordReq] *)
Record busRecord := mkbusRecord {
  br_slot : Z; br_clientId : Z; br_busSeq : Z; br_logIdxs : list Z; br_noop : bool }.
Record reqRecord := mkreqRecord {
  qr_logIndex : Z; qr_clientId : Z; qr_reqId : Z; qr_op : list byte }.

(** * Options *)

Record RecoveryOptions := mkRecoveryOptions {
  o_SyncIntervalMs : Z;
  o_SuspectTimeoutMs : Z;
  o_ViewChangeTimeoutMs : Z;
  o_ViewChangeFallbackTimeoutMs : Z;
  o_GapRetryTimeoutMs : Z;
  o_RetainSlots : Z;
  o_RetainBytes : Z }.

#[export] Instance eta_RecoveryOptions : Eta RecoveryOptions := fun r =>
  mkRecoveryOptions (o_SyncIntervalMs r) (o_SuspectTimeoutMs r) (o_ViewChangeTimeoutMs r) (o_ViewChangeFallbackTimeoutMs r) (o_GapRetryTimeoutMs r) (o_RetainSlots r) (o_RetainBytes r).

Definition defaultSyncIntervalMs : Z := 500.
Definition defaultSuspectTimeoutMs : Z := 2000.
Definition defaultViewChangeTimeoutMs : Z := 15000.
Definition defaultViewChangeFallbackTimeoutMs : Z := 20000.
Definition defaultGapRetryTimeoutMs : Z := 1500.
Definition defaultRetainBytes : Z := Z.shiftl 256 20.
Definition defaultRetainSlots : Z := Z.shiftl 1 14.

Definition withDefaults (o : RecoveryOptions) : RecoveryOptions :=
  let out := o in
  let out := if o_SyncIntervalMs out =? 0 then out <| o_SyncIntervalMs := defaultSyncIntervalMs |> else out in
  let out := if o_SuspectTimeoutMs out =? 0 then out <| o_SuspectTimeoutMs := defaultSuspectTimeoutMs |> else out in
  let out := if o_ViewChangeTimeoutMs out =? 0 then out <| o_ViewChangeTimeoutMs := defaultViewChangeTimeoutMs |> else out in
  let out := if o_ViewChangeFallbackTimeoutMs out =? 0 then out <| o_ViewChangeFallbackTimeoutMs := defaultViewChangeFallbackTimeoutMs |> else out in
  let out := if o_GapRetryTimeoutMs out =? 0 then out <| o_GapRetryTimeoutMs := defaultGapRetryTimeoutMs |> else out in
  let out := if o_RetainSlots out =? 0 then out <| o_RetainSlots := defaultRetainSlots |> else out in
  let out := if o_RetainBytes out =? 0 then out <| o_RetainBytes := defaultRetainBytes |> else out in
  out.

(** [time.Duration(n) * time.Millisecond] *)
Definition millis (n : Z) : Z := i64 (i64 n * 1000000).

(** * The replica *)

Section replica.
  Context {TM : Treemap Value}.

Record Replica := mkReplica {
  r_config : Config;
  r_idx : Z;
  r_viewId : Z;
  r_clients : gmap Z clientLine;
  r_clientControls : gmap Z clientControlState;
  r_schedule : list BusSyncMessage;
  r_scheduleEpoch : Z;
  r_scheduleReady : bool;
  r_scheduleInstallActive : bool;
  r_scheduleCommittedEnd : Z;
  r_scheduleRequests : gmap Z (gmap Z HsRequest);
  r_scheduleWindowWaiters : gmap Z (gmap Z conn);
  r_scheduleProposal : option SchdPrepare;
  r_schedulePrepared : gset Z;
  r_scheduleLastSend : option Z;
  r_status : replicaStatus;
  r_lastNormalView : Z;
  r_recovery : option viewRecovery;
  r_recoveryGen : Z;
  r_startViewSeen : Z;
  r_startViewView : Z;
  r_startViewSource : Z;
  r_startViewUsed : list Z;
  r_globalLog : gmap Z globalEntry;
  r_nextExpected : Z;
  r_prunedBelow : Z;
  r_maxSlotSeen : Z;
  r_haveMax : bool;
  r_stableSlot : Z;
  r_haveStable : bool;
  r_prefixHash : Z;
  r_hashRing : list Z;
  r_logIdxRing : list Z;
  r_retainSlots : Z;
  r_ringSize : Z;
  r_residentBytes : Z;
  r_retainBytes : Z;
  r_nextLogIndex : Z;
  r_dedup : gmap (Z * Z) Z;
  r_State : tm_carrier TM;
  r_pendingBuses : list BusMessage;
  r_replySenders : gmap Z conn;
  r_pendingReplies : list pendingReply;
  r_cursorNextN : gmap Z Z;
  r_cursorSlot : Z;
  r_slotMeta : gmap Z slotMetaEntry;
  r_peerWriters : list (option conn);
  r_leaderLost : bool;
  r_gaps : gmap (Z * Z) gapState;
  r_suspectTimeout : Z;
  r_viewChangeFallbackTimeout : Z;
  r_lastHeartbeatNs : Z;
  r_sync : option syncRound;
  r_syncCatchup : syncCatchup;
  r_vc : option vcState;
  r_viewChangeWatchdog : option viewChangeWatchdog;
  r_viewChangeWatchdogGen : Z;
  r_fetchQ : list fetchReq;
  r_serveQ : list BusGetState;
  r_newStateCh : list BusNewState;
  r_startViewQ : list BusStartView;
  r_fetchSeq : Z;
  r_durable : option (list busRecord);
  r_reqListLog : option (list reqRecord);
  r_dropMode : dropMode;
  r_dropEvery : Z;
  r_gapDeltaNs : Z;
  r_winRecv : Z;
  r_winDeltaSumUs : Z;
  r_winDeltaMinUs : Z;
  r_winDeltaMaxUs : Z;
  r_winGaps : Z;
  r_winRecovered : Z;
  r_winNoops : Z;
  r_winDropped : Z;
  r_winFenced : Z;
  r_winReplyMax : Z;
  r_nextAlloc : Z }.

#[export] Instance eta_Replica : Eta Replica := fun r =>
  mkReplica (r_config r)
    (r_idx r)
    (r_viewId r)
    (r_clients r)
    (r_clientControls r)
    (r_schedule r)
    (r_scheduleEpoch r)
    (r_scheduleReady r)
    (r_scheduleInstallActive r)
    (r_scheduleCommittedEnd r)
    (r_scheduleRequests r)
    (r_scheduleWindowWaiters r)
    (r_scheduleProposal r)
    (r_schedulePrepared r)
    (r_scheduleLastSend r)
    (r_status r)
    (r_lastNormalView r)
    (r_recovery r)
    (r_recoveryGen r)
    (r_startViewSeen r)
    (r_startViewView r)
    (r_startViewSource r)
    (r_startViewUsed r)
    (r_globalLog r)
    (r_nextExpected r)
    (r_prunedBelow r)
    (r_maxSlotSeen r)
    (r_haveMax r)
    (r_stableSlot r)
    (r_haveStable r)
    (r_prefixHash r)
    (r_hashRing r)
    (r_logIdxRing r)
    (r_retainSlots r)
    (r_ringSize r)
    (r_residentBytes r)
    (r_retainBytes r)
    (r_nextLogIndex r)
    (r_dedup r)
    (r_State r)
    (r_pendingBuses r)
    (r_replySenders r)
    (r_pendingReplies r)
    (r_cursorNextN r)
    (r_cursorSlot r)
    (r_slotMeta r)
    (r_peerWriters r)
    (r_leaderLost r)
    (r_gaps r)
    (r_suspectTimeout r)
    (r_viewChangeFallbackTimeout r)
    (r_lastHeartbeatNs r)
    (r_sync r)
    (r_syncCatchup r)
    (r_vc r)
    (r_viewChangeWatchdog r)
    (r_viewChangeWatchdogGen r)
    (r_fetchQ r)
    (r_serveQ r)
    (r_newStateCh r)
    (r_startViewQ r)
    (r_fetchSeq r)
    (r_durable r)
    (r_reqListLog r)
    (r_dropMode r)
    (r_dropEvery r)
    (r_gapDeltaNs r)
    (r_winRecv r)
    (r_winDeltaSumUs r)
    (r_winDeltaMinUs r)
    (r_winDeltaMaxUs r)
    (r_winGaps r)
    (r_winRecovered r)
    (r_winNoops r)
    (r_winDropped r)
    (r_winFenced r)
    (r_winReplyMax r)
    (r_nextAlloc r).

(** [NewReplica]; [durable_logs] tells whether a log directory was given and
    both durable logs could be opened in it. *)
Definition NewReplica (config : Config) (idx : Z) (durable_logs : bool) (mode : dropMode)
    (every gapDeltaMs : Z) (opts : RecoveryOptions) : Replica :=
  let gapDeltaMs := if gapDeltaMs =? 0 then defaultGapDeltaMs else gapDeltaMs in
  let opts := withDefaults opts in
  {| r_config := config;
     r_idx := idx;
     r_viewId := 0;
     r_clients := ∅;
     r_clientControls := ∅;
     r_schedule := [];
     r_scheduleEpoch := 0;
     r_scheduleReady := false;
     r_scheduleInstallActive := false;
     r_scheduleCommittedEnd := 0;
     r_scheduleRequests := ∅;
     r_scheduleWindowWaiters := ∅;
     r_scheduleProposal := None;
     r_schedulePrepared := ∅;
     r_scheduleLastSend := None;
     r_status := statusNormal;
     r_lastNormalView := 0;
     r_recovery := None;
     r_recoveryGen := 0;
     r_startViewSeen := 0;
     r_startViewView := 0;
     r_startViewSource := 0;
     r_startViewUsed := [];
     r_globalLog := ∅;
     r_nextExpected := 0;
     r_prunedBelow := 0;
     r_maxSlotSeen := 0;
     r_haveMax := false;
     r_stableSlot := 0;
     r_haveStable := false;
     r_prefixHash := fnvOffset64;
     r_hashRing := replicate (Z.to_nat (o_RetainSlots opts + 2)) 0;
     r_logIdxRing := replicate (Z.to_nat (o_RetainSlots opts + 2)) 0;
     r_retainSlots := o_RetainSlots opts;
     r_ringSize := add64 (o_RetainSlots opts) 2;
     r_residentBytes := 0;
     r_retainBytes := o_RetainBytes opts;
     r_nextLogIndex := 0;
     r_dedup := ∅;
     r_State := InitState;
     r_pendingBuses := [];
     r_replySenders := ∅;
     r_pendingReplies := [];
     r_cursorNextN := ∅;
     r_cursorSlot := 0;
     r_slotMeta := ∅;
     r_peerWriters := replicate (Z.to_nat (cfg_N config)) None;
     r_leaderLost := false;
     r_gaps := ∅;
     r_suspectTimeout := millis (o_SuspectTimeoutMs opts);
     r_viewChangeFallbackTimeout := millis (o_ViewChangeFallbackTimeoutMs opts);
     r_lastHeartbeatNs := 0;
     r_sync := None;
     r_syncCatchup := syncCatchup0;
     r_vc := None;
     r_viewChangeWatchdog := None;
     r_viewChangeWatchdogGen := 0;
     r_fetchQ := [];
     r_serveQ := [];
     r_newStateCh := [];
     r_startViewQ := [];
     r_fetchSeq := 0;
     r_durable := if durable_logs then Some [] else None;
     r_reqListLog := if durable_logs then Some [] else None;
     r_dropMode := mode;
     r_dropEvery := every;
     r_gapDeltaNs := i64 (i64 gapDeltaMs * 1000000);
     r_winRecv := 0;
     r_winDeltaSumUs := 0;
     r_winDeltaMinUs := 0;
     r_winDeltaMaxUs := 0;
     r_winGaps := 0;
     r_winRecovered := 0;
     r_winNoops := 0;
     r_winDropped := 0;
     r_winFenced := 0;
     r_winReplyMax := 0;
     r_nextAlloc := 0 |}.

Definition view (r : Replica) : Z := r_viewId r.
Definition leaderIdx (r : Replica) : Z := LeaderIndex (r_config r) (view r).
Definition AmLeader (r : Replica) : bool := leaderIdx r =? r_idx r.

End replica.
Arguments Replica _ : clear implicits.

(** [replica_eq]: two chains of updates of one replica are equal. *)
Ltac replica_reduce :=
    lazy beta iota zeta delta [upd r_config r_idx r_viewId r_clients r_clientControls r_schedule
    r_scheduleEpoch r_scheduleReady r_scheduleInstallActive r_scheduleCommittedEnd
    r_scheduleRequests r_scheduleWindowWaiters r_scheduleProposal r_schedulePrepared
    r_scheduleLastSend r_status r_lastNormalView r_recovery r_recoveryGen r_startViewSeen
    r_startViewView r_startViewSource r_startViewUsed r_globalLog r_nextExpected r_prunedBelow
    r_maxSlotSeen r_haveMax r_stableSlot r_haveStable r_prefixHash r_hashRing r_logIdxRing
    r_retainSlots r_ringSize r_residentBytes r_retainBytes r_nextLogIndex r_dedup r_State
    r_pendingBuses r_replySenders r_pendingReplies r_cursorNextN r_cursorSlot r_slotMeta
    r_peerWriters r_leaderLost r_gaps r_suspectTimeout r_viewChangeFallbackTimeout
    r_lastHeartbeatNs r_sync r_syncCatchup r_vc r_viewChangeWatchdog r_viewChangeWatchdogGen
    r_fetchQ r_serveQ r_newStateCh r_startViewQ r_fetchSeq r_durable r_reqListLog r_dropMode
    r_dropEvery r_gapDeltaNs r_winRecv r_winDeltaSumUs r_winDeltaMinUs r_winDeltaMaxUs r_winGaps
    r_winRecovered r_winNoops r_winDropped r_winFenced r_winReplyMax r_nextAlloc].
Ltac replica_eq :=
  match goal with
  | |- @eq (Replica _) ?a ?r => is_var r; destruct r
  | |- @eq (Replica _) ?r ?a => is_var r; destruct r
  | _ => idtac
  end; replica_reduce; reflexivity.
