(* ===== verification/Cursor.v ===== *)
(** The slot cursor of [replica.go]: [genCursorUpToLocked], [slotOwnerLocked]
    and [resetCursorLocked] enumerate the scheduled buses in slot order, so
    that a replica knows which bus a slot it has not received belongs to. *)
From stdpp Require Import sorting.
From S2P Require Import Prelude WireBase Wire WireStream Config Lines GlobalOrder State ReplicaState.

(** * Operations *)

(** the next arrival of one client: its sequence number and time *)
Definition cursor_next (nextN : gmap Z Z) (cid : Z) (line : clientLine) : option (Z * Z) :=
  let n := default 0 (nextN !! cid) in
  let n := if n =? 0 then 1 else n in
  if Nat.ltb 0 (length (cl_windows line)) then
    let n := nextSequence line n in
    if n =? 0 then None else Some (n, expectedNs line n)
  else Some (n, expectedNs line n).

(** the earliest of them, ties by client: [(bestCid, bestN, bestY)] *)
Definition cursor_better (nextN : gmap Z Z) (cid : Z) (line : clientLine)
    (best : option (Z * Z * Z)) : option (Z * Z * Z) :=
  match cursor_next nextN cid line with
  | None => best
  | Some (n, y) =>
      match best with
      | None => Some (cid, n, y)
      | Some (bestCid, _, bestY) =>
          if (y <? bestY) || ((y =? bestY) && (cid <? bestCid)) then Some (cid, n, y) else best
      end
  end.
Definition cursor_best (lines : gmap Z clientLine) (nextN : gmap Z Z) : option (Z * Z * Z) :=
  map_fold (cursor_better nextN) None lines.

Section cursor.
  Context {TM : Treemap Value}.
  Implicit Types r : Replica TM.

Fixpoint genCursor (fuel : nat) r (target : Z) {struct fuel} : Replica TM :=
  match fuel with
  | O => r
  | S fuel =>
      if r_cursorSlot r <=? target then
        match cursor_best (r_clients r) (r_cursorNextN r) with
        | None => r
        | Some (bestCid, bestN, bestY) =>
            genCursor fuel
              (r <| r_slotMeta ::= <[r_cursorSlot r := mkslotMetaEntry bestCid bestN bestY]> |>
                 <| r_cursorNextN ::= <[bestCid := add64 bestN 1]> |>
                 <| r_cursorSlot ::= fun s => add64 s 1 |>) target
        end
      else r
  end.
(** The loop runs once per slot from the cursor to [target]. *)
Definition genCursorUpTo r (target : Z) : Replica TM :=
  genCursor (Z.to_nat (target + 1 - r_cursorSlot r)) r target.

Definition slotOwner r (slot : Z) : Replica TM * slotMetaEntry :=
  let r := genCursorUpTo r slot in
  (r, default slotMeta0 (r_slotMeta r !! slot)).

(** ** [resetCursorLocked] *)

Definition lines_end (lines : gmap Z clientLine) : Z :=
  map_fold (fun _ line high =>
    match last (cl_windows line) with
    | Some w => if high <? bs_EndTime w then bs_EndTime w else high
    | None => high
    end) 0 lines.

Definition count_all (lines : gmap Z clientLine) (t : Z) (tiePrecedes : bool) : Z :=
  map_fold (fun _ line count => add64 count (countBefore line (i64 t) tiePrecedes)) 0 lines.

Fixpoint reset_search (fuel : nat) (lines : gmap Z clientLine) (prunedBelow low high : Z)
    {struct fuel} : Z :=
  match fuel with
  | O => low
  | S fuel =>
      if low <? high then
        let mid := add64 low (sub64 high low / 2) in
        if prunedBelow <? count_all lines mid true
        then reset_search fuel lines prunedBelow low mid
        else reset_search fuel lines prunedBelow (add64 mid 1) high
      else low
  end.

Fixpoint reset_clients (lines : gmap Z clientLine) (prunedBelow low before : Z)
    (ids : list Z) (nextN : gmap Z Z) {struct ids} : gmap Z Z :=
  match ids with
  | [] => nextN
  | id :: ids =>
      let at_low := match lines !! id with
                    | Some line => nextSequence line low =? low
                    | None => false
                    end in
      if at_low && (before <? prunedBelow)
      then reset_clients lines prunedBelow low (add64 before 1) ids (<[id := add64 low 1]> nextN)
      else reset_clients lines prunedBelow low before ids (<[id := low]> nextN)
  end.

Definition sorted_keys {A} (m : gmap Z A) : list Z := merge_sort Z.le (map_to_list m).*1.

Definition resetCursor r : Replica TM :=
  let r := r <| r_cursorSlot := r_prunedBelow r |>
             <| r_cursorNextN := ∅ |>
             <| r_slotMeta := ∅ |> in
  if r_prunedBelow r =? 0 then r else
  let low := reset_search 64 (r_clients r) (r_prunedBelow r) 0 (lines_end (r_clients r)) in
  let before := count_all (r_clients r) low false in
  r <| r_cursorNextN := reset_clients (r_clients r) (r_prunedBelow r) low before
                          (sorted_keys (r_clients r)) ∅ |>.
End cursor.

(** * The cursor enumerates the buses in slot order *)

(** no bus is scheduled at time 0, the value the code uses for "none" *)
Definition lines_positive (lines : gmap Z clientLine) : Prop :=
  forall b, scheduled lines b -> 0 < b.1.

(** the first sequence number of client [c] not enumerated yet *)
Definition next_of (nextN : gmap Z Z) (c : Z) : Z :=
  let n := default 0 (nextN !! c) in if n =? 0 then 1 else n.

(** Exactly the buses of rank below [slot] have been enumerated. *)
Definition cursor_at (lines : gmap Z clientLine) (slot : Z) (nextN : gmap Z Z) : Prop :=
  (forall c n, nextN !! c = Some n -> is_u64 n) /\
  forall b, scheduled lines b -> next_of nextN b.2 <= b.1 <-> slot <= rank lines b.

Lemma cursor_next_spec lines nextN c line :
  lines_ok lines -> lines_positive lines -> lines !! c = Some line ->
  0 <= next_of nextN c ->
  match cursor_next nextN c line with
  | Some (n, y) => y = n /\ least_from (line_arrivals line) (next_of nextN c) n
  | None => forall s, s ∈ line_arrivals line -> s < next_of nextN c
  end.
Proof.
  intros Hok Hpos Hc Hn. unfold cursor_next. cbv zeta. change (if _ =? 0 then 1 else _) with (next_of nextN c).
  rewrite line_windows_pos by (by eapply Hok).
  destruct (nextSequence_spec line (next_of nextN c)) as [(Hin & Hle & Hmin)|[-> Hnone]];
    [by eapply Hok|done| |].
  - assert (0 < nextSequence line (next_of nextN c)) as Hp.
    { by apply (Hpos (nextSequence line (next_of nextN c), c)); exists line. }
    rewrite (proj2 (Z.eqb_neq _ 0)) by lia.
    split; [|done]. unfold expectedNs. rewrite line_windows_pos by (by eapply Hok).
    apply i64_small. pose proof (line_arrivals_bounds line _ ltac:(by eapply Hok) Hin). lia.
  - done.
Qed.

(** [cursor_best] is the least bus not enumerated *)
Definition pending (lines : gmap Z clientLine) (nextN : gmap Z Z) (b : Z * Z) : Prop :=
  scheduled lines b /\ next_of nextN b.2 <= b.1.

Definition best_spec (lines : gmap Z clientLine) (nextN : gmap Z Z)
    (best : option (Z * Z * Z)) : Prop :=
  match best with
  | None => forall b, ~ pending lines nextN b
  | Some (c, n, y) =>
      y = n /\ pending lines nextN (n, c) /\
      forall b, pending lines nextN b -> b = (n, c) \/ bus_lt (n, c) b
  end.

Lemma pending_insert lines nextN c line b :
  lines !! c = None ->
  pending (<[c := line]> lines) nextN b <->
  pending lines nextN b \/ (b.2 = c /\ b.1 ∈ line_arrivals line /\ next_of nextN c <= b.1).
Proof.
  intros Hc. unfold pending, scheduled. destruct b as [s c']. cbn. split.
  - intros [(cl & Hcl & Hs) Hn]. apply lookup_insert_Some in Hcl as [[-> ->]|[Hne Hcl]]; eauto.
  - intros [[(cl & Hcl & Hs) Hn]|(-> & Hs & Hn)]; (split; [|done]).
    + exists cl. split; [|done]. rewrite lookup_insert_ne by congruence. done.
    + exists line. by rewrite lookup_insert_eq.
Qed.

Lemma cursor_best_spec lines nextN :
  lines_ok lines -> lines_positive lines -> (forall c, 0 <= next_of nextN c) ->
  best_spec lines nextN (cursor_best lines nextN).
Proof.
  unfold cursor_best. intros Hok Hpos Hn.
  apply (map_fold_weak_ind (fun best m => m ⊆ lines -> best_spec m nextN best)); [| |done].
  { intros _ b ((cl & Hc & _) & _). by rewrite lookup_empty in Hc. }
  intros c line m best Hc IH Hsub. unfold cursor_better.
  assert (lines !! c = Some line) as Hline.
  { eapply lookup_weaken, Hsub. apply lookup_insert_eq. }
  specialize (IH (transitivity (insert_subseteq m c line Hc) Hsub)).
  pose proof (cursor_next_spec lines nextN c line Hok Hpos Hline (Hn c)) as Hnext.
  destruct (cursor_next nextN c line) as [[n y]|].
  2:{ destruct best as [[[c' n'] y']|]; cbn in *.
      - destruct IH as (-> & Hp & Hmin). split; [done|]. rewrite (pending_insert m nextN c line _ Hc).
        split; [auto|]. intros b Hb. apply (pending_insert m nextN c line b Hc) in Hb as [Hb|(<- & Hs & Hb)]; [auto|].
        specialize (Hnext _ Hs). lia.
      - intros b Hb. apply (pending_insert m nextN c line b Hc) in Hb as [Hb|(<- & Hs & Hb)]; [by eapply IH|].
        specialize (Hnext _ Hs). lia. }
  destruct Hnext as (-> & Hin & Hle & Hleast).
  assert (pending (<[c := line]> m) nextN (n, c)) as Hpn.
  { apply pending_insert; [done|]. right. done. }
  assert (forall b, b.2 = c /\ b.1 ∈ line_arrivals line /\ next_of nextN c <= b.1 ->
    b = (n, c) \/ bus_lt (n, c) b) as Hown.
  { intros [s c'] (<- & Hs & Hb). cbn in *. specialize (Hleast _ Hs Hb).
    destruct (decide (s = n)) as [->|]; [by left|right]. unfold bus_lt. cbn. lia. }
  destruct best as [[[c' n'] y']|]; cbn in IH |- *.
  - destruct IH as (-> & Hp & Hmin).
    assert (c' <> c) as Hcc.
    { intros ->. destruct Hp as [(? & Hlk & _) _]. cbn in Hlk. congruence. }
    destruct ((n <? n') || ((n =? n') && (c <? c'))) eqn:E; cbn.
    + assert (bus_lt (n, c) (n', c')) as Hlt.
      { unfold bus_lt. cbn. lia. }
      split; [done|]. split; [done|]. intros b Hb.
      apply (pending_insert m nextN c line b Hc) in Hb as [Hb|Hb]; [|auto].
      destruct (Hmin b Hb) as [->|Hb']; [auto|]. right. by eapply bus_lt_trans.
    + assert (bus_lt (n', c') (n, c)) as Hlt.
      { unfold bus_lt. cbn. lia. }
      split; [done|]. split; [by apply (pending_insert m nextN c line _ Hc); auto|]. intros b Hb.
      apply (pending_insert m nextN c line b Hc) in Hb as [Hb|Hb]; [auto|].
      right. destruct (Hown b Hb) as [->|Hb']; [done|]. by eapply bus_lt_trans.
  - split; [done|]. split; [done|]. intros b Hb.
    apply (pending_insert m nextN c line b Hc) in Hb as [Hb|Hb]; [by exfalso; eapply IH|auto].
Qed.

(** the pending bus that precedes all others has the cursor's rank *)
Lemma least_pending_rank lines slot nextN b :
  lines_ok lines -> 0 <= slot -> cursor_at lines slot nextN -> pending lines nextN b ->
  (forall b', pending lines nextN b' -> b' = b \/ bus_lt b b') -> rank lines b = slot.
Proof.
  intros Hok Hs [_ Hat] [Hb Hn] Hmin. pose proof (proj1 (Hat b Hb) Hn) as Hle.
  pose proof (rank_bound lines b Hb) as Hbound.
  destruct (rank_dense lines slot Hok ltac:(lia)) as (b' & Hb' & Hr).
  destruct (Hmin b') as [->|Hlt]; [|done|].
  - split; [done|]. apply Hat; [done|lia].
  - pose proof (rank_lt lines b b' Hb Hlt). lia.
Qed.

Lemma cursor_at_step lines slot nextN c n :
  lines_ok lines -> cursor_at lines slot nextN -> scheduled lines (n, c) ->
  rank lines (n, c) = slot ->
  cursor_at lines (slot + 1) (<[c := add64 n 1]> nextN).
Proof.
  intros Hok [Hu Hat] Hb Hr.
  assert (0 <= n < MaxInt64) as Hn.
  { destruct Hb as (cl & Hc & Hs). eapply line_arrivals_bounds, Hs. by eapply Hok. }
  assert (add64 n 1 = n + 1) as Hadd by (unfold add64; apply u64_small; word_lia).
  rewrite Hadd. split.
  { intros c' n' [[_ <-]|[_ H]]%lookup_insert_Some; [word_lia|eauto]. }
  intros b Hsb. pose proof (Hat b Hsb) as Hold. unfold next_of in *.
  destruct (decide (b.2 = c)) as [Ebc|Ebc].
  - rewrite Ebc, lookup_insert_eq. cbn [default from_option id].
    rewrite (proj2 (Z.eqb_neq _ 0)) by lia. split; intros H.
    + enough (rank lines (n, c) < rank lines b) by lia.
      apply rank_lt; [done|]. left. cbn. lia.
    + destruct (bus_lt_total (n, c) b) as [Hlt|[<-|Hlt]]; cbn in *; [|lia|].
      * destruct Hlt as [Hlt|[_ Hlt]]; cbn in *; lia.
      * pose proof (rank_lt lines _ _ Hsb Hlt). lia.
  - rewrite lookup_insert_ne by congruence. rewrite Hold.
    assert (rank lines b <> slot); [|lia].
    intros E. assert (b = (n, c)) as -> by (apply (rank_inj lines); [done..|congruence]). done.
Qed.

(** what a slot's metadata says: the bus of that rank *)
Definition meta_ok (lines : gmap Z clientLine) (slot : Z) (m : slotMetaEntry) : Prop :=
  scheduled lines (sm_reqId m, sm_clientId m) /\
  rank lines (sm_reqId m, sm_clientId m) = slot /\ sm_expectedNs m = sm_reqId m.

(** a cursor position does not run past the end of the windows *)
Definition next_bounded (lines : gmap Z clientLine) (n : Z) : Prop :=
  exists c cl w, lines !! c = Some cl /\ w ∈ cl_windows cl /\ n <= bs_EndTime w.

Lemma scheduled_bounded lines t c :
  lines_ok lines -> scheduled lines (t, c) -> next_bounded lines (t + 1).
Proof.
  intros Hok (cl & Hc & Hin). cbn in *. apply elem_of_line_arrivals in Hin as (i & w & Hi & Ha).
  pose proof (window_arrivals_bounds w t (line_window_ok _ _ _ (Hok _ _ Hc) Hi) Ha).
  exists c, cl, w. split; [done|]. split; [by eapply list_elem_of_lookup_2|lia].
Qed.

Section cursor_inv.
Context {TM : Treemap Value}.
Implicit Types r : Replica TM.

Record cursor_inv r : Prop := {
  cur_lines : lines_ok (r_clients r);
  cur_positive : lines_positive (r_clients r);
  cur_total : Zlength (all_buses (r_clients r)) < W64;
  cur_slot : 0 <= r_cursorSlot r <= Zlength (all_buses (r_clients r));
  cur_at : cursor_at (r_clients r) (r_cursorSlot r) (r_cursorNextN r);
  cur_next : forall c n, r_cursorNextN r !! c = Some n -> next_bounded (r_clients r) n;
  cur_meta : forall s m, r_slotMeta r !! s = Some m ->
    s < r_cursorSlot r /\ meta_ok (r_clients r) s m;
  cur_complete : forall s, r_prunedBelow r <= s < r_cursorSlot r ->
    is_Some (r_slotMeta r !! s) }.

(** only the cursor's own fields change *)
Definition same_but_cursor r r' : Prop :=
  exists nextN slot meta,
    r' = r <| r_cursorNextN := nextN |> <| r_cursorSlot := slot |> <| r_slotMeta := meta |>.

Lemma next_of_nonneg r : cursor_inv r -> forall c, 0 <= next_of (r_cursorNextN r) c.
Proof.
  intros Hinv c. unfold next_of. destruct (cur_at r Hinv) as [Hu _].
  destruct (r_cursorNextN r !! c) as [n|] eqn:E; cbn; [|lia].
  specialize (Hu c n E). destruct (n =? 0); word_lia.
Qed.

Definition cursor_step r (c n y : Z) : Replica TM :=
  r <| r_slotMeta ::= <[r_cursorSlot r := mkslotMetaEntry c n y]> |>
    <| r_cursorNextN ::= <[c := add64 n 1]> |>
    <| r_cursorSlot ::= fun s => add64 s 1 |>.

Lemma cursor_step_inv r c n y :
  cursor_inv r -> cursor_best (r_clients r) (r_cursorNextN r) = Some (c, n, y) ->
  cursor_inv (cursor_step r c n y) /\
  r_cursorSlot (cursor_step r c n y) = r_cursorSlot r + 1 /\
  r_cursorSlot r < Zlength (all_buses (r_clients r)).
Proof.
  intros Hinv Eb.
  pose proof (cursor_best_spec (r_clients r) (r_cursorNextN r) (cur_lines r Hinv)
    (cur_positive r Hinv) (next_of_nonneg r Hinv)) as Hbest.
  rewrite Eb in Hbest. destruct Hbest as (-> & Hp & Hmin).
  pose proof (least_pending_rank _ _ _ _ (cur_lines r Hinv) (proj1 (cur_slot r Hinv))
    (cur_at r Hinv) Hp Hmin) as Hrank.
  pose proof (rank_bound _ _ (proj1 Hp)) as Hbound.
  pose proof (cur_total r Hinv).
  assert (add64 (r_cursorSlot r) 1 = r_cursorSlot r + 1) as Hadd.
  { unfold add64. apply u64_small. word_lia. }
  unfold cursor_step. split; [|split; [by rsimpl|lia]].
  split; rsimpl; [apply Hinv| apply Hinv | done | lia | | | |].
  - rewrite Hadd. apply cursor_at_step; [apply Hinv..| |done]. apply Hp.
  - intros c' n'. intros [[<- <-]|[_ Hn]]%lookup_insert_Some; [|by eapply (cur_next r Hinv)].
    pose proof (scheduled_time _ _ (cur_lines r Hinv) (proj1 Hp)) as Ht. cbn in Ht.
    unfold add64. rewrite u64_small by (unfold MaxInt64 in Ht; word_lia).
    apply (scheduled_bounded _ n c); [apply Hinv|apply Hp].
  - rewrite Hadd. intros s m [[<- <-]|[_ Hm]]%lookup_insert_Some.
    + split; [lia|]. split; [apply Hp|]. by split.
    + apply (cur_meta r Hinv) in Hm as [? ?]. split; [lia|done].
  - rewrite Hadd. intros s Hs. destruct (decide (s = r_cursorSlot r)) as [->|Hne].
    + rewrite lookup_insert_eq. eauto.
    + rewrite lookup_insert_ne by done. apply (cur_complete r Hinv). lia.
Qed.

Lemma genCursor_spec fuel r target :
  cursor_inv r -> (Z.to_nat (target + 1 - r_cursorSlot r) <= fuel)%nat ->
  let r' := genCursor fuel r target in
  cursor_inv r' /\ same_but_cursor r r' /\
  Z.min (target + 1) (Zlength (all_buses (r_clients r))) <= r_cursorSlot r'.
Proof.
  revert r. induction fuel as [|fuel IH]; intros r Hinv Hf; cbn [genCursor]; cbv zeta.
  { split; [done|]. split; [|lia]. exists (r_cursorNextN r), (r_cursorSlot r), (r_slotMeta r).
    by destruct r. }
  destruct (Z.leb_spec (r_cursorSlot r) target) as [Hle|Hgt].
  2:{ split; [done|]. split; [|lia]. exists (r_cursorNextN r), (r_cursorSlot r), (r_slotMeta r).
      by destruct r. }
  destruct (cursor_best (r_clients r) (r_cursorNextN r)) as [[[c n] y]|] eqn:Eb.
  - destruct (cursor_step_inv r c n y Hinv Eb) as (Hinv' & Hslot & Hlt).
    change (genCursor fuel _ target) with (genCursor fuel (cursor_step r c n y) target).
    destruct (IH (cursor_step r c n y) Hinv') as (H1 & (a & b & d & E) & H3); [lia|].
    split; [done|]. split; [|done]. exists a, b, d. rewrite E. by destruct r.
  - split; [done|]. split.
    { exists (r_cursorNextN r), (r_cursorSlot r), (r_slotMeta r). by destruct r. }
    pose proof (cursor_best_spec (r_clients r) (r_cursorNextN r) (cur_lines r Hinv)
      (cur_positive r Hinv) (next_of_nonneg r Hinv)) as Hbest.
    rewrite Eb in Hbest. cbn in Hbest.
    destruct (decide (r_cursorSlot r < Zlength (all_buses (r_clients r)))) as [Hlt|]; [|lia].
    destruct (rank_dense (r_clients r) (r_cursorSlot r) (cur_lines r Hinv)) as (b & Hb & Hr).
    { pose proof (cur_slot r Hinv). lia. }
    destruct (Hbest b). split; [done|]. apply (proj2 (cur_at r Hinv) b Hb). lia.
Qed.

Lemma slotOwner_inv r slot :
  cursor_inv r -> cursor_inv (slotOwner r slot).1 /\ same_but_cursor r (slotOwner r slot).1.
Proof.
  intros Hinv. unfold slotOwner, genCursorUpTo. cbn [fst].
  destruct (genCursor_spec _ r slot Hinv ltac:(done)) as (? & ? & _). done.
Qed.

Lemma slotOwner_spec r slot :
  cursor_inv r -> r_prunedBelow r <= slot -> 0 <= slot ->
  let m := (slotOwner r slot).2 in
  if decide (slot < Zlength (all_buses (r_clients r)))
  then meta_ok (r_clients r) slot m
  else m = slotMeta0.
Proof.
  intros Hinv Hp Hs. unfold slotOwner, genCursorUpTo. cbn [snd].
  destruct (genCursor_spec (Z.to_nat (slot + 1 - r_cursorSlot r)) r slot Hinv ltac:(done))
    as (Hinv' & Hsame & Hle).
  set (r' := genCursor _ r slot) in *.
  assert (r_clients r' = r_clients r /\ r_prunedBelow r' = r_prunedBelow r) as [Hcl Hpb].
  { destruct Hsame as (a & b & c & E). rewrite E. rsimpl. done. }
  case_decide as Hlt.
  - destruct (cur_complete r' Hinv' slot) as [m Hm]; [rewrite Hpb; lia|].
    rewrite Hm. cbn [default from_option id]. rewrite <- Hcl. by apply (cur_meta r' Hinv').
  - destruct (r_slotMeta r' !! slot) as [m|] eqn:E; [|done].
    apply (cur_meta r' Hinv') in E as [E _].
    pose proof (cur_slot r' Hinv') as Hc. rewrite Hcl in Hc. lia.
Qed.
End cursor_inv.

(** * [resetCursorLocked] puts the cursor back in step with the schedule: the
    binary search and the walk over the clients leave exactly the buses below
    [prunedBelow] enumerated. *)

(** * Counting *)

Lemma length_filter_split {A} (P Q R : A -> Prop) `{!forall x, Decision (P x)}
    `{!forall x, Decision (Q x)} `{!forall x, Decision (R x)} (l : list A) :
  (forall x, x ∈ l -> (P x <-> Q x \/ R x) /\ (Q x -> ~ R x)) ->
  Zlength (filter P l) = Zlength (filter Q l) + Zlength (filter R l).
Proof.
  intros HP. induction l as [|x l IH]; [done|]. rewrite !filter_cons.
  destruct (HP x) as [HPx Hd]; [by left|].
  specialize (IH ltac:(intros y Hy; apply HP; by right)).
  repeat case_decide; cbn [length]; try tauto; lia.
Qed.

Lemma filter_ext_in {A} (P Q : A -> Prop) `{!forall x, Decision (P x)}
    `{!forall x, Decision (Q x)} (l : list A) :
  (forall x, x ∈ l -> P x <-> Q x) -> filter P l = filter Q l.
Proof.
  induction l as [|x l IH]; intros HPQ; [done|]. rewrite !filter_cons.
  rewrite IH by (intros y Hy; apply HPQ; by right). specialize (HPQ x ltac:(by left)).
  repeat case_decide; tauto.
Qed.

Lemma filter_none {A} (P : A -> Prop) `{!forall x, Decision (P x)} (l : list A) :
  (forall x, x ∈ l -> ~ P x) -> filter P l = [].
Proof.
  induction l as [|x l IH]; intros HP; [done|]. rewrite filter_cons.
  rewrite decide_False by (apply HP; by left). apply IH. intros y Hy. apply HP. by right.
Qed.

Section count.
Context (lines : gmap Z clientLine) (c0 : Z).
Context (Hok : lines_ok lines) (Hc0 : forall c cl, lines !! c = Some cl -> c0 < c).

(** the clients with an arrival at [t] *)
Definition arrives (t c : Z) : Prop := (t, c) ∈ all_buses lines.
#[local] Instance arrives_dec t c : Decision (arrives t c).
Proof. unfold arrives. apply _. Defined.

(** a bus's rank is the number of earlier arrivals and of clients before it
    that arrive at the same time *)
Lemma rank_split t c keys :
  keys ≡ₚ (map_to_list lines).*1 -> c0 < c ->
  rank lines (t, c) = rank lines (t, c0) + Zlength (filter (fun k => k < c /\ arrives t k) keys).
Proof.
  intros Hkeys Hc. unfold rank.
  rewrite (length_filter_split _ (fun b => bus_lt b (t, c0)) (fun b => b.1 = t /\ b.2 < c)).
  - f_equal. f_equal.
    transitivity (length ((fun k => (t, k)) <$> filter (fun k => k < c /\ arrives t k) keys));
      [|by rewrite length_fmap].
    apply Permutation_length, NoDup_Permutation.
    + by apply NoDup_filter, NoDup_all_buses.
    + apply NoDup_fmap_2_strong; [by intros ? ? _ _ [=]|]. apply NoDup_filter.
      rewrite Hkeys. apply NoDup_fst_map_to_list.
    + intros [t' k]. rewrite list_elem_of_filter, list_elem_of_fmap. cbn. split.
      * intros [[-> Hlt] Hin]. exists k. split; [done|]. rewrite list_elem_of_filter.
        split; [done|]. rewrite Hkeys. apply elem_of_all_buses in Hin as (cl & Hcl & _).
        cbn in Hcl. apply list_elem_of_fmap. exists (k, cl). split; [done|].
        by apply elem_of_map_to_list.
      * intros (k' & [= -> ->] & Hk). apply list_elem_of_filter in Hk as [[Hlt Hin] _]. done.
  - intros [t' k] Hin. apply elem_of_all_buses in Hin as (cl & Hcl & _). cbn in Hcl.
    pose proof (Hc0 _ _ Hcl). unfold bus_lt. cbn. lia.
Qed.

Lemma rank_le b b' : bus_lt b b' -> rank lines b <= rank lines b'.
Proof. intros H. rewrite !rank_below. apply below_le; [apply bus_lt_trans|done]. Qed.

(** the number of buses before time [t] *)
Definition before_time (t : Z) : Z := rank lines (t, c0).

Lemma before_time_mono t t' : t <= t' -> before_time t <= before_time t'.
Proof.
  intros H. unfold before_time. destruct (decide (t = t')) as [->|]; [lia|].
  apply rank_le. left. cbn. lia.
Qed.

Lemma before_time_bound t : 0 <= before_time t <= Zlength (all_buses lines).
Proof.
  unfold before_time, rank. pose proof (length_filter (fun b' => bus_lt b' (t, c0)) (all_buses lines)). lia.
Qed.

Lemma before_time_scheduled t c :
  scheduled lines (t, c) -> before_time t <= rank lines (t, c) < before_time (t + 1).
Proof.
  intros Hs. assert (c0 < c) by (destruct Hs as (cl & Hc & _); by eapply Hc0). split.
  - apply rank_le. right. done.
  - apply (rank_lt lines (t, c) (t + 1, c0) Hs). left. cbn. lia.
Qed.

Lemma count_all_spec t tie :
  0 <= t <= MaxInt64 -> Zlength (all_buses lines) < W64 ->
  count_all lines t tie = before_time (upto t tie).
Proof.
  intros Ht Htot.
  assert (count_all lines t tie = u64 (before_time (upto t tie))) as ->.
  2:{ apply u64_small. pose proof (before_time_bound (upto t tie)). word_lia. }
  unfold before_time. rewrite rank_sum. unfold count_all. rewrite map_fold_foldr.
  rewrite i64_small by lia.
  assert (forall l, (forall p, p ∈ l -> line_ok p.2 /\ c0 < p.1) ->
    foldr (uncurry (fun (_ : Z) line count => add64 count (countBefore line t tie))) 0 l =
    u64 (zsum (count_term (upto t tie) c0) l)) as Hgen.
  { induction l as [|[c cl] l IH]; intros Hl; cbn [foldr zsum uncurry]; [done|].
    rewrite IH by (intros p Hp; apply Hl; by right).
    destruct (Hl (c, cl)) as [Hcl Hc]; [by left|]. cbn in Hcl, Hc.
    rewrite countBefore_spec by done. unfold add64. rewrite u64_add_l, u64_add_r. f_equal.
    unfold count_term. cbn [fst snd]. rewrite (proj2 (Z.ltb_ge c c0)) by lia. cbn [upto]. lia. }
  apply Hgen. intros [c cl] Hp. pose proof Hp as Hp'. apply elem_of_map_to_list in Hp'.
  split; [by eapply Hok|by eapply Hc0].
Qed.

(** ** The binary search *)

Lemma reset_search_spec fuel P low high :
  Zlength (all_buses lines) < W64 -> 0 <= low <= high -> high <= MaxInt64 ->
  high - low < 2 ^ Z.of_nat fuel ->
  let L := reset_search fuel lines P low high in
  low <= L <= high /\ (forall t, low <= t < L -> before_time (t + 1) <= P) /\
  (L = high \/ P < before_time (L + 1)).
Proof.
  intros Htot. revert low high. induction fuel as [|fuel IH]; intros low high Hl Hh Hf;
    cbn [reset_search]; cbv zeta.
  { change (2 ^ Z.of_nat 0) with 1 in Hf. split; [lia|]. split; [intros; lia|left; lia]. }
  destruct (Z.ltb_spec low high) as [Hlt|Hge].
  2:{ split; [lia|]. split; [intros; lia|left; lia]. }
  assert (sub64 high low = high - low) as E1 by (unfold sub64; apply u64_small; unfold MaxInt64 in *; word_lia).
  assert (0 <= (high - low) / 2 < high - low) as Hhalf.
  { split; [apply Z.div_pos; lia|apply Z.div_lt; lia]. }
  rewrite E1.
  assert (add64 low ((high - low) / 2) = low + (high - low) / 2) as E2
    by (unfold add64; apply u64_small; unfold MaxInt64 in *; word_lia).
  rewrite E2. set (mid := low + (high - low) / 2) in *.
  assert ((high - low) / 2 < 2 ^ Z.of_nat fuel) as Hf'.
  { apply Z.div_lt_upper_bound; [lia|]. rewrite Nat2Z.inj_succ, Z.pow_succ_r in Hf by lia. lia. }
  assert (high - mid - 1 <= (high - low) / 2) as Hf''.
  { pose proof (Z.div_mod (high - low) 2 ltac:(lia)). pose proof (Z.mod_pos_bound (high - low) 2 ltac:(lia)). lia. }
  rewrite count_all_spec by (try done; lia). cbn [upto].
  destruct (Z.ltb_spec P (before_time (mid + 1))) as [Hc|Hc].
  - destruct (IH low mid) as (H1 & H2 & H3); [lia..|]. split; [lia|]. split; [done|].
    right. destruct H3 as [->|]; done.
  - assert (add64 mid 1 = mid + 1) as -> by (unfold add64; apply u64_small; unfold MaxInt64 in *; word_lia).
    destruct (IH (mid + 1) high) as (H1 & H2 & H3); [lia..|]. split; [lia|]. split; [|done].
    intros t Ht. destruct (decide (mid + 1 <= t)); [apply H2; lia|].
    pose proof (before_time_mono (t + 1) (mid + 1) ltac:(lia)). lia.
Qed.
End count.

(** ** The end of the schedule *)

Lemma last_window_end cl w s :
  line_ok cl -> last (cl_windows cl) = Some w -> s ∈ line_arrivals cl -> s < bs_EndTime w.
Proof.
  intros Hok Hl Hs. apply elem_of_line_arrivals in Hs as (i & w' & Hi & Ha).
  pose proof (window_arrivals_bounds w' s (line_window_ok _ _ _ Hok Hi) Ha).
  rewrite last_lookup in Hl. destruct (decide (i = pred (length (cl_windows cl)))) as [->|Hne].
  { assert (w' = w) as -> by congruence. lia. }
  pose proof (lookup_lt_Some _ _ _ Hi).
  pose proof (lok_ordered _ Hok i (pred (length (cl_windows cl))) w' w ltac:(lia) Hi Hl).
  pose proof (wok_end _ (line_window_ok _ _ _ Hok Hl)). lia.
Qed.

Lemma lines_end_spec lines :
  lines_ok lines ->
  0 <= lines_end lines <= MaxInt64 /\ (forall b, scheduled lines b -> b.1 < lines_end lines) /\
  (lines_end lines = 0 \/ next_bounded lines (lines_end lines)).
Proof.
  intros Hok. unfold lines_end. rewrite map_fold_foldr.
  set (f := uncurry _). assert (forall l, (forall p, p ∈ l -> line_ok p.2) ->
    0 <= foldr f 0 l <= MaxInt64 /\
    (forall p s, p ∈ l -> s ∈ line_arrivals p.2 -> s < foldr f 0 l) /\
    (foldr f 0 l = 0 \/ exists p w, p ∈ l /\ w ∈ cl_windows p.2 /\ foldr f 0 l = bs_EndTime w))
    as Hgen.
  { induction l as [|[c cl] l IH]; intros Hl; cbn [foldr].
    { split; [done|]. split; [by intros p s ?%elem_of_nil|by left]. }
    destruct IH as (H1 & H2 & H3); [intros p Hp; apply Hl; by right|].
    pose proof (Hl (c, cl) ltac:(by left)) as Hcl. cbn in Hcl.
    set (h := foldr f 0 l) in *.
    destruct (last (cl_windows cl)) as [w|] eqn:El.
    2:{ apply last_None in El. by destruct (lok_nonempty _ Hcl). }
    assert (0 <= bs_EndTime w <= MaxInt64) as He.
    { rewrite last_lookup in El. destruct (line_window_ok _ _ _ Hcl El). lia. }
    assert (f (c, cl) h = Z.max h (bs_EndTime w)) as Ef.
    { unfold f. cbn [uncurry]. rewrite El. destruct (Z.ltb_spec h (bs_EndTime w)); lia. }
    rewrite Ef.
    split; [lia|]. split.
    - intros p s [->|Hp]%elem_of_cons Hs.
      + pose proof (last_window_end cl w s Hcl El Hs). lia.
      + pose proof (H2 p s Hp Hs). lia.
    - right. destruct (Z.max_spec h (bs_EndTime w)) as [[_ ->]|[Hge ->]].
      + exists (c, cl), w. split; [by left|]. split; [|done]. by apply last_Some_elem_of.
      + destruct H3 as [H3|(p & w' & Hp & Hw & H3)].
        * exists (c, cl), w. split; [by left|]. split; [by apply last_Some_elem_of|].
          rewrite last_lookup in El. destruct (line_window_ok _ _ _ Hcl El). lia.
        * exists p, w'. split; [by right|done]. }
  destruct (Hgen (map_to_list lines)) as (H1 & H2 & H3).
  { intros p Hp. by eapply line_entry_ok. }
  split; [done|]. split.
  2:{ destruct H3 as [H3|([c cl] & w & Hp & Hw & H3)]; [by left|right]. exists c, cl, w.
      split; [by apply elem_of_map_to_list|]. split; [done|]. lia. }
  intros b (cl & Hc & Hs). apply (H2 (b.2, cl)); [by apply elem_of_map_to_list|done].
Qed.

(** ** The walk over the clients *)

Section walk.
Context (lines : gmap Z clientLine) (P low : Z) (Hlow : 0 <= low <= MaxInt64) (HP : 0 <= P < W64).
Context (rk : Z -> Z) (at_low : Z -> bool).
Context (Hat : forall c, (match lines !! c with
                          | Some line => nextSequence line low =? low
                          | None => false
                          end) = at_low c).

(** the ranks of the buses the clients have at [low] *)
Fixpoint ranks_from (k : Z) (ids : list Z) : Prop :=
  match ids with
  | [] => True
  | id :: ids => rk id = k /\ ranks_from (k + if at_low id then 1 else 0) ids
  end.

Lemma reset_clients_spec ids k nextN :
  NoDup ids -> 0 <= k -> ranks_from k ids ->
  forall c, reset_clients lines P low (Z.min P k) ids nextN !! c =
    if decide (c ∈ ids) then Some (if at_low c && (rk c <? P) then low + 1 else low)
    else nextN !! c.
Proof.
  revert k nextN. induction ids as [|id ids IH]; intros k nextN Hnd Hk Hrk c; cbn [reset_clients].
  { by rewrite decide_False by apply not_elem_of_nil. }
  apply NoDup_cons in Hnd as [Hni Hnd]. destruct Hrk as [Hid Hrk]. cbv zeta. rewrite Hat.
  assert ((Z.min P k <? P) = (rk id <? P)) as ->
    by (rewrite Hid; destruct (Z.ltb_spec (Z.min P k) P), (Z.ltb_spec k P); lia).
  assert (add64 low 1 = low + 1) as ->
    by (unfold add64; apply u64_small; unfold MaxInt64 in *; word_lia).
  destruct (at_low id && (rk id <? P)) eqn:E.
  - apply andb_prop in E as [Ea Er]. rewrite Ea in Hrk.
    replace (add64 (Z.min P k) 1) with (Z.min P (k + 1)).
    2:{ rewrite Hid in Er. unfold add64. rewrite u64_small by word_lia. lia. }
    rewrite (IH (k + 1)) by (try done; lia).
    destruct (decide (c = id)) as [->|Hne].
    + rewrite decide_False by done. rewrite decide_True by (by left). rewrite Ea, Er.
      by rewrite lookup_insert_eq.
    + rewrite lookup_insert_ne by done. repeat case_decide; set_solver.
  - replace (Z.min P k) with (Z.min P (k + if at_low id then 1 else 0)).
    2:{ destruct (at_low id); [|lia]. cbn in E. rewrite Hid in E. lia. }
    rewrite (IH _) by (try done; destruct (at_low id); lia).
    destruct (decide (c = id)) as [->|Hne].
    + rewrite decide_False by done. rewrite decide_True by (by left). rewrite E.
      by rewrite lookup_insert_eq.
    + rewrite lookup_insert_ne by done. repeat case_decide; set_solver.
Qed.
End walk.

(** ** The cursor after a reset *)

Section sorted.
Context (lines : gmap Z clientLine) (c0 : Z).
Context (Hok : lines_ok lines) (Hc0 : forall c cl, lines !! c = Some cl -> c0 < c).

Lemma sorted_keys_perm {A} (m : gmap Z A) : sorted_keys m ≡ₚ (map_to_list m).*1.
Proof. apply merge_sort_Permutation. Qed.

Lemma elem_of_sorted_keys {A} (m : gmap Z A) c : c ∈ sorted_keys m <-> is_Some (m !! c).
Proof.
  rewrite sorted_keys_perm, list_elem_of_fmap. split.
  - intros ([k v] & -> & H). apply elem_of_map_to_list in H. eauto.
  - intros [v H]. exists (c, v). split; [done|]. by apply elem_of_map_to_list.
Qed.

Lemma NoDup_sorted_keys {A} (m : gmap Z A) : NoDup (sorted_keys m).
Proof. rewrite sorted_keys_perm. apply NoDup_fst_map_to_list. Qed.

Lemma sorted_keys_split {A} (m : gmap Z A) pre c post :
  sorted_keys m = pre ++ c :: post ->
  (forall k, k ∈ pre -> k < c) /\ (forall k, k ∈ post -> c < k).
Proof.
  intros E. pose proof (NoDup_sorted_keys m) as Hnd. rewrite E in Hnd.
  assert (StronglySorted Z.le (sorted_keys m)) as Hs by (apply StronglySorted_merge_sort; apply _).
  rewrite E in Hs. apply NoDup_app in Hnd as (_ & Hd & Hnd). apply NoDup_cons in Hnd as [Hnc _].
  split; intros k Hk.
  - assert (k <= c) by (eapply (StronglySorted_app_1_elem_of Z.le pre); [exact Hs|done|by left]).
    assert (k <> c) by (intros ->; eapply Hd; [done|by left]). lia.
  - apply StronglySorted_app_1_r in Hs. apply StronglySorted_cons in Hs as [Hall _].
    rewrite Forall_forall in Hall. specialize (Hall k Hk).
    assert (k <> c) by (by intros ->). lia.
Qed.

Definition arrives_b (t c : Z) : bool := bool_decide ((t, c) ∈ all_buses lines).

Lemma ranks_from_sorted t pre ids :
  sorted_keys lines = pre ++ ids ->
  ranks_from (fun c => rank lines (t, c)) (arrives_b t)
    (before_time lines c0 t + Zlength (filter (fun k => arrives_b t k = true) pre)) ids.
Proof.
  revert pre. induction ids as [|c ids IH]; intros pre E; cbn [ranks_from]; [done|].
  destruct (sorted_keys_split lines pre c ids E) as [Hpre Hpost].
  assert (c0 < c) as Hc.
  { destruct (proj1 (elem_of_sorted_keys lines c)) as [cl Hcl]; [|by eapply Hc0].
    rewrite E. set_solver. }
  split.
  - rewrite (rank_split lines c0 Hok Hc0 t c (sorted_keys lines) (sorted_keys_perm lines) Hc).
    unfold before_time. f_equal. f_equal. f_equal.
    rewrite E, filter_app, (filter_ext_in _ (fun k => arrives_b t k = true) pre).
    + rewrite (filter_none (fun k => k < c /\ arrives lines t k) (c :: ids)); [apply app_nil_r|].
      intros k [->|Hk]%elem_of_cons; [lia|]. specialize (Hpost k Hk). lia.
    + intros k Hk. unfold arrives_b. rewrite bool_decide_eq_true. specialize (Hpre k Hk).
      unfold arrives. split; [by intros [_ ?]|done].
  - replace (_ + _ + _) with (before_time lines c0 t +
      Zlength (filter (fun k => arrives_b t k = true) (pre ++ [c]))).
    + apply IH. by rewrite E, <- app_assoc.
    + rewrite filter_app, length_app, filter_cons, filter_nil. destruct (arrives_b t c);
        [rewrite decide_True by done|rewrite decide_False by done]; cbn [length]; lia.
Qed.
End sorted.

Lemma low_client (lines : gmap Z clientLine) : exists c0, forall c cl, lines !! c = Some cl -> c0 < c.
Proof.
  exists (foldr Z.min 0 (map_to_list lines).*1 - 1). intros c cl Hc.
  assert (c ∈ (map_to_list lines).*1) as Hin.
  { apply list_elem_of_fmap. exists (c, cl). split; [done|]. by apply elem_of_map_to_list. }
  induction (map_to_list lines).*1 as [|k ks IH]; [by apply elem_of_nil in Hin|].
  cbn [foldr]. apply elem_of_cons in Hin as [->|Hin]; [lia|]. specialize (IH Hin). lia.
Qed.

Section reset_at.
Context (lines : gmap Z clientLine) (P : Z).
Context (Hok : lines_ok lines) (Hpos : lines_positive lines).
Context (Htot : Zlength (all_buses lines) < W64) (HP : 0 < P <= Zlength (all_buses lines)).

(** the time the search ends at: at most [P] buses before it and, if any bus is
    later, more than [P] up to it *)
Record search_result (c0 L : Z) : Prop := {
  sr_range : 0 <= L <= MaxInt64;
  sr_end : L <= lines_end lines;
  sr_before : before_time lines c0 L <= P;
  sr_found : forall b, scheduled lines b -> L < b.1 -> P < before_time lines c0 (L + 1);
  sr_positive : forall c cl, lines !! c = Some cl -> 0 < L }.

(** what the binary search has found *)
Lemma low_spec c0 (Hc0 : forall c cl, lines !! c = Some cl -> c0 < c) :
  search_result c0 (reset_search 64 lines P 0 (lines_end lines)).
Proof.
  destruct (lines_end_spec lines Hok) as (He & Hend & _).
  assert (lines_end lines - 0 < 2 ^ Z.of_nat 64) as Hfuel.
  { change (2 ^ Z.of_nat 64) with 18446744073709551616.
    change MaxInt64 with 9223372036854775807 in He. lia. }
  pose proof (reset_search_spec lines c0 Hok Hc0 64 P 0 (lines_end lines) Htot
    ltac:(lia) ltac:(lia) Hfuel) as Hs.
  generalize dependent (reset_search 64 lines P 0 (lines_end lines)).
  intros L (H1 & H2 & H3). clear Hfuel.
  assert (forall t, t <= 1 -> before_time lines c0 t = 0) as Hzero.
  { intros t Ht. unfold before_time, rank. rewrite filter_none; [done|].
    intros b Hb. apply elem_of_all_buses in Hb as Hs. specialize (Hpos b Hs). unfold bus_lt. cbn.
    destruct b as [t' c]. destruct Hs as (cl & Hc & _). specialize (Hc0 _ _ Hc). cbn in *. lia. }
  split; [lia|lia| | |].
  - destruct (decide (L = 0)) as [->|Hne]; [rewrite Hzero; lia|].
    specialize (H2 (L - 1) ltac:(lia)). by replace (L - 1 + 1) with L in H2 by lia.
  - intros b Hb Hlt. destruct H3 as [H3|H3]; [|done]. specialize (Hend b Hb). lia.
  - intros c cl Hc. destruct (decide (L = 0)) as [E|]; [|lia]. exfalso. rewrite E in *.
    destruct H3 as [H3|H3]; [|rewrite Hzero in H3; lia].
    assert (all_buses lines <> []) as Hne by (intros E'; rewrite E' in HP; cbn in HP; lia).
    destruct (all_buses lines) as [|b l] eqn:Eb; [done|].
    assert (scheduled lines b) as Hb by (apply elem_of_all_buses; rewrite Eb; by left).
    specialize (Hend b Hb). specialize (Hpos b Hb). lia.
Qed.

Lemma at_low_spec low c :
  (forall c cl, lines !! c = Some cl -> 0 < low) ->
  (match lines !! c with Some line => nextSequence line low =? low | None => false end)
    = arrives_b lines low c.
Proof.
  intros Hlow. unfold arrives_b.
  assert ((low, c) ∈ all_buses lines <-> exists cl, lines !! c = Some cl /\ low ∈ line_arrivals cl)
    as Ha by apply elem_of_all_buses.
  destruct (lines !! c) as [cl|] eqn:Ec.
  2:{ symmetry. apply bool_decide_eq_false. rewrite Ha. by intros (? & ? & _). }
  specialize (Hlow c cl Ec). pose proof (nextSequence_spec cl low ltac:(by eapply Hok) ltac:(lia)) as Hn.
  apply eq_bool_prop_intro. rewrite bool_decide_spec, Ha, Is_true_true, Z.eqb_eq.
  destruct Hn as [(Hin & Hle & Hmin)|[E Hlt]].
  - split; [intros E; exists cl; by rewrite E in Hin|]. intros (cl' & [= <-] & Hin').
    specialize (Hmin low Hin'). lia.
  - split; [lia|]. intros (cl' & [= <-] & Hin'). specialize (Hlt low Hin'). lia.
Qed.

Lemma reset_lookup c0 low :
  (forall c cl, lines !! c = Some cl -> c0 < c) -> search_result c0 low ->
  forall c, reset_clients lines P low (count_all lines low false) (sorted_keys lines) ∅ !! c =
    if decide (c ∈ sorted_keys lines)
    then Some (if arrives_b lines low c && (rank lines (low, c) <? P) then low + 1 else low)
    else None.
Proof.
  intros Hc0 [Hlow _ Hbefore Hfound Hpos'] c.
  assert (count_all lines low false = Z.min P (before_time lines c0 low)) as ->.
  { rewrite (count_all_spec lines c0) by done. cbn [upto]. lia. }
  rewrite (reset_clients_spec lines P low Hlow ltac:(lia) (fun c => rank lines (low, c))
    (arrives_b lines low) (fun c => at_low_spec low c Hpos') (sorted_keys lines)
    (before_time lines c0 low) ∅ (NoDup_sorted_keys lines)); [done|apply before_time_bound|].
  pose proof (ranks_from_sorted lines c0 Hok Hc0 low [] (sorted_keys lines) eq_refl) as Hr.
  by rewrite Z.add_0_r in Hr.
Qed.

Lemma reset_bounded c0 low c n :
  (forall c cl, lines !! c = Some cl -> c0 < c) -> search_result c0 low ->
  reset_clients lines P low (count_all lines low false) (sorted_keys lines) ∅ !! c = Some n ->
  next_bounded lines n.
Proof.
  intros Hc0 Hs. rewrite (reset_lookup c0 low Hc0 Hs).
  case_decide as Hin; [|done]. intros [= <-].
  apply elem_of_sorted_keys in Hin as [cl Hc]. pose proof (sr_positive _ _ Hs c cl Hc).
  destruct (arrives_b lines low c && (rank lines (low, c) <? P)) eqn:E.
  - apply andb_prop in E as [E _]. apply bool_decide_eq_true, elem_of_all_buses in E.
    by apply (scheduled_bounded lines low c).
  - destruct (lines_end_spec lines Hok) as (_ & _ & [He|(c1 & cl1 & w & H1 & H2 & H3)]).
    + pose proof (sr_end _ _ Hs). lia.
    + exists c1, cl1, w. pose proof (sr_end _ _ Hs). split; [done|]. split; [done|lia].
Qed.

Lemma reset_at c0 low :
  (forall c cl, lines !! c = Some cl -> c0 < c) -> search_result c0 low ->
  cursor_at lines P
    (reset_clients lines P low (count_all lines low false) (sorted_keys lines) ∅).
Proof.
  intros Hc0 Hsr. pose proof (reset_lookup c0 low Hc0 Hsr) as Hn.
  destruct Hsr as [Hlow _ Hbefore Hfound Hpos'].
  split.
  - intros c n. rewrite Hn. case_decide; [|done]. intros [= <-]. unfold MaxInt64 in *.
    destruct (_ && _); word_lia.
  - intros [t c] Hs. cbn [fst snd]. unfold next_of. rewrite Hn. cbv zeta.
    pose proof Hs as (cl & Hc & Hin). cbn in Hc.
    rewrite decide_True by (apply elem_of_sorted_keys; eauto).
    specialize (Hpos' c cl Hc). pose proof (before_time_scheduled lines c0 Hc0 t c Hs) as Hr.
    set (v := if arrives_b lines low c && (rank lines (low, c) <? P) then low + 1 else low).
    change (default 0 (Some v)) with v.
    assert ((if v =? 0 then 1 else v) = v) as ->.
    { destruct (Z.eqb_spec v 0) as [Ev|]; [|done]. unfold v in Ev. destruct (_ && _); lia. }
    unfold v.
    destruct (Z.lt_trichotomy t low) as [Ht|[->|Ht]].
    + pose proof (before_time_mono lines c0 (t + 1) low ltac:(lia)). destruct (_ && _); lia.
    + assert (arrives_b lines low c = true) as ->.
      { apply bool_decide_eq_true. by apply elem_of_all_buses. }
      cbn [andb]. destruct (Z.ltb_spec (rank lines (low, c)) P); lia.
    + specialize (Hfound (t, c) Hs Ht).
      pose proof (before_time_mono lines c0 (low + 1) t ltac:(lia)). destruct (_ && _); lia.
Qed.
End reset_at.

(** [resetCursorLocked] re-establishes the cursor's invariant, whatever the
    cursor held before. *)
Lemma resetCursor_inv {TM : Treemap Value} (r : Replica TM) :
  lines_ok (r_clients r) -> lines_positive (r_clients r) ->
  Zlength (all_buses (r_clients r)) < W64 ->
  0 <= r_prunedBelow r <= Zlength (all_buses (r_clients r)) ->
  cursor_inv (resetCursor r) /\ same_but_cursor r (resetCursor r).
Proof.
  intros Hok Hpos Htot HP. unfold resetCursor. cbv zeta. rsimpl.
  destruct (Z.eqb_spec (r_prunedBelow r) 0) as [E|E].
  - split; [|exists ∅, (r_prunedBelow r), ∅; replica_eq].
    split; rsimpl; [done|done|done|lia| | | |].
    + split; [by intros c n H|]. intros b Hb. unfold next_of. rewrite lookup_empty. cbn.
      specialize (Hpos b Hb). pose proof (rank_bound _ _ Hb). lia.
    + by intros c n H.
    + by intros s m H.
    + intros s Hs. lia.
  - destruct (low_client (r_clients r)) as [c0 Hc0].
    pose proof (low_spec (r_clients r) (r_prunedBelow r) Hok Hpos Htot ltac:(lia) c0 Hc0) as Hsr.
    split; [|eexists _, (r_prunedBelow r), ∅; replica_eq].
    split; rsimpl; [done|done|done|lia| | | |].
    + by apply (reset_at (r_clients r) (r_prunedBelow r) Hok Htot ltac:(lia) c0 _ Hc0).
    + intros c n. by apply (reset_bounded (r_clients r) (r_prunedBelow r) Hok Htot ltac:(lia) c0 _ c n Hc0).
    + by intros s m H.
    + intros s Hs. lia.
Qed.
