(* ===== verification/Log.v ===== *)
(** The replica's bus log ([replica.go]): receiving, no-oping, executing,
    pruning and rewinding slots, with the rolling prefix hash, the request
    log indices, deduplication and the undo records. *)
From S2P Require Import Prelude WireBase Wire WireStream Config Lines GlobalOrder State.
From S2P Require Import ReplicaState Cursor.

(** * The rolling hash *)

Fixpoint fnvMix_loop (i : nat) (h v : Z) : Z :=
  match i with
  | O => h
  | S i => fnvMix_loop i (mul64 (Z.lxor h (Z.land v 255)) fnvPrime64) (Z.shiftr v 8)
  end.
Definition fnvMix (h v : Z) : Z := fnvMix_loop 8 h v.

Definition foldSlot (h slot : Z) (st : slotState) (clientId reqId : Z) : Z :=
  let h := fnvMix h slot in
  let h := fnvMix h (slotState_code st) in
  let h := fnvMix h clientId in
  fnvMix h reqId.

Section log.
  Context {TM : Treemap Value}.
  Implicit Types r : Replica TM.

(** * Reading the log *)

Definition slotState_of r (slot : Z) : slotState :=
  match r_globalLog r !! slot with Some e => ge_state e | None => slotEmpty end.

Definition executed r (slot : Z) : bool := slot <? r_nextExpected r.

Definition slotOp r (slot : Z) : list byte :=
  match r_globalLog r !! slot with Some e => ge_op e | None => [] end.

Definition slotGapPayload r (slot : Z) : list byte * bool :=
  match r_globalLog r !! slot with
  | None => ([], false)
  | Some e => if ge_isBus e then (MarshalRequests (ge_requests e), true) else (ge_op e, false)
  end.

(** the owner the log or, for an entry that does not name it, the cursor knows *)
Definition entryOwner r (slot : Z) (e : globalEntry) : Replica TM * (Z * Z) :=
  if ge_ownerSet e then (r, (ge_clientId e, ge_reqId e))
  else let (r, m) := slotOwner r slot in (r, (sm_clientId m, sm_reqId m)).

Definition ringValid r (slot : Z) : bool :=
  if r_nextExpected r <=? slot then false
  else r_nextExpected r <=? add64 slot (r_ringSize r).

Definition resident_executed r (slot : Z) : option globalEntry :=
  match r_globalLog r !! slot with
  | Some e => if (r_prunedBelow r <=? slot) && (slot <? r_nextExpected r) then Some e else None
  | None => None
  end.

Definition ring_at (ring : list Z) (i : Z) : Z := default 0 (ring !! Z.to_nat i).

(** [prefixHashAtLocked], [logIndexAfterLocked]: [None] is [ok == false] *)
Definition prefixHashAt r (slot : Z) : option Z :=
  if ringValid r slot then Some (ring_at (r_hashRing r) (slot mod r_ringSize r))
  else ge_prefixHash <$> resident_executed r slot.

Definition logIndexAfter r (slot : Z) : option Z :=
  if ringValid r slot then Some (ring_at (r_logIdxRing r) (slot mod r_ringSize r))
  else ge_logIndexAfter <$> resident_executed r slot.

Definition prefixStateAt r (slot : Z) : option (Z * Z) :=
  if slot =? 0 then Some (fnvOffset64, 0)
  else match prefixHashAt r (sub64 slot 1), logIndexAfter r (sub64 slot 1) with
       | Some h, Some li => Some (h, li)
       | _, _ => None
       end.

(** * Receiving *)

Definition observeSlot r (slot : Z) : Replica TM :=
  if negb (r_haveMax r) || (r_maxSlotSeen r <? slot)
  then r <| r_maxSlotSeen := slot |> <| r_haveMax := true |>
  else r.

(** [slotEntryLocked]: the entry, created empty when there is none *)
Definition slotEntry r (slot : Z) : Replica TM * globalEntry :=
  match r_globalLog r !! slot with
  | Some e => (r, e)
  | None => (r <| r_globalLog ::= <[slot := emptyEntry]> |>, emptyEntry)
  end.

(** [claimSlotLocked]: [false] when the slot is taken *)
Definition claimSlot r (slot : Z) : Replica TM * bool :=
  let r := observeSlot r slot in
  let (r, e) := slotEntry r slot in
  (r, bool_decide (ge_state e = slotEmpty)).

Definition setEntry r (slot : Z) (e : globalEntry) : Replica TM :=
  r <| r_globalLog ::= <[slot := e]> |>.

Definition recordBusReceived r (slot clientId busSeq : Z) (reqs : list RequestMessage) :
    Replica TM * bool :=
  let (r, free) := claimSlot r slot in
  if free then
    let sz := busSizeBytes reqs in
    let r := setEntry r slot
      {| ge_clientId := clientId; ge_reqId := busSeq; ge_state := slotReceived; ge_op := [];
         ge_requests := reqs; ge_isBus := true; ge_ownerSet := true;
         ge_logIdxLo := 0; ge_logIdxHi := 0; ge_prefixHash := 0; ge_logIndexAfter := 0;
         ge_undo := []; ge_sizeBytes := sz |} in
    (r <| r_residentBytes ::= fun n => add64 n sz |>, true)
  else (r, false).

Definition recordReceived r (slot clientId reqId : Z) (op : list byte) : Replica TM * bool :=
  let (r, free) := claimSlot r slot in
  if free then
    let sz := add64 (Zlength op) requestOverheadBytes in
    let r := setEntry r slot
      {| ge_clientId := clientId; ge_reqId := reqId; ge_state := slotReceived; ge_op := op;
         ge_requests := []; ge_isBus := false; ge_ownerSet := true;
         ge_logIdxLo := 0; ge_logIdxHi := 0; ge_prefixHash := 0; ge_logIndexAfter := 0;
         ge_undo := []; ge_sizeBytes := sz |} in
    (r <| r_residentBytes ::= fun n => add64 n sz |>, true)
  else (r, false).

Definition storeRecovered r (slot clientId reqId : Z) (payload : list byte) (isBus : bool) :
    Replica TM * bool :=
  if negb isBus then recordReceived r slot clientId reqId payload
  else match UnmarshalRequests payload with
       | Some reqs => recordBusReceived r slot clientId reqId reqs
       | None => (r, false)
       end.

(** [releaseEntryBytesLocked] on the entry of [slot] *)
Definition release (resident size : Z) : Z :=
  if resident <? size then 0 else sub64 resident size.
Definition releaseEntryBytes r (slot : Z) : Replica TM :=
  match r_globalLog r !! slot with
  | None => r
  | Some e =>
      r <| r_residentBytes ::= fun n => release n (ge_sizeBytes e) |>
        <| r_globalLog ::= <[slot := e <| ge_sizeBytes := 0 |>]> |>
  end.

Definition dropSlot r (slot : Z) : Replica TM := r <| r_globalLog ::= delete slot |>.

Definition setNoOp r (slot : Z) : Replica TM * bool :=
  if executed r slot then (r, false) else
  let r := observeSlot r slot in
  let (r, e) := slotEntry r slot in
  if bool_decide (ge_state e = slotNoOp) then (r, false) else
  let (r, owner) := entryOwner r slot e in
  let e := e <| ge_clientId := owner.1 |> <| ge_reqId := owner.2 |>
             <| ge_ownerSet := true |> in
  let e := e <| ge_state := slotNoOp |> <| ge_op := [] |> <| ge_requests := [] |>
             <| ge_isBus := false |> in
  (releaseEntryBytes (setEntry r slot e) slot, true).

(** * Execution *)

Definition request_command (rq : RequestMessage) : Command :=
  mkCommand 1 (i64 (rq_ClientId rq)) (rq_Op rq).

(** [executeLocked]: a [PUT] under the client's id *)
Definition executeReq (rq : RequestMessage) (st : tm_carrier TM) : tm_carrier TM :=
  match Execute (request_command rq) st with Some (_, st) => st | None => st end.

(** [rememberWriteLocked]: [None] when the entry already remembers the key *)
Definition writeUndo_size (u : writeUndo) : Z := add64 40 (Zlength (wu_value u)).
Definition rememberWrite (e : globalEntry) (st : tm_carrier TM) (resident : Z) (key : Key) :
    globalEntry * Z :=
  if existsb (fun u => wu_key u =? key) (ge_undo e) then (e, resident) else
  let u := match tm_Get st key with
           | Some v => mkwriteUndo key v true
           | None => mkwriteUndo key [] false
           end in
  let size := writeUndo_size u in
  (e <| ge_undo ::= fun us => us ++ [u] |> <| ge_sizeBytes ::= fun n => add64 n size |>,
   add64 resident size).

Definition undo_one (u : writeUndo) (st : tm_carrier TM) : tm_carrier TM :=
  if wu_present u then tm_Put st (wu_key u) (wu_value u) else tm_Remove st (wu_key u).
Definition undo_all (us : list writeUndo) (st : tm_carrier TM) : tm_carrier TM :=
  foldl (fun st u => undo_one u st) st us.

Definition undoWrites r (slot : Z) : Replica TM :=
  match r_globalLog r !! slot with
  | None => r
  | Some e =>
      let sz := foldl (fun n u => sub64 n (writeUndo_size u)) in
      r <| r_State ::= undo_all (ge_undo e) |>
        <| r_residentBytes ::= fun n => sz n (ge_undo e) |>
        <| r_globalLog ::= <[slot := e <| ge_sizeBytes ::= fun n => sz n (ge_undo e) |>
                                       <| ge_undo := [] |>]> |>
  end.

Definition enqueueReply r (clientId requestId busSlot logIndex : Z) : Replica TM :=
  let r := r <| r_pendingReplies ::= fun q =>
                  q ++ [mkpendingReply clientId requestId busSlot logIndex (view r)] |> in
  let n := Zlength (r_pendingReplies r) in
  if r_winReplyMax r <? n then r <| r_winReplyMax := n |> else r.

(** one turn of [appendBusToLogListLocked]'s loop *)
Definition append_request (slot : Z) (acc : Replica TM * list Z) (rq : RequestMessage) :
    Replica TM * list Z :=
  let (r, logIdxs) := acc in
  let key := reqKey rq in
  let li := r_nextLogIndex r in
  let r := r <| r_nextLogIndex ::= fun n => add64 n 1 |> in
  let r := r <| r_reqListLog ::= fmap (fun l =>
                  l ++ [mkreqRecord li (rq_ClientId rq) (rq_RequestId rq) (rq_Op rq)]) |> in
  let '(r, execIdx) :=
    match r_dedup r !! key with
    | Some execIdx => (r, execIdx)
    | None =>
        let r := r <| r_dedup ::= <[key := li]> |> in
        let e := default emptyEntry (r_globalLog r !! slot) in
        let '(e, resident) := rememberWrite e (r_State r) (r_residentBytes r)
                                (i64 (rq_ClientId rq)) in
        let r := setEntry r slot e in
        let r := r <| r_residentBytes := resident |> in
        (r <| r_State ::= executeReq rq |>, li)
    end in
  (enqueueReply r (rq_ClientId rq) (rq_RequestId rq) slot execIdx, logIdxs ++ [li]).

Definition appendBusToLogList r (slot : Z) : Replica TM * list Z :=
  match r_globalLog r !! slot with
  | None => (r, [])
  | Some e =>
      if bool_decide (ge_state e = slotNoOp) then (r, []) else
      let r := setEntry r slot (e <| ge_logIdxLo := r_nextLogIndex r |>) in
      let (r, logIdxs) := foldl (append_request slot) (r, []) (ge_requests e) in
      let e := default emptyEntry (r_globalLog r !! slot) in
      (setEntry r slot (e <| ge_logIdxHi := r_nextLogIndex r |>), logIdxs)
  end.

Definition durableRecordCursor r (slot : Z) (logIdxs : list Z) : Replica TM :=
  match r_durable r, r_globalLog r !! slot with
  | Some _, Some e =>
      let (r, owner) := entryOwner r slot e in
      r <| r_durable ::= fmap (fun l =>
             l ++ [mkbusRecord slot owner.1 owner.2 logIdxs
                     (bool_decide (ge_state e = slotNoOp))]) |>
  | _, _ => r
  end.

Definition foldExecuted r (slot : Z) : Replica TM :=
  match r_globalLog r !! slot with
  | None => r
  | Some e =>
      let (r, owner) := entryOwner r slot e in
      let r := r <| r_prefixHash ::= fun h => foldSlot h slot (ge_state e) owner.1 owner.2 |> in
      let r := setEntry r slot (e <| ge_prefixHash := r_prefixHash r |>
                                  <| ge_logIndexAfter := r_nextLogIndex r |>) in
      let i := Z.to_nat (slot mod r_ringSize r) in
      r <| r_hashRing ::= <[i := r_prefixHash r]> |>
        <| r_logIdxRing ::= <[i := r_nextLogIndex r]> |>
  end.

Definition filled r (slot : Z) : bool := negb (bool_decide (slotState_of r slot = slotEmpty)).

Definition advanceNextExpectedOne r : Replica TM * bool :=
  let slot := r_nextExpected r in
  if negb (filled r slot) then (r, false) else
  let (r, logIdxs) := appendBusToLogList r slot in
  let r := durableRecordCursor r slot logIdxs in
  let r := r <| r_nextExpected ::= fun n => add64 n 1 |> in
  (foldExecuted r slot, true).

(** [for r.advanceNextExpectedOneLocked() {}]: every turn takes one more
    filled slot of the log *)
Fixpoint advance_loop (fuel : nat) r : Replica TM :=
  match fuel with
  | O => r
  | S fuel => let (r', more) := advanceNextExpectedOne r in
              if more then advance_loop fuel r' else r'
  end.

(** * Pruning *)

Definition pruneDedupForSlot r (slot : Z) : Replica TM :=
  match r_globalLog r !! slot with
  | None => r
  | Some e =>
      r <| r_dedup ::= fun d => foldl (fun d rq =>
             match d !! reqKey rq with
             | Some li => if (ge_logIdxLo e <=? li) && (li <? ge_logIdxHi e)
                          then delete (reqKey rq) d else d
             | None => d
             end) d (ge_requests e) |>
  end.

Definition pruneSlot r (slot : Z) : Replica TM :=
  let r := pruneDedupForSlot r slot in
  let r := releaseEntryBytes r slot in
  (dropSlot r slot) <| r_slotMeta ::= delete slot |>.

Fixpoint pruneSlots (n : nat) r (s : Z) : Replica TM :=
  match n with O => r | S n => pruneSlots n (pruneSlot r s) (s + 1) end.

Fixpoint prune_bytes (fuel : nat) r (limit : Z) : Replica TM :=
  match fuel with
  | O => r
  | S fuel =>
      if (0 <? r_retainBytes r) && (r_retainBytes r <? r_residentBytes r) &&
         (r_prunedBelow r <? limit)
      then prune_bytes fuel
             ((pruneSlot r (r_prunedBelow r)) <| r_prunedBelow ::= fun n => add64 n 1 |>) limit
      else r
  end.

Definition prune_limit r : Z :=
  if r_haveStable r && (r_stableSlot r <? r_nextExpected r)
  then r_stableSlot r else r_nextExpected r.
Definition prune_target r : Z :=
  let target := if r_retainSlots r <? r_nextExpected r
                then sub64 (r_nextExpected r) (r_retainSlots r) else 0 in
  if prune_limit r <? target then prune_limit r else target.

Definition pruneCommitted r : Replica TM :=
  let limit := prune_limit r in
  let target := prune_target r in
  let r := pruneSlots (Z.to_nat (target - r_prunedBelow r)) r (r_prunedBelow r) in
  let r := if r_prunedBelow r <? target then r <| r_prunedBelow := target |> else r in
  prune_bytes (Z.to_nat (limit - r_prunedBelow r)) r limit.

Definition advanceNextExpected r : Replica TM :=
  if bool_decide (r_status r = statusNormal)
  then pruneCommitted (advance_loop (S (size (r_globalLog r))) r)
  else pruneCommitted r.

Fixpoint advance_through (fuel : nat) r (maxSlot : Z) : Replica TM :=
  match fuel with
  | O => r
  | S fuel =>
      if r_nextExpected r <=? maxSlot
      then let (r', more) := advanceNextExpectedOne r in
           if more then advance_through fuel r' maxSlot else r'
      else r
  end.
Definition advanceNextExpectedThrough r (maxSlot : Z) : Replica TM :=
  pruneCommitted (advance_through (S (size (r_globalLog r))) r maxSlot).

(** * Rewinding ([recovery.go]) *)

Definition rewind_one (logIdx : Z) r (slot : Z) : Replica TM :=
  match r_globalLog r !! slot with
  | None => r
  | Some e =>
      let r := undoWrites r slot in
      r <| r_dedup ::= fun d => foldl (fun d rq =>
             match d !! reqKey rq with
             | Some li => if logIdx <=? li then delete (reqKey rq) d else d
             | None => d
             end) d (ge_requests e) |>
  end.

(** [for s := r.nextExpected; s > target; s--], on slot [s-1] *)
Fixpoint rewind_down (n : nat) (target logIdx : Z) r : Replica TM :=
  match n with
  | O => r
  | S n => rewind_down n target logIdx (rewind_one logIdx r (target + Z.of_nat n))
  end.

Definition rewindTo r (target : Z) : Replica TM * bool :=
  if r_nextExpected r <=? target then (r, true) else
  match prefixStateAt r target with
  | None => (r, false)
  | Some (hash, logIdx) =>
      let r := rewind_down (Z.to_nat (r_nextExpected r - target)) target logIdx r in
      (r <| r_nextExpected := target |> <| r_prefixHash := hash |>
         <| r_nextLogIndex := logIdx |>, true)
  end.

Definition clearSlot r (slot : Z) : Replica TM := dropSlot (releaseEntryBytes r slot) slot.

Fixpoint clear_up (n : nat) r (s : Z) : Replica TM :=
  match n with O => r | S n => clear_up n (clearSlot r s) (s + 1) end.

Definition clearSlotsAbove r (from : Z) : Replica TM :=
  if negb (r_haveMax r) then r
  else clear_up (Z.to_nat (r_maxSlotSeen r + 1 - from)) r from.

(** [setStableLocked] *)
Definition setStable r (slot : Z) : Replica TM :=
  if r_nextExpected r =? 0 then r else
  let top := r_nextExpected r - 1 in
  let slot := if top <? slot then top else slot in
  if negb (r_haveStable r) || (r_stableSlot r <? slot)
  then r <| r_stableSlot := slot |> <| r_haveStable := true |>
  else r.
End log.

(** * Specification of execution *)

(** [exec_requests li reqs d st]: the requests get the log indices from [li] on;
    one whose key is not in [d] is recorded there and executed, any other is
    skipped.  The last component is the index each request is answered with. *)
Section exec.
  Context {TM : Treemap Value}.

Fixpoint exec_requests (li : Z) (reqs : list RequestMessage) (d : gmap (Z * Z) Z)
    (st : tm_carrier TM) {struct reqs} : gmap (Z * Z) Z * tm_carrier TM * list Z :=
  match reqs with
  | [] => (d, st, [])
  | rq :: reqs =>
      match d !! reqKey rq with
      | Some i => let '(d, st, idxs) := exec_requests (li + 1) reqs d st in (d, st, i :: idxs)
      | None =>
          let '(d, st, idxs) := exec_requests (li + 1) reqs (<[reqKey rq := li]> d)
                                (tm_Put st (i64 (rq_ClientId rq)) (rq_Op rq)) in
          (d, st, li :: idxs)
      end
  end.
End exec.

(** the replies of a bus: one per request, with the index it was first given *)
Definition replies_of (slot v : Z) (reqs : list RequestMessage) (idxs : list Z) :
    list pendingReply :=
  zip_with (fun rq i => mkpendingReply (rq_ClientId rq) (rq_RequestId rq) slot i v) reqs idxs.

Definition seqZ_from (li : Z) (n : nat) : list Z := (fun i => li + Z.of_nat i) <$> seq 0 n.

Section undo.
Context {TM : Treemap Value} {TL : TreemapLaws TM}.

(** the undo records [us] lead from [st] back to [st0] *)
Definition undo_ok (st0 : tm_carrier TM) (us : list writeUndo) (st : tm_carrier TM) : Prop :=
  (forall u, u ∈ us -> tm_Get st0 (wu_key u) = if wu_present u then Some (wu_value u) else None) /\
  (forall k, (forall u, u ∈ us -> wu_key u <> k) -> tm_Get st k = tm_Get st0 k).

Lemma undo_one_get u st k :
  tm_Get (undo_one u st) k =
    if decide (wu_key u = k) then (if wu_present u then Some (wu_value u) else None)
    else tm_Get st k.
Proof.
  unfold undo_one. destruct (wu_present u); [apply tm_Get_Put|apply tm_Get_Remove].
Qed.

Lemma undo_all_equiv st0 us st : undo_ok st0 us st -> store_equiv (undo_all us st) st0.
Proof.
  intros [H1 H2] k. unfold undo_all.
  assert (forall us' st', (forall u, u ∈ us' -> u ∈ us) ->
    tm_Get st' k = tm_Get st0 k \/ (exists u, u ∈ us' /\ wu_key u = k) ->
    tm_Get (foldl (fun st u => undo_one u st) st' us') k = tm_Get st0 k) as Hgen.
  { induction us' as [|u us' IH]; intros st' Hsub Hor; cbn [foldl].
    { destruct Hor as [|(u & Hu & _)]; [done|by apply elem_of_nil in Hu]. }
    apply IH; [set_solver|]. rewrite undo_one_get. case_decide as Ek.
    - left. rewrite <- Ek. symmetry. apply H1, Hsub. set_solver.
    - destruct Hor as [|(u' & Hu' & Ek')]; [by left|]. right. exists u'. set_solver. }
  apply Hgen; [done|].
  destruct (decide (Exists (fun u => wu_key u = k) us)) as [Hex|Hex].
  - right. apply Exists_exists in Hex. naive_solver.
  - left. apply H2. intros u Hu E. apply Hex, Exists_exists. eauto.
Qed.

Lemma undo_ok_nil st : undo_ok st [] st.
Proof. split; [by intros u ?%elem_of_nil|done]. Qed.

Lemma undo_ok_equiv st0 us st st' : undo_ok st0 us st -> store_equiv st st' -> undo_ok st0 us st'.
Proof. intros [H1 H2] E. split; [done|]. intros k Hk. by rewrite <- (E k), H2. Qed.

(** executing one request keeps them so, once its write is remembered *)
Lemma remember_ok st0 e st res rq e' res' :
  undo_ok st0 (ge_undo e) st ->
  rememberWrite e st res (i64 (rq_ClientId rq)) = (e', res') ->
  undo_ok st0 (ge_undo e') (executeReq rq st) /\
  exists us sz, e' = e <| ge_undo := us |> <| ge_sizeBytes := sz |>.
Proof.
  intros [H1 H2]. unfold rememberWrite, executeReq. cbn.
  set (k := i64 (rq_ClientId rq)).
  destruct (existsb _ _) eqn:Ex.
  - intros [= <- <-]. split.
    2:{ exists (ge_undo e), (ge_sizeBytes e). by destruct e. }
    split; [done|]. intros k' Hk'. rewrite tm_Get_Put. case_decide as E; [|auto].
    apply existsb_exists in Ex as (u & Hu & Eu). apply Z.eqb_eq in Eu.
    apply list_elem_of_In in Hu. exfalso. apply (Hk' u Hu). congruence.
  - intros [= <- <-]. rsimpl.
    assert (forall u, u ∈ ge_undo e -> wu_key u <> k) as Hfresh.
    { intros u Hu E. assert (existsb (fun u => wu_key u =? k) (ge_undo e) = true) as Ht; [|congruence].
      apply existsb_exists. exists u. rewrite <- list_elem_of_In. split; [done|]. by apply Z.eqb_eq. }
    split.
    2:{ eexists _, _. destruct e. reflexivity. }
    set (u0 := match tm_Get st k with Some v => mkwriteUndo k v true | None => mkwriteUndo k [] false end).
    assert (wu_key u0 = k) as Ek by (unfold u0; by destruct (tm_Get st k)).
    split.
    + intros u [Hu|Hu%list_elem_of_singleton]%elem_of_app; [auto|]. subst u. rewrite Ek.
      rewrite <- (H2 k Hfresh). unfold u0. by destruct (tm_Get st k).
    + intros k' Hk'. rewrite tm_Get_Put. rewrite decide_False.
      2:{ intros <-. apply (Hk' u0); [set_solver|done]. }
      apply H2. intros u Hu. apply Hk'. set_solver.
Qed.
End undo.

(** [foldSlot] is never unfolded in proofs. *)
#[global] Opaque foldSlot.
