(* ===== verification/LogSpec.v ===== *)
(** Functional specifications of the log operations of [Log.v]: what each
    changes and what it leaves alone. *)
From S2P Require Import Prelude WireBase Wire WireStream Config Lines GlobalOrder State.
From S2P Require Import ReplicaState Cursor Log.

Section frames.
Context {TM : Treemap Value}.
Implicit Types r : Replica TM.

Lemma same_but_cursor_refl r : same_but_cursor r r.
Proof. exists (r_cursorNextN r), (r_cursorSlot r), (r_slotMeta r). by destruct r. Qed.

Lemma genCursor_frame fuel r target : same_but_cursor r (genCursor fuel r target).
Proof.
  revert r. induction fuel as [|fuel IH]; intros r; cbn [genCursor].
  { apply same_but_cursor_refl. }
  destruct (_ <=? _); [|apply same_but_cursor_refl].
  destruct (cursor_best _ _) as [[[c n] y]|]; [|apply same_but_cursor_refl].
  match goal with |- same_but_cursor _ (genCursor _ ?r' _) => destruct (IH r') as (a & b & d & E) end.
  rewrite E. exists a, b, d. by destruct r.
Qed.

Lemma slotOwner_frame r slot : same_but_cursor r (slotOwner r slot).1.
Proof. apply genCursor_frame. Qed.

Lemma entryOwner_frame r slot e : same_but_cursor r (entryOwner r slot e).1.
Proof.
  unfold entryOwner. destruct (ge_ownerSet e); [apply same_but_cursor_refl|].
  pose proof (slotOwner_frame r slot). by destruct (slotOwner r slot).
Qed.

Lemma entryOwner_set r slot e :
  ge_ownerSet e = true -> entryOwner r slot e = (r, (ge_clientId e, ge_reqId e)).
Proof. unfold entryOwner. by intros ->. Qed.

Lemma globalLog_id r slot e :
  r_globalLog r !! slot = Some e -> r <| r_globalLog ::= <[slot := e]> |> = r.
Proof.
  intros H. transitivity (r <| r_globalLog := r_globalLog r |>); [|replica_eq].
  unfold upd. by rewrite (insert_id (r_globalLog r) slot e H).
Qed.

Lemma globalLog_ext r f g :
  f (r_globalLog r) = g (r_globalLog r) -> r <| r_globalLog ::= f |> = r <| r_globalLog ::= g |>.
Proof. intros H. unfold upd. by rewrite H. Qed.
Lemma pendingReplies_ext r f g :
  f (r_pendingReplies r) = g (r_pendingReplies r) ->
  r <| r_pendingReplies ::= f |> = r <| r_pendingReplies ::= g |>.
Proof. intros H. unfold upd. by rewrite H. Qed.

(** ** [appendBusToLogListLocked] *)

(** the fields an execution changes *)
Definition executed_frame r r' (slot : Z) (e' : globalEntry) (n : Z) d st
    (replies : list pendingReply) : Prop :=
  exists reqlog resident replymax,
    r' = r <| r_globalLog ::= <[slot := e']> |>
           <| r_nextLogIndex := n |> <| r_dedup := d |> <| r_State := st |>
           <| r_pendingReplies ::= fun q => q ++ replies |>
           <| r_reqListLog := reqlog |> <| r_residentBytes := resident |>
           <| r_winReplyMax := replymax |>.

Lemma enqueueReply_frame r c q s i :
  exists m, enqueueReply r c q s i =
    r <| r_pendingReplies ::= fun l => l ++ [mkpendingReply c q s i (view r)] |>
      <| r_winReplyMax := m |>.
Proof.
  unfold enqueueReply. cbv zeta. destruct (_ <? _).
  - eexists. replica_eq.
  - exists (r_winReplyMax r). replica_eq.
Qed.

Lemma append_request_spec slot r idxs rq e :
  r_globalLog r !! slot = Some e ->
  exists e' us sz resident reqlog m,
    let key := reqKey rq in
    let fresh := match r_dedup r !! key with None => true | Some _ => false end in
    append_request slot (r, idxs) rq =
      (r <| r_globalLog ::= <[slot := e']> |>
         <| r_nextLogIndex := add64 (r_nextLogIndex r) 1 |>
         <| r_dedup := if fresh then <[key := r_nextLogIndex r]> (r_dedup r) else r_dedup r |>
         <| r_State := if fresh then executeReq rq (r_State r) else r_State r |>
         <| r_pendingReplies ::= fun q => q ++ [mkpendingReply (rq_ClientId rq) (rq_RequestId rq)
              slot (default (r_nextLogIndex r) (r_dedup r !! key)) (view r)] |>
         <| r_reqListLog := reqlog |> <| r_residentBytes := resident |>
         <| r_winReplyMax := m |>, idxs ++ [r_nextLogIndex r]) /\
    e' = e <| ge_undo := us |> <| ge_sizeBytes := sz |> /\
    (fresh = true -> exists res, (e', resident) =
       rememberWrite e (r_State r) res (i64 (rq_ClientId rq))) /\
    (fresh = false -> e' = e).
Proof.
  intros He. cbv zeta. unfold append_request. cbv zeta. rsimpl.
  destruct (r_dedup r !! reqKey rq) as [i|] eqn:Ed.
  - match goal with |- context [enqueueReply ?r1 ?a ?b ?c ?d] =>
      destruct (enqueueReply_frame r1 a b c d) as [m E] end.
    rewrite E. eexists e, (ge_undo e), (ge_sizeBytes e), (r_residentBytes r), _, m.
    split; [|split; [by destruct e|split; [done|done]]].
    refine (f_equal2 pair _ eq_refl). rewrite (globalLog_id r slot e He). replica_eq.
  - rewrite He. cbn [default from_option id].
    destruct (rememberWrite e (r_State r) (r_residentBytes r) (i64 (rq_ClientId rq)))
      as [e' res] eqn:Er.
    match goal with |- context [enqueueReply ?r1 ?a ?b ?c ?d] =>
      destruct (enqueueReply_frame r1 a b c d) as [m E] end.
    rewrite E.
    assert (exists us sz, e' = e <| ge_undo := us |> <| ge_sizeBytes := sz |>) as (us & sz & He').
    { revert Er. unfold rememberWrite. destruct (existsb _ _); intros [= <- _].
      - exists (ge_undo e), (ge_sizeBytes e). by destruct e.
      - eexists _, _. destruct e. reflexivity. }
    eexists e', us, sz, res, _, m. split; [|split; [done|split; [|done]]].
    + refine (f_equal2 pair _ eq_refl). replica_eq.
    + intros _. exists (r_residentBytes r). by rewrite Er.
Qed.
Lemma executed_frame_trans r r1 r2 slot e1 e2 n1 n2 d1 d2 st1 st2 q1 q2 :
  executed_frame r r1 slot e1 n1 d1 st1 q1 -> executed_frame r1 r2 slot e2 n2 d2 st2 q2 ->
  executed_frame r r2 slot e2 n2 d2 st2 (q1 ++ q2).
Proof.
  intros (a & b & c & ->) (a' & b' & c' & ->). exists a', b', c'.
  transitivity (r <| r_globalLog ::= fun g => <[slot := e2]> (<[slot := e1]> g) |>
           <| r_nextLogIndex := n2 |> <| r_dedup := d2 |> <| r_State := st2 |>
           <| r_pendingReplies ::= fun q => (q ++ q1) ++ q2 |>
           <| r_reqListLog := a' |> <| r_residentBytes := b' |> <| r_winReplyMax := c' |>).
  { replica_eq. }
  rewrite (globalLog_ext r _ (<[slot := e2]>)) by apply insert_insert_eq.
  by rewrite (pendingReplies_ext _ _ (fun q => q ++ (q1 ++ q2)))
    by (symmetry; apply app_assoc).
Qed.
End frames.

Section exec_spec.
Context {TM : Treemap Value} {TL : TreemapLaws TM}.
Implicit Types r : Replica TM.

Lemma executeReq_Put rq (st : tm_carrier TM) :
  executeReq rq st = tm_Put st (i64 (rq_ClientId rq)) (rq_Op rq).
Proof. done. Qed.

(** The loop over a bus's requests is [exec_requests]; the entry's undo
    records keep leading back to the store [st0] it started from. *)
Lemma append_requests_spec slot reqs : forall r idxs e st0,
  r_globalLog r !! slot = Some e -> undo_ok st0 (ge_undo e) (r_State r) ->
  0 <= r_nextLogIndex r -> r_nextLogIndex r + Zlength reqs < W64 ->
  let '(d, st, ans) := exec_requests (r_nextLogIndex r) reqs (r_dedup r) (r_State r) in
  exists r' e' us sz,
    foldl (append_request slot) (r, idxs) reqs =
      (r', idxs ++ seqZ_from (r_nextLogIndex r) (length reqs)) /\
    executed_frame r r' slot e' (r_nextLogIndex r + Zlength reqs) d st
      (replies_of slot (view r) reqs ans) /\
    e' = e <| ge_undo := us |> <| ge_sizeBytes := sz |> /\ undo_ok st0 us st.
Proof.
  induction reqs as [|rq reqs IH]; intros r idxs e st0 He Hu H0 Hlt.
  { cbn [exec_requests foldl length]. exists r, e, (ge_undo e), (ge_sizeBytes e).
    split; [by rewrite app_nil_r|]. split; [|split; [by destruct e|done]].
    exists (r_reqListLog r), (r_residentBytes r), (r_winReplyMax r).
    rewrite (globalLog_id r slot e He). cbn [replies_of zip_with].
    rewrite Z.add_0_r. transitivity (r <| r_pendingReplies ::= fun q => q |>); [replica_eq|].
    rewrite (pendingReplies_ext r _ (fun q => q ++ [])) by (symmetry; apply app_nil_r).
    replica_eq. }
  cbn [length] in Hlt.
  destruct (append_request_spec slot r idxs rq e He)
    as (e1 & us & sz & res & rl & m & E & He1 & Hrem & Hsame).
  cbv zeta in E. cbn [foldl exec_requests]. rewrite E. clear E.
  match goal with |- context [foldl _ (?r1', _) reqs] => set (r1 := r1') end.
  assert (add64 (r_nextLogIndex r) 1 = r_nextLogIndex r + 1) as Hadd.
  { unfold add64. apply u64_small. word_lia. }
  assert (r_globalLog r1 !! slot = Some e1) as Hl1.
  { unfold r1. rsimpl. apply lookup_insert_eq. }
  assert (r_nextLogIndex r1 = r_nextLogIndex r + 1) as Hn1 by (unfold r1; rsimpl; exact Hadd).
  assert (view r1 = view r) as Hv1 by (unfold r1, view; by rsimpl).
  assert (undo_ok st0 (ge_undo e1) (r_State r1)) as Hu1.
  { unfold r1. rsimpl. destruct (r_dedup r !! reqKey rq).
    - by rewrite (Hsame eq_refl).
    - destruct (Hrem eq_refl) as [res' Er]. symmetry in Er.
      by apply (remember_ok st0 e (r_State r) res' rq e1 res Hu Er). }
  assert (executed_frame r r1 slot e1 (r_nextLogIndex r + 1) (r_dedup r1) (r_State r1)
    [mkpendingReply (rq_ClientId rq) (rq_RequestId rq) slot
       (default (r_nextLogIndex r) (r_dedup r !! reqKey rq)) (view r)]) as Hf1.
  { exists rl, res, m. rewrite <- Hadd. unfold r1. replica_eq. }
  specialize (IH r1 (idxs ++ [r_nextLogIndex r]) e1 st0 Hl1 Hu1 ltac:(lia) ltac:(lia)).
  assert (r_dedup r1 = if match r_dedup r !! reqKey rq with None => true | Some _ => false end
    then <[reqKey rq := r_nextLogIndex r]> (r_dedup r) else r_dedup r) as Hd1 by (unfold r1; by rsimpl).
  assert (r_State r1 = if match r_dedup r !! reqKey rq with None => true | Some _ => false end
    then executeReq rq (r_State r) else r_State r) as Hs1 by (unfold r1; by rsimpl).
  assert (forall l, seqZ_from l (S (length reqs)) = l :: seqZ_from (l + 1) (length reqs)) as Hseq.
  { intros l. unfold seqZ_from. cbn [seq fmap list_fmap]. f_equal; [lia|].
    rewrite <- fmap_S_seq, <- list_fmap_compose. apply list_fmap_ext. intros. cbn. lia. }
  rewrite Hd1, Hs1, Hn1, Hv1 in IH. rewrite Hd1, Hs1 in Hf1. rewrite executeReq_Put in *.
  cbn [length]. rewrite Hseq.
  destruct (r_dedup r !! reqKey rq) as [i|]; cbn [default from_option id] in Hf1;
    destruct (exec_requests _ reqs _ _) as [[d' st'] ans] eqn:Ee;
    destruct IH as (r' & e' & us' & sz' & H1 & H2 & H3 & H4);
    exists r', e', us', sz';
    (split; [rewrite H1, <- app_assoc; done|]);
    (split; [|split; [subst; by destruct e|done]]);
    replace (r_nextLogIndex r + Z.of_nat (S (length reqs)))
      with (r_nextLogIndex r + 1 + Z.of_nat (length reqs)) by lia;
    exact (executed_frame_trans _ _ _ _ _ _ _ _ _ _ _ _ _ _ Hf1 H2).
Qed.
End exec_spec.

(** * One executed slot *)

Section advance.
Context {TM : Treemap Value} {TL : TreemapLaws TM}.
Implicit Types r : Replica TM.

Definition is_noop (e : globalEntry) : bool := bool_decide (ge_state e = slotNoOp).

(** what executing the entry [e] does to the dedup table and the store *)
Definition exec_entry (li : Z) (e : globalEntry) (d : gmap (Z * Z) Z) (st : tm_carrier TM) :
    gmap (Z * Z) Z * tm_carrier TM * list Z :=
  if is_noop e then (d, st, []) else exec_requests li (ge_requests e) d st.

Definition entry_len (e : globalEntry) : Z := if is_noop e then 0 else Zlength (ge_requests e).

Definition entry_replies (slot v : Z) (e : globalEntry) (ans : list Z) : list pendingReply :=
  if is_noop e then [] else replies_of slot v (ge_requests e) ans.

Lemma exec_requests_length (li : Z) (reqs : list RequestMessage) (d : gmap (Z * Z) Z) (st : tm_carrier TM) :
  length (exec_requests li reqs d st).2 = length reqs.
Proof.
  revert li d st. induction reqs as [|rq reqs IH]; intros li d st; [done|].
  cbn [exec_requests]. destruct (d !! reqKey rq).
  - specialize (IH (li + 1) d st). destruct (exec_requests _ _ _ _) as [[? ?] ?]. cbn in *. lia.
  - specialize (IH (li + 1) (<[reqKey rq := li]> d) (tm_Put st (i64 (rq_ClientId rq)) (rq_Op rq))).
    destruct (exec_requests _ _ _ _) as [[? ?] ?]. cbn in *. lia.
Qed.

(** the entry once executed: the index range, the undo records and the
    prefix it ends *)
Definition executed_entry (e : globalEntry) (lo hi h li : Z) us sz : globalEntry :=
  e <| ge_logIdxLo := lo |> <| ge_logIdxHi := hi |> <| ge_undo := us |>
    <| ge_sizeBytes := sz |> <| ge_prefixHash := h |> <| ge_logIndexAfter := li |>.

Lemma appendBusToLogList_spec slot r e :
  r_globalLog r !! slot = Some e -> undo_ok (r_State r) (ge_undo e) (r_State r) ->
  0 <= r_nextLogIndex r -> r_nextLogIndex r + entry_len e < W64 ->
  let '(d, st, ans) := exec_entry (r_nextLogIndex r) e (r_dedup r) (r_State r) in
  exists r' idxs e' lo hi us sz,
    appendBusToLogList r slot = (r', idxs) /\
    executed_frame r r' slot e' (r_nextLogIndex r + entry_len e) d st
      (entry_replies slot (view r) e ans) /\
    e' = e <| ge_logIdxLo := lo |> <| ge_logIdxHi := hi |>
           <| ge_undo := us |> <| ge_sizeBytes := sz |> /\
    (is_noop e = false -> lo = r_nextLogIndex r /\ hi = r_nextLogIndex r + entry_len e) /\
    undo_ok (r_State r) us st.
Proof.
  intros He Hu H0 Hlt. unfold exec_entry, entry_len, entry_replies, appendBusToLogList in *.
  rewrite He. fold (is_noop e). destruct (is_noop e) eqn:En.
  { exists r, [], e, (ge_logIdxLo e), (ge_logIdxHi e), (ge_undo e), (ge_sizeBytes e).
    split; [done|]. split; [|split; [by destruct e|done]].
    exists (r_reqListLog r), (r_residentBytes r), (r_winReplyMax r).
    rewrite (globalLog_id r slot e He). rewrite Z.add_0_r.
    transitivity (r <| r_pendingReplies ::= fun q => q |>); [replica_eq|].
    rewrite (pendingReplies_ext r _ (fun q => q ++ [])) by (symmetry; apply app_nil_r).
    replica_eq. }
  set (e0 := e <| ge_logIdxLo := r_nextLogIndex r |>).
  set (r0 := setEntry r slot e0).
  assert (r_globalLog r0 !! slot = Some e0) as Hl0 by (unfold r0, setEntry; rsimpl; apply lookup_insert_eq).
  assert (r_State r0 = r_State r /\ r_nextLogIndex r0 = r_nextLogIndex r /\
          r_dedup r0 = r_dedup r /\ view r0 = view r) as (Es0 & En0 & Ed0 & Ev0).
  { unfold r0, setEntry, view. by rsimpl. }
  assert (ge_undo e0 = ge_undo e) as Eu0 by (unfold e0; by rsimpl).
  pose proof (append_requests_spec slot (ge_requests e) r0 [] e0 (r_State r) Hl0) as Hfold.
  rewrite Es0, En0, Ed0, Ev0, Eu0 in Hfold. specialize (Hfold Hu H0 Hlt).
  destruct (exec_requests _ _ _ _) as [[d st] ans].
  destruct Hfold as (r' & e' & us & sz & Ef & (a & b & c & Hr') & He' & Hus).
  fold e0. fold r0. rewrite Ef. cbv zeta.
  eexists _, _, (e' <| ge_logIdxHi := r_nextLogIndex r' |>), (r_nextLogIndex r),
    (r_nextLogIndex r'), us, sz.
  split; [reflexivity|].
  assert (r_globalLog r' !! slot = Some e') as Hl'.
  { rewrite Hr'. unfold r0, setEntry. rsimpl. apply lookup_insert_eq. }
  assert (r_nextLogIndex r' = r_nextLogIndex r + Zlength (ge_requests e)) as Hn'.
  { rewrite Hr'. by rsimpl. }
  rewrite Hl'. cbn [default from_option id]. split; [|split; [|split]]; [| | |done].
  - exists a, b, c. unfold setEntry. rewrite Hn'. rewrite Hr'. unfold r0, setEntry.
    set (e1 := e' <| ge_logIdxHi := r_nextLogIndex r + Zlength (ge_requests e) |>).
    transitivity (r <| r_globalLog ::= fun g => <[slot := e1]> (<[slot := e']> (<[slot := e0]> g)) |>
           <| r_nextLogIndex := r_nextLogIndex r + Zlength (ge_requests e) |>
           <| r_dedup := d |> <| r_State := st |>
           <| r_pendingReplies ::= fun q => q ++ replies_of slot (view r) (ge_requests e) ans |>
           <| r_reqListLog := a |> <| r_residentBytes := b |> <| r_winReplyMax := c |>).
    { replica_eq. }
    rewrite (globalLog_ext r _ (<[slot := e1]>)); [done|]. cbv beta.
    by rewrite !insert_insert_eq.
  - rewrite He'. unfold e0. by destruct e.
  - intros _. rewrite Hn'. done.
Qed.

Lemma durable_frame r slot idxs :
  (forall e, r_globalLog r !! slot = Some e -> ge_ownerSet e = true) ->
  exists du, durableRecordCursor r slot idxs = r <| r_durable := du |>.
Proof.
  intros Ho. unfold durableRecordCursor.
  assert (forall x, r = r <| r_durable := x |> \/ True) by auto.
  destruct (r_durable r) as [l|] eqn:Ed.
  2:{ exists (r_durable r). replica_eq. }
  destruct (r_globalLog r !! slot) as [e|] eqn:Ee.
  2:{ exists (r_durable r). replica_eq. }
  rewrite entryOwner_set by auto. eexists. replica_eq.
Qed.

Definition slot_ring_index r (slot : Z) : nat := Z.to_nat (slot mod r_ringSize r).

Lemma foldExecuted_eq r slot e :
  r_globalLog r !! slot = Some e -> ge_ownerSet e = true ->
  let h := foldSlot (r_prefixHash r) slot (ge_state e) (ge_clientId e) (ge_reqId e) in
  foldExecuted r slot =
    r <| r_prefixHash := h |>
      <| r_globalLog ::= <[slot := e <| ge_prefixHash := h |>
                                     <| ge_logIndexAfter := r_nextLogIndex r |>]> |>
      <| r_hashRing ::= <[slot_ring_index r slot := h]> |>
      <| r_logIdxRing ::= <[slot_ring_index r slot := r_nextLogIndex r]> |>.
Proof.
  intros He Ho. unfold foldExecuted. rewrite He, entryOwner_set by done. replica_eq.
Qed.

Lemma advance_unfold r e :
  r_globalLog r !! r_nextExpected r = Some e -> ge_state e <> slotEmpty ->
  advanceNextExpectedOne r =
    (let (r1, idxs) := appendBusToLogList r (r_nextExpected r) in
     (foldExecuted ((durableRecordCursor r1 (r_nextExpected r) idxs)
                      <| r_nextExpected ::= fun n => add64 n 1 |>) (r_nextExpected r), true)).
Proof.
  intros He Hs. unfold advanceNextExpectedOne, filled, slotState_of. rewrite He.
  by rewrite bool_decide_false.
Qed.

Lemma advance_stuck r :
  slotState_of r (r_nextExpected r) = slotEmpty -> advanceNextExpectedOne r = (r, false).
Proof.
  intros H. unfold advanceNextExpectedOne, filled. by rewrite bool_decide_true.
Qed.

(** everything an executed slot changes *)
Definition slot_frame r r' (slot : Z) (e' : globalEntry) (n : Z) d st
    (replies : list pendingReply) (h : Z) : Prop :=
  exists reqlog resident replymax du,
    r' = r <| r_globalLog ::= <[slot := e']> |>
           <| r_nextLogIndex := n |> <| r_dedup := d |> <| r_State := st |>
           <| r_pendingReplies ::= fun q => q ++ replies |>
           <| r_nextExpected := slot + 1 |>
           <| r_prefixHash := h |>
           <| r_hashRing ::= <[slot_ring_index r slot := h]> |>
           <| r_logIdxRing ::= <[slot_ring_index r slot := n]> |>
           <| r_reqListLog := reqlog |> <| r_residentBytes := resident |>
           <| r_winReplyMax := replymax |> <| r_durable := du |>.

(** the three steps after the requests ran, on the state they left *)
Lemma slot_frame_intro r r1 e1 n d st replies du h :
  let slot := r_nextExpected r in
  executed_frame r r1 slot e1 n d st replies -> slot + 1 < W64 -> 0 <= slot ->
  ge_ownerSet e1 = true ->
  h = foldSlot (r_prefixHash r) slot (ge_state e1) (ge_clientId e1) (ge_reqId e1) ->
  slot_frame r (foldExecuted (r1 <| r_durable := du |> <| r_nextExpected ::= fun n => add64 n 1 |>) slot)
    slot (e1 <| ge_prefixHash := h |> <| ge_logIndexAfter := n |>) n d st replies h.
Proof.
  cbv zeta. intros (a & b & c & ->) Hlt H0 Ho Hh.
  set (slot := r_nextExpected r) in *.
  assert (add64 slot 1 = slot + 1) as Hadd by (unfold add64; apply u64_small; word_lia).
  rewrite (foldExecuted_eq _ slot e1); [|rsimpl; apply lookup_insert_eq|done].
  cbv zeta. rsimpl. rewrite <- Hh.
  exists a, b, c, du. set (e2 := e1 <| ge_prefixHash := h |> <| ge_logIndexAfter := n |>).
  unfold slot_ring_index. rsimpl.
  set (i := Z.to_nat (slot mod r_ringSize r)).
  rewrite <- Hadd.
  transitivity (r <| r_globalLog ::= fun g => <[slot := e2]> (<[slot := e1]> g) |>
           <| r_nextLogIndex := n |> <| r_dedup := d |> <| r_State := st |>
           <| r_pendingReplies ::= fun q => q ++ replies |>
           <| r_nextExpected := add64 (r_nextExpected r) 1 |>
           <| r_prefixHash := h |> <| r_hashRing ::= <[i := h]> |>
           <| r_logIdxRing ::= <[i := n]> |>
           <| r_reqListLog := a |> <| r_residentBytes := b |>
           <| r_winReplyMax := c |> <| r_durable := du |>).
  { replica_eq. }
  rewrite (globalLog_ext r _ (<[slot := e2]>)); [done|]. cbv beta.
  by rewrite insert_insert_eq.
Qed.

Lemma advanceNextExpectedOne_spec r e :
  let slot := r_nextExpected r in
  r_globalLog r !! slot = Some e -> ge_state e <> slotEmpty -> ge_ownerSet e = true ->
  undo_ok (r_State r) (ge_undo e) (r_State r) ->
  0 <= slot -> slot + 1 < W64 ->
  0 <= r_nextLogIndex r -> r_nextLogIndex r + entry_len e < W64 ->
  let '(d, st, ans) := exec_entry (r_nextLogIndex r) e (r_dedup r) (r_State r) in
  let h := foldSlot (r_prefixHash r) slot (ge_state e) (ge_clientId e) (ge_reqId e) in
  let n := r_nextLogIndex r + entry_len e in
  exists r' lo hi us sz,
    advanceNextExpectedOne r = (r', true) /\
    slot_frame r r' slot (executed_entry e lo hi h n us sz) n d st
      (entry_replies slot (view r) e ans) h /\
    (is_noop e = false -> lo = r_nextLogIndex r /\ hi = n) /\
    undo_ok (r_State r) us st.
Proof.
  cbv zeta. intros He Hs Ho Hu Hslot Hslot' H0 Hlt.
  pose proof (appendBusToLogList_spec (r_nextExpected r) r e He Hu H0 Hlt) as Ha.
  destruct (exec_entry _ e _ _) as [[d st] ans].
  destruct Ha as (r1 & idxs & e1 & lo & hi & us & sz & Ea & Hf & He1 & Hlohi & Hus).
  rewrite (advance_unfold r e He Hs), Ea.
  assert (r_globalLog r1 !! r_nextExpected r = Some e1) as Hl1.
  { destruct Hf as (a & b & c & ->). rsimpl. apply lookup_insert_eq. }
  assert (ge_ownerSet e1 = true) as Ho1 by (rewrite He1; by rsimpl).
  destruct (durable_frame r1 (r_nextExpected r) idxs) as [du Hdu].
  { intros e2 H2. congruence. }
  rewrite Hdu.
  set (h := foldSlot _ _ _ _ _). set (n := r_nextLogIndex r + entry_len e) in *.
  eexists _, lo, hi, us, sz. split; [reflexivity|]. split; [|done].
  assert (executed_entry e lo hi h n us sz =
          e1 <| ge_prefixHash := h |> <| ge_logIndexAfter := n |>) as ->.
  { rewrite He1. unfold executed_entry. by destruct e. }
  apply slot_frame_intro; [done..|]. unfold h. rewrite He1. by rsimpl.
Qed.
End advance.
