(* ===== verification/LogInv.v ===== *)
(** The log's invariant: the replica's log, rings, dedup table and store agree
    with one history of executed slots. *)
From S2P Require Import Prelude WireBase Wire WireStream Config Lines GlobalOrder State.
From S2P Require Import ReplicaState Cursor Log LogSpec.

(** * Deduplication tables *)

Section dedup.
Context {TM : Treemap Value}.
Implicit Types (d : gmap (Z * Z) Z) (reqs : list RequestMessage) (st : tm_carrier TM).

(** a key is in the table afterwards because it was there, or because this
    bus recorded it *)
Lemma exec_requests_dedup li reqs d st d' st' ans k i :
  exec_requests li reqs d st = (d', st', ans) -> d' !! k = Some i ->
  d !! k = Some i \/
  (d !! k = None /\ exists rq, rq ∈ reqs /\ reqKey rq = k /\ li <= i < li + Zlength reqs).
Proof.
  revert li d st d' st' ans. induction reqs as [|rq reqs IH]; intros li d st d' st' ans;
    cbn [exec_requests length].
  { intros [= <- <- <-]. auto. }
  destruct (d !! reqKey rq) as [j|] eqn:Ej.
  - destruct (exec_requests _ reqs _ _) as [[d1 st1] a1] eqn:E. intros [= <- <- <-] Hk.
    destruct (IH _ _ _ _ _ _ E Hk) as [|(Hn & rq' & Hin & Hkey & Hi)]; [auto|].
    right. split; [done|]. exists rq'. split; [set_solver|]. split; [done|lia].
  - destruct (exec_requests _ reqs _ _) as [[d1 st1] a1] eqn:E. intros [= <- <- <-] Hk.
    destruct (IH _ _ _ _ _ _ E Hk) as [Hins|(Hn & rq' & Hin & Hkey & Hi)].
    + apply lookup_insert_Some in Hins as [[<- <-]|[Hne Hins]]; [|auto].
      right. split; [done|]. exists rq. split; [set_solver|]. split; [done|lia].
    + apply lookup_insert_None in Hn as [Hn _].
      right. split; [done|]. exists rq'. split; [set_solver|]. split; [done|lia].
Qed.

(** what was in the table stays *)
Lemma exec_requests_keeps li reqs d st d' st' ans k i :
  exec_requests li reqs d st = (d', st', ans) -> d !! k = Some i -> d' !! k = Some i.
Proof.
  revert li d st d' st' ans. induction reqs as [|rq reqs IH]; intros li d st d' st' ans;
    cbn [exec_requests].
  { by intros [= <- <- <-]. }
  destruct (d !! reqKey rq) as [j|] eqn:Ej;
    destruct (exec_requests _ reqs _ _) as [[d1 st1] a1] eqn:E; intros [= <- <- <-] Hk;
    apply (IH _ _ _ _ _ _ E); [done|].
  rewrite lookup_insert_ne by congruence. done.
Qed.

(** every request of the bus is in the table afterwards *)
Lemma exec_requests_all li reqs d st d' st' ans rq :
  exec_requests li reqs d st = (d', st', ans) -> rq ∈ reqs -> is_Some (d' !! reqKey rq).
Proof.
  revert li d st d' st' ans. induction reqs as [|rq0 reqs IH]; intros li d st d' st' ans;
    cbn [exec_requests]; [by intros _ ?%elem_of_nil|].
  destruct (d !! reqKey rq0) as [j|] eqn:Ej;
    destruct (exec_requests _ reqs _ _) as [[d1 st1] a1] eqn:E; intros [= <- <- <-];
    intros [->|Hin]%elem_of_cons; try (by eapply IH); exists (default li (d !! reqKey rq0));
    rewrite Ej; cbn; eapply exec_requests_keeps; try exact E; [done|].
  apply lookup_insert_eq.
Qed.

(** deleting the bus's keys whose index satisfies [p] *)
Definition drop_keys (p : Z -> bool) reqs d : gmap (Z * Z) Z :=
  foldl (fun d rq => match d !! reqKey rq with
                     | Some li => if p li then delete (reqKey rq) d else d
                     | None => d
                     end) d reqs.

Lemma drop_keys_lookup p reqs d k i :
  drop_keys p reqs d !! k = Some i <->
  d !! k = Some i /\ ~ (p i = true /\ exists rq, rq ∈ reqs /\ reqKey rq = k).
Proof.
  unfold drop_keys. revert d. induction reqs as [|rq reqs IH]; intros d; cbn [foldl].
  { split; [|by intros [? _]]. intros H. split; [done|]. intros (_ & rq & ?%elem_of_nil & _). done. }
  rewrite IH. clear IH. destruct (d !! reqKey rq) as [j|] eqn:Ej.
  - destruct (p j) eqn:Ep.
    + rewrite lookup_delete_Some. split.
      * intros [[Hne Hk] Hno]. split; [done|]. intros (Hp & rq' & [->|Hin]%elem_of_cons & Hr); [done|].
        apply Hno. eauto.
      * intros [Hk Hno]. split.
        -- split; [|done]. intros <-. apply Hno. split; [congruence|]. exists rq. set_solver.
        -- intros (Hp & rq' & Hin & Hr). apply Hno. split; [done|]. exists rq'. set_solver.
    + split.
      * intros [Hk Hno]. split; [done|].
        intros (Hp & rq' & [->|Hin]%elem_of_cons & Hr); [congruence|]. apply Hno. eauto.
      * intros [Hk Hno]. split; [done|]. intros (Hp & rq' & Hin & Hr). apply Hno.
        split; [done|]. exists rq'. set_solver.
  - split.
    + intros [Hk Hno]. split; [done|].
      intros (Hp & rq' & [->|Hin]%elem_of_cons & Hr); [congruence|]. apply Hno. eauto.
    + intros [Hk Hno]. split; [done|]. intros (Hp & rq' & Hin & Hr). apply Hno.
      split; [done|]. exists rq'. set_solver.
Qed.
End dedup.

#[export] Instance writeUndo_eq_dec : EqDecision writeUndo.
Proof. solve_decision. Defined.
#[export] Instance globalEntry_eq_dec : EqDecision globalEntry.
Proof. solve_decision. Defined.

(** * The invariant *)

Section inv.
Context {TM : Treemap Value} {TL : TreemapLaws TM}.
Implicit Types r : Replica TM.

(** the prefix of the history before one slot *)
Record snapshot := mksnapshot { sn_hash : Z; sn_logIdx : Z; sn_store : tm_carrier TM }.

Record entry_executed (s : Z) (e : globalEntry) (sn sn' : snapshot) : Prop := {
  ee_filled : ge_state e <> slotEmpty;
  ee_hash : sn_hash sn' = foldSlot (sn_hash sn) s (ge_state e) (ge_clientId e) (ge_reqId e);
  ee_logIdx : sn_logIdx sn' = sn_logIdx sn + entry_len e;
  ee_prefix : ge_prefixHash e = sn_hash sn' /\ ge_logIndexAfter e = sn_logIdx sn';
  ee_range : is_noop e = false ->
    ge_logIdxLo e = sn_logIdx sn /\ ge_logIdxHi e = sn_logIdx sn';
  ee_undo : undo_ok (sn_store sn) (ge_undo e) (sn_store sn') }.

(** [snap s] describes the history before slot [s]; the slots from [lo] on
    are resident; no slot from [hi] on was ever executed. *)
Record log_inv_at (lo : Z) r (snap : Z -> snapshot) (hi : Z) : Prop := {
  li_bounds : 0 <= lo <= r_nextExpected r /\ r_nextExpected r <= hi;
  li_fit : hi + r_ringSize r < W64;
  li_ring : r_ringSize r = r_retainSlots r + 2 /\ 0 <= r_retainSlots r /\
    Zlength (r_hashRing r) = r_ringSize r /\ Zlength (r_logIdxRing r) = r_ringSize r;
  li_origin : sn_hash (snap 0) = fnvOffset64 /\ sn_logIdx (snap 0) = 0;
  li_top : r_prefixHash r = sn_hash (snap (r_nextExpected r)) /\
    r_nextLogIndex r = sn_logIdx (snap (r_nextExpected r)) /\
    store_equiv (r_State r) (sn_store (snap (r_nextExpected r)));
  li_mono : forall s s', 0 <= s <= s' -> s' <= r_nextExpected r ->
    0 <= sn_logIdx (snap s) <= sn_logIdx (snap s');
  li_exec : forall s, lo <= s < r_nextExpected r ->
    exists e, r_globalLog r !! s = Some e /\ entry_executed s e (snap s) (snap (s + 1));
  li_ringval : forall s, 0 <= s -> hi - r_ringSize r <= s < r_nextExpected r ->
    ring_at (r_hashRing r) (s mod r_ringSize r) = sn_hash (snap (s + 1)) /\
    ring_at (r_logIdxRing r) (s mod r_ringSize r) = sn_logIdx (snap (s + 1));
  li_owner : forall s e, r_globalLog r !! s = Some e -> ge_state e <> slotEmpty ->
    ge_ownerSet e = true;
  li_fresh : forall s e, r_nextExpected r <= s -> r_globalLog r !! s = Some e -> ge_undo e = [];
  li_dedup : forall k i, r_dedup r !! k = Some i ->
    exists s e rq, lo <= s < r_nextExpected r /\ r_globalLog r !! s = Some e /\
      is_noop e = false /\ rq ∈ ge_requests e /\ reqKey rq = k /\
      sn_logIdx (snap s) <= i < sn_logIdx (snap (s + 1)) }.

Definition log_inv r snap hi : Prop := log_inv_at (r_prunedBelow r) r snap hi.

Lemma undo_ok_proper st0 st0' us st st' :
  store_equiv st0 st0' -> store_equiv st st' -> undo_ok st0 us st -> undo_ok st0' us st'.
Proof.
  intros E0 E [H1 H2]. split.
  - intros u Hu. rewrite <- E0. auto.
  - intros k Hk. rewrite <- E0, <- E. auto.
Qed.

(** ** Reading prefixes *)

Lemma ringValid_spec lo r snap hi s :
  log_inv_at lo r snap hi -> 0 <= s < W64 ->
  ringValid r s = true <-> r_nextExpected r - r_ringSize r <= s < r_nextExpected r.
Proof.
  intros Hinv Hs. pose proof (li_bounds _ _ _ _ Hinv). pose proof (li_fit _ _ _ _ Hinv).
  pose proof (li_ring _ _ _ _ Hinv). unfold ringValid.
  destruct (Z.leb_spec (r_nextExpected r) s); [split; [done|lia]|].
  unfold add64. rewrite u64_small by word_lia. rewrite Z.leb_le. lia.
Qed.

(** The hash and log index read for an executed slot are the history's, when
    no later execution has reused its ring position, or when the ring no
    longer covers it and its entry is resident. *)
Lemma prefixHashAt_correct r snap hi s :
  log_inv r snap hi -> 0 <= s < r_nextExpected r ->
  hi - r_ringSize r <= s \/ r_prunedBelow r <= s < r_nextExpected r - r_ringSize r ->
  prefixHashAt r s = Some (sn_hash (snap (s + 1))) /\
  logIndexAfter r s = Some (sn_logIdx (snap (s + 1))).
Proof.
  intros Hinv Hs Hor. unfold prefixHashAt, logIndexAfter.
  pose proof (li_bounds _ _ _ _ Hinv). pose proof (li_fit _ _ _ _ Hinv).
  pose proof (li_ring _ _ _ _ Hinv).
  pose proof (ringValid_spec _ _ _ _ s Hinv ltac:(word_lia)) as Hv.
  destruct (ringValid r s).
  - pose proof (proj1 Hv eq_refl). destruct Hor as [Hh|[_ Hh]]; [|lia].
    destruct (li_ringval _ _ _ _ Hinv s) as [-> ->]; [lia..|done].
  - destruct Hor as [Hh|[Hp Hh]]; [exfalso|].
    { assert (false = true) by (apply Hv; lia). done. }
    destruct (li_exec _ _ _ _ Hinv s) as (e & He & Hex); [lia|].
    unfold resident_executed. rewrite He.
    rewrite (proj2 (Z.leb_le _ _)), (proj2 (Z.ltb_lt _ _)) by lia. cbn.
    destruct (ee_prefix _ _ _ _ Hex) as [-> ->]. done.
Qed.

(** ** Operations outside the executed range *)

Record same_core r r' : Prop := {
  sc_next : r_nextExpected r' = r_nextExpected r;
  sc_ringSize : r_ringSize r' = r_ringSize r;
  sc_retain : r_retainSlots r' = r_retainSlots r;
  sc_hashRing : r_hashRing r' = r_hashRing r;
  sc_logIdxRing : r_logIdxRing r' = r_logIdxRing r;
  sc_prefixHash : r_prefixHash r' = r_prefixHash r;
  sc_nextLogIndex : r_nextLogIndex r' = r_nextLogIndex r;
  sc_State : r_State r' = r_State r;
  sc_dedup : r_dedup r' = r_dedup r }.

(** an entry that is not executed: no undo records, and an owner once filled *)
Definition fresh_entry (e : globalEntry) : Prop :=
  ge_undo e = [] /\ (ge_state e <> slotEmpty -> ge_ownerSet e = true).

(** Entries outside [lo, next) may change, as long as they stay fresh. *)
Lemma log_inv_change lo r r' snap hi :
  log_inv_at lo r snap hi -> same_core r r' ->
  (forall s, lo <= s < r_nextExpected r -> r_globalLog r' !! s = r_globalLog r !! s) ->
  (forall s e, r_globalLog r' !! s = Some e -> r_globalLog r !! s <> Some e -> fresh_entry e) ->
  log_inv_at lo r' snap hi.
Proof.
  intros [] [] Hlog Hnew. split; rewrite ?sc_next0, ?sc_ringSize0, ?sc_retain0, ?sc_hashRing0,
    ?sc_logIdxRing0, ?sc_prefixHash0, ?sc_nextLogIndex0, ?sc_State0, ?sc_dedup0; try done.
  - intros s Hs. rewrite Hlog by done. auto.
  - intros s e He Hst. destruct (decide (r_globalLog r !! s = Some e)); [eauto|].
    by eapply Hnew.
  - intros s e Hs He. destruct (decide (r_globalLog r !! s = Some e)); [eauto|].
    by eapply Hnew.
  - intros k i Hk. destruct (li_dedup0 k i Hk) as (s & e & rq & Hs & He & Hrest).
    exists s, e, rq. rewrite Hlog by done. done.
Qed.
End inv.

(** ** Receiving and no-oping *)

Section receive.
Context {TM : Treemap Value} {TL : TreemapLaws TM}.
Implicit Types r : Replica TM.

(** [claimSlot] keeps every entry, and creates at most an empty one *)
Lemma claimSlot_spec r slot :
  let r' := (claimSlot r slot).1 in
  same_core r r' /\ r_prunedBelow r' = r_prunedBelow r /\
  (forall s, s <> slot -> r_globalLog r' !! s = r_globalLog r !! s) /\
  r_globalLog r' !! slot = Some (default emptyEntry (r_globalLog r !! slot)) /\
  (claimSlot r slot).2 = bool_decide (slotState_of r slot = slotEmpty).
Proof.
  unfold claimSlot, slotEntry, observeSlot, slotState_of.
  destruct (negb (r_haveMax r) || (r_maxSlotSeen r <? slot)); rsimpl;
    destruct (r_globalLog r !! slot) as [e|] eqn:Ee; cbn [fst snd]; rsimpl;
    (split; [split; by rsimpl|]); (split; [done|]); (split; [intros s Hs|split]);
    rewrite ?lookup_insert_ne, ?lookup_insert_eq by done; try done.
Qed.

Lemma claimSlot_taken r slot :
  slotState_of r slot <> slotEmpty ->
  claimSlot r slot = (observeSlot r slot, false).
Proof.
  unfold slotState_of, claimSlot, slotEntry. intros H.
  assert (r_globalLog (observeSlot r slot) = r_globalLog r) as E.
  { unfold observeSlot. destruct (_ || _); by rsimpl. }
  rewrite E. destruct (r_globalLog r !! slot); [|done]. by rewrite bool_decide_false.
Qed.

(** an executed, resident slot is not claimed *)
Lemma executed_filled lo r snap hi s :
  log_inv_at lo r snap hi -> lo <= s < r_nextExpected r -> slotState_of r s <> slotEmpty.
Proof.
  intros Hinv Hs. destruct (li_exec _ _ _ _ Hinv s Hs) as (e & He & Hex).
  unfold slotState_of. rewrite He. apply Hex.
Qed.

Lemma fresh_emptyEntry : fresh_entry emptyEntry.
Proof. done. Qed.

(** a received entry replaces an empty one *)
Lemma log_inv_claim lo r snap hi slot e b :
  log_inv_at lo r snap hi -> claimSlot r slot = (b, true) -> fresh_entry e ->
  forall r', same_core b r' -> r_globalLog r' = <[slot := e]> (r_globalLog b) ->
  log_inv_at lo r' snap hi.
Proof.
  intros Hinv Hc Hf r' Hcore Hlog.
  pose proof (claimSlot_spec r slot) as (Hcore0 & _ & Hother & Hslot & Hfree).
  rewrite Hc in *. cbn [fst snd] in *. symmetry in Hfree. apply bool_decide_eq_true in Hfree.
  assert (~ lo <= slot < r_nextExpected r) as Hout.
  { intros Hs. by apply (executed_filled _ _ _ _ _ Hinv Hs). }
  apply (log_inv_change lo r r' snap hi Hinv).
  - destruct Hcore, Hcore0. split; congruence.
  - intros s Hs. rewrite Hlog, lookup_insert_ne by (intros ->; done). apply Hother. by intros ->.
  - intros s e' He' Hne. rewrite Hlog in He'.
    apply lookup_insert_Some in He' as [[<- <-]|[Hns He']]; [done|].
    rewrite Hother in He' by done. done.
Qed.

Lemma log_inv_claimSlot lo r snap hi slot :
  log_inv_at lo r snap hi -> log_inv_at lo (claimSlot r slot).1 snap hi.
Proof.
  intros Hinv. pose proof (claimSlot_spec r slot) as (Hcore & _ & Hother & Hslot & _).
  apply (log_inv_change lo r _ snap hi Hinv Hcore).
  - intros s Hs. destruct (decide (s = slot)) as [->|Hne]; [|auto].
    rewrite Hslot. destruct (li_exec _ _ _ _ Hinv slot Hs) as (e & He & _). by rewrite He.
  - intros s e He Hne. destruct (decide (s = slot)) as [->|Hns].
    + rewrite Hslot in He. injection He as <-. destruct (r_globalLog r !! slot); [done|].
      apply fresh_emptyEntry.
    + rewrite Hother in He; done.
Qed.

Lemma recordBusReceived_inv lo r snap hi slot c q reqs :
  log_inv_at lo r snap hi -> log_inv_at lo (recordBusReceived r slot c q reqs).1 snap hi.
Proof.
  intros Hinv. unfold recordBusReceived. pose proof (log_inv_claimSlot lo r snap hi slot Hinv) as H1.
  destruct (claimSlot r slot) as [b free] eqn:Ec. destruct free; [|done]. cbn [fst].
  eapply (log_inv_claim lo r snap hi slot); [done..| | |].
  2:{ split; unfold setEntry; by rsimpl. }
  2:{ unfold setEntry. rsimpl. reflexivity. }
  by split.
Qed.

Lemma recordReceived_inv lo r snap hi slot c q op :
  log_inv_at lo r snap hi -> log_inv_at lo (recordReceived r slot c q op).1 snap hi.
Proof.
  intros Hinv. unfold recordReceived. pose proof (log_inv_claimSlot lo r snap hi slot Hinv) as H1.
  destruct (claimSlot r slot) as [b free] eqn:Ec. destruct free; [|done]. cbn [fst].
  eapply (log_inv_claim lo r snap hi slot); [done..| | |].
  2:{ split; unfold setEntry; by rsimpl. }
  2:{ unfold setEntry. rsimpl. reflexivity. }
  by split.
Qed.

Lemma storeRecovered_inv lo r snap hi slot c q p isBus :
  log_inv_at lo r snap hi -> log_inv_at lo (storeRecovered r slot c q p isBus).1 snap hi.
Proof.
  intros Hinv. unfold storeRecovered. destruct isBus; cbn [negb].
  - destruct (UnmarshalRequests p); [by apply recordBusReceived_inv|done].
  - by apply recordReceived_inv.
Qed.

Lemma setNoOp_executed r slot : executed r slot = true -> setNoOp r slot = (r, false).
Proof. unfold setNoOp. by intros ->. Qed.

Lemma setNoOp_log r slot :
  let r' := (setNoOp r slot).1 in
  same_core r r' /\ r_prunedBelow r' = r_prunedBelow r /\
  (forall s, s <> slot -> r_globalLog r' !! s = r_globalLog r !! s) /\
  (executed r slot = false -> exists e', r_globalLog r' !! slot = Some e' /\ 
     ge_state e' = slotNoOp /\
     ge_undo e' = ge_undo (default emptyEntry (r_globalLog r !! slot)) /\
     ((setNoOp r slot).2 = false -> r_globalLog r !! slot = Some e') /\
     ((setNoOp r slot).2 = true -> ge_ownerSet e' = true /\ ge_requests e' = [])).
Proof.
  unfold setNoOp. destruct (executed r slot) eqn:Eex.
  { split; [by split|]. done. }
  pose proof (claimSlot_spec r slot) as Hclaim. unfold claimSlot in Hclaim.
  destruct (slotEntry (observeSlot r slot) slot) as [r1 e] eqn:Ese. cbn [fst snd] in Hclaim.
  destruct Hclaim as (Hcore & Hpb & Hother & Hslot & _).
  assert (e = default emptyEntry (r_globalLog r !! slot)) as He.
  { assert (r_globalLog (observeSlot r slot) = r_globalLog r) as Eo.
    { unfold observeSlot. destruct (_ || _); by rsimpl. }
    unfold slotEntry in Ese. rewrite Eo in Ese.
    destruct (r_globalLog r !! slot); by injection Ese as _ <-. }
  rewrite <- He in Hslot |- *.
  destruct (bool_decide (ge_state e = slotNoOp)) eqn:En; cbn [fst snd].
  { apply bool_decide_eq_true in En. split; [done|]. split; [done|]. split; [done|].
    intros _. exists e. split; [done|]. split; [done|]. split; [done|]. split; [|done].
    intros _. unfold default in He. destruct (r_globalLog r !! slot); [by subst|]. by subst e. }
  destruct (entryOwner r1 slot e) as [r2 owner] eqn:Eo.
  pose proof (entryOwner_frame r1 slot e) as Hf. rewrite Eo in Hf. cbn [fst] in Hf.
  destruct Hf as (nn & cs & sm & Hr2). cbn [fst snd].
  unfold releaseEntryBytes, setEntry. rsimpl. rewrite lookup_insert_eq. rsimpl.
  split; [|split; [|split]].
  - destruct Hcore. split; rsimpl; rewrite Hr2; rsimpl; done.
  - rewrite Hr2. by rsimpl.
  - intros s Hs. rewrite !lookup_insert_ne by done. rewrite Hr2. rsimpl. auto.
  - intros _. rewrite lookup_insert_eq. eexists. split; [reflexivity|]. rsimpl. done.
Qed.

Lemma setNoOp_inv lo r snap hi slot :
  log_inv_at lo r snap hi -> log_inv_at lo (setNoOp r slot).1 snap hi.
Proof.
  intros Hinv. destruct (executed r slot) eqn:Eex.
  { by rewrite setNoOp_executed. }
  pose proof (setNoOp_log r slot) as (Hcore & _ & Hother & Hslot).
  specialize (Hslot Eex). destruct Hslot as (e' & He' & Hst & Hu & Hold & Hnew).
  apply Z.ltb_ge in Eex. apply (log_inv_change lo r _ snap hi Hinv Hcore).
  - intros s Hs. apply Hother. lia.
  - intros s e He Hne. destruct (decide (s = slot)) as [->|Hns].
    + rewrite He' in He. injection He as <-. split.
      * rewrite Hu. destruct (r_globalLog r !! slot) as [e0|] eqn:E0; [|done].
        by apply (li_fresh _ _ _ _ Hinv slot e0).
      * intros _. destruct (setNoOp r slot).2; [by apply Hnew|]. by destruct Hne, Hold.
    + rewrite Hother in He; done.
Qed.
End receive.

(** ** Executing a slot *)

Section execute.
Context {TM : Treemap Value} {TL : TreemapLaws TM}.
Implicit Types r : Replica TM.

(** the history extended by the slot executed *)
Definition snap_extend (snap : Z -> snapshot) (n : Z) (sn : snapshot) : Z -> snapshot :=
  fun s => if s =? n then sn else snap s.

(** room for one more slot: no counter wraps *)
Definition room_for r (hi : Z) (e : globalEntry) : Prop :=
  Z.max hi (r_nextExpected r + 1) + r_ringSize r < W64 /\
  r_nextLogIndex r + entry_len e < W64.

Lemma slot_frame_core r r' slot e' n d st replies h :
  slot_frame r r' slot e' n d st replies h ->
  r_globalLog r' = <[slot := e']> (r_globalLog r) /\ r_nextLogIndex r' = n /\
  r_dedup r' = d /\ r_State r' = st /\ r_nextExpected r' = slot + 1 /\ r_prefixHash r' = h /\
  r_hashRing r' = <[slot_ring_index r slot := h]> (r_hashRing r) /\
  r_logIdxRing r' = <[slot_ring_index r slot := n]> (r_logIdxRing r) /\
  r_ringSize r' = r_ringSize r /\ r_retainSlots r' = r_retainSlots r /\
  r_prunedBelow r' = r_prunedBelow r /\
  r_pendingReplies r' = r_pendingReplies r ++ replies /\ view r' = view r /\
  r_status r' = r_status r /\ r_haveStable r' = r_haveStable r /\
  r_stableSlot r' = r_stableSlot r.
Proof.
  intros (a & b & c & du & ->). split_and!; reflexivity.
Qed.

Lemma entry_len_nonneg e : 0 <= entry_len e.
Proof. unfold entry_len. destruct (is_noop e); lia. Qed.

Lemma exec_entry_dedup (li : Z) (e : globalEntry) (d : gmap (Z * Z) Z) (st : tm_carrier TM) d' st' ans k i :
  exec_entry li e d st = (d', st', ans) -> d' !! k = Some i ->
  d !! k = Some i \/
  (is_noop e = false /\ exists rq, rq ∈ ge_requests e /\ reqKey rq = k /\
     li <= i < li + entry_len e).
Proof.
  unfold exec_entry, entry_len. destruct (is_noop e).
  - intros [= <- <- <-]. auto.
  - intros E Hk. destruct (exec_requests_dedup _ _ _ _ _ _ _ _ _ E Hk) as [|[_ H]]; auto.
Qed.

Lemma ring_insert (l : list Z) size slot v s :
  0 < size -> Zlength l = size -> 0 <= slot -> 0 <= s ->
  ring_at (<[Z.to_nat (slot mod size) := v]> l) (s mod size) =
    if decide (s mod size = slot mod size) then v else ring_at l (s mod size).
Proof.
  intros Hs Hl H0 H0'. unfold ring_at.
  pose proof (Z.mod_pos_bound slot size Hs). pose proof (Z.mod_pos_bound s size Hs).
  case_decide as E.
  - rewrite E, list_lookup_insert_eq by lia. done.
  - rewrite list_lookup_insert_ne by lia. done.
Qed.

Lemma mod_same_window a b n : 0 < n -> a - n < b < a -> b mod n <> a mod n.
Proof.
  intros Hn Hab E. pose proof (Z.div_mod a n ltac:(lia)). pose proof (Z.div_mod b n ltac:(lia)).
  assert (a - b = n * (a / n - b / n)) as Hd by nia.
  assert (0 < a / n - b / n) by nia. nia.
Qed.

Lemma snap_extend_old snap n sn s : s <> n -> snap_extend snap n sn s = snap s.
Proof. intros H. unfold snap_extend. by rewrite (proj2 (Z.eqb_neq _ _)). Qed.
Lemma snap_extend_new snap n sn : snap_extend snap n sn n = sn.
Proof. unfold snap_extend. by rewrite Z.eqb_refl. Qed.

Lemma snap_extend_mono snap slot sn n0 :
  (forall s s', 0 <= s <= s' -> s' <= slot -> 0 <= sn_logIdx (snap s) <= sn_logIdx (snap s')) ->
  0 <= slot -> n0 = sn_logIdx (snap slot) -> n0 <= sn_logIdx sn ->
  forall s s', 0 <= s <= s' -> s' <= slot + 1 ->
    0 <= sn_logIdx (snap_extend snap (slot + 1) sn s) <=
         sn_logIdx (snap_extend snap (slot + 1) sn s').
Proof.
  intros Hmono H0 -> Hn s s' Hs Hs'. destruct (decide (s' = slot + 1)) as [->|Hne].
  - rewrite snap_extend_new. destruct (decide (s = slot + 1)) as [->|].
    + rewrite snap_extend_new. specialize (Hmono slot slot ltac:(lia) ltac:(lia)). lia.
    + rewrite snap_extend_old by done. specialize (Hmono s slot ltac:(lia) ltac:(lia)). lia.
  - rewrite !snap_extend_old by lia. apply Hmono; lia.
Qed.

(** the invariant of the state an executed slot leaves *)
Lemma log_inv_extend lo r r' snap hi e e' d sn slot replies :
  log_inv_at lo r snap hi -> slot = r_nextExpected r -> r_globalLog r !! slot = Some e ->
  Z.max hi (slot + 1) + r_ringSize r < W64 ->
  slot_frame r r' slot e' (sn_logIdx sn) d (sn_store sn) replies (sn_hash sn) ->
  r_nextLogIndex r <= sn_logIdx sn ->
  entry_executed slot e' (snap slot) sn -> ge_ownerSet e' = true ->
  (forall k i, d !! k = Some i -> r_dedup r !! k = Some i \/
     (is_noop e' = false /\ exists rq, rq ∈ ge_requests e' /\ reqKey rq = k /\
        r_nextLogIndex r <= i < sn_logIdx sn)) ->
  log_inv_at lo r' (snap_extend snap (slot + 1) sn) (Z.max hi (slot + 1)).
Proof.
  intros Hinv Hslot He Hroom Hframe Hn Hex Ho Hded.
  pose proof (li_bounds _ _ _ _ Hinv) as Hb.
  pose proof (li_ring _ _ _ _ Hinv) as (Hrs & Hret & Hlh & Hll).
  pose proof (li_top _ _ _ _ Hinv) as (Htop & Htopi & Htops).
  rewrite <- Hslot in Hb, Htopi.
  pose proof (slot_frame_core _ _ _ _ _ _ _ _ _ Hframe)
    as (El & En & Ed & Es & Ex & Eh & Ehr & Elr & Ers & Ert & _).
  split; rewrite ?El, ?En, ?Ed, ?Es, ?Ex, ?Eh, ?Ehr, ?Elr, ?Ers, ?Ert.
  - lia.
  - lia.
  - rewrite !length_insert. lia.
  - rewrite snap_extend_old by lia. apply Hinv.
  - by rewrite snap_extend_new.
  - apply (snap_extend_mono _ _ _ (r_nextLogIndex r)); [|lia|done|done].
    rewrite Hslot. apply Hinv.
  - intros s Hs. destruct (decide (s = slot)) as [->|Hne].
    + exists e'. rewrite lookup_insert_eq. split; [done|].
      by rewrite snap_extend_new, snap_extend_old by lia.
    + rewrite lookup_insert_ne by done. rewrite !snap_extend_old by lia.
      apply (li_exec _ _ _ _ Hinv). lia.
  - intros s H0 Hs. unfold slot_ring_index.
    rewrite !ring_insert by lia. destruct (decide (s = slot)) as [->|Hne].
    + rewrite !decide_True by done. by rewrite snap_extend_new.
    + rewrite !decide_False by (apply mod_same_window; lia).
      rewrite snap_extend_old by lia. apply (li_ringval _ _ _ _ Hinv); lia.
  - intros s e1 [[<- <-]|[Hne He1]]%lookup_insert_Some Hs1; [done|].
    by eapply (li_owner _ _ _ _ Hinv).
  - intros s e1 Hs [[<- <-]|[Hne He1]]%lookup_insert_Some; [lia|].
    eapply (li_fresh _ _ _ _ Hinv); [|done]. lia.
  - intros k i Hk. destruct (Hded k i Hk) as [Hk'|(Hno & rq & Hrq & Hkey & Hi)].
    + destruct (li_dedup _ _ _ _ Hinv k i Hk') as (s & e1 & rq & Hs & He1 & Hrest).
      exists s, e1, rq. split; [lia|]. rewrite lookup_insert_ne by lia.
      by rewrite !snap_extend_old by lia.
    + exists slot, e', rq. split; [lia|]. rewrite lookup_insert_eq. split; [done|].
      split; [done|]. split; [done|]. split; [done|].
      rewrite snap_extend_new, snap_extend_old by lia. lia.
Qed.

Lemma executed_entry_ok slot e lo hi h n us sz sn st :
  ge_state e <> slotEmpty ->
  h = foldSlot (sn_hash sn) slot (ge_state e) (ge_clientId e) (ge_reqId e) ->
  n = sn_logIdx sn + entry_len e ->
  (is_noop e = false -> lo = sn_logIdx sn /\ hi = n) ->
  undo_ok (sn_store sn) us st ->
  entry_executed slot (executed_entry e lo hi h n us sz) sn (mksnapshot h n st).
Proof.
  intros Hst Hh Hn Hr Hu. unfold executed_entry.
  split; unfold entry_len, is_noop in *; rsimpl; cbn [sn_hash sn_logIdx sn_store]; done.
Qed.

Lemma advance_one_inv lo r snap hi e :
  log_inv_at lo r snap hi ->
  r_globalLog r !! r_nextExpected r = Some e -> ge_state e <> slotEmpty -> room_for r hi e ->
  exists r' sn,
    advanceNextExpectedOne r = (r', true) /\
    log_inv_at lo r' (snap_extend snap (r_nextExpected r + 1) sn)
      (Z.max hi (r_nextExpected r + 1)) /\
    let '(d, st, ans) := exec_entry (r_nextLogIndex r) e (r_dedup r) (r_State r) in
    (exists e', ge_state e' = ge_state e /\ ge_requests e' = ge_requests e /\
      slot_frame r r' (r_nextExpected r) e' (sn_logIdx sn) d (sn_store sn)
        (entry_replies (r_nextExpected r) (view r) e ans) (sn_hash sn)) /\
    sn_logIdx sn = r_nextLogIndex r + entry_len e /\ sn_store sn = st /\
    sn_hash sn = foldSlot (r_prefixHash r) (r_nextExpected r) (ge_state e) (ge_clientId e) (ge_reqId e).
Proof.
  intros Hinv He Hst [Hroom Hroom'].
  pose proof (li_bounds _ _ _ _ Hinv) as Hb. pose proof (li_fit _ _ _ _ Hinv) as Hfit.
  pose proof (li_ring _ _ _ _ Hinv) as (Hrs & Hret & _).
  pose proof (li_top _ _ _ _ Hinv) as (Htop & Htopi & Htops).
  pose proof (li_mono _ _ _ _ Hinv (r_nextExpected r) (r_nextExpected r) ltac:(lia) ltac:(lia)).
  pose proof (entry_len_nonneg e) as Hlen.
  pose proof (li_owner _ _ _ _ Hinv _ e He Hst) as Ho.
  pose proof (advanceNextExpectedOne_spec r e He Hst Ho) as Hadv.
  rewrite (li_fresh _ _ _ _ Hinv (r_nextExpected r) e ltac:(lia) He) in Hadv.
  specialize (Hadv (undo_ok_nil _) ltac:(lia) ltac:(lia) ltac:(lia) Hroom').
  pose proof (exec_entry_dedup (r_nextLogIndex r) e (r_dedup r) (r_State r)) as Hded.
  destruct (exec_entry _ e _ _) as [[d st] ans]. specialize (Hded d st ans).
  destruct Hadv as (r' & lo' & hi' & us & sz & Eadv & Hframe & Hrange & Hundo).
  remember (foldSlot (r_prefixHash r) (r_nextExpected r) (ge_state e) (ge_clientId e)
    (ge_reqId e)) as h eqn:Hh.
  exists r', (mksnapshot h (r_nextLogIndex r + entry_len e) st). split; [done|]. split.
  - eapply (log_inv_extend lo r r' snap hi e); [done..|exact Hframe| | | |].
    + cbn [sn_logIdx]. lia.
    + apply executed_entry_ok; [done|by rewrite <- Htop|by rewrite <- Htopi| |].
      * intros Hno. rewrite <- Htopi. auto.
      * by eapply undo_ok_proper, Hundo.
    + unfold executed_entry. by rsimpl.
    + intros k i Hk. unfold executed_entry, is_noop. rsimpl. by apply Hded.
  - split; [|done]. eexists. split; [|split; [|exact Hframe]]; unfold executed_entry; by rsimpl.
Qed.
End execute.

(** ** Pruning *)

Section prune.
Context {TM : Treemap Value} {TL : TreemapLaws TM}.
Implicit Types r : Replica TM.

Definition in_range (e : globalEntry) (li : Z) : bool :=
  (ge_logIdxLo e <=? li) && (li <? ge_logIdxHi e).

(** the fields the invariant reads, but for the log and the dedup table *)
Definition same_history r r' : Prop :=
  r_nextExpected r' = r_nextExpected r /\ r_ringSize r' = r_ringSize r /\
  r_retainSlots r' = r_retainSlots r /\ r_hashRing r' = r_hashRing r /\
  r_logIdxRing r' = r_logIdxRing r /\ r_prefixHash r' = r_prefixHash r /\
  r_nextLogIndex r' = r_nextLogIndex r.

Lemma releaseEntryBytes_spec r slot :
  let r' := releaseEntryBytes r slot in
  same_history r r' /\ r_dedup r' = r_dedup r /\ r_State r' = r_State r /\
  r_prunedBelow r' = r_prunedBelow r /\ r_haveStable r' = r_haveStable r /\
  r_stableSlot r' = r_stableSlot r /\ r_retainBytes r' = r_retainBytes r /\
  r_status r' = r_status r /\
  (forall s, s <> slot -> r_globalLog r' !! s = r_globalLog r !! s).
Proof.
  cbv zeta. unfold releaseEntryBytes, same_history.
  destruct (r_globalLog r !! slot) as [e|]; [|done]. rsimpl.
  split; [done|]. do 7 (split; [done|]). intros s Hs. by rewrite lookup_insert_ne.
Qed.

Lemma pruneSlot_spec r slot :
  let r' := pruneSlot r slot in
  same_history r r' /\ r_State r' = r_State r /\
  r_prunedBelow r' = r_prunedBelow r /\ r_haveStable r' = r_haveStable r /\
  r_stableSlot r' = r_stableSlot r /\ r_retainBytes r' = r_retainBytes r /\
  r_status r' = r_status r /\
  r_globalLog r' !! slot = None /\
  (forall s, s <> slot -> r_globalLog r' !! s = r_globalLog r !! s) /\
  r_dedup r' = match r_globalLog r !! slot with
               | Some e => drop_keys (in_range e) (ge_requests e) (r_dedup r)
               | None => r_dedup r
               end.
Proof.
  cbv zeta. unfold pruneSlot, dropSlot.
  set (r1 := pruneDedupForSlot r slot).
  assert (same_history r r1 /\ r_State r1 = r_State r /\ r_prunedBelow r1 = r_prunedBelow r /\
    r_haveStable r1 = r_haveStable r /\ r_stableSlot r1 = r_stableSlot r /\
    r_retainBytes r1 = r_retainBytes r /\ r_status r1 = r_status r /\
    r_globalLog r1 = r_globalLog r /\
    r_dedup r1 = match r_globalLog r !! slot with
                 | Some e => drop_keys (in_range e) (ge_requests e) (r_dedup r)
                 | None => r_dedup r
                 end) as (H1 & H2 & H3 & H4 & H5 & H6 & H6' & H7 & H8).
  { unfold r1, pruneDedupForSlot, same_history.
    destruct (r_globalLog r !! slot); rsimpl; done. }
  pose proof (releaseEntryBytes_spec r1 slot) as (G1 & G2 & G3 & G4 & G5 & G6 & G7 & G8 & G9).
  set (r2 := releaseEntryBytes r1 slot) in *. unfold same_history in *. rsimpl.
  split; [intuition congruence|]. do 6 (split; [congruence|]).
  split; [apply lookup_delete_eq|]. split; [|congruence].
  intros s Hs. rewrite lookup_delete_ne by done. rewrite G9 by done. by rewrite H7.
Qed.

Lemma pruneSlot_inv lo r snap hi :
  log_inv_at lo r snap hi -> lo < r_nextExpected r -> log_inv_at (lo + 1) (pruneSlot r lo) snap hi.
Proof.
  intros Hinv Hlt. pose proof (pruneSlot_spec r lo) as
    ((E1 & E2 & E3 & E4 & E5 & E6 & E7) & Es & _ & _ & _ & _ & _ & Enone & Eother & Ed).
  destruct (li_exec _ _ _ _ Hinv lo) as (e0 & He0 & Hex0).
  { pose proof (li_bounds _ _ _ _ Hinv). lia. }
  rewrite He0 in Ed. pose proof Hinv as [].
  split; rewrite ?E1, ?E2, ?E3, ?E4, ?E5, ?E6, ?E7, ?Es; try done; try lia.
  - intros s Hs. rewrite Eother by lia. apply li_exec0. lia.
  - intros s e He. destruct (decide (s = lo)) as [->|]; [congruence|].
    rewrite Eother in He by done. eauto.
  - intros s e Hs He. rewrite Eother in He by lia. eauto.
  - intros k i Hk. rewrite Ed in Hk. apply drop_keys_lookup in Hk as [Hk Hno].
    destruct (li_dedup0 k i Hk) as (s & e & rq & Hs & He & Hnn & Hrq & Hkey & Hi).
    destruct (decide (s = lo)) as [->|Hne].
    + exfalso. apply Hno. rewrite He0 in He. injection He as <-. split; [|eauto].
      destruct (ee_range _ _ _ _ Hex0 Hnn) as [E1' E2']. unfold in_range. rewrite E1', E2'. lia.
    + exists s, e, rq. rewrite Eother by done. split; [lia|done].
Qed.

Lemma pruneSlots_inv n lo r snap hi :
  log_inv_at lo r snap hi -> lo + Z.of_nat n <= r_nextExpected r ->
  log_inv_at (lo + Z.of_nat n) (pruneSlots n r lo) snap hi /\
  r_prunedBelow (pruneSlots n r lo) = r_prunedBelow r /\
  r_nextExpected (pruneSlots n r lo) = r_nextExpected r.
Proof.
  revert lo r. induction n as [|n IH]; intros lo r Hinv Hlt; cbn [pruneSlots].
  { by rewrite Z.add_0_r. }
  pose proof (pruneSlot_spec r lo) as ((E1 & _) & _ & Epb & _).
  pose proof (pruneSlot_inv lo r snap hi Hinv ltac:(lia)) as Hinv'.
  destruct (IH (lo + 1) (pruneSlot r lo) Hinv' ltac:(lia)) as (H1 & H2 & H3).
  replace (lo + Z.of_nat (S n)) with (lo + 1 + Z.of_nat n) by lia.
  split; [done|]. split; congruence.
Qed.

Lemma prunedBelow_inv lo r snap hi v :
  log_inv_at lo r snap hi -> log_inv_at lo (r <| r_prunedBelow := v |>) snap hi.
Proof. intros []. split; by rsimpl. Qed.

Lemma prune_bytes_inv fuel r snap hi limit :
  log_inv r snap hi -> limit <= r_nextExpected r ->
  log_inv (prune_bytes fuel r limit) snap hi.
Proof.
  revert r. induction fuel as [|fuel IH]; intros r Hinv Hle; cbn [prune_bytes]; [done|].
  destruct (_ && _) eqn:E; [|done].
  assert (r_prunedBelow r < limit) as Hlt by lia. clear E.
  pose proof (pruneSlot_spec r (r_prunedBelow r)) as ((E1 & _) & _ & Epb & _).
  pose proof (li_bounds _ _ _ _ Hinv). pose proof (li_fit _ _ _ _ Hinv).
  pose proof (li_ring _ _ _ _ Hinv).
  apply IH; [|by rsimpl; rewrite E1].
  unfold log_inv. rsimpl. rewrite Epb. unfold add64. rewrite u64_small by word_lia.
  apply prunedBelow_inv, pruneSlot_inv; [done|lia].
Qed.

Lemma prune_bounds r : prune_limit r <= r_nextExpected r.
Proof. unfold prune_limit. destruct (r_haveStable r), (Z.ltb_spec (r_stableSlot r) (r_nextExpected r)); cbn; lia. Qed.

Lemma prune_target_bound r : 0 <= prune_limit r -> prune_target r <= prune_limit r.
Proof. unfold prune_target. intros H. destruct (Z.ltb_spec (prune_limit r)
  (if r_retainSlots r <? r_nextExpected r then sub64 (r_nextExpected r) (r_retainSlots r) else 0)); lia. Qed.

Lemma pruneCommitted_inv r snap hi :
  log_inv r snap hi -> 0 <= prune_limit r -> log_inv (pruneCommitted r) snap hi.
Proof.
  intros Hinv H0. unfold pruneCommitted. cbv zeta.
  pose proof (prune_bounds r) as Hpb. pose proof (prune_target_bound r H0) as Htb.
  set (target := prune_target r) in *. set (limit := prune_limit r) in *.
  pose proof (li_bounds _ _ _ _ Hinv) as Hb.
  destruct (decide (r_prunedBelow r <= target)) as [Hle|Hgt].
  - destruct (pruneSlots_inv (Z.to_nat (target - r_prunedBelow r)) (r_prunedBelow r) r snap hi Hinv)
      as (H1 & H2 & H3); [lia|].
    replace (r_prunedBelow r + Z.of_nat (Z.to_nat (target - r_prunedBelow r))) with target in H1 by lia.
    set (r1 := pruneSlots _ _ _) in *. rewrite H2.
    destruct (Z.ltb_spec (r_prunedBelow r) target) as [Hlt|Hge].
    + apply prune_bytes_inv; [|rsimpl; lia]. unfold log_inv. rsimpl. by apply prunedBelow_inv.
    + apply prune_bytes_inv; [|lia]. unfold log_inv. rewrite H2.
      by replace (r_prunedBelow r) with target by lia.
  - replace (Z.to_nat (target - r_prunedBelow r)) with 0%nat by lia. cbn [pruneSlots].
    rewrite (proj2 (Z.ltb_ge _ _)) by lia. by apply prune_bytes_inv.
Qed.
(** What pruning below [bound] leaves alone: everything but old entries, their
    owners' metadata and their requests' keys. *)
Record trimmed (bound : Z) r r' : Prop := {
  tr_history : same_history r r';
  tr_State : r_State r' = r_State r;
  tr_log : forall s, bound <= s -> r_globalLog r' !! s = r_globalLog r !! s;
  tr_dedup : forall k i, r_dedup r' !! k = Some i -> r_dedup r !! k = Some i;
  tr_stable : r_haveStable r' = r_haveStable r /\ r_stableSlot r' = r_stableSlot r;
  tr_retain : r_retainBytes r' = r_retainBytes r }.

Lemma trimmed_refl bound r : trimmed bound r r.
Proof. by repeat split. Qed.

Lemma trimmed_trans bound r1 r2 r3 : trimmed bound r1 r2 -> trimmed bound r2 r3 -> trimmed bound r1 r3.
Proof.
  intros [H1 S1 L1 D1 [T1 T1'] R1] [H2 S2 L2 D2 [T2 T2'] R2]. split; [|congruence| |auto|split; congruence|congruence].
  - unfold same_history in *. destruct_and!. split_and!; congruence.
  - intros s Hs. rewrite L2 by done. auto.
Qed.

Lemma trimmed_prunedBelow bound r r' v :
  trimmed bound r r' -> trimmed bound r (r' <| r_prunedBelow := v |>).
Proof. intros []. by split; rsimpl. Qed.

Lemma trimmed_slot bound r slot : slot < bound -> trimmed bound r (pruneSlot r slot).
Proof.
  intros Hlt. pose proof (pruneSlot_spec r slot)
    as (Hh & Hs & _ & Hhs & Hss & Hrb & _ & _ & Hother & Hd).
  split; [done|done| | |done|done].
  - intros s Hs'. apply Hother. lia.
  - intros k i. rewrite Hd. destruct (r_globalLog r !! slot); [|done].
    by intros [? _]%drop_keys_lookup.
Qed.

Lemma trimmed_slots bound n r s : s + Z.of_nat n <= bound -> trimmed bound r (pruneSlots n r s).
Proof.
  revert r s. induction n as [|n IH]; intros r s Hle; cbn [pruneSlots]; [apply trimmed_refl|].
  eapply trimmed_trans; [apply (trimmed_slot _ _ s); lia|]. apply IH. lia.
Qed.

(** the byte budget is met, or nothing prunable is left *)
Definition within_budget r (limit : Z) : Prop :=
  r_retainBytes r = 0 \/ r_residentBytes r <= r_retainBytes r \/ limit <= r_prunedBelow r.

Lemma prune_bytes_spec fuel r limit :
  0 <= r_prunedBelow r -> limit < W64 -> limit - r_prunedBelow r <= Z.of_nat fuel ->
  0 <= r_retainBytes r ->
  let r' := prune_bytes fuel r limit in
  trimmed limit r r' /\ within_budget r' limit /\
  r_prunedBelow r <= r_prunedBelow r' <= Z.max (r_prunedBelow r) limit.
Proof.
  revert r. induction fuel as [|fuel IH]; intros r H0 Hl Hf Hrb; cbn [prune_bytes]; cbv zeta.
  { split; [apply trimmed_refl|]. split; [right; right; lia|lia]. }
  destruct (_ && _) eqn:E.
  2:{ split; [apply trimmed_refl|]. split; [|lia]. unfold within_budget. lia. }
  assert (r_prunedBelow r < limit) as Hlt by lia.
  set (r1 := (pruneSlot r (r_prunedBelow r)) <| r_prunedBelow ::= fun n => add64 n 1 |>).
  assert (trimmed limit r r1) as Htr1 by (by apply trimmed_prunedBelow, trimmed_slot).
  assert (r_prunedBelow r1 = r_prunedBelow r + 1) as Epb.
  { unfold r1. rsimpl. pose proof (pruneSlot_spec r (r_prunedBelow r)) as (_ & _ & -> & _).
    unfold add64. apply u64_small. word_lia. }
  destruct (IH r1) as (Htr & Hb & Hpb); [lia|lia|lia|by rewrite (tr_retain _ _ _ Htr1)|].
  split; [by eapply trimmed_trans|]. split; [done|lia].
Qed.

Lemma pruneSlots_prunedBelow n r s : r_prunedBelow (pruneSlots n r s) = r_prunedBelow r.
Proof.
  revert r s. induction n as [|n IH]; intros r s; cbn [pruneSlots]; [done|].
  rewrite IH. apply pruneSlot_spec.
Qed.

Lemma pruneCommitted_spec r :
  0 <= r_prunedBelow r -> 0 <= prune_limit r < W64 -> 0 <= r_retainBytes r ->
  let r' := pruneCommitted r in
  trimmed (prune_limit r) r r' /\ within_budget r' (prune_limit r) /\
  r_prunedBelow r <= r_prunedBelow r' <= Z.max (r_prunedBelow r) (prune_limit r).
Proof.
  intros H0 Hlim Hrb. unfold pruneCommitted. cbv zeta.
  pose proof (prune_target_bound r ltac:(lia)) as Htb.
  set (target := prune_target r) in *. set (limit := prune_limit r) in *.
  set (n := Z.to_nat (target - r_prunedBelow r)).
  pose proof (pruneSlots_prunedBelow n r (r_prunedBelow r)) as Epb.
  assert (trimmed limit r (pruneSlots n r (r_prunedBelow r))) as Htr.
  { destruct (decide (r_prunedBelow r <= target)); [apply trimmed_slots; lia|].
    unfold n. replace (Z.to_nat _) with 0%nat by lia. apply trimmed_refl. }
  set (r1 := pruneSlots n r (r_prunedBelow r)) in *. rewrite Epb.
  set (r2 := if r_prunedBelow r <? target then r1 <| r_prunedBelow := target |> else r1).
  assert (trimmed limit r r2 /\ r_prunedBelow r <= r_prunedBelow r2 <= Z.max (r_prunedBelow r) limit)
    as (Htr2 & Hpb2).
  { unfold r2. destruct (Z.ltb_spec (r_prunedBelow r) target); rsimpl.
    - split; [by apply trimmed_prunedBelow|lia].
    - split; [done|lia]. }
  destruct (prune_bytes_spec (Z.to_nat (limit - r_prunedBelow r2)) r2 limit) as (Htr3 & Hb & Hpb3);
    [lia|lia|lia|by rewrite (tr_retain _ _ _ Htr2)|].
  split; [by eapply trimmed_trans|]. split; [done|lia].
Qed.
End prune.

(** ** Rewinding *)

Section rewind.
Context {TM : Treemap Value} {TL : TreemapLaws TM}.
Implicit Types r : Replica TM.

Definition lower r (n : Z) (sn : snapshot) : Replica TM :=
  r <| r_nextExpected := n |> <| r_prefixHash := sn_hash sn |>
    <| r_nextLogIndex := sn_logIdx sn |>.

Lemma rewind_one_spec logIdx r slot e :
  r_globalLog r !! slot = Some e ->
  exists sz resident,
    rewind_one logIdx r slot =
      r <| r_State ::= undo_all (ge_undo e) |>
        <| r_residentBytes := resident |>
        <| r_globalLog ::= <[slot := e <| ge_sizeBytes := sz |> <| ge_undo := [] |>]> |>
        <| r_dedup ::= drop_keys (fun li => logIdx <=? li) (ge_requests e) |>.
Proof.
  intros He. unfold rewind_one, undoWrites. rewrite He. cbv zeta. eexists _, _.
  unfold drop_keys. replica_eq.
Qed.

Lemma rewind_one_lower logIdx r slot n sn :
  rewind_one logIdx (lower r n sn) slot = lower (rewind_one logIdx r slot) n sn.
Proof.
  unfold rewind_one, undoWrites, lower. rsimpl. destruct (r_globalLog r !! slot); [|done].
  cbv zeta. replica_eq.
Qed.

Lemma lower_lower r n sn n' sn' : lower (lower r n sn) n' sn' = lower r n' sn'.
Proof. unfold lower. replica_eq. Qed.

Lemma lower_self r :
  r <| r_nextExpected := r_nextExpected r |> <| r_prefixHash := r_prefixHash r |>
    <| r_nextLogIndex := r_nextLogIndex r |> = r.
Proof. replica_eq. Qed.

Lemma rewind_down_lower m target logIdx r n sn :
  rewind_down m target logIdx (lower r n sn) = lower (rewind_down m target logIdx r) n sn.
Proof.
  revert r. induction m as [|m IH]; intros r; cbn [rewind_down]; [done|].
  by rewrite rewind_one_lower, IH.
Qed.

(** undoing the last executed slot *)
Lemma log_inv_shrink lo r r' snap hi s e e' logIdx :
  log_inv_at lo r snap hi -> r_nextExpected r = s + 1 -> lo <= s ->
  logIdx <= sn_logIdx (snap s) ->
  r_globalLog r !! s = Some e ->
  r_globalLog r' = <[s := e']> (r_globalLog r) -> ge_undo e' = [] ->
  ge_state e' = ge_state e -> ge_ownerSet e' = ge_ownerSet e ->
  r_dedup r' = drop_keys (fun li => logIdx <=? li) (ge_requests e) (r_dedup r) ->
  r_State r' = undo_all (ge_undo e) (r_State r) ->
  r_nextExpected r' = s -> r_prefixHash r' = sn_hash (snap s) ->
  r_nextLogIndex r' = sn_logIdx (snap s) ->
  r_ringSize r' = r_ringSize r -> r_retainSlots r' = r_retainSlots r ->
  r_hashRing r' = r_hashRing r -> r_logIdxRing r' = r_logIdxRing r ->
  log_inv_at lo r' snap hi.
Proof.
  intros Hinv Hn Hlo Hli He El Eu Est Eow Ed Es Ex Eh En Ers Ert Ehr Elr.
  destruct (li_exec _ _ _ _ Hinv s) as (e0 & He0 & Hex); [lia|].
  assert (e0 = e) as -> by congruence.
  pose proof (li_top _ _ _ _ Hinv) as (_ & _ & Hstore). rewrite Hn in Hstore.
  pose proof (li_bounds _ _ _ _ Hinv). pose proof (li_fit _ _ _ _ Hinv).
  split; rewrite ?El, ?En, ?Ed, ?Es, ?Ex, ?Eh, ?Ehr, ?Elr, ?Ers, ?Ert.
  - lia.
  - lia.
  - apply Hinv.
  - apply Hinv.
  - split; [done|]. split; [done|]. apply undo_all_equiv.
    eapply undo_ok_proper, Hex; [done|by symmetry].
  - intros s1 s2 H1 H2. apply (li_mono _ _ _ _ Hinv); lia.
  - intros s1 Hs1. rewrite lookup_insert_ne by lia. apply (li_exec _ _ _ _ Hinv). lia.
  - intros s1 H1 H2. apply (li_ringval _ _ _ _ Hinv); lia.
  - intros s1 e1 [[<- <-]|[_ H1]]%lookup_insert_Some.
    + rewrite Est, Eow. by apply (li_owner _ _ _ _ Hinv s).
    + by apply (li_owner _ _ _ _ Hinv s1).
  - intros s1 e1 Hs1 [[<- <-]|[Hne H1]]%lookup_insert_Some; [done|].
    eapply (li_fresh _ _ _ _ Hinv); [|done]. lia.
  - intros k i [Hk Hno]%drop_keys_lookup.
    destruct (li_dedup _ _ _ _ Hinv k i Hk) as (s1 & e1 & rq & Hs1 & He1 & Hrest).
    destruct (decide (s1 = s)) as [->|Hne].
    + exfalso. rewrite He in He1. injection He1 as <-. destruct Hrest as (_ & Hrq & Hkey & Hi).
      apply Hno. split; [lia|eauto].
    + exists s1, e1, rq. rewrite lookup_insert_ne by done. split; [lia|done].
Qed.

Lemma rewind_step_inv lo r snap hi logIdx s :
  log_inv_at lo r snap hi -> r_nextExpected r = s + 1 ->
  lo <= s -> logIdx <= sn_logIdx (snap s) ->
  log_inv_at lo (lower (rewind_one logIdx r s) s (snap s)) snap hi.
Proof.
  intros Hinv Hn Hlo Hli.
  destruct (li_exec _ _ _ _ Hinv s) as (e & He & Hex); [lia|].
  destruct (rewind_one_spec logIdx r s e He) as (sz & resident & ->). unfold lower.
  apply (log_inv_shrink lo r _ snap hi s e (e <| ge_sizeBytes := sz |> <| ge_undo := [] |>)
           logIdx Hinv Hn Hlo Hli He); rsimpl; reflexivity.
Qed.

Lemma rewind_down_inv m lo r snap hi target logIdx :
  log_inv_at lo r snap hi -> r_nextExpected r = target + Z.of_nat m -> lo <= target ->
  logIdx = sn_logIdx (snap target) ->
  log_inv_at lo (lower (rewind_down m target logIdx r) target (snap target)) snap hi.
Proof.
  revert r. induction m as [|m IH]; intros r Hinv Hn Hlo Hli; cbn [rewind_down].
  { replace (lower r target (snap target)) with r; [done|].
    pose proof (li_top _ _ _ _ Hinv) as (E1 & E2 & _).
    assert (target = r_nextExpected r) as -> by lia.
    unfold lower. rewrite <- E1, <- E2. symmetry. apply lower_self. }
  pose proof (li_mono _ _ _ _ Hinv target (target + Z.of_nat m) ltac:(pose proof (li_bounds _ _ _ _ Hinv); lia) ltac:(lia)).
  pose proof (rewind_step_inv lo r snap hi logIdx (target + Z.of_nat m) Hinv
    ltac:(lia) ltac:(lia) ltac:(lia)) as Hstep.
  specialize (IH _ Hstep). unfold lower in IH at 1. rsimpl in IH.
  specialize (IH eq_refl Hlo Hli). by rewrite rewind_down_lower, lower_lower in IH.
Qed.

(** rewinding only forgets keys recorded at or above the new log length *)
Lemma rewind_down_dedup m target logIdx r k i :
  (r_dedup (rewind_down m target logIdx r) !! k = Some i -> r_dedup r !! k = Some i) /\
  (r_dedup r !! k = Some i -> i < logIdx ->
   r_dedup (rewind_down m target logIdx r) !! k = Some i).
Proof.
  revert r. induction m as [|m IH]; intros r; cbn [rewind_down]; [auto|].
  destruct (IH (rewind_one logIdx r (target + Z.of_nat m))) as [IH1 IH2].
  destruct (r_globalLog r !! (target + Z.of_nat m)) as [e|] eqn:Ee.
  2:{ unfold rewind_one in *. rewrite Ee in *. auto. }
  destruct (rewind_one_spec logIdx r _ e Ee) as (sz & res & E). rewrite E in *. rsimpl in IH1. rsimpl in IH2.
  split.
  - intros H. apply IH1, drop_keys_lookup in H as [H _]. done.
  - intros H Hlt. apply IH2; [|done]. apply drop_keys_lookup. split; [done|].
    intros [Hc _]. lia.
Qed.

Lemma rewind_down_log m target logIdx r s :
  slotState_of (rewind_down m target logIdx r) s = slotState_of r s.
Proof.
  revert r. induction m as [|m IH]; intros r; cbn [rewind_down]; [done|]. rewrite IH.
  destruct (r_globalLog r !! (target + Z.of_nat m)) as [e|] eqn:Ee.
  2:{ unfold rewind_one. by rewrite Ee. }
  destruct (rewind_one_spec logIdx r _ e Ee) as (sz & res & ->). unfold slotState_of. rsimpl.
  destruct (decide (s = target + Z.of_nat m)) as [->|].
  - rewrite lookup_insert_eq, Ee. by rsimpl.
  - by rewrite lookup_insert_ne.
Qed.

Lemma rewind_down_pruned m target logIdx r :
  r_prunedBelow (rewind_down m target logIdx r) = r_prunedBelow r.
Proof.
  revert r. induction m as [|m IH]; intros r; cbn [rewind_down]; [done|]. rewrite IH.
  unfold rewind_one, undoWrites. destruct (r_globalLog r !! _); [by rsimpl|done].
Qed.

(** [rewindTo] a resident slot whose prefix is known restores the history up
    to it. *)
Lemma rewindTo_spec r snap hi target :
  log_inv r snap hi -> r_prunedBelow r <= target < r_nextExpected r ->
  target = 0 \/ hi - r_ringSize r < target \/
    r_prunedBelow r < target <= r_nextExpected r - r_ringSize r ->
  exists r', rewindTo r target = (r', true) /\ log_inv r' snap hi /\
    r_nextExpected r' = target /\
    (forall k i, r_dedup r' !! k = Some i <->
       r_dedup r !! k = Some i /\ i < sn_logIdx (snap target)) /\
    (forall s, slotState_of r' s = slotState_of r s).
Proof.
  intros Hinv Ht Hor. pose proof (li_bounds _ _ _ _ Hinv) as Hb.
  pose proof (li_fit _ _ _ _ Hinv). pose proof (li_ring _ _ _ _ Hinv).
  assert (prefixStateAt r target = Some (sn_hash (snap target), sn_logIdx (snap target))) as Hps.
  { unfold prefixStateAt. destruct (Z.eqb_spec target 0) as [->|Hne].
    { destruct (li_origin _ _ _ _ Hinv) as [-> ->]. done. }
    unfold sub64. rewrite u64_small by word_lia.
    destruct (prefixHashAt_correct r snap hi (target - 1) Hinv) as [-> ->]; [lia|lia|].
    by replace (target - 1 + 1) with target by lia. }
  unfold rewindTo. rewrite (proj2 (Z.leb_gt _ _)), Hps by lia. cbv zeta.
  set (m := Z.to_nat (r_nextExpected r - target)).
  pose proof (rewind_down_inv m (r_prunedBelow r) r snap hi target (sn_logIdx (snap target)) Hinv
    ltac:(lia) ltac:(lia) eq_refl) as Hinv'.
  set (r1 := rewind_down m target _ r) in *.
  assert (r_prunedBelow r1 = r_prunedBelow r) as Hpb.
  { apply rewind_down_pruned. }
  exists (lower r1 target (snap target)). split; [done|].
  split; [|split; [|split]].
  - unfold log_inv, lower in *. rsimpl. rewrite Hpb. done.
  - unfold lower. by rsimpl.
  - intros k i. change (r_dedup (lower r1 target (snap target))) with (r_dedup r1).
    destruct (rewind_down_dedup m target (sn_logIdx (snap target)) r k i) as [H1 H2].
    split; [|intros []; auto]. intros Hk. split; [auto|].
    destruct (li_dedup _ _ _ _ Hinv' k i) as (s & e & rq & Hs & _ & _ & _ & _ & Hi); [done|].
    unfold lower in Hs. rsimpl in Hs.
    pose proof (li_mono _ _ _ _ Hinv (s + 1) target ltac:(lia) ltac:(lia)). lia.
  - intros s. unfold lower, slotState_of. rsimpl. apply rewind_down_log.
Qed.
End rewind.

(** ** The execution loop *)

Section loop.
Context {TM : Treemap Value} {TL : TreemapLaws TM}.
Implicit Types r : Replica TM.

(** No counter wraps while [n] more slots execute.  (A bus decoded from the
    wire has fewer than 2^32 requests.) *)
Record roomy r (hi : Z) (n : nat) : Prop := {
  roomy_slots : Z.max hi (r_nextExpected r + Z.of_nat n) + r_ringSize r < W64;
  roomy_index : r_nextLogIndex r + Z.of_nat n * 2 ^ 32 < W64;
  roomy_entries : forall s e, r_globalLog r !! s = Some e -> entry_len e <= 2 ^ 32 }.

Lemma entry_len_ext e e' :
  ge_state e' = ge_state e -> ge_requests e' = ge_requests e -> entry_len e' = entry_len e.
Proof. unfold entry_len, is_noop. by intros -> ->. Qed.

(** How execution extends the history: the slots already executed, the keys
    already recorded and the state of every slot are kept; the keys recorded
    since have indices from the old log length on. *)
Record advanced r r' (snap snap' : Z -> snapshot) (hi hi' : Z) : Prop := {
  adv_next : r_nextExpected r <= r_nextExpected r';
  adv_hi : hi' = Z.max hi (r_nextExpected r');
  adv_snap : forall s, s <= r_nextExpected r -> snap' s = snap s;
  adv_index : r_nextLogIndex r <= r_nextLogIndex r';
  adv_new : forall k i, r_dedup r' !! k = Some i ->
    r_dedup r !! k = Some i \/ r_nextLogIndex r <= i;
  adv_old : forall k i, r_dedup r !! k = Some i -> r_dedup r' !! k = Some i;
  adv_slots : forall s, slotState_of r' s = slotState_of r s;
  adv_dom : dom (r_globalLog r') = dom (r_globalLog r);
  adv_frame : r_prunedBelow r' = r_prunedBelow r /\ r_status r' = r_status r /\
    r_haveStable r' = r_haveStable r /\ r_stableSlot r' = r_stableSlot r }.

Lemma advanced_refl r snap hi : r_nextExpected r <= hi -> advanced r r snap snap hi hi.
Proof. intros H. split; try done; [lia|auto]. Qed.

Lemma advanced_trans r r1 r2 snap snap1 snap2 hi hi1 hi2 :
  advanced r r1 snap snap1 hi hi1 -> advanced r1 r2 snap1 snap2 hi1 hi2 ->
  advanced r r2 snap snap2 hi hi2.
Proof.
  intros A B. pose proof (adv_next _ _ _ _ _ _ A). pose proof (adv_next _ _ _ _ _ _ B).
  pose proof (adv_index _ _ _ _ _ _ A). pose proof (adv_index _ _ _ _ _ _ B).
  split; [lia| | |lia| | | | |].
  - rewrite (adv_hi _ _ _ _ _ _ B), (adv_hi _ _ _ _ _ _ A). lia.
  - intros s Hs. rewrite (adv_snap _ _ _ _ _ _ B) by lia. by apply A.
  - intros k i [Hk|Hk]%(adv_new _ _ _ _ _ _ B); [by apply A|right; lia].
  - intros k i Hk. apply B, A, Hk.
  - intros s. by rewrite (adv_slots _ _ _ _ _ _ B), (adv_slots _ _ _ _ _ _ A).
  - by rewrite (adv_dom _ _ _ _ _ _ B), (adv_dom _ _ _ _ _ _ A).
  - destruct (adv_frame _ _ _ _ _ _ A) as (<- & <- & <- & <-). apply B.
Qed.

Lemma exec_entry_keeps (li : Z) (e : globalEntry) (d : gmap (Z * Z) Z) (st : tm_carrier TM)
    d' st' ans k i :
  exec_entry li e d st = (d', st', ans) -> d !! k = Some i -> d' !! k = Some i.
Proof.
  unfold exec_entry. destruct (is_noop e); [by intros [= <- <- <-]|]. apply exec_requests_keeps.
Qed.

(** one turn of the loop on a filled slot *)
Lemma advance_turn lo r snap hi n :
  log_inv_at lo r snap hi -> roomy r hi (S n) ->
  slotState_of r (r_nextExpected r) <> slotEmpty ->
  exists r' snap' hi',
    advanceNextExpectedOne r = (r', true) /\ log_inv_at lo r' snap' hi' /\ roomy r' hi' n /\
    r_nextExpected r' = r_nextExpected r + 1 /\ advanced r r' snap snap' hi hi'.
Proof.
  intros Hinv Hroom Hst. unfold slotState_of in Hst.
  destruct (r_globalLog r !! r_nextExpected r) as [e|] eqn:He; [|done].
  pose proof (roomy_slots _ _ _ Hroom) as Hr1. pose proof (roomy_index _ _ _ Hroom) as Hr2.
  pose proof (roomy_entries _ _ _ Hroom _ e He) as Hr3.
  pose proof (advance_one_inv lo r snap hi e Hinv He Hst) as Hadv.
  destruct Hadv as (r' & sn & Ea & Hinv' & Hrest); [split; lia|].
  pose proof (exec_entry_dedup (r_nextLogIndex r) e (r_dedup r) (r_State r)) as Hded.
  pose proof (exec_entry_keeps (r_nextLogIndex r) e (r_dedup r) (r_State r)) as Hkeep.
  destruct (exec_entry _ e _ _) as [[d st] ans].
  destruct Hrest as ((e' & Es & Er & Hf) & Hidx & _).
  pose proof (slot_frame_core _ _ _ _ _ _ _ _ _ Hf)
    as (El & En & Ed & _ & Ex & _ & _ & _ & Ers & _ & Epb & _ & _ & Est & Ehs & Ess).
  exists r', (snap_extend snap (r_nextExpected r + 1) sn), (Z.max hi (r_nextExpected r + 1)).
  split; [done|]. split; [done|]. split; [|split; [done|]].
  { split; rewrite ?Ex, ?Ers, ?En, ?Hidx; [lia|lia|].
    intros s e1. rewrite El. intros [[<- <-]|[_ H1]]%lookup_insert_Some.
    + by rewrite (entry_len_ext e e').
    + by eapply (roomy_entries _ _ _ Hroom). }
  pose proof (entry_len_nonneg e). split; rewrite ?Ed, ?Epb, ?Est, ?Ehs, ?Ess; [lia| | |lia| | | | |done].
  - by rewrite Ex.
  - intros s Hs. apply snap_extend_old. lia.
  - intros k i Hk. destruct (Hded _ _ _ k i eq_refl Hk) as [|(_ & rq & _ & _ & Hi)]; [by left|].
    right. lia.
  - intros k i. by apply (Hkeep _ _ _ k i eq_refl).
  - intros s. unfold slotState_of. rewrite El.
    destruct (decide (s = r_nextExpected r)) as [->|Hne].
    + by rewrite lookup_insert_eq, He.
    + by rewrite lookup_insert_ne.
  - rewrite El, dom_insert_L.
    assert (r_nextExpected r ∈ dom (r_globalLog r)) by (by apply elem_of_dom; rewrite He).
    set_solver.
Qed.

(** the loop stops at an empty slot or runs out of fuel after [fuel] slots *)
Lemma advance_loop_spec fuel : forall lo r snap hi,
  log_inv_at lo r snap hi -> roomy r hi fuel ->
  let r' := advance_loop fuel r in
  (exists snap' hi', log_inv_at lo r' snap' hi' /\ advanced r r' snap snap' hi hi') /\
  r_nextExpected r' <= r_nextExpected r + Z.of_nat fuel /\
  (forall s, r_nextExpected r <= s < r_nextExpected r' -> slotState_of r s <> slotEmpty) /\
  (r_nextExpected r' = r_nextExpected r + Z.of_nat fuel \/
   slotState_of r' (r_nextExpected r') = slotEmpty).
Proof.
  induction fuel as [|fuel IH]; intros lo r snap hi Hinv Hroom; cbn [advance_loop]; cbv zeta.
  { split; [exists snap, hi; split; [done|apply advanced_refl, Hinv]|].
    split; [lia|]. split; [intros; lia|]. left; lia. }
  destruct (decide (slotState_of r (r_nextExpected r) = slotEmpty)) as [Hem|Hst].
  { rewrite advance_stuck by done.
    split; [exists snap, hi; split; [done|apply advanced_refl, Hinv]|].
    split; [lia|]. split; [intros; lia|]. by right. }
  destruct (advance_turn lo r snap hi fuel Hinv Hroom Hst)
    as (r1 & snap1 & hi1 & Ea & Hinv1 & Hroom1 & Ex & Hadv1).
  rewrite Ea. destruct (IH lo r1 snap1 hi1 Hinv1 Hroom1)
    as ((snap2 & hi2 & Hinv2 & Hadv2) & H2 & H3 & H4).
  split; [|split; [lia|split]].
  - exists snap2, hi2. split; [done|]. by eapply advanced_trans.
  - intros s Hs. destruct (decide (s = r_nextExpected r)) as [->|]; [done|].
    rewrite <- (adv_slots _ _ _ _ _ _ Hadv1). apply H3. lia.
  - destruct H4; [left; lia|by right].
Qed.

(** as many slots as the log has entries are enough fuel *)
Lemma filled_run_bound r (a : Z) (n : nat) :
  (forall s, a <= s < a + Z.of_nat n -> slotState_of r s <> slotEmpty) ->
  (n <= size (r_globalLog r))%nat.
Proof.
  intros H. rewrite <- size_dom.
  assert (list_to_set (seqZ a (Z.of_nat n)) ⊆ dom (r_globalLog r)) as Hsub.
  { intros s Hs%elem_of_list_to_set%elem_of_seqZ. specialize (H s Hs).
    unfold slotState_of in H. destruct (r_globalLog r !! s) eqn:E; [|done].
    apply elem_of_dom. eauto. }
  apply subseteq_size in Hsub. rewrite size_list_to_set in Hsub by apply NoDup_seqZ.
  rewrite length_seqZ in Hsub. lia.
Qed.

Lemma advance_loop_stops lo r snap hi :
  log_inv_at lo r snap hi -> roomy r hi (S (size (r_globalLog r))) ->
  let r' := advance_loop (S (size (r_globalLog r))) r in
  slotState_of r' (r_nextExpected r') = slotEmpty.
Proof.
  intros Hinv Hroom. cbv zeta.
  destruct (advance_loop_spec _ lo r snap hi Hinv Hroom) as (_ & _ & H3 & [H4|H4]); [|done].
  exfalso. rewrite H4 in H3. apply filled_run_bound in H3. lia.
Qed.

(** ** The initial state *)

Definition snap0 : Z -> snapshot := fun _ => mksnapshot fnvOffset64 0 InitState.

Lemma withDefaults_RetainSlots opts :
  o_RetainSlots (withDefaults opts) =
    if o_RetainSlots opts =? 0 then defaultRetainSlots else o_RetainSlots opts.
Proof.
  unfold withDefaults. cbv zeta.
  repeat (match goal with |- context [if ?c then _ else _] =>
    lazymatch c with context [if _ then _ else _] => fail | _ => destruct c eqn:? end end; rsimpl);
  done.
Qed.

Lemma NewReplica_inv config idx dl mode every gd opts :
  0 <= o_RetainSlots opts -> o_RetainSlots (withDefaults opts) + 4 < W64 ->
  log_inv (NewReplica config idx dl mode every gd opts) snap0 0.
Proof.
  intros H0 Hfit.
  assert (0 < o_RetainSlots (withDefaults opts)) as Hpos.
  { rewrite withDefaults_RetainSlots. destruct (Z.eqb_spec (o_RetainSlots opts) 0); [done|lia]. }
  assert (add64 (o_RetainSlots (withDefaults opts)) 2 = o_RetainSlots (withDefaults opts) + 2) as Hadd.
  { unfold add64. apply u64_small. word_lia. }
  unfold log_inv, NewReplica. cbv zeta. remember (withDefaults opts) as o.
  split; cbn -[add64 W64]; rewrite ?Hadd, ?length_replicate; try done; try lia.
Qed.
End loop.
