(* ===== verification/Admission.v ===== *)
(** Admission of buses ([replica.go]: [admitLocked], [handleBus],
    [applyDuringRecoveryLocked], [drainPendingBusesLocked], the fault injector),
    reply dispatch ([replyLoop]), peer connections and the per-second
    statistics.  A handler returns the new state and the messages it sends. *)
From S2P Require Import Prelude WireBase Wire WireStream Config Lines GlobalOrder State.
From S2P Require Import ReplicaState Cursor Log.

(** * Effects *)

(** what a step sends, and the goroutines it starts *)
Inductive effect :=
| Send (peer : Z) (m : replica_msg)
| SendSchedule (peer : Z) (m : replica_msg)
| QueueSchedule (peer : Z) (bytes : list byte)
| SendHsReply (w : conn) (m : HsReply)
| SendClientControl (w : conn) (code : Z) (m : clientControlMessage)
| SendRequestReply (w : conn) (m : RequestReplyMessage)
| StartGap (key : Z * Z) (id : Z)
| StartDrive (vc : Z)
| WakeRedial (peer : Z).

Section admission.
  Context {TM : Treemap Value}.
  Implicit Types r : Replica TM.

(** nothing is sent to a peer that has no connection *)
Definition sendToPeer r (j : Z) (m : replica_msg) : list effect :=
  if (j <? 0) || (Zlength (r_peerWriters r) <=? j) then []
  else match r_peerWriters r !! Z.to_nat j with
       | Some (Some _) => [Send j m]
       | _ => []
       end.

(** [for j := range r.config.Replicas { if j != r.idx { send } }] *)
Definition peers r : list Z :=
  filter (fun j => j <> r_idx r) (seqZ 0 (Zlength (cfg_Replicas (r_config r)))).
Definition broadcastToPeers r (m : replica_msg) : list effect :=
  peers r ≫= fun j => sendToPeer r j m.

Definition validReplicaIndex r (idx : Z) : bool :=
  (idx <? cfg_N (r_config r)) && (idx <? Zlength (r_peerWriters r)).

(** * The fault injector *)

Definition followerRank r : Z :=
  Zlength (filter (fun j => j <> leaderIdx r) (seqZ 0 (r_idx r))).

Definition shouldDrop r (requestId : Z) : bool :=
  if (r_dropEvery r =? 0) || bool_decide (r_dropMode r = dropNone) then false
  else if negb (requestId mod r_dropEvery r =? 0) then false
  else match r_dropMode r with
       | dropAll => true
       | dropLeader => AmLeader r
       | dropFollowers => negb (AmLeader r) && (followerRank r <? cfg_F (r_config r))
       | dropNone => false
       end.

(** * Admission *)

Definition scheduleCompleteForView r (v : Z) : bool :=
  (r_scheduleEpoch r =? v) && Nat.ltb 0 (length (r_schedule r)).
Definition scheduleActive r : bool :=
  r_scheduleReady r && scheduleCompleteForView r (view r).

Inductive admission := admitted | admitUnsynced | admitFenced | admitDropped.
#[local] Instance admission_eq_dec : EqDecision admission.
Proof. solve_decision. Defined.

Definition observeArrival r (line : clientLine) (seq actualNs : Z) : Replica TM :=
  let deltaUs := Z.quot (i64 (actualNs - arrivalNs line seq)) 1000 in
  let r :=
    if r_winRecv r =? 0
    then r <| r_winDeltaMinUs := deltaUs |> <| r_winDeltaMaxUs := deltaUs |>
    else
      let r := if deltaUs <? r_winDeltaMinUs r then r <| r_winDeltaMinUs := deltaUs |> else r in
      if r_winDeltaMaxUs r <? deltaUs then r <| r_winDeltaMaxUs := deltaUs |> else r in
  r <| r_winDeltaSumUs ::= fun s => i64 (s + deltaUs) |> <| r_winRecv ::= fun n => add64 n 1 |>.

Definition admitLocked r (clientId seq actualNs : Z) : Replica TM * admission :=
  match r_clients r !! clientId with
  | None => (r, admitUnsynced)
  | Some line =>
      if (seq =? 0) || negb (validSequence line seq (r_scheduleCommittedEnd r))
      then (r, admitUnsynced)
      else
        let '(r, line) :=
          if cl_maxSeqSeen line <? seq
          then let line := line <| cl_maxSeqSeen := seq |> in
               (r <| r_clients ::= <[clientId := line]> |>, line)
          else (r, line) in
        if negb (scheduleActive r)
        then (r <| r_winFenced ::= fun n => add64 n 1 |>, admitFenced)
        else
          let ordinal := if Nat.ltb 0 (length (cl_windows line))
                         then add64 (countBefore line (i64 seq) false) 1 else seq in
          if shouldDrop r ordinal
          then (r <| r_winDropped ::= fun n => add64 n 1 |>, admitDropped)
          else (observeArrival r line seq actualNs, admitted)
  end.

(** [bindReplySender] *)
Definition bindReplySender r (clientId : Z) (lw : conn) : Replica TM :=
  r <| r_replySenders ::= <[clientId := lw]> |>.

Definition mark_done r (key : Z * Z) : Replica TM :=
  r <| r_gaps ::= alter (fun gs => gs <| gap_done := true |>) key |>.

Definition applyDuringRecovery r (msg : BusMessage) : Replica TM :=
  let slot := computeGlobalSlot (r_clients r) (bm_ClientId msg) (bm_BusSeqNum msg) in
  let (r, stored) := recordBusReceived r slot (bm_ClientId msg) (bm_BusSeqNum msg)
                       (bm_Requests msg) in
  let r := advanceNextExpected r in
  if stored then mark_done r (view r, slot) else r.

Definition handleBus r (msg : BusMessage) (lw : conn) (actualNs : Z) : Replica TM * admission :=
  let r := bindReplySender r (bm_ClientId msg) lw in
  let (r, a) := admitLocked r (bm_ClientId msg) (bm_BusSeqNum msg) actualNs in
  match a with
  | admitted =>
      if Nat.ltb 0 (size (r_gaps r)) then (applyDuringRecovery r msg, a)
      else
        let slot := computeGlobalSlot (r_clients r) (bm_ClientId msg) (bm_BusSeqNum msg) in
        let (r, _) := recordBusReceived r slot (bm_ClientId msg) (bm_BusSeqNum msg)
                        (bm_Requests msg) in
        (advanceNextExpected r, a)
  | _ => (r, a)
  end.

Definition drain_one r (b : BusMessage) : Replica TM :=
  let slot := computeGlobalSlot (r_clients r) (bm_ClientId b) (bm_BusSeqNum b) in
  (recordBusReceived r slot (bm_ClientId b) (bm_BusSeqNum b) (bm_Requests b)).1.

Definition drainPendingBuses r : Replica TM :=
  match r_pendingBuses r with
  | [] => r
  | buses => advanceNextExpected (foldl drain_one (r <| r_pendingBuses := [] |>) buses)
  end.

(** * Replies *)

(** One turn of [replyLoop] and of the [replySender] loops it feeds: every
    queued reply whose client has a connection is written to it, in order. *)
Definition reply_effect r (pr : pendingReply) : list effect :=
  match r_replySenders r !! pr_clientId pr with
  | None => []
  | Some lw =>
      [SendRequestReply lw
         {| rr_ClientId := pr_clientId pr; rr_RequestId := pr_requestId pr;
            rr_BusSlotNum := pr_busSlot pr; rr_LogIndex := pr_logIndex pr;
            rr_ViewId := pr_viewId pr; rr_ReplicaIdx := r_idx r; rr_Result := [] |}]
  end.
Definition replyLoop r : Replica TM * list effect :=
  (r <| r_pendingReplies := [] |>, r_pendingReplies r ≫= reply_effect r).

(** * Peer connections *)

Definition peerConnected r (j : Z) : bool :=
  match r_peerWriters r !! Z.to_nat j with Some (Some _) => true | _ => false end.

(** [lw = None] is the nil writer *)
Definition retirePeer r (j : Z) (lw : option conn) : Replica TM * list effect :=
  let cur := default None (r_peerWriters r !! Z.to_nat j) in
  let clears := match lw with None => true | Some _ => bool_decide (cur = lw) end in
  let cleared := clears && match cur with Some _ => true | None => false end in
  let r := if clears then r <| r_peerWriters ::= <[Z.to_nat j := None]> |> else r in
  let r := if negb (j =? r_idx r) && (j =? leaderIdx r)
           then r <| r_leaderLost := true |> else r in
  (r, if cleared then [WakeRedial j] else []).

Definition peerConnLost r (j : Z) : Replica TM * list effect :=
  if (j <? 0) || (cfg_N (r_config r) <=? j) || (j =? r_idx r) then (r, [])
  else retirePeer r j None.

(** * Statistics *)

(** [statsLoop]'s critical section: the window counters are read and cleared *)
Definition statsReset r : Replica TM :=
  r <| r_winRecv := 0 |> <| r_winDeltaSumUs := 0 |> <| r_winDeltaMinUs := 0 |>
    <| r_winDeltaMaxUs := 0 |> <| r_winGaps := 0 |> <| r_winRecovered := 0 |>
    <| r_winNoops := 0 |> <| r_winDropped := 0 |> <| r_winFenced := 0 |>
    <| r_winReplyMax := 0 |>.
End admission.
