(* ===== verification/ScheduleProto.v ===== *)
(** The schedule agreement ([schedule.go], [schedule_transport.go] and the
    replica's half of [client_control.go]): clients ask the leader for a window,
    the leader proposes the window to the replicas, commits it when a quorum has
    accepted it and answers the clients.

    [wall] is the wall clock in nanoseconds, [mono] the monotonic one. *)
From S2P Require Import Prelude WireBase Wire WireStream Config Lines GlobalOrder State.
From S2P Require Import ReplicaState Cursor Log Admission.

Definition scheduleRetryInterval : Z := 250 * 1000000.

Section proto.
Context {TM : Treemap Value}.
Implicit Types r : Replica TM.

(** * Transport *)

Definition sendSchedulePeer r (peer : Z) (m : replica_msg) : list effect :=
  if (peer <? 0) || (cfg_N (r_config r) <=? peer) || (peer =? r_idx r) then []
  else [SendSchedule peer m].

(** one entry in each peer's queue, which may drop it when it is full *)
Definition broadcastSchedule r (code : Z) (body : list byte) : list effect :=
  (fun j => QueueSchedule j (sendMsg code body)) <$>
    filter (fun j => j <> r_idx r) (seqZ 0 (cfg_N (r_config r))).

(** * Installing *)

Definition commitScheduleHistory r : Replica TM :=
  match last (r_schedule r) with
  | Some m => r <| r_scheduleCommittedEnd := bs_EndTime m |>
  | None => r
  end.

Definition set_epoch r (epoch : Z) (ready : bool) : Replica TM :=
  let r := r <| r_scheduleEpoch := epoch |> <| r_scheduleReady := ready |> in
  if ready then commitScheduleHistory r else r.

Definition installSchedule r (schedule : list BusSyncMessage) (epoch : Z) (ready : bool) :
    Replica TM :=
  if schedulesEqual (r_schedule r) schedule then set_epoch r epoch ready
  else
    let appendOnly := schedulePrefix (r_schedule r) schedule in
    let r := r <| r_clients := schedule_lines (r_clients r) schedule |>
               <| r_schedule := schedule |> in
    let r := set_epoch r epoch ready in
    if appendOnly then r else resetCursor r.

Definition committedSchedule r : list BusSyncMessage :=
  filter (fun m => bs_EndTime m <= r_scheduleCommittedEnd r) (r_schedule r).

(** * Accepting a window *)

(** the entries a proposal stands for; [None]: a request for another window *)
Definition prepare_entry (m : SchdPrepare) (q : HsRequest) : option BusSyncMessage :=
  if hs_StartTime q =? sp_StartTime m then
    Some {| bs_EndTime := sp_EndTime m; bs_ClientId := hs_ClientId q;
            bs_FirstMsgNs := hs_StartTime q; bs_IntervalMs := hs_IntervalMs q |}
  else None.

Fixpoint take_group (start : Z) (l : list BusSyncMessage) {struct l} : list BusSyncMessage :=
  match l with
  | [] => []
  | s :: l => if bs_FirstMsgNs s =? start then s :: take_group start l else []
  end.

(** the entries of the window that starts at [start], if it is scheduled *)
Fixpoint group_at (start : Z) (l : list BusSyncMessage) {struct l} : option (list BusSyncMessage) :=
  match l with
  | [] => None
  | s :: l' => if bs_FirstMsgNs s =? start then Some (take_group start l) else group_at start l'
  end.

Definition prepare_rejected r (m : SchdPrepare) : bool :=
  negb (sp_ViewId m =? view r) || negb (bool_decide (r_status r = statusNormal)) ||
  negb (sp_ReplicaId m =? leaderIdx r) ||
  negb (sub64 (sp_EndTime m) (sp_StartTime m) =? u64 (ScheduleWindow (r_config r))) ||
  (sp_EndTime m <=? sp_StartTime m) || Nat.eqb (length (sp_HsReqList m)) 0 ||
  (cfg_ExpectedClients (r_config r) <? Zlength (sp_HsReqList m)).

Definition acceptSchedulePrepare r (m : SchdPrepare) : Replica TM * bool :=
  if prepare_rejected r m then (r, false) else
  match mapM (prepare_entry m) (sp_HsReqList m) with
  | None => (r, false)
  | Some entries =>
      if negb (validateSchedule entries) then (r, false) else
      match group_at (sp_StartTime m) (r_schedule r) with
      | Some group => (r, schedulesEqual group entries)
      | None =>
          if match last (r_schedule r) with
             | Some s => sp_StartTime m <? bs_EndTime s
             | None => false
             end then (r, false)
          else if MaxScheduleHistoryLen <? Zlength (r_schedule r) + Zlength entries then (r, false)
          else
            let r := installSchedule r (r_schedule r ++ entries) (sp_ViewId m) false in
            (r <| r_scheduleReady := 0 <? r_scheduleCommittedEnd r |>, true)
      end
  end.

Definition handleSchdPrepare r (m : SchdPrepare) : Replica TM * list effect :=
  let (r, ok) := acceptSchedulePrepare r m in
  (r, if ok then
        sendSchedulePeer r (sp_ReplicaId m)
          (RSchdPrepareReply {| spr_ReplicaId := u32 (r_idx r); spr_ViewId := sp_ViewId m;
                                spr_StartTime := sp_StartTime m; spr_EndTime := sp_EndTime m |})
      else []).

Definition handleSchdPrepareReply r (m : SchdPrepareReply) : Replica TM :=
  match r_scheduleProposal r with
  | Some p =>
      if bool_decide (r_status r = statusNormal) && (r_idx r =? leaderIdx r) &&
         (spr_ViewId m =? sp_ViewId p) && (spr_StartTime m =? sp_StartTime p) &&
         (spr_EndTime m =? sp_EndTime p) && (spr_ReplicaId m <? cfg_N (r_config r))
      then r <| r_schedulePrepared ::= fun s => {[spr_ReplicaId m]} ∪ s |>
      else r
  | None => r
  end.

Definition handleSchdCommit r (m : SchdCommit) : Replica TM :=
  if negb (spr_ViewId m =? view r) || negb (bool_decide (r_status r = statusNormal)) ||
     negb (spr_ReplicaId m =? leaderIdx r) then r
  else if existsb (fun s => (bs_FirstMsgNs s =? spr_StartTime m) && (bs_EndTime s =? spr_EndTime m))
            (r_schedule r)
  then
    let r := if r_scheduleCommittedEnd r <? spr_EndTime m
             then r <| r_scheduleCommittedEnd := spr_EndTime m |> else r in
    r <| r_scheduleReady := true |>
  else r.

(** [handleScheduleInstall]: the boolean admits the proposal that follows on
    the same connection *)
Definition install_rejected r (m : BusScheduleInstall) : bool :=
  negb (si_Epoch m =? view r) || negb (bool_decide (r_status r = statusNormal)) ||
  negb (si_SenderIdx m =? leaderIdx r) ||
  negb (si_Digest m =? scheduleDigest (si_Schedule m)) || negb (validateSchedule (si_Schedule m)).

Definition handleScheduleInstall r (m : BusScheduleInstall) : Replica TM * bool :=
  if install_rejected r m then (r, false) else
  match last (si_Schedule m) with
  | None => (r, Nat.eqb (length (r_schedule r)) 0 || (r_scheduleCommittedEnd r =? 0))
  | Some s =>
      if schedulePrefix (r_schedule r) (si_Schedule m)
      then (installSchedule r (si_Schedule m) (si_Epoch m) true, true)
      else if schedulePrefix (si_Schedule m) (r_schedule r) then
        let r := if r_scheduleCommittedEnd r <? bs_EndTime s
                 then r <| r_scheduleCommittedEnd := bs_EndTime s |> else r in
        (r <| r_scheduleReady := true |>, true)
      else (r, false)
  end.

(** * The leader *)

Definition window r : Z := u64 (ScheduleWindow (r_config r)).

(** a request is for a future window that can still be proposed *)
Definition request_too_late_or_early r (m : HsRequest) (now : Z) : bool :=
  let w := window r in
  (hs_StartTime m <=? add64 now w) || (add64 now (mul64 3 w) <? hs_StartTime m) ||
  (hs_StartTime m <? r_scheduleCommittedEnd r).

Definition scheduled_reply r (m : HsRequest) : option BusSyncMessage :=
  List.find (fun s => (bs_FirstMsgNs s =? hs_StartTime m) && (bs_ClientId s =? hs_ClientId m) &&
                      (bs_EndTime s <=? r_scheduleCommittedEnd r)) (r_schedule r).

Definition handleHsRequest r (m : HsRequest) (lw : conn) (wall : Z) : Replica TM * list effect :=
  let w := window r in
  let now := u64 wall in
  if (sub64 MaxInt64 w <? hs_StartTime m) || negb (hs_StartTime m mod w =? 0) ||
     (Z.quot MaxInt64 1000000 <? hs_IntervalMs m) then (r, [])
  else if negb (r_idx r =? leaderIdx r) || negb (bool_decide (r_status r = statusNormal))
  then (r, [])
  else match scheduled_reply r m with
  | Some s =>
      (r, [SendHsReply lw {| hr_ReplicaId := u32 (r_idx r); hr_ViewId := view r;
                             hr_IntervalMs := bs_IntervalMs s; hr_StartTime := bs_FirstMsgNs s;
                             hr_EndTime := bs_EndTime s |}])
  | None =>
      if request_too_late_or_early r m now then (r, []) else
      let requests := default ∅ (r_scheduleRequests r !! hs_StartTime m) in
      let waiters := default ∅ (r_scheduleWindowWaiters r !! hs_StartTime m) in
      if match requests !! hs_ClientId m with Some _ => false | None => true end &&
         (cfg_ExpectedClients (r_config r) <=? Z.of_nat (size requests))
      then (r <| r_scheduleRequests ::= <[hs_StartTime m := requests]> |>
              <| r_scheduleWindowWaiters ::= <[hs_StartTime m := waiters]> |>, [])
      else (r <| r_scheduleRequests ::= <[hs_StartTime m := <[hs_ClientId m := m]> requests]> |>
              <| r_scheduleWindowWaiters ::=
                   <[hs_StartTime m := <[hs_ClientId m := lw]> waiters]> |>, [])
  end.

Definition expired (now w start : Z) : bool := (start <=? now) && (w <=? sub64 now start).
Definition expireScheduleRequests r (now : Z) : Replica TM :=
  let w := window r in
  r <| r_scheduleWindowWaiters ::= fun m => filter (fun p =>
         (match r_scheduleRequests r !! p.1 with Some _ => expired now w p.1 | None => false end)
           = false) m |>
    <| r_scheduleRequests ::= fun m => filter (fun p => expired now w p.1 = false) m |>.

(** the earliest requested window that is due; 0: none *)
Definition due_window r (now : Z) : Z :=
  let w := window r in
  map_fold (fun t _ start =>
              if (t <=? add64 now w) && ((start =? 0) || (t <? start)) then t else start)
    0 (r_scheduleRequests r).

Definition sorted_requests (requests : gmap Z HsRequest) : list HsRequest :=
  omap (fun c => requests !! c) (sorted_keys requests).

(** [scheduleLoop] turns the earliest due requests into the proposal *)
Definition propose r (now : Z) : Replica TM :=
  if r_scheduleInstallActive r then r else
  let start := due_window r now in
  if start =? 0 then r else
  let requests := default ∅ (r_scheduleRequests r !! start) in
  let r := r <| r_scheduleRequests ::= delete start |> in
  if start <? r_scheduleCommittedEnd r then r else
  let msg := {| sp_ReplicaId := u32 (r_idx r); sp_ViewId := view r;
                sp_HsReqList := sorted_requests requests; sp_StartTime := start;
                sp_EndTime := add64 start (window r) |} in
  let (r, ok) := acceptSchedulePrepare r msg in
  if ok then
    r <| r_scheduleInstallActive := true |> <| r_scheduleProposal := Some msg |>
      <| r_schedulePrepared := {[u32 (r_idx r)]} |> <| r_scheduleLastSend := None |>
  else r.

Definition send_due r (mono : Z) : bool :=
  match r_scheduleLastSend r with
  | None => true
  | Some t => scheduleRetryInterval <=? i64 (mono - t)
  end.

Definition snapshot_msg r (epoch : Z) : BusScheduleInstall :=
  let history := committedSchedule r in
  {| si_Epoch := epoch; si_Digest := scheduleDigest history; si_SenderIdx := u32 (r_idx r);
     si_Schedule := history |}.

(** with no proposal the committed schedule is repeated *)
Definition repeat_schedule r (mono : Z) : Replica TM * list effect :=
  if Nat.ltb 0 (length (committedSchedule r)) && send_due r mono
  then (r <| r_scheduleLastSend := Some mono |>,
        broadcastSchedule r MsgBusScheduleInstall
          (BusScheduleInstall_Marshal (snapshot_msg r (view r))))
  else (r, []).

Definition answer_waiter r (msg : SchdPrepare) (waiters : gmap Z conn) (q : HsRequest) :
    list effect :=
  match waiters !! hs_ClientId q with
  | Some lw =>
      [SendHsReply lw {| hr_ReplicaId := u32 (r_idx r); hr_ViewId := sp_ViewId msg;
                         hr_IntervalMs := hs_IntervalMs q; hr_StartTime := sp_StartTime msg;
                         hr_EndTime := sp_EndTime msg |}]
  | None => []
  end.

(** the proposal is committed once a quorum has accepted it, and (re)sent *)
Definition drive_proposal r (msg : SchdPrepare) (mono : Z) : Replica TM * list effect :=
  let committed := QuorumSize (r_config r) <=? Z.of_nat (size (r_schedulePrepared r)) in
  let r := if committed
           then r <| r_scheduleCommittedEnd := sp_EndTime msg |> <| r_scheduleReady := true |>
                  <| r_scheduleInstallActive := false |> <| r_scheduleProposal := None |>
           else r in
  let send := committed || send_due r mono in
  let r := if send then r <| r_scheduleLastSend := Some mono |> else r in
  let waiters := default ∅ (r_scheduleWindowWaiters r !! sp_StartTime msg) in
  let r := if committed then r <| r_scheduleWindowWaiters ::= delete (sp_StartTime msg) |> else r in
  (r, if negb send then [] else
      broadcastSchedule r MsgBusScheduleInstall
        (scheduleBatch_Marshal {| sb_snapshot := snapshot_msg r (sp_ViewId msg);
                                  sb_prepare := msg; sb_committed := committed |}) ++
      (if committed then sp_HsReqList msg ≫= answer_waiter r msg waiters else [])).

(** one turn of [scheduleLoop]; the wall clock is read twice *)
Definition scheduleLoop r (wall wall' mono : Z) : Replica TM * list effect :=
  if negb (bool_decide (r_status r = statusNormal)) || negb (r_idx r =? leaderIdx r)
  then (r, [])
  else
    let r := expireScheduleRequests r (u64 wall) in
    let r := propose r (u64 wall') in
    match r_scheduleProposal r with
    | None => repeat_schedule r mono
    | Some msg => drive_proposal r msg mono
    end.

(** * Client control *)

Definition hold r (v wall : Z) (s : clientControlState) : clientControlState :=
  s <| ccs_holdView := v |> <| ccs_holdUntil := i64 (wall + r_viewChangeFallbackTimeout r) |>.

Definition pauseClients r (v wall : Z) : Replica TM * list effect :=
  (r <| r_clientControls ::= fmap (hold r v wall) |>,
   (fun p => SendClientControl (ccs_writer p.2) MsgClientPause
               {| cc_ClientId := p.1; cc_ViewId := v; cc_ReplicaIdx := u32 (r_idx r);
                  cc_Normal := false |}) <$> map_to_list (r_clientControls r)).

Definition clientControlReply r (m : clientControlMessage) (lw : conn) (wall : Z) :
    Replica TM * clientControlMessage :=
  let s := default (mkclientControlState 0 0 0) (r_clientControls r !! cc_ClientId m) in
  let s := s <| ccs_writer := lw |> in
  let s := if (ccs_holdView s <? view r) || negb (scheduleActive r)
           then hold r (view r) wall s else s in
  (r <| r_clientControls ::= <[cc_ClientId m := s]> |>,
   {| cc_ClientId := cc_ClientId m; cc_ViewId := view r; cc_ReplicaIdx := u32 (r_idx r);
      cc_Normal := bool_decide (r_status r = statusNormal) |}).

Definition handleClientControl r (m : clientControlMessage) (lw : conn) (wall : Z) :
    Replica TM * list effect :=
  let (r, reply) := clientControlReply r m lw wall in
  (r, [SendClientControl lw MsgClientStatusReply reply]).
End proto.
