(* ===== verification/SchedInv.v ===== *)
(** The invariant of the schedule agreement, preserved by every operation of
    [ScheduleProto]: the installed schedule is valid, the lines are its lines,
    the cursor is in step with it, and the committed end is a window's end. *)
From stdpp Require Import sorting.
From S2P Require Import Prelude WireBase Wire WireStream Config Lines GlobalOrder State.
From S2P Require Import ReplicaState Cursor Log Admission ScheduleProto.

(** * Extending the lines *)

(** windows are appended whole: an extension begins where the schedule ends,
    after time 0, and the buses can still be numbered *)
Record extends (s1 s2 : list BusSyncMessage) (l2 : gmap Z clientLine) : Prop := {
  ext_valid : schedule_valid (s1 ++ s2);
  ext_later : later_windows s1 s2;
  ext_positive : Forall (fun m => 0 < bs_FirstMsgNs m) s2;
  ext_lines : lines_of l2 (s1 ++ s2);
  ext_total : Zlength (all_buses l2) < W64 }.

Lemma all_buses_extend l1 l2 s1 s2 :
  lines_of l1 s1 -> lines_of l2 (s1 ++ s2) -> schedule_valid (s1 ++ s2) ->
  Zlength (all_buses l1) <= Zlength (all_buses l2).
Proof.
  intros H1 H2 Hv.
  assert (all_buses l1 ⊆+ all_buses l2) as Hsub.
  { apply NoDup_submseteq.
    - apply NoDup_all_buses. eapply lines_of_ok; [exact H1|]. by eapply schedule_valid_prefix.
    - intros b Hb. apply elem_of_all_buses in Hb. apply elem_of_all_buses.
      exact (scheduled_extend l1 l2 s1 s2 b H1 H2 Hb). }
  apply submseteq_length in Hsub. lia.
Qed.

(** a bus of the extension comes after every bus of the schedule *)
Lemma extension_later l1 l2 s1 s2 b :
  lines_of l1 s1 -> extends s1 s2 l2 -> scheduled l2 b -> ~ scheduled l1 b ->
  (forall n, next_bounded l1 n -> n <= b.1) /\ Zlength (all_buses l1) <= rank l2 b /\ 0 < b.1.
Proof.
  intros H1 [Hv Hlater Hpos H2 Htot] Hb Hnb.
  pose proof (schedule_valid_prefix _ _ Hv) as Hv1.
  pose proof (lines_of_ok _ _ H1 Hv1) as Hok1. pose proof (lines_of_ok _ _ H2 Hv) as Hok2.
  pose proof Hb as Hb'. apply (scheduled_entry l2 _ b H2) in Hb' as (m & Hm & Hc & Ha).
  assert (m ∈ s2) as Hm2.
  { apply elem_of_app in Hm as [Hm|Hm]; [|done]. destruct Hnb.
    apply (scheduled_entry l1 s1 b H1). eauto. }
  assert (forall m, m ∈ s1 ++ s2 -> window_ok m) as Hw.
  { pose proof (sv_windows _ Hv) as Hw. rewrite Forall_forall in Hw. auto. }
  pose proof (window_arrivals_bounds m b.1 (Hw m ltac:(set_solver)) Ha) as Hbound.
  split; [|split].
  - intros n (c & cl & w & Hcl & Hin & Hn). specialize (H1 c). cbv zeta in H1. rewrite Hcl in H1.
    destruct H1 as (_ & Hws & _). rewrite Hws in Hin. apply list_elem_of_filter in Hin as [_ Hin].
    specialize (Hlater w m Hin Hm2). lia.
  - unfold rank.
    assert (all_buses l1 ⊆+ filter (fun b' => bus_lt b' b) (all_buses l2)) as Hsub.
    { apply NoDup_submseteq; [by apply NoDup_all_buses|]. intros b1 Hb1.
      apply elem_of_all_buses in Hb1. pose proof Hb1 as Hb1'. apply list_elem_of_filter. split.
      - apply (scheduled_entry l1 s1 b1 H1) in Hb1 as (m1 & Hm1 & _ & Ha1).
        pose proof (window_arrivals_bounds m1 b1.1 (Hw m1 ltac:(set_solver)) Ha1).
        specialize (Hlater m1 m Hm1 Hm2). left. lia.
      - apply elem_of_all_buses. exact (scheduled_extend l1 l2 s1 s2 b1 H1 H2 Hb1'). }
    apply submseteq_length in Hsub. lia.
  - rewrite Forall_forall in Hpos. specialize (Hpos m Hm2). lia.
Qed.

Section inv.
Context {TM : Treemap Value}.
Implicit Types r : Replica TM.

(** the cursor stays in step when the schedule is extended *)
Lemma cursor_extend r s1 s2 l2 :
  cursor_inv r -> lines_of (r_clients r) s1 -> extends s1 s2 l2 ->
  cursor_inv (r <| r_clients := l2 |>).
Proof.
  intros Hinv H1 Hext. pose proof Hext as [Hv Hlater Hpos H2 Htot].
  assert (forall b, scheduled (r_clients r) b ->
    scheduled l2 b /\ rank l2 b = rank (r_clients r) b) as Hold.
  { intros b Hb. split; [exact (scheduled_extend _ _ s1 s2 b H1 H2 Hb)|].
    exact (rank_extend _ _ s1 s2 b H1 H2 Hv Hlater Hb). }
  assert (forall b, scheduled l2 b -> Decision (scheduled (r_clients r) b)) as Hdec.
  { intros b _. destruct (decide (b ∈ all_buses (r_clients r))) as [Hin|Hin];
      [left|right]; by rewrite <- elem_of_all_buses. }
  split; rsimpl.
  - by eapply lines_of_ok.
  - intros b Hb. destruct (Hdec b Hb) as [Hb1|Hb1]; [by apply (cur_positive r Hinv)|].
    by apply (extension_later _ _ _ _ b H1 Hext Hb Hb1).
  - done.
  - pose proof (cur_slot r Hinv). pose proof (all_buses_extend _ _ _ _ H1 H2 Hv). lia.
  - destruct (cur_at r Hinv) as [Hu Hat]. split; [done|]. intros b Hb.
    destruct (Hdec b Hb) as [Hb1|Hb1].
    + destruct (Hold b Hb1) as [_ ->]. by apply Hat.
    + destruct (extension_later _ _ _ _ b H1 Hext Hb Hb1) as (Hn & Hr & Hp).
      pose proof (cur_slot r Hinv). split; [lia|]. intros _. unfold next_of.
      destruct (r_cursorNextN r !! b.2) as [n|] eqn:E; cbn; [|lia].
      pose proof (Hn n (cur_next r Hinv _ _ E)). destruct (n =? 0); lia.
  - intros c n Hn. destruct (cur_next r Hinv c n Hn) as (c' & cl & w & Hcl & Hin & Hle).
    pose proof (H1 c') as H1c. cbv zeta in H1c. rewrite Hcl in H1c. destruct H1c as (_ & Hws & _).
    pose proof (H2 c') as H2c. cbv zeta in H2c. rewrite filter_app in H2c.
    destruct (l2 !! c') as [cl2|] eqn:E2.
    + destruct H2c as (_ & Hws2 & _). exists c', cl2, w. split; [done|]. split; [|done].
      rewrite Hws2. apply elem_of_app. left. by rewrite <- Hws.
    + exfalso. apply app_eq_nil in H2c as [H2c _]. rewrite <- Hws in H2c. rewrite H2c in Hin.
      by apply elem_of_nil in Hin.
  - intros s m Hm. destruct (cur_meta r Hinv s m Hm) as (Hs & Hsch & Hr & He).
    split; [done|]. destruct (Hold _ Hsch) as [? E]. split; [done|]. by rewrite E.
  - apply (cur_complete r Hinv).
Qed.
End inv.

(** ** Equality and prefixes *)

Lemma equal_elements_spec a b :
  length a = length b -> equal_elements a b = true <-> a = b.
Proof.
  revert b. induction a as [|x a IH]; intros [|y b] Hl; try done. cbn [equal_elements].
  injection Hl as Hl. case_decide as E; [|naive_solver]. rewrite IH by done. naive_solver.
Qed.

Lemma schedulesEqual_spec a b : schedulesEqual a b = true <-> a = b.
Proof.
  unfold schedulesEqual. destruct (decide (length a = length b)) as [E|E].
  - rewrite E, Nat.eqb_refl. by apply equal_elements_spec.
  - rewrite (proj2 (Nat.eqb_neq _ _)) by done. split; [done|]. by intros ->.
Qed.

Lemma schedulePrefix_spec a b : schedulePrefix a b = true <-> exists c, b = a ++ c.
Proof.
  unfold schedulePrefix. rewrite andb_true_iff, schedulesEqual_spec, Nat.leb_le. split.
  - intros [_ E]. exists (drop (length a) b). rewrite E at 1. by rewrite take_drop.
  - intros [c ->]. rewrite length_app, take_app_length. split; [lia|done].
Qed.

(** ** Appending a window *)

Lemma last_end_max s m m' :
  schedule_valid s -> last s = Some m' -> m ∈ s -> bs_EndTime m <= bs_EndTime m'.
Proof.
  intros [_ Hw Hs] Hl Hin. apply last_Some in Hl as [s0 ->].
  apply elem_of_app in Hin as [Hin|Hin%list_elem_of_singleton]; [|by subst].
  pose proof (StronglySorted_app_1_elem_of _ _ _ m m' Hs Hin ltac:(by left)) as [(_ & E & _)|Hle].
  - lia.
  - rewrite Forall_forall in Hw. pose proof (wok_end _ (Hw m' ltac:(set_solver))). lia.
Qed.

Lemma schedule_valid_app s1 s2 :
  schedule_valid s1 -> schedule_valid s2 -> Zlength (s1 ++ s2) <= MaxScheduleHistoryLen ->
  (forall m m', last s1 = Some m -> m' ∈ s2 -> bs_EndTime m <= bs_FirstMsgNs m') ->
  schedule_valid (s1 ++ s2) /\ later_windows s1 s2.
Proof.
  intros H1 H2 Hlen Hlast.
  assert (later_windows s1 s2) as Hlater.
  { intros m m' Hm Hm'. destruct (last s1) as [ml|] eqn:El.
    - pose proof (last_end_max s1 m ml H1 El Hm). specialize (Hlast ml m' eq_refl Hm'). lia.
    - apply last_None in El as ->. by apply elem_of_nil in Hm. }
  split; [|done]. split; [done| |].
  - apply Forall_app. split; [apply H1|apply H2].
  - apply StronglySorted_app_2; [|apply H1|apply H2]. intros m m' Hm Hm'. right. by apply Hlater.
Qed.

Lemma prepare_entries m qs entries :
  mapM (prepare_entry m) qs = Some entries ->
  length entries = length qs /\
  Forall (fun e => bs_FirstMsgNs e = sp_StartTime m /\ bs_EndTime e = sp_EndTime m) entries /\
  (Forall HsRequest_wf qs -> Forall entry_u64 entries).
Proof.
  intros H. apply mapM_Some in H. induction H as [|q e qs es Hq _ (IH1 & IH2 & IH3)].
  { split; [done|]. split; [constructor|intros; constructor]. }
  unfold prepare_entry in Hq. destruct (Z.eqb_spec (hs_StartTime q) (sp_StartTime m)) as [E|]; [|done].
  injection Hq as <-. split; [cbn; lia|]. split.
  - constructor; [|done]. cbn. done.
  - intros Hwf. inversion_clear Hwf as [|? ? Hwq Hwqs]. constructor; [|auto].
    destruct Hwq as (Hc & Hst & Hi). unfold entry_u64. cbn. split; [done|]. word_lia.
Qed.

(** * The invariant *)

Section sched_inv.
Context {TM : Treemap Value}.
Implicit Types r : Replica TM.

Record sched_inv r : Prop := {
  sci_valid : schedule_valid (r_schedule r);
  sci_lines : lines_of (r_clients r) (r_schedule r);
  sci_end : r_scheduleCommittedEnd r = 0 \/
    exists m, m ∈ r_schedule r /\ bs_EndTime m = r_scheduleCommittedEnd r;
  sci_proposal : forall p, r_scheduleProposal r = Some p ->
    (exists m, m ∈ r_schedule r /\ bs_EndTime m = sp_EndTime p) /\
    exists entries, mapM (prepare_entry p) (sp_HsReqList p) = Some entries /\
      forall e, e ∈ entries -> e ∈ r_schedule r;
  sci_clients : 0 <= cfg_ExpectedClients (r_config r);
  sci_requests : forall t m, r_scheduleRequests r !! t = Some m ->
    Z.of_nat (size m) <= cfg_ExpectedClients (r_config r) /\
    forall c q, m !! c = Some q -> HsRequest_wf q }.

(** [r] with the schedule's and the cursor's fields of [r'] *)
Definition with_sched r' r : Replica TM :=
  r <| r_clients := r_clients r' |> <| r_schedule := r_schedule r' |>
    <| r_scheduleEpoch := r_scheduleEpoch r' |> <| r_scheduleReady := r_scheduleReady r' |>
    <| r_scheduleInstallActive := r_scheduleInstallActive r' |>
    <| r_scheduleCommittedEnd := r_scheduleCommittedEnd r' |>
    <| r_scheduleRequests := r_scheduleRequests r' |>
    <| r_scheduleWindowWaiters := r_scheduleWindowWaiters r' |>
    <| r_scheduleProposal := r_scheduleProposal r' |>
    <| r_schedulePrepared := r_schedulePrepared r' |>
    <| r_scheduleLastSend := r_scheduleLastSend r' |>
    <| r_cursorNextN := r_cursorNextN r' |> <| r_cursorSlot := r_cursorSlot r' |>
    <| r_slotMeta := r_slotMeta r' |>.

(** only those fields change *)
Definition sched_frame r r' : Prop := r' = with_sched r' r.

Ltac sched_frame := unfold sched_frame, with_sched; replica_eq.

Lemma sched_frame_refl r : sched_frame r r.
Proof. unfold sched_frame, with_sched. destruct r. reflexivity. Qed.

Lemma sched_frame_trans r1 r2 r3 : sched_frame r1 r2 -> sched_frame r2 r3 -> sched_frame r1 r3.
Proof. unfold sched_frame. intros H1 H2. rewrite H2. rewrite H1. sched_frame. Qed.

Lemma commitScheduleHistory_frame r : sched_frame r (commitScheduleHistory r).
Proof. unfold commitScheduleHistory. destruct (last _); [sched_frame|apply sched_frame_refl]. Qed.

Lemma set_epoch_frame r epoch ready : sched_frame r (set_epoch r epoch ready).
Proof.
  unfold set_epoch. cbv zeta. destruct ready; [|sched_frame].
  eapply sched_frame_trans; [|apply commitScheduleHistory_frame]. sched_frame.
Qed.

Lemma resetCursor_frame r : sched_frame r (resetCursor r).
Proof. unfold resetCursor. cbv zeta. destruct (_ =? _); sched_frame. Qed.

Lemma installSchedule_frame r s epoch ready : sched_frame r (installSchedule r s epoch ready).
Proof.
  unfold installSchedule. cbv zeta. destruct (schedulesEqual _ _); [apply set_epoch_frame|].
  eapply sched_frame_trans; [|destruct (schedulePrefix _ _)];
    [|apply set_epoch_frame|eapply sched_frame_trans; [apply set_epoch_frame|apply resetCursor_frame]].
  sched_frame.
Qed.

(** ** Installing *)

Lemma set_epoch_fields r epoch ready :
  r_schedule (set_epoch r epoch ready) = r_schedule r /\
  r_clients (set_epoch r epoch ready) = r_clients r /\
  r_scheduleProposal (set_epoch r epoch ready) = r_scheduleProposal r /\
  r_scheduleRequests (set_epoch r epoch ready) = r_scheduleRequests r /\
  r_config (set_epoch r epoch ready) = r_config r /\
  r_scheduleCommittedEnd (set_epoch r epoch ready) =
    (if ready then match last (r_schedule r) with
                   | Some m => bs_EndTime m
                   | None => r_scheduleCommittedEnd r
                   end
     else r_scheduleCommittedEnd r).
Proof.
  unfold set_epoch, commitScheduleHistory. cbv zeta. rsimpl.
  destruct ready; rsimpl; [|done]. destruct (last (r_schedule r)); by rsimpl.
Qed.

Lemma set_epoch_inv r epoch ready : sched_inv r -> sched_inv (set_epoch r epoch ready).
Proof.
  intros [Hv Hl He Hp Hc Hr].
  destruct (set_epoch_fields r epoch ready) as (E1 & E2 & E3 & E4 & E5 & E6).
  split; rewrite ?E1, ?E2, ?E3, ?E4, ?E5, ?E6; [done..| |done|done|done].
  destruct ready; [|done]. destruct (last (r_schedule r)) as [m|] eqn:El; [|done].
  right. exists m. split; [by apply last_Some_elem_of|done].
Qed.

Lemma resetCursor_fields r :
  r_schedule (resetCursor r) = r_schedule r /\ r_clients (resetCursor r) = r_clients r /\
  r_scheduleProposal (resetCursor r) = r_scheduleProposal r /\
  r_scheduleCommittedEnd (resetCursor r) = r_scheduleCommittedEnd r.
Proof. unfold resetCursor. cbv zeta. destruct (_ =? _); by rsimpl. Qed.

(** installing an extension of the schedule keeps the invariant *)
Lemma installSchedule_inv r s2 epoch ready :
  sched_inv r -> schedule_valid (r_schedule r ++ s2) ->
  sched_inv (installSchedule r (r_schedule r ++ s2) epoch ready) /\
  r_schedule (installSchedule r (r_schedule r ++ s2) epoch ready) = r_schedule r ++ s2 /\
  r_scheduleProposal (installSchedule r (r_schedule r ++ s2) epoch ready) = r_scheduleProposal r.
Proof.
  intros Hinv Hv. unfold installSchedule. cbv zeta.
  destruct (schedulesEqual (r_schedule r) (r_schedule r ++ s2)) eqn:Eeq.
  { apply schedulesEqual_spec in Eeq. destruct (set_epoch_fields r epoch ready) as (E1 & _ & E3 & _).
    rewrite E1, E3. split; [by apply set_epoch_inv|done]. }
  rewrite (proj2 (schedulePrefix_spec (r_schedule r) (r_schedule r ++ s2))) by eauto.
  set (r1 := r <| r_clients := _ |> <| r_schedule := _ |>).
  assert (sched_inv r1) as H1.
  { destruct Hinv as [_ _ He Hp Hc Hr]. split; unfold r1; rsimpl.
    - done.
    - apply schedule_lines_of, Hv.
    - destruct He as [|(m & Hm & E)]; [by left|right]. exists m. split; [set_solver|done].
    - intros p E. destruct (Hp p E) as ((m & Hm & ?) & entries & Hes & Hin).
      split; [exists m; split; [set_solver|done]|]. exists entries. split; [done|set_solver].
    - done.
    - done. }
  destruct (set_epoch_fields r1 epoch ready) as (E1 & _ & E3 & _). rewrite E1, E3.
  split; [by apply set_epoch_inv|]. unfold r1. by rsimpl.
Qed.

Lemma group_at_in start l g e : group_at start l = Some g -> e ∈ g -> e ∈ l.
Proof.
  assert (forall l e, e ∈ take_group start l -> e ∈ l) as Htake.
  { clear. induction l as [|s l IH]; intros e; cbn [take_group]; [done|].
    destruct (_ =? _); [|by intros ?%elem_of_nil]. rewrite !elem_of_cons. naive_solver. }
  induction l as [|s l IH]; cbn [group_at]; [done|].
  destruct (_ =? _) eqn:E; [|intros H Hin; right; by apply IH].
  intros [= <-] Hin. apply (Htake (s :: l)). cbn [take_group]. by rewrite E in *.
Qed.

(** what a step of the agreement may do: nothing to the schedule, or append
    whole windows *)
Record sched_step r r' : Prop := {
  ss_inv : sched_inv r';
  ss_frame : sched_frame r r';
  ss_append : exists s2, r_schedule r' = r_schedule r ++ s2 }.

Lemma sched_step_refl r : sched_inv r -> sched_step r r.
Proof. intros H. split; [done|apply sched_frame_refl|]. exists []. by rewrite app_nil_r. Qed.

(** steps that change none of the invariant's fields, but the committed end *)
Lemma sched_step_same r r' :
  sched_inv r -> sched_frame r r' -> r_schedule r' = r_schedule r -> r_clients r' = r_clients r ->
  r_config r' = r_config r ->
  (r_scheduleCommittedEnd r' = r_scheduleCommittedEnd r \/
   exists m, m ∈ r_schedule r /\ bs_EndTime m = r_scheduleCommittedEnd r') ->
  (forall p, r_scheduleProposal r' = Some p -> r_scheduleProposal r = Some p) ->
  (forall t m, r_scheduleRequests r' !! t = Some m ->
     Z.of_nat (size m) <= cfg_ExpectedClients (r_config r) /\
     forall c q, m !! c = Some q -> HsRequest_wf q) ->
  sched_step r r'.
Proof.
  intros [Hv Hl He Hp Hc _] Hf Es Ec Ecfg Hend Hprop Hreq.
  split; [|done|exists []; by rewrite app_nil_r].
  split; rewrite ?Es, ?Ec, ?Ecfg; [done|done| | |done|done].
  - destruct Hend as [->|?]; [done|by right].
  - intros p E. by apply Hp, Hprop.
Qed.

Lemma acceptSchedulePrepare_spec r m :
  sched_inv r -> Forall HsRequest_wf (sp_HsReqList m) ->
  let r' := (acceptSchedulePrepare r m).1 in
  sched_step r r' /\ r_scheduleProposal r' = r_scheduleProposal r /\
  ((acceptSchedulePrepare r m).2 = true ->
     (exists e, e ∈ r_schedule r' /\ bs_EndTime e = sp_EndTime m) /\
     exists entries, mapM (prepare_entry m) (sp_HsReqList m) = Some entries /\
       forall e, e ∈ entries -> e ∈ r_schedule r').
Proof.
  intros Hinv Hwf. unfold acceptSchedulePrepare.
  pose proof (sched_step_refl r Hinv) as Hrefl.
  destruct (prepare_rejected r m) eqn:Er; [done|].
  destruct (mapM _ _) as [entries|] eqn:Em; [|done].
  destruct (prepare_entries m _ _ Em) as (Hlen & Hall & Hu64). rewrite Forall_forall in Hall.
  destruct (validateSchedule entries) eqn:Ev; [|done]. cbn [negb].
  apply validateSchedule_spec in Ev; [|by apply Hu64].
  assert (exists e, e ∈ entries) as [e He].
  { unfold prepare_rejected in Er. destruct entries as [|e ?]; [|exists e; by left].
    destruct (sp_HsReqList m); [|done]. cbn in Er. by rewrite !orb_true_r in Er. }
  destruct (group_at _ _) as [group|] eqn:Eg.
  { cbn [fst snd]. split; [done|]. split; [done|]. intros Eq%schedulesEqual_spec. subst group.
    split; [exists e; split; [by eapply group_at_in|by apply Hall]|].
    exists entries. split; [done|]. intros e' He'. by eapply group_at_in. }
  destruct (match last _ with Some s => _ | None => _ end) eqn:El; [done|].
  destruct (Z.ltb_spec MaxScheduleHistoryLen (Zlength (r_schedule r) + Zlength entries)); [done|].
  destruct (schedule_valid_app (r_schedule r) entries (sci_valid r Hinv) Ev) as [Hv _].
  { rewrite length_app. lia. }
  { intros m1 m2 Hl Hm2. rewrite Hl in El. apply Z.ltb_ge in El.
    destruct (Hall m2 Hm2) as [-> _]. done. }
  destruct (installSchedule_inv r entries (sp_ViewId m) false Hinv Hv) as (Hi & Es & Ep).
  set (r1 := installSchedule r _ _ _) in *. cbn [fst snd]. split; [split|split].
  - destruct Hi as [Hv1 Hl1 He1 Hp1 Hc1 Hr1]. by split; rsimpl.
  - eapply sched_frame_trans; [apply installSchedule_frame|]. fold r1. sched_frame.
  - rsimpl. eauto.
  - by rsimpl.
  - intros _. rsimpl. rewrite Es. split; [exists e; split; [set_solver|by apply Hall]|].
    exists entries. split; [done|]. set_solver.
Qed.

Lemma handleSchdPrepare_spec r m :
  sched_inv r -> SchdPrepare_wf m -> sched_step r (handleSchdPrepare r m).1.
Proof.
  intros Hinv (_ & _ & _ & _ & _ & Hwf). unfold handleSchdPrepare.
  pose proof (acceptSchedulePrepare_spec r m Hinv Hwf) as (H & _ & _).
  by destruct (acceptSchedulePrepare r m).
Qed.

Lemma handleSchdPrepareReply_spec r m : sched_inv r -> sched_step r (handleSchdPrepareReply r m).
Proof.
  intros Hinv. pose proof (sched_step_refl r Hinv). unfold handleSchdPrepareReply.
  destruct (r_scheduleProposal r) as [p|] eqn:Ep; [|done]. destruct (_ && _); [|done].
  apply sched_step_same; rsimpl; eauto using sci_requests. sched_frame.
Qed.

Lemma handleSchdCommit_spec r m : sched_inv r -> sched_step r (handleSchdCommit r m).
Proof.
  intros Hinv. pose proof (sched_step_refl r Hinv). unfold handleSchdCommit.
  destruct (_ || _); [done|]. destruct (existsb _ _) eqn:E; [|done].
  apply existsb_exists in E as (s & Hs & E). apply list_elem_of_In in Hs.
  apply andb_prop in E as [_ E]. apply Z.eqb_eq in E. cbv zeta.
  destruct (_ <? _); apply sched_step_same; rsimpl; eauto using sci_requests; sched_frame.
Qed.

Lemma handleScheduleInstall_spec r m :
  sched_inv r -> BusScheduleInstall_wf m -> sched_step r (handleScheduleInstall r m).1.
Proof.
  intros Hinv (_ & _ & _ & Hwf). pose proof (sched_step_refl r Hinv). unfold handleScheduleInstall.
  destruct (install_rejected r m) eqn:Er; [done|].
  assert (schedule_valid (si_Schedule m)) as Hv.
  { unfold install_rejected in Er. apply orb_false_iff in Er as [_ Er]. apply negb_false_iff in Er.
    apply validateSchedule_spec; [|done]. eapply Forall_impl; [apply Hwf|].
    intros e (Ht & Hc & Hf & Hi). unfold entry_u64. split; [done|]. word_lia. }
  destruct (last (si_Schedule m)) as [s|] eqn:El; [|done].
  destruct (schedulePrefix (r_schedule r) (si_Schedule m)) eqn:E1.
  { apply schedulePrefix_spec in E1 as [s2 E2]. cbn [fst]. rewrite E2 in *.
    destruct (installSchedule_inv r s2 (si_Epoch m) true Hinv Hv) as (Hi & Es & _).
    split; [done|apply installSchedule_frame|eauto]. }
  destruct (schedulePrefix (si_Schedule m) (r_schedule r)) eqn:E2; [|done].
  apply schedulePrefix_spec in E2 as [s2 E2]. cbv zeta. cbn [fst].
  assert (s ∈ r_schedule r) as Hs.
  { rewrite E2. apply elem_of_app. left. by apply last_Some_elem_of. }
  destruct (_ <? _); apply sched_step_same; rsimpl; eauto using sci_requests; sched_frame.
Qed.

(** ** The leader's steps *)

Lemma handleHsRequest_spec r m lw wall :
  sched_inv r -> HsRequest_wf m -> sched_step r (handleHsRequest r m lw wall).1.
Proof.
  intros Hinv Hm. pose proof (sched_step_refl r Hinv) as Hrefl. unfold handleHsRequest. cbv zeta.
  destruct (_ || _); [done|]. destruct (_ || _); [done|].
  destruct (scheduled_reply r m); [done|].
  destruct (request_too_late_or_early _ _ _); [done|].
  set (t := hs_StartTime m). set (reqs := default ∅ (r_scheduleRequests r !! t)).
  assert (Z.of_nat (size reqs) <= cfg_ExpectedClients (r_config r) /\
    forall c q, reqs !! c = Some q -> HsRequest_wf q) as [Hsize Hq].
  { unfold reqs. destruct (r_scheduleRequests r !! t) as [q|] eqn:E; cbn.
    - by apply (sci_requests r Hinv t).
    - rewrite map_size_empty. split; [apply Hinv|]. by intros c q H. }
  destruct (_ && (cfg_ExpectedClients (r_config r) <=? _)) eqn:Ef;
    cbn [fst]; (apply sched_step_same; rsimpl; eauto; [sched_frame|]);
    intros t' m' [[<- <-]|[_ H']]%lookup_insert_Some;
    try (by apply (sci_requests r Hinv t')); [done|].
  split.
  - destruct (reqs !! hs_ClientId m) as [q|] eqn:E.
    + rewrite map_size_insert_Some by (by rewrite E). done.
    + rewrite map_size_insert_None by done. cbn in Ef. lia.
  - intros c q Hcq. destruct (decide (hs_ClientId m = c)) as [<-|Hne].
    + rewrite lookup_insert_eq in Hcq. by injection Hcq as <-.
    + rewrite lookup_insert_ne in Hcq by done. exact (Hq c q Hcq).
Qed.

Lemma expire_spec r now : sched_inv r -> sched_step r (expireScheduleRequests r now).
Proof.
  intros Hinv. unfold expireScheduleRequests. cbv zeta. apply sched_step_same; rsimpl; eauto.
  - sched_frame.
  - intros t m [H _]%map_lookup_filter_Some. exact (sci_requests r Hinv t m H).
Qed.

Lemma sched_step_trans r1 r2 r3 : sched_step r1 r2 -> sched_step r2 r3 -> sched_step r1 r3.
Proof.
  intros [_ F1 [s1 E1]] [I2 F2 [s2 E2]]. split; [exact I2|exact (sched_frame_trans _ _ _ F1 F2)|].
  exists (s1 ++ s2). by rewrite E2, E1, app_assoc.
Qed.

Lemma sorted_requests_wf r t :
  sched_inv r -> Forall HsRequest_wf (sorted_requests (default ∅ (r_scheduleRequests r !! t))).
Proof.
  intros Hinv. apply Forall_forall. intros q Hq. unfold sorted_requests in Hq.
  apply list_elem_of_omap in Hq as (c & _ & Hc).
  destruct (r_scheduleRequests r !! t) as [m|] eqn:E; cbn in Hc; [|done].
  destruct (sci_requests r Hinv t m E) as [_ H]. exact (H c q Hc).
Qed.

Lemma propose_spec r now : sched_inv r -> sched_step r (propose r now).
Proof.
  intros Hinv. pose proof (sched_step_refl r Hinv) as Hrefl. unfold propose. cbv zeta.
  destruct (r_scheduleInstallActive r); [done|]. destruct (_ =? 0); [done|].
  pose proof (sorted_requests_wf r (due_window r now) Hinv) as Hwf.
  set (start := due_window r now) in *.
  set (r1 := r <| r_scheduleRequests ::= delete start |>).
  assert (sched_step r r1) as H1.
  { apply sched_step_same; unfold r1; rsimpl; eauto.
    - sched_frame.
    - intros t m [_ H]%lookup_delete_Some. exact (sci_requests r Hinv t m H). }
  destruct (start <? _); [done|].
  set (msg := {| sp_ReplicaId := _ |}).
  pose proof (acceptSchedulePrepare_spec r1 msg (ss_inv _ _ H1) Hwf) as (H2 & Ep & He).
  destruct (acceptSchedulePrepare r1 msg) as [r2 ok]. cbn [fst snd] in *.
  pose proof (sched_step_trans _ _ _ H1 H2) as H12. destruct ok; [|done].
  destruct H12 as [[Hv Hl Hend Hp Hc Hr] F [s2 E]]. split; [split; rsimpl; try done| |rsimpl; eauto].
  - intros p [= <-]. by apply He.
  - eapply sched_frame_trans; [exact F|]. sched_frame.
Qed.

Lemma drive_proposal_spec r msg mono :
  sched_inv r -> r_scheduleProposal r = Some msg -> sched_step r (drive_proposal r msg mono).1.
Proof.
  intros Hinv Hp. unfold drive_proposal. cbv zeta. cbn [fst].
  destruct (sci_proposal r Hinv msg Hp) as ((e & He & Hend) & _).
  destruct (QuorumSize (r_config r) <=? _); cbn [orb];
    [|destruct (send_due _ _)]; apply sched_step_same; rsimpl; eauto using sci_requests;
    try (intros; discriminate); sched_frame.
Qed.

Lemma scheduleLoop_spec r wall wall' mono :
  sched_inv r -> sched_step r (scheduleLoop r wall wall' mono).1.
Proof.
  intros Hinv. unfold scheduleLoop. cbv zeta. destruct (_ || _); [by apply sched_step_refl|].
  pose proof (expire_spec r (u64 wall) Hinv) as H1.
  pose proof (propose_spec _ (u64 wall') (ss_inv _ _ H1)) as H2.
  pose proof (sched_step_trans _ _ _ H1 H2) as H12. set (r2 := propose _ _) in *.
  destruct (r_scheduleProposal r2) as [msg|] eqn:Ep.
  - eapply sched_step_trans; [exact H12|]. apply drive_proposal_spec; [apply H12|done].
  - eapply sched_step_trans; [exact H12|]. unfold repeat_schedule. pose proof (ss_inv _ _ H12) as Hi.
    destruct (_ && _); [|by apply sched_step_refl].
    apply sched_step_same; rsimpl; eauto using sci_requests. sched_frame.
Qed.
End sched_inv.
