(* ===== verification/Merge.v ===== *)
(** View-change reports and their merge ([recovery.go]: [buildViewChangeLocked],
    the bitmap of filled slots, [mergeSuffix], [mergeCanonicalBoundary]), and the
    start-view messages made of the merge ([initialStartViewMsgLocked],
    [startViewMsg], [validStartView]). *)
From stdpp Require Import sorting.
From S2P Require Import Prelude WireBase Wire WireStream Config Lines GlobalOrder State.
From S2P Require Import ReplicaState Cursor Log.

(** * Bitmaps *)

Definition suffixBase (stable : Z) (hasStable : bool) : Z :=
  if negb hasStable then 0 else add64 stable 1.

Definition setBit (bm : list byte) (i : Z) : list byte :=
  let idx := i / 8 in
  if idx <? Zlength bm
  then alter (fun b => byte_of (Z.lor (byte_val b) (Z.shiftl 1 (i mod 8)))) (Z.to_nat idx) bm
  else bm.

Definition bitSet (bm : list byte) (i : Z) : bool :=
  let idx := i / 8 in
  (idx <? Zlength bm) &&
  negb (Z.land (byte_val (default x00 (bm !! Z.to_nat idx))) (Z.shiftl 1 (i mod 8)) =? 0).

(** * Reports *)

#[export] Instance eta_BusViewChange : Eta BusViewChange := fun m =>
  mkBusViewChange (vc_SenderIdx m) (vc_ViewId m) (vc_LastNormalView m) (vc_StableSlot m)
    (vc_HasStable m) (vc_PrefixHash m) (vc_NextExpected m) (vc_MaxSlotFilled m) (vc_HasMax m)
    (vc_BitmapBase m) (vc_FilledBitmap m) (vc_NoOpSlots m) (vc_Schedule m).

Section report.
Context {TM : Treemap Value}.
Implicit Types r : Replica TM.

(** a slot below [nextExpected] was executed, so filled *)
Definition report_state r (s : Z) : slotState :=
  match slotState_of r s with
  | slotEmpty => if s <? r_nextExpected r then slotReceived else slotEmpty
  | st => st
  end.

(** one turn of the loop over the slots *)
Definition report_slot r (base : Z) (m : BusViewChange) (s : Z) : BusViewChange :=
  let st := report_state r s in
  if bool_decide (st = slotEmpty) then m
  else
    let m := m <| vc_FilledBitmap ::= fun bm => setBit bm (sub64 s base) |>
               <| vc_MaxSlotFilled := s |> <| vc_HasMax := true |> in
    if bool_decide (st = slotNoOp) then m <| vc_NoOpSlots ::= fun l => l ++ [s] |> else m.

(** the slots reported, [base] and [top], before the bitmap's limit is applied *)
Definition report_base r : Z :=
  let base := suffixBase (r_stableSlot r) (r_haveStable r) in
  if base <? r_prunedBelow r then r_prunedBelow r else base.
Definition report_top r : Z :=
  let base := report_base r in
  let top := if base <? r_nextExpected r then sub64 (r_nextExpected r) 1 else base in
  if r_haveMax r && (top <? r_maxSlotSeen r) then r_maxSlotSeen r else top.

Definition report_header r (newView : Z) : BusViewChange :=
  let hash := if r_haveStable r then default 0 (prefixHashAt r (r_stableSlot r)) else 0 in
  {| vc_SenderIdx := u32 (r_idx r); vc_ViewId := newView; vc_LastNormalView := r_lastNormalView r;
     vc_StableSlot := if r_haveStable r then r_stableSlot r else 0;
     vc_HasStable := r_haveStable r; vc_PrefixHash := hash;
     vc_NextExpected := r_nextExpected r; vc_MaxSlotFilled := 0; vc_HasMax := false;
     vc_BitmapBase := 0; vc_FilledBitmap := []; vc_NoOpSlots := [];
     vc_Schedule := r_schedule r |}.

Definition buildViewChange r (newView : Z) : BusViewChange :=
  let m := report_header r newView in
  let base := report_base r in
  let top := report_top r in
  if top <? base then m <| vc_BitmapBase := base |> else
  let base := if MaxBitmapBytes * 8 <? sub64 top base + 1
              then sub64 top (MaxBitmapBytes * 8 - 1) else base in
  let m := m <| vc_BitmapBase := base |>
             <| vc_FilledBitmap := zeros (Z.to_nat ((sub64 top base + 8) / 8)) |> in
  foldl (report_slot r base) m (seqZ base (top - base + 1)).
End report.

(** * Merging *)

Record mergePlan := mkmergePlan {
  mp_sourceNormalView : Z;
  mp_stableSlot : Z; mp_hasStable : bool;
  mp_maxSlot : Z; mp_hasMax : bool;
  mp_noops : list Z;
  mp_donors : gmap Z (list Z);
  mp_selected : list Z;
  mp_catchUp : Z; mp_hasCatchUp : bool;
  mp_schedule : list BusSyncMessage;
  mp_scheduleConflict : bool }.

#[export] Instance eta_mergePlan : Eta mergePlan := fun p =>
  mkmergePlan (mp_sourceNormalView p) (mp_stableSlot p) (mp_hasStable p) (mp_maxSlot p)
    (mp_hasMax p) (mp_noops p) (mp_donors p) (mp_selected p) (mp_catchUp p) (mp_hasCatchUp p)
    (mp_schedule p) (mp_scheduleConflict p).

Definition mergePlan0 : mergePlan := mkmergePlan 0 0 false 0 false [] ∅ [] 0 false [] false.

Definition best_view (reports : list BusViewChange) : Z :=
  match reports with
  | [] => 0
  | m :: _ => foldl (fun best m => if best <? vc_LastNormalView m then vc_LastNormalView m else best)
                (vc_LastNormalView m) reports
  end.

Definition survivors_of (reports : list BusViewChange) : list BusViewChange :=
  filter (fun m => vc_LastNormalView m = best_view reports) reports.

(** the longest of the survivors' schedules; [true]: two of them conflict *)
Fixpoint merge_schedules (schedule : list BusSyncMessage) (ms : list BusViewChange)
    {struct ms} : list BusSyncMessage * bool :=
  match ms with
  | [] => (schedule, false)
  | m :: ms =>
      if Nat.eqb (length (vc_Schedule m)) 0 then merge_schedules schedule ms
      else if Nat.eqb (length schedule) 0 then merge_schedules (vc_Schedule m) ms
      else if schedulePrefix schedule (vc_Schedule m) then merge_schedules (vc_Schedule m) ms
      else if negb (schedulePrefix (vc_Schedule m) schedule) then (schedule, true)
      else merge_schedules schedule ms
  end.

(** the loop over the survivors' bounds; the last component is [bestNext] *)
Definition merge_stable (plan : mergePlan) (m : BusViewChange) : mergePlan :=
  if vc_HasStable m && (negb (mp_hasStable plan) || (mp_stableSlot plan <? vc_StableSlot m))
  then plan <| mp_stableSlot := vc_StableSlot m |> <| mp_hasStable := true |>
  else plan.
Definition merge_max (plan : mergePlan) (m : BusViewChange) : mergePlan :=
  if vc_HasMax m && (negb (mp_hasMax plan) || (mp_maxSlot plan <? vc_MaxSlotFilled m))
  then plan <| mp_maxSlot := vc_MaxSlotFilled m |> <| mp_hasMax := true |>
  else plan.
Definition merge_bounds (acc : mergePlan * Z) (m : BusViewChange) : mergePlan * Z :=
  let (plan, bestNext) := acc in
  let plan := merge_max (merge_stable plan m) m in
  if negb (mp_hasCatchUp plan) || (bestNext <? vc_NextExpected m)
  then (plan <| mp_catchUp := vc_SenderIdx m |> <| mp_hasCatchUp := true |>, vc_NextExpected m)
  else (plan, bestNext).

(** [m] reports slot [s] as received *)
Definition reports_received (s : Z) (m : BusViewChange) : bool :=
  negb (s <? vc_BitmapBase m) && bitSet (vc_FilledBitmap m) (sub64 s (vc_BitmapBase m)) &&
  negb (existsb (fun n => n =? s) (vc_NoOpSlots m)).

Definition donors_of (survivors : list BusViewChange) (s : Z) : list Z :=
  merge_sort Z.le (vc_SenderIdx <$> filter (fun m => reports_received s m = true) survivors).

(** a slot no survivor received is a no-op *)
Definition merge_slot (survivors : list BusViewChange) (acc : gset Z * gmap Z (list Z)) (s : Z) :
    gset Z * gmap Z (list Z) :=
  match donors_of survivors s with
  | [] => ({[s]} ∪ acc.1, delete s acc.2)
  | donors => (acc.1, <[s := donors]> acc.2)
  end.

Definition merge_header (reports : list BusViewChange) : mergePlan :=
  let survivors := survivors_of reports in
  let (schedule, conflict) := merge_schedules [] survivors in
  let plan := mergePlan0 <| mp_sourceNormalView := best_view reports |>
                <| mp_selected := merge_sort Z.le (vc_SenderIdx <$> survivors) |>
                <| mp_schedule := schedule |> <| mp_scheduleConflict := conflict |> in
  (foldl merge_bounds (plan, 0) survivors).1.

Definition mergeSuffix (reports : list BusViewChange) : mergePlan :=
  match reports with
  | [] => mergePlan0
  | _ =>
      let plan := merge_header reports in
      let base := suffixBase (mp_stableSlot plan) (mp_hasStable plan) in
      if negb (mp_hasMax plan) || (mp_maxSlot plan <? base) then plan
      else
        let '(noop, donors) := foldl (merge_slot (survivors_of reports)) (∅, ∅)
                                 (seqZ base (mp_maxSlot plan - base + 1)) in
        plan <| mp_donors := donors |> <| mp_noops := merge_sort Z.le (elements noop) |>
  end.

Definition mergeCanonicalBoundary (plan : mergePlan) : Z * bool :=
  let (maxSlot, hasMax) := if mp_hasStable plan then (mp_stableSlot plan, true) else (0, false) in
  if mp_hasMax plan && (negb hasMax || (maxSlot <? mp_maxSlot plan))
  then (mp_maxSlot plan, true) else (maxSlot, hasMax).

(** * Start-view messages *)

Section startview.
Context {TM : Treemap Value}.
Implicit Types r : Replica TM.

Definition initialStartViewMsg r (v : Z) (plan : mergePlan) (maxSlot : Z) (hasMax : bool) :
    BusStartView :=
  {| sv_ViewId := v; sv_SourceNormalView := mp_sourceNormalView plan;
     sv_StableSlot := if mp_hasStable plan then mp_stableSlot plan else 0;
     sv_HasStable := mp_hasStable plan;
     sv_MaxSlot := maxSlot; sv_HasMax := hasMax;
     sv_PrefixHash := if mp_hasStable plan
                      then default 0 (prefixHashAt r (mp_stableSlot plan)) else 0;
     sv_SenderIdx := u32 (r_idx r); sv_NoOpSlots := mp_noops plan;
     sv_SelectedReports := mp_selected plan; sv_Schedule := mp_schedule plan |}.

(** the no-ops a started view announces, from the commit point up *)
Definition startView_noops r (base maxSlot : Z) : list Z :=
  filter (fun s => slotState_of r s = slotNoOp) (seqZ base (maxSlot - base + 1)).

Definition startViewMsg r : option BusStartView :=
  if negb (bool_decide (r_status r = statusNormal)) then None else
  let own := r_startViewView r =? view r in
  let hasMax := 0 <? r_nextExpected r in
  let maxSlot := if hasMax then r_nextExpected r - 1 else 0 in
  Some {| sv_ViewId := view r;
          sv_SourceNormalView := if own then r_startViewSource r else r_lastNormalView r;
          sv_StableSlot := if r_haveStable r then r_stableSlot r else 0;
          sv_HasStable := r_haveStable r;
          sv_MaxSlot := maxSlot; sv_HasMax := hasMax;
          sv_PrefixHash := if r_haveStable r then default 0 (prefixHashAt r (r_stableSlot r)) else 0;
          sv_SenderIdx := u32 (r_idx r);
          sv_NoOpSlots := if hasMax
                          then startView_noops r (suffixBase (r_stableSlot r) (r_haveStable r)) maxSlot
                          else [];
          sv_SelectedReports := if own then r_startViewUsed r else [];
          sv_Schedule := r_schedule r |}.

(** every replica of the list exists and is named once *)
Fixpoint valid_selected (n : Z) (seen : gset Z) (l : list Z) {struct l} : bool :=
  match l with
  | [] => true
  | i :: l => if n <=? i then false
              else if decide (i ∈ seen) then false else valid_selected n ({[i]} ∪ seen) l
  end.

Definition validStartView r (msg : BusStartView) : bool :=
  if Nat.ltb 0 (length (sv_Schedule msg)) && negb (validateSchedule (sv_Schedule msg)) then false
  else if sv_ViewId msg <? sv_SourceNormalView msg then false
  else if (cfg_N (r_config r) <=? sv_SenderIdx msg) ||
          negb (sv_SenderIdx msg =? LeaderIndex (r_config r) (sv_ViewId msg)) then false
  else if sv_HasStable msg && (negb (sv_HasMax msg) || (sv_MaxSlot msg <? sv_StableSlot msg))
  then false
  else if sv_HasMax msg && (sv_MaxSlot msg =? W64 - 1) then false
  else
    let base := suffixBase (sv_StableSlot msg) (sv_HasStable msg) in
    if existsb (fun s => negb (sv_HasMax msg) || (s <? base) || (sv_MaxSlot msg <? s))
         (sv_NoOpSlots msg) then false
    else valid_selected (cfg_N (r_config r)) ∅ (sv_SelectedReports msg).
End startview.
