(* ===== verification/MergeSpec.v ===== *)
(** The bitmap of a report and the merge of reports, specified. *)
From stdpp Require Import sorting.
From S2P Require Import Prelude WireBase Wire WireStream Config Lines GlobalOrder State.
From S2P Require Import ReplicaState Cursor Log Admission ScheduleProto SchedInv Merge.

(** * Bitmaps *)

Lemma land_bit b k : 0 <= k -> negb (Z.land b (Z.shiftl 1 k) =? 0) = Z.testbit b k.
Proof.
  intros Hk. rewrite Z.shiftl_1_l. destruct (Z.testbit b k) eqn:E.
  - apply negb_true_iff, Z.eqb_neq. intros H.
    assert (Z.testbit (Z.land b (2 ^ k)) k = true) as Ht.
    { by rewrite Z.land_spec, E, Z.pow2_bits_true. }
    by rewrite H, Z.bits_0 in Ht.
  - apply negb_false_iff, Z.eqb_eq. apply Z.bits_inj'. intros j Hj.
    rewrite Z.land_spec, Z.bits_0. destruct (decide (j = k)) as [->|]; [by rewrite E|].
    by rewrite Z.pow2_bits_false, andb_false_r.
Qed.

Lemma byte_bit x k : 0 <= k < 8 -> Z.testbit (byte_val (byte_of x)) k = Z.testbit x k.
Proof. intros Hk. rewrite byte_val_of. change 256 with (2 ^ 8). apply Z.mod_pow2_bits_low. lia. Qed.

Lemma bitSet_testbit bm i :
  0 <= i -> bitSet bm i =
    match bm !! Z.to_nat (i / 8) with Some b => Z.testbit (byte_val b) (i mod 8) | None => false end.
Proof.
  intros Hi. unfold bitSet. pose proof (Z.mod_pos_bound i 8 eq_refl). rewrite land_bit by lia.
  assert (0 <= i / 8) by (apply Z.div_pos; lia).
  destruct (bm !! Z.to_nat (i / 8)) as [b|] eqn:E; cbn [default from_option id].
  - apply lookup_lt_Some in E. destruct (Z.ltb_spec (i / 8) (Zlength bm)); [done|lia].
  - apply lookup_ge_None in E. destruct (Z.ltb_spec (i / 8) (Zlength bm)); [lia|done].
Qed.

Lemma length_setBit bm i : length (setBit bm i) = length bm.
Proof. unfold setBit. destruct (_ <? _); [apply length_alter|done]. Qed.

Lemma bitSet_setBit bm i j :
  0 <= i -> 0 <= j -> i / 8 < Zlength bm -> bitSet (setBit bm i) j = (j =? i) || bitSet bm j.
Proof.
  intros Hi Hj Hlen. rewrite !bitSet_testbit by done. unfold setBit.
  rewrite (proj2 (Z.ltb_lt _ _)) by done.
  pose proof (Z.mod_pos_bound i 8 eq_refl). pose proof (Z.mod_pos_bound j 8 eq_refl).
  pose proof (Z.div_mod i 8 ltac:(lia)). pose proof (Z.div_mod j 8 ltac:(lia)).
  assert (0 <= i / 8) by (apply Z.div_pos; lia). assert (0 <= j / 8) by (apply Z.div_pos; lia).
  destruct (decide (Z.to_nat (j / 8) = Z.to_nat (i / 8))) as [E|E].
  - rewrite E, list_lookup_alter_eq.
    destruct (lookup_lt_is_Some_2 bm (Z.to_nat (i / 8))) as [b Hb]; [lia|].
    rewrite Hb. cbn [fmap option_fmap option_map]. rewrite byte_bit by lia.
    rewrite Z.lor_spec, Z.shiftl_1_l, orb_comm. f_equal.
    destruct (Z.eqb_spec j i) as [->|Hne]; [rewrite Z.pow2_bits_true by lia; done|].
    rewrite Z.pow2_bits_false; [done|]. lia.
  - rewrite list_lookup_alter_ne by done.
    destruct (Z.eqb_spec j i) as [->|Hne]; [done|]. done.
Qed.

Lemma bitSet_zeros n i : 0 <= i -> bitSet (zeros n) i = false.
Proof.
  intros Hi. rewrite bitSet_testbit by done. unfold zeros.
  destruct (replicate n x00 !! _) as [b|] eqn:E; [|done].
  apply lookup_replicate in E as [-> _]. change (byte_val x00) with 0. apply Z.bits_0.
Qed.

(** * The loop over the slots of a report *)

Section report.
Context {TM : Treemap Value}.
Implicit Types r : Replica TM.

Definition report_filled r (s : Z) : Prop := report_state r s <> slotEmpty.
#[local] Instance report_filled_dec r s : Decision (report_filled r s).
Proof. unfold report_filled. apply _. Defined.

(** what a report says of the slots [base, base + k) *)
Record reports r (base : Z) (k : nat) (m0 m : BusViewChange) : Prop := {
  rep_header : m = m0 <| vc_FilledBitmap := vc_FilledBitmap m |>
                     <| vc_MaxSlotFilled := vc_MaxSlotFilled m |> <| vc_HasMax := vc_HasMax m |>
                     <| vc_NoOpSlots := vc_NoOpSlots m |>;
  rep_length : length (vc_FilledBitmap m) = length (vc_FilledBitmap m0);
  rep_bits : forall s, base <= s ->
    bitSet (vc_FilledBitmap m) (s - base) = bool_decide (s < base + Z.of_nat k /\ report_filled r s);
  rep_noops : vc_NoOpSlots m =
    filter (fun s => report_state r s = slotNoOp) (seqZ base (Z.of_nat k));
  rep_max : if vc_HasMax m
            then (base <= vc_MaxSlotFilled m < base + Z.of_nat k /\ report_filled r (vc_MaxSlotFilled m) /\
                  forall s, vc_MaxSlotFilled m < s < base + Z.of_nat k -> ~ report_filled r s)
            else (vc_MaxSlotFilled m = 0 /\
                  forall s, base <= s < base + Z.of_nat k -> ~ report_filled r s) }.

Lemma report_loop r base m0 :
  0 <= base -> (forall s, base <= s -> bitSet (vc_FilledBitmap m0) (s - base) = false) ->
  vc_NoOpSlots m0 = [] -> vc_HasMax m0 = false -> vc_MaxSlotFilled m0 = 0 ->
  forall k : nat, base + Z.of_nat k <= W64 ->
    Z.of_nat k <= 8 * Zlength (vc_FilledBitmap m0) ->
    reports r base k m0 (foldl (report_slot r base) m0 (seqZ base (Z.of_nat k))).
Proof.
  intros Hb H0 Hn0 Hm0 Hx0. induction k as [|k IH]; intros Hk Hlen.
  { rewrite seqZ_nil by lia. cbn [foldl]. split; [by destruct m0|done| |done|].
    - intros s Hs. rewrite H0 by done. symmetry. apply bool_decide_eq_false. lia.
    - rewrite Hm0. split; [done|]. intros s Hs. lia. }
  rewrite seqZ_S, foldl_snoc. destruct IH as [IHh IHl IHb IHn IHm]; [lia..|].
  set (m := foldl _ m0 _) in *. set (s0 := base + Z.of_nat k).
  assert (forall s, s < base + Z.of_nat (S k) <-> s < base + Z.of_nat k \/ s = s0) as Hsplit by lia.
  unfold report_slot. cbv zeta. destruct (bool_decide_reflect (report_state r s0 = slotEmpty)) as [He|He].
  - split; [done|done| | |].
    + intros s Hs. rewrite IHb by done. apply bool_decide_ext. rewrite Hsplit.
      unfold report_filled. split; [naive_solver|]. intros [[?| ->] ?]; naive_solver.
    + rewrite seqZ_S, filter_app, <- IHn. rewrite filter_cons, filter_nil, decide_False by (fold s0; congruence).
      by rewrite app_nil_r.
    + destruct (vc_HasMax m); (split; [|try split]); try lia; try apply IHm.
      * intros s Hs. destruct (decide (s = s0)) as [->|]; [by intros H|]. apply IHm. lia.
      * intros s Hs. destruct (decide (s = s0)) as [->|]; [by intros H|]. apply IHm. lia.
  - assert (sub64 s0 base = Z.of_nat k) as Esub.
    { unfold sub64, s0. replace (base + Z.of_nat k - base) with (Z.of_nat k) by lia.
      apply u64_small. word_lia. }
    rewrite Esub.
    set (m1 := m <| vc_FilledBitmap ::= _ |> <| vc_MaxSlotFilled := _ |> <| vc_HasMax := _ |>).
    assert (Zlength (vc_FilledBitmap m) = Zlength (vc_FilledBitmap m0)) as El by (by rewrite IHl).
    assert (forall m', m' = m1 \/ m' = m1 <| vc_NoOpSlots ::= fun l => l ++ [s0] |> ->
      vc_NoOpSlots m' = filter (fun s => report_state r s = slotNoOp) (seqZ base (Z.of_nat (S k))) ->
      reports r base (S k) m0 m') as Hend.
    { intros m' Hm' Hno. split.
      - destruct Hm' as [-> | ->]; unfold m1; clear -IHh; clearbody m; destruct m0, m;
          lazy in IHh; injection IHh as -> -> -> -> -> -> -> -> ->; reflexivity.
      - destruct Hm' as [-> | ->]; unfold m1; rsimpl; by rewrite length_setBit.
      - intros s Hs. replace (vc_FilledBitmap m') with (setBit (vc_FilledBitmap m) (Z.of_nat k))
          by (destruct Hm' as [-> | ->]; done).
        rewrite bitSet_setBit, IHb by
          (first [lia|done|apply Z.div_lt_upper_bound; rewrite ?El; lia]).
        destruct (Z.eqb_spec (s - base) (Z.of_nat k)) as [E|E].
        + symmetry. apply bool_decide_eq_true. replace s with s0 by lia. split; [lia|done].
        + cbn [orb]. apply bool_decide_ext. rewrite Hsplit. split; [naive_solver|].
          intros [[?| ->] ?]; [naive_solver|lia].
      - done.
      - destruct Hm' as [-> | ->]; unfold m1; rsimpl; (split; [lia|]); (split; [done|]); intros s; lia. }
    destruct (bool_decide_reflect (report_state r s0 = slotNoOp)) as [Hn|Hn]; apply Hend.
    + by right.
    + rsimpl. unfold m1. rsimpl. rewrite seqZ_S, filter_app, <- IHn.
      by rewrite filter_cons, filter_nil, decide_True.
    + by left.
    + unfold m1. rsimpl. rewrite seqZ_S, filter_app, <- IHn.
      rewrite filter_cons, filter_nil, decide_False by done. by rewrite app_nil_r.
Qed.

(** the numbers a report is computed from are 64-bit *)
Record report_ok r : Prop := {
  ro_next : is_u64 (r_nextExpected r);
  ro_pruned : is_u64 (r_prunedBelow r);
  ro_stable : r_haveStable r = true -> is_u64 (r_stableSlot r);
  ro_max : is_u64 (r_maxSlotSeen r) }.

Lemma report_range r : report_ok r -> 0 <= report_base r <= report_top r /\ report_top r < W64.
Proof.
  intros [Hn Hp _ Hm]. unfold report_top. cbv zeta.
  assert (is_u64 (report_base r)) as Hb.
  { unfold report_base. cbv zeta. destruct (_ <? _); [done|]. unfold suffixBase.
    destruct (negb _); [by split|apply u64_range]. }
  assert (report_base r < r_nextExpected r -> sub64 (r_nextExpected r) 1 = r_nextExpected r - 1) as Hs.
  { intros H. unfold sub64. apply u64_small. word_lia. }
  destruct (Z.ltb_spec (report_base r) (r_nextExpected r)) as [H|H];
    [rewrite (Hs H)|]; destruct (r_haveMax r); cbn [andb];
    try destruct (Z.ltb_spec (r_nextExpected r - 1) (r_maxSlotSeen r));
    try destruct (Z.ltb_spec (report_base r) (r_maxSlotSeen r)); word_lia.
Qed.

(** the report describes the slots from [base] to [top]; the bitmap's limit
    only ever drops slots from the bottom *)
Lemma buildViewChange_spec r v :
  report_ok r ->
  let m := buildViewChange r v in
  let base := vc_BitmapBase m in
  let top := report_top r in
  report_base r <= base <= top /\ Zlength (vc_FilledBitmap m) <= MaxBitmapBytes /\
  (top - report_base r < MaxBitmapBytes * 8 -> base = report_base r) /\
  reports r base (Z.to_nat (top - base + 1))
    ((report_header r v) <| vc_BitmapBase := base |>
       <| vc_FilledBitmap := zeros (Z.to_nat ((top - base + 8) / 8)) |>) m.
Proof.
  intros Hok m base top. pose proof (report_range r Hok) as Hr. fold top in Hr.
  set (b := if MaxBitmapBytes * 8 <? top - report_base r + 1
            then top - (MaxBitmapBytes * 8 - 1) else report_base r).
  assert (0 < MaxBitmapBytes * 8 < W64) as Hmax by (by vm_compute).
  assert (report_base r <= b <= top /\ top - b + 1 <= MaxBitmapBytes * 8 /\
    (top - report_base r < MaxBitmapBytes * 8 -> b = report_base r)) as (Hb1 & Hb2 & Hb3).
  { unfold b. destruct (Z.ltb_spec (MaxBitmapBytes * 8) (top - report_base r + 1)); lia. }
  set (m0 := (report_header r v) <| vc_BitmapBase := b |>
               <| vc_FilledBitmap := zeros (Z.to_nat ((top - b + 8) / 8)) |>).
  assert (sub64 top (report_base r) = top - report_base r) as E1
    by (apply u64_small; word_lia).
  assert (m = foldl (report_slot r b) m0 (seqZ b (Z.of_nat (Z.to_nat (top - b + 1))))) as Em.
  { unfold m, buildViewChange. cbv zeta. fold top. rewrite (proj2 (Z.ltb_ge _ _)) by lia.
    rewrite E1. rewrite Z2Nat.id by lia.
    assert ((if MaxBitmapBytes * 8 <? top - report_base r + 1
             then sub64 top (MaxBitmapBytes * 8 - 1) else report_base r) = b) as ->.
    { unfold b. destruct (Z.ltb_spec (MaxBitmapBytes * 8) (top - report_base r + 1)); [|done].
      apply u64_small. word_lia. }
    unfold m0. assert (sub64 top b = top - b) as -> by (apply u64_small; word_lia).
    done. }
  assert (0 <= (top - b + 8) / 8 <= MaxBitmapBytes) as Hlen.
  { split; [apply Z.div_pos; lia|]. apply Z.lt_succ_r, Z.div_lt_upper_bound; lia. }
  pose proof (Z.div_mod (top - b + 8) 8 ltac:(lia)).
  pose proof (Z.mod_pos_bound (top - b + 8) 8 eq_refl).
  destruct (report_loop r b m0 ltac:(lia)) with (k := Z.to_nat (top - b + 1)) as [Hh Hl Hbit Hno Hmx].
  - intros s Hs. unfold m0. rsimpl. apply bitSet_zeros. lia.
  - done.
  - done.
  - done.
  - rewrite Z2Nat.id by lia. lia.
  - unfold m0. rsimpl. rewrite length_zeros. lia.
  - rewrite <- Em in *.
    assert (base = b) as Eb by (unfold base; rewrite Hh; done).
    rewrite Eb. split; [lia|]. split; [|split; [done|by split]].
    rewrite Hl. unfold m0. rsimpl. rewrite length_zeros. lia.
Qed.
End report.

(** * Folds that do not see the order *)

Lemma foldl_perm {A B} (f : A -> B -> A) l l' :
  (forall a x y, f (f a x) y = f (f a y) x) -> l ≡ₚ l' -> forall a, foldl f a l = foldl f a l'.
Proof.
  intros Hf. induction 1 as [|x l l' _ IH|x y l|l1 l2 l3 _ IH1 _ IH2]; intros a; cbn [foldl].
  - done.
  - apply IH.
  - by rewrite Hf.
  - by rewrite IH1.
Qed.

Lemma merge_sort_perm (l l' : list Z) : l ≡ₚ l' -> merge_sort Z.le l = merge_sort Z.le l'.
Proof.
  intros H. apply (Sorted_unique Z.le).
  - apply Sorted_merge_sort; apply _.
  - apply Sorted_merge_sort; apply _.
  - by rewrite !merge_sort_Permutation.
Qed.

Lemma elem_of_merge_sort (x : Z) l : x ∈ merge_sort Z.le l <-> x ∈ l.
Proof. by rewrite merge_sort_Permutation. Qed.

(** the greatest value of [val] on the elements that have one *)
Definition max_step {A} (has : A -> bool) (val : A -> Z) (acc : option Z) (m : A) : option Z :=
  if has m then Some (match acc with None => val m | Some v => Z.max v (val m) end) else acc.
Definition max_of {A} (has : A -> bool) (val : A -> Z) (l : list A) : option Z :=
  foldl (max_step has val) None l.

Lemma max_of_perm {A} has val (l l' : list A) : l ≡ₚ l' -> max_of has val l = max_of has val l'.
Proof.
  intros H. apply foldl_perm; [|done]. intros acc x y. unfold max_step.
  destruct (has x), (has y), acc; try done; f_equal; lia.
Qed.

Lemma max_of_spec {A} has val (l : list A) :
  match max_of has val l with
  | Some v => (exists m, m ∈ l /\ has m = true /\ val m = v) /\
              forall m, m ∈ l -> has m = true -> val m <= v
  | None => forall m, m ∈ l -> has m = false
  end.
Proof.
  unfold max_of. induction l as [|m l IH] using rev_ind; cbn; [by intros m ?%elem_of_nil|].
  rewrite foldl_snoc. unfold max_step at 1. destruct (has m) eqn:Em.
  - destruct (foldl _ None l) as [v|]; [destruct IH as ((m' & Hm' & Hh & E) & IH)|]; split.
    + destruct (Z.max_spec v (val m)) as [[_ ->]|[_ ->]];
        [exists m|exists m']; set_solver.
    + intros m1 [Hm1|Hm1%list_elem_of_singleton]%elem_of_app Hh1; [|subst; lia].
      specialize (IH m1 Hm1 Hh1). lia.
    + exists m. set_solver.
    + intros m1 [Hm1|Hm1%list_elem_of_singleton]%elem_of_app Hh1; [|subst; lia].
      by rewrite IH in Hh1.
  - destruct (foldl _ None l) as [v|]; [destruct IH as ((m' & Hm' & Hh & E) & IH); split|].
    + exists m'. set_solver.
    + intros m1 [Hm1|Hm1%list_elem_of_singleton]%elem_of_app Hh1; [auto|subst; congruence].
    + intros m1 [Hm1|Hm1%list_elem_of_singleton]%elem_of_app; [auto|by subst].
Qed.

(** * The best view and the survivors *)

Lemma best_view_max reports m : m ∈ reports -> vc_LastNormalView m <= best_view reports.
Proof.
  assert (forall l b, b <= foldl (fun best m => if best <? vc_LastNormalView m
      then vc_LastNormalView m else best) b l /\ forall m, m ∈ l -> vc_LastNormalView m <=
      foldl (fun best m => if best <? vc_LastNormalView m then vc_LastNormalView m else best) b l)
    as H.
  { induction l as [|m' l IH]; intros b; cbn [foldl]; [split; [lia|by intros ? ?%elem_of_nil]|].
    destruct (IH (if b <? vc_LastNormalView m' then vc_LastNormalView m' else b)) as [H1 H2].
    destruct (Z.ltb_spec b (vc_LastNormalView m')); (split; [lia|]);
      intros m1 [->|Hm1]%elem_of_cons; auto; lia. }
  unfold best_view. destruct reports as [|m0 l]; [by intros ?%elem_of_nil|]. apply H.
Qed.

Lemma best_view_in reports :
  reports <> [] -> exists m, m ∈ reports /\ vc_LastNormalView m = best_view reports.
Proof.
  assert (forall l b, foldl (fun best m => if best <? vc_LastNormalView m
      then vc_LastNormalView m else best) b l = b \/ exists m, m ∈ l /\ vc_LastNormalView m =
      foldl (fun best m => if best <? vc_LastNormalView m then vc_LastNormalView m else best) b l)
    as H.
  { induction l as [|m' l IH]; intros b; cbn [foldl]; [by left|].
    destruct (IH (if b <? vc_LastNormalView m' then vc_LastNormalView m' else b)) as [->|(m & Hm & E)].
    - destruct (_ <? _); [right; exists m'; set_solver|by left].
    - right. exists m. set_solver. }
  unfold best_view. destruct reports as [|m0 l]; [done|]. intros _.
  destruct (H (m0 :: l) (vc_LastNormalView m0)) as [->|?]; [|done]. exists m0. set_solver.
Qed.

Lemma best_view_perm reports reports' : reports ≡ₚ reports' -> best_view reports = best_view reports'.
Proof.
  intros H. destruct (decide (reports = [])) as [->|Hne]; [by apply Permutation_nil_l in H as ->|].
  assert (reports' <> []) as Hne'.
  { intros ->. by apply Permutation_nil_r in H. }
  destruct (best_view_in reports Hne) as (m & Hm & E), (best_view_in reports' Hne') as (m' & Hm' & E').
  rewrite H in Hm. rewrite <- H in Hm'.
  pose proof (best_view_max _ _ Hm). pose proof (best_view_max _ _ Hm'). lia.
Qed.

Lemma elem_of_survivors reports m :
  m ∈ survivors_of reports <-> m ∈ reports /\ vc_LastNormalView m = best_view reports.
Proof. unfold survivors_of. rewrite list_elem_of_filter. naive_solver. Qed.

Lemma survivors_perm reports reports' :
  reports ≡ₚ reports' -> survivors_of reports ≡ₚ survivors_of reports'.
Proof. intros H. unfold survivors_of. rewrite (best_view_perm _ _ H). by rewrite H. Qed.

Lemma survivors_nonempty reports : reports <> [] -> survivors_of reports <> [].
Proof.
  intros Hne E. destruct (best_view_in reports Hne) as (m & Hm & Em).
  assert (m ∈ survivors_of reports) as Hs by (by apply elem_of_survivors).
  rewrite E in Hs. by apply elem_of_nil in Hs.
Qed.

(** * The schedules *)

Lemma merge_schedules_spec s ms :
  let all := s :: (vc_Schedule <$> ms) in
  let (S, conflict) := merge_schedules s ms in
  if conflict
  then exists a b, a ∈ all /\ b ∈ all /\ ~ a `prefix_of` b /\ ~ b `prefix_of` a
  else S ∈ all /\ forall a, a ∈ all -> a `prefix_of` S.
Proof.
  revert s. induction ms as [|m ms IH]; intros s; cbn [merge_schedules fmap list_fmap].
  { split; [by left|]. intros a ->%list_elem_of_singleton. done. }
  assert (forall a b, schedulePrefix a b = true <-> a `prefix_of` b) as Hp
    by (intros a b; apply schedulePrefix_spec).
  destruct (Nat.eqb_spec (length (vc_Schedule m)) 0) as [E|_].
  { apply nil_length_inv in E. rewrite E. specialize (IH s).
    destruct (merge_schedules s ms) as [S []]; cbv zeta in *.
    - destruct IH as (a & b & Ha & Hb & ?). exists a, b. split; [set_solver|]. split; [set_solver|done].
    - destruct IH as [HS IH]. split; [set_solver|]. intros a [->|[->|Ha]%elem_of_cons]%elem_of_cons.
      + apply IH. by left.
      + apply prefix_nil.
      + apply IH. by right. }
  specialize (IH (vc_Schedule m)) as IHm. specialize (IH s) as IHs. clear IH.
  assert (s `prefix_of` vc_Schedule m ->
    let (S, conflict) := merge_schedules (vc_Schedule m) ms in
    if conflict
    then exists a b, a ∈ s :: vc_Schedule m :: (vc_Schedule <$> ms) /\
           b ∈ s :: vc_Schedule m :: (vc_Schedule <$> ms) /\ ~ a `prefix_of` b /\ ~ b `prefix_of` a
    else S ∈ s :: vc_Schedule m :: (vc_Schedule <$> ms) /\
         forall a, a ∈ s :: vc_Schedule m :: (vc_Schedule <$> ms) -> a `prefix_of` S) as Hup.
  { intros Hsm. destruct (merge_schedules (vc_Schedule m) ms) as [S []]; cbv zeta in *.
    - destruct IHm as (a & b & Ha & Hb & ?). exists a, b. split; [by right|]. split; [by right|done].
    - destruct IHm as [HS IH]. split; [by right|]. intros a [->|Ha]%elem_of_cons; [|by apply IH].
      etrans; [exact Hsm|]. apply IH. by left. }
  destruct (Nat.eqb_spec (length s) 0) as [E|_].
  { apply nil_length_inv in E. subst s. apply Hup, prefix_nil. }
  destruct (schedulePrefix s (vc_Schedule m)) eqn:E1; [by apply Hup, Hp|].
  destruct (schedulePrefix (vc_Schedule m) s) eqn:E2; cbn [negb].
  - apply Hp in E2. destruct (merge_schedules s ms) as [S []]; cbv zeta in *.
    + destruct IHs as (a & b & Ha & Hb & ?). exists a, b. split; [set_solver|]. split; [set_solver|done].
    + destruct IHs as [HS IH]. split; [set_solver|]. intros a [->|[->|Ha]%elem_of_cons]%elem_of_cons.
      * apply IH. by left.
      * etrans; [exact E2|]. apply IH. by left.
      * apply IH. by right.
  - exists s, (vc_Schedule m). split; [by left|]. split; [right; by left|].
    rewrite <- !Hp. by rewrite E1, E2.
Qed.

Lemma merge_schedules_perm ms ms' :
  ms ≡ₚ ms' ->
  (merge_schedules [] ms).2 = (merge_schedules [] ms').2 /\
  ((merge_schedules [] ms).2 = false -> merge_schedules [] ms = merge_schedules [] ms').
Proof.
  intros H. pose proof (merge_schedules_spec [] ms) as H1. pose proof (merge_schedules_spec [] ms') as H2.
  cbv zeta in *. assert (forall a, a ∈ [] :: (vc_Schedule <$> ms) <-> a ∈ [] :: (vc_Schedule <$> ms')) as Hin.
  { intros a. by rewrite H. }
  destruct (merge_schedules [] ms) as [S c], (merge_schedules [] ms') as [S' c']. cbn [snd].
  destruct c, c'; [done| | |].
  - destruct H1 as (a & b & Ha%Hin & Hb%Hin & Hab & Hba). destruct H2 as [_ H2].
    destruct (prefix_weak_total a b S') as [?|?]; auto; done.
  - destruct H2 as (a & b & Ha%Hin & Hb%Hin & Hab & Hba). destruct H1 as [_ H1].
    destruct (prefix_weak_total a b S) as [?|?]; auto; done.
  - split; [done|]. intros _. destruct H1 as [HS H1], H2 as [HS' H2]. f_equal.
    apply (anti_symm prefix); [by apply H2, Hin|by apply H1, Hin].
Qed.

(** * The bounds *)

Definition bound_of (o : option Z) : Z * bool :=
  match o with Some v => (v, true) | None => (0, false) end.

Definition stable_of (p : mergePlan) : Z * bool := (mp_stableSlot p, mp_hasStable p).
Definition maxSlot_of (p : mergePlan) : Z * bool := (mp_maxSlot p, mp_hasMax p).

(** the fields of [p'] the loop over the bounds sets, the others of [p] *)
Definition with_bounds (p p' : mergePlan) : mergePlan :=
  p <| mp_stableSlot := mp_stableSlot p' |> <| mp_hasStable := mp_hasStable p' |>
    <| mp_maxSlot := mp_maxSlot p' |> <| mp_hasMax := mp_hasMax p' |>
    <| mp_catchUp := mp_catchUp p' |> <| mp_hasCatchUp := mp_hasCatchUp p' |>.

Lemma merge_stable_step p m o :
  stable_of p = bound_of o ->
  stable_of (merge_stable p m) = bound_of (max_step vc_HasStable vc_StableSlot o m) /\
  maxSlot_of (merge_stable p m) = maxSlot_of p /\ mp_hasCatchUp (merge_stable p m) = mp_hasCatchUp p /\
  mp_catchUp (merge_stable p m) = mp_catchUp p /\
  with_bounds p (merge_stable p m) = merge_stable p m.
Proof.
  destruct p. unfold stable_of, merge_stable, max_step. cbn. intros E.
  destruct (vc_HasStable m); [|by destruct o]. destruct o as [v|]; injection E as -> ->; cbn; [|done].
  destruct (Z.ltb_spec v (vc_StableSlot m)); rsimpl; cbn; (split; [f_equal; lia|done]).
Qed.

Lemma merge_max_step p m o :
  maxSlot_of p = bound_of o ->
  maxSlot_of (merge_max p m) = bound_of (max_step vc_HasMax vc_MaxSlotFilled o m) /\
  stable_of (merge_max p m) = stable_of p /\ mp_hasCatchUp (merge_max p m) = mp_hasCatchUp p /\
  mp_catchUp (merge_max p m) = mp_catchUp p /\
  with_bounds p (merge_max p m) = merge_max p m.
Proof.
  destruct p. unfold maxSlot_of, merge_max, max_step. cbn. intros E.
  destruct (vc_HasMax m); [|by destruct o]. destruct o as [v|]; injection E as -> ->; cbn; [|done].
  destruct (Z.ltb_spec v (vc_MaxSlotFilled m)); rsimpl; cbn; (split; [f_equal; lia|done]).
Qed.

Lemma with_bounds_trans p1 p2 p3 :
  with_bounds p1 p2 = p2 -> with_bounds p2 p3 = p3 -> with_bounds p1 p3 = p3.
Proof.
  destruct p1, p2, p3. intros H1 H2. lazy in H1, H2. injection H1 as -> -> -> -> -> ->.
  injection H2 as -> -> -> -> -> ->. reflexivity.
Qed.

Lemma with_bounds_refl p : with_bounds p p = p.
Proof. by destruct p. Qed.

(** the loop over the survivors finds the greatest stable slot, the greatest
    filled slot, and the sender that executed furthest *)
Record bounds_of (plan : mergePlan) (ms : list BusViewChange) (res : mergePlan * Z) : Prop := {
  bo_stable : stable_of res.1 = bound_of (max_of vc_HasStable vc_StableSlot ms);
  bo_max : maxSlot_of res.1 = bound_of (max_of vc_HasMax vc_MaxSlotFilled ms);
  bo_frame : with_bounds plan res.1 = res.1;
  bo_catchUp : if mp_hasCatchUp res.1
    then exists m, m ∈ ms /\ mp_catchUp res.1 = vc_SenderIdx m /\ vc_NextExpected m = res.2 /\
           forall m', m' ∈ ms -> vc_NextExpected m' <= res.2
    else ms = [] }.

Lemma merge_bounds_spec plan ms :
  stable_of plan = (0, false) -> maxSlot_of plan = (0, false) -> mp_hasCatchUp plan = false ->
  bounds_of plan ms (foldl merge_bounds (plan, 0) ms).
Proof.
  intros E1 E2 E3. induction ms as [|m ms IH] using rev_ind.
  { cbn [foldl]. split; [done|done|apply with_bounds_refl|]. cbn [fst]. by rewrite E3. }
  rewrite foldl_snoc. destruct (foldl merge_bounds (plan, 0) ms) as [p n].
  destruct IH as [Hs Hm Hf Hc]. cbn [fst snd] in *.
  unfold merge_bounds.
  destruct (merge_stable_step p m _ Hs) as (S1 & S2 & S3 & S4 & S5). rewrite Hm in S2.
  destruct (merge_max_step (merge_stable p m) m _ S2) as (M1 & M2 & M3 & M4 & M5).
  rewrite S1 in M2. rewrite S3 in M3. rewrite S4 in M4.
  pose proof (with_bounds_trans _ _ _ (with_bounds_trans _ _ _ Hf S5) M5) as F.
  set (q := merge_max (merge_stable p m) m) in *.
  assert (forall ms' has (val : BusViewChange -> Z), max_of has val (ms' ++ [m]) =
    max_step has val (max_of has val ms') m) as Esnoc by (intros; apply foldl_snoc).
  destruct (negb (mp_hasCatchUp q) || (n <? vc_NextExpected m)) eqn:Ec.
  - split; cbn [fst snd].
    + rewrite Esnoc, <- M2. by destruct q.
    + rewrite Esnoc, <- M1. by destruct q.
    + rewrite <- F. by destruct plan.
    + rsimpl. exists m. split; [set_solver|]. split; [done|]. split; [done|].
      intros m' [Hm'|Hm'%list_elem_of_singleton]%elem_of_app; [|subst; lia].
      rewrite M3 in Ec. destruct (mp_hasCatchUp p); cbn [negb orb] in Ec.
      * destruct Hc as (_ & _ & _ & _ & Hmax). specialize (Hmax m' Hm'). lia.
      * subst ms. by apply elem_of_nil in Hm'.
  - apply orb_false_iff in Ec as [Ec1 Ec2]. apply negb_false_iff in Ec1. apply Z.ltb_ge in Ec2.
    split; cbn [fst snd]; [by rewrite Esnoc, <- M2|by rewrite Esnoc, <- M1|done|].
    rewrite Ec1. rewrite M3 in Ec1. rewrite Ec1 in Hc. destruct Hc as (m' & Hm' & H1 & H2 & H3).
    exists m'. split; [set_solver|]. split; [congruence|]. split; [done|].
    intros m1 [Hm1|Hm1%list_elem_of_singleton]%elem_of_app; [auto|subst; lia].
Qed.

(** * The loop over the slots *)

Definition donors_at (ms : list BusViewChange) (lo hi s : Z) : option (list Z) :=
  if decide (lo <= s < hi) then match donors_of ms s with [] => None | l => Some l end else None.

Lemma merge_loop ms base k noop donors :
  foldl (merge_slot ms) (∅, ∅) (seqZ base (Z.of_nat k)) = (noop, donors) ->
  forall s, (s ∈ noop <-> base <= s < base + Z.of_nat k /\ donors_of ms s = []) /\
    (donors !! s) = donors_at ms base (base + Z.of_nat k) s.
Proof.
  revert noop donors. induction k as [|k IH]; intros noop donors.
  { rewrite seqZ_nil by lia. intros [= <- <-] s. unfold donors_at. rewrite decide_False by lia.
    split; [|by rewrite lookup_empty]. split; [set_solver|lia]. }
  rewrite seqZ_S, foldl_snoc. destruct (foldl _ _ _) as [no1 do1] eqn:E. unfold merge_slot.
  cbn [fst snd]. specialize (IH no1 do1 eq_refl). set (s0 := base + Z.of_nat k).
  destruct (donors_of ms s0) as [|d l] eqn:Ed; intros [= <- <-] s; specialize (IH s);
    destruct IH as [IH1 IH2]; unfold donors_at in *; (split; [|destruct (decide (s = s0)) as [->|Hne]]).
  - rewrite elem_of_union, elem_of_singleton, IH1. split.
    + intros [->|[? ?]]; (split; [lia|done]).
    + intros [Hr Hd]. destruct (decide (s = s0)); [by left|right]. split; [lia|done].
  - rewrite lookup_delete_eq, Ed. clear IH2. by case_decide.
  - rewrite lookup_delete_ne, IH2 by done.
    destruct (decide (base <= s < base + Z.of_nat k)), (decide (base <= s < base + Z.of_nat (S k)));
      try done; lia.
  - rewrite IH1. split; [intros [? ?]; split; [lia|done]|]. intros [Hr Hd].
    destruct (decide (s = s0)) as [->|]; [congruence|]. split; [lia|done].
  - rewrite lookup_insert_eq, Ed. rewrite decide_True by lia. done.
  - rewrite lookup_insert_ne, IH2 by done.
    destruct (decide (base <= s < base + Z.of_nat k)), (decide (base <= s < base + Z.of_nat (S k)));
      try done; lia.
Qed.

Lemma donors_of_perm ms ms' s : ms ≡ₚ ms' -> donors_of ms s = donors_of ms' s.
Proof. intros H. unfold donors_of. apply merge_sort_perm. by rewrite H. Qed.

Lemma elem_of_donors ms s i :
  i ∈ donors_of ms s <-> exists m, m ∈ ms /\ reports_received s m = true /\ vc_SenderIdx m = i.
Proof.
  unfold donors_of. rewrite elem_of_merge_sort, list_elem_of_fmap. setoid_rewrite list_elem_of_filter.
  naive_solver.
Qed.

(** ** The plan *)

(** the slots the merge decides: above the stable slot, up to the greatest
    filled one *)
Definition merged (plan : mergePlan) (s : Z) : Prop :=
  mp_hasMax plan = true /\ suffixBase (mp_stableSlot plan) (mp_hasStable plan) <= s <= mp_maxSlot plan.
#[export] Instance merged_dec plan s : Decision (merged plan s).
Proof. unfold merged. apply _. Defined.

Record merge_spec (reports : list BusViewChange) (plan : mergePlan) : Prop := {
  ms_view : mp_sourceNormalView plan = best_view reports;
  ms_selected : mp_selected plan = merge_sort Z.le (vc_SenderIdx <$> survivors_of reports);
  ms_schedule : (mp_schedule plan, mp_scheduleConflict plan) =
    merge_schedules [] (survivors_of reports);
  ms_stable : stable_of plan = bound_of (max_of vc_HasStable vc_StableSlot (survivors_of reports));
  ms_max : maxSlot_of plan = bound_of (max_of vc_HasMax vc_MaxSlotFilled (survivors_of reports));
  ms_catchUp : mp_hasCatchUp plan = true /\ exists m, m ∈ survivors_of reports /\
    mp_catchUp plan = vc_SenderIdx m /\
    forall m', m' ∈ survivors_of reports -> vc_NextExpected m' <= vc_NextExpected m;
  ms_noops_sorted : StronglySorted Z.lt (mp_noops plan);
  ms_noops : forall s, s ∈ mp_noops plan <-> merged plan s /\ donors_of (survivors_of reports) s = [];
  ms_donors : forall s, (mp_donors plan !! s) =
    if decide (merged plan s)
    then match donors_of (survivors_of reports) s with [] => None | l => Some l end else None }.

Lemma merge_header_spec reports :
  reports <> [] ->
  let plan := merge_header reports in
  mp_sourceNormalView plan = best_view reports /\
  mp_selected plan = merge_sort Z.le (vc_SenderIdx <$> survivors_of reports) /\
  (mp_schedule plan, mp_scheduleConflict plan) = merge_schedules [] (survivors_of reports) /\
  stable_of plan = bound_of (max_of vc_HasStable vc_StableSlot (survivors_of reports)) /\
  maxSlot_of plan = bound_of (max_of vc_HasMax vc_MaxSlotFilled (survivors_of reports)) /\
  (mp_hasCatchUp plan = true /\ exists m, m ∈ survivors_of reports /\
    mp_catchUp plan = vc_SenderIdx m /\
    forall m', m' ∈ survivors_of reports -> vc_NextExpected m' <= vc_NextExpected m) /\
  mp_noops plan = [] /\ mp_donors plan = ∅.
Proof.
  intros Hne. unfold merge_header. destruct (merge_schedules [] _) as [S c] eqn:Es.
  set (p0 := mergePlan0 <| mp_sourceNormalView := _ |> <| mp_selected := _ |>
               <| mp_schedule := _ |> <| mp_scheduleConflict := _ |>).
  destruct (merge_bounds_spec p0 (survivors_of reports)) as [H1 H2 H3 H4]; [done..|].
  set (res := foldl merge_bounds (p0, 0) (survivors_of reports)) in *. cbv zeta.
  rewrite <- H3 at 1 2 3 4. unfold with_bounds, p0. rsimpl.
  split; [done|]. split; [done|]. split; [done|]. split; [done|]. split; [done|]. split.
  - destruct (mp_hasCatchUp res.1).
    + split; [done|]. destruct H4 as (m & Hm & Hc & <- & Hmax). eauto.
    + by apply survivors_nonempty in Hne.
  - rewrite <- H3. unfold with_bounds, p0. by rsimpl.
Qed.

Lemma sorted_elements (X : gset Z) : StronglySorted Z.lt (merge_sort Z.le (elements X)).
Proof.
  assert (NoDup (merge_sort Z.le (elements X))) as Hnd.
  { rewrite merge_sort_Permutation. apply NoDup_elements. }
  assert (StronglySorted Z.le (merge_sort Z.le (elements X))) as Hs.
  { apply Sorted_StronglySorted; [apply _|]. apply Sorted_merge_sort; apply _. }
  revert Hnd Hs. generalize (merge_sort Z.le (elements X)). induction l as [|x l IH]; intros Hnd Hs.
  - constructor.
  - inversion_clear Hnd as [|? ? Hx Hnd']. inversion_clear Hs as [|? ? Hs' Hall].
    constructor; [auto|]. rewrite Forall_forall in Hall |- *. intros y Hy. specialize (Hall y Hy).
    assert (x <> y) by (intros ->; done). lia.
Qed.

Lemma mergeSuffix_spec reports :
  reports <> [] ->
  (forall m, m ∈ reports -> vc_HasStable m = true -> is_u64 (vc_StableSlot m)) ->
  merge_spec reports (mergeSuffix reports).
Proof.
  intros Hne Hu. destruct (merge_header_spec reports Hne) as (H1 & H2 & H3 & H4 & H5 & H6 & H7 & H8).
  unfold mergeSuffix. destruct reports as [|m0 l]; [done|]. set (reports := m0 :: l) in *. cbv zeta.
  set (plan := merge_header reports) in *.
  destruct (negb (mp_hasMax plan) || _) eqn:Eg.
  - assert (forall s, ~ merged plan s) as Hno.
    { intros s (Hm & Hs). rewrite Hm in Eg. cbn in Eg. lia. }
    split; try done.
    + rewrite H7. constructor.
    + intros s. rewrite H7. split; [by intros ?%elem_of_nil|]. intros [Hs _]. by apply Hno in Hs.
    + intros s. rewrite H8, lookup_empty. rewrite decide_False by apply Hno. done.
  - apply orb_false_iff in Eg as [Eh Eg]. apply negb_false_iff in Eh. apply Z.ltb_ge in Eg.
    set (base := suffixBase _ _) in *.
    destruct (foldl _ _ _) as [noop donors] eqn:Ef.
    replace (mp_maxSlot plan - base + 1) with (Z.of_nat (Z.to_nat (mp_maxSlot plan - base + 1))) in Ef by lia.
    pose proof (merge_loop _ _ _ _ _ Ef) as Hloop.
    replace (base + Z.of_nat (Z.to_nat (mp_maxSlot plan - base + 1))) with (mp_maxSlot plan + 1) in Hloop by lia.
    assert (forall s, merged (plan <| mp_donors := donors |>
        <| mp_noops := merge_sort Z.le (elements noop) |>) s <-> base <= s < mp_maxSlot plan + 1) as Hm.
    { intros s. unfold merged. rsimpl. fold base. split; [lia|]. split; [done|lia]. }
    split; rsimpl; try done.
    + apply sorted_elements.
    + intros s. rewrite elem_of_merge_sort, elem_of_elements, Hm. apply Hloop.
    + intros s. destruct (Hloop s) as [_ ->]. unfold donors_at.
      destruct (decide (base <= s < _)) as [Hd|Hd].
      * by rewrite decide_True by (by apply Hm).
      * by rewrite decide_False by (by rewrite Hm).
Qed.
