(* ===== verification/Gaps.v ===== *)
(** Gap recovery ([replica.go]): detecting a missing slot, asking for it,
    the leader's probe and the no-op agreement.

    A goroutine ([handleGap] and what it calls) is split at its waits: each
    piece between two waits is one step, with the goroutine's local variables
    as arguments.  [gs] is named by its allocation number. *)
From S2P Require Import Prelude WireBase Wire WireStream Config Lines GlobalOrder State.
From S2P Require Import ReplicaState Cursor Log Admission.

Section gaps.
  Context {TM : Treemap Value}.
  Implicit Types r : Replica TM.

(** * Bookkeeping *)

(** [r.gaps\[key\] == gs], for the state named [id] *)
Definition gap_is r (key : Z * Z) (id : Z) : bool :=
  match r_gaps r !! key with Some gs => gap_id gs =? id | None => false end.

(** [gapActiveLocked]: a cancelled state is no longer in [r.gaps]. *)
Definition gapActive r (key : Z * Z) (id : Z) : bool :=
  match r_gaps r !! key with
  | Some gs => (gap_id gs =? id) && (gap_view gs =? key.1) &&
               bool_decide (r_status r = statusNormal) && (view r =? key.1)
  | None => false
  end.

Definition leaderGapActive r (key : Z * Z) (id : Z) : bool :=
  gapActive r key id && (LeaderIndex (r_config r) key.1 =? r_idx r).

Definition finishGap r (key : Z * Z) (id : Z) : Replica TM :=
  if negb (gap_is r key id) then r else
  let r := r <| r_gaps ::= delete key |> in
  if Nat.eqb (size (r_gaps r)) 0 then drainPendingBuses r else r.

Definition cancelGaps r : Replica TM := r <| r_gaps := ∅ |>.

(** [r.gaps\[key\] = newGapState(now, view)] *)
Definition open_gap r (key : Z * Z) (now : Z) : Replica TM * gapState :=
  let gs := newGapState (r_nextAlloc r) now key.1 in
  (r <| r_gaps ::= <[key := gs]> |> <| r_nextAlloc ::= Z.succ |>
     <| r_winGaps ::= fun n => add64 n 1 |>, gs).

(** * Detection *)

Definition clientGapDue r (meta : slotMetaEntry) (now : Z) : bool :=
  let held := match r_clientControls r !! sm_clientId meta with
              | Some s => (0 <? view r) && (now <? ccs_holdUntil s)
              | None => false
              end in
  if held then false else
  let expected := match r_clients r !! sm_clientId meta with
                  | Some line => arrivalNs line (sm_reqId meta)
                  | None => sm_expectedNs meta
                  end in
  i64 (expected + r_gapDeltaNs r) <? now.

(** the loop over the slots from [slot] on *)
Fixpoint detect_slots (n : nat) r (slot wallNow monoNow : Z) : Replica TM * list effect :=
  match n with
  | O => (r, [])
  | S n =>
      let skip := detect_slots n r (slot + 1) wallNow monoNow in
      if filled r slot then skip else
      match r_slotMeta r !! slot with
      | None => skip
      | Some meta =>
          if negb (clientGapDue r meta wallNow) then skip else
          let key := (view r, slot) in
          match r_gaps r !! key with
          | Some _ => skip
          | None =>
              let (r, gs) := open_gap r key monoNow in
              let (r, fx) := detect_slots n r (slot + 1) wallNow monoNow in
              (r, StartGap key (gap_id gs) :: fx)
          end
      end
  end.

(** one turn of [gapDetectLoop] *)
Definition gapDetect r (wallNow monoNow : Z) : Replica TM * list effect :=
  if bool_decide (r_status r = statusNormal) && r_haveMax r && Nat.ltb 0 (size (r_clients r))
  then
    let r := genCursorUpTo r (r_maxSlotSeen r) in
    detect_slots (Z.to_nat (r_maxSlotSeen r + 1 - r_nextExpected r)) r (r_nextExpected r)
      wallNow monoNow
  else (r, []).

(** * The follower *)

Inductive gap_role := GapInactive | GapLeader | GapFollower.
Definition handleGap r (key : Z * Z) (id : Z) : gap_role :=
  if negb (gapActive r key id) then GapInactive
  else if LeaderIndex (r_config r) key.1 =? r_idx r then GapLeader else GapFollower.

Definition followerRecover_ask r (key : Z * Z) : list effect :=
  sendToPeer r (LeaderIndex (r_config r) key.1)
    (RGapRequest {| gq_Slot := key.2; gq_SenderIdx := u32 (r_idx r); gq_ViewId := key.1 |}).
(** [ownerLog]: who the log lines name as the slot's owner *)
Definition ownerLog r (slot : Z) : Replica TM * (Z * Z) :=
  match r_globalLog r !! slot with
  | Some e => entryOwner r slot e
  | None => let (r, m) := slotOwner r slot in (r, (sm_clientId m, sm_reqId m))
  end.

(** woken by [doneCh] *)
Definition followerRecover_done r (key : Z * Z) (id : Z) : Replica TM :=
  if negb (gapActive r key id) then r else (ownerLog (finishGap r key id) key.2).1.
(** woken by the timer *)
Definition followerRecover_timeout r (key : Z * Z) (id : Z) : Replica TM := finishGap r key id.

(** * The leader *)

Definition answerAskers r (v slot : Z) (askers : list Z) (op : list byte) (isBus : bool) :
    list effect :=
  askers ≫= fun j =>
    sendToPeer r j (RGapReply {| gr_Slot := slot; gr_SenderIdx := u32 (r_idx r); gr_ViewId := v;
                                 gr_Found := true; gr_Bus := isBus; gr_Op := op |}).

Definition askers_of r (key : Z * Z) : list Z :=
  match r_gaps r !! key with Some gs => elements (gap_askers gs) | None => [] end.

(** [slotGapPayloadLocked], [snapshotAskers], [finishGapLocked], and the
    answers *)
Definition finish_with_answers r (key : Z * Z) (id : Z) : Replica TM * list effect :=
  let slot := key.2 in
  let (op, isBus) := slotGapPayload r slot in
  let askers := askers_of r key in
  let r := finishGap r key id in
  (r, answerAskers r key.1 slot askers op isBus).

Definition gapRequest r (key : Z * Z) : replica_msg :=
  RGapRequest {| gq_Slot := key.2; gq_SenderIdx := u32 (r_idx r); gq_ViewId := key.1 |}.

(** up to the probe; the flag tells whether the goroutine goes on to it *)
Definition leaderResolve_start r (key : Z * Z) (id : Z) : Replica TM * list effect * bool :=
  if negb (leaderGapActive r key id) then (r, [], false) else
  let st := slotState_of r key.2 in
  if bool_decide (st = slotEmpty) then (r, broadcastToPeers r (gapRequest r key), true)
  else
    let (r, fx) := finish_with_answers r key id in
    (r, if bool_decide (st = slotReceived) then fx else [], false).

(** the probe takes one reply: found, everyone has answered, or go on *)
Inductive probe_result := ProbeFound (op : list byte) (isBus : bool) | ProbeAll | ProbeMore.
Definition probe_reply r (notFound : gset Z) (reply : BusGapReply) : gset Z * probe_result :=
  if gr_Found reply then (notFound, ProbeFound (gr_Op reply) (gr_Bus reply))
  else if validReplicaIndex r (gr_SenderIdx reply) && negb (gr_SenderIdx reply =? r_idx r)
  then let notFound := {[gr_SenderIdx reply]} ∪ notFound in
       (notFound, if Z.of_nat (size notFound) =? cfg_N (r_config r) - 1 then ProbeAll else ProbeMore)
  else (notFound, ProbeMore).

(** the goroutine receives from [gs.probeReplies] *)
Definition probe_take r (key : Z * Z) (id : Z) (notFound : gset Z) :
    Replica TM * gset Z * probe_result :=
  match r_gaps r !! key with
  | Some gs =>
      match gap_probeReplies gs with
      | reply :: rest =>
          if gap_id gs =? id then
            let (notFound, res) := probe_reply r notFound reply in
            (r <| r_gaps ::= <[key := gs <| gap_probeReplies := rest |>]> |>, notFound, res)
          else (r, notFound, ProbeMore)
      | [] => (r, notFound, ProbeMore)
      end
  | None => (r, notFound, ProbeMore)
  end.

Definition leaderResolve_found r (key : Z * Z) (id : Z) (op : list byte) (isBus : bool) :
    Replica TM * list effect :=
  if negb (leaderGapActive r key id) then (r, []) else
  let slot := key.2 in
  let (r, m) := slotOwner r slot in
  let (r, stored) := storeRecovered r slot (sm_clientId m) (sm_reqId m) op isBus in
  let r := if stored then r <| r_winRecovered ::= fun n => add64 n 1 |> else r in
  let r := advanceNextExpected r in
  finish_with_answers r key id.

(** nothing was found; the flag tells whether the no-op agreement starts *)
Definition leaderResolve_noop r (key : Z * Z) (id : Z) : Replica TM * list effect * bool :=
  if negb (leaderGapActive r key id) then (r, [], false) else
  let slot := key.2 in
  if bool_decide (slotState_of r slot = slotReceived) then
    let (r, fx) := finish_with_answers r key id in (r, fx, false)
  else
    let (r, ok) := setNoOp r slot in
    let r := if ok then r <| r_winNoops ::= fun n => add64 n 1 |> else r in
    (advanceNextExpected r, [], true).

Definition gapCommit r (key : Z * Z) : replica_msg :=
  RGapCommit {| gc_Slot := key.2; gc_SenderIdx := u32 (r_idx r); gc_ViewId := key.1 |}.

(** [collectNoOpQuorum]: the broadcast that starts it and, on each retry,
    repeats it; [None] when it gives up *)
Definition collect_broadcast r (key : Z * Z) (id : Z) : option (list effect) :=
  if negb (leaderGapActive r key id) then None else Some (broadcastToPeers r (gapCommit r key)).
(** one acknowledgement is taken *)
Definition collect_ack r (acked : gset Z) (idx : Z) : gset Z :=
  if validReplicaIndex r idx && negb (idx =? r_idx r) then {[idx]} ∪ acked else acked.
(** the test at the top of the loop *)
Definition collect_quorum r (acked : gset Z) : bool :=
  QuorumSize (r_config r) <=? Z.of_nat (size acked) + 1.
(** ... and what [collectNoOpQuorum] returns once it holds *)
Definition collect_end r (key : Z * Z) (id : Z) (acked : gset Z) : bool :=
  collect_quorum r acked && leaderGapActive r key id.
(** the goroutine receives from [gs.commitAcks] *)
Definition collect_take r (key : Z * Z) (id : Z) (acked : gset Z) : Replica TM * gset Z :=
  match r_gaps r !! key with
  | Some gs =>
      match gap_commitAcks gs with
      | idx :: rest =>
          if gap_id gs =? id
          then (r <| r_gaps ::= <[key := gs <| gap_commitAcks := rest |>]> |>, collect_ack r acked idx)
          else (r, acked)
      | [] => (r, acked)
      end
  | None => (r, acked)
  end.
(** [leaderResolve] ends: the gap is finished whether the quorum was reached or not *)
Definition leaderResolve_end r (key : Z * Z) (id : Z) (acked : bool) : Replica TM :=
  let r := finishGap r key id in
  if acked then (ownerLog r key.2).1 else r.

(** * Handlers *)

Definition ensureLeaderResolve r (v slot asker now : Z) : Replica TM * list effect :=
  let key := (v, slot) in
  if negb (bool_decide (r_status r = statusNormal)) || negb (view r =? v) ||
     negb (LeaderIndex (r_config r) v =? r_idx r) then (r, []) else
  let '(r, id, fx) :=
    match r_gaps r !! key with
    | Some gs => (r, gap_id gs, [])
    | None => let (r, gs) := open_gap r key now in (r, gap_id gs, [StartGap key (gap_id gs)])
    end in
  let r := r <| r_gaps ::= alter (fun gs => gs <| gap_askers ::= fun a => {[asker]} ∪ a |>) key |> in
  ((slotOwner r slot).1, fx).

Definition handleGapRequest r (msg : BusGapRequest) (now : Z) : Replica TM * list effect :=
  if negb (validReplicaIndex r (gq_SenderIdx msg)) then (r, []) else
  let slot := gq_Slot msg in
  if negb (bool_decide (r_status r = statusNormal)) || negb (gq_ViewId msg =? view r)
  then (r, []) else
  let leader := LeaderIndex (r_config r) (gq_ViewId msg) in
  let amLeader := leader =? r_idx r in
  if negb amLeader && negb (gq_SenderIdx msg =? leader) then (r, []) else
  let st := slotState_of r slot in
  let (op, isBus) := slotGapPayload r slot in
  let reclaimed := bool_decide (st = slotEmpty) && executed r slot in
  if negb amLeader then
    let found := bool_decide (st = slotReceived) in
    (r, sendToPeer r (gq_SenderIdx msg)
          (RGapReply {| gr_Slot := slot; gr_SenderIdx := u32 (r_idx r); gr_ViewId := gq_ViewId msg;
                        gr_Found := found; gr_Bus := if found then isBus else false;
                        gr_Op := if found then op else [] |}))
  else match st with
  | slotReceived =>
      (r, sendToPeer r (gq_SenderIdx msg)
            (RGapReply {| gr_Slot := slot; gr_SenderIdx := u32 (r_idx r);
                          gr_ViewId := gq_ViewId msg; gr_Found := true; gr_Bus := isBus;
                          gr_Op := op |}))
  | slotNoOp =>
      (r, sendToPeer r (gq_SenderIdx msg)
            (RGapCommit {| gc_Slot := slot; gc_SenderIdx := u32 (r_idx r);
                           gc_ViewId := gq_ViewId msg |}))
  | slotEmpty =>
      if reclaimed then (r, [])
      else ensureLeaderResolve r (gq_ViewId msg) slot (gq_SenderIdx msg) now
  end.

(** [gs.probeReplies] and [gs.commitAcks] have capacity 8. *)
Definition push8 {A} (x : A) (q : list A) : list A :=
  if Nat.ltb (length q) 8 then q ++ [x] else q.

Definition active_gap r (key : Z * Z) : option gapState :=
  match r_gaps r !! key with
  | Some gs => if gapActive r key (gap_id gs) then Some gs else None
  | None => None
  end.

Definition handleGapReply r (msg : BusGapReply) : Replica TM :=
  if negb (validReplicaIndex r (gr_SenderIdx msg)) then r else
  let key := (gr_ViewId msg, gr_Slot msg) in
  match active_gap r key with
  | None => r
  | Some gs =>
      let leader := LeaderIndex (r_config r) (gr_ViewId msg) in
      if leader =? r_idx r then
        if gr_SenderIdx msg =? r_idx r then r
        else r <| r_gaps ::= alter (fun gs => gs <| gap_probeReplies ::= push8 msg |>) key |>
      else if negb (gr_SenderIdx msg =? leader) || negb (gr_Found msg) then r
      else
        let (r, m) := slotOwner r (gr_Slot msg) in
        let (r, stored) := storeRecovered r (gr_Slot msg) (sm_clientId m) (sm_reqId m)
                             (gr_Op msg) (gr_Bus msg) in
        let r := if stored then r <| r_winRecovered ::= fun n => add64 n 1 |> else r in
        mark_done (advanceNextExpected r) key
  end.

Definition applyGapCommit r (slot : Z) : Replica TM * bool :=
  if bool_decide (slotState_of r slot = slotNoOp) then (r, true)
  else if executed r slot then (r, false)
  else
    let (r, ok) := setNoOp r slot in
    let r := if ok then r <| r_winNoops ::= fun n => add64 n 1 |> else r in
    (advanceNextExpected r, true).

Definition handleGapCommit r (msg : BusGapCommit) : Replica TM * list effect :=
  if negb (validReplicaIndex r (gc_SenderIdx msg)) then (r, []) else
  let key := (gc_ViewId msg, gc_Slot msg) in
  if negb (bool_decide (r_status r = statusNormal)) || negb (gc_ViewId msg =? view r) ||
     negb (gc_SenderIdx msg =? LeaderIndex (r_config r) (gc_ViewId msg)) then (r, []) else
  let (r, ack) := applyGapCommit r (gc_Slot msg) in
  let r := match active_gap r key with Some _ => mark_done r key | None => r end in
  if negb ack then (r, [])
  else (r, sendToPeer r (gc_SenderIdx msg)
             (RGapCommitReply {| ga_Slot := gc_Slot msg; ga_SenderIdx := u32 (r_idx r);
                                 ga_ViewId := gc_ViewId msg |})).

Definition handleGapCommitReply r (msg : BusGapCommitReply) : Replica TM :=
  if negb (validReplicaIndex r (ga_SenderIdx msg)) || (ga_SenderIdx msg =? r_idx r) then r else
  let key := (ga_ViewId msg, ga_Slot msg) in
  match r_gaps r !! key with
  | Some gs =>
      if leaderGapActive r key (gap_id gs)
      then r <| r_gaps ::= alter (fun gs => gs <| gap_commitAcks ::= push8 (ga_SenderIdx msg) |>) key |>
      else r
  | None => r
  end.
End gaps.
