(* ===== verification/Sync.v ===== *)
(** Synchronisation ([recovery.go]: [syncOnce], [maybeCommitSyncLocked], the
    three sync handlers) and the queue of state-fetch requests.

    [now] is the monotonic clock in nanoseconds.  A fetch request's [done] and
    [cancel] channels are not part of it: the fetch loop's result is returned to
    whoever waits, and cancellation is [fetchActive]. *)
From S2P Require Import Prelude WireBase Wire WireStream Config Lines GlobalOrder State.
From S2P Require Import ReplicaState Cursor Log Admission.

Section sync.
Context {TM : Treemap Value}.
Implicit Types r : Replica TM.

(** * Fetch requests *)

Definition fetchQ_cap : Z := 64.

Definition clearSyncCatchup r : Replica TM :=
  r <| r_syncCatchup ::= fun c => syncCatchup0 <| cu_generation := add64 (cu_generation c) 1 |> |>.

Definition syncCatchupMatches r (q : fetchReq) : bool :=
  let c := r_syncCatchup r in
  negb (fq_syncGen q =? 0) && cu_active c && (cu_generation c =? fq_syncGen q) &&
  (cu_view c =? fq_view q) && (cu_leader c =? fq_peer q).

Definition syncCatchupActive r (q : fetchReq) : bool :=
  syncCatchupMatches r q && bool_decide (r_status r = statusNormal) &&
  (view r =? fq_view q) && (LeaderIndex (r_config r) (fq_view q) =? fq_peer q).

Definition next_fetch r : Replica TM * Z :=
  let r := r <| r_fetchSeq ::= fun n => add64 n 1 |> in (r, r_fetchSeq r).

Definition newSyncFetch r (from to : Z) : Replica TM * fetchReq :=
  let c := r_syncCatchup r in
  let (r, id) := next_fetch r in
  (r, mkfetchReq (cu_leader c) from to (cu_view c) id (cu_generation c) 0 None None).

(** the send on [fetchQ]; [false] when the queue is full *)
Definition push_fetch r (q : fetchReq) : Replica TM * bool :=
  if Zlength (r_fetchQ r) <? fetchQ_cap then (r <| r_fetchQ ::= fun l => l ++ [q] |>, true)
  else (r, false).

Definition enqueueSyncFetch r (q : fetchReq) : Replica TM :=
  let (r, ok) := push_fetch r q in
  if ok then r else if syncCatchupMatches r q then clearSyncCatchup r else r.

Definition enqueueFetch r (peer from to : Z) : Replica TM :=
  if (peer <? 0) || (cfg_N (r_config r) <=? peer) || (peer =? r_idx r) || (to <? from) then r
  else
    let (r, id) := next_fetch r in
    (push_fetch r (mkfetchReq peer from to (view r) id 0 0 None None)).1.

(** * The sync round *)

Definition maybeCommitSync r : Replica TM * option BusSyncCommit :=
  match r_sync r with
  | Some s =>
      if sr_done s || (Z.of_nat (size (sr_acks s)) <? QuorumSize (r_config r)) then (r, None)
      else
        let r := r <| r_sync := Some (s <| sr_done := true |>) |> in
        let slot := yp_SlotToSync (sr_prepare s) in
        (setStable r slot,
         Some {| yc_ViewId := yp_ViewId (sr_prepare s); yc_StableSlot := slot;
                 yc_SenderIdx := u32 (r_idx r) |})
  | None => (r, None)
  end.

(** the round [syncOnce] opens: [None] when there is no executed slot whose
    prefix is known *)
Definition open_round r : option syncRound :=
  if r_nextExpected r =? 0 then None else
  let slot := r_nextExpected r - 1 in
  match prefixHashAt r slot with
  | Some h =>
      Some {| sr_prepare := {| yp_ViewId := view r; yp_SlotToSync := slot; yp_HasSlot := true;
                               yp_PrefixHash := h; yp_SenderIdx := u32 (r_idx r) |};
              sr_acks := {[u32 (r_idx r)]}; sr_done := false |}
  | None => None
  end.

Definition empty_prepare r : BusSyncPrepare :=
  {| yp_ViewId := view r; yp_SlotToSync := 0; yp_HasSlot := false; yp_PrefixHash := 0;
     yp_SenderIdx := u32 (r_idx r) |}.

Definition commit_effects r (commit : option BusSyncCommit) : list effect :=
  match commit with Some c => broadcastToPeers r (RSyncCommit c) | None => [] end.

Definition start_round r : Replica TM * list effect :=
  let round := open_round r in
  let r := r <| r_sync := round |> in
  let prep := match round with Some s => sr_prepare s | None => empty_prepare r end in
  let (r, commit) := match round with Some _ => maybeCommitSync r | None => (r, None) end in
  (r, broadcastToPeers r (RSyncPrepare prep) ++ commit_effects r commit).

Definition syncOnce r : Replica TM * list effect :=
  if negb (AmLeader r) || negb (bool_decide (r_status r = statusNormal))
  then (r <| r_sync := None |>, [])
  else
    match r_sync r with
    | Some s =>
        if negb (yp_ViewId (sr_prepare s) =? view r) || sr_done s then start_round r
        else (r, broadcastToPeers r (RSyncPrepare (sr_prepare s)))
    | None => start_round r
    end.

(** * Handlers *)

Definition requestCatchUp r (now : Z) : Replica TM * list effect :=
  let r := r <| r_lastHeartbeatNs := now |> <| r_leaderLost := false |> in
  (r, broadcastToPeers r (RStateQuery {| sq_ViewId := view r; sq_SenderIdx := u32 (r_idx r) |})).

Definition rewindToStableAndRefetch r (peer v stable : Z) (haveStable : bool) : Replica TM :=
  if negb haveStable then r
  else if negb (bool_decide (r_status r = statusNormal)) || negb (view r =? v) ||
          negb (LeaderIndex (r_config r) v =? peer) then r
  else
    let (r, ok) := rewindTo r (add64 stable 1) in
    if negb ok then r else
    let r := clearSlotsAbove r (add64 stable 1) in
    if stable <? r_maxSlotSeen r then enqueueFetch r peer (add64 stable 1) (r_maxSlotSeen r) else r.

(** [known = None]: the prefix is below the hash window *)
Definition answerSyncPrepare r (msg : BusSyncPrepare) (known : option Z) (stable : Z)
    (haveStable : bool) : Replica TM * list effect :=
  let current := bool_decide (r_status r = statusNormal) && (yp_ViewId msg =? view r) &&
                 (yp_SenderIdx msg =? LeaderIndex (r_config r) (yp_ViewId msg)) in
  let agree := (r, sendToPeer r (yp_SenderIdx msg)
                     (RSyncReply {| yr_ViewId := yp_ViewId msg; yr_Slot := yp_SlotToSync msg;
                                    yr_SenderIdx := u32 (r_idx r) |})) in
  if negb current then (r, [])
  else match known with
       | None => agree
       | Some h =>
           if negb (h =? yp_PrefixHash msg)
           then (rewindToStableAndRefetch r (yp_SenderIdx msg) (yp_ViewId msg) stable haveStable, [])
           else agree
       end.

(** the replica is behind the slot to synchronise: a catch-up fetch starts, or
    the one running is extended *)
Definition behind_catchup r (msg : BusSyncPrepare) : Replica TM :=
  let c := r_syncCatchup r in
  if negb (cu_active c) || negb (cu_view c =? yp_ViewId msg) || negb (cu_leader c =? yp_SenderIdx msg)
  then
    let r := clearSyncCatchup r in
    let r := r <| r_syncCatchup ::= fun c =>
                 c <| cu_view := yp_ViewId msg |> <| cu_leader := yp_SenderIdx msg |>
                   <| cu_target := yp_SlotToSync msg |> <| cu_prepare := msg |>
                   <| cu_active := true |> |> in
    let (r, q) := newSyncFetch r (r_nextExpected r) (yp_SlotToSync msg) in
    enqueueSyncFetch r q
  else if cu_target c <? yp_SlotToSync msg
  then r <| r_syncCatchup ::= fun c =>
              c <| cu_target := yp_SlotToSync msg |> <| cu_prepare := msg |> |>
  else r.

Definition handleSyncPrepare r (msg : BusSyncPrepare) (now : Z) : Replica TM * list effect :=
  if negb (validReplicaIndex r (yp_SenderIdx msg)) ||
     negb (yp_SenderIdx msg =? LeaderIndex (r_config r) (yp_ViewId msg)) then (r, [])
  else if yp_ViewId msg <? view r then (r, [])
  else if view r <? yp_ViewId msg then requestCatchUp r now
  else
    let r := r <| r_lastHeartbeatNs := now |> <| r_leaderLost := false |> in
    if negb (bool_decide (r_status r = statusNormal)) || negb (yp_HasSlot msg) then (r, [])
    else if (r_nextExpected r =? 0) || (r_nextExpected r - 1 <? yp_SlotToSync msg)
    then (behind_catchup r msg, [])
    else answerSyncPrepare r msg (prefixHashAt r (yp_SlotToSync msg)) (r_stableSlot r) (r_haveStable r).

Definition handleSyncReply r (msg : BusSyncReply) : Replica TM * list effect :=
  if negb (validReplicaIndex r (yr_SenderIdx msg)) || (yr_SenderIdx msg =? r_idx r) then (r, [])
  else match r_sync r with
       | Some s =>
           if negb (sr_done s) && (yp_ViewId (sr_prepare s) =? yr_ViewId msg) &&
              (yp_SlotToSync (sr_prepare s) =? yr_Slot msg)
           then
             let r := r <| r_sync := Some (s <| sr_acks ::= fun a => {[yr_SenderIdx msg]} ∪ a |>) |> in
             let (r, commit) := maybeCommitSync r in
             (r, commit_effects r commit)
           else (r, [])
       | None => (r, [])
       end.

Definition handleSyncCommit r (msg : BusSyncCommit) (now : Z) : Replica TM :=
  if negb (validReplicaIndex r (yc_SenderIdx msg)) then r
  else if bool_decide (r_status r = statusNormal) && (yc_ViewId msg =? view r) &&
          (yc_SenderIdx msg =? LeaderIndex (r_config r) (yc_ViewId msg))
  then (setStable r (yc_StableSlot msg)) <| r_lastHeartbeatNs := now |> <| r_leaderLost := false |>
  else r.
End sync.
