(* ===== verification/ViewChange.v ===== *)
(** View changes ([recovery.go]): suspicion, the view-change request and report
    rounds, the new leader's merge and the installation of the merged log.

    The goroutine [driveViewChange] is split at its waits.  Its [vc] and
    [watchdog] pointers are the allocation number and the generation; a [vcState]
    whose [abort] is closed is no longer in [r.vc].  [now] is the monotonic clock,
    [wall] the wall clock. *)
From stdpp Require Import sorting.
From S2P Require Import Prelude WireBase Wire WireStream Config Lines GlobalOrder State.
From S2P Require Import ReplicaState Cursor Log Admission ScheduleProto Merge Gaps Sync.

Section viewchange.
Context {TM : Treemap Value}.
Implicit Types r : Replica TM.

(** * Starting a view change *)

Definition cancelRecovery r : Replica TM := r <| r_recovery := None |>.
Definition cancelViewChangeWatchdog r : Replica TM := r <| r_viewChangeWatchdog := None |>.

Definition armViewChangeWatchdog r (v : Z) : Replica TM :=
  let r := cancelViewChangeWatchdog r in
  let r := r <| r_viewChangeWatchdogGen ::= fun g => add64 g 1 |> in
  r <| r_viewChangeWatchdog := Some (mkviewChangeWatchdog v (r_viewChangeWatchdogGen r)) |>.

(** [viewChangeStart]: the fields that only feed the log are left out *)
Record viewChangeStart := mkviewChangeStart { vst_view : Z; vst_leader : Z; vst_vc : Z }.

Definition reset_schedule_round r : Replica TM :=
  r <| r_scheduleReady := false |> <| r_scheduleInstallActive := false |>
    <| r_scheduleProposal := None |> <| r_scheduleRequests := ∅ |>
    <| r_scheduleWindowWaiters := ∅ |>.

Definition beginViewChange r (newView now : Z) : Replica TM * option viewChangeStart :=
  if newView <=? view r then (r, None) else
  let r := r <| r_vc := None |> in
  let r := cancelRecovery r in
  let r := r <| r_viewId := newView |> <| r_status := statusViewChange |> in
  let r := reset_schedule_round r in
  let r := r <| r_leaderLost := false |> <| r_sync := None |> in
  let r := clearSyncCatchup r in
  let r := r <| r_lastHeartbeatNs := now |> in
  let r := armViewChangeWatchdog r newView in
  let r := cancelGaps r in
  let r := drainPendingBuses r in
  let id := r_nextAlloc r in
  let vc := (newVCState id newView) <| vcs_requests := {[u32 (r_idx r)]} |> in
  let r := r <| r_nextAlloc ::= Z.succ |> <| r_vc := Some vc |> in
  (r, Some (mkviewChangeStart newView (LeaderIndex (r_config r) newView) id)).

Definition publishViewChange r (start : viewChangeStart) (wall : Z) : Replica TM * list effect :=
  let (r, pauses) := pauseClients r (vst_view start) wall in
  (r, pauses ++
      broadcastToPeers r (RViewChangeRequest {| vq_ViewId := vst_view start;
                                               vq_SenderIdx := u32 (r_idx r) |}) ++
      if vst_leader start =? r_idx r then [StartDrive (vst_vc start)] else []).

Definition startViewChange r (newView now wall : Z) : Replica TM * list effect :=
  match beginViewChange r newView now with
  | (r, Some start) => publishViewChange r start wall
  | (r, None) => (r, [])
  end.

(** [suspectLeaderIfTimedOut] *)
Definition suspectLeader r (now wall : Z) : Replica TM * list effect :=
  if negb (bool_decide (r_status r = statusNormal)) || (leaderIdx r =? r_idx r) then (r, [])
  else if i64 (now - r_lastHeartbeatNs r) <? r_suspectTimeout r then (r, [])
  else startViewChange r (add64 (view r) 1) now wall.

(** the watchdog's timer has fired *)
Definition expireViewChangeWatchdog r (wd : viewChangeWatchdog) (now wall : Z) :
    Replica TM * list effect :=
  let same := match r_viewChangeWatchdog r with
              | Some w => wd_generation w =? wd_generation wd
              | None => false
              end in
  if negb same || negb (r_viewChangeWatchdogGen r =? wd_generation wd) ||
     negb (view r =? wd_view wd) || negb (bool_decide (r_status r = statusViewChange))
  then (r, [])
  else startViewChange r (add64 (wd_view wd) 1) now wall.

(** * Requests and reports *)

(** [deliverViewChange]: the channel holds [N] reports *)
Definition deliverViewChange r (msg : BusViewChange) : Replica TM :=
  match r_vc r with
  | Some vc =>
      if (vcs_view vc =? vc_ViewId msg) && (Zlength (vcs_reports vc) <? cfg_N (r_config r))
      then r <| r_vc := Some (vc <| vcs_reports ::= fun l => l ++ [msg] |>) |>
      else r
  | None => r
  end.

Definition count_request r (msg : BusViewChangeRequest) : Replica TM * list effect :=
  match r_vc r with
  | None => (r, [])
  | Some vc =>
      if negb (vcs_view vc =? vq_ViewId msg) || vcs_reportSent vc then (r, []) else
      let vc := vc <| vcs_requests ::= fun s => {[vq_SenderIdx msg]} ∪ s |> in
      if Z.of_nat (size (vcs_requests vc)) <? QuorumSize (r_config r)
      then (r <| r_vc := Some vc |>, [])
      else
        let r := r <| r_vc := Some (vc <| vcs_reportSent := true |>) |> in
        let report := buildViewChange r (vq_ViewId msg) in
        let leader := LeaderIndex (r_config r) (vq_ViewId msg) in
        if leader =? r_idx r then (deliverViewChange r report, [])
        else (r, sendToPeer r leader (RViewChange report))
  end.

Definition handleViewChangeRequest r (msg : BusViewChangeRequest) (now wall : Z) :
    Replica TM * list effect :=
  let (r, fx) := if view r <? vq_ViewId msg then startViewChange r (vq_ViewId msg) now wall
                 else (r, []) in
  if negb (vq_ViewId msg =? view r) then (r, fx)
  else let (r, fx') := count_request r msg in (r, fx ++ fx').

Definition sendStartView r (peer : Z) : list effect :=
  match startViewMsg r with Some m => sendToPeer r peer (RStartView m) | None => [] end.

Definition handleViewChange r (msg : BusViewChange) (now wall : Z) : Replica TM * list effect :=
  if vc_ViewId msg <? view r then (r, []) else
  let (r, fx) := if view r <? vc_ViewId msg then startViewChange r (vc_ViewId msg) now wall
                 else (r, []) in
  if bool_decide (r_status r = statusNormal) && AmLeader r && (r_lastNormalView r =? vc_ViewId msg)
  then (r, fx ++ sendStartView r (vc_SenderIdx msg))
  else (deliverViewChange r msg, fx).

Definition handleStateQuery r (msg : BusStateQuery) : list effect :=
  if negb (bool_decide (r_status r = statusNormal) && (r_lastNormalView r =? view r)) ||
     negb (AmLeader r) || (view r <=? sq_ViewId msg) then []
  else sendStartView r (sq_SenderIdx msg).

(** * Installing the merged log *)

(** the resident slots [sel] picks, and the loop that drops them *)
Definition slots_where r (sel : Z -> globalEntry -> bool) : list Z :=
  (filter (fun p => sel p.1 p.2 = true) (map_to_list (r_globalLog r))).*1.
Definition clear_where r (sel : Z -> globalEntry -> bool) : Replica TM :=
  foldl clearSlot r (slots_where r sel).

Definition noop_entry (e : globalEntry) : bool := bool_decide (ge_state e = slotNoOp).

Definition recomputeMaxSlot r : Replica TM :=
  let haveMax := 0 <? r_nextExpected r in
  let maxSlot := if haveMax then r_nextExpected r - 1 else 0 in
  let '(maxSlot, haveMax) :=
    map_fold (fun slot e acc =>
                if negb (bool_decide (ge_state e = slotEmpty)) && (negb acc.2 || (acc.1 <? slot))
                then (slot, true) else acc)
      (maxSlot, haveMax) (r_globalLog r) in
  r <| r_maxSlotSeen := maxSlot |> <| r_haveMax := haveMax |>.

(** the loop that closes slots as no-ops, counting the ones it changed *)
Definition count_noop r (slot : Z) : Replica TM :=
  let (r, set) := setNoOp r slot in
  if set then r <| r_winNoops ::= fun n => add64 n 1 |> else r.

(** one request of an executed slot is answered again *)
Definition replay_request (slot : Z) r (rq : RequestMessage) : Replica TM :=
  match r_dedup r !! reqKey rq with
  | Some li => enqueueReply r (rq_ClientId rq) (rq_RequestId rq) slot li
  | None => r
  end.
Definition replay_slot r (slot : Z) : Replica TM :=
  match r_globalLog r !! slot with
  | Some e => if bool_decide (ge_state e = slotReceived)
              then foldl (replay_request slot) r (ge_requests e) else r
  | None => r
  end.
Definition replayReplies r (from to : Z) : Replica TM :=
  foldl replay_slot r (seqZ from (to - from)).

(** the first merged no-op that this replica has executed as received *)
Fixpoint noop_target r (target : Z) (noops : list Z) {struct noops} : Z :=
  match noops with
  | [] => target
  | s :: noops =>
      if r_nextExpected r <=? s then target
      else
        let target := if bool_decide (slotState_of r s = slotReceived) && (s <? target)
                      then s else target in
        noop_target r target noops
  end.

Definition canonical_target r (maxSlot : Z) (hasMax : bool) (noops : list Z)
    (conservative : bool) : Z :=
  let canonicalNext := if hasMax && negb (maxSlot =? W64 - 1) then maxSlot + 1 else 0 in
  let target := if (negb hasMax || negb (maxSlot =? W64 - 1)) && (canonicalNext <? r_nextExpected r)
                then canonicalNext else r_nextExpected r in
  if conservative then
    let base := suffixBase (r_stableSlot r) (r_haveStable r) in
    if r_haveStable r && (base <? target) then base
    else if negb (r_haveStable r) then 0 else target
  else noop_target r target noops.

(** the log is taken back to [target] *)
Definition canonical_rewind r (target : Z) (conservative : bool) : Replica TM :=
  if target <? r_nextExpected r then
    let (r, ok) := rewindTo r target in
    if ok && conservative then clearSlotsAbove r target else r
  else r.

(** no-ops beyond the merged end are dropped *)
Definition canonical_drop r (maxSlot : Z) (hasMax conservative : bool) : Replica TM :=
  if conservative then r
  else recomputeMaxSlot
         (clear_where r (fun slot e =>
            (negb hasMax || (negb (maxSlot =? W64 - 1) && (maxSlot <? slot))) && noop_entry e)).

Definition canonical_noops r (noops : list Z) : Replica TM :=
  foldl (fun r s => if s <? r_nextExpected r then r else count_noop r s) r noops.

(** the suffix is executed up to the merged end and its replies are repeated
    under the new view *)
Definition canonical_execute r (v stable : Z) (hasStable : bool) (maxSlot : Z) (hasMax : bool) :
    Replica TM :=
  let r := r <| r_viewId := v |> in
  let base := suffixBase (r_stableSlot r) (r_haveStable r) in
  let replayTo := r_nextExpected r in
  let replayFrom := if base <? r_prunedBelow r then r_prunedBelow r else base in
  let r := if hasMax then advanceNextExpectedThrough r maxSlot else r in
  let r := replayReplies r replayFrom replayTo in
  if hasStable then setStable r stable else r.

Definition installCanonicalView r (v stable : Z) (hasStable : bool) (maxSlot : Z) (hasMax : bool)
    (noops : list Z) (conservative : bool) : Replica TM :=
  let r := canonical_rewind r (canonical_target r maxSlot hasMax noops conservative) conservative in
  let r := canonical_drop r maxSlot hasMax conservative in
  let r := canonical_noops r noops in
  canonical_execute r v stable hasStable maxSlot hasMax.

(** the replica works normally in view [v] *)
Definition enter_normal r (v now : Z) : Replica TM :=
  let r := r <| r_lastNormalView := v |> in
  let r := cancelViewChangeWatchdog r in
  let r := r <| r_status := statusNormal |> in
  let r := r <| r_scheduleReady := scheduleCompleteForView r v |> in
  let r := commitScheduleHistory r in
  r <| r_lastHeartbeatNs := now |> <| r_leaderLost := false |>.

Definition publishNormalView r (v now : Z) : Replica TM :=
  advanceNextExpected (enter_normal r v now).

Definition installView r (v stable : Z) (hasStable : bool) (maxSlot : Z) (hasMax : bool)
    (noops : list Z) (conservative : bool) (now : Z) : Replica TM :=
  let (maxSlot, hasMax) := if hasStable && (negb hasMax || (maxSlot <? stable))
                           then (stable, true) else (maxSlot, hasMax) in
  publishNormalView (installCanonicalView r v stable hasStable maxSlot hasMax noops conservative) v now.

(** * The new leader *)

(** the reports collected, by sender *)
Definition drive_receive (v : Z) (reports : gmap Z BusViewChange) (m : BusViewChange) :
    gmap Z BusViewChange :=
  if vc_ViewId m =? v then <[vc_SenderIdx m := m]> reports else reports.

(** a report is taken from the channel of view change [id] *)
Definition drive_take r (id : Z) (reports : gmap Z BusViewChange) :
    Replica TM * gmap Z BusViewChange :=
  match r_vc r with
  | Some vc =>
      if vcs_id vc =? id then
        match vcs_reports vc with
        | m :: rest => (r <| r_vc := Some (vc <| vcs_reports := rest |>) |>,
                        drive_receive (vcs_view vc) reports m)
        | [] => (r, reports)
        end
      else (r, reports)
  | None => (r, reports)
  end.

Definition drive_enough r (reports : gmap Z BusViewChange) : bool :=
  QuorumSize (r_config r) <=? Z.of_nat (size reports).

(** the deadline passed before a quorum reported *)
Definition drive_timeout r (v now wall : Z) : Replica TM * list effect :=
  startViewChange r (add64 v 1) now wall.

(** the merge; [None] when its schedules conflict or are not valid, and the
    next view is tried *)
Definition drive_merge r (v : Z) (reports : gmap Z BusViewChange) (now wall : Z) :
    Replica TM * list effect * option mergePlan :=
  let plan := mergeSuffix (map_to_list reports).*2 in
  if mp_scheduleConflict plan ||
     (Nat.ltb 0 (length (mp_schedule plan)) && negb (validateSchedule (mp_schedule plan)))
  then (startViewChange r (add64 v 1) now wall, None)
  else (r, [], Some plan).

(** [mergeActiveLocked] *)
Definition mergeActive r (id v : Z) (watchdog : option viewChangeWatchdog) : bool :=
  match watchdog, r_vc r, r_viewChangeWatchdog r with
  | Some wd, Some vc, Some cur =>
      (vcs_id vc =? id) && (view r =? v) && bool_decide (r_status r = statusViewChange) &&
      (wd_generation cur =? wd_generation wd) && (r_viewChangeWatchdogGen r =? wd_generation wd) &&
      (wd_view wd =? v)
  | _, _, _ => false
  end.

Fixpoint first_empty (fuel : nat) r (slot stable : Z) : option Z :=
  match fuel with
  | O => None
  | S fuel =>
      if bool_decide (slotState_of r slot = slotEmpty) then Some slot
      else if slot =? stable then None else first_empty fuel r (slot + 1) stable
  end.

(** [committedPrefixMissingLocked]: the first slot of the committed prefix that
    is neither executed nor filled *)
Definition committedPrefixMissing r (stable : Z) (hasStable : bool) : option Z :=
  if negb hasStable || (stable <? r_nextExpected r) then None
  else first_empty (Z.to_nat (stable - r_nextExpected r + 1)) r (r_nextExpected r) stable.

Definition committedPrefixComplete r (stable : Z) (hasStable : bool) : bool :=
  match committedPrefixMissing r stable hasStable with Some _ => false | None => true end.

Definition prepareMergedRequestSlot r (slot : Z) : Replica TM * bool :=
  if bool_decide (slotState_of r slot = slotReceived) then (r, true) else
  let (r, ok) := if slot <? r_nextExpected r then rewindTo r slot else (r, true) in
  if negb ok then (r, false)
  else if bool_decide (slotState_of r slot = slotNoOp) then (clearSlot r slot, true)
  else (r, true).

(** [fetchRangeBlocking], up to its wait: [Some ok] when it returns at once *)
Definition fetchRange r (id v peer from to : Z) (slots : option (list Z)) :
    Replica TM * option bool :=
  if (peer <? 0) || (cfg_N (r_config r) <=? peer) || (peer =? r_idx r) || (to <? from)
  then (r, Some ((peer =? r_idx r) || (to <? from)))
  else
    let (r, fid) := next_fetch r in
    let (r, ok) := push_fetch r (mkfetchReq peer from to v fid 0 0 (Some id) slots) in
    (r, if ok then None else Some false).

(** [fetchMergedState]: one turn of the loop on the committed prefix *)
Inductive prefix_turn := PrefixAbort | PrefixDone | PrefixFetch (queued : bool) | PrefixWait.
Definition merge_prefix r (id v : Z) (wd : option viewChangeWatchdog) (plan : mergePlan) :
    Replica TM * prefix_turn :=
  if negb (mp_hasStable plan) then (r, PrefixDone)
  else if negb (mergeActive r id v wd) then (r, PrefixAbort) else
  match committedPrefixMissing r (mp_stableSlot plan) (mp_hasStable plan) with
  | None => (r, PrefixDone)
  | Some from =>
      if mp_hasCatchUp plan && negb (mp_catchUp plan =? r_idx r) then
        let (r, res) := fetchRange r id v (mp_catchUp plan) from (mp_stableSlot plan) None in
        (r, PrefixFetch (match res with None => true | Some _ => false end))
      else (r, PrefixWait)
  end.

(** one donor of one slot *)
Inductive donor_turn := DonorAbort | DonorStop (fetched : bool) | DonorAsked (queued : bool).
Definition merge_donor r (id v : Z) (wd : option viewChangeWatchdog) (slot donor : Z) :
    Replica TM * donor_turn :=
  if negb (mergeActive r id v wd) then (r, DonorAbort)
  else if bool_decide (slotState_of r slot = slotReceived) then (r, DonorStop true)
  else
    let (r, canFetch) := prepareMergedRequestSlot r slot in
    if negb canFetch then (r, DonorStop false)
    else if donor =? r_idx r then (r, DonorAsked false)
    else
      let (r, res) := fetchRange r id v donor slot slot (Some [slot]) in
      (r, DonorAsked (match res with None => true | Some _ => false end)).

(** the donors asked in turn for a slot, until one has delivered it *)
Definition mergeFetchAttempts : nat := 3.
Definition donor_tries (plan : mergePlan) (slot : Z) : list Z :=
  concat (replicate mergeFetchAttempts (default [] (mp_donors plan !! slot))).

(** the merged slots nobody could deliver are closed as no-ops *)
Definition stuck_slots r (plan : mergePlan) : list Z :=
  filter (fun s => slotState_of r s <> slotReceived) (map_to_list (mp_donors plan)).*1.
Definition close_stuck r (plan : mergePlan) : mergePlan :=
  match stuck_slots r plan with
  | [] => plan
  | stuck => plan <| mp_noops := merge_sort Z.le (mp_noops plan ++ stuck) |>
  end.

(** the merged state is installed, still fenced *)
Definition drive_install r (id v : Z) (wd : option viewChangeWatchdog) (plan : mergePlan) :
    Replica TM * option BusStartView :=
  let (canonicalMax, hasCanonical) := mergeCanonicalBoundary plan in
  if negb (mergeActive r id v wd) ||
     negb (committedPrefixComplete r (mp_stableSlot plan) (mp_hasStable plan)) then (r, None)
  else
    let r := r <| r_startViewView := v |> <| r_startViewSource := mp_sourceNormalView plan |>
               <| r_startViewUsed := mp_selected plan |> in
    let r := installSchedule r (mp_schedule plan) v false in
    let r := installCanonicalView r v (mp_stableSlot plan) (mp_hasStable plan) canonicalMax
               hasCanonical (mp_noops plan) false in
    (r, Some (initialStartViewMsg r v plan canonicalMax hasCanonical)).

Definition broadcastStartView r (msg : BusStartView) : list effect :=
  broadcastToPeers r (RStartView msg).

(** the fence is lifted *)
Definition drive_publish r (id v : Z) (wd : option viewChangeWatchdog) (plan : mergePlan) (now : Z) :
    Replica TM * bool :=
  if negb (mergeActive r id v wd) ||
     negb (committedPrefixComplete r (mp_stableSlot plan) (mp_hasStable plan)) then (r, false)
  else (publishNormalView (r <| r_vc := None |>) v now, true).
End viewchange.
