(* ===== verification/Recovery.v ===== *)
(** A follower's installation of a new view and the transfer of slots
    ([recovery.go]: [handleStartView], [installStartView] and what it calls, the
    fetch loop).

    [viewInstallLoop] is split at its waits; a [viewRecovery] pointer is its
    generation. *)
From stdpp Require Import sorting.
From S2P Require Import Prelude WireBase Wire WireStream Config Lines GlobalOrder State.
From S2P Require Import ReplicaState Cursor Log Admission ScheduleProto Merge Gaps Sync ViewChange.

Section recovery.
Context {TM : Treemap Value}.
Implicit Types r : Replica TM.

Definition startViewQ_cap : Z := 8.

(** * Receiving a start view *)

Definition handleStartView r (msg : BusStartView) : Replica TM :=
  if negb (validStartView r msg) then r
  else if (sv_ViewId msg <? view r) ||
          ((sv_ViewId msg =? view r) && bool_decide (r_status r = statusNormal) &&
           (r_lastNormalView r =? view r)) ||
          match r_recovery r with Some rec => sv_ViewId msg =? rec_view rec | None => false end
  then r
  else if Zlength (r_startViewQ r) <? startViewQ_cap then
    let r := r <| r_startViewQ ::= fun q => q ++ [msg] |> in
    let r := if r_startViewSeen r <? sv_ViewId msg then r <| r_startViewSeen := sv_ViewId msg |> else r in
    match r_recovery r with
    | Some rec => if rec_view rec <? sv_ViewId msg then cancelRecovery r else r
    | None => r
    end
  else r.

(** * Preparing the log *)

Definition clearSlotRange r (from to : Z) (bounded : bool) : Replica TM :=
  clear_where r (fun slot _ => negb ((slot <? from) || (bounded && (to <? slot)))).

Definition set_recovery r (f : viewRecovery -> viewRecovery) : Replica TM :=
  r <| r_recovery ::= fmap f |>.

(** a merged no-op at a slot this replica has committed as received *)
Definition noop_conflict r (localStableEnd : Z) (noops : list Z) : bool :=
  existsb (fun s => r_haveStable r && (s <? localStableEnd) &&
                    negb (bool_decide (slotState_of r s = slotNoOp))) noops.

(** a local no-op above the commit point that the merge does not have *)
Definition stray_noop (localStableEnd : Z) (noops : list Z) (slot : Z) (e : globalEntry) : bool :=
  negb (slot <? localStableEnd) && noop_entry e && negb (existsb (fun s => s =? slot) noops).

(** how far the executed log can be kept *)
Definition recovery_target r (msg : BusStartView) (retain : bool) (canonicalEnd localStableEnd : Z) : Z :=
  if negb (sv_HasMax msg) then 0
  else if negb retain then localStableEnd
  else
    let target := if canonicalEnd <? r_nextExpected r then canonicalEnd else r_nextExpected r in
    let target := foldl (fun target s =>
        if (s <? target) && bool_decide (slotState_of r s = slotReceived) then s else target)
      target (sv_NoOpSlots msg) in
    map_fold (fun slot e target =>
        if stray_noop localStableEnd (sv_NoOpSlots msg) slot e && (slot <? target)
        then slot else target) target (r_globalLog r).

Definition prepareRecovery r (msg : BusStartView) (retain : bool) : Replica TM * bool :=
  let localStableEnd := suffixBase (r_stableSlot r) (r_haveStable r) in
  let replayFrom := if localStableEnd <? r_prunedBelow r then r_prunedBelow r else localStableEnd in
  let canonicalEnd := if sv_HasMax msg then add64 (sv_MaxSlot msg) 1 else 0 in
  let r := set_recovery r (fun rec =>
      rec <| rec_verifyPrefix := retain && sv_HasStable msg && (r_nextExpected r <=? sv_StableSlot msg) |>
          <| rec_prefixHash := sv_PrefixHash msg |> <| rec_repairFrom := localStableEnd |>) in
  if r_haveStable r && (negb (sv_HasMax msg) || (canonicalEnd <? localStableEnd)) then (r, false)
  else if noop_conflict r localStableEnd (sv_NoOpSlots msg) then (r, false)
  else
    let target := recovery_target r msg retain canonicalEnd localStableEnd in
    let (r, ok) := if target <? r_nextExpected r then rewindTo r target else (r, true) in
    if negb ok then (r, false)
    else
      let r := if negb retain then clearSlotRange r target 0 false
               else clear_where r (stray_noop localStableEnd (sv_NoOpSlots msg)) in
      let r := recomputeMaxSlot r in
      let r := foldl count_noop r (sv_NoOpSlots msg) in
      (set_recovery r (fun rec => rec <| rec_replayFrom := replayFrom |>
                                      <| rec_replayTo := r_nextExpected r |>), true).

(** the installed view's recovery state *)
Definition new_recovery r (msg : BusStartView) : viewRecovery :=
  {| rec_view := sv_ViewId msg; rec_generation := r_recoveryGen r; rec_leader := sv_SenderIdx msg;
     rec_stable := sv_StableSlot msg; rec_hasStable := sv_HasStable msg;
     rec_maxSlot := sv_MaxSlot msg; rec_hasMax := sv_HasMax msg;
     rec_replayFrom := 0; rec_replayTo := 0; rec_verifyPrefix := false; rec_prefixHash := 0;
     rec_repairFrom := 0 |}.

Definition start_stale r (msg : BusStartView) : bool :=
  (sv_ViewId msg <? view r) || (sv_ViewId msg <? r_startViewSeen r) ||
  ((sv_ViewId msg =? view r) && bool_decide (r_status r = statusNormal) &&
   (r_lastNormalView r =? view r)).

(** whether the executed log can be kept: it was built in the view the merge
    comes from and agrees with the merged prefix *)
Definition retains r (msg : BusStartView) : bool :=
  (r_lastNormalView r =? sv_SourceNormalView msg) &&
  (if sv_HasStable msg && (sv_StableSlot msg <? r_nextExpected r)
   then match prefixHashAt r (sv_StableSlot msg) with
        | Some h => h =? sv_PrefixHash msg
        | None => false
        end
   else true).

(** [installStartView] up to the loop that fetches what is missing; the
    generation of the recovery started, [None] if there is nothing to wait for *)
Definition installStartView r (msg : BusStartView) (now : Z) : Replica TM * option Z :=
  if start_stale r msg || match r_recovery r with Some _ => true | None => false end then (r, None)
  else
    let retain := retains r msg in
    let r := r <| r_vc := None |> <| r_sync := None |> in
    let r := clearSyncCatchup r in
    let r := cancelGaps r in
    let r := drainPendingBuses r in
    let r := r <| r_viewId := sv_ViewId msg |> <| r_status := statusViewChange |> in
    let r := armViewChangeWatchdog r (sv_ViewId msg) in
    let r := r <| r_lastHeartbeatNs := now |> <| r_leaderLost := false |> in
    let r := r <| r_recoveryGen ::= fun g => add64 g 1 |> in
    let r := r <| r_recovery := Some (new_recovery r msg) |> in
    let r := r <| r_startViewView := sv_ViewId msg |> <| r_startViewSource := sv_SourceNormalView msg |>
               <| r_startViewUsed := sv_SelectedReports msg |> in
    let r := installSchedule r (sv_Schedule msg) (sv_ViewId msg) false in
    let gen := r_recoveryGen r in
    let (r, prepared) := prepareRecovery r msg retain in
    (r, if prepared then Some gen else None).

(** [viewInstallLoop] takes the next start view *)
Definition viewInstall r (now : Z) : Replica TM * option Z :=
  match r_startViewQ r with
  | [] => (r, None)
  | msg :: q => installStartView (r <| r_startViewQ := q |>) msg now
  end.

(** * Finishing the recovery *)

(** the recovery [gen], while it is the current one *)
Definition recovery_is r (gen : Z) : option viewRecovery :=
  match r_recovery r with
  | Some rec => if rec_generation rec =? gen then Some rec else None
  | None => None
  end.

(** the slots of the range from the first empty one on: [(from, to)], empty
    ([from > to]) when all are filled *)
Fixpoint empty_run (fuel : nat) r (to end_ : Z) : Z :=
  match fuel with
  | O => to
  | S fuel =>
      if to <? end_ then
        if filled r (to + 1) then to else empty_run fuel r (to + 1) end_
      else to
  end.
Fixpoint missing_from (fuel : nat) r (slot end_ : Z) : Z * Z :=
  match fuel with
  | O => (1, 0)
  | S fuel =>
      if end_ <? slot then (1, 0)
      else if negb (filled r slot) then (slot, empty_run fuel r slot end_)
      else if slot =? end_ then (1, 0)
      else missing_from fuel r (slot + 1) end_
  end.
Definition missingRange r (from end_ : Z) : Z * Z :=
  let from := if from <? r_nextExpected r then r_nextExpected r else from in
  missing_from (S (Z.to_nat (end_ + 1 - from))) r from end_.

Definition recoveryMissingRange r (gen : Z) : option (Z * Z) :=
  match recovery_is r gen with
  | None => None
  | Some rec =>
      if negb (bool_decide (r_status r = statusViewChange)) || negb (view r =? rec_view rec) ||
         negb (LeaderIndex (r_config r) (rec_view rec) =? rec_leader rec) then None
      else if negb (rec_hasMax rec) || (rec_maxSlot rec <? r_nextExpected r) then Some (1, 0)
      else Some (missingRange r (r_nextExpected r) (rec_maxSlot rec))
  end.

(** the hash the retained prefix will have once it is executed *)
Fixpoint retained_hash (n : nat) r (slot hash : Z) : Replica TM * Z :=
  match n with
  | O => (r, hash)
  | S n =>
      let e := default emptyEntry (r_globalLog r !! slot) in
      let (r, owner) := entryOwner r slot e in
      retained_hash n r (slot + 1) (foldSlot hash slot (ge_state e) owner.1 owner.2)
  end.

Definition recovery_filled r (rec : viewRecovery) : bool :=
  negb (rec_hasMax rec) || (rec_maxSlot rec <? r_nextExpected r) ||
  forallb (filled r) (seqZ (r_nextExpected r) (rec_maxSlot rec - r_nextExpected r + 1)).

(** the retained prefix does not match the merge: it is cleared to be fetched *)
Definition repair_prefix r (rec : viewRecovery) : Replica TM :=
  let (r, ok) := rewindTo r (rec_repairFrom rec) in
  if negb ok then r
  else
    let r := clearSlotRange r (rec_repairFrom rec) (rec_stable rec) true in
    let r := recomputeMaxSlot r in
    set_recovery r (fun rec => rec <| rec_replayTo := r_nextExpected r |>).

(** everything is there: the suffix is executed and the view entered *)
Definition complete_recovery r (rec : viewRecovery) (now : Z) : Replica TM :=
  let r := if rec_hasMax rec then advanceNextExpectedThrough r (rec_maxSlot rec) else r in
  let r := replayReplies r (rec_replayFrom rec) (rec_replayTo rec) in
  let r := if rec_hasStable rec then setStable r (rec_stable rec) else r in
  advanceNextExpected ((enter_normal r (rec_view rec) now) <| r_recovery := None |>).

Definition finishRecovery r (gen now : Z) : Replica TM * bool :=
  match recovery_is r gen with
  | None => (r, false)
  | Some rec =>
      if negb (bool_decide (r_status r = statusViewChange)) || negb (view r =? rec_view rec)
      then (r, false)
      else if negb (recovery_filled r rec) then (r, false)
      else if rec_verifyPrefix rec then
        let (r, hash) := retained_hash (Z.to_nat (rec_stable rec - r_nextExpected r + 1)) r
                           (r_nextExpected r) (r_prefixHash r) in
        if negb (hash =? rec_prefixHash rec) then (repair_prefix r rec, false)
        else
          let r := set_recovery r (fun rec => rec <| rec_verifyPrefix := false |>) in
          (complete_recovery r (rec <| rec_verifyPrefix := false |>) now, true)
      else (complete_recovery r rec now, true)
  end.

(** [fetchRecoveryRange], up to its wait: [Some ok] when it returns at once *)
Definition fetchRecoveryRange r (rec : viewRecovery) (from to : Z) : Replica TM * option bool :=
  if (rec_leader rec =? r_idx r) || (to <? from) then (r, Some true)
  else
    let (r, fid) := next_fetch r in
    let (r, ok) := push_fetch r (mkfetchReq (rec_leader rec) from to (rec_view rec) fid 0
                                   (rec_generation rec) None None) in
    (r, if ok then None else Some false).
(** one turn of [installStartView]'s loop, up to the wait for the fetch or the
    retry timer; [from] is where the missing range starts.  After the fetch
    [finishRecovery] is tried again, before [recover_progressed] decides whether
    the retry timer is waited for. *)
Inductive install_turn := InstallDone (entered : bool) | InstallFetching (from : Z) | InstallRetry (from to : Z).
Definition recover_turn r (gen now : Z) : Replica TM * install_turn :=
  let (r, finished) := finishRecovery r gen now in
  if finished then (r, InstallDone true) else
  match recoveryMissingRange r gen, recovery_is r gen with
  | Some (from, to), Some rec =>
      if from <=? to then
        let (r, res) := fetchRecoveryRange r rec from (rec_maxSlot rec) in
        (r, match res with None => InstallFetching from | Some _ => InstallRetry from to end)
      else (r, InstallRetry from to)
  | _, _ => (r, InstallDone false)
  end.

(** after the fetch: whether the loop goes on without waiting *)
Definition recover_progressed r (from to : Z) : bool :=
  (from <=? to) && negb (bool_decide (slotState_of r from = slotEmpty)).

(** * The fetch loop *)

Definition stateFetchSlots : Z := 1024.
Definition newStateCh_cap : Z := 8.
Definition serveQ_cap : Z := 64.

(** [fetchActiveLocked]; a [vc] whose [abort] is closed is not [r.vc] *)
Definition fetchActive r (q : fetchReq) : bool :=
  if negb (view r =? fq_view q) then false
  else if negb (fq_syncGen q =? 0) then syncCatchupActive r q
  else match fq_vc q with
       | Some id =>
           match r_vc r with
           | Some vc => (vcs_id vc =? id) && (vcs_view vc =? fq_view q) &&
                        bool_decide (r_status r = statusViewChange)
           | None => false
           end
       | None =>
           if fq_installGen q =? 0 then true else
           match r_recovery r with
           | Some rec => (rec_generation rec =? fq_installGen q) && (rec_view rec =? fq_view q) &&
                         (rec_leader rec =? fq_peer q) && bool_decide (r_status r = statusViewChange)
           | None => false
           end
       end.

Definition wanted r (slot : Z) : bool :=
  (r_nextExpected r <=? slot) && bool_decide (slotState_of r slot = slotEmpty).

(** [missingFetchSlotsLocked] over the listed slots, and over the range *)
Fixpoint missing_listed r (to slot : Z) (listed acc : list Z) {struct listed} : list Z :=
  match listed with
  | [] => acc
  | s :: listed =>
      if (slot <=? to) && (Zlength acc <? stateFetchSlots) then
        let acc := if wanted r s then acc ++ [s] else acc in
        if s =? to then acc else missing_listed r to (add64 s 1) listed acc
      else acc
  end.
Fixpoint missing_ranged (fuel : nat) r (to slot : Z) (acc : list Z) {struct fuel} : list Z :=
  match fuel with
  | O => acc
  | S fuel =>
      if (slot <=? to) && (Zlength acc <? stateFetchSlots) then
        let acc := if wanted r slot then acc ++ [slot] else acc in
        if slot =? to then acc else missing_ranged fuel r to (slot + 1) acc
      else acc
  end.
Definition missingFetchSlots r (q : fetchReq) (from : Z) : list Z :=
  match fq_slots q with
  | Some slots =>
      let i := Search (length slots)
                 (fun i => match slots !! i with Some s => from <=? s | None => false end) in
      missing_listed r (fq_to q) from (drop i slots) []
  | None => missing_ranged (Z.to_nat (fq_to q - from + 1)) r (fq_to q) from []
  end.

(** [runFetch]: the next request to send, or the result; [next] is the slot the
    fetch has come to *)
Inductive fetch_step := FetchDone (ok : bool) | FetchAsk (next to : Z) (slots : list Z).
Definition fetch_ask r (q : fetchReq) (next : Z) : fetch_step :=
  if fq_to q <? next then FetchDone true
  else if negb (fetchActive r q) then FetchDone false
  else if negb (fq_syncGen q =? 0) || match fq_vc q with Some _ => true | None => false end ||
          negb (fq_installGen q =? 0)
  then match missingFetchSlots r q next with
       | [] => FetchDone true
       | s :: slots => FetchAsk s (List.last slots s) (s :: slots)
       end
  else FetchAsk next (fq_to q) [].
Definition runFetch_start r (q : fetchReq) : fetch_step :=
  if (fq_peer q <? 0) || (cfg_N (r_config r) <=? fq_peer q) || (fq_peer q =? r_idx r) ||
     (fq_to q <? fq_from q)
  then FetchDone ((fq_peer q =? r_idx r) || (fq_to q <? fq_from q))
  else fetch_ask r q (fq_from q).

Definition fetch_send r (q : fetchReq) (next to : Z) (slots : list Z) : list effect :=
  sendToPeer r (fq_peer q)
    (RGetState {| gs_ViewId := fq_view q; gs_FromSlot := next; gs_ToSlot := to;
                  gs_FetchId := fq_fetchID q; gs_SenderIdx := u32 (r_idx r); gs_Slots := slots |}).

(** [handleNewState]: the reply is handed to the fetch loop *)
Definition handleNewState r (msg : BusNewState) : Replica TM :=
  if cfg_N (r_config r) <=? ns_SenderIdx msg then r
  else if Zlength (r_newStateCh r) <? newStateCh_cap then r <| r_newStateCh ::= fun l => l ++ [msg] |>
  else r.

Definition entry_in_range (m : BusNewState) (q : fetchReq) (e : StateEntry) : bool :=
  negb ((se_Slot e <? ns_FromSlot m) || (ns_ToSlot m <? se_Slot e) ||
        (se_Slot e <? fq_from q) || (fq_to q <? se_Slot e)).
Fixpoint entries_ok (m : BusNewState) (q : fetchReq) (seen : gset Z) (es : list StateEntry)
    {struct es} : bool :=
  match es with
  | [] => true
  | e :: es =>
      entry_in_range m q e &&
      (if decide (se_Slot e ∈ seen) then false else entries_ok m q ({[se_Slot e]} ∪ seen) es)
  end.

Definition apply_entry r (e : StateEntry) : Replica TM :=
  if se_IsNoOp e then count_noop r (se_Slot e)
  else
    let (r, stored) := storeRecovered r (se_Slot e) (se_ClientId e) (se_ReqId e) (se_Payload e)
                         (se_IsBus e) in
    if stored then r <| r_winRecovered ::= fun n => add64 n 1 |> else r.

Definition applyStateEntries r (m : BusNewState) (q : fetchReq) : Replica TM * bool :=
  if negb (ns_ViewId m =? fq_view q) || negb (ns_SenderIdx m =? fq_peer q) ||
     negb (ns_FetchId m =? fq_fetchID q) || (ns_FromSlot m <? fq_from q) ||
     (ns_ToSlot m <? ns_FromSlot m) || (fq_to q <? ns_ToSlot m) then (r, false)
  else if negb (fetchActive r q) then (r, false)
  else if negb (entries_ok m q ∅ (ns_Entries m)) then (r, false)
  else (advanceNextExpected (foldl apply_entry r (ns_Entries m)), true).

(** [runFetch] takes a reply to the request [FetchAsk next to slots] *)
Inductive fetch_reply := ReplyIgnored | ReplyRejected | ReplyApplied (next : Z).
Definition fetch_receive r (q : fetchReq) (next to : Z) (slots : list Z) (m : BusNewState) :
    Replica TM * fetch_reply :=
  if negb (ns_ViewId m =? fq_view q) || negb (ns_SenderIdx m =? fq_peer q) ||
     negb (ns_FetchId m =? fq_fetchID q) || negb (ns_FromSlot m =? next) ||
     (ns_ToSlot m <? next) || (to <? ns_ToSlot m) then (r, ReplyIgnored)
  else
    let asked e :=
      Nat.eqb (length slots) 0 ||
      let i := Search (length slots)
                 (fun i => match slots !! i with Some s => se_Slot e <=? s | None => false end) in
      match slots !! i with Some s => s =? se_Slot e | None => false end in
    if negb (forallb asked (ns_Entries m)) then (r, ReplyRejected)
    else
      let (r, ok) := applyStateEntries r m q in
      (r, if ok then ReplyApplied (add64 (ns_ToSlot m) 1) else ReplyRejected).

(** [stateFetchLoop] takes the next request *)
Definition stateFetch_take r : Replica TM * option fetchReq :=
  match r_fetchQ r with
  | [] => (r, None)
  | q :: rest => (r <| r_fetchQ := rest |>, Some q)
  end.

(** [finishSyncFetch] *)
Definition finishSyncFetch r (q : fetchReq) (ok : bool) : Replica TM * list effect :=
  if negb (syncCatchupActive r q) then (r, [])
  else if negb ok then (clearSyncCatchup r, [])
  else
    let c := r_syncCatchup r in
    if (r_nextExpected r =? 0) || (r_nextExpected r - 1 <? cu_target c) then
      if r_nextExpected r <=? fq_from q then (clearSyncCatchup r, [])
      else
        let (r, q') := newSyncFetch r (r_nextExpected r) (cu_target c) in
        (enqueueSyncFetch r q', [])
    else
      let prepare := cu_prepare c in
      let known := prefixHashAt r (yp_SlotToSync prepare) in
      let stable := r_stableSlot r in
      let haveStable := r_haveStable r in
      answerSyncPrepare (clearSyncCatchup r) prepare known stable haveStable.

(** * Serving *)

(** the slots asked for are sorted and within the range *)
Fixpoint slots_ascend (from to : Z) (prev : option Z) (slots : list Z) {struct slots} : bool :=
  match slots with
  | [] => true
  | s :: slots =>
      negb ((s <? from) || (to <? s) || match prev with Some p => s <=? p | None => false end) &&
      slots_ascend from to (Some s) slots
  end.
Definition handleGetState r (msg : BusGetState) : Replica TM :=
  if (cfg_N (r_config r) <=? gs_SenderIdx msg) || (gs_ToSlot msg <? gs_FromSlot msg) ||
     negb (gs_ViewId msg =? view r) then r
  else if stateFetchSlots <? Zlength (gs_Slots msg) then r
  else if negb (slots_ascend (gs_FromSlot msg) (gs_ToSlot msg) None (gs_Slots msg)) then r
  else if Zlength (r_serveQ r) <? serveQ_cap then r <| r_serveQ ::= fun l => l ++ [msg] |> else r.
End recovery.
