(* ===== verification/LogFrame.v ===== *)
(** The frame of the bus log: its operations change the log, its statistics, the
    reply queue and the cursor, and nothing of the views, the agreement, the
    connections or the queues. *)
From S2P Require Import Prelude WireBase Wire WireStream Config Lines GlobalOrder State.
From S2P Require Import ReplicaState Cursor Log Admission ScheduleProto Merge Gaps Sync ViewChange.

Section frame.
Context {TM : Treemap Value}.
Implicit Types r : Replica TM.

(** [r] with the log's fields of [r'] *)
Definition with_log r' r : Replica TM :=
  r <| r_globalLog := r_globalLog r' |> <| r_nextExpected := r_nextExpected r' |>
    <| r_prunedBelow := r_prunedBelow r' |> <| r_maxSlotSeen := r_maxSlotSeen r' |>
    <| r_haveMax := r_haveMax r' |> <| r_stableSlot := r_stableSlot r' |>
    <| r_haveStable := r_haveStable r' |> <| r_prefixHash := r_prefixHash r' |>
    <| r_hashRing := r_hashRing r' |> <| r_logIdxRing := r_logIdxRing r' |>
    <| r_residentBytes := r_residentBytes r' |> <| r_nextLogIndex := r_nextLogIndex r' |>
    <| r_dedup := r_dedup r' |> <| r_State := r_State r' |>
    <| r_pendingReplies := r_pendingReplies r' |>
    <| r_cursorNextN := r_cursorNextN r' |> <| r_cursorSlot := r_cursorSlot r' |>
    <| r_slotMeta := r_slotMeta r' |> <| r_durable := r_durable r' |>
    <| r_reqListLog := r_reqListLog r' |> <| r_winNoops := r_winNoops r' |>
    <| r_winRecovered := r_winRecovered r' |> <| r_winReplyMax := r_winReplyMax r' |>.

Definition log_frame r r' : Prop := r' = with_log r' r.

Ltac log_frame := unfold log_frame, with_log; replica_eq.

Lemma log_frame_refl r : log_frame r r.
Proof. unfold log_frame, with_log. destruct r. reflexivity. Qed.

Lemma log_frame_trans r1 r2 r3 : log_frame r1 r2 -> log_frame r2 r3 -> log_frame r1 r3.
Proof. unfold log_frame. intros H1 H2. rewrite H2. rewrite H1. log_frame. Qed.

Lemma foldl_frame {A} (f : Replica TM -> A -> Replica TM) l r :
  (forall r x, log_frame r (f r x)) -> log_frame r (foldl f r l).
Proof.
  intros Hf. revert r. induction l as [|x l IH]; intros r; cbn [foldl]; [apply log_frame_refl|].
  eapply log_frame_trans; [apply Hf|apply IH].
Qed.

(** * Receiving *)

Lemma setEntry_frame r s e : log_frame r (setEntry r s e).
Proof. unfold setEntry. log_frame. Qed.

Lemma observeSlot_frame r s : log_frame r (observeSlot r s).
Proof. unfold observeSlot. destruct (_ || _); [log_frame|apply log_frame_refl]. Qed.

Lemma slotEntry_frame r s : log_frame r (slotEntry r s).1.
Proof. unfold slotEntry. destruct (r_globalLog r !! s); [apply log_frame_refl|log_frame]. Qed.

Lemma claimSlot_frame r s : log_frame r (claimSlot r s).1.
Proof.
  unfold claimSlot. pose proof (slotEntry_frame (observeSlot r s) s) as H.
  destruct (slotEntry (observeSlot r s) s) as [r1 e]. cbn [fst] in *.
  eapply log_frame_trans; [apply observeSlot_frame|exact H].
Qed.

Lemma recordBusReceived_frame r s c q reqs : log_frame r (recordBusReceived r s c q reqs).1.
Proof.
  unfold recordBusReceived. pose proof (claimSlot_frame r s) as H.
  destruct (claimSlot r s) as [r1 []]; cbn [fst] in *; [|exact H].
  eapply log_frame_trans; [exact H|]. unfold setEntry. log_frame.
Qed.

Lemma recordReceived_frame r s c q op : log_frame r (recordReceived r s c q op).1.
Proof.
  unfold recordReceived. pose proof (claimSlot_frame r s) as H.
  destruct (claimSlot r s) as [r1 []]; cbn [fst] in *; [|exact H].
  eapply log_frame_trans; [exact H|]. unfold setEntry. log_frame.
Qed.

Lemma storeRecovered_frame r s c q p b : log_frame r (storeRecovered r s c q p b).1.
Proof.
  unfold storeRecovered. destruct (negb b); [apply recordReceived_frame|].
  destruct (UnmarshalRequests p); [apply recordBusReceived_frame|apply log_frame_refl].
Qed.

Lemma releaseEntryBytes_frame r s : log_frame r (releaseEntryBytes r s).
Proof. unfold releaseEntryBytes. destruct (r_globalLog r !! s); [log_frame|apply log_frame_refl]. Qed.

Lemma genCursor_log_frame fuel r t : log_frame r (genCursor fuel r t).
Proof.
  revert r. induction fuel as [|fuel IH]; intros r; cbn [genCursor]; [apply log_frame_refl|].
  destruct (_ <=? _); [|apply log_frame_refl].
  destruct (cursor_best _ _) as [[[c n] y]|]; [|apply log_frame_refl].
  eapply log_frame_trans; [|apply IH]. log_frame.
Qed.

Lemma slotOwner_log_frame r s : log_frame r (slotOwner r s).1.
Proof. apply genCursor_log_frame. Qed.

Lemma entryOwner_log_frame r s e : log_frame r (entryOwner r s e).1.
Proof.
  unfold entryOwner. destruct (ge_ownerSet e); [apply log_frame_refl|].
  pose proof (slotOwner_log_frame r s) as H. by destruct (slotOwner r s).
Qed.

Lemma setNoOp_frame r s : log_frame r (setNoOp r s).1.
Proof.
  unfold setNoOp. destruct (executed r s); [apply log_frame_refl|].
  pose proof (slotEntry_frame (observeSlot r s) s) as H.
  destruct (slotEntry (observeSlot r s) s) as [r1 e]. cbn [fst] in H.
  assert (log_frame r r1) as H1 by (eapply log_frame_trans; [apply observeSlot_frame|exact H]).
  destruct (bool_decide _); [exact H1|].
  pose proof (entryOwner_log_frame r1 s e) as H2. destruct (entryOwner r1 s e) as [r2 o].
  cbn [fst snd] in *. eapply log_frame_trans; [exact H1|]. eapply log_frame_trans; [exact H2|].
  eapply log_frame_trans; [apply setEntry_frame|apply releaseEntryBytes_frame].
Qed.

(** * Executing *)

Lemma enqueueReply_log_frame r c q s li : log_frame r (enqueueReply r c q s li).
Proof. unfold enqueueReply. cbv zeta. destruct (_ <? _); log_frame. Qed.

Lemma append_request_frame s acc rq : log_frame acc.1 (append_request s acc rq).1.
Proof.
  destruct acc as [r l]. unfold append_request. cbv zeta. rsimpl.
  destruct (r_dedup r !! reqKey rq) as [i|].
  - cbn [fst]. eapply log_frame_trans; [|apply enqueueReply_log_frame]. log_frame.
  - destruct (rememberWrite _ _ _ _) as [e' res]. cbn [fst].
    eapply log_frame_trans; [|apply enqueueReply_log_frame]. unfold setEntry. log_frame.
Qed.

Lemma append_requests_frame s reqs acc : log_frame acc.1 (foldl (append_request s) acc reqs).1.
Proof.
  revert acc. induction reqs as [|rq reqs IH]; intros acc; cbn [foldl]; [apply log_frame_refl|].
  eapply log_frame_trans; [apply (append_request_frame s)|apply IH].
Qed.

Lemma appendBusToLogList_frame r s : log_frame r (appendBusToLogList r s).1.
Proof.
  unfold appendBusToLogList. destruct (r_globalLog r !! s) as [e|]; [|apply log_frame_refl].
  destruct (bool_decide _); [apply log_frame_refl|]. cbv zeta.
  pose proof (append_requests_frame s (ge_requests e)
    (setEntry r s (e <| ge_logIdxLo := r_nextLogIndex r |>), [])) as H.
  destruct (foldl (append_request s) _ _) as [r1 l]. cbn [fst] in *.
  eapply log_frame_trans; [apply setEntry_frame|].
  eapply log_frame_trans; [exact H|apply setEntry_frame].
Qed.

Lemma durableRecordCursor_frame r s l : log_frame r (durableRecordCursor r s l).
Proof.
  unfold durableRecordCursor. destruct (r_durable r); [|apply log_frame_refl].
  destruct (r_globalLog r !! s) as [e|]; [|apply log_frame_refl].
  pose proof (entryOwner_log_frame r s e) as H. destruct (entryOwner r s e) as [r1 o].
  cbn [fst] in H. eapply log_frame_trans; [exact H|]. log_frame.
Qed.

Lemma foldExecuted_frame r s : log_frame r (foldExecuted r s).
Proof.
  unfold foldExecuted. destruct (r_globalLog r !! s) as [e|]; [|apply log_frame_refl].
  pose proof (entryOwner_log_frame r s e) as H. destruct (entryOwner r s e) as [r1 o].
  cbn [fst] in H. cbv zeta. eapply log_frame_trans; [exact H|]. unfold setEntry. log_frame.
Qed.

Lemma advanceNextExpectedOne_frame r : log_frame r (advanceNextExpectedOne r).1.
Proof.
  unfold advanceNextExpectedOne. cbv zeta. destruct (negb _); [apply log_frame_refl|].
  pose proof (appendBusToLogList_frame r (r_nextExpected r)) as H.
  destruct (appendBusToLogList r (r_nextExpected r)) as [r1 l]. cbn [fst] in *.
  eapply log_frame_trans; [exact H|]. eapply log_frame_trans; [apply durableRecordCursor_frame|].
  eapply log_frame_trans; [|apply foldExecuted_frame]. log_frame.
Qed.

Lemma advance_loop_frame fuel r : log_frame r (advance_loop fuel r).
Proof.
  revert r. induction fuel as [|fuel IH]; intros r; cbn [advance_loop]; [apply log_frame_refl|].
  pose proof (advanceNextExpectedOne_frame r) as H.
  destruct (advanceNextExpectedOne r) as [r1 []]; cbn [fst] in H; [|exact H].
  eapply log_frame_trans; [exact H|apply IH].
Qed.

Lemma advance_through_frame fuel r m : log_frame r (advance_through fuel r m).
Proof.
  revert r. induction fuel as [|fuel IH]; intros r; cbn [advance_through]; [apply log_frame_refl|].
  destruct (_ <=? _); [|apply log_frame_refl].
  pose proof (advanceNextExpectedOne_frame r) as H.
  destruct (advanceNextExpectedOne r) as [r1 []]; cbn [fst] in H; [|exact H].
  eapply log_frame_trans; [exact H|apply IH].
Qed.

(** * Pruning *)

Lemma pruneSlot_frame r s : log_frame r (pruneSlot r s).
Proof.
  unfold pruneSlot. cbv zeta.
  assert (log_frame r (pruneDedupForSlot r s)) as H.
  { unfold pruneDedupForSlot. destruct (r_globalLog r !! s); [log_frame|apply log_frame_refl]. }
  eapply log_frame_trans; [exact H|]. eapply log_frame_trans; [apply releaseEntryBytes_frame|].
  unfold dropSlot. log_frame.
Qed.

Lemma pruneSlots_frame n r s : log_frame r (pruneSlots n r s).
Proof.
  revert r s. induction n as [|n IH]; intros r s; cbn [pruneSlots]; [apply log_frame_refl|].
  eapply log_frame_trans; [apply pruneSlot_frame|apply IH].
Qed.

Lemma prune_bytes_frame fuel r l : log_frame r (prune_bytes fuel r l).
Proof.
  revert r. induction fuel as [|fuel IH]; intros r; cbn [prune_bytes]; [apply log_frame_refl|].
  destruct (_ && _); [|apply log_frame_refl].
  eapply log_frame_trans; [apply (pruneSlot_frame r (r_prunedBelow r))|].
  eapply log_frame_trans; [|apply IH]. log_frame.
Qed.

Lemma pruneCommitted_frame r : log_frame r (pruneCommitted r).
Proof.
  unfold pruneCommitted. cbv zeta. eapply log_frame_trans; [|apply prune_bytes_frame].
  eapply log_frame_trans; [apply pruneSlots_frame|].
  destruct (_ <? _); [log_frame|apply log_frame_refl].
Qed.

Lemma advanceNextExpected_frame r : log_frame r (advanceNextExpected r).
Proof.
  unfold advanceNextExpected. destruct (bool_decide _); [|apply pruneCommitted_frame].
  eapply log_frame_trans; [apply advance_loop_frame|apply pruneCommitted_frame].
Qed.

Lemma advanceNextExpectedThrough_frame r m : log_frame r (advanceNextExpectedThrough r m).
Proof.
  unfold advanceNextExpectedThrough.
  eapply log_frame_trans; [apply advance_through_frame|apply pruneCommitted_frame].
Qed.

(** * Rewinding and clearing *)

Lemma rewind_one_frame li r s : log_frame r (rewind_one li r s).
Proof.
  unfold rewind_one. destruct (r_globalLog r !! s) as [e|] eqn:E; [|apply log_frame_refl].
  cbv zeta. unfold undoWrites. rewrite E. log_frame.
Qed.

Lemma rewind_down_frame n t li r : log_frame r (rewind_down n t li r).
Proof.
  revert r. induction n as [|n IH]; intros r; cbn [rewind_down]; [apply log_frame_refl|].
  eapply log_frame_trans; [apply rewind_one_frame|apply IH].
Qed.

Lemma rewindTo_frame r t : log_frame r (rewindTo r t).1.
Proof.
  unfold rewindTo. destruct (_ <=? _); [apply log_frame_refl|].
  destruct (prefixStateAt r t) as [[h li]|]; [|apply log_frame_refl]. cbv zeta. cbn [fst].
  eapply log_frame_trans; [apply rewind_down_frame|]. log_frame.
Qed.

Lemma clearSlot_frame r s : log_frame r (clearSlot r s).
Proof.
  unfold clearSlot. eapply log_frame_trans; [apply releaseEntryBytes_frame|]. unfold dropSlot. log_frame.
Qed.

Lemma clear_up_frame n r s : log_frame r (clear_up n r s).
Proof.
  revert r s. induction n as [|n IH]; intros r s; cbn [clear_up]; [apply log_frame_refl|].
  eapply log_frame_trans; [apply clearSlot_frame|apply IH].
Qed.

Lemma clearSlotsAbove_frame r s : log_frame r (clearSlotsAbove r s).
Proof. unfold clearSlotsAbove. destruct (negb _); [apply log_frame_refl|apply clear_up_frame]. Qed.

Lemma setStable_frame r s : log_frame r (setStable r s).
Proof.
  unfold setStable. cbv zeta. destruct (_ =? _); [apply log_frame_refl|].
  destruct (_ || _); [log_frame|apply log_frame_refl].
Qed.

(** draining also empties the queue *)
Lemma drainPendingBuses_frame r :
  exists q, log_frame (r <| r_pendingBuses := q |>) (drainPendingBuses r).
Proof.
  unfold drainPendingBuses. destruct (r_pendingBuses r) as [|b l] eqn:E.
  { exists []. rewrite <- E. log_frame. }
  exists []. eapply log_frame_trans; [|apply advanceNextExpected_frame].
  apply foldl_frame. intros r' b'. unfold drain_one. apply recordBusReceived_frame.
Qed.

Lemma drain_nothing r : r_pendingBuses r = [] -> drainPendingBuses r = r.
Proof. unfold drainPendingBuses. by intros ->. Qed.

Lemma clear_where_frame r sel : log_frame r (clear_where r sel).
Proof. apply foldl_frame. intros. apply clearSlot_frame. Qed.

Lemma recomputeMaxSlot_frame r : log_frame r (recomputeMaxSlot r).
Proof. unfold recomputeMaxSlot. cbv zeta. destruct (map_fold _ _ _). log_frame. Qed.

Lemma count_noop_frame r s : log_frame r (count_noop r s).
Proof.
  unfold count_noop. pose proof (setNoOp_frame r s) as H. destruct (setNoOp r s) as [r1 []];
    cbn [fst] in H; [|exact H]. eapply log_frame_trans; [exact H|]. log_frame.
Qed.

Lemma replayReplies_frame r from to : log_frame r (replayReplies r from to).
Proof.
  apply foldl_frame. intros r1 s. unfold replay_slot.
  destruct (r_globalLog r1 !! s) as [e|]; [|apply log_frame_refl].
  destruct (bool_decide _); [|apply log_frame_refl]. apply foldl_frame. intros r2 rq.
  unfold replay_request. destruct (r_dedup r2 !! reqKey rq); [|apply log_frame_refl].
  apply enqueueReply_log_frame.
Qed.
End frame.
