(* ===== verification/ViewInv.v ===== *)
(** The invariant of the views: what [view], [status], [lastNormalView] and the
    view-change and recovery states say of each other, kept by every step of
    [Sync], [ViewChange] and [Recovery]. *)
From S2P Require Import Prelude WireBase Wire WireStream Config Lines GlobalOrder State.
From S2P Require Import ReplicaState Cursor Log Admission ScheduleProto SchedInv.
From S2P Require Import Merge Gaps Sync ViewChange Recovery LogFrame.

Section view.
Context {TM : Treemap Value}.
Implicit Types r : Replica TM.

(** the fields the invariant speaks of *)
Record view_same r r' : Prop := {
  vs_config : r_config r' = r_config r;
  vs_idx : r_idx r' = r_idx r;
  vs_view : r_viewId r' = r_viewId r;
  vs_status : r_status r' = r_status r;
  vs_normal : r_lastNormalView r' = r_lastNormalView r;
  vs_vc : r_vc r' = r_vc r;
  vs_recovery : r_recovery r' = r_recovery r;
  vs_watchdog : r_viewChangeWatchdog r' = r_viewChangeWatchdog r;
  vs_watchdogGen : r_viewChangeWatchdogGen r' = r_viewChangeWatchdogGen r }.

Ltac view_same := split; by rsimpl.

Lemma view_same_refl r : view_same r r.
Proof. done. Qed.

Lemma view_same_trans r1 r2 r3 : view_same r1 r2 -> view_same r2 r3 -> view_same r1 r3.
Proof. intros [] []. split; congruence. Qed.

Lemma log_frame_view r r' : log_frame r r' -> view_same r r'.
Proof. unfold log_frame. intros H. rewrite H. unfold with_log. view_same. Qed.

Lemma drainPendingBuses_view r : view_same r (drainPendingBuses r).
Proof.
  destruct (drainPendingBuses_frame r) as [q H]. apply log_frame_view in H.
  eapply view_same_trans; [|exact H]. view_same.
Qed.

Lemma sched_frame_view r r' : sched_frame r r' -> view_same r r'.
Proof. unfold sched_frame. intros H. rewrite H. unfold with_sched. view_same. Qed.

(** * The invariant *)

Record view_inv r : Prop := {
  vi_le : r_lastNormalView r <= view r;
  vi_normal : r_status r = statusNormal -> r_lastNormalView r = view r;
  vi_vc : forall vc, r_vc r = Some vc -> vcs_view vc = view r /\ r_status r = statusViewChange;
  vi_recovery : forall rec, r_recovery r = Some rec ->
    rec_view rec = view r /\ r_status r = statusViewChange;
  vi_one : r_vc r = None \/ r_recovery r = None;
  vi_watchdog : r_status r = statusViewChange ->
    r_viewChangeWatchdog r = Some (mkviewChangeWatchdog (view r) (r_viewChangeWatchdogGen r)) }.

Lemma view_inv_same r r' : view_same r r' -> view_inv r -> view_inv r'.
Proof.
  intros [E1 E2 E3 E4 E5 E6 E7 E8 E9] [H1 H2 H3 H4 H5 H6]. unfold view in *.
  split; unfold view; rewrite ?E3, ?E4, ?E5, ?E6, ?E7, ?E8, ?E9; done.
Qed.

(** a step keeps the invariant and never goes back to an earlier view *)
Record view_step_ok r r' : Prop := {
  vso_inv : view_inv r';
  vso_view : view r <= view r';
  vso_normal : r_lastNormalView r <= r_lastNormalView r' }.

Lemma view_step_same r r' : view_same r r' -> view_inv r -> view_step_ok r r'.
Proof.
  intros H Hinv. pose proof (view_inv_same _ _ H Hinv). destruct H. split; [done|unfold view|]; lia.
Qed.

Lemma view_step_refl r : view_inv r -> view_step_ok r r.
Proof. intros H. by apply view_step_same. Qed.

Lemma view_step_trans r1 r2 r3 : view_step_ok r1 r2 -> view_step_ok r2 r3 -> view_step_ok r1 r3.
Proof. intros [] []. split; [done|lia|lia]. Qed.

(** ** Starting a view change *)

Lemma beginViewChange_fields r v now :
  view r < v ->
  let r' := (beginViewChange r v now).1 in
  view r' = v /\ r_status r' = statusViewChange /\ r_lastNormalView r' = r_lastNormalView r /\
  r_recovery r' = None /\ r_config r' = r_config r /\ r_idx r' = r_idx r /\
  r_viewChangeWatchdog r' = Some (mkviewChangeWatchdog v (r_viewChangeWatchdogGen r')) /\
  (exists vc, r_vc r' = Some vc /\ vcs_view vc = v /\ vcs_requests vc = {[u32 (r_idx r)]} /\
     vcs_reportSent vc = false /\ vcs_reports vc = [] /\
     (beginViewChange r v now).2 = Some (mkviewChangeStart v (LeaderIndex (r_config r) v) (vcs_id vc))).
Proof.
  intros Hlt. unfold beginViewChange. rewrite (proj2 (Z.leb_gt _ _)) by done. cbv zeta.
  set (r1 := cancelGaps _). pose proof (drainPendingBuses_view r1) as [].
  set (r2 := drainPendingBuses r1) in *. cbn [fst snd]. unfold view. rsimpl.
  rewrite vs_view0, vs_status0, vs_normal0, vs_recovery0, vs_config0, vs_idx0, vs_watchdog0, vs_watchdogGen0.
  do 7 (split; [reflexivity|]). eexists. do 5 (split; [reflexivity|]). reflexivity.
Qed.

Lemma beginViewChange_spec r v now : view_inv r -> view_step_ok r (beginViewChange r v now).1.
Proof.
  intros Hinv. destruct (decide (view r < v)) as [Hlt|Hge].
  2:{ unfold beginViewChange. rewrite (proj2 (Z.leb_le _ _)) by lia. by apply view_step_refl. }
  destruct (beginViewChange_fields r v now Hlt) as (E1 & E2 & E3 & E4 & _ & _ & E5 & vc & Ev & Hv & _).
  set (r' := (beginViewChange r v now).1) in *. pose proof (vi_le r Hinv).
  split; [split|lia|lia].
  - lia.
  - by rewrite E2.
  - intros vc' Hvc'. rewrite Ev in Hvc'. injection Hvc' as <-. by rewrite E1.
  - intros rec. by rewrite E4.
  - by right.
  - intros _. by rewrite E5, E1.
Qed.

Lemma pauseClients_view r v wall : view_same r (pauseClients r v wall).1.
Proof. unfold pauseClients. cbn [fst]. view_same. Qed.

Lemma startViewChange_spec r v now wall : view_inv r -> view_step_ok r (startViewChange r v now wall).1.
Proof.
  intros Hinv. unfold startViewChange. pose proof (beginViewChange_spec r v now Hinv) as H.
  destruct (beginViewChange r v now) as [r1 [st|]]; cbn [fst] in *; [|done].
  unfold publishViewChange. pose proof (pauseClients_view r1 (vst_view st) wall) as Hp.
  destruct (pauseClients r1 (vst_view st) wall) as [r2 fx]. cbn [fst] in *.
  eapply view_step_trans; [exact H|]. apply view_step_same; [done|apply H].
Qed.

Lemma suspectLeader_spec r now wall : view_inv r -> view_step_ok r (suspectLeader r now wall).1.
Proof.
  intros Hinv. unfold suspectLeader. destruct (_ || _); [by apply view_step_refl|].
  destruct (_ <? _); [by apply view_step_refl|by apply startViewChange_spec].
Qed.

Lemma expireViewChangeWatchdog_spec r wd now wall :
  view_inv r -> view_step_ok r (expireViewChangeWatchdog r wd now wall).1.
Proof.
  intros Hinv. unfold expireViewChangeWatchdog. cbv zeta.
  destruct (_ || _); [by apply view_step_refl|by apply startViewChange_spec].
Qed.

(** the current [vcState] may change, but not its view *)
Lemma view_inv_vc r vc vc' :
  view_inv r -> r_vc r = Some vc -> vcs_view vc' = vcs_view vc ->
  view_step_ok r (r <| r_vc := Some vc' |>).
Proof.
  intros [H1 H2 H3 H4 H5 H6] Hvc Hv. split; [|unfold view; rsimpl; lia|rsimpl; lia].
  destruct (H3 vc Hvc) as [E Es].
  split; unfold view in *; rsimpl; try done.
  - intros vc2 [= <-]. by rewrite Hv.
  - destruct H5 as [H5|H5]; [congruence|by right].
Qed.

Lemma deliverViewChange_spec r m : view_inv r -> view_step_ok r (deliverViewChange r m).
Proof.
  intros Hinv. unfold deliverViewChange. destruct (r_vc r) as [vc|] eqn:E; [|by apply view_step_refl].
  destruct (_ && _); [|by apply view_step_refl]. by eapply view_inv_vc.
Qed.

Lemma count_request_spec r m : view_inv r -> view_step_ok r (count_request r m).1.
Proof.
  intros Hinv. unfold count_request. destruct (r_vc r) as [vc|] eqn:E; [|by apply view_step_refl].
  destruct (_ || _); [by apply view_step_refl|]. cbv zeta.
  destruct (_ <? _); [by eapply view_inv_vc|].
  set (r1 := r <| r_vc := _ |>).
  assert (view_step_ok r r1) as H by (by eapply view_inv_vc).
  destruct (_ =? _); cbn [fst]; [|done]. eapply view_step_trans; [exact H|].
  apply deliverViewChange_spec, H.
Qed.

Lemma handleViewChangeRequest_spec r m now wall :
  view_inv r -> view_step_ok r (handleViewChangeRequest r m now wall).1.
Proof.
  intros Hinv. unfold handleViewChangeRequest.
  assert (view_step_ok r (if view r <? vq_ViewId m then startViewChange r (vq_ViewId m) now wall
    else (r, [])).1) as H.
  { destruct (_ <? _); [by apply startViewChange_spec|by apply view_step_refl]. }
  destruct (if view r <? vq_ViewId m then _ else _) as [r1 fx]. cbn [fst] in H.
  destruct (negb _); [done|]. pose proof (count_request_spec r1 m (vso_inv _ _ H)) as H2.
  destruct (count_request r1 m) as [r2 fx2]. cbn [fst] in *. by eapply view_step_trans.
Qed.

Lemma handleViewChange_spec r m now wall :
  view_inv r -> view_step_ok r (handleViewChange r m now wall).1.
Proof.
  intros Hinv. unfold handleViewChange. destruct (_ <? _); [by apply view_step_refl|].
  assert (view_step_ok r (if view r <? vc_ViewId m then startViewChange r (vc_ViewId m) now wall
    else (r, [])).1) as H.
  { destruct (_ <? _); [by apply startViewChange_spec|by apply view_step_refl]. }
  destruct (if view r <? vc_ViewId m then _ else _) as [r1 fx]. cbn [fst] in H.
  destruct (_ && _); [done|]. cbn [fst]. eapply view_step_trans; [exact H|].
  apply deliverViewChange_spec, H.
Qed.

(** ** The new leader *)

Lemma drive_take_spec r id reports : view_inv r -> view_step_ok r (drive_take r id reports).1.
Proof.
  intros Hinv. unfold drive_take. destruct (r_vc r) as [vc|] eqn:E; [|by apply view_step_refl].
  destruct (_ =? _); [|by apply view_step_refl].
  destruct (vcs_reports vc); [by apply view_step_refl|]. by eapply view_inv_vc.
Qed.

Lemma push_fetch_view r q : view_same r (push_fetch r q).1.
Proof. unfold push_fetch. destruct (_ <? _); [view_same|done]. Qed.

Lemma next_fetch_view r : view_same r (next_fetch r).1.
Proof. unfold next_fetch. cbn [fst]. view_same. Qed.

Lemma fetchRange_view r id v peer from to slots : view_same r (fetchRange r id v peer from to slots).1.
Proof.
  unfold fetchRange. destruct (_ || _); [done|]. pose proof (next_fetch_view r) as H.
  destruct (next_fetch r) as [r1 fid]. cbn [fst] in H.
  set (q := mkfetchReq _ _ _ _ _ _ _ _ _). pose proof (push_fetch_view r1 q) as H2.
  destruct (push_fetch r1 q). cbn [fst] in *. by eapply view_same_trans.
Qed.

Lemma merge_prefix_view r id v wd plan : view_same r (merge_prefix r id v wd plan).1.
Proof.
  unfold merge_prefix. destruct (negb _); [done|]. destruct (negb _); [done|].
  destruct (committedPrefixMissing _ _ _) as [from|]; [|done]. destruct (_ && _); [|done].
  pose proof (fetchRange_view r id v (mp_catchUp plan) from (mp_stableSlot plan) None) as H.
  by destruct (fetchRange _ _ _ _ _ _ _).
Qed.

Lemma prepareMergedRequestSlot_frame r s : log_frame r (prepareMergedRequestSlot r s).1.
Proof.
  unfold prepareMergedRequestSlot. destruct (bool_decide _); [apply log_frame_refl|].
  assert (log_frame r (if s <? r_nextExpected r then rewindTo r s else (r, true)).1) as H.
  { destruct (_ <? _); [apply rewindTo_frame|apply log_frame_refl]. }
  destruct (if s <? _ then _ else _) as [r1 ok]. cbn [fst] in H. destruct (negb ok); [done|].
  destruct (bool_decide _); [|done]. eapply log_frame_trans; [exact H|apply clearSlot_frame].
Qed.

Lemma merge_donor_view r id v wd slot donor : view_same r (merge_donor r id v wd slot donor).1.
Proof.
  unfold merge_donor. destruct (negb _); [done|]. destruct (bool_decide _); [done|].
  pose proof (log_frame_view _ _ (prepareMergedRequestSlot_frame r slot)) as H.
  destruct (prepareMergedRequestSlot r slot) as [r1 can]. cbn [fst] in H.
  destruct (negb can); [done|]. destruct (_ =? _); [done|].
  pose proof (fetchRange_view r1 id v donor slot slot (Some [slot])) as H2.
  destruct (fetchRange _ _ _ _ _ _ _). cbn [fst] in *. by eapply view_same_trans.
Qed.

Lemma canonical_rewind_frame r target conservative :
  log_frame r (canonical_rewind r target conservative).
Proof.
  unfold canonical_rewind. destruct (target <? r_nextExpected r); [|apply log_frame_refl].
  pose proof (rewindTo_frame r target) as H. destruct (rewindTo r target) as [r1 ok]. cbn [fst] in H.
  destruct (_ && _); [|exact H]. eapply log_frame_trans; [exact H|apply clearSlotsAbove_frame].
Qed.

Lemma canonical_drop_frame r maxSlot hasMax conservative :
  log_frame r (canonical_drop r maxSlot hasMax conservative).
Proof.
  unfold canonical_drop. destruct conservative; [apply log_frame_refl|].
  eapply log_frame_trans; [apply clear_where_frame|apply recomputeMaxSlot_frame].
Qed.

Lemma canonical_noops_frame r noops : log_frame r (canonical_noops r noops).
Proof.
  apply foldl_frame. intros r' s. destruct (s <? r_nextExpected r'); [apply log_frame_refl|].
  apply count_noop_frame.
Qed.

Lemma canonical_frame r target maxSlot hasMax noops conservative :
  log_frame r (canonical_noops (canonical_drop (canonical_rewind r target conservative)
                 maxSlot hasMax conservative) noops).
Proof.
  eapply log_frame_trans; [apply (canonical_rewind_frame r target conservative)|].
  eapply log_frame_trans; [apply (canonical_drop_frame _ maxSlot hasMax conservative)|].
  apply canonical_noops_frame.
Qed.

Lemma canonical_execute_frame r v stable hasStable maxSlot hasMax :
  log_frame (r <| r_viewId := v |>) (canonical_execute r v stable hasStable maxSlot hasMax).
Proof.
  unfold canonical_execute. cbv zeta. set (r1 := r <| r_viewId := v |>).
  assert (log_frame r1 (if hasMax then advanceNextExpectedThrough r1 maxSlot else r1)) as H.
  { destruct hasMax; [apply advanceNextExpectedThrough_frame|apply log_frame_refl]. }
  destruct hasStable; [eapply log_frame_trans; [|apply setStable_frame]|];
    (eapply log_frame_trans; [exact H|apply replayReplies_frame]).
Qed.

Lemma installCanonicalView_view r v stable hasStable maxSlot hasMax noops conservative :
  view r = v -> view_same r (installCanonicalView r v stable hasStable maxSlot hasMax noops conservative).
Proof.
  intros Hv. unfold installCanonicalView. cbv zeta.
  set (t := canonical_target _ _ _ _ _). set (r1 := canonical_noops _ _).
  assert (view_same r r1) as H1 by (apply log_frame_view, canonical_frame).
  eapply view_same_trans; [exact H1|].
  eapply view_same_trans; [|apply log_frame_view, canonical_execute_frame].
  destruct H1. split; rsimpl; try done. unfold view in Hv. by rewrite vs_view0.
Qed.

Lemma mergeActive_spec r id v wd :
  mergeActive r id v wd = true ->
  view r = v /\ r_status r = statusViewChange /\
  exists vc w, r_vc r = Some vc /\ vcs_id vc = id /\ r_viewChangeWatchdog r = Some w.
Proof.
  unfold mergeActive. destruct wd as [wd|]; [|done]. destruct (r_vc r) as [vc|]; [|done].
  destruct (r_viewChangeWatchdog r) as [w|]; [|done].
  rewrite !andb_true_iff, !Z.eqb_eq, bool_decide_eq_true. naive_solver.
Qed.

Lemma drive_install_view r id v wd plan : view_same r (drive_install r id v wd plan).1.
Proof.
  unfold drive_install. destruct (mergeCanonicalBoundary plan) as [mx has].
  destruct (mergeActive r id v wd) eqn:Ea; cbn [negb orb]; [|done].
  destruct (negb _); [done|]. apply mergeActive_spec in Ea as (Hv & _).
  cbv zeta. cbn [fst]. set (r1 := r <| r_startViewView := _ |> <| r_startViewSource := _ |>
    <| r_startViewUsed := _ |>).
  eapply view_same_trans; [|apply installCanonicalView_view].
  - eapply (view_same_trans _ r1); [view_same|]. apply sched_frame_view, installSchedule_frame.
  - pose proof (sched_frame_view _ _ (installSchedule_frame r1 (mp_schedule plan) v false)) as [].
    unfold view. rewrite vs_view0. exact Hv.
Qed.

(** entering a view normally *)
Lemma enter_normal_fields r v now :
  let r' := enter_normal r v now in
  r_viewId r' = r_viewId r /\ r_status r' = statusNormal /\ r_lastNormalView r' = v /\
  r_vc r' = r_vc r /\ r_recovery r' = r_recovery r.
Proof.
  unfold enter_normal, commitScheduleHistory. cbv zeta. destruct (last _); by rsimpl.
Qed.

Lemma publish_spec r r' :
  view_inv r -> r_viewId r' = view r -> r_status r' = statusNormal -> r_lastNormalView r' = view r ->
  r_vc r' = None -> r_recovery r' = None -> view_step_ok r r'.
Proof.
  intros Hinv E1 E2 E3 E4 E5. pose proof (vi_le r Hinv).
  split; [split; unfold view|unfold view|]; rewrite ?E1, ?E2, ?E3, ?E4, ?E5; try done; try lia.
  by left.
Qed.

Lemma drive_publish_spec r id v wd plan now :
  view_inv r -> view_step_ok r (drive_publish r id v wd plan now).1.
Proof.
  intros Hinv. unfold drive_publish. destruct (mergeActive r id v wd) eqn:Ea; cbn [negb orb];
    [|by apply view_step_refl]. destruct (negb _); [by apply view_step_refl|].
  apply mergeActive_spec in Ea as (Hv & Hs & vc & w & Evc & _). cbn [fst].
  unfold publishNormalView. set (r1 := r <| r_vc := None |>).
  destruct (enter_normal_fields r1 v now) as (E1 & E2 & E3 & E4 & E5).
  pose proof (log_frame_view _ _ (advanceNextExpected_frame (enter_normal r1 v now))) as [].
  apply publish_spec; [done|..].
  - by rewrite vs_view0, E1.
  - by rewrite vs_status0.
  - by rewrite vs_normal0, E3.
  - by rewrite vs_vc0, E4.
  - rewrite vs_recovery0, E5. unfold r1. rsimpl.
    destruct (vi_one r Hinv) as [H|H]; [congruence|done].
Qed.

Lemma drive_merge_spec r v reports now wall :
  view_inv r -> view_step_ok r (drive_merge r v reports now wall).1.1.
Proof.
  intros Hinv. unfold drive_merge. cbv zeta. destruct (_ || _); cbn [fst];
    [by apply startViewChange_spec|by apply view_step_refl].
Qed.
End view.
