(* ===== verification/RecoveryInv.v ===== *)
(** The invariant of the views through [Sync] and [Recovery]: synchronisation and
    the fetch loop leave the view alone, a follower's installation of a start
    view moves it forward. *)
From S2P Require Import Prelude WireBase Wire WireStream Config Lines GlobalOrder State.
From S2P Require Import ReplicaState Cursor Log Admission ScheduleProto SchedInv.
From S2P Require Import Merge Gaps Sync ViewChange Recovery LogFrame ViewInv.

Section recovery.
Context {TM : Treemap Value}.
Implicit Types r : Replica TM.

Ltac view_same := split; by rsimpl.

(** * Synchronisation *)

Lemma clearSyncCatchup_view r : view_same r (clearSyncCatchup r).
Proof. unfold clearSyncCatchup. view_same. Qed.

Lemma enqueueSyncFetch_view r q : view_same r (enqueueSyncFetch r q).
Proof.
  unfold enqueueSyncFetch. pose proof (push_fetch_view r q) as H.
  destruct (push_fetch r q) as [r1 []]; cbn [fst] in H; [done|].
  destruct (syncCatchupMatches r1 q); [|done].
  eapply view_same_trans; [exact H|apply clearSyncCatchup_view].
Qed.

Lemma newSyncFetch_view r from to : view_same r (newSyncFetch r from to).1.
Proof.
  unfold newSyncFetch. cbv zeta. pose proof (next_fetch_view r) as H.
  by destruct (next_fetch r).
Qed.

Lemma enqueueFetch_view r peer from to : view_same r (enqueueFetch r peer from to).
Proof.
  unfold enqueueFetch. destruct (_ || _); [done|]. pose proof (next_fetch_view r) as H.
  destruct (next_fetch r) as [r1 id]. cbn [fst] in H.
  eapply view_same_trans; [exact H|apply push_fetch_view].
Qed.

Lemma maybeCommitSync_view r : view_same r (maybeCommitSync r).1.
Proof.
  unfold maybeCommitSync. destruct (r_sync r) as [s|]; [|done]. destruct (_ || _); [done|].
  cbv zeta. cbn [fst]. set (r1 := r <| r_sync := _ |>).
  eapply (view_same_trans _ r1); [view_same|]. apply log_frame_view, setStable_frame.
Qed.

Lemma start_round_view r : view_same r (start_round r).1.
Proof.
  unfold start_round. cbv zeta. set (r1 := r <| r_sync := _ |>).
  assert (view_same r r1) as H1 by view_same.
  assert (view_same r1 (match open_round r with Some _ => maybeCommitSync r1 | None => (r1, None) end).1) as H2.
  { destruct (open_round r); [apply maybeCommitSync_view|done]. }
  destruct (match open_round r with Some _ => _ | None => _ end) as [r2 c]. cbn [fst] in *.
  by eapply view_same_trans.
Qed.

Lemma syncOnce_view r : view_same r (syncOnce r).1.
Proof.
  unfold syncOnce. destruct (_ || _); [cbn [fst]; view_same|].
  destruct (r_sync r); [|apply start_round_view]. destruct (_ || _); [apply start_round_view|done].
Qed.

Lemma rewindToStableAndRefetch_view r peer v stable haveStable :
  view_same r (rewindToStableAndRefetch r peer v stable haveStable).
Proof.
  unfold rewindToStableAndRefetch. destruct (negb _); [done|]. destruct (_ || _); [done|].
  pose proof (log_frame_view _ _ (rewindTo_frame r (add64 stable 1))) as H.
  destruct (rewindTo r (add64 stable 1)) as [r1 ok]. cbn [fst] in H. destruct (negb ok); [done|].
  cbv zeta. set (r2 := clearSlotsAbove r1 (add64 stable 1)).
  assert (view_same r r2) as H2.
  { eapply view_same_trans; [exact H|]. apply log_frame_view, clearSlotsAbove_frame. }
  destruct (_ <? _); [|done]. eapply view_same_trans; [exact H2|apply enqueueFetch_view].
Qed.

Lemma answerSyncPrepare_view r m known stable haveStable :
  view_same r (answerSyncPrepare r m known stable haveStable).1.
Proof.
  unfold answerSyncPrepare. cbv zeta. destruct (negb _); [done|]. destruct known as [h|]; [|done].
  destruct (negb _); [apply rewindToStableAndRefetch_view|done].
Qed.

Lemma behind_catchup_view r m : view_same r (behind_catchup r m).
Proof.
  unfold behind_catchup. cbv zeta. destruct (_ || _).
  - match goal with |- context [newSyncFetch ?r0 _ _] => set (r1 := r0) end.
    pose proof (newSyncFetch_view r1 (r_nextExpected r1) (yp_SlotToSync m)) as H2.
    destruct (newSyncFetch r1 _ _) as [r2 q].
    assert (view_same r r1) as H1.
    { eapply view_same_trans; [apply clearSyncCatchup_view|view_same]. }
    cbn [fst] in H2.
    eapply view_same_trans; [exact H1|]. eapply view_same_trans; [exact H2|apply enqueueSyncFetch_view].
  - destruct (_ <? _); [view_same|done].
Qed.

Lemma handleSyncPrepare_view r m now : view_same r (handleSyncPrepare r m now).1.
Proof.
  unfold handleSyncPrepare. destruct (_ || _); [done|]. destruct (_ <? _); [done|].
  destruct (_ <? _); [unfold requestCatchUp; cbn [fst]; view_same|]. cbv zeta.
  set (r1 := r <| r_lastHeartbeatNs := now |> <| r_leaderLost := false |>).
  assert (view_same r r1) as H1 by view_same.
  destruct (_ || _); [done|]. destruct (_ || _); cbn [fst].
  - eapply view_same_trans; [exact H1|apply behind_catchup_view].
  - eapply view_same_trans; [exact H1|apply answerSyncPrepare_view].
Qed.

Lemma handleSyncReply_view r m : view_same r (handleSyncReply r m).1.
Proof.
  unfold handleSyncReply. destruct (_ || _); [done|]. destruct (r_sync r) as [s|]; [|done].
  destruct (_ && _); [|done]. cbv zeta. set (r1 := r <| r_sync := _ |>).
  assert (view_same r r1) as H1 by view_same.
  pose proof (maybeCommitSync_view r1) as H2. destruct (maybeCommitSync r1) as [r2 c].
  cbn [fst] in *. by eapply view_same_trans.
Qed.

Lemma handleSyncCommit_view r m now : view_same r (handleSyncCommit r m now).
Proof.
  unfold handleSyncCommit. destruct (negb _); [done|]. destruct (_ && _); [|done].
  eapply view_same_trans; [apply log_frame_view, (setStable_frame r (yc_StableSlot m))|view_same].
Qed.

(** * The fetch loop *)

Lemma apply_entry_frame r e : log_frame r (apply_entry r e).
Proof.
  unfold apply_entry. destruct (se_IsNoOp e); [apply count_noop_frame|].
  pose proof (storeRecovered_frame r (se_Slot e) (se_ClientId e) (se_ReqId e) (se_Payload e) (se_IsBus e)) as H.
  destruct (storeRecovered _ _ _ _ _ _) as [r1 []]; cbn [fst] in H; [|done].
  eapply log_frame_trans; [exact H|]. unfold log_frame, with_log. replica_eq.
Qed.

Lemma applyStateEntries_frame r m q : log_frame r (applyStateEntries r m q).1.
Proof.
  unfold applyStateEntries. destruct (_ || _); [apply log_frame_refl|].
  destruct (negb _); [apply log_frame_refl|]. destruct (negb _); [apply log_frame_refl|]. cbn [fst].
  eapply log_frame_trans; [apply (foldl_frame apply_entry); apply apply_entry_frame|].
  apply advanceNextExpected_frame.
Qed.

Lemma fetch_receive_frame r q next to slots m : log_frame r (fetch_receive r q next to slots m).1.
Proof.
  unfold fetch_receive. destruct (_ || _); [apply log_frame_refl|]. cbv zeta.
  destruct (negb _); [apply log_frame_refl|]. pose proof (applyStateEntries_frame r m q) as H.
  by destruct (applyStateEntries r m q).
Qed.

Lemma finishSyncFetch_view r q ok : view_same r (finishSyncFetch r q ok).1.
Proof.
  unfold finishSyncFetch. destruct (negb _); [done|].
  destruct (negb ok); [apply clearSyncCatchup_view|]. cbv zeta. destruct (_ || _).
  - destruct (_ <=? _); [apply clearSyncCatchup_view|].
    pose proof (newSyncFetch_view r (r_nextExpected r) (cu_target (r_syncCatchup r))) as H.
    destruct (newSyncFetch _ _ _) as [r1 q']. cbn [fst] in *.
    eapply view_same_trans; [exact H|apply enqueueSyncFetch_view].
  - eapply view_same_trans; [apply clearSyncCatchup_view|apply answerSyncPrepare_view].
Qed.

Lemma handleNewState_view r m : view_same r (handleNewState r m).
Proof. unfold handleNewState. destruct (_ <=? _); [done|]. destruct (_ <? _); [view_same|done]. Qed.

Lemma handleGetState_view r m : view_same r (handleGetState r m).
Proof.
  unfold handleGetState. destruct (_ || _); [done|]. destruct (_ <? _); [done|].
  destruct (negb _); [done|]. destruct (_ <? _); [view_same|done].
Qed.

Lemma stateFetch_take_view r : view_same r (stateFetch_take r).1.
Proof. unfold stateFetch_take. destruct (r_fetchQ r); [done|]. cbn [fst]. view_same. Qed.

(** * Installing a start view *)

(** the recovery's own bookkeeping may change, but not its view *)
Definition recovery_same r r' : Prop :=
  view_same r (r' <| r_recovery := r_recovery r |>) /\
  rec_view <$> r_recovery r' = rec_view <$> r_recovery r /\
  rec_generation <$> r_recovery r' = rec_generation <$> r_recovery r.

Lemma view_recovery_same r r' : view_same r r' -> recovery_same r r'.
Proof.
  intros []. split; [split; rsimpl; congruence|]. by rewrite vs_recovery.
Qed.

Lemma recovery_same_refl r : recovery_same r r.
Proof. by apply view_recovery_same. Qed.

Lemma recovery_same_trans r1 r2 r3 : recovery_same r1 r2 -> recovery_same r2 r3 -> recovery_same r1 r3.
Proof.
  intros [[] [E1 F1]] [[] [E2 F2]]. split; [|split; congruence]. split; rsimpl in *; congruence.
Qed.

Lemma set_recovery_same r f :
  (forall rec, rec_view (f rec) = rec_view rec) -> (forall rec, rec_generation (f rec) = rec_generation rec) ->
  recovery_same r (set_recovery r f).
Proof.
  intros Hv Hg. unfold set_recovery. split; [view_same|]. rsimpl.
  destruct (r_recovery r); cbn; by rewrite ?Hv, ?Hg.
Qed.

Lemma view_inv_recovery r r' : recovery_same r r' -> view_inv r -> view_step_ok r r'.
Proof.
  intros [[] [Er _]] [H1 H2 H3 H4 H5 H6]. rsimpl in *. unfold view in *.
  split; [|unfold view; lia|lia].
  split; unfold view; rewrite ?vs_view, ?vs_status, ?vs_normal, ?vs_vc, ?vs_watchdog, ?vs_watchdogGen; try done.
  - intros rec Hrec. rewrite Hrec in Er. destruct (r_recovery r) as [rec0|] eqn:E0; [|done].
    injection Er as Er. rewrite Er. by apply H4.
  - destruct H5 as [H5|H5]; [by left|right]. rewrite H5 in Er. by destruct (r_recovery r').
Qed.

Lemma prepareRecovery_same r m retain : recovery_same r (prepareRecovery r m retain).1.
Proof.
  unfold prepareRecovery. cbv zeta. set (r1 := set_recovery r _).
  assert (recovery_same r r1) as H1 by (by apply set_recovery_same). clearbody r1.
  destruct (_ && _); [done|]. destruct (noop_conflict _ _ _); [done|].
  set (t := recovery_target _ _ _ _ _).
  assert (view_same r1 (if t <? r_nextExpected r1 then rewindTo r1 t else (r1, true)).1) as H2.
  { destruct (t <? r_nextExpected r1); [apply log_frame_view, rewindTo_frame|done]. }
  destruct (if t <? _ then _ else _) as [r2 ok]. cbn [fst] in H2.
  assert (recovery_same r r2) as H3.
  { eapply recovery_same_trans; [exact H1|by apply view_recovery_same]. }
  destruct (negb ok); [done|]. cbn [fst].
  set (r3 := if negb retain then _ else _).
  assert (view_same r2 r3) as H4.
  { unfold r3. destruct (negb retain); apply log_frame_view, clear_where_frame. }
  set (r4 := foldl count_noop _ _).
  assert (view_same r3 r4) as H5.
  { apply log_frame_view. eapply log_frame_trans; [apply recomputeMaxSlot_frame|].
    apply (foldl_frame count_noop). apply count_noop_frame. }
  eapply recovery_same_trans; [exact H3|].
  eapply recovery_same_trans; [apply view_recovery_same, H4|].
  eapply recovery_same_trans; [apply view_recovery_same, H5|]. by apply set_recovery_same.
Qed.

Lemma installStartView_spec r m now : view_inv r -> view_step_ok r (installStartView r m now).1.
Proof.
  intros Hinv. unfold installStartView. destruct (start_stale r m || _) eqn:Es; [by apply view_step_refl|].
  apply orb_false_iff in Es as [Es _]. unfold start_stale in Es.
  apply orb_false_iff in Es as [Es _]. apply orb_false_iff in Es as [Es _].
  apply Z.ltb_ge in Es. cbv zeta.
  set (r0 := cancelGaps _). pose proof (drainPendingBuses_view r0) as [].
  set (r1 := drainPendingBuses r0) in *. clearbody r1.
  assert (r_lastNormalView r1 = r_lastNormalView r) as En by (rewrite vs_normal; unfold r0; by rsimpl).
  assert (r_vc r1 = None) as Ev by (rewrite vs_vc; unfold r0; by rsimpl).
  clear - Hinv Es En Ev.
  match goal with |- context [installSchedule ?x _ _ _] => set (r2 := x) end.
  pose proof (sched_frame_view _ _ (installSchedule_frame r2 (sv_Schedule m) (sv_ViewId m) false)) as H3.
  set (r3 := installSchedule r2 _ _ _) in *. clearbody r3.
  pose proof (prepareRecovery_same r3 m (retains r m)) as H4.
  destruct (prepareRecovery r3 m (retains r m)) as [r4 ok]. cbn [fst] in *.
  assert (view_step_ok r r2) as H2.
  { pose proof (vi_le r Hinv) as Hle. unfold view in *. unfold r2, armViewChangeWatchdog, cancelViewChangeWatchdog.
    split; [split|..]; unfold view; rsimpl; rewrite ?Ev, ?En; try done; try lia.
    - by intros rec [= <-].
    - by left. }
  assert (view_step_ok r2 r3) as H5 by (apply view_step_same; [done|apply H2]).
  eapply view_step_trans; [exact H2|]. eapply view_step_trans; [exact H5|].
  apply view_inv_recovery; [done|apply H5].
Qed.

Lemma viewInstall_spec r now : view_inv r -> view_step_ok r (viewInstall r now).1.
Proof.
  intros Hinv. unfold viewInstall. destruct (r_startViewQ r) as [|m q]; [by apply view_step_refl|].
  set (r1 := r <| r_startViewQ := q |>).
  assert (view_step_ok r r1) as H by (apply view_step_same; [unfold r1; view_same|done]).
  eapply view_step_trans; [exact H|]. apply installStartView_spec, H.
Qed.

Lemma handleStartView_spec r m : view_inv r -> view_step_ok r (handleStartView r m).
Proof.
  intros Hinv. unfold handleStartView. destruct (negb _); [by apply view_step_refl|].
  destruct (_ || _); [by apply view_step_refl|]. destruct (_ <? _); [|by apply view_step_refl].
  cbv zeta. match goal with |- context [r_recovery ?x] => set (r2 := x) end.
  assert (view_same r r2) as H.
  { unfold r2. destruct (_ <? _); view_same. }
  clearbody r2. assert (view_step_ok r r2) as H2 by by apply view_step_same.
  destruct (r_recovery r2) as [rec|] eqn:E; [|exact H2]. destruct (_ <? _); [|exact H2].
  eapply view_step_trans; [exact H2|].
  destruct (vso_inv _ _ H2) as [G1 G2 G3 G4 G5 G6].
  split; [split|..]; unfold cancelRecovery, view in *; rsimpl; try done; try lia. by right.
Qed.

(** * Finishing a recovery *)

Lemma retained_hash_frame n r s h : log_frame r (retained_hash n r s h).1.
Proof.
  revert r s h. induction n as [|n IH]; intros r s h; cbn [retained_hash]; [apply log_frame_refl|].
  cbv zeta. pose proof (entryOwner_log_frame r s (default emptyEntry (r_globalLog r !! s))) as H.
  destruct (entryOwner _ _ _) as [r1 o]. cbn [fst] in H.
  eapply log_frame_trans; [exact H|apply IH].
Qed.

Lemma repair_prefix_same r rec : recovery_same r (repair_prefix r rec).
Proof.
  unfold repair_prefix. pose proof (log_frame_view _ _ (rewindTo_frame r (rec_repairFrom rec))) as H.
  destruct (rewindTo r _) as [r1 ok]. cbn [fst] in H. apply view_recovery_same in H.
  destruct (negb ok); [done|]. cbv zeta.
  eapply recovery_same_trans; [exact H|].
  eapply recovery_same_trans; [|by apply set_recovery_same].
  apply view_recovery_same, log_frame_view.
  eapply log_frame_trans; [apply (clear_where_frame r1)|apply recomputeMaxSlot_frame].
Qed.

Lemma complete_recovery_spec r rec now :
  view_inv r -> rec_view rec = view r -> r_vc r = None -> view_step_ok r (complete_recovery r rec now).
Proof.
  intros Hinv Hv Hvc. unfold complete_recovery. cbv zeta.
  set (r1 := if rec_hasMax rec then _ else r).
  assert (log_frame r r1) as H1.
  { unfold r1. destruct (rec_hasMax rec); [apply advanceNextExpectedThrough_frame|apply log_frame_refl]. }
  set (r2 := if rec_hasStable rec then _ else _).
  assert (view_same r r2) as [].
  { apply log_frame_view. eapply log_frame_trans; [exact H1|]. unfold r2.
    destruct (rec_hasStable rec); [eapply log_frame_trans; [|apply setStable_frame]|];
      apply replayReplies_frame. }
  clearbody r1 r2. destruct (enter_normal_fields r2 (rec_view rec) now) as (E1 & E2 & E3 & E4 & E5).
  set (r3 := (enter_normal r2 (rec_view rec) now) <| r_recovery := None |>).
  pose proof (log_frame_view _ _ (advanceNextExpected_frame r3)) as [].
  apply publish_spec; [done|..]; unfold r3 in *; rsimpl in *; unfold view in *; congruence.
Qed.

Lemma recovery_is_spec r gen rec :
  recovery_is r gen = Some rec -> r_recovery r = Some rec /\ rec_generation rec = gen.
Proof.
  unfold recovery_is. destruct (r_recovery r) as [rec0|]; [|done].
  destruct (_ =? _) eqn:E; [|done]. intros [= <-]. apply Z.eqb_eq in E. done.
Qed.

Lemma finishRecovery_spec r gen now : view_inv r -> view_step_ok r (finishRecovery r gen now).1.
Proof.
  intros Hinv. unfold finishRecovery. destruct (recovery_is r gen) as [rec|] eqn:E; [|by apply view_step_refl].
  apply recovery_is_spec in E as [E _]. destruct (vi_recovery r Hinv rec E) as [Hv Hs].
  assert (r_vc r = None) as Hvc by (destruct (vi_one r Hinv); [done|congruence]).
  destruct (_ || _); [by apply view_step_refl|]. destruct (negb _); [by apply view_step_refl|].
  destruct (rec_verifyPrefix rec); [|by apply complete_recovery_spec].
  pose proof (log_frame_view _ _ (retained_hash_frame (Z.to_nat (rec_stable rec - r_nextExpected r + 1)) r
    (r_nextExpected r) (r_prefixHash r))) as H.
  destruct (retained_hash _ r _ _) as [r1 h]. cbn [fst] in H.
  pose proof (view_step_same _ _ H Hinv) as H1.
  destruct (negb _).
  - eapply view_step_trans; [exact H1|]. apply view_inv_recovery; [apply repair_prefix_same|apply H1].
  - cbv zeta. cbn [fst]. set (r2 := set_recovery r1 _).
    assert (recovery_same r1 r2) as H2 by by apply set_recovery_same.
    pose proof (view_inv_recovery _ _ H2 (vso_inv _ _ H1)) as H3.
    eapply view_step_trans; [exact H1|]. eapply view_step_trans; [exact H3|].
    destruct H2 as [[] _]. destruct H. rsimpl in *.
    apply complete_recovery_spec; [apply H3|..]; rsimpl; unfold view in *; congruence.
Qed.

Lemma fetchRecoveryRange_view r rec from to : view_same r (fetchRecoveryRange r rec from to).1.
Proof.
  unfold fetchRecoveryRange. destruct (_ || _); [done|]. pose proof (next_fetch_view r) as H.
  destruct (next_fetch r) as [r1 fid]. cbn [fst] in H.
  set (q := mkfetchReq _ _ _ _ _ _ _ _ _). pose proof (push_fetch_view r1 q) as H2.
  destruct (push_fetch r1 q). cbn [fst] in *. by eapply view_same_trans.
Qed.

Lemma recover_turn_spec r gen now : view_inv r -> view_step_ok r (recover_turn r gen now).1.
Proof.
  intros Hinv. unfold recover_turn. pose proof (finishRecovery_spec r gen now Hinv) as H.
  destruct (finishRecovery r gen now) as [r1 []]; cbn [fst] in H; [done|].
  destruct (recoveryMissingRange r1 gen) as [[from to]|]; [|done].
  destruct (recovery_is r1 gen) as [rec|]; [|done]. destruct (_ <=? _); [|done].
  pose proof (fetchRecoveryRange_view r1 rec from (rec_maxSlot rec)) as H2.
  destruct (fetchRecoveryRange _ _ _ _) as [r2 res]. cbn [fst] in *.
  eapply view_step_trans; [exact H|]. apply view_step_same; [done|apply H].
Qed.
End recovery.
