(* ===== verification/RecoveryLog.v ===== *)
(** The bus log through a recovery ([recovery.go]: [prepareRecoveryLocked],
    [applyStateEntries]): what is cleared, closed and fetched lies above the
    executed prefix, so the log's invariant is kept. *)
From S2P Require Import Prelude WireBase Wire WireStream Config Lines GlobalOrder State.
From S2P Require Import ReplicaState Cursor Log LogSpec LogInv Admission.
From S2P Require Import ScheduleProto Merge Gaps Sync ViewChange Recovery LogFrame.

Section recovery.
Context {TM : Treemap Value} {TL : TreemapLaws TM}.
Implicit Types r : Replica TM.

(** a step that leaves the executed prefix and the slots outside [touched] alone *)
Record log_kept (touched : Z -> Prop) r r' : Prop := {
  lk_next : r_nextExpected r' = r_nextExpected r;
  lk_pruned : r_prunedBelow r' = r_prunedBelow r;
  lk_ring : r_ringSize r' = r_ringSize r;
  lk_stable : r_haveStable r' = r_haveStable r /\ r_stableSlot r' = r_stableSlot r;
  lk_slots : forall s, ~ touched s -> slotState_of r' s = slotState_of r s }.

Lemma log_kept_refl P r : log_kept P r r.
Proof. by split. Qed.

Lemma log_kept_trans P r1 r2 r3 : log_kept P r1 r2 -> log_kept P r2 r3 -> log_kept P r1 r3.
Proof.
  intros [A1 A2 A3 [A4 A5] A6] [B1 B2 B3 [B4 B5] B6]. split; try congruence; [split; congruence|].
  intros s Hs. by rewrite B6, A6.
Qed.

Lemma log_kept_weaken (P Q : Z -> Prop) r r' : (forall s, P s -> Q s) -> log_kept P r r' -> log_kept Q r r'.
Proof. intros HPQ []. split; try done. auto. Qed.

(** * Dropping slots *)

Lemma clearSlot_log r s :
  let r' := clearSlot r s in
  same_core r r' /\ log_kept (eq s) r r' /\ r_globalLog r' !! s = None /\
  forall s', s' <> s -> r_globalLog r' !! s' = r_globalLog r !! s'.
Proof.
  cbv zeta. pose proof (releaseEntryBytes_spec r s) as
    ((E1 & E2 & E3 & E4 & E5 & E6 & E7) & E8 & E9 & E10 & E11 & E12 & _ & _ & Eo).
  unfold clearSlot, dropSlot. set (r1 := releaseEntryBytes r s) in *.
  assert (forall s', s' <> s -> delete s (r_globalLog r1) !! s' = r_globalLog r !! s') as Hl.
  { intros s' Hs. rewrite lookup_delete_ne by done. auto. }
  split; [|split; [|split]].
  - split; by rsimpl.
  - split; rsimpl; try done. intros s' Hs. unfold slotState_of. rsimpl. by rewrite Hl by done.
  - rsimpl. by rewrite lookup_delete_eq.
  - intros s' Hs. rsimpl. auto.
Qed.

Lemma clearSlot_inv lo r snap hi s :
  log_inv_at lo r snap hi -> r_nextExpected r <= s -> log_inv_at lo (clearSlot r s) snap hi.
Proof.
  intros Hinv Hs. destruct (clearSlot_log r s) as (Hc & _ & Hnone & Ho).
  apply (log_inv_change lo r _ snap hi Hinv Hc).
  - intros s' Hs'. apply Ho. lia.
  - intros s' e He Hne. destruct (decide (s' = s)) as [->|]; [congruence|]. rewrite Ho in He; done.
Qed.

Lemma clear_slots_spec l r snap hi :
  log_inv r snap hi -> (forall s, s ∈ l -> r_nextExpected r <= s) ->
  log_inv (foldl clearSlot r l) snap hi /\ log_kept (fun s => s ∈ l) r (foldl clearSlot r l) /\
  forall s, s ∈ l -> slotState_of (foldl clearSlot r l) s = slotEmpty.
Proof.
  revert r. induction l as [|s l IH]; intros r Hinv Hl; cbn [foldl].
  { split; [done|]. split; [apply log_kept_refl|]. by intros s ?%elem_of_nil. }
  destruct (clearSlot_log r s) as (_ & Hk & Hnone & _).
  assert (log_inv (clearSlot r s) snap hi) as Hinv1.
  { unfold log_inv. rewrite (lk_pruned _ _ _ Hk). apply clearSlot_inv; [done|]. apply Hl. set_solver. }
  destruct (IH (clearSlot r s) Hinv1) as (H1 & H2 & H3).
  { intros s' Hs'. rewrite (lk_next _ _ _ Hk). apply Hl. set_solver. }
  split; [done|]. split.
  - eapply log_kept_trans; [eapply log_kept_weaken; [|exact Hk]|eapply log_kept_weaken; [|exact H2]];
      set_solver.
  - intros s' Hs'. destruct (decide (s' ∈ l)) as [|Hn]; [auto|].
    rewrite (lk_slots _ _ _ H2 s' Hn). assert (s' = s) as -> by set_solver.
    unfold slotState_of. by rewrite Hnone.
Qed.

Lemma slots_where_spec r sel s :
  s ∈ slots_where r sel <-> exists e, r_globalLog r !! s = Some e /\ sel s e = true.
Proof.
  unfold slots_where. rewrite list_elem_of_fmap. split.
  - intros ([s' e] & -> & [Hsel Hin]%list_elem_of_filter). apply elem_of_map_to_list in Hin. eauto.
  - intros (e & He & Hsel). exists (s, e). split; [done|]. apply list_elem_of_filter.
    split; [done|]. by apply elem_of_map_to_list.
Qed.

(** a loop that drops the slots [sel] picks, all above the executed prefix *)
Lemma clear_where_spec r sel snap hi :
  log_inv r snap hi ->
  (forall s e, r_globalLog r !! s = Some e -> sel s e = true -> r_nextExpected r <= s) ->
  log_inv (clear_where r sel) snap hi /\
  log_kept (fun s => s ∈ slots_where r sel) r (clear_where r sel) /\
  forall s, s ∈ slots_where r sel -> slotState_of (clear_where r sel) s = slotEmpty.
Proof.
  intros Hinv Hsel. apply clear_slots_spec; [done|].
  intros s (e & He & Hs)%slots_where_spec. by eapply Hsel.
Qed.

(** * Closing slots *)

Lemma setNoOp_stable r s :
  r_haveStable (setNoOp r s).1 = r_haveStable r /\ r_stableSlot (setNoOp r s).1 = r_stableSlot r.
Proof.
  unfold setNoOp. destruct (executed r s); [done|].
  assert (r_haveStable (slotEntry (observeSlot r s) s).1 = r_haveStable r /\
          r_stableSlot (slotEntry (observeSlot r s) s).1 = r_stableSlot r) as [H1 H2].
  { unfold slotEntry, observeSlot.
    destruct (_ || _); rsimpl; destruct (r_globalLog r !! s); by rsimpl. }
  destruct (slotEntry (observeSlot r s) s) as [r1 e]. cbn [fst] in *.
  destruct (bool_decide _); [done|].
  pose proof (entryOwner_frame r1 s e) as (n & c & m & E). destruct (entryOwner r1 s e) as [r2 o].
  cbn [fst] in *. subst r2. unfold releaseEntryBytes, setEntry. rsimpl.
  rewrite lookup_insert_eq. by rsimpl.
Qed.

Lemma setNoOp_kept r s : log_kept (eq s) r (setNoOp r s).1.
Proof.
  destruct (setNoOp_log r s) as (Hc & Hp & Ho & _). destruct Hc.
  destruct (setNoOp_stable r s). split; try done.
  intros s' Hs'. unfold slotState_of. by rewrite Ho by congruence.
Qed.

Lemma count_noop_eq r s : exists n, count_noop r s = (setNoOp r s).1 <| r_winNoops := n |>.
Proof.
  unfold count_noop. destruct (setNoOp r s) as [r1 []]; cbn [fst].
  - exists (add64 (r_winNoops r1) 1). replica_eq.
  - exists (r_winNoops r1). replica_eq.
Qed.

Lemma winNoops_inv lo r snap hi n : log_inv_at lo r snap hi -> log_inv_at lo (r <| r_winNoops := n |>) snap hi.
Proof. intros []. split; by rsimpl. Qed.

Lemma count_noop_inv r snap hi s : log_inv r snap hi -> log_inv (count_noop r s) snap hi.
Proof.
  intros Hinv. destruct (count_noop_eq r s) as [n ->].
  unfold log_inv. rsimpl. rewrite (lk_pruned _ _ _ (setNoOp_kept r s)).
  by apply winNoops_inv, setNoOp_inv.
Qed.

Lemma count_noop_kept r s : log_kept (eq s) r (count_noop r s).
Proof.
  destruct (count_noop_eq r s) as [n ->]. destruct (setNoOp_kept r s). split; by rsimpl.
Qed.

(** a slot closed is a no-op, unless it was executed as something else *)
Lemma count_noop_state r s :
  slotState_of (count_noop r s) s = if executed r s then slotState_of r s else slotNoOp.
Proof.
  destruct (count_noop_eq r s) as [n ->]. unfold slotState_of. rsimpl.
  destruct (executed r s) eqn:E.
  - by rewrite setNoOp_executed.
  - destruct (setNoOp_log r s) as (_ & _ & _ & H). destruct (H E) as (e' & -> & -> & _). done.
Qed.

Lemma count_noops_spec l r snap hi :
  log_inv r snap hi ->
  log_inv (foldl count_noop r l) snap hi /\ log_kept (fun s => s ∈ l) r (foldl count_noop r l) /\
  forall s, s ∈ l ->
    slotState_of (foldl count_noop r l) s = if executed r s then slotState_of r s else slotNoOp.
Proof.
  revert r. induction l as [|x l IH]; intros r Hinv; cbn [foldl].
  { split; [done|]. split; [apply log_kept_refl|]. by intros s ?%elem_of_nil. }
  pose proof (count_noop_kept r x) as Hk. pose proof (count_noop_inv r snap hi x Hinv) as Hinv1.
  destruct (IH _ Hinv1) as (H1 & H2 & H3). split; [done|]. split.
  - eapply log_kept_trans; [eapply log_kept_weaken; [|exact Hk]|eapply log_kept_weaken; [|exact H2]];
      set_solver.
  - intros s Hs.
    assert (executed (count_noop r x) s = executed r s) as Ex.
    { unfold executed. by rewrite (lk_next _ _ _ Hk). }
    destruct (decide (s ∈ l)) as [Hin|Hn].
    + rewrite (H3 s Hin), Ex. destruct (decide (s = x)) as [->|Hne].
      * rewrite count_noop_state. by destruct (executed r x).
      * by rewrite (lk_slots _ _ _ Hk) by congruence.
    + rewrite (lk_slots _ _ _ H2 s Hn). assert (s = x) as -> by set_solver. apply count_noop_state.
Qed.

Lemma recomputeMaxSlot_eq r :
  exists m h, recomputeMaxSlot r = r <| r_maxSlotSeen := m |> <| r_haveMax := h |>.
Proof. unfold recomputeMaxSlot. cbv zeta. destruct (map_fold _ _ _) as [m h]. by exists m, h. Qed.

Lemma recomputeMaxSlot_inv r snap hi : log_inv r snap hi -> log_inv (recomputeMaxSlot r) snap hi.
Proof. destruct (recomputeMaxSlot_eq r) as (m & h & ->). intros []. split; by rsimpl. Qed.

Lemma recomputeMaxSlot_kept P r : log_kept P r (recomputeMaxSlot r).
Proof. destruct (recomputeMaxSlot_eq r) as (m & h & ->). split; by rsimpl. Qed.

Lemma set_recovery_inv r f snap hi : log_inv r snap hi -> log_inv (set_recovery r f) snap hi.
Proof. unfold set_recovery. intros []. split; by rsimpl. Qed.

Lemma set_recovery_kept P r f : log_kept P r (set_recovery r f).
Proof. unfold set_recovery. split; by rsimpl. Qed.
End recovery.

(** * Preparing the log *)

Section target.
Context {TM : Treemap Value}.
Implicit Types r : Replica TM.

(** the smallest of [t] and the slots [sel] picks *)
Lemma map_fold_lowest (sel : Z -> globalEntry -> bool) t (m : gmap Z globalEntry) :
  let t' := map_fold (fun slot e t => if sel slot e && (slot <? t) then slot else t) t m in
  t' <= t /\ (forall s e, m !! s = Some e -> sel s e = true -> t' <= s) /\
  (t' = t \/ exists e, m !! t' = Some e /\ sel t' e = true).
Proof.
  cbv zeta. revert m.
  apply (map_fold_weak_ind (fun t' m => t' <= t /\
    (forall s e, m !! s = Some e -> sel s e = true -> t' <= s) /\
    (t' = t \/ exists e, m !! t' = Some e /\ sel t' e = true))).
  - split; [lia|]. split; [by intros s e; rewrite lookup_empty|by left].
  - intros s e m t1 Hs (H1 & H2 & H3). destruct (sel s e && (s <? t1)) eqn:E.
    + apply andb_true_iff in E as [Esel Elt]. apply Z.ltb_lt in Elt. split; [lia|]. split.
      * intros s' e'. rewrite lookup_insert_Some. intros [[<- <-]|[_ H]] Hsel; [lia|].
        specialize (H2 _ _ H Hsel). lia.
      * right. exists e. by rewrite lookup_insert_eq.
    + split; [lia|]. split.
      * intros s' e'. rewrite lookup_insert_Some. intros [[<- <-]|[_ H]] Hsel; [|by eapply H2].
        rewrite Hsel in E. cbn [andb] in E. lia.
      * destruct H3 as [->|(e' & He' & Hsel')]; [by left|]. right. exists e'.
        rewrite lookup_insert_ne by congruence. done.
Qed.

Lemma foldl_lowest (sel : Z -> bool) t l :
  let t' := foldl (fun t s => if (s <? t) && sel s then s else t) t l in
  t' <= t /\ (forall s, s ∈ l -> sel s = true -> t' <= s) /\ (t' = t \/ (t' ∈ l /\ sel t' = true)).
Proof.
  cbv zeta. revert t. induction l as [|x l IH]; intros t; cbn [foldl].
  { split; [lia|]. split; [by intros s ?%elem_of_nil|by left]. }
  destruct (IH (if (x <? t) && sel x then x else t)) as (H1 & H2 & H3).
  set (t' := foldl _ _ l) in *. clearbody t'. destruct (sel x) eqn:Ex.
  - rewrite andb_true_r in *. destruct (Z.ltb_spec x t).
    + split; [lia|]. split; [intros s [->|Hs]%elem_of_cons Hsel; [lia|auto]|].
      right. destruct H3 as [->|[]]; [split; [set_solver|done]|split; [set_solver|done]].
    + split; [lia|]. split; [intros s [->|Hs]%elem_of_cons Hsel; [lia|auto]|].
      destruct H3 as [->|[]]; [by left|right; split; [set_solver|done]].
  - rewrite andb_false_r in *. split; [lia|].
    split; [intros s [->|Hs]%elem_of_cons Hsel; [congruence|auto]|].
    destruct H3 as [->|[]]; [by left|right; split; [set_solver|done]].
Qed.

Lemma noop_conflict_false r lse noops s :
  noop_conflict r lse noops = false -> r_haveStable r = true -> s ∈ noops -> s < lse ->
  slotState_of r s = slotNoOp.
Proof.
  unfold noop_conflict. intros H Hst Hs Hlt.
  assert (forall l : list Z, existsb (fun s => r_haveStable r && (s <? lse) &&
    negb (bool_decide (slotState_of r s = slotNoOp))) l = false -> s ∈ l ->
    slotState_of r s = slotNoOp) as Hall.
  { intros l. induction l as [|x l IH]; [by intros _ ?%elem_of_nil|]. cbn [existsb].
    rewrite orb_false_iff. intros [Hx Hl] [->|Hin]%elem_of_cons; [|auto].
    rewrite Hst, (proj2 (Z.ltb_lt _ _) Hlt) in Hx. cbn [andb] in Hx.
    apply negb_false_iff, bool_decide_eq_true in Hx. done. }
  by eapply Hall.
Qed.

Lemma stray_noop_spec lse noops s e :
  stray_noop lse noops s e = true <-> lse <= s /\ ge_state e = slotNoOp /\ s ∉ noops.
Proof.
  unfold stray_noop, noop_entry. rewrite !andb_true_iff, !negb_true_iff, Z.ltb_ge, bool_decide_eq_true.
  assert (existsb (fun x => x =? s) noops = false <-> s ∉ noops) as ->.
  { rewrite <- not_true_iff_false, existsb_exists. split.
    - intros H Hin. apply H. exists s. split; [by apply list_elem_of_In|apply Z.eqb_refl].
    - intros H (x & Hx & ->%Z.eqb_eq). apply H. by apply list_elem_of_In. }
  tauto.
Qed.

(** where the kept prefix ends: not below the commit point, and below every
    slot on which the log and the merge disagree *)
Lemma recovery_target_spec r m retain cend lse :
  let t := recovery_target r m retain cend lse in
  noop_conflict r lse (sv_NoOpSlots m) = false ->
  (r_haveStable r = true -> sv_HasMax m = true /\ lse <= cend) ->
  (r_haveStable r = false -> lse = 0) ->
  0 <= cend -> 0 <= r_nextExpected r -> (forall s, s ∈ sv_NoOpSlots m -> 0 <= s) ->
  Z.min lse (r_nextExpected r) <= t /\
  (retain = false -> t = lse) /\
  (retain = true -> t <= r_nextExpected r /\ (sv_HasMax m = true -> t <= cend) /\
     (forall s, s ∈ sv_NoOpSlots m -> slotState_of r s = slotReceived -> t <= s) /\
     (forall s e, r_globalLog r !! s = Some e -> stray_noop lse (sv_NoOpSlots m) s e = true -> t <= s)).
Proof.
  cbv zeta. intros Hconf Hst Hns Hc Hn Hpos. unfold recovery_target.
  destruct (sv_HasMax m) eqn:Em; cbn [negb].
  2:{ destruct (r_haveStable r); [by destruct (Hst eq_refl)|]. rewrite Hns by done.
      split; [lia|]. split; [done|]. intros _. split; [done|]. split; [lia|].
      split; [auto|]. intros s e _ Hs%stray_noop_spec. lia. }
  destruct retain; cbn [negb]; [|split; [lia|]; split; done].
  set (t0 := if cend <? r_nextExpected r then cend else r_nextExpected r).
  assert (t0 <= r_nextExpected r /\ t0 <= cend /\ Z.min lse (r_nextExpected r) <= t0) as (H1 & H2 & H3).
  { unfold t0. destruct (r_haveStable r); [destruct (Hst eq_refl)|rewrite Hns by done];
      destruct (Z.ltb_spec cend (r_nextExpected r)); lia. }
  clearbody t0.
  pose proof (foldl_lowest (fun s => bool_decide (slotState_of r s = slotReceived)) t0 (sv_NoOpSlots m)) as Hf.
  cbv zeta in Hf. set (t1 := foldl _ t0 _) in *. destruct Hf as (F1 & F2 & F3).
  pose proof (map_fold_lowest (stray_noop lse (sv_NoOpSlots m)) t1 (r_globalLog r)) as Hm.
  cbv zeta in Hm. set (t2 := map_fold _ t1 _) in *. destruct Hm as (M1 & M2 & M3).
  split; [|split; [done|]].
  - destruct M3 as [->|(e & _ & Hs%stray_noop_spec)]; [|lia].
    destruct F3 as [->|[Fin Fst]]; [done|]. apply bool_decide_eq_true in Fst.
    destruct (r_haveStable r) eqn:Eh.
    + destruct (decide (t1 < lse)) as [Hlt|]; [|lia].
      pose proof (noop_conflict_false r lse _ t1 Hconf Eh Fin Hlt). congruence.
    + rewrite Hns by done. specialize (Hpos _ Fin). lia.
  - intros _. split; [lia|]. split; [lia|]. split; [|exact M2].
    intros s Hin Hrec. assert (t1 <= s) by (apply F2; [done|by apply bool_decide_eq_true]). lia.
Qed.
End target.

Section prepare.
Context {TM : Treemap Value} {TL : TreemapLaws TM}.
Implicit Types r : Replica TM.

Lemma slotState_entry r s st :
  slotState_of r s = st -> st <> slotEmpty -> exists e, r_globalLog r !! s = Some e /\ ge_state e = st.
Proof. unfold slotState_of. destruct (r_globalLog r !! s) as [e|]; [eauto|by intros <-]. Qed.

(** the executed log is taken back to [t], if it goes beyond *)
Lemma rewind_to_spec r snap hi t r2 :
  log_inv r snap hi -> (t < r_nextExpected r -> r_prunedBelow r <= t /\ hi - r_ringSize r < Z.max 1 t) ->
  (if t <? r_nextExpected r then rewindTo r t else (r, true)) = (r2, true) ->
  log_inv r2 snap hi /\ r_nextExpected r2 = Z.min t (r_nextExpected r) /\
  (forall s, slotState_of r2 s = slotState_of r s).
Proof.
  intros Hinv Hring. pose proof (li_bounds _ _ _ _ Hinv) as Hb.
  destruct (Z.ltb_spec t (r_nextExpected r)) as [Hlt|Hge]; [specialize (Hring Hlt)|].
  2:{ intros [= <-]. split; [done|]. split; [lia|done]. }
  destruct (rewindTo_spec r snap hi t Hinv) as (r2' & E & Hinv2 & Hn & _ & Hs); [lia|lia|].
  rewrite E. intros [= <-]. split; [done|]. split; [lia|done].
Qed.

Lemma rewindTo_kept r t r2 :
  rewindTo r t = (r2, true) ->
  r_prunedBelow r2 = r_prunedBelow r /\ r_haveStable r2 = r_haveStable r /\
  r_stableSlot r2 = r_stableSlot r.
Proof.
  unfold rewindTo. destruct (_ <=? _); [by intros [= <-]|].
  destruct (prefixStateAt r t) as [[h li]|]; [|done]. cbv zeta. intros [= <-]. rsimpl.
  generalize (Z.to_nat (r_nextExpected r - t)) as n. intros n.
  assert (forall n r, r_prunedBelow (rewind_down n t li r) = r_prunedBelow r /\
    r_haveStable (rewind_down n t li r) = r_haveStable r /\
    r_stableSlot (rewind_down n t li r) = r_stableSlot r) as H; [|apply H].
  clear n. induction n as [|n IH]; intros r'; cbn [rewind_down]; [done|].
  destruct (IH (rewind_one li r' (t + Z.of_nat n))) as (-> & -> & ->).
  unfold rewind_one, undoWrites. destruct (r_globalLog r' !! _); [by rsimpl|done].
Qed.

(** the local log agrees with the merge on the no-ops *)
Definition noops_agree (lse : Z) (noops : list Z) r : Prop :=
  (forall s, s ∈ noops -> slotState_of r s = slotNoOp) /\
  (forall s, lse <= s -> slotState_of r s = slotNoOp -> s ∈ noops).

(** the slots cleared after the rewind *)
Definition cleared r (lse t : Z) (noops : list Z) (retain : bool) : Replica TM :=
  if negb retain then clearSlotRange r t 0 false else clear_where r (stray_noop lse noops).

Lemma cleared_spec r snap hi lse t noops retain :
  log_inv r snap hi -> r_nextExpected r <= t \/ retain = true ->
  (retain = true -> forall s e, r_globalLog r !! s = Some e -> stray_noop lse noops s e = true ->
     r_nextExpected r <= s) ->
  (retain = false -> t = lse) ->
  let r' := cleared r lse t noops retain in
  log_inv r' snap hi /\ log_kept (fun s => lse <= s) r r' /\
  (forall s, lse <= s -> slotState_of r' s = slotNoOp -> s ∈ noops) /\
  (retain = true -> forall s, s ∈ noops \/ slotState_of r s = slotReceived ->
     slotState_of r' s = slotState_of r s).
Proof.
  intros Hinv Hn Hstray Ht. cbv zeta. unfold cleared. destruct retain; cbn [negb].
  - specialize (Hstray eq_refl). destruct (clear_where_spec r _ snap hi Hinv Hstray) as (H1 & H2 & H3).
    set (r' := clear_where r _) in *. split; [done|].
    assert (forall s, s ∈ slots_where r (stray_noop lse noops) ->
              lse <= s /\ (s ∉ noops) /\ slotState_of r s = slotNoOp) as Hpick.
    { intros s (e & He & (A & B & C)%stray_noop_spec)%slots_where_spec. split; [done|]. split; [done|].
      unfold slotState_of. by rewrite He. }
    split; [|split].
    + eapply log_kept_weaken; [|exact H2]. by intros s [Hs _]%Hpick.
    + intros s Hs Hst. destruct (decide (s ∈ slots_where r (stray_noop lse noops))) as [Hin|Hnin].
      { rewrite H3 in Hst by done. done. }
      rewrite (lk_slots _ _ _ H2 s Hnin) in Hst.
      destruct (decide (s ∈ noops)) as [|Hno]; [done|]. destruct Hnin.
      apply slots_where_spec. apply slotState_entry in Hst as (e & He & Hst); [|done].
      exists e. split; [done|]. by apply stray_noop_spec.
    + intros _ s Hs. apply (lk_slots _ _ _ H2). intros Hin%Hpick. destruct Hs; [tauto|].
      destruct Hin as (_ & _ & E). congruence.
  - destruct Hn as [Hn|]; [|done]. rewrite (Ht eq_refl) in *. unfold clearSlotRange.
    set (sel := fun (slot : Z) (_ : globalEntry) => _).
    assert (forall s e, sel s e = true <-> lse <= s) as Hsel.
    { intros s e. unfold sel. rewrite orb_false_r, negb_true_iff, Z.ltb_ge. done. }
    destruct (clear_where_spec r sel snap hi Hinv) as (H1 & H2 & H3).
    { intros s e _ Hs%Hsel. lia. }
    assert (forall s, s ∈ slots_where r sel -> lse <= s) as Hpick.
    { intros s (e & He & Hs)%slots_where_spec. by apply Hsel in Hs. }
    split; [done|]. split; [|split; [|done]].
    + by eapply log_kept_weaken; [|exact H2].
    + intros s Hs Hst. destruct (decide (s ∈ slots_where r sel)) as [Hin|Hnin].
      { rewrite H3 in Hst by done. done. }
      rewrite (lk_slots _ _ _ H2 s Hnin) in Hst. destruct Hnin. apply slots_where_spec.
      apply slotState_entry in Hst as (e & He & Hst); [|done]. exists e. split; [done|].
      by apply Hsel.
Qed.

(** the log's part of [prepareRecovery], once the rewind has succeeded *)
Definition prepared_log r (m : BusStartView) (retain : bool) (lse t : Z) : Replica TM :=
  foldl count_noop (recomputeMaxSlot (cleared r lse t (sv_NoOpSlots m) retain)) (sv_NoOpSlots m).

Lemma prepareRecovery_eq r m retain r' :
  prepareRecovery r m retain = (r', true) ->
  let lse := suffixBase (r_stableSlot r) (r_haveStable r) in
  let cend := if sv_HasMax m then add64 (sv_MaxSlot m) 1 else 0 in
  exists f g, let r1 := set_recovery r f in
    let t := recovery_target r1 m retain cend lse in
    (r_haveStable r = true -> sv_HasMax m = true /\ lse <= cend) /\
    noop_conflict r lse (sv_NoOpSlots m) = false /\
    exists r2, (if t <? r_nextExpected r1 then rewindTo r1 t else (r1, true)) = (r2, true) /\
      r' = set_recovery (prepared_log r2 m retain lse t) g.
Proof.
  unfold prepareRecovery. cbv zeta. set (lse := suffixBase _ _). set (cend := if sv_HasMax m then _ else _).
  match goal with |- context [set_recovery r ?h] => set (f := h) end.
  set (r1 := set_recovery r f).
  destruct (r_haveStable r1 && (negb (sv_HasMax m) || (cend <? lse))) eqn:E1; [done|].
  destruct (noop_conflict r1 lse _) eqn:E2; [done|]. set (t := recovery_target _ _ _ _ _).
  destruct (if t <? r_nextExpected r1 then _ else _) as [r2 ok] eqn:E3.
  destruct ok; cbn [negb]; [|done]. intros [= <-]. exists f. eexists. split; [|split].
  - intros Hs. change (r_haveStable r1) with (r_haveStable r) in E1. rewrite Hs in E1. cbn [andb] in E1.
    apply orb_false_iff in E1 as [E4 E5]. apply negb_false_iff in E4. apply Z.ltb_ge in E5. done.
  - exact E2.
  - exists r2. split; [exact E3|]. reflexivity.
Qed.
End prepare.

Section prepared.
Context {TM : Treemap Value} {TL : TreemapLaws TM}.
Implicit Types r : Replica TM.

(** the log of the recovery agrees with the merge, and is as before below the
    commit point [lse] *)
Record prepared lse noops (retain : bool) r r' : Prop := {
  pr_next : r_nextExpected r' = r_nextExpected r;
  pr_committed : forall s, s < lse -> slotState_of r' s = slotState_of r s;
  pr_noops : noops_agree lse noops r';
  pr_received : retain = true -> forall s, s ∉ noops -> slotState_of r s = slotReceived ->
    slotState_of r' s = slotReceived }.

Lemma prepared_log_spec r snap hi m retain lse t :
  log_inv r snap hi -> r_nextExpected r <= t \/ retain = true ->
  (retain = true -> forall s e, r_globalLog r !! s = Some e ->
     stray_noop lse (sv_NoOpSlots m) s e = true -> r_nextExpected r <= s) ->
  (retain = false -> t = lse) ->
  (forall s, s ∈ sv_NoOpSlots m -> s < r_nextExpected r \/ s < lse -> slotState_of r s = slotNoOp) ->
  let r' := prepared_log r m retain lse t in
  log_inv r' snap hi /\ prepared lse (sv_NoOpSlots m) retain r r'.
Proof.
  intros Hinv Hn Hstray Ht Hno. cbv zeta. unfold prepared_log.
  destruct (cleared_spec r snap hi lse t (sv_NoOpSlots m) retain Hinv Hn Hstray Ht) as (C1 & C2 & C3 & C4).
  set (rc := cleared _ _ _ _ _) in *.
  assert (forall s, slotState_of (recomputeMaxSlot rc) s = slotState_of rc s) as Er.
  { intros s. destruct (recomputeMaxSlot_eq rc) as (a & b & ->). done. }
  pose proof (recomputeMaxSlot_inv rc snap hi C1) as D1.
  pose proof (lk_next _ _ _ (recomputeMaxSlot_kept (fun _ => False) rc)) as D2.
  destruct (count_noops_spec (sv_NoOpSlots m) _ snap hi D1) as (E1 & E2 & E3).
  pose proof (lk_next _ _ _ E2) as E4. pose proof (lk_slots _ _ _ E2) as E5.
  set (r' := foldl _ _ _) in *. clearbody r'. set (r1 := recomputeMaxSlot rc) in *.
  clear E2. pose proof (lk_next _ _ _ C2) as C5. pose proof (lk_slots _ _ _ C2) as C6. clear C2.
  assert (forall s, s ∈ sv_NoOpSlots m -> slotState_of r' s = slotNoOp) as Hin.
  { intros s Hs. rewrite E3 by done. unfold executed. rewrite D2, C5, Er.
    destruct (Z.ltb_spec s (r_nextExpected r)) as [Hlt|]; [|done].
    specialize (Hno s Hs (or_introl Hlt)). rewrite <- Hno. destruct retain eqn:Eret.
    - apply C4; [done|by left].
    - apply C6. rewrite <- Ht by done. destruct Hn; [lia|done]. }
  split; [done|]. split.
  - congruence.
  - intros s Hs. destruct (decide (s ∈ sv_NoOpSlots m)) as [Hi|Hi].
    + rewrite Hin by done. symmetry. apply Hno; [done|by right].
    + rewrite E5, Er by done. apply C6. lia.
  - split; [done|]. intros s Hs Hst. destruct (decide (s ∈ sv_NoOpSlots m)) as [|Hi]; [done|].
    rewrite E5, Er in Hst by done. by apply C3.
  - intros Hret s Hi Hst. rewrite E5, Er by done. rewrite C4; [done|done|by right].
Qed.

Lemma prepareRecovery_spec r m retain r' snap hi :
  let lse := suffixBase (r_stableSlot r) (r_haveStable r) in
  log_inv r snap hi -> r_prunedBelow r <= lse -> hi - r_ringSize r < Z.max 1 lse ->
  (forall s, s ∈ sv_NoOpSlots m -> 0 <= s) ->
  prepareRecovery r m retain = (r', true) ->
  log_inv r' snap hi /\ Z.min lse (r_nextExpected r) <= r_nextExpected r' <= r_nextExpected r /\
  (forall s, s < lse -> slotState_of r' s = slotState_of r s) /\
  noops_agree lse (sv_NoOpSlots m) r' /\
  (retain = true -> forall s, s ∉ sv_NoOpSlots m -> slotState_of r s = slotReceived ->
     slotState_of r' s = slotReceived).
Proof.
  cbv zeta. intros Hinv Hp Hring Hpos Heq.
  destruct (prepareRecovery_eq r m retain r' Heq) as (f & g & Hst & Hconf & r2 & Hrw & ->). clear Heq.
  set (lse := suffixBase _ _) in *. set (r1 := set_recovery r f) in *.
  set (cend := if sv_HasMax m then add64 (sv_MaxSlot m) 1 else 0) in *.
  pose proof (li_bounds _ _ _ _ Hinv) as Hb.
  assert (r_haveStable r = false -> lse = 0) as Hns by (intros E; unfold lse; by rewrite E).
  assert (0 <= cend) as Hc.
  { unfold cend, add64. destruct (sv_HasMax m); [|done]. pose proof (u64_range (sv_MaxSlot m + 1)). unfold is_u64 in *; lia. }
  assert (0 <= r_nextExpected r1) as Hn0 by (change (r_nextExpected r1) with (r_nextExpected r); lia).
  destruct (recovery_target_spec r1 m retain cend lse Hconf Hst Hns Hc Hn0 Hpos)
    as (T1 & T2 & T3).
  change (r_nextExpected r1) with (r_nextExpected r) in *.
  set (t := recovery_target r1 m retain cend lse) in *. clearbody t.
  assert (log_inv r1 snap hi) as Hinv1 by (by apply set_recovery_inv).
  destruct (rewind_to_spec r1 snap hi t r2 Hinv1) as (R1 & R2 & R3).
  { intros Hlt. change (r_nextExpected r1) with (r_nextExpected r) in Hlt.
    change (r_prunedBelow r1) with (r_prunedBelow r). change (r_ringSize r1) with (r_ringSize r). lia. }
  { exact Hrw. }
  change (r_nextExpected r1) with (r_nextExpected r) in R2.
  assert (forall s, slotState_of r2 s = slotState_of r s) as R4 by exact R3. clear R3 Hrw.
  destruct (prepared_log_spec r2 snap hi m retain lse t R1) as (P1 & P2).
  - destruct retain; [by right|left; lia].
  - intros Hret s e He Hs. destruct (T3 Hret) as (_ & _ & _ & T4). rewrite R2.
    apply stray_noop_spec in Hs as (S1 & S2 & S3).
    assert (slotState_of r s = slotNoOp) as Hse by (rewrite <- R4; unfold slotState_of; by rewrite He).
    apply slotState_entry in Hse as (e0 & He0 & Hs0); [|done].
    enough (t <= s) by lia. apply (T4 s e0 He0). by apply stray_noop_spec.
  - exact T2.
  - intros s Hs Hlt. rewrite R4. destruct (decide (s < lse)) as [Hlow|Hhigh].
    + destruct (r_haveStable r) eqn:Eh; [by eapply noop_conflict_false|].
      specialize (Hpos s Hs). rewrite Hns in Hlow by done. lia.
    + destruct Hlt as [Hlt|]; [|lia]. destruct retain; [|rewrite (T2 eq_refl) in R2; lia].
      destruct (T3 eq_refl) as (_ & _ & T4 & _).
      pose proof (executed_filled _ r snap hi s Hinv ltac:(lia)) as Hf.
      destruct (slotState_of r s) eqn:E; [done| |done]. specialize (T4 s Hs E). lia.
  - destruct P2 as [P3 P4 P5 P6].
    split; [by apply set_recovery_inv|]. set (r3 := prepared_log _ _ _ _ _) in *.
    change (r_nextExpected (set_recovery r3 g)) with (r_nextExpected r3).
    assert (forall s, slotState_of (set_recovery r3 g) s = slotState_of r3 s) as Es by done.
    split; [lia|]. split; [intros s Hs; by rewrite Es, P4|].
    split; [exact P5|]. intros Hret s Hi Hs. rewrite Es. apply P6; [done|done|]. by rewrite R4.
Qed.
End prepared.
