(* ===== verification/RecoveryExec.v ===== *)
(** The end of a recovery ([recovery.go]: [finishRecovery],
    [advanceNextExpectedThroughLocked], [applyStateEntries]): what is fetched is
    recorded above the executed prefix, and the log executed on entering the view
    hashes to what was verified. *)
From S2P Require Import Prelude WireBase Wire WireStream Config Lines GlobalOrder State.
From S2P Require Import ReplicaState Cursor Log LogSpec LogInv Admission.
From S2P Require Import ScheduleProto SchedInv Merge Gaps Sync ViewChange Recovery LogFrame.
From S2P Require Import ViewInv RecoveryInv RecoveryLog.

(** a value folded over the [n] slots from [s] on *)
Section run.
Context (step : Z -> Z -> Z).
Fixpoint slot_run (n : nat) (s h : Z) : Z :=
  match n with
  | O => h
  | S n => slot_run n (s + 1) (step s h)
  end.

Lemma slot_run_S n s h : slot_run (S n) s h = slot_run n (s + 1) (step s h).
Proof. reflexivity. Qed.
End run.

Lemma slot_run_ext step step' n s h :
  (forall s' h', s <= s' < s + Z.of_nat n -> step' s' h' = step s' h') ->
  slot_run step' n s h = slot_run step n s h.
Proof.
  revert s h. induction n as [|n IH]; intros s h Hl; [reflexivity|].
  rewrite !slot_run_S, Hl by lia. apply IH. intros s' h' Hs'. apply Hl. lia.
Qed.

(** the prefix hash after one more slot *)
Definition hash_step (log : gmap Z globalEntry) (s h : Z) : Z :=
  let e := default emptyEntry (log !! s) in
  foldSlot h s (ge_state e) (ge_clientId e) (ge_reqId e).

Lemma hash_step_entry log s h e :
  log !! s = Some e -> hash_step log s h = foldSlot h s (ge_state e) (ge_clientId e) (ge_reqId e).
Proof. unfold hash_step. by intros ->. Qed.

Lemma hash_step_ext log log' s h : log' !! s = log !! s -> hash_step log' s h = hash_step log s h.
Proof. unfold hash_step. by intros ->. Qed.

#[local] Opaque hash_step foldSlot.

Section execute.
Context {TM : Treemap Value} {TL : TreemapLaws TM}.
Implicit Types r : Replica TM.

(** [finishRecovery]'s loop computes it, and changes nothing *)
Lemma retained_hash_run n r s h :
  (forall s', s <= s' < s + Z.of_nat n -> slotState_of r s' <> slotEmpty) ->
  (forall s' e, r_globalLog r !! s' = Some e -> ge_state e <> slotEmpty -> ge_ownerSet e = true) ->
  retained_hash n r s h = (r, slot_run (hash_step (r_globalLog r)) n s h).
Proof.
  revert s h. induction n as [|n IH]; intros s h Hf Ho; [reflexivity|].
  rewrite slot_run_S. cbn [retained_hash].
  cbv zeta. pose proof (Hf s ltac:(lia)) as Hs. unfold slotState_of in Hs.
  destruct (r_globalLog r !! s) as [e|] eqn:E; [|done].
  change (default emptyEntry (Some e)) with e.
  rewrite (hash_step_entry _ s h e E), (entryOwner_set r s e) by (by eapply Ho). cbn [fst snd].
  apply IH; [|done]. intros s' Hs'. apply Hf. lia.
Qed.

(** one slot executed, and its hash *)
Lemma advance_turn_hash lo r snap hi n e :
  log_inv_at lo r snap hi -> roomy r hi (S n) ->
  r_globalLog r !! r_nextExpected r = Some e -> ge_state e <> slotEmpty ->
  exists r' snap' hi',
    advanceNextExpectedOne r = (r', true) /\ log_inv_at lo r' snap' hi' /\ roomy r' hi' n /\
    r_nextExpected r' = r_nextExpected r + 1 /\ advanced r r' snap snap' hi hi' /\
    r_prefixHash r' = hash_step (r_globalLog r) (r_nextExpected r) (r_prefixHash r) /\
    (forall s, s <> r_nextExpected r -> r_globalLog r' !! s = r_globalLog r !! s).
Proof.
  intros Hinv Hroom He Hst.
  destruct (advance_turn lo r snap hi n Hinv Hroom) as (r1 & snap1 & hi1 & Ea & H1 & H2 & H3 & H4).
  { unfold slotState_of. by rewrite He. }
  exists r1, snap1, hi1. do 5 (split; [done|]).
  pose proof (roomy_slots _ _ _ Hroom). pose proof (roomy_index _ _ _ Hroom).
  pose proof (roomy_entries _ _ _ Hroom _ e He).
  destruct (advance_one_inv lo r snap hi e Hinv He Hst) as (r2 & sn & Eb & _ & Hrest); [split; lia|].
  rewrite Ea in Eb. injection Eb as <-. destruct (exec_entry _ e _ _) as [[d st] ans].
  destruct Hrest as ((e' & _ & _ & Hf) & _ & _ & Hh).
  pose proof (slot_frame_core _ _ _ _ _ _ _ _ _ Hf) as (El & _ & _ & _ & _ & Eh & _).
  rewrite El, Eh, Hh, (hash_step_entry _ _ _ e He). split; [done|].
  intros s Hs. by rewrite lookup_insert_ne.
Qed.

(** how far [advance_through] gets *)
Lemma roomy_le r hi n m : roomy r hi n -> (m <= n)%nat -> roomy r hi m.
Proof. intros [H1 H2 H3] Hle. split; [lia|lia|done]. Qed.

Lemma advance_through_spec extra fuel : forall lo r snap hi maxSlot,
  log_inv_at lo r snap hi -> roomy r hi (fuel + extra) ->
  let r' := advance_through fuel r maxSlot in
  exists snap' hi', log_inv_at lo r' snap' hi' /\ roomy r' hi' extra /\
  advanced r r' snap snap' hi hi' /\
  r_nextExpected r' <= Z.max (r_nextExpected r) (maxSlot + 1) /\
  (forall s, r_nextExpected r <= s < r_nextExpected r' -> slotState_of r s <> slotEmpty) /\
  (maxSlot < r_nextExpected r' \/ r_nextExpected r' = r_nextExpected r + Z.of_nat fuel \/
   slotState_of r (r_nextExpected r') = slotEmpty) /\
  (forall s, r_nextExpected r <= s <= r_nextExpected r' ->
     sn_hash (snap' s) =
       slot_run (hash_step (r_globalLog r)) (Z.to_nat (s - r_nextExpected r)) (r_nextExpected r) (r_prefixHash r)).
Proof.
  induction fuel as [|fuel IH]; intros lo r snap hi maxSlot Hinv Hroom; cbn [advance_through]; cbv zeta.
  { exists snap, hi. split; [done|]. split; [eapply roomy_le; [exact Hroom|lia]|]. split; [apply advanced_refl, Hinv|]. split; [lia|].
    split; [intros; lia|]. split; [right; left; lia|]. intros s Hs.
    replace s with (r_nextExpected r) by lia. rewrite Z.sub_diag. cbn. symmetry. apply Hinv. }
  assert (forall s, r_nextExpected r <= s <= r_nextExpected r -> sn_hash (snap s) =
     slot_run (hash_step (r_globalLog r)) (Z.to_nat (s - r_nextExpected r)) (r_nextExpected r) (r_prefixHash r)) as H0.
  { intros s Hs. replace s with (r_nextExpected r) by lia. rewrite Z.sub_diag. cbn. symmetry. apply Hinv. }
  destruct (Z.leb_spec (r_nextExpected r) maxSlot) as [Hle|Hgt].
  2:{ exists snap, hi. split; [done|]. split; [eapply roomy_le; [exact Hroom|lia]|]. split; [apply advanced_refl, Hinv|]. split; [lia|].
      split; [intros; lia|]. split; [left; lia|done]. }
  destruct (decide (slotState_of r (r_nextExpected r) = slotEmpty)) as [Hem|Hst].
  { rewrite advance_stuck by done.
    exists snap, hi. split; [done|]. split; [eapply roomy_le; [exact Hroom|lia]|]. split; [apply advanced_refl, Hinv|]. split; [lia|].
    split; [intros; lia|]. split; [by right; right|done]. }
  assert (exists e, r_globalLog r !! r_nextExpected r = Some e /\ ge_state e <> slotEmpty) as (e & He & Hfe).
  { unfold slotState_of in Hst. destruct (r_globalLog r !! r_nextExpected r) as [e|]; [eauto|done]. }
  destruct (advance_turn_hash lo r snap hi (fuel + extra) e Hinv Hroom He Hfe)
    as (r1 & snap1 & hi1 & Ea & Hinv1 & Hroom1 & Ex & Hadv1 & Hh & Hlog).
  rewrite Ea. destruct (IH lo r1 snap1 hi1 maxSlot Hinv1 Hroom1)
    as (snap2 & hi2 & Hinv2 & Hroom2 & Hadv2 & H2 & H3 & H4 & H5).
  set (r' := advance_through fuel r1 maxSlot) in *.
  exists snap2, hi2. split; [done|]. split; [done|]. split; [by eapply advanced_trans|]. split; [lia|].
  split; [|split].
  - intros s Hs. destruct (decide (s = r_nextExpected r)) as [->|]; [done|].
    rewrite <- (adv_slots _ _ _ _ _ _ Hadv1). apply H3. lia.
  - rewrite <- (adv_slots _ _ _ _ _ _ Hadv1). destruct H4 as [|[|]]; [by left|right; left; lia|by right; right].
  - intros s Hs. destruct (decide (s = r_nextExpected r)) as [->|Hne].
    + rewrite Z.sub_diag. cbn [Z.to_nat slot_run].
      rewrite (adv_snap _ _ _ _ _ _ Hadv2), (adv_snap _ _ _ _ _ _ Hadv1) by lia. symmetry. apply Hinv.
    + rewrite H5 by lia. replace (Z.to_nat (s - r_nextExpected r)) with
        (S (Z.to_nat (s - r_nextExpected r1))) by lia.
      rewrite slot_run_S, <- Ex, Hh. apply slot_run_ext. intros s' h' Hs'.
      apply hash_step_ext, Hlog. lia.
Qed.

(** ** Steps that leave the log alone *)

(** all the log's invariant reads, and what pruning reads *)
Record same_log r r' : Prop := {
  sl_core : same_core r r';
  sl_log : r_globalLog r' = r_globalLog r;
  sl_pruned : r_prunedBelow r' = r_prunedBelow r;
  sl_retain : r_retainBytes r' = r_retainBytes r }.

Lemma same_log_trans r1 r2 r3 : same_log r1 r2 -> same_log r2 r3 -> same_log r1 r3.
Proof. intros [[] A B C] [[] D E F]. split; [split|..]; congruence. Qed.

Lemma same_log_inv r r' snap hi : same_log r r' -> log_inv r snap hi -> log_inv r' snap hi.
Proof.
  intros [Hc Hl Hp _] Hinv. unfold log_inv. rewrite Hp.
  apply (log_inv_change _ r r' snap hi Hinv Hc); rewrite Hl; [done|]. intros s e H1 H2. by destruct H2.
Qed.

Lemma same_log_roomy r r' hi n : same_log r r' -> roomy r hi n -> roomy r' hi n.
Proof.
  intros [[] Hl Hp _] []. split; rewrite ?sc_next, ?sc_ringSize, ?sc_nextLogIndex, ?Hl; done.
Qed.

Lemma replayReplies_eq r from to :
  exists p w, replayReplies r from to = r <| r_pendingReplies := p |> <| r_winReplyMax := w |>.
Proof.
  unfold replayReplies. generalize (seqZ from (to - from)) as l. intros l.
  assert (forall A (f : Replica TM -> A -> Replica TM) (l : list A),
    (forall r x, exists p w, f r x = r <| r_pendingReplies := p |> <| r_winReplyMax := w |>) ->
    forall r, exists p w, foldl f r l = r <| r_pendingReplies := p |> <| r_winReplyMax := w |>) as Hfold.
  { intros A f l' Hf. induction l' as [|x l' IH]; intros r0; cbn [foldl].
    - exists (r_pendingReplies r0), (r_winReplyMax r0). by destruct r0.
    - destruct (Hf r0 x) as (p & w & ->). destruct (IH (r0 <| r_pendingReplies := p |> <| r_winReplyMax := w |>))
        as (p' & w' & ->). exists p', w'. replica_eq. }
  assert (forall r0, exists p w, r0 = r0 <| r_pendingReplies := p |> <| r_winReplyMax := w |>) as Hid.
  { intros r0. exists (r_pendingReplies r0), (r_winReplyMax r0). by destruct r0. }
  apply Hfold. intros r1 s. unfold replay_slot.
  destruct (r_globalLog r1 !! s) as [e|]; [|apply Hid]. destruct (bool_decide _); [|apply Hid].
  apply Hfold. intros r2 rq. unfold replay_request.
  destruct (r_dedup r2 !! reqKey rq) as [li|]; [|apply Hid]. unfold enqueueReply. cbv zeta.
  destruct (_ <? _);
    match goal with |- exists p w, ?x = _ => exists (r_pendingReplies x), (r_winReplyMax x) end;
    replica_eq.
Qed.

Lemma replayReplies_same r from to : same_log r (replayReplies r from to).
Proof. destruct (replayReplies_eq r from to) as (p & w & ->). split; [split|..]; by rsimpl. Qed.

Lemma setStable_same r s : same_log r (setStable r s).
Proof.
  unfold setStable. cbv zeta. destruct (_ =? _); [by split; [split|..]|].
  destruct (_ || _); (split; [split|..]); by rsimpl.
Qed.

Lemma enter_normal_same r v now :
  same_log r (enter_normal r v now) /\
  r_haveStable (enter_normal r v now) = r_haveStable r /\
  r_stableSlot (enter_normal r v now) = r_stableSlot r.
Proof.
  unfold enter_normal, commitScheduleHistory. cbv zeta.
  destruct (last _); (split; [split; [split|..]|split]); by rsimpl.
Qed.

(** ** Pruning between the two executions *)

Lemma pruneSlots_sub n r s s' e :
  r_globalLog (pruneSlots n r s) !! s' = Some e -> r_globalLog r !! s' = Some e.
Proof.
  revert r s. induction n as [|n IH]; intros r s; cbn [pruneSlots]; [done|]. intros H%IH.
  pose proof (pruneSlot_spec r s) as (_ & _ & _ & _ & _ & _ & _ & Hnone & Ho & _).
  destruct (decide (s' = s)) as [->|Hne]; [congruence|]. by rewrite <- Ho.
Qed.

Lemma prune_bytes_sub fuel r l s' e :
  r_globalLog (prune_bytes fuel r l) !! s' = Some e -> r_globalLog r !! s' = Some e.
Proof.
  revert r. induction fuel as [|fuel IH]; intros r; cbn [prune_bytes]; [done|].
  destruct (_ && _); [|done]. intros H%IH. revert H.
  change (r_globalLog ((pruneSlot r (r_prunedBelow r)) <| r_prunedBelow ::= fun n => add64 n 1 |>))
    with (r_globalLog (pruneSlot r (r_prunedBelow r))).
  apply (pruneSlots_sub 1 r (r_prunedBelow r)).
Qed.

Lemma pruneCommitted_sub r s e :
  r_globalLog (pruneCommitted r) !! s = Some e -> r_globalLog r !! s = Some e.
Proof.
  unfold pruneCommitted. cbv zeta. intros H%prune_bytes_sub. revert H.
  destruct (_ <? _); [change (r_globalLog (?x <| r_prunedBelow := ?y |>)) with (r_globalLog x)|];
    apply pruneSlots_sub.
Qed.

(** what the second execution needs of a pruned log *)
Lemma pruneCommitted_kept r snap hi n :
  log_inv r snap hi -> roomy r hi n -> (r_haveStable r = true -> 0 <= r_stableSlot r) ->
  0 <= r_retainBytes r ->
  let r' := pruneCommitted r in
  log_inv r' snap hi /\ roomy r' hi n /\ r_nextExpected r' = r_nextExpected r /\
  (size (r_globalLog r') <= size (r_globalLog r))%nat /\
  r_haveStable r' = r_haveStable r /\ r_stableSlot r' = r_stableSlot r /\
  r_retainBytes r' = r_retainBytes r.
Proof.
  intros Hinv Hroom Hst Hrb. cbv zeta. pose proof (li_bounds _ _ _ _ Hinv) as Hb.
  pose proof (li_fit _ _ _ _ Hinv) as Hfit. pose proof (li_ring _ _ _ _ Hinv) as Hring.
  assert (0 <= prune_limit r) as Hl.
  { unfold prune_limit. destruct (r_haveStable r); cbn [andb]; [|lia].
    specialize (Hst eq_refl). destruct (_ <? _); lia. }
  split; [by apply pruneCommitted_inv|].
  assert (prune_limit r < W64) as Hl2 by (pose proof (prune_bounds r); lia).
  destruct (pruneCommitted_spec r ltac:(lia) (conj Hl Hl2) Hrb) as ([Hh _ _ _ [T1 T2] T3] & _).
  destruct Hh as (E1 & E2 & _ & _ & _ & _ & E3).
  split; [|split; [done|split; [|done]]].
  - destruct Hroom as [A B C]. split; rewrite ?E1, ?E2, ?E3; [done|done|].
    intros s e He%pruneCommitted_sub. by eapply C.
  - rewrite <- !size_dom. apply subseteq_size. intros s [e He]%elem_of_dom.
    apply elem_of_dom. exists e. by apply pruneCommitted_sub.
Qed.

(** ** The recovery completed *)

Lemma same_log_id r : same_log r r.
Proof. by split; [split|..]. Qed.

(** the first execution and the fences around it *)
Lemma through_spec r snap hi maxSlot n :
  log_inv r snap hi -> roomy r hi (S (size (r_globalLog r)) + n) ->
  (r_haveStable r = true -> 0 <= r_stableSlot r) -> 0 <= r_retainBytes r ->
  let r' := advanceNextExpectedThrough r maxSlot in
  exists snap' hi', log_inv r' snap' hi' /\ roomy r' hi' n /\
  r_nextExpected r <= r_nextExpected r' /\
  (forall s, s <= r_nextExpected r -> snap' s = snap s) /\
  (size (r_globalLog r') <= size (r_globalLog r))%nat /\
  r_haveStable r' = r_haveStable r /\ r_stableSlot r' = r_stableSlot r /\
  r_retainBytes r' = r_retainBytes r /\
  ((forall s, r_nextExpected r <= s <= maxSlot -> slotState_of r s <> slotEmpty) ->
     maxSlot < r_nextExpected r') /\
  (forall s, r_nextExpected r <= s <= r_nextExpected r' ->
     sn_hash (snap' s) = slot_run (hash_step (r_globalLog r)) (Z.to_nat (s - r_nextExpected r))
       (r_nextExpected r) (r_prefixHash r)).
Proof.
  intros Hinv Hroom Hst Hrb. cbv zeta. unfold advanceNextExpectedThrough.
  destruct (advance_through_spec n _ _ r snap hi maxSlot Hinv Hroom)
    as (snap' & hi' & Hinv' & Hroom' & Hadv & Hmax & Hrun & Hstop & Hhash).
  assert (r_retainBytes (advance_through (S (size (r_globalLog r))) r maxSlot) = r_retainBytes r) as Erb.
  { pose proof (advance_through_frame (S (size (r_globalLog r))) r maxSlot) as Hf.
    unfold log_frame in Hf. rewrite Hf. unfold with_log. by rsimpl. }
  set (r1 := advance_through _ r maxSlot) in *. clearbody r1.
  destruct (adv_frame _ _ _ _ _ _ Hadv) as (F1 & _ & F3 & F4).
  destruct (pruneCommitted_kept r1 snap' hi' n) as (P1 & P2 & P3 & P4 & P5 & P6 & P7).
  { unfold log_inv. by rewrite F1. }
  { done. }
  { by rewrite F3, F4. }
  { by rewrite Erb. }
  exists snap', hi'. split; [done|]. split; [done|]. rewrite P3. split; [apply Hadv|].
  split; [apply Hadv|]. split.
  { etrans; [exact P4|]. rewrite <- !size_dom. by rewrite (adv_dom _ _ _ _ _ _ Hadv). }
  split; [congruence|]. split; [congruence|]. split; [congruence|]. split; [|done].
  intros Hall. destruct Hstop as [|[E|E]]; [done| |].
  - exfalso. rewrite E in Hrun.
    apply (filled_run_bound r (r_nextExpected r) (S (size (r_globalLog r)))) in Hrun. lia.
  - pose proof (adv_next _ _ _ _ _ _ Hadv).
    destruct (decide (r_nextExpected r1 <= maxSlot)); [|lia]. destruct (Hall (r_nextExpected r1)); [lia|done].
Qed.

(** executing and pruning in normal operation *)
Lemma advanceNextExpected_log r snap hi :
  log_inv r snap hi -> roomy r hi (S (size (r_globalLog r))) -> r_status r = statusNormal ->
  (r_haveStable r = true -> 0 <= r_stableSlot r) -> 0 <= r_retainBytes r ->
  let r' := advanceNextExpected r in
  exists snap' hi', log_inv r' snap' hi' /\ r_nextExpected r <= r_nextExpected r' /\
    forall s, s <= r_nextExpected r -> snap' s = snap s.
Proof.
  intros Hinv Hroom Hs Hst Hrb. cbv zeta. unfold advanceNextExpected. rewrite bool_decide_true by done.
  destruct (advance_loop_spec _ _ r snap hi Hinv Hroom) as ((snap' & hi' & Hinv' & Hadv) & _).
  assert (r_retainBytes (advance_loop (S (size (r_globalLog r))) r) = r_retainBytes r) as Erb.
  { pose proof (advance_loop_frame (S (size (r_globalLog r))) r) as Hf.
    unfold log_frame in Hf. rewrite Hf. unfold with_log. by rsimpl. }
  set (r1 := advance_loop _ r) in *. clearbody r1.
  destruct (adv_frame _ _ _ _ _ _ Hadv) as (F1 & _ & F3 & F4).
  assert (log_inv r1 snap' hi') as Hinv1 by (unfold log_inv; by rewrite F1).
  assert (0 <= prune_limit r1) as Hl.
  { pose proof (li_bounds _ _ _ _ Hinv1). unfold prune_limit. rewrite F3, F4.
    destruct (r_haveStable r); cbn [andb]; [|lia]. specialize (Hst eq_refl). destruct (_ <? _); lia. }
  assert (prune_limit r1 < W64) as Hl2.
  { pose proof (li_bounds _ _ _ _ Hinv1). pose proof (li_fit _ _ _ _ Hinv1).
    pose proof (li_ring _ _ _ _ Hinv1). pose proof (prune_bounds r1). lia. }
  exists snap', hi'. split; [by apply pruneCommitted_inv|].
  destruct (pruneCommitted_spec r1) as ([(E1 & _) _ _ _ _ _] & _).
  { pose proof (li_bounds _ _ _ _ Hinv1). lia. }
  { done. }
  { by rewrite Erb. }
  rewrite E1. split; apply Hadv.
Qed.

(** what a recovery needs of the log it is completed on *)
Record recoverable r (rec : viewRecovery) snap hi : Prop := {
  rv_inv : log_inv r snap hi;
  rv_room : roomy r hi (S (size (r_globalLog r)) + S (size (r_globalLog r)));
  rv_stable : r_haveStable r = true -> 0 <= r_stableSlot r;
  rv_bytes : 0 <= r_retainBytes r;
  rv_merged : rec_hasStable rec = true -> 0 <= rec_stable rec;
  rv_verify : rec_verifyPrefix rec = true -> rec_hasMax rec = true /\ rec_stable rec <= rec_maxSlot rec }.

(** the history's hashes up to [top] are those of the entries [r] holds *)
Definition hashes_suffix r (snap : Z -> snapshot) (top : Z) : Prop :=
  forall s, r_nextExpected r <= s <= top ->
    sn_hash (snap s) = slot_run (hash_step (r_globalLog r)) (Z.to_nat (s - r_nextExpected r))
      (r_nextExpected r) (r_prefixHash r).

Lemma hashes_suffix_ext r snap snap' top top' :
  hashes_suffix r snap top -> top' <= top -> (forall s, s <= top -> snap' s = snap s) ->
  hashes_suffix r snap' top'.
Proof. intros H Hle E s Hs. rewrite E by lia. apply H. lia. Qed.

(** the log after the suffix has been executed *)
Definition suffix_executed r snap (maxSlot : Z) (hasMax : bool) (n : nat) r1 snap1 hi1 : Prop :=
  log_inv r1 snap1 hi1 /\ roomy r1 hi1 n /\
  r_nextExpected r <= r_nextExpected r1 /\ (forall s, s <= r_nextExpected r -> snap1 s = snap s) /\
  (size (r_globalLog r1) <= size (r_globalLog r))%nat /\
  r_haveStable r1 = r_haveStable r /\ r_stableSlot r1 = r_stableSlot r /\
  r_retainBytes r1 = r_retainBytes r /\
  (hasMax = true -> maxSlot < r_nextExpected r1 /\
   hashes_suffix r snap1 (r_nextExpected r1)).

Lemma suffix_executed_spec r snap hi maxSlot (hasMax : bool) n :
  log_inv r snap hi -> roomy r hi (S (size (r_globalLog r)) + n) ->
  (r_haveStable r = true -> 0 <= r_stableSlot r) -> 0 <= r_retainBytes r ->
  (hasMax = true -> forall s, r_nextExpected r <= s <= maxSlot -> slotState_of r s <> slotEmpty) ->
  exists snap1 hi1, suffix_executed r snap maxSlot hasMax n
    (if hasMax then advanceNextExpectedThrough r maxSlot else r) snap1 hi1.
Proof.
  intros Hinv Hroom Hst Hrb Hfill. destruct hasMax.
  - destruct (through_spec r snap hi maxSlot n Hinv Hroom Hst Hrb)
      as (snap1 & hi1 & B1 & B2 & B3 & B4 & B5 & B6 & B7 & B8 & B9 & B10).
    exists snap1, hi1. do 8 (split; [done|]). intros _. split; [|exact B10]. apply B9. by apply Hfill.
  - exists snap, hi. split; [done|]. split; [eapply roomy_le; [exact Hroom|lia]|].
    split; [lia|]. split; [done|]. split; [lia|]. by do 3 (split; [done|]).
Qed.

(** replies repeated, the stable slot moved: the log is left alone *)
Lemma stable_moved r stable (hasStable : bool) from to :
  0 <= r_nextExpected r -> (r_haveStable r = true -> 0 <= r_stableSlot r) ->
  (hasStable = true -> 0 <= stable) ->
  let r' := if hasStable then setStable (replayReplies r from to) stable else replayReplies r from to in
  same_log r r' /\ (r_haveStable r' = true -> 0 <= r_stableSlot r').
Proof.
  intros Hn Hst Hms. cbv zeta. pose proof (replayReplies_same r from to) as S2.
  assert (r_haveStable (replayReplies r from to) = r_haveStable r /\
          r_stableSlot (replayReplies r from to) = r_stableSlot r) as [T1 T2].
  { destruct (replayReplies_eq r from to) as (p & w & ->). done. }
  set (r2 := replayReplies r from to) in *. clearbody r2. destruct hasStable.
  - split; [eapply same_log_trans; [exact S2|apply setStable_same]|].
    specialize (Hms eq_refl). pose proof (sc_next _ _ (sl_core _ _ S2)) as En.
    unfold setStable. cbv zeta. destruct (Z.eqb_spec (r_nextExpected r2) 0); [by rewrite T1, T2|].
    destruct (_ || _); rsimpl; [|by rewrite T1, T2]. intros _.
    destruct (Z.ltb_spec (r_nextExpected r2 - 1) stable); lia.
  - split; [done|]. by rewrite T1, T2.
Qed.

(** the view entered: what is contiguous is executed *)
Lemma resumed_log r1 r5 snap hi n :
  log_inv r1 snap hi -> roomy r1 hi n -> (S (size (r_globalLog r1)) <= n)%nat ->
  0 <= r_retainBytes r1 -> same_log r1 r5 -> r_status r5 = statusNormal ->
  (r_haveStable r5 = true -> 0 <= r_stableSlot r5) ->
  exists snap' hi', log_inv (advanceNextExpected r5) snap' hi' /\
    r_nextExpected r1 <= r_nextExpected (advanceNextExpected r5) /\
    forall s, s <= r_nextExpected r1 -> snap' s = snap s.
Proof.
  intros Hinv Hroom Hn Hrb S5 Es5 T7.
  destruct (advanceNextExpected_log r5 snap hi) as (snap' & hi' & C1 & C2 & C3).
  - by eapply same_log_inv.
  - eapply roomy_le; [eapply same_log_roomy; [exact S5|exact Hroom]|]. by rewrite (sl_log _ _ S5).
  - exact Es5.
  - exact T7.
  - by rewrite (sl_retain _ _ S5).
  - rewrite (sc_next _ _ (sl_core _ _ S5)) in C2, C3. by exists snap', hi'.
Qed.

Lemma recovery_set_same r rec : same_log r (r <| r_recovery := rec |>).
Proof. split; [split|..]; by rsimpl. Qed.

(** what [complete_recovery] resumes on *)
Lemma entered_same r3 v now rec :
  let r5 := (enter_normal r3 v now) <| r_recovery := rec |> in
  same_log r3 r5 /\ r_status r5 = statusNormal /\
  r_haveStable r5 = r_haveStable r3 /\ r_stableSlot r5 = r_stableSlot r3.
Proof.
  cbv zeta. destruct (enter_normal_same r3 v now) as (S4 & T5 & T6).
  destruct (enter_normal_fields r3 v now) as (_ & Es & _).
  generalize dependent (enter_normal r3 v now). intros r4 S4 T5 T6 Es.
  split; [eapply same_log_trans; [exact S4|apply recovery_set_same]|]. by rsimpl.
Qed.

Lemma complete_recovery_log r rec now snap hi :
  recoverable r rec snap hi ->
  (rec_hasMax rec = true -> forall s, r_nextExpected r <= s <= rec_maxSlot rec -> slotState_of r s <> slotEmpty) ->
  let r' := complete_recovery r rec now in
  exists snap' hi', log_inv r' snap' hi' /\
    (forall s, s <= r_nextExpected r -> snap' s = snap s) /\
    (rec_hasMax rec = true -> rec_maxSlot rec < r_nextExpected r' /\
     hashes_suffix r snap' (rec_maxSlot rec + 1)).
Proof.
  intros [Hinv Hroom Hst Hrb Hms _] Hfill. cbv zeta. unfold complete_recovery. cbv zeta.
  destruct (suffix_executed_spec r snap hi (rec_maxSlot rec) (rec_hasMax rec) _ Hinv Hroom Hst Hrb Hfill)
    as (snap1 & hi1 & A1 & A2 & A3 & A4 & A5 & A6 & A7 & A8 & A9).
  set (r1 := if rec_hasMax rec then _ else r) in *. clearbody r1.
  pose proof (li_bounds _ _ _ _ A1) as Hb.
  destruct (stable_moved r1 (rec_stable rec) (rec_hasStable rec) (rec_replayFrom rec) (rec_replayTo rec))
    as [S3 T3]; [lia|by rewrite A6, A7|done|].
  set (r3 := if rec_hasStable rec then _ else _) in *. clearbody r3.
  destruct (entered_same r3 (rec_view rec) now None) as (S5 & Es5 & T5 & T6). rewrite <- T5, <- T6 in T3.
  set (r5 := _ <| r_recovery := None |>) in *. clearbody r5.
  pose proof (same_log_trans _ _ _ S3 S5) as S6.
  destruct (resumed_log r1 r5 snap1 hi1 _ A1 A2 ltac:(lia) ltac:(lia) S6 Es5 T3)
    as (snap' & hi' & C1 & C2 & C3).
  exists snap', hi'. split; [done|]. split.
  - intros s Hs. rewrite C3 by lia. by apply A4.
  - intros Hmax. destruct (A9 Hmax) as [D1 D2]. split; [lia|].
    eapply hashes_suffix_ext; [exact D2|lia|exact C3].
Qed.

(** ** The recovery finished *)

Lemma recovery_filled_spec r rec s :
  recovery_filled r rec = true -> rec_hasMax rec = true ->
  r_nextExpected r <= s <= rec_maxSlot rec -> slotState_of r s <> slotEmpty.
Proof.
  unfold recovery_filled. rewrite !orb_true_iff, negb_true_iff, Z.ltb_lt.
  intros [[H|H]|H] Hmax Hs; [congruence|lia|].
  rewrite forallb_forall in H. specialize (H s). rewrite <- list_elem_of_In, elem_of_seqZ in H.
  specialize (H ltac:(lia)). unfold filled in H. by apply negb_true_iff, bool_decide_eq_false in H.
Qed.

Lemma recoverable_unverified r rec snap hi f :
  recoverable r rec snap hi ->
  recoverable (set_recovery r f) (rec <| rec_verifyPrefix := false |>) snap hi.
Proof.
  intros [H1 H2 H3 H4 H5 H6]. split; [by apply set_recovery_inv| |exact H3|exact H4|exact H5|done].
  destruct H2 as [A B C]. by split.
Qed.

(** what a finished recovery has verified *)
Record recovered r rec snap r' snap' : Prop := {
  rd_past : forall s, s <= r_nextExpected r -> snap' s = snap s;
  rd_merged : rec_hasMax rec = true -> rec_maxSlot rec < r_nextExpected r';
  rd_verified : rec_verifyPrefix rec = true -> r_nextExpected r <= rec_stable rec ->
    sn_hash (snap' (rec_stable rec + 1)) = rec_prefixHash rec }.

Lemma finishRecovery_log r gen now snap hi rec r' :
  recovery_is r gen = Some rec -> recoverable r rec snap hi ->
  finishRecovery r gen now = (r', true) ->
  exists snap' hi', log_inv r' snap' hi' /\ recovered r rec snap r' snap'.
Proof.
  intros Hrec Hok. unfold finishRecovery. rewrite Hrec. destruct (_ || _); [done|].
  destruct (recovery_filled r rec) eqn:Ef; cbn [negb]; [|done].
  pose proof (recovery_filled_spec r rec) as Hfill. specialize (fun s => Hfill s Ef) as Hfill'.
  destruct (rec_verifyPrefix rec) eqn:Ev.
  - destruct (rv_verify _ _ _ _ Hok Ev) as [Hmax Hle]. pose proof (rv_inv _ _ _ _ Hok) as Hinv.
    rewrite retained_hash_run; [| |intros s e He Hs; by eapply (li_owner _ _ _ _ Hinv)].
    2:{ intros s Hs. apply Hfill'; [done|lia]. }
    destruct (Z.eqb_spec (slot_run (hash_step (r_globalLog r))
       (Z.to_nat (rec_stable rec - r_nextExpected r + 1)) (r_nextExpected r) (r_prefixHash r)) (rec_prefixHash rec))
       as [Eh|]; cbn [negb]; [|done].
    cbv zeta. set (r1 := set_recovery r _).
    pose proof (recoverable_unverified r rec snap hi (fun rec => rec <| rec_verifyPrefix := false |>) Hok) as Hok1.
    fold r1 in Hok1. intros [= <-].
    destruct (complete_recovery_log r1 (rec <| rec_verifyPrefix := false |>) now snap hi Hok1)
      as (snap' & hi' & C1 & C2 & C3).
    { intros _ s Hs. apply (Hfill' s Hmax Hs). }
    exists snap', hi'. split; [done|]. destruct (C3 Hmax) as [D1 D2]. split; [done|done|].
    intros _ Hn. rewrite <- Eh. rewrite (D2 (rec_stable rec + 1)).
    + change (r_nextExpected r1) with (r_nextExpected r). change (r_globalLog r1) with (r_globalLog r).
      change (r_prefixHash r1) with (r_prefixHash r). f_equal. lia.
    + change (r_nextExpected r1) with (r_nextExpected r).
      change (rec_maxSlot (rec <| rec_verifyPrefix := false |>)) with (rec_maxSlot rec). lia.
  - intros [= <-].
    destruct (complete_recovery_log r rec now snap hi Hok) as (snap' & hi' & C1 & C2 & C3).
    { intros Hmax s Hs. by apply Hfill'. }
    exists snap', hi'. split; [done|]. split; [done|intros Hmax; by apply C3|congruence].
Qed.
End execute.
