(* ===== verification/FetchLog.v ===== *)
(** The bus log through a fetched reply ([recovery.go]: [applyStateEntries]). *)
From S2P Require Import Prelude WireBase Wire WireStream Config Lines GlobalOrder State.
From S2P Require Import ReplicaState Cursor Log LogSpec LogInv Admission.
From S2P Require Import ScheduleProto Merge Gaps Sync ViewChange Recovery LogFrame RecoveryLog.

Section apply.
Context {TM : Treemap Value} {TL : TreemapLaws TM}.
Implicit Types r : Replica TM.

Lemma claimSlot_stable r s :
  r_haveStable (claimSlot r s).1 = r_haveStable r /\ r_stableSlot (claimSlot r s).1 = r_stableSlot r.
Proof.
  unfold claimSlot, slotEntry, observeSlot.
  destruct (_ || _); rsimpl; destruct (r_globalLog r !! s); by rsimpl.
Qed.

(** a slot claimed and filled with [e] *)
Lemma claimed_kept r s (e : globalEntry) n :
  ge_state e = slotReceived ->
  let r' := if (claimSlot r s).2
            then (setEntry (claimSlot r s).1 s e) <| r_residentBytes ::= n |> else (claimSlot r s).1 in
  log_kept (eq s) r r' /\
  slotState_of r' s = if bool_decide (slotState_of r s = slotEmpty) then slotReceived else slotState_of r s.
Proof.
  intros He. cbv zeta. pose proof (claimSlot_spec r s) as (Hc & Hp & Ho & Hs & Hfree).
  destruct (claimSlot_stable r s) as [S1 S2]. rewrite Hfree. destruct (claimSlot r s) as [r1 b].
  cbn [fst snd] in *. destruct Hc. case_bool_decide as Hem.
  - split.
    + split; unfold setEntry; rsimpl; try done. intros s' Hs'. unfold slotState_of. rsimpl.
      rewrite lookup_insert_ne by done. by rewrite Ho by congruence.
    + unfold slotState_of, setEntry. rsimpl. by rewrite lookup_insert_eq.
  - split.
    + split; try done. intros s' Hs'. unfold slotState_of. by rewrite Ho by congruence.
    + unfold slotState_of in *. rewrite Hs. by destruct (r_globalLog r !! s).
Qed.

Lemma recordBusReceived_kept r s c q reqs :
  let r' := (recordBusReceived r s c q reqs).1 in
  log_kept (eq s) r r' /\
  slotState_of r' s = if bool_decide (slotState_of r s = slotEmpty) then slotReceived else slotState_of r s.
Proof.
  cbv zeta. unfold recordBusReceived.
  match goal with |- context [setEntry _ s ?e] =>
    pose proof (claimed_kept r s e (fun n => add64 n (busSizeBytes reqs)) eq_refl) as H end.
  cbv zeta in H. by destruct (claimSlot r s) as [r1 []].
Qed.

Lemma recordReceived_kept r s c q op :
  let r' := (recordReceived r s c q op).1 in
  log_kept (eq s) r r' /\
  slotState_of r' s = if bool_decide (slotState_of r s = slotEmpty) then slotReceived else slotState_of r s.
Proof.
  cbv zeta. unfold recordReceived.
  match goal with |- context [setEntry _ s ?e] =>
    pose proof (claimed_kept r s e (fun n => add64 n (add64 (Zlength op) requestOverheadBytes)) eq_refl) as H end.
  cbv zeta in H. by destruct (claimSlot r s) as [r1 []].
Qed.

(** whether the entry's payload is one the replica can read *)
Definition readable (e : StateEntry) : bool :=
  negb (se_IsBus e) || match UnmarshalRequests (se_Payload e) with Some _ => true | None => false end.

(** the state the entry leaves its slot in *)
Definition entry_state r (e : StateEntry) : slotState :=
  let st := slotState_of r (se_Slot e) in
  if se_IsNoOp e then if executed r (se_Slot e) then st else slotNoOp
  else if bool_decide (st = slotEmpty) && readable e then slotReceived else st.

Lemma storeRecovered_kept r s c q p b :
  let r' := (storeRecovered r s c q p b).1 in
  log_kept (eq s) r r' /\
  slotState_of r' s =
    if bool_decide (slotState_of r s = slotEmpty) &&
       (negb b || match UnmarshalRequests p with Some _ => true | None => false end)
    then slotReceived else slotState_of r s.
Proof.
  cbv zeta. unfold storeRecovered. destruct b; cbn [negb orb].
  - destruct (UnmarshalRequests p) as [reqs|].
    + rewrite andb_true_r. apply recordBusReceived_kept.
    + rewrite andb_false_r. by split; [apply log_kept_refl|].
  - rewrite andb_true_r. apply recordReceived_kept.
Qed.

Lemma winRecovered_inv lo r snap hi n :
  log_inv_at lo r snap hi -> log_inv_at lo (r <| r_winRecovered := n |>) snap hi.
Proof. intros []. split; by rsimpl. Qed.

Lemma apply_entry_spec r e snap hi :
  log_inv r snap hi ->
  log_inv (apply_entry r e) snap hi /\ log_kept (eq (se_Slot e)) r (apply_entry r e) /\
  slotState_of (apply_entry r e) (se_Slot e) = entry_state r e.
Proof.
  intros Hinv. unfold apply_entry, entry_state. cbv zeta. destruct (se_IsNoOp e).
  { split; [by apply count_noop_inv|]. split; [apply count_noop_kept|apply count_noop_state]. }
  destruct (storeRecovered_kept r (se_Slot e) (se_ClientId e) (se_ReqId e) (se_Payload e) (se_IsBus e)) as [Hk Hs].
  pose proof (storeRecovered_inv _ r snap hi (se_Slot e) (se_ClientId e) (se_ReqId e) (se_Payload e)
    (se_IsBus e) Hinv) as Hi.
  destruct (storeRecovered _ _ _ _ _ _) as [r1 ok]. cbn [fst] in *.
  assert (log_inv r1 snap hi) as Hi1 by (unfold log_inv; by rewrite (lk_pruned _ _ _ Hk)).
  destruct ok; [|done]. split; [|split; [|exact Hs]].
  - unfold log_inv. rsimpl. exact (winRecovered_inv _ r1 snap hi (add64 (r_winRecovered r1) 1) Hi1).
  - destruct Hk. split; by rsimpl.
Qed.

Lemma apply_entries_spec es : forall r snap hi,
  log_inv r snap hi -> NoDup (se_Slot <$> es) ->
  let r' := foldl apply_entry r es in
  log_inv r' snap hi /\ log_kept (fun s => s ∈ se_Slot <$> es) r r' /\
  forall e, e ∈ es -> slotState_of r' (se_Slot e) = entry_state r e.
Proof.
  induction es as [|e es IH]; intros r snap hi Hinv Hnd; cbn [foldl]; cbv zeta.
  { split; [done|]. split; [apply log_kept_refl|]. by intros e ?%elem_of_nil. }
  rewrite fmap_cons in Hnd. apply NoDup_cons in Hnd as [Hni Hnd].
  destruct (apply_entry_spec r e snap hi Hinv) as (Hi1 & Hk1 & Hs1).
  destruct (IH (apply_entry r e) snap hi Hi1 Hnd) as (Hi2 & Hk2 & Hs2).
  split; [done|]. split.
  - eapply log_kept_trans; [eapply log_kept_weaken; [|exact Hk1]|eapply log_kept_weaken; [|exact Hk2]];
      rewrite fmap_cons; set_solver.
  - intros e' [->|He']%elem_of_cons.
    + by rewrite (lk_slots _ _ _ Hk2) by done.
    + rewrite (Hs2 e' He'). unfold entry_state, executed. rewrite (lk_next _ _ _ Hk1).
      rewrite (lk_slots _ _ _ Hk1); [done|]. intros E. apply Hni. rewrite E.
      apply list_elem_of_fmap. eauto.
Qed.

Lemma entries_ok_spec m q seen es :
  entries_ok m q seen es = true ->
  NoDup (se_Slot <$> es) /\ (forall e, e ∈ es -> se_Slot e ∉ seen) /\
  forall e, e ∈ es -> ns_FromSlot m <= se_Slot e <= ns_ToSlot m /\ fq_from q <= se_Slot e <= fq_to q.
Proof.
  revert seen. induction es as [|e es IH]; intros seen; cbn [entries_ok].
  { intros _. split; [constructor|]. split; by intros e ?%elem_of_nil. }
  rewrite andb_true_iff. intros [Hr Hrest]. unfold entry_in_range in Hr.
  rewrite negb_true_iff, !orb_false_iff, !Z.ltb_ge in Hr.
  destruct (decide (se_Slot e ∈ seen)) as [|Hn]; [done|].
  destruct (IH _ Hrest) as (H1 & H2 & H3). split; [|split].
  - rewrite fmap_cons. constructor; [|done]. intros (e' & E & He')%list_elem_of_fmap.
    specialize (H2 e' He'). set_solver.
  - intros e' [->|He']%elem_of_cons; [done|]. specialize (H2 e' He'). set_solver.
  - intros e' [->|He']%elem_of_cons; [lia|auto].
Qed.
End apply.
