(* ===== verification/Client.v ===== *)
(** The client of the bus protocol ([src/paxosbus/internal/protocol/client.go],
    [client_schedule.go], [client_plan.go] and the client's half of
    [client_control.go]): request generation, the schedule it asks for and
    follows, the buses it sends, the replies it counts and the pauses between
    views.

    The fields of [Client] that a mutex guards are one state and every section
    under a mutex is one step.  A goroutine's local variables are arguments of
    its steps.  Clocks are arguments: [wall] the wall clock, [now] the monotonic
    one, both in nanoseconds.  [nil, error] results carry no message.  Where
    Go ranges over a map the model takes the map's enumeration. *)
From S2P Require Import Prelude WireBase Wire WireStream Config Lines.

Definition defaultStartDelayMs : Z := 5000.
Definition defaultRequestTimeoutMs : Z := 5000.
Definition gcCommittedNs : Z := 2 * 1000000000.
Definition clientControlPoll : Z := 250 * 1000000.
Definition handshakeReplies_cap : nat := 64.

(** * Requests in flight *)

(** [voteKey]: a log index and a view *)
Definition voteKey : Type := Z * Z.

Record reqInflight := mkreqInflight {
  e_sendTimeNs : Z;
  e_firstSendNs : Z;
  e_op : list byte;
  e_votes : gmap voteKey Z;
  e_committed : bool }.

#[export] Instance eta_reqInflight : Eta reqInflight := fun r =>
  mkreqInflight (e_sendTimeNs r) (e_firstSendNs r) (e_op r) (e_votes r) (e_committed r).

(** * The sender of one connection *)

(** [wake] is a channel of capacity one; [busy]: the loop is past a receive on
    it and has not yet found the buffer empty. *)
Record connSender := mkconnSender {
  cs_buf : list (list byte);
  cs_dead : bool;
  cs_wake : bool;
  cs_busy : bool }.

#[export] Instance eta_connSender : Eta connSender := fun r =>
  mkconnSender (cs_buf r) (cs_dead r) (cs_wake r) (cs_busy r).

Definition newConnSender : connSender := mkconnSender [] false false false.

Definition enqueue (s : connSender) (b : list byte) : connSender :=
  if cs_dead s then s
  else s <| cs_buf ::= fun l => l ++ [b] |> <| cs_wake := true |>.

(** [for range s.wake] takes the wake-up *)
Definition sender_wake (s : connSender) : connSender :=
  if cs_wake s && negb (cs_busy s) && negb (cs_dead s)
  then s <| cs_wake := false |> <| cs_busy := true |> else s.

(** one turn of the inner loop: the buffer is taken and written; [err] is the
    result of the write *)
Definition sender_turn (s : connSender) (err : bool) : connSender * list (list byte) :=
  if negb (cs_busy s) || cs_dead s then (s, [])
  else
    let batch := cs_buf s in
    let s := s <| cs_buf := [] |> in
    if Nat.eqb (length batch) 0 then (s <| cs_busy := false |>, [])
    else if err then (s <| cs_dead := true |> <| cs_buf := [] |>, batch)
    else (s, batch).

(** * The client *)

Record Client := mkClient {
  c_config : Config;
  c_clientId : Z;
  c_intervalMs : Z;
  c_resendMs : Z;
  c_genIntervalUs : Z;
  c_requestOp : list byte;
  c_reqTimeoutNs : Z;
  c_verbose : bool;
  c_startDelayMs : Z;
  c_syncWallNs : Z;
  c_desiredInterval : Z;
  c_firstSchedule : Z;
  c_scheduleStart : Z;
  c_pauseWindowAfter : Z;
  c_windows : gmap Z HsReply;
  c_submitted : gmap Z (gset Z);
  c_handshakeReplies : list HsReply;
  c_arrivalNs : Z;
  c_maxOwdNs : Z;
  c_owdAuto : bool;
  c_busSenders : list connSender;
  c_pending : list RequestMessage;
  c_retry : list RequestMessage;
  c_busSeqNum : Z;
  c_rInflight : gmap Z reqInflight;
  c_committedCount : Z;
  c_totalRttUs : Z;
  c_resendCount : Z;
  c_winSent : Z;
  c_winCommitted : Z;
  c_winResends : Z;
  c_winRttSumUs : Z;
  c_paused : bool;
  c_activeView : Z;
  c_pauseView : Z;
  c_viewHint : Z;
  c_controlStatus : list clientControlMessage;
  c_startupComplete : bool }.

#[export] Instance eta_Client : Eta Client := fun c =>
  mkClient (c_config c) (c_clientId c) (c_intervalMs c) (c_resendMs c) (c_genIntervalUs c)
    (c_requestOp c) (c_reqTimeoutNs c) (c_verbose c) (c_startDelayMs c) (c_syncWallNs c)
    (c_desiredInterval c) (c_firstSchedule c) (c_scheduleStart c) (c_pauseWindowAfter c)
    (c_windows c) (c_submitted c) (c_handshakeReplies c) (c_arrivalNs c) (c_maxOwdNs c)
    (c_owdAuto c) (c_busSenders c) (c_pending c) (c_retry c) (c_busSeqNum c) (c_rInflight c)
    (c_committedCount c) (c_totalRttUs c) (c_resendCount c) (c_winSent c) (c_winCommitted c)
    (c_winResends c) (c_winRttSumUs c) (c_paused c) (c_activeView c) (c_pauseView c)
    (c_viewHint c) (c_controlStatus c) (c_startupComplete c).

Definition clientControlMessage0 : clientControlMessage := mkclientControlMessage 0 0 0 false.

(** [maxOwdNs] is [int64(maxOwdMs * 1e6)]; [payload] is what [crand.Read] fills
    the command with, or [None] for its error, on which Go panics.  The
    connections, and with them the senders, are made by [Connect]. *)
Definition NewClient (config : Config) (clientId intervalMs resendMs genIntervalUs : Z)
    (verbose : bool) (startDelayMs maxOwdNs : Z) (owdAuto : bool) (payload : option (list byte)) :
    option Client :=
  let startDelayMs := if startDelayMs =? 0 then defaultStartDelayMs else startDelayMs in
  let resendMs := if resendMs =? 0 then defaultRequestTimeoutMs else resendMs in
  requestOp ← payload;
  Some (mkClient config clientId intervalMs resendMs genIntervalUs requestOp
    (i64 (i64 resendMs * 1000000)) verbose startDelayMs 0 intervalMs 0 0 0 ∅ ∅ [] 0
    maxOwdNs owdAuto [] [] [] 0 ∅ 0 0 0 0 0 0 0 false 0 0 0
    (replicate (Z.to_nat (cfg_N config)) clientControlMessage0) false).

(** [rtts]: the duration of the dial that succeeded, per replica *)
Definition Connect (c : Client) (rtts : list Z) : Client :=
  let maxDialRtt := foldl Z.max 0 rtts in
  let c := c <| c_busSenders := (fun _ => newConnSender) <$> cfg_Replicas (c_config c) |> in
  if c_owdAuto c then c <| c_maxOwdNs := Z.quot maxDialRtt 2 |> else c.

(** * The schedule a client asks for *)

Definition SetBusInterval (c : Client) (intervalMs : Z) : option Client :=
  if Z.quot MaxInt64 1000000 <? intervalMs then None
  else Some (c <| c_desiredInterval := intervalMs |>).

Definition SetScheduleStart (c : Client) (start wall : Z) : option Client :=
  if negb (c_firstSchedule c =? 0) || (start =? 0) || (MaxInt64 <? start) ||
     negb (start mod u64 (ScheduleWindow (c_config c)) =? 0) || (i64 start <=? wall)
  then None
  else Some (c <| c_scheduleStart := start |>).

Definition scheduleTarget (now window : Z) : Z := u64 ((Z.quot now window + 2) * window).

Definition scheduleRequestTarget (c : Client) (now : Z) : Z :=
  let target := scheduleTarget now (ScheduleWindow (c_config c)) in
  if target <? c_scheduleStart c then c_scheduleStart c else target.

Definition PauseScheduleWindowAfter (c : Client) (after : Z) : option Client :=
  if negb (c_firstSchedule c =? 0) || (after <=? 0) ||
     negb (Z.rem after (ScheduleWindow (c_config c)) =? 0)
  then None
  else Some (c <| c_pauseWindowAfter := after |>).

Definition scheduleInterval (c : Client) (target : Z) : Client * Z :=
  let c := if c_firstSchedule c =? 0 then c <| c_firstSchedule := target |> else c in
  if (0 <? c_pauseWindowAfter c) &&
     (target =? add64 (c_firstSchedule c) (u64 (c_pauseWindowAfter c)))
  then (c, 0) else (c, c_desiredInterval c).

(** ** Accepting a window *)

Definition submitted (c : Client) (start intervalMs : Z) : bool :=
  bool_decide (intervalMs ∈ default ∅ (c_submitted c !! start)).

(** what the reply must match before a mutex is taken *)
Definition reply_matches (c : Client) (m : HsReply) (replica : Z) : bool :=
  (hr_ReplicaId m =? u32 replica) && (replica =? LeaderIndex (c_config c) (hr_ViewId m)) &&
  (hr_EndTime m =? add64 (hr_StartTime m) (u64 (ScheduleWindow (c_config c)))) &&
  (hr_EndTime m <=? MaxInt64).

(** a window that is known already must be the same *)
Definition same_window (c : Client) (m : HsReply) : bool :=
  match c_windows c !! hr_StartTime m with
  | Some old => (hr_IntervalMs old =? hr_IntervalMs m) && (hr_EndTime old =? hr_EndTime m)
  | None => true
  end.

Definition acceptHandshake (c : Client) (m : HsReply) (requests : gmap Z HsRequest)
    (replica : Z) : Client * bool :=
  match requests !! hr_StartTime m with
  | None => (c, false)
  | Some request =>
      if negb (reply_matches c m replica) then (c, false)
      else if negb (hr_IntervalMs m =? hs_IntervalMs request) &&
              negb (submitted c (hr_StartTime m) (hr_IntervalMs m)) then (c, false)
      else if negb (same_window c m) then (c, false)
      else if (hr_ViewId m <? c_pauseView c) || (hr_ViewId m <? c_viewHint c) then (c, false)
      else
        let c := c <| c_windows ::= <[hr_StartTime m := m]> |> in
        (if c_paused c then c <| c_activeView := hr_ViewId m |> <| c_paused := false |> else c,
         true)
  end.

(** ** The schedule goroutine *)

(** the poll period of [scheduleLoop] *)
Definition schedule_poll (c : Client) : Z :=
  Z.max (Z.min (Z.quot (ScheduleWindow (c_config c)) 20) clientControlPoll) 1000000.

(** a connection is made to the leader of the hinted view *)
Definition schedule_dial (c : Client) : Z * Z :=
  (c_viewHint c, LeaderIndex (c_config c) (c_viewHint c)).

(** one request of a round: dropped when its window is over, sent unless the
    window is confirmed in the connection's view.  [write_ok] is the result of
    the write; after a failed one the round stops ([connected] is false). *)
Definition round_request (view now : Z) (write_ok : Z -> bool)
    (s : Client * gmap Z HsRequest * list HsRequest * bool) (p : Z * HsRequest) :
    Client * gmap Z HsRequest * list HsRequest * bool :=
  let '(c, requests, sent, connected) := s in
  let (start, req) := p in
  if negb connected then s
  else if add64 start (u64 (ScheduleWindow (c_config c))) <=? u64 now
  then (c <| c_submitted ::= delete start |>, delete start requests, sent, true)
  else if match c_windows c !! start with Some ready => view <=? hr_ViewId ready | None => false end
  then s
  else if write_ok start
  then (c <| c_submitted ::= fun m =>
               <[start := default ∅ (m !! start) ∪ {[hs_IntervalMs req]}]> m |>,
        requests, sent ++ [req], true)
  else (c, requests, sent, false).

Definition schedule_round (c : Client) (requests : gmap Z HsRequest) (view now : Z)
    (write_ok : Z -> bool) : Client * gmap Z HsRequest * list HsRequest * bool :=
  let target := scheduleRequestTarget c now in
  let (c, interval) := scheduleInterval c target in
  let requests := <[target := mkHsRequest (c_clientId c) target interval]> requests in
  foldl (round_request view now write_ok) (c, requests, [], true) (map_to_list requests).

(** a reply read from the connection *)
Definition schedule_reply (c : Client) (requests : gmap Z HsRequest) (leader : Z) (m : HsReply) :
    Client :=
  let (c, ok) := acceptHandshake c m requests leader in
  if ok && Nat.ltb (length (c_handshakeReplies c)) handshakeReplies_cap
  then c <| c_handshakeReplies ::= fun l => l ++ [m] |> else c.

(** the ticker: the connection is kept while its peer leads the hinted view *)
Definition schedule_tick (c : Client) (leader : Z) : bool :=
  LeaderIndex (c_config c) (c_viewHint c) =? leader.

(** ** Startup *)

(** one receive of [awaitInitialSchedule]; [true]: the wait is over *)
Definition await_one (c : Client) (wall : Z) : Client * bool :=
  match c_handshakeReplies c with
  | [] => (c, false)
  | m :: rest =>
      let c := c <| c_handshakeReplies := rest |> in
      if i64 (i64 (hr_EndTime m) - c_maxOwdNs c) <=? wall then (c, false)
      else (c <| c_syncWallNs := i64 (i64 (hr_StartTime m) - i64 (i64 (c_startDelayMs c) * 1000000)) |>
              <| c_activeView := hr_ViewId m |> <| c_startupComplete := true |>, true)
  end.

Definition dataPhaseStartWallNs (c : Client) : Z :=
  i64 (c_syncWallNs c + i64 (i64 (c_startDelayMs c) * 1000000)).
Definition firstSendWallNs (c : Client) : Z := i64 (dataPhaseStartWallNs c - c_maxOwdNs c).

(** * Following the schedule *)

Definition scheduleViewAllowed (c : Client) (view : Z) : bool :=
  negb (c_paused c) && (c_activeView c <=? view) && (c_viewHint c <=? view) &&
  (c_pauseView c <=? view).

Definition generationEnabled (c : Client) (wall : Z) : bool :=
  let now := i64 (wall + c_maxOwdNs c) in
  let window := u64 (ScheduleWindow (c_config c)) in
  let start := mul64 (u64 now / window) window in
  match c_windows c !! start with
  | Some m => (0 <? hr_IntervalMs m) && scheduleViewAllowed c (hr_ViewId m)
  | None => false
  end.

(** what one window offers: its first arrival after [last] that is before its
    end; a step that wraps to zero makes the division panic *)
Inductive arrival_result := ArrPanic | ArrNone | ArrAt (t : Z).

Definition window_next (start : Z) (m : HsReply) (last : Z) : arrival_result :=
  if start <=? last then
    let step := mul64 (hr_IntervalMs m) 1000000 in
    if step =? 0 then ArrPanic
    else let arrival := add64 start (mul64 (add64 (sub64 last start / step) 1) step) in
         if hr_EndTime m <=? arrival then ArrNone else ArrAt arrival
  else if hr_EndTime m <=? start then ArrNone else ArrAt start.

(** the windows [nextBusArrival] looks at *)
Definition window_considered (c : Client) (now start : Z) : bool := negb (now <? start).
Definition window_usable (c : Client) (m : HsReply) : bool :=
  negb (hr_IntervalMs m =? 0) && scheduleViewAllowed c (hr_ViewId m).

(** a window that is over and offers nothing is forgotten *)
Definition window_dropped (c : Client) (now last : Z) (start : Z) (m : HsReply) : bool :=
  window_considered c now start && (hr_EndTime m <=? now) &&
  (negb (window_usable c m) || match window_next start m last with ArrNone => true | _ => false end).

Definition nba_window (c : Client) (now last : Z) (acc : option (option Z)) (p : Z * HsReply) :
    option (option Z) :=
  let (start, m) := p in
  next ← acc;
  if negb (window_considered c now start && window_usable c m) then Some next
  else match window_next start m last with
       | ArrPanic => None
       | ArrNone => Some next
       | ArrAt t => Some (match next with
                          | None => Some t
                          | Some n => if t <? n then Some t else Some n
                          end)
       end.

(** [None]: a panic; [Some None]: nothing to send *)
Definition nextBusArrival (c : Client) (now last : Z) : option (Client * option Z) :=
  next ← foldl (nba_window c now last) (Some None) (map_to_list (c_windows c));
  Some (c <| c_windows ::= fun m => filter (fun p => window_dropped c now last p.1 p.2 = false) m |>,
        next).

(** * Generating and sending requests *)

Definition gen_interval (c : Client) : Z :=
  let intervalNs := i64 (i64 (c_genIntervalUs c) * 1000) in
  if intervalNs <=? 0 then 1000 else intervalNs.

(** one turn of [genLoop]'s inner loop; the second component is its new
    [next], its new [rid] and whether the inner loop goes on *)
Definition genLoop_turn (c : Client) (rid next now wall : Z) : Client * (Z * Z * bool) :=
  if now <? next then (c, (rid, next, false))
  else if c_paused c || negb (generationEnabled c wall) then (c, (rid, next, false))
  else
    let rid := add64 rid 1 in
    (c <| c_pending ::= fun l => l ++ [mkRequestMessage (c_clientId c) rid (u64 now) (c_requestOp c)] |>,
     (rid, i64 (next + gen_interval c), true)).

(** one request of a bus: its entry is made or found, and stamped *)
Definition board (now : Z) (s : gmap Z reqInflight * list RequestMessage) (rq : RequestMessage) :
    gmap Z reqInflight * list RequestMessage :=
  let (inflight, reqs) := s in
  let e := match inflight !! rq_RequestId rq with
           | Some e => e
           | None =>
               let genNs := i64 (rq_SendTimeNs rq) in
               let genNs := if genNs =? 0 then now else genNs in
               mkreqInflight 0 genNs (rq_Op rq) ∅ false
           end in
  (<[rq_RequestId rq := e <| e_sendTimeNs := now |>]> inflight,
   reqs ++ [mkRequestMessage (rq_ClientId rq) (rq_RequestId rq) (u64 now) (rq_Op rq)]).

Definition bus_bytes (msg : BusMessage) : list byte := byte_of MsgBus :: BusMessage_Marshal msg.

(** the second component: the bus handed to the senders, if any *)
Definition sendBus (c : Client) (now : Z) : Client * option BusMessage :=
  if c_paused c then (c, None)
  else
    let reqs := c_retry c ++ c_pending c in
    let c := c <| c_pending := [] |> <| c_retry := [] |> <| c_busSeqNum := c_arrivalNs c |> in
    let (inflight, reqs) := foldl (board now) (c_rInflight c, []) reqs in
    let c := c <| c_rInflight := inflight |>
               <| c_winSent ::= fun n => add64 n (Zlength reqs) |> in
    let msg := mkBusMessage (c_clientId c) (c_busSeqNum c) (u64 now) reqs in
    (c <| c_busSenders ::= fmap (fun s => enqueue s (bus_bytes msg)) |>, Some msg).

Definition emitStats (c : Client) : Client :=
  c <| c_winSent := 0 |> <| c_winCommitted := 0 |> <| c_winResends := 0 |> <| c_winRttSumUs := 0 |>.

(** [busLoop] picks the next arrival, for the buses that must leave by now *)
Definition busLoop_pick (c : Client) (last wall : Z) : option (Client * option Z) :=
  nextBusArrival c (u64 (wall + c_maxOwdNs c)) last.

(** the arrival picked is still ahead of the one-way delay *)
Definition busLoop_early (c : Client) (next wall : Z) : bool :=
  0 <? i64 (i64 (i64 next - c_maxOwdNs c) - wall).

Definition busLoop_stats (c : Client) (lastStats wall : Z) : Client * Z :=
  if 1000000000 <=? i64 (wall - lastStats) then (emitStats c, wall) else (c, lastStats).

(** one turn of [busLoop]: its local variables [last] and [lastStats] and what
    it sends; the wall clock is read for the pick, for the delay and for the
    statistics.  [None]: the panic of [nextBusArrival]. *)
Definition busLoop_turn (c : Client) (last lastStats wall wall' now wall'' : Z) :
    option (Client * Z * Z * option BusMessage) :=
  '(c, next) ← busLoop_pick c last wall;
  match next with
  | None => Some (c, last, lastStats, None)
  | Some next =>
      if busLoop_early c next wall' then Some (c, last, lastStats, None)
      else
        let (c, sent) := sendBus (c <| c_arrivalNs := next |>) now in
        let (c, lastStats) := busLoop_stats c lastStats wall'' in
        Some (c, next, lastStats, sent)
  end.

(** [runOnSchedule]'s turn: [next] and [curEpoch] are its local variables; the
    tick and the statistics are the caller's *)
Definition runOnSchedule_turn (base intervalNs next curEpoch now : Z) : option (Z * Z * bool) :=
  if now <? next then None
  else let next := i64 (next + intervalNs) in
       let epoch := Z.quot (i64 (next - base)) 1000000000 in
       Some (next, epoch, negb (epoch =? curEpoch)).

(** * Timeouts *)

Definition timed_out (c : Client) (now : Z) (e : reqInflight) : bool :=
  negb (e_committed e || (i64 (now - e_sendTimeNs e) <? c_reqTimeoutNs c)).

(** a tick of [reqTimeoutLoop] *)
Definition reqTimeoutLoop (c : Client) (now wall : Z) : Client :=
  if negb (generationEnabled c wall) then c
  else
    let late := filter (fun p => timed_out c now p.2 = true) (map_to_list (c_rInflight c)) in
    let reboard := (fun p => mkRequestMessage (c_clientId c) p.1 0 (e_op p.2)) <$> late in
    c <| c_rInflight ::= fmap (fun e => if timed_out c now e then e <| e_sendTimeNs := now |> else e) |>
      <| c_resendCount ::= fun n => add64 n (Zlength late) |>
      <| c_winResends ::= fun n => add64 n (Zlength late) |>
      <| c_retry ::= fun l => l ++ reboard |>.

(** a tick of [janitorLoop] *)
Definition janitorLoop (c : Client) (now : Z) : Client :=
  c <| c_rInflight ::= fun m => filter (fun p =>
         e_committed p.2 && (gcCommittedNs <=? i64 (now - e_sendTimeNs p.2)) = false) m |>.

(** * Replies *)

(** [bits.OnesCount32] *)
Definition OnesCount32 (x : Z) : Z := Zlength (filter (fun i => Z.testbit x i = true) (seqZ 0 32)).

(** [uint32(1) << n]: a shift by 32 or more gives 0 *)
Definition bit32 (n : Z) : Z := if n <? 32 then Z.shiftl 1 n else 0.

Definition quorumReached (c : Client) (mask viewId : Z) : bool :=
  (QuorumSize (c_config c) <=? OnesCount32 mask) &&
  negb (Z.land mask (bit32 (LeaderIndex (c_config c) viewId)) =? 0).

Definition recordCommit (c : Client) (latencyUs : Z) : Client :=
  c <| c_committedCount ::= fun n => add64 n 1 |>
    <| c_totalRttUs ::= fun n => add64 n (u64 latencyUs) |>
    <| c_winCommitted ::= fun n => add64 n 1 |>
    <| c_winRttSumUs ::= fun n => add64 n (u64 latencyUs) |>.

(** the second component: the request was committed by this reply *)
Definition handleRequestReply (c : Client) (msg : RequestReplyMessage) (now : Z) : Client * bool :=
  match c_rInflight c !! rr_RequestId msg with
  | None => (c, false)
  | Some e =>
      let bit := bit32 (rr_ReplicaIdx msg) in
      let vk := (rr_LogIndex msg, rr_ViewId msg) in
      let mask := default 0 (e_votes e !! vk) in
      if negb (Z.land mask bit =? 0) then (c, false)
      else
        let mask := Z.lor mask bit in
        let e := e <| e_votes ::= <[vk := mask]> |> in
        if negb (e_committed e) && quorumReached c mask (rr_ViewId msg)
        then
          let totalUs := Z.quot (i64 (now - e_firstSendNs e)) 1000 in
          let e := e <| e_committed := true |> in
          (recordCommit (c <| c_rInflight ::= <[rr_RequestId msg := e]> |>) totalUs, true)
        else (c <| c_rInflight ::= <[rr_RequestId msg := e]> |>, false)
  end.

(** * Control messages *)

Definition normal_in (view : Z) (report : clientControlMessage) : bool :=
  cc_Normal report && (cc_ViewId report =? view).

(** how many replicas report [view] as normal, and whether its leader does *)
Definition view_confirmed (c : Client) (status : list clientControlMessage) (view : Z) : bool :=
  (QuorumSize (c_config c) <=? Zlength (filter (fun m => normal_in view m = true) status)) &&
  match status !! Z.to_nat (LeaderIndex (c_config c) view) with
  | Some report => normal_in view report
  | None => false
  end.

(** the greatest confirmed view above the hint *)
Definition better_hint (c : Client) (status : list clientControlMessage) (best : Z)
    (report : clientControlMessage) : Z :=
  let candidate := cc_ViewId report in
  if candidate <=? best then best
  else if view_confirmed c status candidate then candidate else best.
Definition best_hint (c : Client) (status : list clientControlMessage) (hint : Z) : Z :=
  foldl (better_hint c status) hint status.

Definition pauseForView (c : Client) (view : Z) : Client :=
  if (view <=? c_activeView c) || (view <=? c_pauseView c) then c
  else c <| c_paused := true |> <| c_pauseView := view |>.

Definition isPaused (c : Client) : bool := c_paused c.

(** [handleControlReply] up to its unlock; the second component is [canPause] *)
Definition control_hint (c : Client) (m : clientControlMessage) : Client * bool :=
  let status := if cc_ReplicaIdx m <? Zlength (c_controlStatus c)
                then <[Z.to_nat (cc_ReplicaIdx m) := m]> (c_controlStatus c)
                else c_controlStatus c in
  (c <| c_controlStatus := status |> <| c_viewHint := best_hint c status (c_viewHint c) |>,
   c_startupComplete c).

Definition handleControlReply (c : Client) (code : Z) (m : clientControlMessage) : Client :=
  let (c, canPause) := control_hint c m in
  if canPause && ((code =? MsgClientPause) || (code =? MsgClientStatusReply))
  then pauseForView c (cc_ViewId m) else c.

(** a message read by [controlPeerLoop] from replica [idx]; [None]: the
    connection is dropped *)
Definition controlPeer_read (c : Client) (idx code : Z) (m : clientControlMessage) : option Client :=
  if negb (code =? MsgClientPause) && negb (code =? MsgClientStatusReply) then None
  else if negb (cc_ClientId m =? c_clientId c) || negb (cc_ReplicaIdx m =? idx) then Some c
  else Some (handleControlReply c code m).

(** a tick of [controlPeerLoop]'s writer *)
Definition controlPeer_query (c : Client) : clientControlMessage :=
  mkclientControlMessage (c_clientId c) 0 0 false.
