(* ===== verification/ClientRun.v ===== *)
(** The client's goroutines as one transition system ([Run] of
    [src/paxosbus/internal/protocol/client.go] and the loops it starts).

    Each rule of [client_step] is one critical section of one goroutine, with
    that goroutine's local variables in [ClientRun]; the sections interleave
    freely.  An [event] records what the step received or did. *)
From S2P Require Import Prelude WireBase Wire WireStream Config Lines Client.

(** [k_requests], [k_view], [k_leader]: locals of [scheduleLoop]; [k_rid],
    [k_next]: of [genLoop]; [k_last], [k_lastStats], [k_pick] (the arrival
    picked and not yet sent): of [busLoop]; [k_pauses]: the views of the control
    messages between [handleControlReply]'s two critical sections. *)
Record ClientRun := mkClientRun {
  k_c : Client;
  k_requests : gmap Z HsRequest;
  k_view : Z;
  k_leader : Z;
  k_rid : Z;
  k_next : Z;
  k_last : Z;
  k_lastStats : Z;
  k_pick : option Z;
  k_pauses : list Z }.

#[export] Instance eta_ClientRun : Eta ClientRun := fun s =>
  mkClientRun (k_c s) (k_requests s) (k_view s) (k_leader s) (k_rid s) (k_next s) (k_last s)
    (k_lastStats s) (k_pick s) (k_pauses s).

Definition client_start (c : Client) (wall now : Z) : ClientRun :=
  mkClientRun c ∅ 0 0 0 now 0 wall None [].

Inductive event :=
| GotReply (m : RequestReplyMessage)
| GotControl (m : clientControlMessage)
| GotHandshake (m : HsReply)
| Generated (rid : Z)
| Sent (msg : BusMessage)
| Committed (rid : Z).

(** the wall clock reads nanoseconds since 1970 *)
Definition is_wall (wall : Z) : Prop := 0 <= wall <= MaxInt64.

Definition pausing (code : Z) : bool := (code =? MsgClientPause) || (code =? MsgClientStatusReply).

Inductive client_step : ClientRun -> list event -> ClientRun -> Prop :=
(** [receiveLoop] *)
| step_reply s m now c' committed :
    handleRequestReply (k_c s) m now = (c', committed) ->
    client_step s (GotReply m :: if committed then [Committed (rr_RequestId m)] else [])
      (s <| k_c := c' |>)
(** [controlPeerLoop] of replica [cc_ReplicaIdx m], [handleControlReply] *)
| step_control s code m c' canPause :
    pausing code = true -> cc_ClientId m = c_clientId (k_c s) ->
    0 <= cc_ReplicaIdx m < cfg_N (c_config (k_c s)) -> is_u64 (cc_ViewId m) ->
    control_hint (k_c s) m = (c', canPause) ->
    client_step s [GotControl m]
      (s <| k_c := c' |> <| k_pauses ::= fun l => if canPause then cc_ViewId m :: l else l |>)
| step_pause s l1 v l2 :
    k_pauses s = l1 ++ v :: l2 ->
    client_step s [] (s <| k_c := pauseForView (k_c s) v |> <| k_pauses := l1 ++ l2 |>)
(** [scheduleLoop] *)
| step_dial s view leader :
    schedule_dial (k_c s) = (view, leader) ->
    client_step s [] (s <| k_view := view |> <| k_leader := leader |>)
| step_target s wall c' target interval :
    is_wall wall -> scheduleRequestTarget (k_c s) wall = target ->
    scheduleInterval (k_c s) target = (c', interval) ->
    client_step s [] (s <| k_c := c' |>
      <| k_requests ::= <[target := mkHsRequest (c_clientId (k_c s)) target interval]> |>)
| step_request s wall start req write_ok c' requests sent connected :
    is_wall wall -> k_requests s !! start = Some req ->
    round_request (k_view s) wall write_ok (k_c s, k_requests s, [], true) (start, req) =
      (c', requests, sent, connected) ->
    client_step s [] (s <| k_c := c' |> <| k_requests := requests |>)
| step_handshake s m :
    is_u64 (hr_StartTime m) -> is_u64 (hr_IntervalMs m) -> is_u64 (hr_ViewId m) ->
    client_step s [GotHandshake m]
      (s <| k_c := schedule_reply (k_c s) (k_requests s) (k_leader s) m |>)
(** [awaitInitialSchedule] *)
| step_await s wall c' done :
    c_startupComplete (k_c s) = false -> await_one (k_c s) wall = (c', done) ->
    client_step s [] (s <| k_c := c' |>)
(** the setters *)
| step_interval s intervalMs c' :
    0 <= intervalMs -> SetBusInterval (k_c s) intervalMs = Some c' ->
    client_step s [] (s <| k_c := c' |>)
| step_set_start s start wall c' :
    SetScheduleStart (k_c s) start wall = Some c' -> is_u64 start ->
    client_step s [] (s <| k_c := c' |>)
| step_pause_window s after c' :
    PauseScheduleWindowAfter (k_c s) after = Some c' ->
    client_step s [] (s <| k_c := c' |>)
(** [genLoop]; [Run] starts it and [busLoop] when [awaitInitialSchedule] is over *)
| step_generate s now wall c' rid next more :
    c_startupComplete (k_c s) = true ->
    genLoop_turn (k_c s) (k_rid s) (k_next s) now wall = (c', (rid, next, more)) ->
    client_step s (if more then [Generated rid] else [])
      (s <| k_c := c' |> <| k_rid := rid |> <| k_next := next |>)
| step_generate_reset s now :
    client_step s [] (s <| k_next := now |>)
(** [busLoop] *)
| step_pick s wall c' next :
    c_startupComplete (k_c s) = true ->
    busLoop_pick (k_c s) (k_last s) wall = Some (c', next) ->
    client_step s [] (s <| k_c := c' |> <| k_pick := next |>)
| step_early s next wall :
    k_pick s = Some next -> busLoop_early (k_c s) next wall = true ->
    client_step s [] (s <| k_pick := None |>)
| step_send s next wall now c' sent :
    k_pick s = Some next -> busLoop_early (k_c s) next wall = false ->
    sendBus ((k_c s) <| c_arrivalNs := next |>) now = (c', sent) ->
    client_step s (match sent with Some msg => [Sent msg] | None => [] end)
      (s <| k_c := c' |> <| k_last := next |> <| k_pick := None |>)
| step_stats s wall c' lastStats :
    busLoop_stats (k_c s) (k_lastStats s) wall = (c', lastStats) ->
    client_step s [] (s <| k_c := c' |> <| k_lastStats := lastStats |>)
(** [connSender.loop] *)
| step_sender s i f :
    (forall x, f x = sender_wake x) \/ (exists err, forall x, f x = (sender_turn x err).1) ->
    client_step s [] (s <| k_c := (k_c s) <| c_busSenders ::= alter f i |> |>)
(** [reqTimeoutLoop], [janitorLoop] *)
| step_timeout s now wall :
    client_step s [] (s <| k_c := reqTimeoutLoop (k_c s) now wall |>)
| step_janitor s now :
    client_step s [] (s <| k_c := janitorLoop (k_c s) now |>).

(** a run and its events, in order *)
Inductive client_run (s0 : ClientRun) : list event -> ClientRun -> Prop :=
| run_start : client_run s0 [] s0
| run_step tr s evs s' : client_run s0 tr s -> client_step s evs s' -> client_run s0 (tr ++ evs) s'.

(** an invariant of runs that may speak of the events so far *)
Lemma client_run_ind_inv (I : list event -> ClientRun -> Prop) s0 tr s :
  I [] s0 ->
  (forall tr s evs s', I tr s -> client_step s evs s' -> I (tr ++ evs) s') ->
  client_run s0 tr s -> I tr s.
Proof. intros H0 Hs. induction 1; eauto. Qed.

(** * Executing a run

    A scheduler's choice of the next section, with what it reads. *)
Inductive action :=
| DoReply (m : RequestReplyMessage) (now : Z)
| DoControl (code : Z) (m : clientControlMessage)
| DoPause
| DoDial
| DoTarget (wall : Z)
| DoRequest (wall start : Z)
| DoHandshake (m : HsReply)
| DoAwait (wall : Z)
| DoGenerate (now wall : Z)
| DoPick (wall : Z)
| DoSend (wall now : Z)
| DoTimeout (now wall : Z)
| DoJanitor (now : Z).

#[export] Instance is_wall_dec wall : Decision (is_wall wall).
Proof. unfold is_wall. apply _. Defined.

Definition client_exec (s : ClientRun) (a : action) : option (list event * ClientRun) :=
  match a with
  | DoReply m now =>
      let (c', committed) := handleRequestReply (k_c s) m now in
      Some (GotReply m :: (if committed then [Committed (rr_RequestId m)] else []), s <| k_c := c' |>)
  | DoControl code m =>
      if bool_decide (pausing code = true /\ cc_ClientId m = c_clientId (k_c s) /\
           0 <= cc_ReplicaIdx m < cfg_N (c_config (k_c s)) /\ is_u64 (cc_ViewId m))
      then let (c', canPause) := control_hint (k_c s) m in
           Some ([GotControl m],
             s <| k_c := c' |> <| k_pauses ::= fun l => if canPause then cc_ViewId m :: l else l |>)
      else None
  | DoPause =>
      match k_pauses s with
      | v :: l => Some ([], s <| k_c := pauseForView (k_c s) v |> <| k_pauses := l |>)
      | [] => None
      end
  | DoDial =>
      let (view, leader) := schedule_dial (k_c s) in
      Some ([], s <| k_view := view |> <| k_leader := leader |>)
  | DoTarget wall =>
      if bool_decide (is_wall wall) then
        let target := scheduleRequestTarget (k_c s) wall in
        let (c', interval) := scheduleInterval (k_c s) target in
        Some ([], s <| k_c := c' |>
          <| k_requests ::= <[target := mkHsRequest (c_clientId (k_c s)) target interval]> |>)
      else None
  | DoRequest wall start =>
      if bool_decide (is_wall wall) then
        req ← k_requests s !! start;
        let '(c', requests, _, _) :=
          round_request (k_view s) wall (fun _ => true) (k_c s, k_requests s, [], true) (start, req) in
        Some ([], s <| k_c := c' |> <| k_requests := requests |>)
      else None
  | DoHandshake m =>
      if bool_decide (is_u64 (hr_StartTime m) /\ is_u64 (hr_IntervalMs m) /\ is_u64 (hr_ViewId m))
      then Some ([GotHandshake m],
             s <| k_c := schedule_reply (k_c s) (k_requests s) (k_leader s) m |>)
      else None
  | DoAwait wall =>
      if c_startupComplete (k_c s) then None
      else Some ([], s <| k_c := (await_one (k_c s) wall).1 |>)
  | DoGenerate now wall =>
      if c_startupComplete (k_c s) then
        let '(c', (rid, next, more)) := genLoop_turn (k_c s) (k_rid s) (k_next s) now wall in
        Some (if more : bool then [Generated rid] else [],
              s <| k_c := c' |> <| k_rid := rid |> <| k_next := next |>)
      else None
  | DoPick wall =>
      if c_startupComplete (k_c s) then
        '(c', next) ← busLoop_pick (k_c s) (k_last s) wall;
        Some ([], s <| k_c := c' |> <| k_pick := next |>)
      else None
  | DoSend wall now =>
      next ← k_pick s;
      if busLoop_early (k_c s) next wall then None
      else
        let (c', sent) := sendBus ((k_c s) <| c_arrivalNs := next |>) now in
        Some (match sent with Some msg => [Sent msg] | None => [] end,
              s <| k_c := c' |> <| k_last := next |> <| k_pick := None |>)
  | DoTimeout now wall => Some ([], s <| k_c := reqTimeoutLoop (k_c s) now wall |>)
  | DoJanitor now => Some ([], s <| k_c := janitorLoop (k_c s) now |>)
  end.

Lemma client_exec_sound s a evs s' : client_exec s a = Some (evs, s') -> client_step s evs s'.
Proof.
  destruct a; cbn [client_exec]; unfold mbind, option_bind; intros H;
    repeat match type of H with
    | context [bool_decide ?P] => destruct (bool_decide_reflect P); [|discriminate]
    | (let (_, _) := ?x in _) = _ => destruct x eqn:?
    | (match ?x with _ => _ end) = _ => destruct x eqn:?; try discriminate
    end; try discriminate; injection H as <- <-.
  - by eapply step_reply.
  - destruct_and!. by eapply step_control.
  - by apply (step_pause s [] z l).
  - by apply step_dial.
  - by eapply step_target.
  - by eapply step_request.
  - destruct_and!. by apply step_handshake.
  - by eapply step_await; [|apply surjective_pairing].
  - by eapply step_generate.
  - by eapply step_pick.
  - by eapply step_send.
  - apply step_timeout.
  - apply step_janitor.
Qed.

Fixpoint client_execs (s : ClientRun) (acts : list action) : option (list event * ClientRun) :=
  match acts with
  | [] => Some ([], s)
  | a :: acts =>
      '(evs, s) ← client_exec s a;
      '(tr, s) ← client_execs s acts;
      Some (evs ++ tr, s)
  end.

Lemma client_run_trans s0 tr1 s1 tr2 s2 :
  client_run s0 tr1 s1 -> client_run s1 tr2 s2 -> client_run s0 (tr1 ++ tr2) s2.
Proof.
  intros H1 H2. induction H2 as [|tr s evs s' H IH Hs]; [by rewrite app_nil_r|].
  rewrite app_assoc. by eapply run_step.
Qed.

Lemma client_execs_sound s acts tr s' :
  client_execs s acts = Some (tr, s') -> client_run s tr s'.
Proof.
  revert s tr. induction acts as [|a acts IH]; intros s tr; cbn [client_execs].
  { intros [= <- <-]. constructor. }
  unfold mbind, option_bind. destruct (client_exec s a) as [[evs s1]|] eqn:E; [|done].
  destruct (client_execs s1 acts) as [[tr2 s2]|] eqn:E2; [|done]. intros [= <- <-].
  apply (client_run_trans _ _ s1); [|by apply IH].
  apply (run_step s [] s); [constructor|by eapply client_exec_sound].
Qed.
