(* ===== verification/ClientInv.v ===== *)
(** Invariants of the client's runs: what it knows about a request was said by
    replicas, what it believes about the view was said by a quorum, and its
    schedule is well formed. *)
From S2P Require Import Prelude WireBase Wire WireStream Config Lines Client ClientRun.

(** [op_cases]: a case per branch of the operation that made the new state *)
Ltac op_cases :=
  repeat match goal with
  | H : context [match ?x with _ => _ end] |- _ =>
      lazymatch x with context [match _ with _ => _ end] => fail | _ => destruct x eqn:? end
  | |- context [match ?x with _ => _ end] =>
      lazymatch x with context [match _ with _ => _ end] => fail | _ => destruct x eqn:? end
  end; simplify_eq.

(** ** What never changes *)

Lemma schedule_reply_same c requests leader m :
  let c' := schedule_reply c requests leader m in
  c_config c' = c_config c /\ c_clientId c' = c_clientId c /\ c_rInflight c' = c_rInflight c /\
  c_pending c' = c_pending c /\ c_retry c' = c_retry c /\ c_viewHint c' = c_viewHint c /\
  c_pauseView c' = c_pauseView c /\ c_controlStatus c' = c_controlStatus c /\
  c_startupComplete c' = c_startupComplete c /\ c_submitted c' = c_submitted c /\
  c_desiredInterval c' = c_desiredInterval c /\ c_busSenders c' = c_busSenders c /\
  c_scheduleStart c' = c_scheduleStart c.
Proof.
  unfold schedule_reply, acceptHandshake. cbv zeta. op_cases; rsimpl; done.
Qed.

(** [step_cases]: the state after a step, branch by branch *)
Ltac unfold_client :=
  unfold control_hint, pauseForView, schedule_dial, scheduleInterval, round_request, schedule_reply,
    acceptHandshake, await_one, SetBusInterval, SetScheduleStart, PauseScheduleWindowAfter,
    genLoop_turn, busLoop_pick, nextBusArrival, sendBus, busLoop_stats, emitStats, reqTimeoutLoop,
    janitorLoop, handleRequestReply, recordCommit, mbind, option_bind in *.
Ltac step_cases := unfold_client; op_cases; rsimpl.

Lemma client_step_config s evs s' : client_step s evs s' ->
  c_config (k_c s') = c_config (k_c s) /\ c_clientId (k_c s') = c_clientId (k_c s).
Proof.
  intros H. destruct H; try solve [step_cases; done].
Qed.

(** ** Votes *)

Lemma bit32_testbit n i : 0 <= i -> Z.testbit (bit32 n) i = (i =? n) && (i <? 32).
Proof.
  intros Hi. unfold bit32. destruct (Z.ltb_spec n 32) as [Hn|Hn].
  - destruct (Z.ltb_spec n 0) as [Hneg|Hpos].
    + rewrite Z.shiftl_div_pow2 by lia. rewrite Z.div_small; [|split; [lia|]].
      2:{ apply Z.pow_gt_1; lia. }
      rewrite Z.bits_0. symmetry. apply andb_false_iff. left. apply Z.eqb_neq. lia.
    + rewrite Z.shiftl_1_l. destruct (Z.eqb_spec i n) as [->|Hne].
      * rewrite Z.pow2_bits_true by lia. symmetry. apply Z.ltb_lt. lia.
      * rewrite Z.pow2_bits_false by lia. done.
  - rewrite Z.bits_0. symmetry. apply andb_false_iff.
    destruct (Z.eqb_spec i n); [right; apply Z.ltb_ge; lia|by left].
Qed.

Lemma bit32_nonneg n : 0 <= bit32 n.
Proof.
  unfold bit32. destruct (Z.ltb_spec n 32); [|lia]. apply Z.shiftl_nonneg. lia.
Qed.

Lemma land_bit32 mask n :
  0 <= mask -> Z.land mask (bit32 n) <> 0 <-> 0 <= n < 32 /\ Z.testbit mask n = true.
Proof.
  intros Hm. split.
  - intros H. destruct (decide (0 <= n < 32)) as [Hn|Hn].
    + split; [done|]. destruct (Z.testbit mask n) eqn:E; [done|]. exfalso. apply H.
      apply Z.bits_inj'. intros i Hi. rewrite Z.land_spec, Z.bits_0, bit32_testbit by done.
      destruct (Z.eqb_spec i n) as [->|]; [by rewrite E|]. cbn. apply andb_false_r.
    + exfalso. apply H. apply Z.bits_inj'. intros i Hi.
      rewrite Z.land_spec, Z.bits_0, bit32_testbit by done. apply andb_false_iff. right.
      apply andb_false_iff. destruct (Z.eqb_spec i n); [right; apply Z.ltb_ge; lia|by left].
  - intros [Hn Ht] E. apply (f_equal (fun x => Z.testbit x n)) in E.
    rewrite Z.land_spec, Ht, bit32_testbit, Z.eqb_refl, Z.bits_0 in E by lia.
    destruct (Z.ltb_spec n 32); [done|lia].
Qed.

(** the replicas whose bits are set *)
Definition voters (mask : Z) : gset Z :=
  list_to_set (filter (fun i => Z.testbit mask i = true) (seqZ 0 32)).

Lemma elem_of_voters mask i : i ∈ voters mask <-> 0 <= i < 32 /\ Z.testbit mask i = true.
Proof.
  unfold voters. rewrite elem_of_list_to_set, list_elem_of_filter, elem_of_seqZ. naive_solver lia.
Qed.

Lemma OnesCount32_voters mask : OnesCount32 mask = Z.of_nat (size (voters mask)).
Proof.
  unfold OnesCount32, voters. rewrite size_list_to_set; [done|]. apply NoDup_filter, NoDup_seqZ.
Qed.

Lemma quorumReached_spec c mask view :
  0 <= mask -> quorumReached c mask view = true <->
  QuorumSize (c_config c) <= Z.of_nat (size (voters mask)) /\
  LeaderIndex (c_config c) view ∈ voters mask.
Proof.
  intros Hm. unfold quorumReached.
  rewrite andb_true_iff, negb_true_iff, Z.leb_le, Z.eqb_neq, OnesCount32_voters, elem_of_voters,
    land_bit32 by done. done.
Qed.

(** replica [i] replied to request [rid] with this log index and view *)
Definition voted (tr : list event) (rid : Z) (vk : voteKey) (i : Z) : Prop :=
  exists m, GotReply m ∈ tr /\ rr_RequestId m = rid /\ rr_ReplicaIdx m = i /\
            rr_LogIndex m = vk.1 /\ rr_ViewId m = vk.2.

(** a quorum with the view's leader replied alike *)
Definition vouched (tr : list event) (config : Config) (rid : Z) (vk : voteKey) (q : gset Z) : Prop :=
  QuorumSize config <= Z.of_nat (size q) /\ LeaderIndex config vk.2 ∈ q /\
  forall i, i ∈ q -> 0 <= i < 32 /\ voted tr rid vk i.

Definition mask_ok (tr : list event) (rid : Z) (vk : voteKey) (mask : Z) : Prop :=
  0 <= mask /\ forall i, i ∈ voters mask -> voted tr rid vk i.

Definition votes_ok (tr : list event) (inflight : gmap Z reqInflight) : Prop :=
  forall rid e vk mask, inflight !! rid = Some e -> e_votes e !! vk = Some mask ->
    mask_ok tr rid vk mask.

Lemma voted_app tr evs rid vk i : voted tr rid vk i -> voted (tr ++ evs) rid vk i.
Proof. intros (m & ? & H). exists m. split; [set_solver|done]. Qed.

Lemma mask_ok_app tr evs rid vk mask : mask_ok tr rid vk mask -> mask_ok (tr ++ evs) rid vk mask.
Proof. intros [? H]. split; [done|]. intros i Hi. by apply voted_app, H. Qed.

Lemma votes_ok_app tr evs inflight : votes_ok tr inflight -> votes_ok (tr ++ evs) inflight.
Proof. intros H rid e vk mask He Hv. by eapply mask_ok_app, H. Qed.

Lemma vouched_app tr evs config rid vk q :
  vouched tr config rid vk q -> vouched (tr ++ evs) config rid vk q.
Proof.
  intros (? & ? & H). split_and!; [done|done|]. intros i Hi. destruct (H i Hi). split; [done|].
  by apply voted_app.
Qed.

(** an entry made by [sendBus] has no votes, and one found keeps them *)
Lemma board_votes tr now reqs inflight acc :
  votes_ok tr inflight -> votes_ok tr (foldl (board now) (inflight, acc) reqs).1.
Proof.
  revert inflight acc. induction reqs as [|rq reqs IH]; intros inflight acc H; [done|].
  cbn [foldl]. unfold board at 2. apply IH.
  intros rid e vk mask. rewrite lookup_insert_Some. intros [[<- <-]|[_ He]]; [|by eapply H].
  rsimpl. destruct (inflight !! rq_RequestId rq) as [e0|] eqn:E; cbn [e_votes]; intros Hv; [by eapply H|].
  done.
Qed.

(** a reply adds one vote, of the replica it names *)
Lemma mask_add tr evs rid vk mask m :
  mask_ok tr rid vk mask -> GotReply m ∈ evs -> rr_RequestId m = rid ->
  vk = (rr_LogIndex m, rr_ViewId m) ->
  mask_ok (tr ++ evs) rid vk (Z.lor mask (bit32 (rr_ReplicaIdx m))).
Proof.
  intros [Hm Hv] Hin Hrid ->. pose proof (bit32_nonneg (rr_ReplicaIdx m)).
  split; [apply Z.lor_nonneg; lia|]. intros i (Hi & Ht)%elem_of_voters.
  rewrite Z.lor_spec, bit32_testbit in Ht by lia.
  apply orb_true_iff in Ht as [Ht|[Ht%Z.eqb_eq _]%andb_true_iff].
  - apply voted_app, Hv, elem_of_voters. done.
  - subst i. exists m. split; [set_solver|done].
Qed.

Lemma mask_ok_0 tr rid vk : mask_ok tr rid vk 0.
Proof. split; [done|]. intros i (_ & Ht)%elem_of_voters. by rewrite Z.bits_0 in Ht. Qed.

Lemma handleRequestReply_votes tr evs c m now :
  votes_ok tr (c_rInflight c) -> GotReply m ∈ evs ->
  votes_ok (tr ++ evs) (c_rInflight (handleRequestReply c m now).1) /\
  ((handleRequestReply c m now).2 = true -> exists vk q,
     vouched (tr ++ evs) (c_config c) (rr_RequestId m) vk q).
Proof.
  intros Hok Hin. unfold handleRequestReply.
  destruct (c_rInflight c !! rr_RequestId m) as [e|] eqn:E; [|by split; [apply votes_ok_app|]].
  set (vk := (rr_LogIndex m, rr_ViewId m)). set (mask := default 0 (e_votes e !! vk)).
  assert (Hmask : mask_ok tr (rr_RequestId m) vk mask).
  { unfold mask. destruct (e_votes e !! vk) eqn:Ev; [by eapply Hok|apply mask_ok_0]. }
  destruct (negb _); [by split; [apply votes_ok_app|]|].
  pose proof (mask_add tr evs _ _ _ m Hmask Hin eq_refl eq_refl) as Hadd.
  set (mask' := Z.lor mask _) in *. clearbody mask'.
  assert (Hset : forall e', e_votes e' = <[vk := mask']> (e_votes e) ->
            votes_ok (tr ++ evs) (<[rr_RequestId m := e']> (c_rInflight c))).
  { intros e' He' rid e1 vk1 mask1. rewrite lookup_insert_Some.
    intros [[<- <-]|[_ He1]]; [|by eapply votes_ok_app].
    rewrite He', lookup_insert_Some. intros [[<- <-]|[_ Hv]]; [done|by eapply votes_ok_app]. }
  destruct (negb _ && _) eqn:Eq; rsimpl; cbn [fst snd].
  - unfold recordCommit. rsimpl. split; [by apply Hset|]. intros _.
    apply andb_true_iff in Eq as [_ Eq]. apply quorumReached_spec in Eq as [Hq Hl]; [|apply Hadd].
    exists vk, (voters mask'). split_and!; [done|done|]. intros i Hi. split; [|by apply Hadd].
    apply elem_of_voters in Hi. lia.
  - split; [by apply Hset|done].
Qed.

(** every request committed so far was vouched for by a quorum with its view's
    leader *)
Definition commits_ok (tr : list event) (config : Config) : Prop :=
  forall rid, Committed rid ∈ tr -> exists vk q, vouched tr config rid vk q.

Definition vote_inv (tr : list event) (s : ClientRun) : Prop :=
  votes_ok tr (c_rInflight (k_c s)) /\ commits_ok tr (c_config (k_c s)).

Lemma commits_ok_app tr evs config :
  commits_ok tr config -> (forall rid, Committed rid ∉ evs) -> commits_ok (tr ++ evs) config.
Proof.
  intros H Hn rid [Hr|Hr]%elem_of_app; [|by destruct (Hn rid)].
  destruct (H rid Hr) as (vk & q & Hq). exists vk, q. by apply vouched_app.
Qed.

Lemma fmap_votes tr inflight f :
  (forall e, e_votes (f e) = e_votes e) -> votes_ok tr inflight -> votes_ok tr (f <$> inflight).
Proof.
  intros Hf H rid e vk mask. rewrite lookup_fmap_Some. intros (e0 & <- & He). rewrite Hf. by apply H.
Qed.

Lemma filter_votes tr inflight (P : Z * reqInflight -> Prop) `{!forall x, Decision (P x)} :
  votes_ok tr inflight -> votes_ok tr (filter P inflight).
Proof. intros Hv rid e vk mask [He _]%map_lookup_filter_Some. by apply Hv. Qed.

Lemma sendBus_inflight c now : c_paused c = false ->
  c_rInflight (sendBus c now).1 = (foldl (board now) (c_rInflight c, []) (c_retry c ++ c_pending c)).1.
Proof.
  intros Hp. unfold sendBus. rewrite Hp. rsimpl.
  destruct (foldl _ _ _) as [inflight reqs] eqn:E. by rsimpl.
Qed.

Lemma reqTimeout_votes tr c now wall :
  votes_ok tr (c_rInflight c) -> votes_ok tr (c_rInflight (reqTimeoutLoop c now wall)).
Proof.
  intros H. unfold reqTimeoutLoop. destruct (negb _); [done|]. rsimpl. apply fmap_votes; [|done].
  intros e. by destruct (timed_out _ _ _); rsimpl.
Qed.

Lemma janitor_votes tr c now :
  votes_ok tr (c_rInflight c) -> votes_ok tr (c_rInflight (janitorLoop c now)).
Proof. intros H. unfold janitorLoop. rsimpl. by apply filter_votes. Qed.

Lemma sendBus_votes tr c now :
  votes_ok tr (c_rInflight c) -> votes_ok tr (c_rInflight (sendBus c now).1).
Proof.
  intros H. destruct (c_paused c) eqn:E.
  - unfold sendBus. by rewrite E.
  - rewrite sendBus_inflight by done. by apply board_votes.
Qed.

(** the steps that leave the requests in flight alone *)
Ltac inflight_same := solve [step_cases; done].

Lemma vote_inv_step tr s evs s' : vote_inv tr s -> client_step s evs s' -> vote_inv (tr ++ evs) s'.
Proof.
  intros [Hv Hc] Hstep. destruct (client_step_config _ _ _ Hstep) as [Hcfg _].
  unfold vote_inv. rewrite Hcfg. destruct Hstep;
    try solve [split; [apply votes_ok_app | apply commits_ok_app; [done | set_solver]];
               match goal with |- votes_ok _ ?a => replace a with (c_rInflight (k_c s));
                 [done | step_cases; done] end].
  - destruct (handleRequestReply_votes tr
      (GotReply m :: if committed then [Committed (rr_RequestId m)] else []) (k_c s) m now)
      as [H1 H2]; [done|set_solver|].
    rewrite H in H1, H2. cbn [fst snd] in H1, H2. rsimpl. split; [done|].
    intros rid [Hr|[|Hr]%elem_of_cons]%elem_of_app; [|done|].
    + destruct (Hc rid Hr) as (vk & q & Hq). exists vk, q. by apply vouched_app.
    + destruct committed; [|by apply elem_of_nil in Hr].
      apply list_elem_of_singleton in Hr as [= ->]. by apply H2.
  - split; [apply votes_ok_app|apply commits_ok_app; [done|destruct more; set_solver]].
    replace (c_rInflight _) with (c_rInflight (k_c s)); [done|step_cases; done].
  - pose proof (sendBus_votes tr ((k_c s) <| c_arrivalNs := next |>) now) as Hs.
    rewrite H1 in Hs. rsimpl in Hs. specialize (Hs Hv). cbn [fst] in Hs. rsimpl.
    split; [by apply votes_ok_app|apply commits_ok_app; [done|destruct sent; set_solver]].
  - rsimpl. split; [by apply votes_ok_app, reqTimeout_votes|by apply commits_ok_app; [|set_solver]].
  - rsimpl. split; [by apply votes_ok_app, janitor_votes|by apply commits_ok_app; [|set_solver]].
Qed.

(** ** Views *)

(** replica [i] said it is in normal operation in [view] *)
Definition reported_normal (tr : list event) (view i : Z) : Prop :=
  exists m, GotControl m ∈ tr /\ cc_ReplicaIdx m = i /\ cc_Normal m = true /\ cc_ViewId m = view.

(** a quorum with the leader said so *)
Definition view_confirmed_by (tr : list event) (config : Config) (view : Z) (q : gset Z) : Prop :=
  QuorumSize config <= Z.of_nat (size q) /\ LeaderIndex config view ∈ q /\
  forall i, i ∈ q -> 0 <= i < cfg_N config /\ reported_normal tr view i.

Definition status_ok (tr : list event) (status : list clientControlMessage) : Prop :=
  forall i m, status !! i = Some m -> cc_Normal m = true ->
    GotControl m ∈ tr /\ cc_ReplicaIdx m = Z.of_nat i.

Record pause_inv (tr : list event) (s : ClientRun) : Prop := {
  pi_config : config_ok (c_config (k_c s));
  pi_active : c_paused (k_c s) = false -> c_pauseView (k_c s) <= c_activeView (k_c s);
  pi_paused : c_paused (k_c s) = true -> c_activeView (k_c s) < c_pauseView (k_c s);
  pi_before : c_startupComplete (k_c s) = false ->
    c_paused (k_c s) = false /\ c_pauseView (k_c s) = 0 /\ c_activeView (k_c s) = 0 /\
    k_pauses s = [];
  pi_replies : Forall (fun m => 0 <= hr_ViewId m) (c_handshakeReplies (k_c s));
  pi_length : Zlength (c_controlStatus (k_c s)) = cfg_N (c_config (k_c s));
  pi_status : status_ok tr (c_controlStatus (k_c s));
  pi_hint : c_viewHint (k_c s) <> 0 ->
    exists q, view_confirmed_by tr (c_config (k_c s)) (c_viewHint (k_c s)) q }.

Lemma reported_app tr evs view i : reported_normal tr view i -> reported_normal (tr ++ evs) view i.
Proof. intros (m & ? & H). exists m. split; [set_solver|done]. Qed.

Lemma view_confirmed_by_app tr evs config view q :
  view_confirmed_by tr config view q -> view_confirmed_by (tr ++ evs) config view q.
Proof.
  intros (? & ? & H). split_and!; [done|done|]. intros i Hi. destruct (H i Hi). split; [done|].
  by apply reported_app.
Qed.

Lemma status_ok_app tr evs status : status_ok tr status -> status_ok (tr ++ evs) status.
Proof. intros H i m Hi Hn. destruct (H i m Hi Hn). split; [set_solver|done]. Qed.

(** the replicas whose last report is normal in [view] *)
Definition normal_set (status : list clientControlMessage) (view : Z) : gset Z :=
  list_to_set (cc_ReplicaIdx <$> filter (fun m => normal_in view m = true) status).

Lemma normal_reports tr status view :
  status_ok tr status ->
  NoDup (cc_ReplicaIdx <$> filter (fun m => normal_in view m = true) status).
Proof.
  intros Hs. assert (Hgen : forall l k,
    (forall i m, l !! i = Some m -> cc_Normal m = true -> cc_ReplicaIdx m = Z.of_nat (k + i)) ->
    NoDup (cc_ReplicaIdx <$> filter (fun m => normal_in view m = true) l) /\
    forall x, x ∈ cc_ReplicaIdx <$> filter (fun m => normal_in view m = true) l -> Z.of_nat k <= x).
  { induction l as [|m l IH]; intros k Hl; [split; [constructor|by intros x ?%elem_of_nil]|].
    destruct (IH (S k)) as [IH1 IH2].
    { intros i m' Hi Hn. rewrite (Hl (S i) m' Hi Hn). lia. }
    rewrite filter_cons. case_decide as Hn.
    - assert (Hm : cc_ReplicaIdx m = Z.of_nat k).
      { rewrite (Hl 0%nat m eq_refl); [lia|]. unfold normal_in in Hn. by destruct (cc_Normal m). }
      rewrite fmap_cons. split.
      + constructor; [|done]. intros Hx%IH2. lia.
      + intros x [->|Hx%IH2]%elem_of_cons; lia.
    - split; [done|]. intros x Hx%IH2. lia. }
  apply (Hgen status 0%nat). intros i m Hi Hn. by apply Hs.
Qed.

Lemma view_confirmed_spec tr c status view :
  config_ok (c_config c) -> Zlength status = cfg_N (c_config c) -> status_ok tr status ->
  view_confirmed c status view = true ->
  view_confirmed_by tr (c_config c) view (normal_set status view).
Proof.
  intros Hcfg Hlen Hs [Hq Hl]%andb_true_iff. apply Z.leb_le in Hq.
  pose proof (normal_reports tr status view Hs) as Hnd. unfold view_confirmed_by, normal_set.
  rewrite size_list_to_set by done. rewrite length_fmap. split_and!; [done| |].
  - destruct (status !! _) as [m|] eqn:Em; [|done].
    assert (cc_Normal m = true) as Hn by (unfold normal_in in Hl; by destruct (cc_Normal m)).
    destruct (Hs _ _ Em Hn) as [_ Hi]. apply elem_of_list_to_set, list_elem_of_fmap. exists m. split.
    { rewrite Hi, Z2Nat.id; [done|]. apply LeaderIndex_range; done. }
    apply list_elem_of_filter. split; [done|]. by eapply list_elem_of_lookup_2.
  - intros i. rewrite elem_of_list_to_set, list_elem_of_fmap.
    intros (m & -> & (Hn & [k Hk]%list_elem_of_lookup_1)%list_elem_of_filter).
    unfold normal_in in Hn. apply andb_true_iff in Hn as [Hn Hv%Z.eqb_eq].
    destruct (Hs _ _ Hk Hn) as [Hin Hi]. apply lookup_lt_Some in Hk. split; [lia|].
    exists m. done.
Qed.

Lemma better_hints_spec c status l best :
  let best' := foldl (better_hint c status) best l in
  best <= best' /\ (best' = best \/ view_confirmed c status best' = true).
Proof.
  revert best. induction l as [|m l IH]; intros best; [cbn; split; [lia|by left]|].
  cbn [foldl]. unfold better_hint at 2 4 6. cbv zeta.
  destruct (Z.leb_spec (cc_ViewId m) best) as [|Hlt]; [apply IH|].
  destruct (view_confirmed c status (cc_ViewId m)) eqn:E; [|apply IH].
  destruct (IH (cc_ViewId m)) as [IH1 IH2]. split; [lia|]. right.
  destruct IH2 as [->|IH2]; done.
Qed.

Lemma best_hint_spec c status hint :
  hint <= best_hint c status hint /\
  (best_hint c status hint = hint \/ view_confirmed c status (best_hint c status hint) = true).
Proof. apply better_hints_spec. Qed.

(** a control message from replica [cc_ReplicaIdx m] *)
Lemma control_hint_inv tr s m c' canPause :
  pause_inv tr s -> 0 <= cc_ReplicaIdx m < cfg_N (c_config (k_c s)) ->
  control_hint (k_c s) m = (c', canPause) ->
  c_viewHint (k_c s) <= c_viewHint c' /\
  Zlength (c_controlStatus c') = cfg_N (c_config (k_c s)) /\
  status_ok (tr ++ [GotControl m]) (c_controlStatus c') /\
  (c_viewHint c' <> 0 -> exists q,
     view_confirmed_by (tr ++ [GotControl m]) (c_config (k_c s)) (c_viewHint c') q).
Proof.
  intros [Hcfg _ _ _ _ Hlen Hst Hhint] Hi. unfold control_hint.
  rewrite Hlen. rewrite (proj2 (Z.ltb_lt _ _)) by lia. intros [= <- <-]. rsimpl.
  set (status := <[Z.to_nat (cc_ReplicaIdx m) := m]> (c_controlStatus (k_c s))).
  assert (Hl' : Zlength status = cfg_N (c_config (k_c s))) by (unfold status; rewrite length_insert; done).
  assert (Hst' : status_ok (tr ++ [GotControl m]) status).
  { intros i m' Hm' Hn. unfold status in Hm'. apply list_lookup_insert_Some in Hm'.
    destruct Hm' as [(<- & <- & _)|[_ Hm']].
    - split; [set_solver|]. lia.
    - destruct (Hst i m' Hm' Hn). split; [set_solver|done]. }
  destruct (best_hint_spec (k_c s) status (c_viewHint (k_c s))) as [Hle Hb].
  split_and!; [done|done|done|]. intros Hne. destruct Hb as [Hb|Hb].
  - rewrite Hb in Hne |- *. destruct (Hhint Hne) as [q Hq]. exists q. by apply view_confirmed_by_app.
  - exists (normal_set status (best_hint (k_c s) status (c_viewHint (k_c s)))).
    by apply view_confirmed_spec.
Qed.

(** a granted window resumes a paused client in a view no older than the pause *)
Lemma schedule_reply_views s m :
  let c := k_c s in let c' := schedule_reply c (k_requests s) (k_leader s) m in
  (c_paused c' = c_paused c /\ c_activeView c' = c_activeView c) \/
  (c_paused c = true /\ c_paused c' = false /\ c_activeView c' = hr_ViewId m /\
   c_pauseView c <= hr_ViewId m).
Proof.
  cbv zeta. unfold schedule_reply, acceptHandshake.
  destruct (k_requests s !! _); [|by left].
  destruct (negb (reply_matches _ _ _)); [by left|]. destruct (_ && negb _); [by left|].
  destruct (negb (same_window _ _)); [by left|].
  destruct (Z.ltb_spec (hr_ViewId m) (c_pauseView (k_c s))); [by left|].
  destruct (Z.ltb_spec (hr_ViewId m) (c_viewHint (k_c s))); [by left|]. cbn [orb]. rsimpl.
  destruct (c_paused (k_c s)) eqn:E; [right|left]; cbn [andb]; rsimpl;
    destruct (Nat.ltb _ _); rsimpl; done.
Qed.

Lemma schedule_reply_queue c requests leader m m' :
  m' ∈ c_handshakeReplies (schedule_reply c requests leader m) ->
  m' ∈ c_handshakeReplies c \/ m' = m.
Proof. unfold schedule_reply, acceptHandshake. op_cases; rsimpl; set_solver. Qed.

Lemma pause_inv_same tr evs s s' :
  pause_inv tr s -> c_config (k_c s') = c_config (k_c s) ->
  c_paused (k_c s') = c_paused (k_c s) -> c_pauseView (k_c s') = c_pauseView (k_c s) ->
  c_activeView (k_c s') = c_activeView (k_c s) -> c_viewHint (k_c s') = c_viewHint (k_c s) ->
  c_startupComplete (k_c s') = c_startupComplete (k_c s) -> k_pauses s' = k_pauses s ->
  c_handshakeReplies (k_c s') = c_handshakeReplies (k_c s) ->
  c_controlStatus (k_c s') = c_controlStatus (k_c s) -> pause_inv (tr ++ evs) s'.
Proof.
  intros [] E1 E2 E3 E4 E5 E6 E7 E8 E9. constructor; rewrite ?E1, ?E2, ?E3, ?E4, ?E5, ?E6, ?E7, ?E8, ?E9;
    try done; [by apply status_ok_app|].
  intros Hne. destruct (pi_hint0 Hne) as [q Hq]. exists q. by apply view_confirmed_by_app.
Qed.

Lemma pause_inv_step tr s evs s' : pause_inv tr s -> client_step s evs s' -> pause_inv (tr ++ evs) s'.
Proof.
  intros Hinv Hstep. destruct Hstep;
    try solve [apply (pause_inv_same _ _ _ _ Hinv); step_cases; done].
  - destruct (control_hint_inv _ _ _ _ _ Hinv H1 H3) as (_ & Hl & Hs & Hh).
    destruct Hinv. unfold control_hint in H3. simplify_eq. rsimpl in *.
    constructor; rsimpl; try done. intros Hb. destruct (pi_before0 Hb) as (? & ? & ? & ?).
    rewrite Hb. done.
  - destruct Hinv. unfold pauseForView.
    destruct (c_startupComplete (k_c s)) eqn:Est;
      [|by destruct (pi_before0 eq_refl) as (_ & _ & _ & Hn); rewrite Hn in H; destruct l1].
    destruct (Z.leb_spec v (c_activeView (k_c s))); [|destruct (Z.leb_spec v (c_pauseView (k_c s)))];
      cbn [orb]; constructor; rsimpl; rewrite ?app_nil_r; try done; by rewrite Est.
  - destruct (schedule_reply_same (k_c s) (k_requests s) (k_leader s) m)
      as (E1 & _ & _ & _ & _ & E2 & E3 & E4 & E5 & _).
    pose proof (schedule_reply_views s m) as Hv. cbv zeta in Hv. destruct Hinv.
    constructor; rsimpl; rewrite ?E1, ?E2, ?E3, ?E4, ?E5; try done.
    + intros Hp. destruct Hv as [[Ep Ea]|(_ & _ & -> & Hle)]; [|done].
      rewrite Ea. apply pi_active0. by rewrite <- Ep.
    + intros Hp. destruct Hv as [[Ep Ea]|(_ & Hp' & _)]; [|by rewrite Hp in Hp'].
      rewrite Ea. apply pi_paused0. by rewrite <- Ep.
    + intros Hb. destruct (pi_before0 Hb) as (Hp & ? & ? & ?).
      destruct Hv as [[-> ->]|[Hp' _]]; [done|by rewrite Hp' in Hp].
    + apply Forall_forall. intros m' Hm'%schedule_reply_queue.
      destruct Hm' as [Hm'| ->]; [|by destruct H1].
      by apply (proj1 (Forall_forall _ _) pi_replies0).
    + by apply status_ok_app.
    + intros Hne. destruct (pi_hint0 Hne) as [q Hq]. exists q. by apply view_confirmed_by_app.
  - unfold await_one in H0. destruct (c_handshakeReplies (k_c s)) as [|m rest] eqn:Eq.
    { simplify_eq. apply (pause_inv_same _ _ _ _ Hinv); rsimpl; done. }
    destruct Hinv. destruct (pi_before0 H) as (? & ? & ? & ?).
    rewrite Eq in pi_replies0. apply Forall_cons in pi_replies0 as [Hm Hrest]. rewrite app_nil_r.
    destruct (_ <=? wall); simplify_eq; constructor; rsimpl; try done; intros; first [congruence | lia].
Qed.

(** the client's views never go back *)
Lemma client_views_step tr s evs s' : pause_inv tr s -> client_step s evs s' ->
  c_viewHint (k_c s) <= c_viewHint (k_c s') /\ c_pauseView (k_c s) <= c_pauseView (k_c s') /\
  c_activeView (k_c s) <= c_activeView (k_c s') /\
  (c_startupComplete (k_c s) = true -> c_startupComplete (k_c s') = true).
Proof.
  intros Hinv Hstep. destruct Hstep;
    try solve [step_cases; split_and!; first [done | lia]].
  - destruct (control_hint_inv _ _ _ _ _ Hinv H1 H3) as (Hle & _).
    unfold control_hint in H3. simplify_eq. rsimpl in *. split_and!; try done; lia.
  - destruct (schedule_reply_same (k_c s) (k_requests s) (k_leader s) m)
      as (_ & _ & _ & _ & _ & E2 & E3 & _ & E5 & _).
    rsimpl. rewrite E2, E3, E5. pose proof (schedule_reply_views s m) as Hv. cbv zeta in Hv.
    split_and!; try done; try lia. destruct Hv as [[_ ->]|(Hp & _ & -> & Hle)]; [lia|].
    pose proof (pi_paused _ _ Hinv Hp). lia.
  - destruct (pi_before _ _ Hinv H) as (_ & _ & Ha & _). pose proof (pi_replies _ _ Hinv) as Hr.
    unfold await_one in H0. destruct (c_handshakeReplies (k_c s)) as [|m rest].
    { simplify_eq. rsimpl. split_and!; done || lia. }
    apply Forall_cons in Hr as [Hm _].
    destruct (_ <=? wall); simplify_eq; rsimpl; split_and!; done || lia.
Qed.
