(* ===== verification/ClientPlan.v ===== *)
(** The client's schedule: the windows it was granted are well formed, and
    [nextBusArrival] finds the first arrival it may still send. *)
From Stdlib Require Import Sorting.Sorted.
From S2P Require Import Prelude WireBase Wire WireStream Config Lines Client ClientRun ClientInv.

(** the granted window as an entry of the replicas' schedule *)
Definition window_of (clientId : Z) (m : HsReply) : BusSyncMessage :=
  mkBusSyncMessage (hr_EndTime m) clientId (hr_StartTime m) (hr_IntervalMs m).

Definition windows_ok (c : Client) : Prop :=
  forall k m, c_windows c !! k = Some m ->
    hr_StartTime m = k /\ window_ok (window_of (c_clientId c) m).

(** ** One window *)

Lemma window_next_spec clientId m last :
  window_ok (window_of clientId m) -> hr_IntervalMs m <> 0 -> 0 <= last <= MaxInt64 ->
  match window_next (hr_StartTime m) m last with
  | ArrPanic => False
  | ArrNone => forall s, s ∈ window_arrivals (window_of clientId m) -> s <= last
  | ArrAt t => t ∈ window_arrivals (window_of clientId m) /\ last < t /\
               forall s, s ∈ window_arrivals (window_of clientId m) -> last < s -> t <= s
  end.
Proof.
  intros Hok Hi Hl. pose proof (window_step _ Hok Hi) as Hstep.
  pose proof (window_step_u64 _ Hok) as Hmul.
  assert (Hel : forall s, s ∈ window_arrivals (window_of clientId m) <->
    hr_StartTime m <= s < hr_EndTime m /\
    (s - hr_StartTime m) mod (hr_IntervalMs m * msNs) = 0).
  { intros s. rewrite elem_of_window_arrivals by done. cbn. tauto. }
  destruct Hok as [_ H0 He _]. cbn [bs_FirstMsgNs bs_EndTime bs_IntervalMs window_of] in *.
  unfold window_next. destruct (Z.leb_spec (hr_StartTime m) last) as [Hs|Hs].
  - change 1000000 with msNs. rewrite Hmul.
    set (k := hr_IntervalMs m * msNs) in *. clearbody k.
    destruct (Z.eqb_spec k 0); [lia|].
    set (start := hr_StartTime m) in *.
    replace (sub64 last start) with (last - start) by (unfold sub64; rewrite u64_small; [done|word_lia]).
    set (q := (last - start) / k).
    assert (0 <= q) by (apply Z.div_pos; lia).
    assert (Hq : k * q <= last - start < k * q + k).
    { pose proof (Z.div_mod (last - start) k ltac:(lia)).
      pose proof (Z.mod_pos_bound (last - start) k ltac:(lia)). unfold q. lia. }
    assert (q <= last - start) by nia.
    replace (add64 q 1) with (q + 1) by (unfold add64; rewrite u64_small; [done|word_lia]).
    replace (mul64 (q + 1) k) with ((q + 1) * k) by (unfold mul64; rewrite u64_small; [done|word_lia]).
    replace (add64 start ((q + 1) * k)) with (start + (q + 1) * k)
      by (unfold add64; rewrite u64_small; [done|word_lia]).
    assert (Hnext : forall s, start <= s -> (s - start) mod k = 0 -> last < s ->
              start + (q + 1) * k <= s).
    { intros s Hs1 Hs2 Hs3. apply Z.div_exact in Hs2; [|lia].
      set (d := (s - start) / k) in *. assert (q < d) by nia. nia. }
    destruct (Z.leb_spec (hr_EndTime m) (start + (q + 1) * k)).
    + intros s (Hb & Hm)%Hel. destruct (decide (last < s)); [|lia].
      specialize (Hnext s ltac:(lia) Hm ltac:(lia)). lia.
    + split_and!; [apply Hel; split; [lia|]|nia|].
      * replace (start + (q + 1) * k - start) with ((q + 1) * k) by lia. apply Z.mod_mul. lia.
      * intros s (Hb & Hm)%Hel Hls. apply Hnext; [lia|done|done].
  - destruct (Z.leb_spec (hr_EndTime m) (hr_StartTime m)); [lia|].
    split_and!; [apply Hel; split; [lia|]|done|].
    + rewrite Z.sub_diag. apply Z.mod_0_l. lia.
    + intros s (Hb & _)%Hel. lia.
Qed.

(** ** All windows *)

(** [t] may be sent after [last]: a window in use, already open at [now],
    schedules it *)
Definition offered (c : Client) (now last : Z) (p : Z * HsReply) (t : Z) : Prop :=
  p.1 <= now /\ window_usable c p.2 = true /\
  t ∈ window_arrivals (window_of (c_clientId c) p.2) /\ last < t.

Definition least_offer (c : Client) (now last : Z) (ps : Z * HsReply -> Prop) (next : option Z) : Prop :=
  match next with
  | Some t => (exists p, ps p /\ offered c now last p t) /\
              forall p s, ps p -> offered c now last p s -> t <= s
  | None => forall p s, ps p -> ~ offered c now last p s
  end.

Lemma nba_window_spec c now last ps next start m :
  hr_StartTime m = start -> window_ok (window_of (c_clientId c) m) -> 0 <= last <= MaxInt64 ->
  least_offer c now last ps next ->
  exists next', nba_window c now last (Some next) (start, m) = Some next' /\
    least_offer c now last (fun p => p = (start, m) \/ ps p) next'.
Proof.
  intros Hst Hok Hl Hnext. unfold nba_window. cbn [mbind option_bind].
  assert (Hskip : (forall s, ~ offered c now last (start, m) s) ->
            least_offer c now last (fun p => p = (start, m) \/ ps p) next).
  { intros Hno. destruct next as [t|]; cbn in *.
    - destruct Hnext as [(p & Hp & Ho) Hleast]. split; [exists p; auto|].
      intros p' s [->|Hp'] Hs; [by destruct (Hno s)|by eapply Hleast].
    - intros p' s [->|Hp']; [apply Hno|by apply Hnext]. }
  destruct (window_considered c now start) eqn:Econ; cbn [andb negb].
  2:{ exists next. split; [done|]. apply Hskip. intros s (Hs & _). cbn in Hs.
      unfold window_considered in Econ. destruct (Z.ltb_spec now start); [lia|done]. }
  unfold window_considered in Econ. destruct (Z.ltb_spec now start) as [|Hnow]; [done|].
  destruct (window_usable c m) eqn:Eu; cbn [negb].
  2:{ exists next. split; [done|]. apply Hskip. intros s (_ & Hs & _). cbn in Hs. congruence. }
  assert (Hi : hr_IntervalMs m <> 0).
  { unfold window_usable in Eu. by destruct (Z.eqb_spec (hr_IntervalMs m) 0). }
  pose proof (window_next_spec _ m last Hok Hi Hl) as Hw. rewrite Hst in Hw.
  destruct (window_next start m last) as [| |t].
  - done.
  - exists next. split; [done|]. apply Hskip. intros s (_ & _ & Hs & Hls). cbn in Hs.
    specialize (Hw s Hs). lia.
  - destruct Hw as (Hin & Hlt & Hle). assert (Hoff : offered c now last (start, m) t) by done.
    destruct next as [n|]; cbn in Hnext.
    + destruct Hnext as [(p & Hp & Ho) Hleast].
      destruct (Z.ltb_spec t n) as [Hn|Hn]; eexists; (split; [done|]); split; eauto;
        (intros p' s [->|Hp'] Hs; [destruct Hs as (_ & _ & Hs & Hls); specialize (Hle s Hs Hls); lia|
         specialize (Hleast p' s Hp' Hs); lia]).
    + eexists. split; [done|]. split; [eauto|].
      intros p' s [->|Hp'] Hs; [destruct Hs as (_ & _ & Hs & Hls); by apply Hle|by destruct (Hnext p' s)].
Qed.

Lemma nba_windows_spec c now last l : forall ps next,
  (forall start m, (start, m) ∈ l -> hr_StartTime m = start /\ window_ok (window_of (c_clientId c) m)) ->
  0 <= last <= MaxInt64 -> least_offer c now last ps next ->
  exists next', foldl (nba_window c now last) (Some next) l = Some next' /\
    least_offer c now last (fun p => p ∈ l \/ ps p) next'.
Proof.
  induction l as [|[start m] l IH]; intros ps next Hl Hlast Hnext.
  { exists next. split; [done|]. destruct next as [t|]; cbn in *.
    - destruct Hnext as [(p & Hp & Ho) Hle]. split; [eauto|].
      intros p' s [?%elem_of_nil|Hp']; [done|by apply Hle].
    - intros p' s [?%elem_of_nil|Hp']; [done|by apply Hnext]. }
  cbn [foldl]. destruct (Hl start m ltac:(set_solver)) as [Hst Hok].
  destruct (nba_window_spec c now last ps next start m Hst Hok Hlast Hnext) as (n1 & -> & H1).
  destruct (IH _ n1 (fun st m' Hin => Hl st m' (list_elem_of_further _ _ _ Hin)) Hlast H1)
    as (n2 & -> & H2).
  exists n2. split; [done|]. destruct n2 as [t|]; cbn in *.
  - destruct H2 as [(p & Hp & Ho) Hle]. split; [exists p; split; [set_solver|done]|].
    intros p' s Hp' Hs. eapply Hle; [|exact Hs]. set_solver.
  - intros p' s Hp'. apply H2. set_solver.
Qed.

(** [nextBusArrival] never panics on well-formed windows and returns the first
    arrival the client may send after [last] *)
Lemma nextBusArrival_spec c now last :
  windows_ok c -> 0 <= last <= MaxInt64 ->
  exists c' next, nextBusArrival c now last = Some (c', next) /\
    least_offer c now last (fun p => c_windows c !! p.1 = Some p.2) next /\
    c' = c <| c_windows := filter (fun p => window_dropped c now last p.1 p.2 = false) (c_windows c) |>.
Proof.
  intros Hok Hl.
  destruct (nba_windows_spec c now last (map_to_list (c_windows c)) (fun _ => False) None)
    as (next & Hf & Hn); [|done|by intros p s []|].
  { intros start m Hin%elem_of_map_to_list. by apply Hok. }
  exists (c <| c_windows := filter (fun p => window_dropped c now last p.1 p.2 = false) (c_windows c) |>), next.
  unfold nextBusArrival. rewrite Hf. split_and!; [done| |done].
  destruct next as [t|]; cbn in *.
  - destruct Hn as [([k m] & [Hin|[]] & Ho) Hle]. apply elem_of_map_to_list in Hin.
    split; [by exists (k, m)|]. intros [k' m'] s Hp. apply Hle. left. by apply elem_of_map_to_list.
  - intros [k m] s Hp. apply Hn. left. by apply elem_of_map_to_list.
Qed.

(** a window that is forgotten is over and offers nothing more *)
Lemma window_dropped_spec c now last k m :
  hr_StartTime m = k -> window_ok (window_of (c_clientId c) m) -> 0 <= last <= MaxInt64 ->
  window_dropped c now last k m = true ->
  hr_EndTime m <= now /\ forall t, ~ offered c now last (k, m) t.
Proof.
  intros Hk Hok Hl. unfold window_dropped.
  intros [[_ He%Z.leb_le]%andb_true_iff Hd]%andb_true_iff. split; [done|].
  intros t (_ & Hu & Ht & Hlt). cbn in Hu, Ht. rewrite Hu in Hd. cbn in Hd.
  assert (Hi : hr_IntervalMs m <> 0).
  { unfold window_usable in Hu. by destruct (Z.eqb_spec (hr_IntervalMs m) 0). }
  pose proof (window_next_spec _ m last Hok Hi Hl) as Hw. rewrite Hk in Hw.
  destruct (window_next k m last); [done| |done]. specialize (Hw t Ht). lia.
Qed.

(** ** The invariant *)

Definition interval_ok (intervalMs : Z) : Prop := 0 <= intervalMs <= MaxInt64 / msNs.

(** the buses sent, by arrival *)
Definition sent_seqs (tr : list event) : list Z :=
  omap (fun ev => match ev with Sent msg => Some (bm_BusSeqNum msg) | _ => None end) tr.

(** the leader granted a window with an arrival at [t] *)
Definition granted (tr : list event) (clientId t : Z) : Prop :=
  exists m, GotHandshake m ∈ tr /\ window_ok (window_of clientId m) /\
            t ∈ window_arrivals (window_of clientId m).

Record request_ok (c : Client) (start : Z) (req : HsRequest) : Prop := {
  rok_start : hs_StartTime req = start;
  rok_range : 0 <= start /\ start + ScheduleWindow (c_config c) < W64;
  rok_interval : interval_ok (hs_IntervalMs req) }.

Record plan_inv (tr : list event) (s : ClientRun) : Prop := {
  pl_config : config_ok (c_config (k_c s));
  pl_client : is_u64 (c_clientId (k_c s));
  pl_desired : interval_ok (c_desiredInterval (k_c s));
  pl_start : 0 <= c_scheduleStart (k_c s) <= MaxInt64;
  pl_requests : forall start req, k_requests s !! start = Some req -> request_ok (k_c s) start req;
  pl_submitted : forall start ivs iv,
    c_submitted (k_c s) !! start = Some ivs -> iv ∈ ivs -> interval_ok iv;
  pl_windows : windows_ok (k_c s);
  pl_granted : forall start m, c_windows (k_c s) !! start = Some m -> GotHandshake m ∈ tr;
  pl_last : 0 <= k_last s <= MaxInt64;
  pl_pick : forall t, k_pick s = Some t ->
    k_last s < t <= MaxInt64 /\ granted tr (c_clientId (k_c s)) t;
  pl_sent : forall msg, Sent msg ∈ tr ->
    bm_ClientId msg = c_clientId (k_c s) /\ bm_BusSeqNum msg <= k_last s /\
    granted tr (c_clientId (k_c s)) (bm_BusSeqNum msg);
  pl_order : StronglySorted Z.lt (sent_seqs tr) }.

Lemma granted_app tr evs clientId t : granted tr clientId t -> granted (tr ++ evs) clientId t.
Proof. intros (m & ? & H). exists m. split; [set_solver|done]. Qed.

Definition quiet (evs : list event) : Prop := forall msg, Sent msg ∉ evs.

Lemma sent_seqs_quiet tr evs : quiet evs -> sent_seqs (tr ++ evs) = sent_seqs tr.
Proof.
  intros Hq. unfold sent_seqs. rewrite omap_app.
  assert (E : omap (fun ev => match ev with Sent msg => Some (bm_BusSeqNum msg) | _ => None end) evs = []);
    [|by rewrite E, app_nil_r].
  induction evs as [|ev evs IH]; [done|]. destruct ev; cbn;
    try (apply IH; intros msg' H; by apply (Hq msg'), list_elem_of_further).
  exfalso. by apply (Hq msg), list_elem_of_here.
Qed.

(** the steps that leave the plan alone *)
Lemma plan_inv_same tr evs s s' :
  plan_inv tr s -> quiet evs ->
  c_config (k_c s') = c_config (k_c s) -> c_clientId (k_c s') = c_clientId (k_c s) ->
  c_desiredInterval (k_c s') = c_desiredInterval (k_c s) ->
  c_scheduleStart (k_c s') = c_scheduleStart (k_c s) -> k_requests s' = k_requests s ->
  c_submitted (k_c s') = c_submitted (k_c s) -> c_windows (k_c s') = c_windows (k_c s) ->
  k_last s' = k_last s -> k_pick s' = k_pick s -> plan_inv (tr ++ evs) s'.
Proof.
  intros [] Hq E1 E2 E3 E4 E5 E6 E7 E8 E9.
  constructor; unfold windows_ok in *; rewrite ?E1, ?E2, ?E3, ?E4, ?E5, ?E6, ?E7, ?E8, ?E9,
    ?sent_seqs_quiet by done; try done.
  - intros start req Hr. destruct (pl_requests0 start req Hr) as [? [] ?].
    constructor; rewrite ?E1; done.
  - intros start m Hm. apply elem_of_app. left. by eapply pl_granted0.
  - intros t Ht. destruct (pl_pick0 t Ht). split; [done|by apply granted_app].
  - intros msg [Hm|Hm]%elem_of_app; [|by destruct (Hq msg)].
    destruct (pl_sent0 msg Hm) as (? & ? & ?). split_and!; [done|done|by apply granted_app].
Qed.

Lemma scheduleTarget_range w now :
  0 < w -> 4 * w <= MaxInt64 -> is_wall now ->
  0 <= scheduleTarget now w /\ now < scheduleTarget now w /\
  scheduleTarget now w + w < W64 /\ scheduleTarget now w mod w = 0.
Proof.
  intros Hw H4 [H0 H1]. unfold scheduleTarget. rewrite Z.quot_div_nonneg by lia.
  pose proof (Z.div_mod now w ltac:(lia)). pose proof (Z.mod_pos_bound now w Hw).
  assert (0 <= now / w) by (apply Z.div_pos; lia).
  assert ((now / w + 2) * w = now - now mod w + 2 * w) as E by nia.
  rewrite u64_small by (rewrite E; word_lia). split_and!; [word_lia|word_lia|word_lia|].
  rewrite Z.mod_mul; lia.
Qed.

Lemma target_ok tr s wall : plan_inv tr s -> is_wall wall ->
  0 <= scheduleRequestTarget (k_c s) wall /\
  scheduleRequestTarget (k_c s) wall + ScheduleWindow (c_config (k_c s)) < W64.
Proof.
  intros [] Hw. unfold scheduleRequestTarget.
  destruct (ScheduleWindow_range _ pl_config0) as [Hp H4].
  destruct (scheduleTarget_range _ _ Hp H4 Hw) as (H0 & _ & H2 & _).
  destruct (_ <? _); [word_lia|done].
Qed.

(** the window a reply is accepted for *)
Lemma accepted_window tr s m :
  plan_inv tr s -> is_u64 (hr_StartTime m) ->
  (acceptHandshake (k_c s) m (k_requests s) (k_leader s)).2 = true ->
  window_ok (window_of (c_clientId (k_c s)) m) /\
  c_windows (acceptHandshake (k_c s) m (k_requests s) (k_leader s)).1 =
    <[hr_StartTime m := m]> (c_windows (k_c s)).
Proof.
  intros [] Hu. unfold acceptHandshake.
  destruct (k_requests s !! hr_StartTime m) as [request|] eqn:Er; [|done].
  destruct (pl_requests0 _ _ Er) as [_ [Hr0 Hr1] Hri].
  destruct (reply_matches _ _ _) eqn:Em; [|done]. cbn [negb].
  destruct (_ && _) eqn:Ei; [done|]. destruct (negb (same_window _ _)); [done|].
  destruct (_ || _); [done|]. cbn [fst snd]. intros _. split; [|by destruct (c_paused _); rsimpl].
  unfold reply_matches in Em. rewrite !andb_true_iff in Em. destruct Em as [[_ He%Z.eqb_eq] Hm%Z.leb_le].
  destruct (ScheduleWindow_range _ pl_config0) as [Hp H4].
  assert (u64 (ScheduleWindow (c_config (k_c s))) = ScheduleWindow (c_config (k_c s))) as Ew
    by (apply u64_small; word_lia).
  rewrite Ew in He. unfold add64 in He. rewrite u64_small in He by (word_lia).
  constructor; cbn; [done|lia|lia|].
  apply andb_false_iff in Ei as [Ei%negb_false_iff%Z.eqb_eq|Ei%negb_false_iff].
  - rewrite Ei. apply Hri.
  - unfold submitted in Ei. apply bool_decide_eq_true in Ei.
    destruct (c_submitted (k_c s) !! hr_StartTime m) as [ivs|] eqn:Es; [by eapply pl_submitted0|].
    by apply elem_of_empty in Ei.
Qed.

Lemma schedule_reply_windows c requests leader m :
  c_windows (schedule_reply c requests leader m) =
  c_windows (acceptHandshake c m requests leader).1.
Proof.
  unfold schedule_reply. destruct (acceptHandshake c m requests leader) as [c' ok].
  cbn [fst]. by destruct (_ && _); rsimpl.
Qed.

Lemma acceptHandshake_rejects c m requests leader :
  (acceptHandshake c m requests leader).2 = false -> (acceptHandshake c m requests leader).1 = c.
Proof. unfold acceptHandshake. op_cases; done. Qed.

(** a handshake reply *)
Lemma plan_inv_reply tr s m :
  plan_inv tr s -> is_u64 (hr_StartTime m) ->
  plan_inv (tr ++ [GotHandshake m])
    (s <| k_c := schedule_reply (k_c s) (k_requests s) (k_leader s) m |>).
Proof.
  intros Hinv Hu.
  destruct (schedule_reply_same (k_c s) (k_requests s) (k_leader s) m)
    as (E1 & E2 & _ & _ & _ & _ & _ & _ & _ & E3 & E4 & _ & E5).
  assert (Hq : quiet [GotHandshake m]) by (intros msg; set_solver).
  destruct (acceptHandshake (k_c s) m (k_requests s) (k_leader s)).2 eqn:Ea.
  2:{ apply (plan_inv_same _ _ _ _ Hinv Hq); rsimpl; try done.
      by rewrite schedule_reply_windows, acceptHandshake_rejects. }
  destruct (accepted_window tr s m Hinv Hu Ea) as [Hok Ew]. destruct Hinv.
  constructor; unfold windows_ok; rsimpl;
    rewrite ?E1, ?E2, ?E3, ?E4, ?E5, ?schedule_reply_windows, ?Ew, ?sent_seqs_quiet by done; try done.
  - intros start req Hr. destruct (pl_requests0 start req Hr) as [? [] ?].
    constructor; rewrite ?E1; done.
  - intros k m'. rewrite lookup_insert_Some. intros [[<- <-]|[_ Hm]]; [done|by apply pl_windows0].
  - intros k m'. rewrite lookup_insert_Some.
    intros [[<- <-]|[_ Hm%pl_granted0]]; set_solver.
  - intros t Ht. destruct (pl_pick0 t Ht). split; [done|by apply granted_app].
  - intros msg [Hm|Hm]%elem_of_app; [|by destruct (Hq msg)].
    destruct (pl_sent0 msg Hm) as (? & ? & ?). split_and!; [done|done|by apply granted_app].
Qed.

(** a pick is a later arrival of a granted window *)
Lemma plan_inv_pick tr s wall c' next :
  plan_inv tr s -> busLoop_pick (k_c s) (k_last s) wall = Some (c', next) ->
  plan_inv tr (s <| k_c := c' |> <| k_pick := next |>).
Proof.
  intros Hinv Hp. unfold busLoop_pick in Hp. pose proof Hinv as [].
  destruct (nextBusArrival_spec (k_c s) (u64 (wall + c_maxOwdNs (k_c s))) (k_last s))
    as (c1 & n1 & Hn & Hl & Hc); [done..|].
  rewrite Hp in Hn. simplify_eq.
  constructor; unfold windows_ok; rsimpl; try done.
  - intros start req Hr. destruct (pl_requests0 start req Hr) as [? [] ?].
    constructor; rsimpl; done.
  - intros k m [Hm _]%map_lookup_filter_Some. by apply pl_windows0.
  - intros k m [Hm _]%map_lookup_filter_Some. by eapply pl_granted0.
  - intros t ->. cbn in Hl. destruct Hl as [([k m] & Hkm & (_ & _ & Ht & Hlt)) _]. cbn in Hkm, Ht.
    destruct (pl_windows0 k m Hkm) as [_ Hok].
    pose proof (window_arrivals_bounds _ _ Hok Ht) as Hb. destruct Hok as [? ? He ?] eqn:Eok.
    split; [lia|]. exists m. split_and!; [by eapply pl_granted0|done|done].
Qed.

Lemma sendBus_plan c now c' sent : sendBus c now = (c', sent) ->
  c_config c' = c_config c /\ c_clientId c' = c_clientId c /\
  c_desiredInterval c' = c_desiredInterval c /\ c_scheduleStart c' = c_scheduleStart c /\
  c_submitted c' = c_submitted c /\ c_windows c' = c_windows c /\
  match sent with
  | Some msg => c_paused c = false /\ bm_ClientId msg = c_clientId c /\ bm_BusSeqNum msg = c_arrivalNs c
  | None => c_paused c = true
  end.
Proof.
  unfold sendBus. destruct (c_paused c) eqn:E; [by intros [= <- <-]|]. rsimpl.
  destruct (foldl _ _ _) as [inflight reqs]. intros [= <- <-]. rsimpl. done.
Qed.

Lemma SetBusInterval_ok c intervalMs c' :
  0 <= intervalMs -> SetBusInterval c intervalMs = Some c' ->
  interval_ok intervalMs /\ c' = c <| c_desiredInterval := intervalMs |>.
Proof.
  intros H0. unfold SetBusInterval. destruct (Z.ltb_spec (Z.quot MaxInt64 1000000) intervalMs); [done|].
  intros [= <-]. split; [|done]. unfold interval_ok, msNs, MaxInt64 in *.
  rewrite Z.quot_div_nonneg in * by lia. lia.
Qed.

(** the target of a round is asked for at the desired interval, or not at all *)
Lemma plan_inv_target tr s wall c' interval :
  plan_inv tr s -> is_wall wall ->
  scheduleInterval (k_c s) (scheduleRequestTarget (k_c s) wall) = (c', interval) ->
  plan_inv tr (s <| k_c := c' |> <| k_requests ::=
    <[scheduleRequestTarget (k_c s) wall :=
        mkHsRequest (c_clientId (k_c s)) (scheduleRequestTarget (k_c s) wall) interval]> |>).
Proof.
  intros Hinv Hw Hi. pose proof (target_ok tr s wall Hinv Hw) as Ht.
  set (target := scheduleRequestTarget _ _) in *. clearbody target.
  assert (Hint : interval_ok interval).
  { unfold scheduleInterval in Hi. destruct Hinv.
    destruct (c_firstSchedule (k_c s) =? 0); destruct (_ && _); simplify_eq; rsimpl;
      try done; unfold interval_ok, MaxInt64, msNs; lia. }
  assert (Ec : c_config c' = c_config (k_c s) /\ c_clientId c' = c_clientId (k_c s) /\
    c_desiredInterval c' = c_desiredInterval (k_c s) /\
    c_scheduleStart c' = c_scheduleStart (k_c s) /\ c_submitted c' = c_submitted (k_c s) /\
    c_windows c' = c_windows (k_c s)).
  { unfold scheduleInterval in Hi.
    destruct (c_firstSchedule (k_c s) =? 0); destruct (_ && _); simplify_eq; rsimpl; done. }
  destruct Ec as (E1 & E2 & E3 & E4 & E5 & E6). destruct Hinv.
  constructor; unfold windows_ok; rsimpl; rewrite ?E1, ?E2, ?E3, ?E4, ?E5, ?E6; try done.
  intros start req. rewrite lookup_insert_Some. intros [[<- <-]|[_ Hr]].
  - constructor; rsimpl; rewrite ?E1; done.
  - destruct (pl_requests0 start req Hr) as [? [] ?]. constructor; rsimpl; rewrite ?E1; done.
Qed.

(** what is written was asked for *)
Lemma plan_inv_request tr s wall start req write_ok c' requests sent connected :
  plan_inv tr s -> k_requests s !! start = Some req ->
  round_request (k_view s) wall write_ok (k_c s, k_requests s, [], true) (start, req) =
    (c', requests, sent, connected) ->
  plan_inv tr (s <| k_c := c' |> <| k_requests := requests |>).
Proof.
  intros Hinv Hr. pose proof (rok_interval _ _ _ (pl_requests _ _ Hinv _ _ Hr)) as Hint.
  unfold round_request. cbn [negb].
  destruct (_ <=? u64 wall).
  { intros [= <- <- _ _]. destruct Hinv. constructor; unfold windows_ok; rsimpl; try done.
    - intros k q [_ Hq]%lookup_delete_Some. destruct (pl_requests0 k q Hq). constructor; rsimpl; done.
    - intros k ivs iv [_ Hs]%lookup_delete_Some. by eapply pl_submitted0. }
  destruct (match c_windows (k_c s) !! start with Some _ => _ | None => _ end).
  { intros [= <- <- _ _]. destruct Hinv. by constructor; unfold windows_ok; rsimpl. }
  destruct (write_ok start); intros [= <- <- _ _]; destruct Hinv;
    (constructor; unfold windows_ok; rsimpl; try done;
      try (intros k q Hq; destruct (pl_requests0 k q Hq); constructor; rsimpl; done)).
  intros k ivs iv. rewrite lookup_insert_Some. intros [[<- <-]|[_ Hs]]; [|by eapply pl_submitted0].
  intros [Hiv| ->%elem_of_singleton]%elem_of_union; [|done].
  destruct (c_submitted (k_c s) !! start) as [ivs|] eqn:Es; [by eapply pl_submitted0|].
  by apply elem_of_empty in Hiv.
Qed.

Lemma StronglySorted_snoc (l : list Z) x :
  StronglySorted Z.lt l -> Forall (fun y => y < x) l -> StronglySorted Z.lt (l ++ [x]).
Proof.
  induction 1 as [|y l Hl IH Hy]; intros Hx; [repeat constructor|].
  apply Forall_cons in Hx as [Hyx Hx]. cbn. constructor; [by apply IH|].
  apply Forall_app. split; [done|]. by repeat constructor.
Qed.

(** a bus sent is the arrival picked *)
Lemma plan_inv_send tr s next now c' sent :
  plan_inv tr s -> k_pick s = Some next ->
  sendBus ((k_c s) <| c_arrivalNs := next |>) now = (c', sent) ->
  plan_inv (tr ++ match sent with Some msg => [Sent msg] | None => [] end)
    (s <| k_c := c' |> <| k_last := next |> <| k_pick := None |>).
Proof.
  intros Hinv Hp Hsend. apply sendBus_plan in Hsend as (E1 & E2 & E3 & E4 & E5 & E6 & Hsent).
  rsimpl in *. destruct Hinv. destruct (pl_pick0 next Hp) as [Hlt Hg].
  assert (Hold : forall msg, Sent msg ∈ tr -> bm_BusSeqNum msg < next).
  { intros msg Hm. destruct (pl_sent0 msg Hm) as (_ & ? & _). lia. }
  constructor; unfold windows_ok; rsimpl; rewrite ?E1, ?E2, ?E3, ?E4, ?E5, ?E6; try done.
  - intros start req Hr. destruct (pl_requests0 start req Hr) as [? [] ?].
    constructor; rsimpl; rewrite ?E1; done.
  - intros start m Hm. apply elem_of_app. left. by eapply pl_granted0.
  - lia.
  - intros msg [Hm|Hm]%elem_of_app.
    + destruct (pl_sent0 msg Hm) as (? & ? & ?). split_and!; [done|lia|by apply granted_app].
    + destruct sent as [msg'|]; [|by apply elem_of_nil in Hm].
      apply list_elem_of_singleton in Hm as [= ->]. destruct Hsent as (_ & Hc & Hs).
      rewrite Hs, Hc. split_and!; [done|lia|by apply granted_app].
  - destruct sent as [msg|]; [|by rewrite app_nil_r]. destruct Hsent as (_ & _ & Hs).
    unfold sent_seqs. rewrite omap_app. cbn. rewrite Hs. apply StronglySorted_snoc; [done|].
    apply Forall_forall. intros x. rewrite list_elem_of_omap.
    intros (ev & Hev & Hx). destruct ev; simplify_eq. by apply Hold.
Qed.

Lemma plan_inv_step tr s evs s' : plan_inv tr s -> client_step s evs s' -> plan_inv (tr ++ evs) s'.
Proof.
  intros Hinv Hstep. destruct Hstep;
    try solve [apply (plan_inv_same _ _ _ _ Hinv);
      [try destruct committed; try destruct more; intros msg Hmsg; set_solver
      | step_cases; done ..]].
  - rewrite app_nil_r. subst target. by eapply plan_inv_target.
  - rewrite app_nil_r. by eapply plan_inv_request.
  - by apply plan_inv_reply.
  - rewrite app_nil_r. apply SetBusInterval_ok in H0 as [Hi ->]; [|done].
    destruct Hinv. constructor; unfold windows_ok; rsimpl; try done.
    intros start req Hr. destruct (pl_requests0 start req Hr) as [? [] ?].
    constructor; rsimpl; done.
  - rewrite app_nil_r. unfold SetScheduleStart in H.
    destruct (_ || _ || _ || _ || _) eqn:Eb; simplify_eq. rewrite !orb_false_iff in Eb.
    assert (Hs : 0 <= start <= MaxInt64)
      by (destruct Eb as [[[[_ _] Hm%Z.ltb_ge] _] _]; destruct H0; lia).
    destruct Hinv. constructor; unfold windows_ok; rsimpl; try done.
    intros k req Hr. destruct (pl_requests0 k req Hr) as [? [] ?]. constructor; rsimpl; done.
  - rewrite app_nil_r. by eapply plan_inv_pick.
  - rewrite app_nil_r. destruct Hinv. constructor; unfold windows_ok; rsimpl; try done.
  - by eapply plan_inv_send.
Qed.

(** * What the client has taken on is not lost: a generated request stays pending
    or in flight until it is committed, and a connection's sender writes what
    was handed to it, in order. *)

(** * Requests *)

Definition request_ids (reqs : list RequestMessage) : list Z := rq_RequestId <$> reqs.

(** [rid] waits for a bus or for its quorum *)
Definition outstanding (c : Client) (rid : Z) : Prop :=
  rid ∈ request_ids (c_pending c) \/ is_Some (c_rInflight c !! rid).

Record request_inv (tr : list event) (s : ClientRun) : Prop := {
  ri_kept : forall rid, Generated rid ∈ tr -> outstanding (k_c s) rid \/ Committed rid ∈ tr;
  ri_committed : forall rid e, c_rInflight (k_c s) !! rid = Some e -> e_committed e = true ->
    Committed rid ∈ tr }.

Lemma board_kept now reqs : forall inflight acc,
  let m := (foldl (board now) (inflight, acc) reqs).1 in
  (forall rid, is_Some (inflight !! rid) \/ rid ∈ request_ids reqs -> is_Some (m !! rid)) /\
  (forall rid e, m !! rid = Some e -> e_committed e = true ->
     exists e', inflight !! rid = Some e' /\ e_committed e' = true).
Proof.
  induction reqs as [|rq reqs IH]; intros inflight acc.
  { cbn. split; [|eauto]. intros rid [H|H%elem_of_nil]; done. }
  cbn [foldl]. unfold board at 2 4. cbv zeta.
  set (e1 := _ <| e_sendTimeNs := now |>). destruct (IH (<[rq_RequestId rq := e1]> inflight)
    (acc ++ [mkRequestMessage (rq_ClientId rq) (rq_RequestId rq) (u64 now) (rq_Op rq)])) as [IH1 IH2].
  split.
  - intros rid Hrid. apply IH1. destruct (decide (rid = rq_RequestId rq)) as [->|Hne].
    { left. rewrite lookup_insert_eq. eauto. }
    rewrite lookup_insert_ne by done. unfold request_ids in Hrid. rewrite fmap_cons in Hrid.
    destruct Hrid as [H|[H|H]%elem_of_cons]; [by left|done|by right].
  - intros rid e He Hc. destruct (IH2 rid e He Hc) as (e' & He' & Hc').
    rewrite lookup_insert_Some in He'. destruct He' as [[<- <-]|[_ He']]; [|eauto].
    unfold e1 in Hc'. rsimpl in Hc'. destruct (inflight !! rq_RequestId rq) as [e0|]; [eauto|done].
Qed.

Lemma request_inv_same tr evs s s' :
  request_inv tr s -> (forall rid, Generated rid ∉ evs) ->
  c_pending (k_c s') = c_pending (k_c s) -> c_rInflight (k_c s') = c_rInflight (k_c s) ->
  request_inv (tr ++ evs) s'.
Proof.
  intros [Hk Hc] Hg E1 E2. constructor; unfold outstanding; rewrite E2, ?E1.
  - intros rid [H|H]%elem_of_app; [|by destruct (Hg rid)].
    destruct (Hk rid H) as [?|?]; [by left|right; set_solver].
  - intros rid e He Hce. specialize (Hc rid e He Hce). set_solver.
Qed.

(** a step that keeps every entry, and marks none as committed unannounced *)
Lemma request_inv_entries tr evs s s' :
  request_inv tr s -> (forall rid, Generated rid ∉ evs) ->
  (forall rid, outstanding (k_c s) rid -> outstanding (k_c s') rid \/ Committed rid ∈ tr ++ evs) ->
  (forall rid e, c_rInflight (k_c s') !! rid = Some e -> e_committed e = true ->
     (exists e', c_rInflight (k_c s) !! rid = Some e' /\ e_committed e' = true) \/ Committed rid ∈ evs) ->
  request_inv (tr ++ evs) s'.
Proof.
  intros [Hk Hc] Hg Hout Hcom. constructor.
  - intros rid [H|H]%elem_of_app; [|by destruct (Hg rid)].
    destruct (Hk rid H) as [Ho|?]; [by apply Hout|right; set_solver].
  - intros rid e He Hce. destruct (Hcom rid e He Hce) as [(e' & He' & Hce')|?]; [|set_solver].
    specialize (Hc rid e' He' Hce'). set_solver.
Qed.

Lemma handleRequestReply_entries c m now :
  let '(c', committed) := handleRequestReply c m now in
  c_pending c' = c_pending c /\
  (forall rid, is_Some (c_rInflight c !! rid) -> is_Some (c_rInflight c' !! rid)) /\
  (forall rid e, c_rInflight c' !! rid = Some e -> e_committed e = true ->
     (exists e', c_rInflight c !! rid = Some e' /\ e_committed e' = true) \/
     committed = true /\ rid = rr_RequestId m).
Proof.
  unfold handleRequestReply.
  destruct (c_rInflight c !! rr_RequestId m) as [e|] eqn:Ee; [|by split_and!; eauto].
  destruct (negb (Z.land _ _ =? 0)); [by split_and!; eauto|].
  cbv zeta. match goal with |- context [if ?b then (recordCommit _ _, _) else _] => destruct b end;
    unfold recordCommit; rsimpl;
    (split_and!; [done| |]);
    try (intros rid Hrid; destruct (decide (rid = rr_RequestId m)) as [->|];
         [rewrite lookup_insert_eq; eauto|by rewrite lookup_insert_ne]);
    intros rid e'; rewrite lookup_insert_Some; intros [[<- <-]|[_ He']] Hce; eauto.
Qed.

(** [sendBus] boards every pending request *)
Lemma sendBus_entries c now c' sent : sendBus c now = (c', sent) ->
  (forall rid, outstanding c rid -> outstanding c' rid) /\
  (forall rid e, c_rInflight c' !! rid = Some e -> e_committed e = true ->
     exists e', c_rInflight c !! rid = Some e' /\ e_committed e' = true).
Proof.
  intros Hs. destruct (c_paused c) eqn:Ep.
  { unfold sendBus in Hs. rewrite Ep in Hs. simplify_eq. eauto. }
  pose proof (sendBus_inflight c now Ep) as Hi. rewrite Hs in Hi. cbn [fst] in Hi.
  destruct (board_kept now (c_retry c ++ c_pending c) (c_rInflight c) []) as [H1 H2].
  rewrite <- Hi in H1, H2. split; [|done].
  intros rid [Hp|Hp]; right; apply H1; [right|by left].
  unfold request_ids. rewrite fmap_app. set_solver.
Qed.

Lemma request_inv_step tr s evs s' :
  request_inv tr s -> client_step s evs s' -> request_inv (tr ++ evs) s'.
Proof.
  intros Hinv Hstep. destruct Hstep;
    try solve [apply (request_inv_same _ _ _ _ Hinv);
      [intros rid'; set_solver | step_cases; done ..]].
  - pose proof (handleRequestReply_entries (k_c s) m now) as He. rewrite H in He.
    destruct He as (Hp & Hk & Hc). apply (request_inv_entries _ _ _ _ Hinv); rsimpl.
    + intros rid. destruct committed; set_solver.
    + intros rid [Hr|Hr]; left; [left; by rewrite Hp|right; by apply Hk].
    + intros rid e He Hce. destruct (Hc rid e He Hce) as [?|[-> ->]]; [by left|right; set_solver].
  - unfold genLoop_turn in H0. destruct (now <? k_next s).
    { simplify_eq. apply (request_inv_same _ _ _ _ Hinv); [intros rid'; set_solver|rsimpl; done..]. }
    destruct (_ || _).
    { simplify_eq. apply (request_inv_same _ _ _ _ Hinv); [intros rid'; set_solver|rsimpl; done..]. }
    simplify_eq. destruct Hinv as [Hk Hc]. constructor; unfold outstanding; rsimpl.
    + intros rid [Hr|Hr]%elem_of_app.
      * destruct (Hk rid Hr) as [[Ho|Ho]|?]; [left; left|left; by right|right; set_solver].
        unfold request_ids. rewrite fmap_app. set_solver.
      * apply list_elem_of_singleton in Hr as [= ->]. left. left.
        unfold request_ids. rewrite fmap_app. set_solver.
    + intros rid e He Hce. specialize (Hc rid e He Hce). set_solver.
  - destruct (sendBus_entries _ _ _ _ H1) as [Hk Hc]. rsimpl in Hc.
    apply (request_inv_entries _ _ _ _ Hinv); rsimpl.
    + intros rid. destruct sent; set_solver.
    + intros rid Hr. left. by apply Hk.
    + intros rid e He Hce. left. by eapply Hc.
  - unfold reqTimeoutLoop. destruct (negb _).
    { apply (request_inv_same _ _ _ _ Hinv); [intros rid'; set_solver|rsimpl; done..]. }
    apply (request_inv_entries _ _ _ _ Hinv); [intros rid'; set_solver| |]; unfold outstanding; rsimpl.
    + intros rid Hr. left. by rewrite lookup_fmap, fmap_is_Some.
    + intros rid e (e0 & <- & He0)%lookup_fmap_Some Hce. left. exists e0. split; [done|].
      by destruct (timed_out _ _ _); rsimpl in Hce.
  - apply (request_inv_entries _ _ _ _ Hinv); [intros rid'; set_solver| |];
      unfold outstanding, janitorLoop; rsimpl.
    + intros rid [Hr|[e He]]; [by left; left|].
      destruct (e_committed e && (gcCommittedNs <=? i64 (now - e_sendTimeNs e))) eqn:Ed.
      * right. apply andb_true_iff in Ed as [Ed _]. rewrite app_nil_r.
        by eapply (ri_committed _ _ Hinv).
      * left. right. exists e. by apply map_lookup_filter_Some.
    + intros rid e [He _]%map_lookup_filter_Some Hce. left. eauto.
Qed.

(** * The sender refines a queue *)

Inductive sender_op := Enq (b : list byte) | Wake | Turn (err : bool).

Definition sender_do (s : connSender) (op : sender_op) : connSender * list (list byte) :=
  match op with
  | Enq b => (enqueue s b, [])
  | Wake => (sender_wake s, [])
  | Turn err => sender_turn s err
  end.

(** the buffers written, in order *)
Fixpoint sender_run (s : connSender) (ops : list sender_op) : connSender * list (list byte) :=
  match ops with
  | [] => (s, [])
  | op :: ops =>
      let (s, written) := sender_do s op in
      let (s, written') := sender_run s ops in
      (s, written ++ written')
  end.

Definition enqueued (ops : list sender_op) : list (list byte) :=
  omap (fun op => match op with Enq b => Some b | _ => None end) ops.

(** the abstract sender: a queue of buffers, and whether a write failed *)
Record queue := mkqueue { q_waiting : list (list byte); q_failed : bool }.

Inductive queue_step : queue -> list (list byte) -> list (list byte) -> queue -> Prop :=
| q_put q b : q_failed q = false -> queue_step q [b] [] (mkqueue (q_waiting q ++ [b]) false)
| q_refuse q b : q_failed q = true -> queue_step q [b] [] q
| q_take q : q_failed q = false -> queue_step q [] (q_waiting q) (mkqueue [] false)
| q_fail q : q_failed q = false -> queue_step q [] (q_waiting q) (mkqueue [] true)
| q_idle q : queue_step q [] [] q.

Definition abs_sender (s : connSender) : queue := mkqueue (cs_buf s) (cs_dead s).

Record sender_inv (s : connSender) : Prop := {
  sn_wake : cs_dead s = false -> cs_buf s <> [] -> cs_wake s || cs_busy s = true;
  sn_dead : cs_dead s = true -> cs_buf s = [] }.

Lemma sender_simulation s op :
  sender_inv s ->
  let (s', written) := sender_do s op in
  sender_inv s' /\
  queue_step (abs_sender s) (enqueued [op]) written (abs_sender s').
Proof.
  intros [Hw Hd]. destruct op as [b| |err]; cbn [sender_do enqueued omap list_omap].
  - unfold enqueue. destruct (cs_dead s) eqn:E.
    + split; [by constructor; rewrite E|]. apply q_refuse. unfold abs_sender. by rewrite E.
    + split; [constructor; rsimpl; [done|by rewrite E]|].
      unfold abs_sender. rsimpl. rewrite E. by apply (q_put (mkqueue _ _)).
  - unfold sender_wake. destruct (_ && _) eqn:E.
    + split; [constructor; rsimpl; [by rewrite orb_true_r|done]|]. unfold abs_sender. rsimpl. apply q_idle.
    + split; [by constructor|apply q_idle].
  - unfold sender_turn. destruct (cs_busy s) eqn:Eb; cbn [negb orb].
    2:{ split; [constructor; rewrite ?Eb; done|apply q_idle]. }
    destruct (cs_dead s) eqn:E; [split; [constructor; rewrite ?Eb, ?E; done|apply q_idle]|].
    destruct (Nat.eqb_spec (length (cs_buf s)) 0) as [E0|E0].
    + apply nil_length_inv in E0. split; [constructor; rsimpl; done|].
      unfold abs_sender. rsimpl. rewrite E, E0. apply q_idle.
    + destruct err; (split; [constructor; rsimpl; rewrite ?E; done|]); unfold abs_sender; rsimpl;
        rewrite ?E; [by apply (q_fail (mkqueue _ _))|by apply (q_take (mkqueue _ _))].
Qed.

(** what was written and what waits is what was handed over, in order; after a
    failed write the rest is dropped *)
Definition queue_ok (given written : list (list byte)) (q : queue) : Prop :=
  if q_failed q then written `prefix_of` given else given = written ++ q_waiting q.

Lemma queue_step_ok given written q given' written' q' :
  queue_ok given written q -> queue_step q given' written' q' ->
  queue_ok (given ++ given') (written ++ written') q'.
Proof.
  unfold queue_ok. intros H Hstep. destruct Hstep; cbn; rewrite ?H0 in *; rewrite ?app_nil_r.
  - rewrite H. by rewrite app_assoc.
  - by apply prefix_app_r.
  - done.
  - by rewrite H.
  - done.
Qed.

Lemma sender_run_ok s ops given written :
  sender_inv s -> queue_ok given written (abs_sender s) ->
  sender_inv (sender_run s ops).1 /\
  queue_ok (given ++ enqueued ops) (written ++ (sender_run s ops).2) (abs_sender (sender_run s ops).1).
Proof.
  revert s given written. induction ops as [|op ops IH]; intros s given written Hinv Hq.
  { cbn. rewrite !app_nil_r. done. }
  cbn [sender_run]. pose proof (sender_simulation s op Hinv) as Hs.
  destruct (sender_do s op) as [s1 w1]. destruct Hs as [Hinv1 Hstep].
  specialize (IH s1 _ _ Hinv1 (queue_step_ok _ _ _ _ _ _ Hq Hstep)).
  destruct (sender_run s1 ops) as [s2 w2]. cbn [fst snd] in *.
  rewrite <- !app_assoc in IH. unfold enqueued in *. by rewrite <- omap_app in IH.
Qed.

Lemma newConnSender_ok : sender_inv newConnSender /\ queue_ok [] [] (abs_sender newConnSender).
Proof. by repeat constructor. Qed.
