(* ===== verification/DurableLog.v ===== *)
(** The durable log ([src/paxosbus/internal/protocol/durablelog.go] and
    [logreader.go]): an append-only file of one record per line, in the order of
    the records' keys, with place holders for keys that were skipped, a sparse
    index of line offsets and a buffered reader on a second descriptor.

    The file and the buffers are byte lists.  Disk errors, which the code
    ignores, are not modelled; the writer goroutine and [readRecords] interleave
    at the operations below. *)
From Stdlib Require Import Strings.String.
From S2P Require Import Prelude WireBase Wire ReplicaState.

Definition text (s : string) : list byte := list_byte_of_string s.
Definition quote : byte := x22.

(** * Numbers and hex *)

Definition is_digit (b : byte) : bool := (48 <=? byte_val b) && (byte_val b <=? 57).

(** [%d]: twenty digits hold every 64-bit number *)
Fixpoint dec_from (fuel : nat) (n : Z) : list byte :=
  match fuel with
  | O => []
  | S fuel => (if n <? 10 then [] else dec_from fuel (n / 10)) ++ [byte_of (48 + n mod 10)]
  end.
Definition dec (n : Z) : list byte := dec_from 20 n.

Definition hex_digit (n : Z) : byte := byte_of (if n <? 10 then 48 + n else 87 + n).
Definition EncodeToString (bs : list byte) : list byte :=
  bs ≫= fun b => [hex_digit (byte_val b / 16); hex_digit (byte_val b mod 16)].

Definition hex_val (b : byte) : option Z :=
  let v := byte_val b in
  if (48 <=? v) && (v <=? 57) then Some (v - 48)
  else if (97 <=? v) && (v <=? 102) then Some (v - 87)
  else if (65 <=? v) && (v <=? 70) then Some (v - 55)
  else None.
Fixpoint DecodeString (bs : list byte) : option (list byte) :=
  match bs with
  | [] => Some []
  | [_] => None
  | a :: b :: bs =>
      x ← hex_val a; y ← hex_val b; rest ← DecodeString bs; Some (byte_of (16 * x + y) :: rest)
  end.

(** * The records *)

Definition key_text (name : string) : list byte := quote :: text name ++ quote :: text ":".
Definition bool_text (b : bool) : list byte := text (if b then "true" else "false").

(** [fmt.Sprintf("{...}")]: fields separated by commas *)
Fixpoint fields_text (fields : list (list byte)) : list byte :=
  match fields with
  | [] => []
  | [f] => f
  | f :: fields => f ++ text "," ++ fields_text fields
  end.
Definition object_text (fields : list (list byte)) : list byte :=
  text "{" ++ fields_text fields ++ text "}".

Definition recordBody (slot clientId reqId : Z) (op : list byte) (noop : bool) : list byte :=
  object_text [key_text "slot" ++ dec slot; key_text "client" ++ dec clientId;
    key_text "req_id" ++ dec reqId; key_text "len" ++ dec (Zlength op);
    key_text "op" ++ quote :: EncodeToString op ++ [quote]; key_text "noop" ++ bool_text noop].

Definition busRecordBody (slot clientId busSeq : Z) (logIdxs : list Z) (noop : bool) : list byte :=
  object_text [key_text "slot" ++ dec slot; key_text "client" ++ dec clientId;
    key_text "bus" ++ dec busSeq;
    key_text "log_indexes" ++ text "[" ++ fields_text (dec <$> logIdxs) ++ text "]";
    key_text "noop" ++ bool_text noop].

Definition reqListRecordBody (logIndex clientId reqId : Z) (op : list byte) : list byte :=
  object_text [key_text "log_index" ++ dec logIndex; key_text "client" ++ dec clientId;
    key_text "req_id" ++ dec reqId; key_text "len" ++ dec (Zlength op);
    key_text "op" ++ quote :: EncodeToString op ++ [quote]].

Definition placeholderBody (slot : Z) : list byte :=
  object_text [key_text "slot" ++ dec slot; key_text "req_id" ++ dec 0; key_text "len" ++ dec 0;
    key_text "op" ++ [quote; quote]; key_text "noop" ++ bool_text false;
    key_text "pending" ++ bool_text true].

(** * Reading JSON *)

Inductive json := JNum (n : Z) | JStr (s : list byte) | JBool (b : bool) | JArr (l : list Z).

(** the longest run of digits *)
Fixpoint take_digits (bs : list byte) : list byte * list byte :=
  match bs with
  | b :: bs' => if is_digit b then let (ds, rest) := take_digits bs' in (b :: ds, rest) else ([], bs)
  | [] => ([], [])
  end.
Definition digits_val (ds : list byte) : Z := foldl (fun acc b => 10 * acc + (byte_val b - 48)) 0 ds.
(** a number: no leading zero *)
Definition parse_num (bs : list byte) : option (Z * list byte) :=
  let (ds, rest) := take_digits bs in
  match ds with
  | [] => None
  | d :: _ :: _ => if byte_val d =? 48 then None
                   else if W64 <=? digits_val ds then None else Some (digits_val ds, rest)
  | _ => Some (digits_val ds, rest)
  end.

(** up to the closing quote *)
Fixpoint parse_str (bs : list byte) : option (list byte * list byte) :=
  match bs with
  | [] => None
  | b :: bs => if byte_val b =? 34 then Some ([], bs)
               else if byte_val b =? 92 then None
               else '(s, rest) ← parse_str bs; Some (b :: s, rest)
  end.

Definition parse_byte (c : byte) (bs : list byte) : option (list byte) :=
  match bs with b :: bs => if byte_val b =? byte_val c then Some bs else None | [] => None end.
Fixpoint parse_lit (lit bs : list byte) : option (list byte) :=
  match lit with [] => Some bs | c :: lit => bs ← parse_byte c bs; parse_lit lit bs end.

(** the rest of an array after its first number; each turn reads a number *)
Fixpoint parse_nums (fuel : nat) (bs : list byte) : option (list Z * list byte) :=
  match fuel with
  | O => None
  | S fuel =>
      '(n, bs) ← parse_num bs;
      match parse_byte x2c bs with
      | Some bs => '(l, bs) ← parse_nums fuel bs; Some (n :: l, bs)
      | None => bs ← parse_byte x5d bs; Some ([n], bs)
      end
  end.
Definition parse_arr (bs : list byte) : option (list Z * list byte) :=
  match parse_byte x5d bs with Some bs => Some ([], bs) | None => parse_nums (length bs) bs end.

Definition parse_value (bs : list byte) : option (json * list byte) :=
  match bs with
  | [] => None
  | b :: rest =>
      if byte_val b =? 34 then '(s, rest) ← parse_str rest; Some (JStr s, rest)
      else if byte_val b =? 91 then '(l, rest) ← parse_arr rest; Some (JArr l, rest)
      else if byte_val b =? 116 then rest ← parse_lit (text "true") bs; Some (JBool true, rest)
      else if byte_val b =? 102 then rest ← parse_lit (text "false") bs; Some (JBool false, rest)
      else '(n, rest) ← parse_num bs; Some (JNum n, rest)
  end.

(** the members of an object, up to its end; each turn reads a member *)
Fixpoint parse_members (fuel : nat) (bs : list byte) : option (list (list byte * json)) :=
  match fuel with
  | O => None
  | S fuel =>
      bs ← parse_byte quote bs;
      '(k, bs) ← parse_str bs;
      bs ← parse_byte x3a bs;
      '(v, bs) ← parse_value bs;
      match parse_byte x2c bs with
      | Some bs => l ← parse_members fuel bs; Some ((k, v) :: l)
      | None => bs ← parse_byte x7d bs; match bs with [] => Some [(k, v)] | _ => None end
      end
  end.
Definition parse_object (bs : list byte) : option (list (list byte * json)) :=
  bs ← parse_byte x7b bs; parse_members (length bs) bs.

(** * The decoded records *)

Record diskRecord := mkdiskRecord {
  dr_Slot : Z; dr_Client : Z; dr_ReqId : Z; dr_Bus : option Z; dr_LogIndexes : list Z;
  dr_NoOp : bool; dr_Pending : bool }.
#[export] Instance eta_diskRecord : Eta diskRecord := fun r =>
  mkdiskRecord (dr_Slot r) (dr_Client r) (dr_ReqId r) (dr_Bus r) (dr_LogIndexes r) (dr_NoOp r)
    (dr_Pending r).
Definition diskRecord0 : diskRecord := mkdiskRecord 0 0 0 None [] false false.

Record reqDiskRecord := mkreqDiskRecord {
  qd_LogIndex : Z; qd_Client : Z; qd_ReqId : Z; qd_Op : list byte }.
#[export] Instance eta_reqDiskRecord : Eta reqDiskRecord := fun r =>
  mkreqDiskRecord (qd_LogIndex r) (qd_Client r) (qd_ReqId r) (qd_Op r).
Definition reqDiskRecord0 : reqDiskRecord := mkreqDiskRecord 0 0 0 [].

Definition is_key (k : list byte) (name : string) : bool := bool_decide (k = text name).

(** one member set in a record: a known key with a value of another type is an
    error, an unknown key is skipped *)
Definition set_disk (rec : diskRecord) (p : list byte * json) : option diskRecord :=
  let (k, v) := p in
  if is_key k "slot" then match v with JNum n => Some (rec <| dr_Slot := n |>) | _ => None end
  else if is_key k "client" then match v with JNum n => Some (rec <| dr_Client := n |>) | _ => None end
  else if is_key k "req_id" then match v with JNum n => Some (rec <| dr_ReqId := n |>) | _ => None end
  else if is_key k "bus" then match v with JNum n => Some (rec <| dr_Bus := Some n |>) | _ => None end
  else if is_key k "log_indexes" then
    match v with JArr l => Some (rec <| dr_LogIndexes := l |>) | _ => None end
  else if is_key k "noop" then match v with JBool b => Some (rec <| dr_NoOp := b |>) | _ => None end
  else if is_key k "pending" then match v with JBool b => Some (rec <| dr_Pending := b |>) | _ => None end
  else Some rec.

Definition set_req (rec : reqDiskRecord) (p : list byte * json) : option reqDiskRecord :=
  let (k, v) := p in
  if is_key k "log_index" then match v with JNum n => Some (rec <| qd_LogIndex := n |>) | _ => None end
  else if is_key k "client" then match v with JNum n => Some (rec <| qd_Client := n |>) | _ => None end
  else if is_key k "req_id" then match v with JNum n => Some (rec <| qd_ReqId := n |>) | _ => None end
  else if is_key k "op" then match v with JStr s => Some (rec <| qd_Op := s |>) | _ => None end
  else Some rec.

Fixpoint set_all {A} (set : A -> list byte * json -> option A) (rec : A)
    (members : list (list byte * json)) : option A :=
  match members with
  | [] => Some rec
  | p :: members => rec ← set rec p; set_all set rec members
  end.

(** [json.Unmarshal(body, &rec)] *)
Definition Unmarshal_disk (body : list byte) : option diskRecord :=
  members ← parse_object body; set_all set_disk diskRecord0 members.
Definition Unmarshal_req (body : list byte) : option reqDiskRecord :=
  members ← parse_object body; set_all set_req reqDiskRecord0 members.

(** * The durable log ([src/paxosbus/internal/protocol/durablelog.go] and
    [logreader.go]): an append-only file of one record per line, in the order of
    the records' keys, with place holders for keys that were skipped, a sparse
    index of line offsets and a buffered reader on a second descriptor.

    The file and the buffers are byte lists.  Disk errors, which the code
    ignores, are not modelled; the writer goroutine and [readRecords] interleave
    at the operations below. *)

Definition durableLogBufBytes : Z := Z.shiftl 1 16.
Definition readerBufBytes : Z := Z.shiftl 1 15.
Definition holeRecordWidth : Z := 256.
Definition offStride : Z := 1024.
Definition newline : byte := x0a.
Definition space : byte := x20.

Record durableLog := mkdurableLog {
  (* the file, and what [bufio.Writer] holds back *)
  dl_file : list byte;
  dl_w : list byte;
  (* the index *)
  dl_offIdx : list Z;
  dl_firstKey : Z;
  dl_haveFirst : bool;
  (* the reader: its file position and the bytes [bufio.Reader] holds *)
  dl_rPos : Z;
  dl_rBuf : list byte;
  dl_rKey : Z;
  dl_rOff : Z;
  dl_rValid : bool;
  (* the queue *)
  dl_pending : list (Z * list byte);
  dl_maxDepth : Z;
  dl_closing : bool;
  dl_wake : bool;
  dl_closed : bool;
  (* the tail *)
  dl_tailOff : Z;
  dl_nextSlot : Z;
  dl_haveNext : bool;
  dl_holes : gmap Z Z }.

#[export] Instance eta_durableLog : Eta durableLog := fun d =>
  mkdurableLog (dl_file d) (dl_w d) (dl_offIdx d) (dl_firstKey d) (dl_haveFirst d) (dl_rPos d)
    (dl_rBuf d) (dl_rKey d) (dl_rOff d) (dl_rValid d) (dl_pending d) (dl_maxDepth d)
    (dl_closing d) (dl_wake d) (dl_closed d) (dl_tailOff d) (dl_nextSlot d) (dl_haveNext d)
    (dl_holes d).

(** [contents]: what the file already holds *)
Definition openDurableLog (contents : list byte) : durableLog :=
  mkdurableLog contents [] [] 0 false 0 [] 0 0 false [] 0 false false false (Zlength contents) 0
    false ∅.

(** * Writing *)

(** [bufio.Writer.Write]: what does not fit is written with the buffer, and a
    remainder larger than the buffer directly *)
Definition bufio_Write (d : durableLog) (b : list byte) : durableLog :=
  let room := durableLogBufBytes - Zlength (dl_w d) in
  if Zlength b <=? room then d <| dl_w ::= fun w => w ++ b |>
  else if Nat.eqb (length (dl_w d)) 0 then d <| dl_file ::= fun f => f ++ b |>
  else
    let rest := drop (Z.to_nat room) b in
    let d := d <| dl_file ::= fun f => f ++ dl_w d ++ take (Z.to_nat room) b |> <| dl_w := [] |> in
    if durableLogBufBytes <? Zlength rest then d <| dl_file ::= fun f => f ++ rest |>
    else d <| dl_w := rest |>.

Definition Flush (d : durableLog) : durableLog :=
  d <| dl_file ::= fun f => f ++ dl_w d |> <| dl_w := [] |>.

(** [os.File.WriteAt] inside the file *)
Definition WriteAt (d : durableLog) (b : list byte) (off : Z) : durableLog :=
  d <| dl_file ::= fun f =>
         take (Z.to_nat off) f ++ b ++ drop (Z.to_nat off + length b) f |>.

Definition padLine (body : list byte) : list byte :=
  let n := Z.to_nat holeRecordWidth in
  take (n - 1) (take n body ++ replicate (n - 1 - length body) space) ++ [newline].

Definition writeAtTail (d : durableLog) (b : list byte) : durableLog :=
  (bufio_Write d b) <| dl_tailOff ::= fun o => i64 (o + Zlength b) |>.

Definition noteOffset (d : durableLog) (key : Z) : durableLog :=
  let d := if dl_haveFirst d then d else d <| dl_firstKey := key |> <| dl_haveFirst := true |> in
  if (dl_firstKey d <=? key) && (sub64 key (dl_firstKey d) mod offStride =? 0)
  then d <| dl_offIdx ::= fun l => l ++ [dl_tailOff d] |> else d.

Definition patchHole (d : durableLog) (slot : Z) (body : list byte) : durableLog :=
  match dl_holes d !! slot with
  | None => d
  | Some off => (WriteAt (Flush d) (padLine body) off) <| dl_holes ::= delete slot |>
  end.

(** one turn of the loop that fills the gap before a record *)
Definition write_hole (d : durableLog) (s : Z) : durableLog :=
  let off := dl_tailOff d in
  (writeAtTail (noteOffset d s) (padLine (placeholderBody s))) <| dl_holes ::= <[s := off]> |>.

Definition apply (d : durableLog) (slot : Z) (body : list byte) : durableLog :=
  let d := if dl_haveNext d then d else d <| dl_nextSlot := slot |> <| dl_haveNext := true |> in
  if slot <? dl_nextSlot d then patchHole d slot body
  else
    let d := foldl write_hole d (seqZ (dl_nextSlot d) (slot - dl_nextSlot d)) in
    (writeAtTail (noteOffset d slot) (body ++ [newline])) <| dl_nextSlot := add64 slot 1 |>.

(** * The queue *)

Definition push (d : durableLog) (rec : Z * list byte) : durableLog :=
  let d := d <| dl_pending ::= fun l => l ++ [rec] |> <| dl_wake := true |> in
  let n := Zlength (dl_pending d) in
  if dl_maxDepth d <? n then d <| dl_maxDepth := n |> else d.

Definition record (d : durableLog) (slot clientId reqId : Z) (op : list byte) (noop : bool) :
    durableLog :=
  push d (slot, recordBody slot clientId reqId op noop).
Definition recordBus (d : durableLog) (slot clientId busSeq : Z) (logIdxs : list Z) (noop : bool) :
    durableLog :=
  push d (slot, busRecordBody slot clientId busSeq logIdxs noop).
Definition recordReq (d : durableLog) (logIndex clientId reqId : Z) (op : list byte) : durableLog :=
  push d (logIndex, reqListRecordBody logIndex clientId reqId op).

Definition backlogMax (d : durableLog) : durableLog * Z := (d <| dl_maxDepth := 0 |>, dl_maxDepth d).

(** [drain]: the batches are taken until none is left *)
Definition drain (d : durableLog) : durableLog :=
  foldl (fun d rec => apply d rec.1 rec.2) (d <| dl_pending := [] |>) (dl_pending d).

(** the three cases of [writeLoop] *)
Definition writer_wake (d : durableLog) : durableLog :=
  let d := drain (d <| dl_wake := false |>) in
  if dl_closing d then (Flush d) <| dl_closed := true |> else d.
Definition writer_flush (d : durableLog) : durableLog := Flush (drain d).
Definition writer_tick (d : durableLog) : durableLog := Flush d.

Definition close (d : durableLog) : durableLog := d <| dl_closing := true |> <| dl_wake := true |>.

(** [flushForRead]; [flushed]: the writer has served the request when it
    returns, as opposed to a full request queue or a timeout *)
Definition flushForRead (d : durableLog) (flushed : bool) : durableLog :=
  if flushed && negb (dl_closed d) then writer_flush d else d.

(** * Reading *)

(** the bytes up to and including the first newline *)
Fixpoint split_line (bs : list byte) : option (list byte * list byte) :=
  match bs with
  | [] => None
  | b :: bs => if byte_val b =? byte_val newline then Some ([b], bs)
               else '(line, rest) ← split_line bs; Some (b :: line, rest)
  end.

(** [bufio.Reader.fill]: one read of the file *)
Definition fill (d : durableLog) : option durableLog :=
  let room := readerBufBytes - Zlength (dl_rBuf d) mod readerBufBytes in
  match take (Z.to_nat room) (drop (Z.to_nat (dl_rPos d)) (dl_file d)) with
  | [] => None
  | chunk => Some (d <| dl_rBuf ::= fun b => b ++ chunk |>
                     <| dl_rPos ::= fun p => p + Zlength chunk |>)
  end.

(** [ReadBytes('\n')]; [None]: end of file, with what was buffered consumed.
    Every turn but the last reads at least a byte of the file. *)
Fixpoint read_line (fuel : nat) (d : durableLog) : durableLog * option (list byte) :=
  match split_line (dl_rBuf d) with
  | Some (line, rest) => (d <| dl_rBuf := rest |>, Some line)
  | None =>
      match fuel, fill d with
      | S fuel, Some d => read_line fuel d
      | _, _ => (d <| dl_rBuf := [] |>, None)
      end
  end.
Definition ReadBytes (d : durableLog) : durableLog * option (list byte) :=
  read_line (length (dl_file d)) d.

(** one line further *)
Definition next_line (d : durableLog) : durableLog * option (list byte) :=
  let (d, line) := ReadBytes d in
  match line with
  | None => (d <| dl_rValid := false |>, None)
  | Some line =>
      (d <| dl_rOff ::= fun o => i64 (o + Zlength line) |> <| dl_rKey ::= fun k => add64 k 1 |>,
       Some line)
  end.

(** [for cl.rKey < key]: every turn advances the key *)
Fixpoint skip_lines (n : nat) (d : durableLog) : durableLog * bool :=
  match n with
  | O => (d, true)
  | S n => let (d, line) := next_line d in
           match line with None => (d, false) | Some _ => skip_lines n d end
  end.
Definition skip_to (d : durableLog) (key : Z) : durableLog * bool :=
  skip_lines (Z.to_nat (key - dl_rKey d)) d.

(** the indexed line at or before [key]: its offset and key *)
Definition index_entry (d : durableLog) (key : Z) : option (Z * Z) :=
  if dl_haveFirst d && (dl_firstKey d <=? key) && Nat.ltb 0 (length (dl_offIdx d)) then
    let i := sub64 key (dl_firstKey d) / offStride in
    let i := if Zlength (dl_offIdx d) <=? i then Zlength (dl_offIdx d) - 1 else i in
    off ← dl_offIdx d !! Z.to_nat i;
    Some (off, add64 (dl_firstKey d) (mul64 i offStride))
  else None.

Definition seekTo (d : durableLog) (key : Z) : durableLog * bool :=
  if dl_rValid d && (dl_rKey d <=? key) then skip_to d key
  else match index_entry d key with
  | None => (d, false)
  | Some (off, atKey) =>
      skip_to (d <| dl_rPos := off |> <| dl_rBuf := [] |> <| dl_rKey := atKey |>
                 <| dl_rOff := off |> <| dl_rValid := true |>) key
  end.

(** [bytes.TrimRight(b, " ")] *)
Fixpoint TrimRight (bs : list byte) : list byte :=
  match bs with
  | [] => []
  | b :: bs => match TrimRight bs with
               | [] => if byte_val b =? byte_val space then [] else [b]
               | l => b :: l
               end
  end.
Definition line_body (line : list byte) : list byte := TrimRight (take (length line - 1) line).

Fixpoint read_loop (n : nat) (lo : Z) (d : durableLog) (out : gmap Z (list byte)) :
    durableLog * gmap Z (list byte) :=
  match n with
  | O => (d, out)
  | S n =>
      let key := dl_rKey d in
      let (d, line) := next_line d in
      match line with
      | None => (d, out)
      | Some line =>
          let body := line_body line in
          read_loop n lo d
            (if (lo <=? key) && Nat.ltb 0 (length body) then <[key := body]> out else out)
      end
  end.

Definition readRecords (d : durableLog) (lo hi : Z) (flushed : bool) :
    durableLog * gmap Z (list byte) :=
  if hi <? lo then (d, ∅)
  else
    let d := flushForRead d flushed in
    let (d, ok) := seekTo d lo in
    if ok then read_loop (Z.to_nat (hi + 1 - dl_rKey d)) lo d ∅ else (d, ∅).

(** the records a replica appended, as pushes *)
Definition push_bus (d : durableLog) (rec : busRecord) : durableLog :=
  recordBus d (br_slot rec) (br_clientId rec) (br_busSeq rec) (br_logIdxs rec) (br_noop rec).
Definition push_req (d : durableLog) (rec : reqRecord) : durableLog :=
  recordReq d (qr_logIndex rec) (qr_clientId rec) (qr_reqId rec) (qr_op rec).
