(* ===== verification/DurableSpec.v ===== *)
(** The durable logs' text: every record the code formats is decoded to itself. *)
From Stdlib Require Import Strings.String.
From S2P Require Import Prelude WireBase Wire ReplicaState DurableLog.

(** * Numbers *)

Lemma digit_val n : 0 <= n < 10 -> byte_val (byte_of (48 + n)) = 48 + n.
Proof. intros H. rewrite byte_val_of. apply Z.mod_small. lia. Qed.

Lemma dec_from_digits fuel n : 0 <= n -> Forall (fun b => is_digit b = true) (dec_from fuel n).
Proof.
  revert n. induction fuel as [|fuel IH]; intros n Hn; [constructor|].
  cbn [dec_from]. apply Forall_app. split.
  - destruct (n <? 10); [constructor|]. apply IH. apply Z.div_pos; lia.
  - constructor; [|constructor]. pose proof (Z.mod_pos_bound n 10 ltac:(lia)).
    unfold is_digit. rewrite digit_val by lia. apply andb_true_iff. rewrite !Z.leb_le. lia.
Qed.

Lemma digits_val_snoc ds b : digits_val (ds ++ [b]) = 10 * digits_val ds + (byte_val b - 48).
Proof. unfold digits_val. by rewrite foldl_app. Qed.

Lemma dec_from_val fuel n : 0 <= n < 10 ^ Z.of_nat fuel -> digits_val (dec_from fuel n) = n.
Proof.
  revert n. induction fuel as [|fuel IH]; intros n Hn; [cbn in *; lia|].
  cbn [dec_from]. rewrite digits_val_snoc.
  pose proof (Z.mod_pos_bound n 10 ltac:(lia)). pose proof (Z.div_mod n 10 ltac:(lia)).
  rewrite digit_val by lia. destruct (Z.ltb_spec n 10).
  - change (digits_val []) with 0. rewrite Z.mod_small by lia. lia.
  - rewrite IH; [lia|]. split; [apply Z.div_pos; lia|].
    apply Z.div_lt_upper_bound; [lia|]. rewrite Nat2Z.inj_succ, Z.pow_succ_r in Hn; lia.
Qed.

(** a number of several digits does not begin with a zero *)
Lemma dec_from_head fuel n b ds : 0 <= n < 10 ^ Z.of_nat fuel ->
  dec_from fuel n = b :: ds -> ds <> [] -> byte_val b <> 48.
Proof.
  revert n b ds. induction fuel as [|fuel IH]; intros n b ds Hn; cbn [dec_from]; [done|].
  pose proof (Z.mod_pos_bound n 10 ltac:(lia)). pose proof (Z.div_mod n 10 ltac:(lia)).
  destruct (Z.ltb_spec n 10) as [|Hge]; [cbn; by intros [= <- <-]|].
  assert (Hd : 0 <= n / 10 < 10 ^ Z.of_nat fuel).
  { split; [apply Z.div_pos; lia|]. apply Z.div_lt_upper_bound; [lia|].
    rewrite Nat2Z.inj_succ, Z.pow_succ_r in Hn; lia. }
  destruct (dec_from fuel (n / 10)) as [|b' ds'] eqn:E.
  { pose proof (dec_from_val fuel (n / 10) Hd) as Hv. rewrite E in Hv. change (digits_val []) with 0 in Hv. lia. }
  cbn. intros [= <- <-] _. destruct ds' as [|b2 ds2]; [|by eapply (IH _ _ _ Hd E)].
  intros H48. pose proof (dec_from_val fuel (n / 10) Hd) as Hv. rewrite E in Hv.
  unfold digits_val in Hv. cbn in Hv. lia.
Qed.

Lemma take_digits_app ds rest :
  Forall (fun b => is_digit b = true) ds ->
  match rest with [] => True | b :: _ => is_digit b = false end ->
  take_digits (ds ++ rest) = (ds, rest).
Proof.
  intros Hd Hr. induction Hd as [|b ds Hb Hd IH]; cbn.
  - destruct rest as [|b rest]; [done|]. cbn. by rewrite Hr.
  - by rewrite Hb, IH.
Qed.

(** what may follow a value *)
Definition value_end (tail : list byte) : Prop :=
  match tail with [] => True | b :: _ => b = x2c \/ b = x7d \/ b = x5d end.

Lemma value_end_digit tail : value_end tail ->
  match tail with [] => True | b :: _ => is_digit b = false end.
Proof. destruct tail as [|b tail]; [done|]. intros H. by destruct H as [-> | [-> | -> ] ]. Qed.

Lemma parse_num_dec n tail : is_u64 n -> value_end tail ->
  parse_num (dec n ++ tail) = Some (n, tail).
Proof.
  intros Hn Ht. assert (H10 : 0 <= n < 10 ^ Z.of_nat 20) by (unfold is_u64, W64 in Hn; lia).
  unfold parse_num, dec. rewrite take_digits_app;
    [|apply dec_from_digits; lia|by apply value_end_digit].
  pose proof (dec_from_val 20 n H10) as Hv.
  destruct (dec_from 20 n) as [|b [|b2 ds]] eqn:E.
  - change (dec_from 20 n) with
      ((if n <? 10 then [] else dec_from 19 (n / 10)) ++ [byte_of (48 + n mod 10)]) in E.
    by apply app_nil in E as [_ ?].
  - by rewrite Hv.
  - pose proof (dec_from_head 20 n b (b2 :: ds) H10 E ltac:(done)).
    destruct (Z.eqb_spec (byte_val b) 48); [done|]. rewrite Hv.
    destruct (Z.leb_spec W64 n); [destruct Hn; lia|done].
Qed.

Lemma dec_head n tail : exists b rest, dec n ++ tail = b :: rest /\
  (0 <= n -> is_digit b = true).
Proof.
  unfold dec. change (dec_from 20 n) with
    ((if n <? 10 then [] else dec_from 19 (n / 10)) ++ [byte_of (48 + n mod 10)]).
  rewrite <- app_assoc. change ([?x] ++ tail) with (x :: tail).
  destruct (if n <? 10 then [] else dec_from 19 (n / 10)) as [|b ds] eqn:E.
  - eexists _, _. split; [reflexivity|]. intros Hn. pose proof (Z.mod_pos_bound n 10 ltac:(lia)).
    unfold is_digit. rewrite digit_val by lia. apply andb_true_iff. rewrite !Z.leb_le. lia.
  - eexists b, _. split; [reflexivity|]. intros Hn. destruct (n <? 10); [done|].
    pose proof (dec_from_digits 19 (n / 10) ltac:(apply Z.div_pos; lia)) as H.
    rewrite E in H. by apply Forall_cons in H as [? _].
Qed.

(** * Hex *)

Lemma hex_val_digit n : 0 <= n < 16 -> hex_val (hex_digit n) = Some n.
Proof.
  intros H. unfold hex_digit. destruct (Z.ltb_spec n 10); unfold hex_val; rewrite byte_val_of.
  - rewrite Z.mod_small by lia. destruct (Z.leb_spec 48 (48 + n)), (Z.leb_spec (48 + n) 57); try lia.
    cbn. f_equal. lia.
  - rewrite Z.mod_small by lia. destruct (Z.leb_spec (87 + n) 57); [lia|].
    rewrite andb_false_r. destruct (Z.leb_spec 97 (87 + n)), (Z.leb_spec (87 + n) 102); try lia.
    cbn. f_equal. lia.
Qed.

Lemma DecodeString_Encode op : DecodeString (EncodeToString op) = Some op.
Proof.
  induction op as [|b op IH]; [done|]. unfold EncodeToString in *. cbn [mbind list_bind app DecodeString].
  pose proof (byte_val_range b) as Hb.
  pose proof (Z.mod_pos_bound (byte_val b) 16 ltac:(lia)). pose proof (Z.div_mod (byte_val b) 16 ltac:(lia)).
  assert (0 <= byte_val b / 16 < 16)
    by (split; [apply Z.div_pos; lia|apply Z.div_lt_upper_bound; lia]).
  rewrite !hex_val_digit by lia.
  cbn [mbind option_bind]. rewrite IH, <- H0, byte_of_val. done.
Qed.

(** * Strings *)

(** no quote and no backslash *)
Definition plain (s : list byte) : Prop := Forall (fun b => byte_val b <> 34 /\ byte_val b <> 92) s.

Lemma parse_str_plain s rest : plain s -> parse_str (s ++ quote :: rest) = Some (s, rest).
Proof.
  induction 1 as [|b s [H1 H2] _ IH]; [done|]. cbn [app parse_str].
  rewrite (proj2 (Z.eqb_neq _ _) H1), (proj2 (Z.eqb_neq _ _) H2), IH. done.
Qed.

Lemma plain_hex op : plain (EncodeToString op).
Proof.
  unfold EncodeToString, plain. apply Forall_forall. intros x. rewrite list_elem_of_bind.
  intros (b & Hx & _). pose proof (byte_val_range b).
  assert (Hh : forall n, 0 <= n < 16 -> byte_val (hex_digit n) <> 34 /\ byte_val (hex_digit n) <> 92).
  { intros n Hn. unfold hex_digit. destruct (Z.ltb_spec n 10); rewrite byte_val_of, Z.mod_small; lia. }
  apply elem_of_cons in Hx as [->|Hx%list_elem_of_singleton]; [|subst x]; apply Hh;
    [split; [apply Z.div_pos; lia|apply Z.div_lt_upper_bound; lia]|apply Z.mod_pos_bound; lia].
Qed.

(** * Values *)

(** [vt] is the text of [v] *)
Definition value_text (vt : list byte) (v : json) : Prop :=
  forall tail, value_end tail -> parse_value (vt ++ tail) = Some (v, tail).

Lemma value_num n : is_u64 n -> value_text (dec n) (JNum n).
Proof.
  intros Hn tail Ht. unfold parse_value. destruct (dec_head n tail) as (b & rest & E & Hb).
  rewrite E. specialize (Hb ltac:(destruct Hn; lia)). unfold is_digit in Hb.
  apply andb_true_iff in Hb as [H1%Z.leb_le H2%Z.leb_le].
  rewrite !(proj2 (Z.eqb_neq _ _)) by lia. rewrite <- E, parse_num_dec by done. done.
Qed.

Lemma value_str s : plain s -> value_text (quote :: s ++ [quote]) (JStr s).
Proof.
  intros Hs tail _. unfold parse_value. cbn [app]. change (byte_val quote =? 34) with true. cbv iota.
  rewrite <- app_assoc. cbn [app]. by rewrite parse_str_plain.
Qed.

Lemma value_bool b : value_text (bool_text b) (JBool b).
Proof. intros tail _. by destruct b. Qed.

Lemma fields_text_cons f f2 fields :
  fields_text (f :: f2 :: fields) = f ++ text "," ++ fields_text (f2 :: fields).
Proof. done. Qed.

Lemma parse_nums_text l : forall fuel n tail,
  Forall is_u64 (n :: l) -> (length l < fuel)%nat ->
  parse_nums fuel (fields_text (dec <$> n :: l) ++ x5d :: tail) = Some (n :: l, tail).
Proof.
  induction l as [|n2 l IH]; intros fuel n tail Hu Hf; (destruct fuel as [|fuel]; [cbn in Hf; lia|]);
    apply Forall_cons in Hu as [Hn Hu]; cbn [parse_nums].
  - cbn [fmap list_fmap fields_text]. rewrite parse_num_dec by (cbn; auto). done.
  - change (dec <$> n :: n2 :: l) with (dec n :: dec n2 :: (dec <$> l)).
    rewrite fields_text_cons, <- !app_assoc.
    rewrite parse_num_dec by (cbn; auto). cbn [mbind option_bind app text list_byte_of_string].
    change (parse_byte x2c (text "," ++ ?x)) with (Some x). cbn [mbind option_bind].
    change (dec n2 :: (dec <$> l)) with (dec <$> n2 :: l). rewrite IH; [done|done|cbn in Hf; lia].
Qed.

Lemma fields_text_length fields : (length fields <= S (length (fields_text fields)))%nat.
Proof.
  induction fields as [|f [|f2 fields] IH]; [cbn; lia|cbn; lia|].
  rewrite fields_text_cons, !length_app. change (length (text ",")) with 1%nat.
  cbn [length] in *. lia.
Qed.

Lemma value_arr l : Forall is_u64 l -> value_text (text "[" ++ fields_text (dec <$> l) ++ text "]") (JArr l).
Proof.
  intros Hu tail _. rewrite <- !app_assoc. change (text "]" ++ tail) with (x5d :: tail).
  change (text "[" ++ ?x) with (x5b :: x). unfold parse_value.
  change (byte_val x5b =? 34) with false. change (byte_val x5b =? 91) with true. cbv iota.
  unfold parse_arr. destruct l as [|n l]; [done|].
  assert (Hhd : parse_byte x5d (fields_text (dec <$> n :: l) ++ x5d :: tail) = None).
  { assert (exists rest, fields_text (dec <$> n :: l) ++ x5d :: tail = dec n ++ rest) as [rest ->].
    { rewrite fmap_cons. destruct l; cbn [fmap list_fmap fields_text]; rewrite <- ?app_assoc; eauto. }
    destruct (dec_head n rest) as (b & rest' & -> & Hb). unfold parse_byte.
    apply Forall_cons in Hu as [[Hn _] _]. specialize (Hb Hn). unfold is_digit in Hb.
    apply andb_true_iff in Hb as [H1%Z.leb_le H2%Z.leb_le].
    change (byte_val x5d) with 93. by rewrite (proj2 (Z.eqb_neq _ _)) by lia. }
  rewrite Hhd. rewrite parse_nums_text; [done|done|].
  pose proof (fields_text_length (dec <$> n :: l)) as H. rewrite fmap_cons in H. cbn [length] in H.
  rewrite length_fmap in H. rewrite length_app, fmap_cons. cbn [length]. lia.
Qed.

(** * Objects *)

(** the field [f] is the member [p] *)
Definition member_text (f : list byte) (p : list byte * json) : Prop :=
  exists name vt, f = key_text name ++ vt /\ p.1 = text name /\ plain (text name) /\
    value_text vt p.2.

Lemma member_parse fuel f p tail : member_text f p -> value_end tail ->
  parse_members (S fuel) (f ++ tail) =
  match parse_byte x2c tail with
  | Some bs => l ← parse_members fuel bs; Some (p :: l)
  | None => bs ← parse_byte x7d tail; match bs with [] => Some [p] | _ => None end
  end.
Proof.
  intros (name & vt & -> & Hk & Hp & Hv) Ht. destruct p as [k v]. cbn [fst snd] in *. subst k.
  cbn [parse_members]. unfold key_text. rewrite <- app_assoc. cbn [app].
  change (parse_byte quote (quote :: ?x)) with (Some x). cbn [mbind option_bind].
  rewrite <- app_assoc. cbn [app]. rewrite parse_str_plain by done. cbn [mbind option_bind].
  change (parse_byte x3a (text ":" ++ ?x)) with (Some x). cbn [mbind option_bind].
  by rewrite Hv.
Qed.

Lemma members_parse fs ps : Forall2 member_text fs ps -> fs <> [] -> forall fuel,
  (length fs <= fuel)%nat -> parse_members fuel (fields_text fs ++ text "}") = Some ps.
Proof.
  induction 1 as [|f p fs ps Hf Hfs IH]; [done|]. intros _ fuel Hlen.
  destruct fuel as [|fuel]; [cbn in Hlen; lia|].
  destruct fs as [|f2 fs].
  - apply Forall2_nil_inv_l in Hfs. subst ps. cbn [fields_text]. rewrite (member_parse _ _ p); [done|done|].
    cbn. auto.
  - rewrite fields_text_cons, <- app_assoc. rewrite (member_parse _ _ p); [|done|cbn; auto].
    rewrite <- app_assoc. change (parse_byte x2c (text "," ++ ?x)) with (Some x). cbv beta iota.
    rewrite IH; [done|done|cbn in *; lia].
Qed.

Lemma object_parse fs ps : Forall2 member_text fs ps -> fs <> [] ->
  parse_object (object_text fs) = Some ps.
Proof.
  intros H Hne. unfold parse_object, object_text.
  change (parse_byte x7b (text "{" ++ ?x)) with (Some x). cbn [mbind option_bind].
  apply members_parse; [done|done|]. pose proof (fields_text_length fs). rewrite length_app. cbn. lia.
Qed.

(** * The records *)

Lemma num_member name n : plain (text name) -> is_u64 n ->
  member_text (key_text name ++ dec n) (text name, JNum n).
Proof. intros Hp Hn. exists name, (dec n). split_and!; [done..|by apply value_num]. Qed.
Lemma bool_member name b : plain (text name) ->
  member_text (key_text name ++ bool_text b) (text name, JBool b).
Proof. intros Hp. exists name, (bool_text b). split_and!; [done..|apply value_bool]. Qed.
Lemma str_member name s : plain (text name) -> plain s ->
  member_text (key_text name ++ quote :: s ++ [quote]) (text name, JStr s).
Proof. intros Hp Hs. exists name, (quote :: s ++ [quote]). split_and!; [done..|by apply value_str]. Qed.
Lemma arr_member name l : plain (text name) -> Forall is_u64 l ->
  member_text (key_text name ++ text "[" ++ fields_text (dec <$> l) ++ text "]") (text name, JArr l).
Proof. intros Hp Hl. eexists name, _. split_and!; [done..|by apply value_arr]. Qed.

#[export] Instance plain_dec s : Decision (plain s).
Proof. unfold plain. apply _. Defined.
Ltac plain_name := apply (bool_decide_unpack _); by vm_compute.

Lemma busRecordBody_parse slot clientId busSeq logIdxs noop :
  is_u64 slot -> is_u64 clientId -> is_u64 busSeq -> Forall is_u64 logIdxs ->
  Unmarshal_disk (busRecordBody slot clientId busSeq logIdxs noop) =
  Some (mkdiskRecord slot clientId 0 (Some busSeq) logIdxs noop false).
Proof.
  intros H1 H2 H3 H4. unfold Unmarshal_disk, busRecordBody.
  rewrite (object_parse _ [(text "slot", JNum slot); (text "client", JNum clientId);
    (text "bus", JNum busSeq); (text "log_indexes", JArr logIdxs); (text "noop", JBool noop)]);
    [done| |done].
  do 3 (constructor; [apply num_member; [plain_name|assumption]|]).
  constructor; [apply arr_member; [plain_name|assumption]|].
  constructor; [apply bool_member; plain_name|]. constructor.
Qed.

Lemma reqListRecordBody_parse logIndex clientId reqId op :
  is_u64 logIndex -> is_u64 clientId -> is_u64 reqId -> is_u64 (Zlength op) ->
  Unmarshal_req (reqListRecordBody logIndex clientId reqId op) =
  Some (mkreqDiskRecord logIndex clientId reqId (EncodeToString op)).
Proof.
  intros H1 H2 H3 H4. unfold Unmarshal_req, reqListRecordBody.
  rewrite (object_parse _ [(text "log_index", JNum logIndex); (text "client", JNum clientId);
    (text "req_id", JNum reqId); (text "len", JNum (Zlength op)); (text "op", JStr (EncodeToString op))]);
    [done| |done].
  do 4 (constructor; [apply num_member; [plain_name|assumption]|]).
  constructor; [apply str_member; [plain_name|apply plain_hex]|]. constructor.
Qed.

(** a place holder is read as a hole *)
Lemma placeholderBody_parse slot : is_u64 slot ->
  Unmarshal_disk (placeholderBody slot) = Some (mkdiskRecord slot 0 0 None [] false true).
Proof.
  intros H1. unfold Unmarshal_disk, placeholderBody.
  rewrite (object_parse _ [(text "slot", JNum slot); (text "req_id", JNum 0); (text "len", JNum 0);
    (text "op", JStr []); (text "noop", JBool false); (text "pending", JBool true)]);
    [done| |done].
  do 3 (constructor; [apply num_member; [plain_name|done]|]).
  constructor; [apply (str_member "op" []); [plain_name|constructor]|].
  do 2 (constructor; [apply bool_member; plain_name|]). constructor.
Qed.

(** ** The characters of a record: no newline in it, no space at its end *)

Definition printable (bs : list byte) : Prop := Forall (fun b => 32 <= byte_val b) bs.
#[export] Instance printable_dec s : Decision (printable s).
Proof. unfold printable. apply _. Defined.

Lemma printable_app a b : printable (a ++ b) <-> printable a /\ printable b.
Proof. apply Forall_app. Qed.
Lemma printable_text s : bool_decide (printable (text s)) = true -> printable (text s).
Proof. apply bool_decide_eq_true. Qed.
Lemma printable_dec_text n : 0 <= n -> printable (dec n).
Proof.
  intros H. eapply Forall_impl; [by apply (dec_from_digits 20)|]. intros b Hb. unfold is_digit in Hb.
  apply andb_true_iff in Hb as [?%Z.leb_le _]. lia.
Qed.
Lemma printable_hex op : printable (EncodeToString op).
Proof.
  unfold EncodeToString, printable. apply Forall_forall. intros x. rewrite list_elem_of_bind.
  intros (b & Hx & _). pose proof (byte_val_range b).
  assert (Hh : forall n, 0 <= n < 16 -> 32 <= byte_val (hex_digit n)).
  { intros n Hn. unfold hex_digit. destruct (Z.ltb_spec n 10); rewrite byte_val_of, Z.mod_small; lia. }
  apply elem_of_cons in Hx as [->|Hx%list_elem_of_singleton]; [|subst x]; apply Hh;
    [split; [apply Z.div_pos; lia|apply Z.div_lt_upper_bound; lia]|apply Z.mod_pos_bound; lia].
Qed.
Lemma printable_fields fs : Forall printable fs -> printable (fields_text fs).
Proof.
  induction 1 as [|f fs Hf Hfs IH]; [constructor|]. destruct fs as [|f2 fs]; [done|].
  rewrite fields_text_cons. apply printable_app. split; [done|].
  apply printable_app. split; [by apply printable_text|done].
Qed.
Lemma printable_object fs : Forall printable fs -> printable (object_text fs).
Proof.
  intros H. unfold object_text. rewrite !printable_app.
  split_and!; [by apply printable_text|by apply printable_fields|by apply printable_text].
Qed.
Lemma printable_bool b : printable (bool_text b).
Proof. destruct b; by apply printable_text. Qed.

(** a record that is one line of the file *)
Definition record_line_ok (body : list byte) : Prop :=
  printable body /\ exists l b, body = l ++ [b] /\ byte_val b <> 32.

Lemma object_line fs : Forall printable fs -> record_line_ok (object_text fs).
Proof.
  intros H. split; [by apply printable_object|]. exists (text "{" ++ fields_text fs), x7d.
  unfold object_text. rewrite <- app_assoc. done.
Qed.

Ltac printable_field :=
  apply printable_app; split; [apply (bool_decide_unpack _); by vm_compute|].

Lemma busRecordBody_line slot clientId busSeq logIdxs noop :
  0 <= slot -> 0 <= clientId -> 0 <= busSeq -> Forall is_u64 logIdxs ->
  record_line_ok (busRecordBody slot clientId busSeq logIdxs noop).
Proof.
  intros H1 H2 H3 H4. apply object_line.
  do 3 (constructor; [printable_field; by apply printable_dec_text|]).
  constructor; [printable_field|].
  - apply printable_app. split; [by apply printable_text|]. apply printable_app.
    split; [|by apply printable_text]. apply printable_fields, Forall_fmap.
    eapply Forall_impl; [exact H4|]. intros n [Hn _]. by apply printable_dec_text.
  - constructor; [printable_field; apply printable_bool|constructor].
Qed.

Lemma reqListRecordBody_line logIndex clientId reqId op :
  0 <= logIndex -> 0 <= clientId -> 0 <= reqId ->
  record_line_ok (reqListRecordBody logIndex clientId reqId op).
Proof.
  intros H1 H2 H3. apply object_line.
  do 4 (constructor; [printable_field; apply printable_dec_text; lia|]).
  constructor; [printable_field|constructor].
  constructor; [by vm_compute|]. apply printable_app. split; [apply printable_hex|].
  constructor; [by vm_compute|constructor].
Qed.
