(* ===== verification/DurableInv.v ===== *)
(** The durable log refines a map from keys to records: what was pushed for a
    key first is what a reader gets for it. *)
From S2P Require Import Prelude WireBase Wire ReplicaState DurableLog DurableSpec.

(** * The abstract log *)

(** the first key and the records' bodies, in the order of their keys *)
Definition alog : Type := option (Z * list (list byte)).

(** a record with the next key is appended, one with an earlier key dropped *)
Definition keep (a : alog) (rec : Z * list byte) : alog :=
  match a with
  | None => Some (rec.1, [rec.2])
  | Some (first, bodies) =>
      if rec.1 =? first + Zlength bodies then Some (first, bodies ++ [rec.2]) else a
  end.

Definition alog_get (a : alog) (key : Z) : option (list byte) :=
  match a with
  | None => None
  | Some (first, bodies) => if key <? first then None else bodies !! Z.to_nat (key - first)
  end.

(** keys are pushed without a gap, though they may go back *)
Definition key_ok (a : alog) (rec : Z * list byte) : Prop :=
  0 <= rec.1 /\ rec.1 + 1 < W64 /\ record_line_ok rec.2 /\
  match a with Some (first, bodies) => rec.1 <= first + Zlength bodies | None => True end.

Definition as_line (body : list byte) : list byte := body ++ [newline].
Definition alines (a : alog) : list (list byte) :=
  match a with Some (_, bodies) => as_line <$> bodies | None => [] end.

(** * Bytes *)

Lemma split_line_app x y l r : split_line x = Some (l, r) -> split_line (x ++ y) = Some (l, r ++ y).
Proof.
  revert l r. induction x as [|b x IH]; intros l r; [done|]. cbn [split_line app].
  destruct (_ =? _); [by intros [= <- <-]|].
  destruct (split_line x) as [[l' r']|] eqn:E; [|done]. cbn. intros [= <- <-].
  by rewrite (IH _ _ eq_refl).
Qed.

Lemma split_line_line body tail : printable body ->
  split_line (as_line body ++ tail) = Some (as_line body, tail).
Proof.
  unfold as_line. induction 1 as [|b body Hb _ IH]; [done|].
  cbn [app split_line]. change (byte_val newline) with 10.
  rewrite (proj2 (Z.eqb_neq _ _)) by lia. by rewrite IH.
Qed.

Lemma split_line_length x l r : split_line x = Some (l, r) -> x = l ++ r /\ (0 < length l)%nat.
Proof.
  revert l r. induction x as [|b x IH]; intros l r; [done|]. cbn [split_line].
  destruct (_ =? _); [intros [= <- <-]; cbn; split; [done|lia]|].
  destruct (split_line x) as [[l' r']|] eqn:E; [|done]. cbn. intros [= <- <-].
  destruct (IH _ _ eq_refl) as [-> ?]. cbn. split; [done|lia].
Qed.

Lemma TrimRight_last l b : byte_val b <> 32 -> TrimRight (l ++ [b]) = l ++ [b].
Proof.
  intros Hb. induction l as [|c l IH].
  - cbn. change (byte_val space) with 32. by rewrite (proj2 (Z.eqb_neq _ _) Hb).
  - cbn [app TrimRight]. rewrite IH. by destruct l.
Qed.

Lemma line_body_line body : record_line_ok body -> line_body (as_line body) = body /\ body <> [].
Proof.
  intros [_ (l & b & -> & Hb)]. unfold line_body, as_line. split; [|by destruct l].
  rewrite length_app. cbn [length]. rewrite Nat.add_sub. rewrite take_app_length.
  by apply TrimRight_last.
Qed.

(** * The reader *)

(** what the reader has not consumed of the file *)
Definition unread (d : durableLog) : list byte :=
  dl_rBuf d ++ drop (Z.to_nat (dl_rPos d)) (dl_file d).

Definition with_reader (d' d : durableLog) : durableLog :=
  d <| dl_rPos := dl_rPos d' |> <| dl_rBuf := dl_rBuf d' |> <| dl_rKey := dl_rKey d' |>
    <| dl_rOff := dl_rOff d' |> <| dl_rValid := dl_rValid d' |>.

Definition reader_frame (d d' : durableLog) : Prop :=
  d' = with_reader d' d /\ (0 <= dl_rPos d <= Zlength (dl_file d) -> 0 <= dl_rPos d' <= Zlength (dl_file d)).

Ltac durable_eq := unfold with_reader; match goal with |- ?x = _ => destruct x end; reflexivity.

Lemma reader_frame_refl d : reader_frame d d.
Proof. split; [destruct d; reflexivity|done]. Qed.

Lemma reader_frame_file d d' : reader_frame d d' ->
  dl_file d' = dl_file d /\ dl_w d' = dl_w d /\ dl_offIdx d' = dl_offIdx d /\
  dl_firstKey d' = dl_firstKey d /\ dl_haveFirst d' = dl_haveFirst d /\
  dl_pending d' = dl_pending d /\ dl_tailOff d' = dl_tailOff d /\ dl_nextSlot d' = dl_nextSlot d /\
  dl_haveNext d' = dl_haveNext d /\ dl_holes d' = dl_holes d /\ dl_closed d' = dl_closed d /\
  dl_closing d' = dl_closing d.
Proof. intros [-> _]. unfold with_reader. by rsimpl. Qed.

Lemma reader_frame_trans d1 d2 d3 : reader_frame d1 d2 -> reader_frame d2 d3 -> reader_frame d1 d3.
Proof.
  intros H1 H2. destruct (reader_frame_file _ _ H1) as (Hf & _).
  destruct H1 as [H1 H1'], H2 as [H2 H2']. split; [|rewrite Hf in H2'; auto].
  rewrite H2, H1. unfold with_reader. destruct d1, d2, d3. reflexivity.
Qed.

Lemma fill_spec d : 0 <= dl_rPos d -> match fill d with
  | Some d' => reader_frame d d' /\ dl_rKey d' = dl_rKey d /\ dl_rValid d' = dl_rValid d /\
      unread d' = unread d /\
      (length (drop (Z.to_nat (dl_rPos d')) (dl_file d')) < length (drop (Z.to_nat (dl_rPos d)) (dl_file d)))%nat
  | None => drop (Z.to_nat (dl_rPos d)) (dl_file d) = []
  end.
Proof.
  intros Hpos. unfold fill.
  set (room := readerBufBytes - _). set (rest := drop (Z.to_nat (dl_rPos d)) (dl_file d)).
  assert (Hroom : 0 < room).
  { unfold room. pose proof (Z.mod_pos_bound (Zlength (dl_rBuf d)) readerBufBytes ltac:(done)). lia. }
  destruct (take (Z.to_nat room) rest) as [|c chunk] eqn:E.
  { destruct rest as [|b rest']; [done|]. destruct (Z.to_nat room) eqn:En; [lia|done]. }
  assert (Hchunk : (length (c :: chunk) <= length rest)%nat).
  { rewrite <- E, length_take. lia. }
  assert (Hrest : rest = (c :: chunk) ++ drop (length (c :: chunk)) rest).
  { rewrite <- E, length_take. rewrite <- (take_drop (Z.to_nat room) rest) at 1. f_equal.
    destruct (decide (Z.to_nat room <= length rest)%nat); [by rewrite Nat.min_l by lia|].
    rewrite Nat.min_r by lia. rewrite !drop_ge by lia. done. }
  assert (Hdrop : drop (Z.to_nat (dl_rPos d + Zlength (c :: chunk))) (dl_file d) =
                  drop (length (c :: chunk)) rest).
  { unfold rest. rewrite drop_drop. f_equal. lia. }
  assert (length rest = length (dl_file d) - Z.to_nat (dl_rPos d))%nat as Hl
    by (unfold rest; by rewrite length_drop).
  set (ch := c :: chunk) in *. split_and!.
  - split; [unfold with_reader; rsimpl; destruct d; reflexivity|rsimpl; lia].
  - by rsimpl.
  - by rsimpl.
  - unfold unread. rsimpl. rewrite Hdrop, <- app_assoc. f_equal. by rewrite <- Hrest.
  - rsimpl. rewrite Hdrop, length_drop. assert (0 < length ch)%nat by (cbn; lia). fold rest. lia.
Qed.

Lemma read_line_spec fuel : forall d,
  0 <= dl_rPos d <= Zlength (dl_file d) ->
  (length (drop (Z.to_nat (dl_rPos d)) (dl_file d)) <= fuel)%nat ->
  let (d', line) := read_line fuel d in
  reader_frame d d' /\ dl_rKey d' = dl_rKey d /\ dl_rValid d' = dl_rValid d /\
  match line with
  | Some l => split_line (unread d) = Some (l, unread d')
  | None => split_line (unread d) = None
  end.
Proof.
  induction fuel as [|fuel IH]; intros d Hpos Hf; cbn [read_line];
    destruct (split_line (dl_rBuf d)) as [[l r]|] eqn:E.
  1,3: split_and!; [split; [unfold with_reader; rsimpl; destruct d; reflexivity|rsimpl; lia]|by rsimpl|by rsimpl|];
    unfold unread; rsimpl; by apply split_line_app.
  - destruct (drop _ (dl_file d)) eqn:Ed; [|cbn in Hf; lia].
    split_and!; [split; [unfold with_reader; rsimpl; destruct d; reflexivity|rsimpl; lia]|by rsimpl|by rsimpl|].
    unfold unread. by rewrite Ed, app_nil_r.
  - pose proof (fill_spec d ltac:(lia)) as Hfill. destruct (fill d) as [d1|].
    + destruct Hfill as (Hfr & Hk & Hv & Hu & Hl).
      destruct (reader_frame_file _ _ Hfr) as (Hfile & _). pose proof (proj2 Hfr Hpos) as Hpos1.
      rewrite <- Hfile in Hpos1. specialize (IH d1 Hpos1 ltac:(lia)).
      destruct (read_line fuel d1) as [d2 line]. destruct IH as (Hfr2 & Hk2 & Hv2 & Hline).
      split; [by eapply reader_frame_trans|]. split; [congruence|]. split; [congruence|].
      by rewrite Hu in Hline.
    + split_and!; [split; [unfold with_reader; rsimpl; destruct d; reflexivity|rsimpl; lia]|by rsimpl|by rsimpl|].
      unfold unread. by rewrite Hfill, app_nil_r.
Qed.

Lemma next_line_spec d : 0 <= dl_rPos d <= Zlength (dl_file d) ->
  let (d', line) := next_line d in
  reader_frame d d' /\
  match line with
  | Some l => split_line (unread d) = Some (l, unread d') /\ dl_rKey d' = add64 (dl_rKey d) 1 /\
              dl_rValid d' = dl_rValid d
  | None => split_line (unread d) = None /\ dl_rValid d' = false
  end.
Proof.
  intros Hpos. unfold next_line, ReadBytes.
  pose proof (read_line_spec (length (dl_file d)) d Hpos ltac:(rewrite length_drop; lia)) as H.
  destruct (read_line _ d) as [d' [l|]]; destruct H as (Hfr & Hk & Hv & Hl).
  - split.
    + eapply reader_frame_trans; [exact Hfr|]. split; [unfold with_reader; rsimpl; destruct d'; reflexivity|by rsimpl].
    + rsimpl. rewrite Hk. done.
  - split; [|by rsimpl]. eapply reader_frame_trans; [exact Hfr|].
    split; [unfold with_reader; rsimpl; destruct d'; reflexivity|by rsimpl].
Qed.

(** * The reader against the abstract log *)

(** a reader that is valid stands at a line of the log *)
Record reader_at (a : alog) (d : durableLog) (n : nat) : Prop := {
  ra_pos : 0 <= dl_rPos d <= Zlength (dl_file d);
  ra_line : (n <= length (alines a))%nat;
  ra_unread : unread d ++ dl_w d = concat (drop n (alines a));
  ra_key : match a with
           | Some (first, bodies) => dl_rKey d = first + Z.of_nat n
           | None => False
           end }.

Definition alog_ok (a : alog) : Prop :=
  match a with
  | Some (first, bodies) =>
      0 <= first /\ first + Zlength bodies < W64 /\ Forall record_line_ok bodies /\ bodies <> []
  | None => True
  end.

(** one line: the next record, unless the log is at its end; a line that is
    read is the log's whether or not everything is on disk *)
Lemma next_line_at a d n : alog_ok a -> reader_at a d n ->
  let (d', line) := next_line d in
  reader_frame d d' /\
  match line with
  | Some l => alines a !! n = Some l /\ reader_at a d' (S n) /\ dl_rValid d' = dl_rValid d
  | None => dl_rValid d' = false /\ (dl_w d = [] -> n = length (alines a))
  end.
Proof.
  intros Hok [Hpos Hn Hun Hkey]. pose proof (next_line_spec d Hpos) as H.
  destruct (next_line d) as [d' [l|]]; destruct H as [Hfr H];
    destruct (reader_frame_file _ _ Hfr) as (Hfile & Hw & _).
  - destruct H as (Hs & Hk & Hv). split; [done|].
    pose proof (split_line_app _ (dl_w d) _ _ Hs) as Hs'. rewrite Hun in Hs'.
    destruct a as [[first bodies]|]; [|done]. cbn [alines] in *. destruct Hok as (H0 & H64 & Hbs & _).
    rewrite length_fmap in Hn.
    destruct (decide (n = length bodies)) as [->|Hne].
    { rewrite drop_ge in Hs' by (rewrite length_fmap; lia). done. }
    destruct (lookup_lt_is_Some_2 bodies n ltac:(lia)) as [body Hb].
    assert (Hl : (as_line <$> bodies) !! n = Some (as_line body)) by (rewrite list_lookup_fmap, Hb; done).
    rewrite (drop_S _ _ _ Hl) in Hs'. cbn [concat] in Hs'.
    rewrite Forall_lookup in Hbs. destruct (Hbs _ _ Hb) as [Hp _].
    rewrite split_line_line in Hs' by done. injection Hs' as <- Hrest.
    split; [done|]. split; [|done]. constructor.
    + rewrite Hfile. by apply (proj2 Hfr).
    + cbn [alines]. rewrite length_fmap. lia.
    + cbn [alines]. rewrite Hw. by symmetry.
    + rewrite Hk, Hkey. unfold add64. rewrite u64_small; [lia|]. unfold is_u64. lia.
  - destruct H as [Hs Hv]. split; [done|]. split; [done|]. intros Hw0. rewrite Hw0, app_nil_r in Hun.
    rewrite Hun in Hs. destruct a as [[first bodies]|]; [|done]. cbn [alines] in *.
    destruct Hok as (_ & _ & Hbs & _). rewrite length_fmap in *.
    destruct (decide (n = length bodies)) as [->|Hne]; [done|]. exfalso.
    destruct (lookup_lt_is_Some_2 bodies n ltac:(lia)) as [body Hb].
    rewrite (drop_S _ (as_line body)) in Hs by (rewrite list_lookup_fmap, Hb; done).
    cbn [concat] in Hs. rewrite Forall_lookup in Hbs. destruct (Hbs _ _ Hb) as [Hp _].
    by rewrite split_line_line in Hs.
Qed.

Lemma skip_lines_at a m : forall d n, alog_ok a -> reader_at a d n -> dl_rValid d = true ->
  let (d', ok) := skip_lines m d in
  reader_frame d d' /\
  (if ok : bool then reader_at a d' (n + m) /\ dl_rValid d' = true
   else dl_rValid d' = false /\ (dl_w d = [] -> (length (alines a) < n + m)%nat)).
Proof.
  induction m as [|m IH]; intros d n Hok Hat Hv; cbn [skip_lines].
  { split; [apply reader_frame_refl|]. by rewrite Nat.add_0_r. }
  pose proof (next_line_at a d n Hok Hat) as H. destruct (next_line d) as [d1 [l|]]; destruct H as [Hfr H].
  - destruct H as (_ & Hat1 & Hv1). specialize (IH d1 (S n) Hok Hat1 ltac:(congruence)).
    destruct (skip_lines m d1) as [d2 ok]. destruct IH as [Hfr2 IH].
    split; [by eapply reader_frame_trans|]. rewrite Nat.add_succ_r.
    destruct ok; [done|]. destruct IH as [? IH]. split; [done|].
    destruct (reader_frame_file _ _ Hfr) as (_ & Hw & _). rewrite Hw in IH. exact IH.
  - split; [done|]. destruct H as [? H]. split; [done|]. intros Hw. specialize (H Hw).
    destruct Hat. lia.
Qed.

(** reading [m] lines from line [n] collects their bodies from key [lo] on *)
Lemma read_loop_at first bodies m : forall lo d n out,
  alog_ok (Some (first, bodies)) -> reader_at (Some (first, bodies)) d n -> dl_rValid d = true ->
  let (d', out') := read_loop m lo d out in
  reader_frame d d' /\
  (dl_rValid d' = true -> exists n', reader_at (Some (first, bodies)) d' n') /\
  (dl_w d = [] -> forall k, out' !! k =
    if decide (first + Z.of_nat n <= k < first + Z.of_nat n + Z.of_nat m /\ lo <= k /\
               k < first + Zlength bodies)
    then bodies !! Z.to_nat (k - first) else out !! k).
Proof.
  induction m as [|m IH]; intros lo d n out Hok Hat Hv; cbn [read_loop].
  { split; [apply reader_frame_refl|]. split; [eauto|]. intros _ k. by rewrite decide_False by lia. }
  pose proof (next_line_at _ d n Hok Hat) as H. destruct (next_line d) as [d1 [l|]]; destruct H as [Hfr H].
  - destruct H as (Hl & Hat1 & Hv1).
    pose proof (ra_key _ _ _ Hat) as Hkey. cbn in Hkey.
    cbn [alines] in Hl. apply list_lookup_fmap_Some in Hl as (body & -> & Hb).
    pose proof Hok as (_ & _ & Hbs & _). rewrite Forall_lookup in Hbs.
    destruct (line_body_line body (Hbs _ _ Hb)) as [Hbody Hne]. rewrite Hbody.
    assert (Nat.ltb 0 (length body) = true) as Hlen by (destruct body; [done|apply Nat.ltb_lt; cbn; lia]).
    rewrite Hlen, andb_true_r.
    set (out1 := if lo <=? dl_rKey d then _ else _).
    specialize (IH lo d1 (S n) out1 Hok Hat1 ltac:(congruence)).
    destruct (read_loop m lo d1 out1) as [d2 out2]. destruct IH as (Hfr2 & Hv2 & Hout).
    split; [by eapply reader_frame_trans|]. split; [done|]. intros Hw k.
    destruct (reader_frame_file _ _ Hfr) as (_ & Hw1 & _). rewrite Hw1 in Hout. rewrite (Hout Hw).
    apply lookup_lt_Some in Hb as Hlt.
    destruct (decide (k = first + Z.of_nat n)) as [->|Hk].
    + rewrite decide_False by lia. unfold out1. rewrite Hkey.
      destruct (Z.leb_spec lo (first + Z.of_nat n)).
      * rewrite lookup_insert_eq, decide_True by lia. by replace (Z.to_nat _) with n by lia.
      * by rewrite decide_False by lia.
    + assert (Ho : out1 !! k = out !! k).
      { unfold out1. destruct (lo <=? dl_rKey d); [|done]. by rewrite lookup_insert_ne by lia. }
      rewrite Ho. destruct (decide (_ /\ _)) as [H1|H1], (decide (_ /\ _)) as [H2|H2]; try done; lia.
  - destruct H as [Hv1 Hend]. split; [done|]. split; [by rewrite Hv1|]. intros Hw k.
    specialize (Hend Hw). cbn [alines] in Hend. rewrite length_fmap in Hend.
    by rewrite decide_False by lia.
Qed.

(** * The invariant *)

(** where line [n] begins *)
Definition line_offset (prefix : list byte) (a : alog) (n : nat) : Z :=
  Zlength prefix + Zlength (concat (take n (alines a))).

Record dlog_ok (prefix : list byte) (a : alog) (d : durableLog) : Prop := {
  do_alog : alog_ok a;
  do_content : dl_file d ++ dl_w d = prefix ++ concat (alines a);
  do_tail : dl_tailOff d = line_offset prefix a (length (alines a));
  do_holes : dl_holes d = ∅;
  do_open : dl_closed d = false /\ dl_closing d = false;
  do_keys : match a with
            | None => dl_haveNext d = false /\ dl_haveFirst d = false /\ dl_rValid d = false
            | Some (first, bodies) => dl_haveNext d = true /\ dl_haveFirst d = true /\
                dl_firstKey d = first /\ dl_nextSlot d = first + Zlength bodies
            end;
  do_count : Zlength (dl_offIdx d) = (Zlength (alines a) + 1023) / 1024;
  do_index : forall i off, dl_offIdx d !! i = Some off ->
    off = line_offset prefix a (1024 * i) /\ (1024 * i < length (alines a))%nat;
  do_reader : dl_rValid d = true -> exists n, reader_at a d n }.

(** the whole log fits a signed file offset *)
Definition fits (prefix : list byte) (a : alog) : Prop :=
  line_offset prefix a (length (alines a)) <= MaxInt64.

Lemma openDurableLog_ok prefix : Zlength prefix <= MaxInt64 ->
  dlog_ok prefix None (openDurableLog prefix).
Proof.
  intros H. constructor; cbn; try done.
  - unfold line_offset. cbn. lia.
Qed.

Lemma reader_frame_ok prefix a d d' : dlog_ok prefix a d -> reader_frame d d' ->
  (dl_rValid d' = true -> exists n, reader_at a d' n) ->
  (a = None -> dl_rValid d' = false) -> dlog_ok prefix a d'.
Proof.
  intros [] Hfr Hr Hn.
  destruct (reader_frame_file _ _ Hfr) as (E1 & E2 & E3 & E4 & E5 & E6 & E7 & E8 & E9 & E10 & E11 & E12).
  constructor; rewrite ?E1, ?E2, ?E3, ?E4, ?E5, ?E6, ?E7, ?E8, ?E9, ?E10, ?E11, ?E12; try done.
  destruct a as [[first bodies]|]; [done|]. destruct do_keys0 as (? & ? & _). auto.
Qed.

Lemma seekTo_spec prefix first bodies d m :
  dlog_ok prefix (Some (first, bodies)) d -> first + Z.of_nat m < W64 -> dl_w d = [] ->
  let (d', ok) := seekTo d (first + Z.of_nat m) in
  reader_frame d d' /\
  (if ok : bool then reader_at (Some (first, bodies)) d' m /\ dl_rValid d' = true
   else dl_rValid d' = false /\ (length bodies < m)%nat).
Proof.
  intros Hd Hm Hw. pose proof (do_alog _ _ _ Hd) as Hok. unfold seekTo, skip_to.
  destruct (dl_rValid d && (dl_rKey d <=? first + Z.of_nat m)) eqn:Ev.
  - apply andb_true_iff in Ev as [Hv Hle%Z.leb_le].
    destruct (do_reader _ _ _ Hd Hv) as [n Hat]. pose proof (ra_key _ _ _ Hat) as Hk. cbn in Hk.
    pose proof (skip_lines_at _ (Z.to_nat (first + Z.of_nat m - dl_rKey d)) d n Hok Hat Hv) as H.
    replace (n + Z.to_nat _)%nat with m in H by lia.
    destruct (skip_lines _ d) as [d' [|]]; destruct H as [Hfr H]; (split; [done|]); [done|].
    destruct H as [Hv' H]. specialize (H Hw). cbn [alines] in H. by rewrite length_fmap in H.
  - clear Ev. destruct (do_keys _ _ _ Hd) as (_ & Hhf & Hfk & _).
    pose proof (do_count _ _ _ Hd) as Hc. cbn [alines] in Hc. rewrite length_fmap in Hc.
    pose proof Hok as (H0 & H64 & Hbs & Hne). unfold index_entry. rewrite Hhf, Hfk.
    assert (0 < Zlength bodies) by (destruct bodies; [done|cbn; lia]).
    assert (Hcp : 0 < Zlength (dl_offIdx d)) by (rewrite Hc; apply Z.div_str_pos; lia).
    rewrite (proj2 (Z.leb_le _ _)) by lia. rewrite (proj2 (Nat.ltb_lt _ _)) by lia. cbn [andb].
    replace (sub64 (first + Z.of_nat m) first) with (Z.of_nat m)
      by (unfold sub64; rewrite u64_small; [lia|unfold is_u64; lia]).
    unfold offStride. set (i := if Zlength (dl_offIdx d) <=? Z.of_nat m / 1024 then _ else _).
    assert (Hi : 0 <= i < Zlength (dl_offIdx d) /\ i * 1024 <= Z.of_nat m).
    { pose proof (Z.div_mod (Z.of_nat m) 1024 ltac:(lia)).
      pose proof (Z.mod_pos_bound (Z.of_nat m) 1024 ltac:(lia)).
      pose proof (Z.div_pos (Z.of_nat m) 1024 ltac:(lia) ltac:(lia)).
      unfold i. destruct (Z.leb_spec (Zlength (dl_offIdx d)) (Z.of_nat m / 1024)); lia. }
    destruct (dl_offIdx d !! Z.to_nat i) as [off|] eqn:Eo.
    2:{ apply lookup_ge_None in Eo. lia. }
    destruct (do_index _ _ _ Hd _ _ Eo) as [Hoff Hlt]. cbn [mbind option_bind].
    replace (mul64 i 1024) with (i * 1024) by (unfold mul64; rewrite u64_small; [done|unfold is_u64; lia]).
    replace (add64 first (i * 1024)) with (first + i * 1024)
      by (unfold add64; rewrite u64_small; [done|unfold is_u64; lia]).
    set (n := (1024 * Z.to_nat i)%nat) in *. set (d0 := _ <| dl_rValid := true |>).
    cbn [alines] in Hlt. rewrite length_fmap in Hlt.
    assert (Hat : reader_at (Some (first, bodies)) d0 n).
    { pose proof (do_content _ _ _ Hd) as Hcon. rewrite Hw, app_nil_r in Hcon.
      unfold line_offset in Hoff. cbn [alines] in *. fold n in Hoff.
      rewrite <- (take_drop n (as_line <$> bodies)), concat_app in Hcon.
      constructor; unfold d0; rsimpl; cbn [alines].
      - rewrite Hcon, !length_app. rewrite Hoff. lia.
      - rewrite length_fmap. lia.
      - unfold unread. rsimpl. rewrite Hw, app_nil_r. cbn [app]. rewrite Hcon, app_assoc.
        rewrite drop_app_length'; [done|]. rewrite length_app, Hoff. lia.
      - lia. }
    pose proof (skip_lines_at _ (Z.to_nat (first + Z.of_nat m - dl_rKey d0)) d0 n Hok Hat eq_refl) as H'.
    assert (Hk0 : dl_rKey d0 = first + i * 1024) by (unfold d0; by rsimpl).
    replace (n + Z.to_nat _)%nat with m in H' by (rewrite Hk0; lia).
    assert (Hfr0 : reader_frame d d0).
    { split; [unfold d0, with_reader; rsimpl; destruct d; reflexivity|].
      intros _. apply (ra_pos _ _ _ Hat). }
    assert (Hw0 : dl_w d0 = []) by (unfold d0; by rsimpl).
    destruct (skip_lines _ d0) as [d' [|]]; destruct H' as [Hfr H'];
      (split; [by eapply reader_frame_trans|]); [done|].
    destruct H' as [Hv' H']. specialize (H' Hw0). cbn [alines] in H'. by rewrite length_fmap in H'.
Qed.

(** ** Appending a record *)

Lemma bufio_Write_spec d b : exists x w, bufio_Write d b = d <| dl_file := dl_file d ++ x |> <| dl_w := w |> /\
  (dl_file d ++ x) ++ w = (dl_file d ++ dl_w d) ++ b.
Proof.
  unfold bufio_Write. set (room := Z.to_nat (durableLogBufBytes - Zlength (dl_w d))).
  destruct (_ <=? _).
  { exists [], (dl_w d ++ b). rewrite app_nil_r, app_assoc. split; [destruct d; reflexivity|done]. }
  destruct (Nat.eqb_spec (length (dl_w d)) 0) as [E|_].
  { apply nil_length_inv in E. exists b, []. rewrite E, !app_nil_r.
    split; [rewrite <- E; destruct d; reflexivity|done]. }
  destruct (_ <? _).
  - exists ((dl_w d ++ take room b) ++ drop room b), []. rewrite !app_nil_r.
    split; [rsimpl; destruct d; unfold upd; cbn; by rewrite !app_assoc|].
    by rewrite <- !app_assoc, take_drop.
  - exists (dl_w d ++ take room b), (drop room b).
    split; [rsimpl; destruct d; reflexivity|]. by rewrite <- !app_assoc, take_drop.
Qed.

Lemma line_offset_snoc prefix first bodies body n : (n <= length bodies)%nat ->
  line_offset prefix (Some (first, bodies ++ [body])) n = line_offset prefix (Some (first, bodies)) n.
Proof.
  intros Hn. unfold line_offset. cbn [alines]. rewrite fmap_app, take_app_le by (rewrite length_fmap; lia).
  done.
Qed.

(** what [noteOffset] adds to the index *)
Lemma noteOffset_spec d key first : 
  (if dl_haveFirst d then dl_firstKey d = first else key = first) -> 0 <= first <= key -> key < W64 ->
  noteOffset d key = d <| dl_firstKey := first |> <| dl_haveFirst := true |>
    <| dl_offIdx := if (key - first) mod 1024 =? 0 then dl_offIdx d ++ [dl_tailOff d] else dl_offIdx d |>.
Proof.
  intros Hf Hk H64. unfold noteOffset.
  set (d1 := if dl_haveFirst d then d else _).
  assert (E : d1 = d <| dl_firstKey := first |> <| dl_haveFirst := true |>).
  { unfold d1. destruct (dl_haveFirst d) eqn:E; [|by subst key].
    destruct d; cbn in *; subst; reflexivity. }
  rewrite E. rsimpl. rewrite (proj2 (Z.leb_le _ _)) by lia. cbn [andb].
  replace (sub64 key first) with (key - first)
    by (unfold sub64; rewrite u64_small; [done|unfold is_u64; lia]).
  unfold offStride. destruct (_ =? 0); rsimpl; destruct d; reflexivity.
Qed.

(** the index after a record is added *)
Lemma index_snoc prefix first bodies body offIdx tailOff :
  Zlength offIdx = (Zlength bodies + 1023) / 1024 ->
  (forall i off, offIdx !! i = Some off ->
     off = line_offset prefix (Some (first, bodies)) (1024 * i) /\ (1024 * i < length bodies)%nat) ->
  tailOff = line_offset prefix (Some (first, bodies)) (length bodies) ->
  let offIdx' := if Zlength bodies mod 1024 =? 0 then offIdx ++ [tailOff] else offIdx in
  Zlength offIdx' = (Zlength (bodies ++ [body]) + 1023) / 1024 /\
  forall i off, offIdx' !! i = Some off ->
    off = line_offset prefix (Some (first, bodies ++ [body])) (1024 * i) /\
    (1024 * i < length (bodies ++ [body]))%nat.
Proof.
  intros Hc Hi Ht. cbv zeta. rewrite length_app. cbn [length].
  pose proof (Z.div_mod (Zlength bodies) 1024 ltac:(lia)) as Hdm.
  pose proof (Z.mod_pos_bound (Zlength bodies) 1024 ltac:(lia)) as Hmb.
  set (q := Zlength bodies / 1024) in *. set (m := Zlength bodies mod 1024) in *.
  assert (Hold : forall i off, offIdx !! i = Some off ->
    off = line_offset prefix (Some (first, bodies ++ [body])) (1024 * i) /\
    (1024 * i < length bodies + 1)%nat).
  { intros i off Ho. destruct (Hi i off Ho) as [-> Hlt]. split; [|lia].
    symmetry. apply line_offset_snoc. lia. }
  destruct (Z.eqb_spec m 0) as [E|E].
  - assert (Hq : (Zlength bodies + 1023) / 1024 = q).
    { symmetry. apply (Z.div_unique _ _ _ 1023); lia. }
    rewrite Hq in Hc. split.
    + rewrite length_app. cbn [length]. apply (Z.div_unique _ _ _ 0); lia.
    + intros i off. rewrite lookup_app_Some. intros [Ho|[Hge Ho]]; [by apply Hold|].
      apply list_lookup_singleton_Some in Ho as [Hi0 <-].
      assert (1024 * i = length bodies)%nat as -> by lia. split; [|lia].
      rewrite Ht. symmetry. apply line_offset_snoc. lia.
  - split; [|exact Hold]. rewrite Hc. transitivity (q + 1).
    + symmetry. apply (Z.div_unique _ _ _ (m - 1)); lia.
    + apply (Z.div_unique _ _ _ m); lia.
Qed.

(** the abstract log after a record with the next key *)
Definition append (a : alog) (key : Z) (body : list byte) : Z * list (list byte) :=
  match a with Some (first, bodies) => (first, bodies ++ [body]) | None => (key, [body]) end.

Lemma keep_next a key body : match a with Some (first, bodies) => key = first + Zlength bodies | None => True end ->
  keep a (key, body) = Some (append a key body).
Proof. destruct a as [[first bodies]|]; [|done]. intros ->. cbn. by rewrite Z.eqb_refl. Qed.

(** the writes of a record with the next key *)
Lemma apply_next prefix a d key body :
  dlog_ok prefix a d -> key_ok a (key, body) ->
  match a with Some (first, bodies) => key = first + Zlength bodies | None => True end ->
  fits prefix (keep a (key, body)) -> dlog_ok prefix (keep a (key, body)) (apply d key body).
Proof.
  intros Hd (Hk0 & Hk64 & Hline & _) Hnext. rewrite keep_next by done. cbn [fst snd] in *.
  set (first := match a with Some (f, _) => f | None => key end).
  set (bodies := match a with Some (_, bs) => bs | None => [] end).
  assert (Ea : append a key body = (first, bodies ++ [body])) by (by destruct a as [[]|]).
  rewrite Ea. intros Hfits. destruct Hd.
  assert (Hkey : key = first + Zlength bodies) by (unfold first, bodies; destruct a as [[]|]; cbn; lia).
  assert (Hlines : alines a = as_line <$> bodies) by (unfold bodies; by destruct a as [[]|]).
  assert (Hoffs : forall n, line_offset prefix a n = line_offset prefix (Some (first, bodies)) n)
    by (intros n; unfold line_offset; by rewrite Hlines).
  assert (Hf0 : 0 <= first) by (unfold first; destruct a as [[]|]; [apply do_alog0|done]).
  (* the state before the write *)
  unfold apply. set (d1 := if dl_haveNext d then d else _).
  assert (E1 : d1 = d <| dl_nextSlot := key |> <| dl_haveNext := true |>).
  { unfold d1. destruct a as [[f bs]|].
    - destruct do_keys0 as (Hn & _ & _ & Hns). rewrite Hn. unfold first, bodies in Hkey.
      destruct d; cbn in *; subst; reflexivity.
    - destruct do_keys0 as (Hn & _). by rewrite Hn. }
  rewrite E1. clearbody d1. rsimpl. rewrite Z.ltb_irrefl, Z.sub_diag. cbn [seqZ seq Z.to_nat fmap list_fmap foldl].
  assert (Hfirst : if dl_haveFirst d then dl_firstKey d = first else key = first).
  { unfold first. destruct a as [[f bs]|]; [destruct do_keys0 as (_ & -> & ? & _)|
      destruct do_keys0 as (_ & -> & _)]; done. }
  rewrite (noteOffset_spec _ key first); [|exact Hfirst|lia|lia].
  rsimpl. replace (key - first) with (Zlength bodies) by lia.
  match goal with |- context [writeAtTail ?x _] => set (d2 := x) end.
  unfold writeAtTail. destruct (bufio_Write_spec d2 (body ++ [newline])) as (x & w & -> & Hw).
  assert (Hd2 : dl_file d2 = dl_file d /\ dl_w d2 = dl_w d /\ dl_rPos d2 = dl_rPos d /\
    dl_rBuf d2 = dl_rBuf d /\ dl_rKey d2 = dl_rKey d /\ dl_rValid d2 = dl_rValid d /\
    dl_tailOff d2 = dl_tailOff d /\ dl_holes d2 = dl_holes d /\ dl_closed d2 = dl_closed d /\
    dl_closing d2 = dl_closing d) by (unfold d2; by rsimpl).
  destruct Hd2 as (E2 & E3 & E4 & E5 & E6 & E7 & E8 & E9 & E10 & E11).
  assert (Hnewlines : concat (as_line <$> bodies ++ [body]) =
                      concat (as_line <$> bodies) ++ body ++ [newline]).
  { rewrite fmap_app, concat_app. cbn. by rewrite app_nil_r. }
  assert (Htail : dl_tailOff d = line_offset prefix (Some (first, bodies)) (length bodies)).
  { rewrite do_tail0, Hoffs, Hlines, length_fmap. done. }
  assert (Hlen : line_offset prefix (Some (first, bodies ++ [body])) (length (bodies ++ [body])) =
    line_offset prefix (Some (first, bodies)) (length bodies) + Zlength (body ++ [newline])).
  { unfold line_offset. cbn [alines]. rewrite !take_ge by (rewrite length_fmap; lia).
    rewrite Hnewlines, length_app. lia. }
  rewrite Hlines, length_fmap in do_count0.
  destruct (index_snoc prefix first bodies body (dl_offIdx d) (dl_tailOff d)) as [Hic Hii]; [done| |done|].
  { intros i off Ho. destruct (do_index0 i off Ho) as [H1 H2]. rewrite Hoffs in H1.
    rewrite Hlines, length_fmap in H2. done. }
  constructor; rsimpl; rewrite ?E2, ?E3, ?E4, ?E5, ?E6, ?E7, ?E8, ?E9, ?E10, ?E11; try done.
  - cbn. rewrite length_app. cbn [length]. split; [done|]. split; [unfold W64 in *; lia|].
    split; [|by destruct bodies]. apply Forall_app. split; [|by constructor].
    unfold bodies. destruct a as [[]|]; [apply do_alog0|constructor].
  - rewrite <- E2, Hw, E2, E3, do_content0, Hlines. cbn [alines]. by rewrite Hnewlines, !app_assoc.
  - rewrite Htail. cbn [alines]. rewrite length_fmap, Hlen. unfold fits in Hfits. cbn [alines] in Hfits.
    rewrite length_fmap, Hlen in Hfits. apply i64_small. split; [|done].
    unfold line_offset. lia.
  - unfold d2. rsimpl. rewrite length_app. cbn [length]. split_and!; [done|done|done|].
    unfold add64. rewrite u64_small; [lia|unfold is_u64; lia].
  - unfold d2. rsimpl. cbn [alines]. rewrite length_fmap. exact Hic.
  - unfold d2. rsimpl. intros i off Ho. destruct (Hii i off Ho). cbn [alines]. by rewrite length_fmap.
  - intros Hv. destruct (do_reader0 Hv) as [n []]. destruct a as [[f bs]|]; [|done].
    exists n. unfold first, bodies in *. clear first bodies. cbn [alines] in *. rewrite length_fmap in ra_line0.
    constructor; rsimpl; rewrite ?E2, ?E3, ?E4, ?E5, ?E6, ?E7; cbn [alines].
    + rewrite length_app. lia.
    + rewrite length_fmap, length_app. cbn. lia.
    + unfold unread in *. rsimpl. rewrite ?E2, ?E4, ?E5.
      rewrite <- !app_assoc. rewrite drop_app_le by lia.
      assert (x ++ w = dl_w d ++ body ++ [newline]) as Hxw.
      { rewrite E2, E3 in Hw. rewrite <- !app_assoc in Hw. by apply app_inv_head in Hw. }
      rewrite <- !app_assoc, Hxw, fmap_app, drop_app_le by (rewrite length_fmap; lia).
      rewrite concat_app. cbn. rewrite app_nil_r. rewrite <- ra_unread0. unfold as_line.
      by rewrite <- !app_assoc.
    + done.
Qed.

(** [apply] implements [keep] *)
Lemma apply_spec prefix a d key body :
  dlog_ok prefix a d -> key_ok a (key, body) -> fits prefix (keep a (key, body)) ->
  dlog_ok prefix (keep a (key, body)) (apply d key body).
Proof.
  intros Hd Hk Hf. destruct a as [[first bodies]|]; [|by apply apply_next].
  destruct (decide (key = first + Zlength bodies)) as [Hn|Hn]; [by apply apply_next|].
  destruct Hk as (_ & _ & _ & Hle). cbn in Hle.
  cbn [keep fst snd]. rewrite (proj2 (Z.eqb_neq _ _) Hn).
  unfold apply. destruct (do_keys _ _ _ Hd) as (-> & _ & _ & ->).
  rewrite (proj2 (Z.ltb_lt _ _)) by lia. unfold patchHole. rewrite (do_holes _ _ _ Hd).
  by rewrite lookup_empty.
Qed.

(** ** The queue *)

Definition keep_all (a : alog) (recs : list (Z * list byte)) : alog := foldl keep a recs.

Fixpoint keys_ok (a : alog) (recs : list (Z * list byte)) : Prop :=
  match recs with
  | [] => True
  | rec :: recs => key_ok a rec /\ keys_ok (keep a rec) recs
  end.

Lemma keys_ok_app recs1 recs2 : forall a,
  keys_ok a (recs1 ++ recs2) <-> keys_ok a recs1 /\ keys_ok (keep_all a recs1) recs2.
Proof.
  induction recs1 as [|rec recs1 IH]; intros a; [cbn; tauto|]. cbn [app keys_ok keep_all foldl].
  rewrite IH. unfold keep_all. tauto.
Qed.

Lemma keep_lines a rec : exists l, alines (keep a rec) = alines a ++ l.
Proof.
  destruct a as [[first bodies]|]; cbn; [|by eexists].
  destruct (_ =? _); [|exists []; by rewrite app_nil_r]. cbn. rewrite fmap_app. eauto.
Qed.

Lemma fits_keep prefix a rec : fits prefix (keep a rec) -> fits prefix a.
Proof.
  unfold fits, line_offset. destruct (keep_lines a rec) as [l ->].
  rewrite !take_ge by lia. rewrite concat_app, length_app. lia.
Qed.

Lemma fits_keep_all prefix recs : forall a, fits prefix (keep_all a recs) -> fits prefix a.
Proof.
  induction recs as [|rec recs IH]; intros a; [done|]. intros H. by eapply fits_keep, IH.
Qed.

Definition pending_same (d d' : durableLog) : Prop := dl_pending d' = dl_pending d.

Lemma bufio_Write_pending d b : dl_pending (bufio_Write d b) = dl_pending d.
Proof. destruct (bufio_Write_spec d b) as (x & w & -> & _). by rsimpl. Qed.

Lemma noteOffset_pending d key : dl_pending (noteOffset d key) = dl_pending d.
Proof.
  unfold noteOffset. cbv zeta. destruct (dl_haveFirst d).
  - destruct (_ && _); by rsimpl.
  - destruct (_ && _); by rsimpl.
Qed.

Lemma apply_pending d key body : dl_holes d = ∅ -> dl_pending (apply d key body) = dl_pending d \/
  exists k, dl_nextSlot d <= k < key /\ dl_haveNext d = true.
Proof.
  intros Hh. unfold apply. set (d1 := if dl_haveNext d then d else _).
  assert (E : dl_pending d1 = dl_pending d /\ dl_holes d1 = ∅)
    by (unfold d1; destruct (dl_haveNext d); rsimpl; done).
  destruct E as [E Eh].
  destruct (Z.ltb_spec key (dl_nextSlot d1)).
  { left. unfold patchHole. by rewrite Eh, lookup_empty. }
  destruct (decide (dl_nextSlot d1 = key)) as [Hk|Hk].
  - left. rewrite Hk, Z.sub_diag. cbn [seqZ seq Z.to_nat fmap list_fmap foldl]. rsimpl.
    unfold writeAtTail. rsimpl. by rewrite bufio_Write_pending, noteOffset_pending.
  - right. exists (dl_nextSlot d1). unfold d1 in *. destruct (dl_haveNext d); rsimpl in *; [|lia].
    split; [lia|done].
Qed.

Lemma drain_loop prefix recs : forall a d,
  dlog_ok prefix a d -> keys_ok a recs -> fits prefix (keep_all a recs) -> dl_pending d = [] ->
  let d' := foldl (fun d rec => apply d rec.1 rec.2) d recs in
  dlog_ok prefix (keep_all a recs) d' /\ dl_pending d' = [].
Proof.
  induction recs as [|rec recs IH]; intros a d Hd Hk Hf Hp; [done|]. destruct Hk as [Hk Hks].
  cbn [foldl keep_all]. apply IH; [|done|done|].
  - apply apply_spec; [done|by destruct rec|]. by eapply fits_keep_all.
  - rewrite <- Hp. destruct (apply_pending d rec.1 rec.2 (do_holes _ _ _ Hd)) as [?|(k & Hkk & Hn)]; [done|].
    destruct Hk as (_ & _ & _ & Hle). destruct a as [[first bodies]|].
    + destruct (do_keys _ _ _ Hd) as (_ & _ & _ & Hns). lia.
    + destruct (do_keys _ _ _ Hd) as (Hnn & _). by rewrite Hnn in Hn.
Qed.

Lemma dlog_ok_queue prefix a d d' : dlog_ok prefix a d ->
  d' = d <| dl_pending := dl_pending d' |> <| dl_maxDepth := dl_maxDepth d' |>
         <| dl_wake := dl_wake d' |> -> dlog_ok prefix a d'.
Proof.
  intros [] ->. constructor; rsimpl; try done.
  intros Hv. destruct (do_reader0 Hv) as [n []]. exists n. constructor; rsimpl; done.
Qed.

Lemma drain_spec prefix a d :
  dlog_ok prefix a d -> keys_ok a (dl_pending d) -> fits prefix (keep_all a (dl_pending d)) ->
  dlog_ok prefix (keep_all a (dl_pending d)) (drain d) /\ dl_pending (drain d) = [].
Proof.
  intros Hd Hk Hf. apply drain_loop; [|done|done|by rsimpl].
  apply (dlog_ok_queue _ _ _ _ Hd). destruct d; reflexivity.
Qed.

Lemma Flush_spec prefix a d : dlog_ok prefix a d -> dlog_ok prefix a (Flush d) /\ dl_w (Flush d) = [].
Proof.
  intros []. unfold Flush. split; [|by rsimpl]. constructor; rsimpl; try done.
  - by rewrite app_nil_r.
  - intros Hv. destruct (do_reader0 Hv) as [n []]. exists n. constructor; rsimpl; try done.
    + rewrite length_app. lia.
    + rewrite app_nil_r. rewrite <- ra_unread0. unfold unread. rsimpl.
      rewrite drop_app_le by lia. by rewrite app_assoc.
Qed.

(** ** Reading back *)

Lemma seekTo_before prefix first bodies d lo :
  dlog_ok prefix (Some (first, bodies)) d -> lo < first -> seekTo d lo = (d, false).
Proof.
  intros Hd Hlo. unfold seekTo.
  assert (dl_rValid d && (dl_rKey d <=? lo) = false) as ->.
  { apply andb_false_iff. destruct (dl_rValid d) eqn:Ev; [right|by left].
    destruct (do_reader _ _ _ Hd Ev) as [n Hat]. pose proof (ra_key _ _ _ Hat) as Hk. cbn in Hk.
    apply Z.leb_gt. lia. }
  unfold index_entry. destruct (do_keys _ _ _ Hd) as (_ & -> & -> & _).
  by rewrite (proj2 (Z.leb_gt _ _)) by lia.
Qed.

(** what a read returns: nothing when it begins before the log *)
Definition read_spec (a : alog) (lo hi k : Z) : option (list byte) :=
  match a with
  | Some (first, _) => if decide (first <= lo /\ lo <= k <= hi) then alog_get a k else None
  | None => None
  end.

Lemma readRecords_spec prefix a d lo hi :
  dlog_ok prefix a d -> keys_ok a (dl_pending d) -> fits prefix (keep_all a (dl_pending d)) ->
  hi < W64 - 1 -> lo <= hi ->
  let a' := keep_all a (dl_pending d) in
  let (d', out) := readRecords d lo hi true in
  dlog_ok prefix a' d' /\ dl_pending d' = [] /\ forall k, out !! k = read_spec a' lo hi k.
Proof.
  intros Hd Hk Hf Hhi Hlo. cbv zeta. unfold readRecords. rewrite (proj2 (Z.ltb_ge _ _)) by lia.
  unfold flushForRead. destruct (do_open _ _ _ Hd) as [-> _]. cbn [andb negb].
  destruct (drain_spec prefix a d Hd Hk Hf) as [Hd1 Hp1].
  destruct (Flush_spec _ _ _ Hd1) as [Hd2 Hw2]. unfold writer_flush.
  assert (Hp2 : dl_pending (Flush (drain d)) = []) by (unfold Flush; by rsimpl).
  set (d2 := Flush (drain d)) in *. clearbody d2. set (a' := keep_all a (dl_pending d)) in *.
  clearbody a'. clear Hd1 Hp1.
  destruct a' as [[first bodies]|].
  2:{ destruct (do_keys _ _ _ Hd2) as (_ & Hhf & Hrv). unfold seekTo, index_entry.
      rewrite Hrv, Hhf. cbn [andb]. split_and!; [done|done|]. intros k. apply lookup_empty. }
  destruct (decide (first <= lo)) as [Hge|Hlt].
  2:{ rewrite (seekTo_before _ _ _ _ _ Hd2) by lia. split_and!; [done|done|].
      intros k. cbn [read_spec]. rewrite decide_False by lia. apply lookup_empty. }
  pose proof (seekTo_spec prefix first bodies d2 (Z.to_nat (lo - first)) Hd2 ltac:(lia) Hw2) as Hs.
  replace (first + Z.of_nat (Z.to_nat (lo - first))) with lo in Hs by lia.
  destruct (seekTo d2 lo) as [d3 [|]]; destruct Hs as [Hfr Hs].
  - destruct Hs as [Hat Hv]. pose proof (ra_key _ _ _ Hat) as Hkey. cbn in Hkey.
    pose proof (read_loop_at first bodies (Z.to_nat (hi + 1 - dl_rKey d3)) lo d3 _ ∅
      (do_alog _ _ _ Hd2) Hat Hv) as Hr.
    destruct (reader_frame_file _ _ Hfr) as (_ & Hw3 & _ & _ & _ & Hp3 & _).
    destruct (read_loop _ lo d3 ∅) as [d4 out]. destruct Hr as (Hfr4 & Hat4 & Hout).
    destruct (reader_frame_file _ _ Hfr4) as (_ & _ & _ & _ & _ & Hp4 & _).
    split_and!; [|congruence|].
    + apply (reader_frame_ok _ _ d2); [done|by eapply reader_frame_trans|done|done].
    + intros k. rewrite Hout by congruence. cbn [read_spec alog_get].
      destruct (decide (first <= lo /\ lo <= k <= hi)) as [H|H].
      * rewrite (proj2 (Z.ltb_ge _ _)) by lia. destruct (decide _) as [H'|H']; [done|].
        rewrite lookup_ge_None_2 by lia. apply lookup_empty.
      * rewrite decide_False by lia. apply lookup_empty.
  - destruct Hs as [Hv Hlen]. destruct (reader_frame_file _ _ Hfr) as (_ & _ & _ & _ & _ & Hp3 & _).
    split_and!; [|congruence|].
    + apply (reader_frame_ok _ _ d2); [done|done|by rewrite Hv|done].
    + intros k. cbn [read_spec alog_get]. destruct (decide _) as [H|H]; [|apply lookup_empty].
      rewrite (proj2 (Z.ltb_ge _ _)) by lia. rewrite lookup_ge_None_2 by lia. apply lookup_empty.
Qed.
