(* ===== verification/Serve.v ===== *)
(** Serving state ([src/paxosbus/internal/protocol/recovery.go]: [serveState],
    [readSlot]; [logreader.go]: [readSlotFromDisk], [readRequestsFromDisk]): a
    slot is read from the log, or from disk once it is pruned and stable.

    The two durable logs are in the state [disk] next to the replica; a read is
    preceded by a flush that completes.  [serveState] is one step: the view does not
    change between its two checks. *)
From S2P Require Import Prelude WireBase Wire WireStream Config Lines State ReplicaState Cursor Log Admission Sync Recovery DurableLog.

Definition stateChunkBytes : Z := Z.shiftl 1 20.
Definition stateEntryOverhead : Z := 32.

(** [r.durable] and [r.reqListLog] *)
Record disk := mkdisk { dk_durable : option durableLog; dk_reqListLog : option durableLog }.
#[export] Instance eta_disk : Eta disk := fun k => mkdisk (dk_durable k) (dk_reqListLog k).

(** the smallest and the largest index *)
Definition index_bounds (idxs : list Z) (first : Z) : Z * Z :=
  (foldl Z.min first idxs, foldl Z.max first idxs).

(** one request of a bus *)
Definition disk_request (bodies : gmap Z (list byte)) (li : Z) : option RequestMessage :=
  body ← bodies !! li;
  rec ← Unmarshal_req body;
  op ← DecodeString (qd_Op rec);
  Some (mkRequestMessage (qd_Client rec) (qd_ReqId rec) 0 op).

Definition readRequestsFromDisk (k : disk) (idxs : list Z) : disk * option (list RequestMessage) :=
  match dk_reqListLog k with
  | None => (k, None)
  | Some d =>
      match idxs with
      | [] => (k, Some [])
      | first :: _ =>
          let (lo, hi) := index_bounds idxs first in
          let (d, bodies) := readRecords d lo hi true in
          (k <| dk_reqListLog := Some d |>, mapM (disk_request bodies) idxs)
      end
  end.

Definition readSlotFromDisk (k : disk) (slot : Z) : disk * option StateEntry :=
  match dk_durable k with
  | None => (k, None)
  | Some d =>
      let (d, bodies) := readRecords d slot slot true in
      let k := k <| dk_durable := Some d |> in
      match bodies !! slot with
      | None => (k, None)
      | Some body =>
          match Unmarshal_disk body with
          | None => (k, None)
          | Some rec =>
              if dr_Pending rec then (k, None)
              else
                let reqId := match dr_Bus rec with Some bus => bus | None => dr_ReqId rec end in
                if dr_NoOp rec
                then (k, Some (mkStateEntry slot (dr_Client rec) reqId false true []))
                else
                  match dr_Bus rec with
                  | None => (k, None)
                  | Some _ =>
                      let (k, reqs) := readRequestsFromDisk k (dr_LogIndexes rec) in
                      (k, reqs ← reqs;
                          Some (mkStateEntry slot (dr_Client rec) reqId true false
                                  (MarshalRequests reqs)))
                  end
          end
      end
  end.

Section serve.
Context {TM : Treemap Value}.
Implicit Types r : Replica TM.

(** disk is authoritative only at or below the commit point *)
Definition readSlot r (k : disk) (slot : Z) : Replica TM * disk * option StateEntry :=
  match r_globalLog r !! slot with
  | Some e =>
      if bool_decide (ge_state e <> slotEmpty) then
        let (r, owner) := entryOwner r slot e in
        let noop := bool_decide (ge_state e = slotNoOp) in
        let '(payload, isBus) := if noop then ([], false) else slotGapPayload r slot in
        (r, k, Some (mkStateEntry slot owner.1 owner.2 isBus noop payload))
      else if (slot <? r_prunedBelow r) && r_haveStable r && (slot <=? r_stableSlot r)
      then let (k, ent) := readSlotFromDisk k slot in (r, k, ent)
      else (r, k, None)
  | None =>
      if (slot <? r_prunedBelow r) && r_haveStable r && (slot <=? r_stableSlot r)
      then let (k, ent) := readSlotFromDisk k slot in (r, k, ent)
      else (r, k, None)
  end.

(** the entries collected, their size and the last slot looked at *)
Record serving := mkserving { sv_entries : list StateEntry; sv_size : Z; sv_last : Z }.

(** [serveState]'s loop: [slot] is the range's next slot; with a list of slots,
    [rest] is what is left of it.  It takes at most one turn per slot of the
    range, or of the list. *)
Fixpoint serve_loop (fuel : nat) r (k : disk) (req : BusGetState) (slot : Z) (rest : list Z)
    (s : serving) : Replica TM * disk * serving :=
  match fuel with
  | O => (r, k, s)
  | S fuel =>
      if gs_ToSlot req <? slot then (r, k, s) else
      let next := if Nat.ltb 0 (length (gs_Slots req))
                  then match rest with [] => None | slot :: rest => Some (slot, rest) end
                  else Some (slot, rest) in
      match next with
      | None => (r, k, s)
      | Some (slot, rest) =>
          let '(r, k, ent) := readSlot r k slot in
          let s := match ent with
                   | Some ent => mkserving (sv_entries s ++ [ent])
                       (sv_size s + Zlength (se_Payload ent) + stateEntryOverhead) (sv_last s)
                   | None => s
                   end in
          let s := mkserving (sv_entries s) (sv_size s) slot in
          if (stateChunkBytes <=? sv_size s) || (MaxStateEntries <=? Zlength (sv_entries s)) ||
             (slot =? gs_ToSlot req)
          then (r, k, s)
          else serve_loop fuel r k req (add64 slot 1) rest s
      end
  end.

Definition serve_fuel (req : BusGetState) : nat :=
  if Nat.ltb 0 (length (gs_Slots req)) then S (length (gs_Slots req))
  else Z.to_nat (gs_ToSlot req - gs_FromSlot req + 1).

Definition serveState r (k : disk) (req : BusGetState) : Replica TM * disk * list effect :=
  if negb (gs_ViewId req =? view r) || (cfg_N (r_config r) <=? gs_SenderIdx req) then (r, k, [])
  else
    let '(r, k, s) := serve_loop (serve_fuel req) r k req (gs_FromSlot req) (gs_Slots req)
                        (mkserving [] 0 (gs_FromSlot req)) in
    (r, k, sendToPeer r (gs_SenderIdx req)
             (RNewState {| ns_ViewId := gs_ViewId req; ns_FromSlot := gs_FromSlot req;
                ns_ToSlot := sv_last s; ns_FetchId := gs_FetchId req;
                ns_SenderIdx := u32 (r_idx r); ns_Entries := sv_entries s |})).

(** [stateServeLoop] takes the next request *)
Definition stateServeLoop r (k : disk) : Replica TM * disk * list effect :=
  match r_serveQ r with
  | [] => (r, k, [])
  | req :: rest => serveState (r <| r_serveQ := rest |>) k req
  end.
End serve.
