(* ===== verification/Listener.v ===== *)
(** A replica as a whole ([src/paxosbus/internal/protocol/replica.go]: [serve],
    [clientListener], [dialPeer]): the dispatch of a connection's messages to the
    handlers, and the steps of the goroutines [serve] starts.

    A handler runs under the replica's lock, so it is one step; a goroutine takes
    one step between two of its waits.  The clocks a step reads are arguments. *)
From S2P Require Import Prelude WireBase Wire WireStream Config Lines GlobalOrder State.
From S2P Require Import ReplicaState Cursor Log Admission ScheduleProto Merge Gaps Sync ViewChange Recovery.
From S2P Require Import DurableLog Serve.

Section listener.
Context {TM : Treemap Value}.
Implicit Types r : Replica TM.

(** * One connection *)

(** what [clientListener] keeps for its connection *)
Record connState := mkconnState {
  cn_lw : conn;
  cn_peerIdx : Z;
  cn_scheduleSnapshotOK : bool;
  cn_scheduleSnapshotView : Z }.

Definition newConn (lw : conn) : connState := mkconnState lw (-1) false 0.

(** the sender index a message of a peer carries *)
Definition sender_of (m : replica_msg) : option Z :=
  match m with
  | RGapRequest m => Some (gq_SenderIdx m)
  | RGapReply m => Some (gr_SenderIdx m)
  | RGapCommit m => Some (gc_SenderIdx m)
  | RGapCommitReply m => Some (ga_SenderIdx m)
  | RSyncPrepare m => Some (yp_SenderIdx m)
  | RSyncReply m => Some (yr_SenderIdx m)
  | RSyncCommit m => Some (yc_SenderIdx m)
  | RViewChangeRequest m => Some (vq_SenderIdx m)
  | RViewChange m => Some (vc_SenderIdx m)
  | RStartView m => Some (sv_SenderIdx m)
  | RStateQuery m => Some (sq_SenderIdx m)
  | RGetState m => Some (gs_SenderIdx m)
  | RNewState m => Some (ns_SenderIdx m)
  | _ => None
  end.

(** the connection after the message, apart from the result of an installed
    snapshot *)
Definition conn_after (c : connState) (m : replica_msg) (installed : bool) : connState :=
  let c := match sender_of m with
           | Some idx => mkconnState (cn_lw c) idx (cn_scheduleSnapshotOK c) (cn_scheduleSnapshotView c)
           | None => c
           end in
  match m with
  | RSchdPrepare _ => mkconnState (cn_lw c) (cn_peerIdx c) false (cn_scheduleSnapshotView c)
  | RScheduleInstall m => mkconnState (cn_lw c) (cn_peerIdx c) installed (si_Epoch m)
  | _ => c
  end.

(** the [switch msgType]: a decoded message is handed to its handler; a proposal
    only after the snapshot it belongs to was installed *)
Definition handle_msg r (c : connState) (m : replica_msg) (mono wall : Z) :
    Replica TM * connState * list effect :=
  let '(r, installed, fx) :=
    match m with
    | RHsRequest m => let (r, fx) := handleHsRequest r m (cn_lw c) wall in (r, false, fx)
    | RSchdPrepare m =>
        if cn_scheduleSnapshotOK c && (sp_ViewId m =? cn_scheduleSnapshotView c)
        then let (r, fx) := handleSchdPrepare r m in (r, false, fx)
        else (r, false, [])
    | RSchdPrepareReply m => (handleSchdPrepareReply r m, false, [])
    | RSchdCommit m => (handleSchdCommit r m, false, [])
    | RClientStatusQuery m => let (r, fx) := handleClientControl r m (cn_lw c) wall in (r, false, fx)
    | RBus m => ((handleBus r m (cn_lw c) wall).1, false, [])
    | RGapRequest m => let (r, fx) := handleGapRequest r m mono in (r, false, fx)
    | RGapReply m => (handleGapReply r m, false, [])
    | RGapCommit m => let (r, fx) := handleGapCommit r m in (r, false, fx)
    | RGapCommitReply m => (handleGapCommitReply r m, false, [])
    | RSyncPrepare m => let (r, fx) := handleSyncPrepare r m mono in (r, false, fx)
    | RSyncReply m => let (r, fx) := handleSyncReply r m in (r, false, fx)
    | RSyncCommit m => (handleSyncCommit r m mono, false, [])
    | RScheduleInstall m => let (r, ok) := handleScheduleInstall r m in (r, ok, [])
    | RViewChangeRequest m => let (r, fx) := handleViewChangeRequest r m mono wall in (r, false, fx)
    | RViewChange m => let (r, fx) := handleViewChange r m mono wall in (r, false, fx)
    | RStartView m => (handleStartView r m, false, [])
    | RStateQuery m => (r, false, handleStateQuery r m)
    | RGetState m => (handleGetState r m, false, [])
    | RNewState m => (handleNewState r m, false, [])
    end in
  (r, conn_after c m installed, fx).

(** the connection ended *)
Definition conn_closed r (c : connState) : Replica TM * list effect :=
  if 0 <=? cn_peerIdx c then peerConnLost r (cn_peerIdx c) else (r, []).

(** the messages of a connection, with the clocks at each *)
Fixpoint handle_all r (c : connState) (ms : list (replica_msg * (Z * Z))) :
    Replica TM * connState * list effect :=
  match ms with
  | [] => (r, c, [])
  | (m, (mono, wall)) :: ms =>
      let '(r, c, fx) := handle_msg r c m mono wall in
      let '(r, c, fx') := handle_all r c ms in
      (r, c, fx ++ fx')
  end.

(** [clientListener]: what was sent on the connection is decoded and handled up to
    the first error *)
Definition clientListener r (lw : conn) (bs : list byte) (clocks : list (Z * Z)) :
    Replica TM * list effect :=
  let ms := (read_stream (S (length bs)) bs).1 in
  let '(r, c, fx) := handle_all r (newConn lw) (zip ms clocks) in
  let (r, fx') := conn_closed r c in
  (r, fx ++ fx').

(** * Connections to peers and start-up *)

(** [dialPeer] got a connection *)
Definition dialPeer_connected r (j : Z) (lw : conn) : Replica TM :=
  r <| r_peerWriters ::= <[Z.to_nat j := Some lw]> |>.

(** [serve], before its goroutines *)
Definition serve r (now : Z) : Replica TM := r <| r_lastHeartbeatNs := now |>.

(** * The goroutines *)

(** [gapDetectLoop], [handleGap] and what they call *)
Inductive gap_turn r : Replica TM -> list effect -> Prop :=
| turn_detect wall mono : gap_turn r (gapDetect r wall mono).1 (gapDetect r wall mono).2
| turn_ask key : gap_turn r r (followerRecover_ask r key)
| turn_done key id : gap_turn r (followerRecover_done r key id) []
| turn_timeout key id : gap_turn r (followerRecover_timeout r key id) []
| turn_resolve key id r' fx more : leaderResolve_start r key id = (r', fx, more) -> gap_turn r r' fx
| turn_probe key id notFound : gap_turn r (probe_take r key id notFound).1.1 []
| turn_found key id op isBus :
    gap_turn r (leaderResolve_found r key id op isBus).1 (leaderResolve_found r key id op isBus).2
| turn_noop key id r' fx more : leaderResolve_noop r key id = (r', fx, more) -> gap_turn r r' fx
| turn_commit key id fx : collect_broadcast r key id = Some fx -> gap_turn r r fx
| turn_ack key id acked : gap_turn r (collect_take r key id acked).1 []
| turn_end key id acked : gap_turn r (leaderResolve_end r key id acked) [].

(** [driveViewChange] up to the merged plan and its publication, and the
    view-change timers *)
Inductive view_turn r : Replica TM -> list effect -> Prop :=
| turn_suspect now wall : view_turn r (suspectLeader r now wall).1 (suspectLeader r now wall).2
| turn_watchdog wd now wall :
    view_turn r (expireViewChangeWatchdog r wd now wall).1 (expireViewChangeWatchdog r wd now wall).2
| turn_take id reports : view_turn r (drive_take r id reports).1 []
| turn_deadline v now wall : view_turn r (drive_timeout r v now wall).1 (drive_timeout r v now wall).2
| turn_merge v reports now wall :
    view_turn r (drive_merge r v reports now wall).1.1 (drive_merge r v reports now wall).1.2
| turn_prefix id v wd plan : view_turn r (merge_prefix r id v wd plan).1 []
| turn_startView msg : view_turn r r (broadcastStartView r msg)
| turn_publish id v wd plan now : view_turn r (drive_publish r id v wd plan now).1 [].

(** the turns that bring the log to what a new view found: the rest of
    [driveViewChange] at its leader, [viewInstallLoop] and the recovery it starts
    at a follower *)
Inductive adopt_turn r : Replica TM -> list effect -> Prop :=
| turn_donor id v wd slot donor : adopt_turn r (merge_donor r id v wd slot donor).1 []
| turn_install id v wd plan : adopt_turn r (drive_install r id v wd plan).1 []
| turn_viewInstall now : adopt_turn r (viewInstall r now).1 []
| turn_recover gen now : adopt_turn r (recover_turn r gen now).1 []
| turn_finish gen now : adopt_turn r (finishRecovery r gen now).1 [].

(** [syncLoop], [stateFetchLoop], [stateServeLoop], [scheduleLoop], [replyLoop],
    [statsLoop], [dialPeer] *)
Inductive loop_turn r : Replica TM -> list effect -> Prop :=
| turn_sync : loop_turn r (syncOnce r).1 (syncOnce r).2
| turn_fetch : loop_turn r (stateFetch_take r).1 []
| turn_send q next to slots : loop_turn r r (fetch_send r q next to slots)
| turn_reply q next to slots m : BusNewState_wf m -> loop_turn r (fetch_receive r q next to slots m).1 []
| turn_fetched q ok : loop_turn r (finishSyncFetch r q ok).1 (finishSyncFetch r q ok).2
| turn_serve k r' k' fx : stateServeLoop r k = (r', k', fx) -> loop_turn r r' fx
| turn_schedule wall wall' mono :
    loop_turn r (scheduleLoop r wall wall' mono).1 (scheduleLoop r wall wall' mono).2
| turn_replies : loop_turn r (replyLoop r).1 (replyLoop r).2
| turn_stats : loop_turn r (statsReset r) []
| turn_dialled j lw : loop_turn r (dialPeer_connected r j lw) []
| turn_retire j lw : loop_turn r (retirePeer r j lw).1 (retirePeer r j lw).2.

(** a step that installs no view: a message that passed the decoder, a connection
    that ended, or a turn of one of the goroutines *)
Inductive plain_step r : Replica TM -> list effect -> Prop :=
| step_msg c m mono wall r' c' fx : msg_wf m -> handle_msg r c m mono wall = (r', c', fx) ->
    plain_step r r' fx
| step_closed c : plain_step r (conn_closed r c).1 (conn_closed r c).2
| step_gap r' fx : gap_turn r r' fx -> plain_step r r' fx
| step_view r' fx : view_turn r r' fx -> plain_step r r' fx
| step_loop r' fx : loop_turn r r' fx -> plain_step r r' fx.

Inductive replica_step r : Replica TM -> list effect -> Prop :=
| step_plain r' fx : plain_step r r' fx -> replica_step r r' fx
| step_install r' fx : adopt_turn r r' fx -> replica_step r r' fx.

Definition replica_next r r' : Prop := exists fx, replica_step r r' fx.
End listener.
