(* ===== verification/Hook.v ===== *)
(** Deferred calls ([src/hook/cond.go]), which the baseline protocols use to run a
    closure once a condition holds.

    A closure is a value of [F]; running it is an output.  [CondF.fun], which [Call]
    builds by composing closures, is the list of the closures it runs, in order.  A
    condition reads the environment [E] of the call.  Closures that call back into
    the same object are not modelled. *)
From stdpp Require Import list.
From S2P Require Import Prelude.

Section hook.
Context {E F : Type}.

(** * [CondF] *)

Record CondF := mkCondF {
  cf_cond : E -> bool;
  cf_fun : list F;
  cf_wanna : bool }.

Definition NewCondF (cond : E -> bool) : CondF := mkCondF cond [] false.

(** [None] is the nil pointer *)
Definition CondF_ReinitCondF (cf : option CondF) (cond : E -> bool) : CondF :=
  match cf with
  | None => NewCondF cond
  | Some cf => mkCondF cond [] false
  end.

(** the closures that run, and the result *)
Definition CondF_Call (cf : CondF) (env : E) (f : F) : CondF * list F * bool :=
  if cf_cond cf env then
    let ran := if cf_wanna cf then cf_fun cf else [] in
    (mkCondF (cf_cond cf) [] false, ran ++ [f], true)
  else (mkCondF (cf_cond cf) (cf_fun cf ++ [f]) true, [], false).

Definition CondF_Recall (cf : CondF) (env : E) : CondF * list F * bool :=
  if cf_wanna cf && cf_cond cf env
  then (mkCondF (cf_cond cf) [] false, cf_fun cf, true)
  else (cf, [], false).

Definition AndCond (cf : CondF) (cond : E -> bool) : CondF :=
  mkCondF (fun env => cf_cond cf env && cond env) (cf_fun cf) (cf_wanna cf).
Definition OrCond (cf : CondF) (cond : E -> bool) : CondF :=
  mkCondF (fun env => cf_cond cf env || cond env) (cf_fun cf) (cf_wanna cf).

(** * [OptCondF], which keeps the closures in a slice it reuses *)

Record OptCondF := mkOptCondF {
  oc_cond : E -> bool;
  oc_funs : list F;
  oc_funs_num : nat }.

Definition NewOptCondF (cond : E -> bool) : OptCondF := mkOptCondF cond [] 0.

Definition OptCondF_ReinitCondF (cf : option OptCondF) (cond : E -> bool) : OptCondF :=
  match cf with
  | None => NewOptCondF cond
  | Some cf => mkOptCondF cond (oc_funs cf) 0
  end.

Definition OptCondF_Call (cf : OptCondF) (env : E) (f : F) : OptCondF * list F * bool :=
  if oc_cond cf env
  then (mkOptCondF (oc_cond cf) (oc_funs cf) 0, take (oc_funs_num cf) (oc_funs cf) ++ [f], true)
  else
    let funs := if Nat.leb (length (oc_funs cf)) (oc_funs_num cf) then oc_funs cf ++ [f]
                else <[oc_funs_num cf := f]> (oc_funs cf) in
    (mkOptCondF (oc_cond cf) funs (S (oc_funs_num cf)), [], false).

Definition OptCondF_Recall (cf : OptCondF) (env : E) : OptCondF * list F * bool :=
  if Nat.ltb 0 (oc_funs_num cf) && oc_cond cf env
  then (mkOptCondF (oc_cond cf) (oc_funs cf) 0, take (oc_funs_num cf) (oc_funs cf), true)
  else (cf, [], false).

(** * What they promise *)

(** a use of the object: [Call], [Recall] or [ReinitCondF] *)
Inductive cond_op :=
| OpCall (env : E) (f : F)
| OpRecall (env : E)
| OpReinit (cond : E -> bool).

Definition CondF_op (cf : CondF) (o : cond_op) : CondF * list F * bool :=
  match o with
  | OpCall env f => CondF_Call cf env f
  | OpRecall env => CondF_Recall cf env
  | OpReinit cond => (CondF_ReinitCondF (Some cf) cond, [], false)
  end.
Definition OptCondF_op (cf : OptCondF) (o : cond_op) : OptCondF * list F * bool :=
  match o with
  | OpCall env f => OptCondF_Call cf env f
  | OpRecall env => OptCondF_Recall cf env
  | OpReinit cond => (OptCondF_ReinitCondF (Some cf) cond, [], false)
  end.

(** the abstract object: a condition and the queue of the closures that wait *)
Definition queue_op (s : (E -> bool) * list F) (o : cond_op) : ((E -> bool) * list F) * list F * bool :=
  let (cond, q) := s in
  match o with
  | OpCall env f => if cond env then ((cond, []), q ++ [f], true) else ((cond, q ++ [f]), [], false)
  | OpRecall env =>
      if cond env && negb (Nat.eqb (length q) 0) then ((cond, []), q, true) else ((cond, q), [], false)
  | OpReinit cond => ((cond, []), [], false)
  end.

(** what runs at each use, and its result *)
Fixpoint outputs {S} (step : S -> cond_op -> S * list F * bool) (s : S) (os : list cond_op) :
    list (list F * bool) :=
  match os with
  | [] => []
  | o :: os => let '(s, ran, ok) := step s o in (ran, ok) :: outputs step s os
  end.

Record cond_rel (cf : CondF) (s : (E -> bool) * list F) : Prop := {
  cr_cond : cf_cond cf = s.1;
  cr_fun : cf_fun cf = s.2;
  cr_wanna : cf_wanna cf = negb (Nat.eqb (length (cf_fun cf)) 0) }.

Record opt_rel (cf : OptCondF) (s : (E -> bool) * list F) : Prop := {
  or_cond : oc_cond cf = s.1;
  or_num : (oc_funs_num cf <= length (oc_funs cf))%nat;
  or_funs : take (oc_funs_num cf) (oc_funs cf) = s.2 }.

Lemma outputs_simulate {S T} (step : S -> cond_op -> S * list F * bool)
    (step' : T -> cond_op -> T * list F * bool) (R : S -> T -> Prop) :
  (forall s t o, R s t -> let '(s1, ran, ok) := step s o in let '(t1, ran', ok') := step' t o in
     R s1 t1 /\ ran = ran' /\ ok = ok') ->
  forall os s t, R s t -> outputs step s os = outputs step' t os.
Proof.
  intros Hstep os. induction os as [|o os IH]; intros s t H; cbn [outputs]; [done|].
  specialize (Hstep s t o H). destruct (step s o) as [[s1 ran] ok], (step' t o) as [[t1 ran'] ok'].
  destruct Hstep as (H1 & -> & ->). f_equal. by apply IH.
Qed.

Lemma CondF_op_queue cf s o : cond_rel cf s ->
  let '(cf1, ran, ok) := CondF_op cf o in let '(s1, ran', ok') := queue_op s o in
  cond_rel cf1 s1 /\ ran = ran' /\ ok = ok'.
Proof.
  destruct cf as [cond funs wanna], s as [cond' q]. intros [H1 H2 H3]. cbn in H1, H2, H3. subst.
  destruct o as [env f|env|c]; cbn [CondF_op queue_op].
  - unfold CondF_Call. cbn [cf_cond cf_fun cf_wanna]. destruct (cond' env).
    + split; [done|]. split; [|done]. by destruct q.
    + split; [|done]. split; [done|done|]. cbn. rewrite length_app. by destruct q.
  - unfold CondF_Recall. cbn [cf_cond cf_fun cf_wanna]. rewrite andb_comm. by destruct (cond' env && _).
  - done.
Qed.

Lemma OptCondF_op_queue cf s o : opt_rel cf s ->
  let '(cf1, ran, ok) := OptCondF_op cf o in let '(s1, ran', ok') := queue_op s o in
  opt_rel cf1 s1 /\ ran = ran' /\ ok = ok'.
Proof.
  destruct cf as [cond funs n], s as [cond' q]. intros [H1 H2 H3]. cbn in H1, H2, H3. subst.
  destruct o as [env f|env|c]; cbn [OptCondF_op queue_op].
  - unfold OptCondF_Call. cbn [oc_cond oc_funs oc_funs_num]. destruct (cond' env).
    { split; [split; cbn; [done|lia|done]|done]. }
    split; [|done]. split; cbn; [done| |].
    + destruct (Nat.leb_spec (length funs) n); [rewrite length_app; cbn; lia|]. rewrite length_insert. lia.
    + destruct (Nat.leb_spec (length funs) n) as [Hle|Hlt].
      * rewrite !take_ge by (rewrite ?length_app; cbn; lia). done.
      * rewrite (take_S_r _ n f) by (rewrite list_lookup_insert_eq; [done|lia]).
        by rewrite take_insert_ge by lia.
  - unfold OptCondF_Recall. cbn [oc_cond oc_funs oc_funs_num].
    assert (E1 : Nat.eqb (length (take n funs)) 0 = Nat.eqb n 0)
      by (rewrite length_take, Nat.min_l by lia; done).
    rewrite E1, andb_comm. destruct n; cbn [Nat.ltb Nat.leb Nat.eqb negb andb].
    + rewrite andb_false_r. done.
    + destruct (cond' env); cbn [andb]; [split; [split; cbn; [done|lia|done]|done]|done].
  - split; [split; cbn; [done|lia|done]|done].
Qed.
End hook.
Arguments CondF : clear implicits.
Arguments OptCondF : clear implicits.
Arguments cond_op : clear implicits.
