(* ===== verification/QuorumSets.v ===== *)
(** Quorums of the baseline protocols ([src/replica/quorum.go]): quorum sizes, the
    enumeration of all quorums of a size, the numbering of ballots by leader and
    quorum, and the quorum file.

    [int] values are small and kept as [Z]; [int32] arithmetic wraps ([i32]).  Where
    the code ranges over a map, whose order Go leaves open, the model takes the order
    of [map_to_list]. *)
From stdpp Require Import gmap list strings sorting.
From S2P Require Import Prelude Config.

Definition i32 (z : Z) : Z :=
  let m := z mod W32 in if m <? 2 ^ 31 then m else m - W32.

(** [replica.go]: [Leader], [NextBallotOf]; division truncates *)
Definition Leader (ballot repNum : Z) : Z := Z.rem ballot (i32 repNum).
Definition NextBallotOf (rid oldBallot repNum : Z) : Z :=
  i32 (i32 (i32 (Z.quot oldBallot (i32 repNum) + 1) * i32 repNum) + rid).

(** * Kinds of quorums *)

Class QuorumI (Q : Type) := { Size : Q -> Z; Contains : Q -> Z -> bool }.

Inductive Majority := mkMajority (m : Z).
Definition NewMajorityOf (N : Z) : Majority := mkMajority (Z.quot N 2 + 1).
#[export] Instance Majority_QuorumI : QuorumI Majority := {|
  Size := fun m => match m with mkMajority m => m end; Contains := fun _ _ => true |}.

Inductive ThreeQuarters := mkThreeQuarters (m : Z).
Definition NewThreeQuartersOf (N : Z) : ThreeQuarters := mkThreeQuarters (Z.quot (3 * N) 4 + 1).
#[export] Instance ThreeQuarters_QuorumI : QuorumI ThreeQuarters := {|
  Size := fun m => match m with mkThreeQuarters m => m end; Contains := fun _ _ => true |}.

Abbreviation Quorum := (gset Z).
Definition NewQuorum (size : Z) : Quorum := ∅.
Definition NewQuorumOfAll (size : Z) : Quorum := list_to_set (seqZ 0 size).
#[export] Instance Quorum_QuorumI : QuorumI Quorum := {|
  Size := fun q => Z.of_nat (size q); Contains := fun q r => bool_decide (r ∈ q) |}.

Definition Equals (q1 q2 : Quorum) : bool :=
  (Size q1 =? Size q2) && forallb (fun r => Contains q2 r) (elements q1).

(** * All quorums of a size *)

Abbreviation QuorumsOfLeader := (gmap Z Quorum).
Abbreviation QuorumSet := (gmap Z QuorumsOfLeader).

(** a quorum is entered for each of its members, under the next number *)
Definition enter_quorum (repNum : Z) (q : Quorum) (acc : QuorumSet * list (Z * Z * Quorum)) :
    QuorumSet * list (Z * Z * Quorum) :=
  foldl (fun (acc : QuorumSet * list (Z * Z * Quorum)) repId =>
    if Contains q repId then
      let lqs := default ∅ (acc.1 !! repId) in
      let len := i32 (Z.of_nat (size lqs)) in
      (<[repId := <[len := q]> lqs]> acc.1, acc.2 ++ [(repId, len, q)])
    else acc) acc (seqZ 0 repNum).

(** [subsets]: the calls of [treat] are collected; [rest] is [ids\[i:\]] *)
Fixpoint subsets (repNum : Z) (rest : list Z) (quorumSize : Z) (q : Quorum)
    (acc : QuorumSet * list (Z * Z * Quorum)) : QuorumSet * list (Z * Z * Quorum) :=
  let acc := if quorumSize =? 0 then enter_quorum repNum q acc else acc in
  (fix loop (l : list Z) acc :=
     match l with
     | [] => acc
     | j :: l => loop l (subsets repNum l (quorumSize - 1) ({[j]} ∪ q) acc)
     end) rest acc.

Definition newQuorumSetAdvance (quorumSize repNum : Z) : QuorumSet * list (Z * Z * Quorum) :=
  let ids := seqZ 0 repNum in
  let qs : QuorumSet := list_to_map ((fun id => (id, ∅)) <$> ids) in
  subsets repNum ids quorumSize (NewQuorum quorumSize) (qs, []).

Definition NewQuorumSet (quorumSize repNum : Z) : QuorumSet := (newQuorumSetAdvance quorumSize repNum).1.

(** * Ballots *)

(** [None]: the division by zero panics *)
Definition AQ (qs : QuorumSet) (ballot : Z) : option Quorum :=
  let n := i32 (Z.of_nat (size qs)) in
  if n =? 0 then None else
  let lqs := default ∅ (qs !! Leader ballot (Z.of_nat (size qs))) in
  let m := i32 (Z.of_nat (size lqs)) in
  if m =? 0 then None else
  let qid := Z.rem (Z.quot ballot n) m in
  Some (default ∅ (lqs !! qid)).

Definition BallotOf (qs : QuorumSet) (leader : Z) (q : Quorum) : Z :=
  match find (fun p : Z * Quorum => Equals p.2 q) (map_to_list (default ∅ (qs !! leader))) with
  | Some (qid, _) => i32 (i32 (qid * i32 (Z.of_nat (size qs))) + leader)
  | None => -1
  end.

(** * The quorum file *)

Inductive quorum_error := NO_QUORUM_FILE | THREE_QUARTERS | FileError.

(** [strings.Split(s, c)] for a one-character separator *)
Fixpoint split_char (c : Ascii.ascii) (cur s : string) : list string :=
  match s with
  | EmptyString => [cur]
  | String a s => if Ascii.eqb a c then cur :: split_char c EmptyString s
                  else split_char c (cur +:+ String a EmptyString) s
  end.
Definition ascii_space : Ascii.ascii := Ascii.ascii_of_nat 32.

(** the host of [PeerAddrList\[rid\]] is the address *)
Definition host_is (addr : string) (peer : string) : bool :=
  String.eqb addr (default EmptyString (head (split_char ascii_colon EmptyString peer))).

(** the first replica with that host *)
Definition replica_of_host (peers : list string) (addr : string) : option Z :=
  Z.of_nat ∘ fst <$> list_find (fun p : string => host_is addr p = true) peers.

Record quorum_file := mkquorum_file {
  qf_leaders : list Z;
  qf_AQs : list Quorum;
  qf_err : option quorum_error }.

(** one line; [i] is the index of the last quorum *)
Definition quorum_line (addrs : gmap string string) (peers : list string) (f : quorum_file) (text : string) :
    quorum_file :=
  let data := split_char ascii_space EmptyString text in
  let entry (isLeader : bool) (name : string) :=
    let addr := default EmptyString (addrs !! name) in
    match replica_of_host peers addr with
    | None => f
    | Some id =>
        let i := pred (length (qf_AQs f)) in
        mkquorum_file (if isLeader then <[i := id]> (qf_leaders f) else qf_leaders f)
          (alter (fun q => {[id]} ∪ q) i (qf_AQs f)) (qf_err f)
    end in
  match data with
  | [d] =>
      if String.eqb d "---" then mkquorum_file (qf_leaders f ++ [0]) (qf_AQs f ++ [∅]) (qf_err f)
      else if String.eqb d "3/4" then mkquorum_file (qf_leaders f) (qf_AQs f) (Some THREE_QUARTERS)
      else entry false d
  | _ :: name :: _ => entry true name
  | [] => f
  end.

(** the file's lines, or why it could not be read; [None] is the empty file name *)
Definition NewQuorumsFromFile (addrs : gmap string string) (peers : list string)
    (file : option (option (list string) * bool)) : list Quorum * list Z * option quorum_error :=
  match file with
  | None => ([], [], Some NO_QUORUM_FILE)
  | Some (None, _) => ([], [], Some FileError)
  | Some (Some lines, scan_err) =>
      let f := foldl (quorum_line addrs peers) (mkquorum_file [0] [∅] None) lines in
      (qf_AQs f, qf_leaders f, if scan_err then Some FileError else qf_err f)
  end.

(** * Quorum systems *)

Record QuorumSystem := mkQuorumSystem { sys_qs : QuorumSet; sys_ballots : list Z }.

(** the ballots [treat] collects for one enumerated quorum, each with the index of
    the file's quorum it stands for *)
Definition treat_ballots (N : Z) (AQs : list Quorum) (leaders : list Z) (t : Z * Z * Quorum) :
    list (Z * nat) :=
  let '(l, qid, q) := t in
  omap (fun p : nat * (Z * Quorum) =>
    let '(i, (leader, aq)) := p in
    if negb (leader =? l) || negb (Equals q aq) then None
    else Some (i32 (i32 (qid * i32 N) + l), i))
    (zip (seq 0 (length leaders)) (zip leaders AQs)).

(** [ids\[ballot\]]: the last index recorded for the ballot *)
Definition ballot_index (l : list (Z * nat)) (ballot : Z) : nat :=
  default 0%nat (snd <$> last (filter (fun p : Z * nat => p.1 = ballot) l)).

Definition ballot_le (l : list (Z * nat)) (a b : Z) : Prop := (ballot_index l a <= ballot_index l b)%nat.
#[export] Instance ballot_le_dec l : RelDecision (ballot_le l).
Proof. intros a b. unfold ballot_le. apply _. Defined.

Definition NewQuorumSystem (quorumSize N : Z) (file : list Quorum * list Z * option quorum_error) :
    option QuorumSystem * option quorum_error :=
  let '(AQs, leaders, err) := file in
  match err with
  | Some NO_QUORUM_FILE => (Some (mkQuorumSystem (NewQuorumSet quorumSize N) []), None)
  | Some FileError => (None, err)
  | _ =>
      let (qs, calls) := newQuorumSetAdvance quorumSize N in
      let bs := calls ≫= treat_ballots N AQs leaders in
      (Some (mkQuorumSystem qs
         (merge_sort (ballot_le bs) bs.*1)), err)
  end.

Definition BallotAt (sys : QuorumSystem) (i : Z) : option Z :=
  if i <? Z.of_nat (length (sys_ballots sys))
  then if i <? 0 then None else sys_ballots sys !! Z.to_nat i
  else Some (-1).

(** [None] where a division by zero panics *)
Definition SameHigher (sys : QuorumSystem) (sameAs higherThan : Z) : option Z :=
  let n := Z.of_nat (size (sys_qs sys)) in
  if i32 n =? 0 then None else
  let l := Leader sameAs n in
  let m := i32 (Z.of_nat (size (default ∅ (sys_qs sys !! l)))) in
  if m =? 0 then None else
  let k := Z.quot higherThan m in
  Some (i32 (sameAs + i32 (i32 (k * m) * i32 n))).

(** * What is enumerated *)

Lemma i32_small z : - 2 ^ 31 <= z < 2 ^ 31 -> i32 z = z.
Proof.
  intros H. unfold i32, W32. destruct (decide (0 <= z)).
  - rewrite Z.mod_small by lia. destruct (Z.ltb_spec z (2 ^ 31)); lia.
  - rewrite <- (Z.mod_unique z (2 ^ 32) (-1) (z + 2 ^ 32)) by lia.
    destruct (Z.ltb_spec (z + 2 ^ 32) (2 ^ 31)); lia.
Qed.

Lemma Equals_spec q1 q2 : Equals q1 q2 = true <-> q1 = q2.
Proof.
  unfold Equals. cbn [Size Contains Quorum_QuorumI]. rewrite andb_true_iff, Z.eqb_eq, forallb_forall. split.
  - intros [Hs Hc]. apply leibniz_equiv, set_subseteq_size_equiv; [|lia]. intros r Hr.
    apply (bool_decide_eq_true (r ∈ q2)), Hc, list_elem_of_In, elem_of_elements, Hr.
  - intros ->. split; [done|]. intros r Hr%list_elem_of_In. apply bool_decide_eq_true. by apply elem_of_elements.
Qed.

(** the quorums entered, in order *)
Fixpoint picks_loop (rest : list Z) (k : Z) (q : Quorum) : list Quorum :=
  match rest with
  | [] => []
  | j :: l => (if k - 1 =? 0 then [{[j]} ∪ q] else []) ++ picks_loop l (k - 1) ({[j]} ∪ q) ++ picks_loop l k q
  end.
Definition picks (rest : list Z) (k : Z) (q : Quorum) : list Quorum :=
  (if k =? 0 then [q] else []) ++ picks_loop rest k q.

Definition enter_all (N : Z) (l : list Quorum) (acc : QuorumSet * list (Z * Z * Quorum)) :=
  foldl (fun acc q => enter_quorum N q acc) acc l.

Lemma enter_all_app N l1 l2 acc : enter_all N (l1 ++ l2) acc = enter_all N l2 (enter_all N l1 acc).
Proof. apply foldl_app. Qed.

(** the loop over the next member *)
Definition subsets_loop (N k : Z) (q : Quorum) :=
  fix loop (l : list Z) (acc : QuorumSet * list (Z * Z * Quorum)) {struct l} :=
    match l with
    | [] => acc
    | j :: l => loop l (subsets N l (k - 1) ({[j]} ∪ q) acc)
    end.

Lemma subsets_eq N rest k q acc :
  subsets N rest k q acc = subsets_loop N k q rest (if k =? 0 then enter_quorum N q acc else acc).
Proof. by destruct rest. Qed.

Lemma subsets_picks N rest :
  (forall k q acc, subsets_loop N k q rest acc = enter_all N (picks_loop rest k q) acc) /\
  (forall k q acc, subsets N rest k q acc = enter_all N (picks rest k q) acc).
Proof.
  assert (Hs : (forall k q acc, subsets_loop N k q rest acc = enter_all N (picks_loop rest k q) acc) ->
    forall k q acc, subsets N rest k q acc = enter_all N (picks rest k q) acc).
  { intros H k q acc. rewrite subsets_eq, H. unfold picks. rewrite enter_all_app. by destruct (k =? 0). }
  split; [|apply Hs]; clear Hs; induction rest as [|j l IH]; intros k q acc; try done; cbn [subsets_loop].
  all: change ((fix loop (l : list Z) (acc : QuorumSet * list (Z * Z * Quorum)) {struct l} := match l with
    | [] => acc | j :: l => loop l (subsets N l (k - 1) ({[j]} ∪ q) acc) end) l) with (subsets_loop N k q l).
  all: rewrite IH, subsets_eq; cbn [picks_loop]; rewrite !enter_all_app; f_equal.
  all: change (subsets_loop N (k - 1) ({[j]} ∪ q) l) with (subsets_loop N (k - 1) ({[j]} ∪ q) l); rewrite IH.
  all: by destruct (k - 1 =? 0).
Qed.

(** the members of [picks]: the sets of [k] more members from [rest] *)
Lemma picks_elem rest : forall k (q s : Quorum), NoDup rest -> (forall r, r ∈ rest -> r ∉ q) -> 0 <= k ->
  s ∈ picks rest k q <->
  exists t : Quorum, (forall r, r ∈ t -> r ∈ rest) /\ Z.of_nat (size t) = k /\ s = t ∪ q.
Proof.
  assert (Hneg : forall rest k q, k < 0 -> picks_loop rest k q = []).
  { clear. intros rest. induction rest as [|j l IH]; intros k q Hk; [done|]. cbn [picks_loop].
    rewrite !IH by lia. by rewrite (proj2 (Z.eqb_neq _ _)) by lia. }
  induction rest as [|j l IH]; intros k q s Hnd Hq Hk.
  { unfold picks. cbn [picks_loop]. rewrite app_nil_r. split.
    - destruct (Z.eqb_spec k 0) as [->|]; [|by intros ?%elem_of_nil].
      intros ->%list_elem_of_singleton. exists ∅. split; [set_solver|]. split; [done|set_solver].
    - intros (t & Ht & Hs & ->). assert (t = ∅) as -> by (apply leibniz_equiv; set_solver).
      rewrite size_empty in Hs. rewrite (proj2 (Z.eqb_eq _ _)) by lia.
      apply list_elem_of_singleton. set_solver. }
  apply NoDup_cons in Hnd as [Hj Hnd].
  assert (Hsplit : s ∈ picks (j :: l) k q <-> (1 <= k /\ s ∈ picks l (k - 1) ({[j]} ∪ q)) \/ s ∈ picks l k q).
  { unfold picks. cbn [picks_loop]. rewrite !elem_of_app.
    destruct (decide (k = 0)) as [->|Hk0].
    - rewrite (Hneg l (0 - 1)) by lia. change (0 - 1 =? 0) with false. change (0 =? 0) with true.
      cbn iota. rewrite !elem_of_nil.
      split; [intros [H|[H|[H|H]]]|intros [[H _]|[H|H]]]; try done; try lia; auto.
    - rewrite (proj2 (Z.eqb_neq k 0)) by done. rewrite elem_of_nil. split.
      + intros [H|[H|[H|H]]]; [done| | |by right; right]; left; (split; [lia|auto]).
      + intros [[H1 [H2|H2]]|[H|H]]; auto; done. }
  rewrite Hsplit. rewrite (IH k q) by (try done; intros r Hr; apply Hq; set_solver).
  split.
  - intros [[H1 H2]|(t & H1 & H2 & ->)].
    + apply IH in H2 as (t & T1 & T2 & ->); [|done|set_solver|lia].
      assert (j ∉ t) by (intros Hin; apply Hj, T1, Hin).
      exists ({[j]} ∪ t). split; [set_solver|]. split; [|set_solver].
      rewrite size_union, size_singleton by set_solver. lia.
    + exists t. split; [set_solver|done].
  - intros (t & H1 & H2 & ->). destruct (decide (j ∈ t)) as [Hin|Hin].
    + left. assert (Hsz : size t = S (size (t ∖ {[j]}))).
      { transitivity (size ({[j]} ∪ t ∖ {[j]})); [by rewrite <- union_difference_singleton_L|].
        by rewrite size_union, size_singleton by set_solver. }
      split; [lia|]. apply IH; [done|set_solver|lia|]. exists (t ∖ {[j]}).
      split; [set_solver|]. split; [lia|].
      rewrite (union_difference_singleton_L j t) at 1 by done. set_solver.
    + right. exists t. split; [|done]. intros r Hr. specialize (H1 r Hr). set_solver.
Qed.

Lemma picks_length rest : forall k q, (length (picks rest k q) <= 2 ^ length rest)%nat.
Proof.
  assert (H : forall k q, (length (picks_loop rest k q) < 2 ^ length rest)%nat).
  { induction rest as [|j l IH]; intros k q; cbn [picks_loop length]; [cbn; lia|].
    rewrite !length_app. pose proof (IH (k - 1) ({[j]} ∪ q)). pose proof (IH k q). cbn [Nat.pow].
    destruct (_ =? 0); cbn [length]; lia. }
  intros k q. unfold picks. rewrite length_app. specialize (H k q). destruct (_ =? 0); cbn [length]; lia.
Qed.

(** * The quorums of a leader are numbered from 0 *)

Definition numbered (lqs : QuorumsOfLeader) (l : list Quorum) : Prop :=
  size lqs = length l /\ forall i, lqs !! i = if 0 <=? i then l !! Z.to_nat i else None.

Lemma numbered_snoc lqs l q : numbered lqs l -> Z.of_nat (length l) < 2 ^ 31 ->
  numbered (<[i32 (Z.of_nat (size lqs)) := q]> lqs) (l ++ [q]).
Proof.
  intros [Hs Hl] Hlt. rewrite Hs, i32_small by lia.
  assert (Hnone : lqs !! Z.of_nat (length l) = None).
  { rewrite Hl. rewrite (proj2 (Z.leb_le _ _)) by lia. apply lookup_ge_None_2. lia. }
  split; [rewrite map_size_insert_None by done; rewrite length_app; cbn; lia|].
  intros i. destruct (decide (i = Z.of_nat (length l))) as [->|Hne].
  - rewrite lookup_insert_eq, (proj2 (Z.leb_le _ _)) by lia. rewrite Nat2Z.id.
    by rewrite lookup_app_r, Nat.sub_diag by lia.
  - rewrite lookup_insert_ne, Hl by done. destruct (Z.leb_spec 0 i); [|done].
    destruct (decide (Z.to_nat i < length l)%nat); [by rewrite lookup_app_l by lia|].
    rewrite !lookup_ge_None_2; [done| |lia]. rewrite length_app. cbn. lia.
Qed.

Lemma enter_fold_lookup q ids : forall (acc : QuorumSet * list (Z * Z * Quorum)) l, NoDup ids ->
  (foldl (fun (acc : QuorumSet * list (Z * Z * Quorum)) repId =>
    if Contains q repId then
      let lqs := default ∅ (acc.1 !! repId) in
      let len := i32 (Z.of_nat (size lqs)) in
      (<[repId := <[len := q]> lqs]> acc.1, acc.2 ++ [(repId, len, q)])
    else acc) acc ids).1 !! l
  = if bool_decide (l ∈ ids /\ l ∈ q)
    then Some (<[i32 (Z.of_nat (size (default ∅ (acc.1 !! l)))) := q]> (default ∅ (acc.1 !! l)))
    else acc.1 !! l.
Proof.
  induction ids as [|r ids IH]; intros acc l Hnd; cbn [foldl].
  { rewrite bool_decide_false; [done|]. by intros [?%elem_of_nil _]. }
  apply NoDup_cons in Hnd as [Hr Hnd]. rewrite IH by done. clear IH.
  cbn [Contains Quorum_QuorumI]. destruct (bool_decide (r ∈ q)) eqn:Eq.
  - apply bool_decide_eq_true in Eq. cbn [fst]. destruct (decide (l = r)) as [->|Hne].
    + rewrite bool_decide_false by tauto. rewrite bool_decide_true by (split; [apply elem_of_cons; by left|done]).
      by rewrite lookup_insert_eq.
    + rewrite lookup_insert_ne by done.
      by rewrite (bool_decide_ext (l ∈ ids /\ l ∈ q) (l ∈ r :: ids /\ l ∈ q)) by (rewrite elem_of_cons; tauto).
  - apply bool_decide_eq_false in Eq. destruct (decide (l = r)) as [->|Hne].
    + rewrite !bool_decide_false; tauto.
    + by rewrite (bool_decide_ext (l ∈ ids /\ l ∈ q) (l ∈ r :: ids /\ l ∈ q)) by (rewrite elem_of_cons; tauto).
Qed.

Lemma enter_quorum_lookup N q acc l : 0 <= l < N ->
  (enter_quorum N q acc).1 !! l =
    if bool_decide (l ∈ q)
    then Some (<[i32 (Z.of_nat (size (default ∅ (acc.1 !! l)))) := q]> (default ∅ (acc.1 !! l)))
    else acc.1 !! l.
Proof.
  intros Hl. unfold enter_quorum. rewrite enter_fold_lookup by apply NoDup_seqZ.
  rewrite (bool_decide_ext (l ∈ seqZ 0 N /\ l ∈ q) (l ∈ q)); [done|].
  rewrite elem_of_seqZ. split; [tauto|]. intros. split; [lia|done].
Qed.

Lemma enter_quorum_outside N q acc l : ~ 0 <= l < N -> (enter_quorum N q acc).1 !! l = acc.1 !! l.
Proof.
  intros Hl. unfold enter_quorum. rewrite enter_fold_lookup by apply NoDup_seqZ.
  rewrite bool_decide_false; [done|]. rewrite elem_of_seqZ. lia.
Qed.

Lemma enter_all_numbered N l L : forall acc P, 0 <= l < N ->
  numbered (default ∅ (acc.1 !! l)) P -> Z.of_nat (length P + length L) < 2 ^ 31 ->
  numbered (default ∅ ((enter_all N L acc).1 !! l)) (P ++ filter (fun q : Quorum => l ∈ q) L).
Proof.
  induction L as [|q L IH]; intros acc P Hl Hn Hlen; cbn [enter_all foldl]; [by rewrite app_nil_r|].
  cbn [length] in Hlen. fold (enter_all N L (enter_quorum N q acc)). rewrite filter_cons.
  destruct (decide (l ∈ q)) as [Hin|Hin].
  - change (q :: filter (fun q : Quorum => l ∈ q) L) with ([q] ++ filter (fun q : Quorum => l ∈ q) L).
    rewrite app_assoc. apply IH; [done| |rewrite length_app; cbn; lia].
    rewrite enter_quorum_lookup, bool_decide_true by done. cbn. apply numbered_snoc; [done|lia].
  - apply IH; [done| |lia]. by rewrite enter_quorum_lookup, bool_decide_false by done.
Qed.

Lemma enter_all_dom N L : forall acc, (forall l, is_Some (acc.1 !! l) <-> 0 <= l < N) ->
  forall l, is_Some ((enter_all N L acc).1 !! l) <-> 0 <= l < N.
Proof.
  induction L as [|q L IH]; intros acc H; cbn [enter_all foldl]; [done|]. apply IH. intros l.
  destruct (decide (0 <= l < N)) as [Hl|Hl].
  - rewrite enter_quorum_lookup by done. destruct (bool_decide _); [|apply H]. split; [done|]. by eexists.
  - by rewrite enter_quorum_outside by done.
Qed.

(** what [NewQuorumSet] builds *)
Record all_quorums (N k : Z) (qs : QuorumSet) : Prop := {
  aq_size : Z.of_nat (size qs) = N;
  aq_leader : forall l, 0 <= l < N -> exists L, numbered (default ∅ (qs !! l)) L /\
    (length L <= 2 ^ Z.to_nat N)%nat /\
    forall q : Quorum, q ∈ L <-> (forall r, r ∈ q -> 0 <= r < N) /\ Z.of_nat (size q) = k /\ l ∈ q }.

Lemma NewQuorumSet_all N k : 0 <= k -> 0 <= N <= 26 -> all_quorums N k (NewQuorumSet k N).
Proof.
  intros Hk HN. unfold NewQuorumSet, newQuorumSetAdvance. rewrite (proj2 (subsets_picks N (seqZ 0 N))).
  set (qs0 := list_to_map _). set (L := picks _ _ _).
  assert (Hlen : (length L <= 2 ^ Z.to_nat N)%nat).
  { unfold L. etransitivity; [apply picks_length|]. by rewrite length_seqZ. }
  assert (Hlen' : Z.of_nat (length L) <= 2 ^ 26).
  { assert (2 ^ Z.to_nat N <= 2 ^ 26)%nat by (apply Nat.pow_le_mono_r; lia).
    assert (Z.of_nat (2 ^ 26)%nat = 2 ^ 26) by (rewrite Nat2Z.inj_pow; done). lia. }
  assert (H0 : forall l, qs0 !! l = if bool_decide (0 <= l < N) then Some ∅ else None).
  { intros l. unfold qs0. destruct (bool_decide _) eqn:El.
    - apply bool_decide_eq_true in El. apply elem_of_list_to_map_1.
      + rewrite <- list_fmap_compose. cbn. rewrite list_fmap_id. apply NoDup_seqZ.
      + apply list_elem_of_fmap. exists l. split; [done|]. apply elem_of_seqZ. lia.
    - apply bool_decide_eq_false in El. apply not_elem_of_list_to_map_1.
      rewrite <- list_fmap_compose. cbn. rewrite list_fmap_id, elem_of_seqZ. lia. }
  split.
  - assert (Hd : forall l, is_Some ((enter_all N L (qs0, [])).1 !! l) <-> 0 <= l < N).
    { apply enter_all_dom. intros l. cbn. rewrite H0. destruct (bool_decide _) eqn:El.
      - apply bool_decide_eq_true in El. split; [done|by eexists].
      - apply bool_decide_eq_false in El. split; [by intros []|done]. }
    rewrite <- size_dom.
    assert (dom (enter_all N L (qs0, [])).1 = list_to_set (C:=gset Z) (seqZ 0 N)) as ->.
    { apply leibniz_equiv. intros l. rewrite elem_of_dom, Hd, elem_of_list_to_set, elem_of_seqZ. lia. }
    rewrite size_list_to_set by apply NoDup_seqZ. rewrite length_seqZ. lia.
  - intros l Hl. exists (filter (fun q : Quorum => l ∈ q) L). split; [|split].
    + apply (enter_all_numbered N l L (qs0, []) []); [done| |cbn [length Nat.add]; lia].
      cbn. rewrite H0, bool_decide_true by done. split; [exact (map_size_empty (M:=gmap Z) (A:=Quorum))|].
      intros i. cbn. rewrite lookup_empty. by destruct (0 <=? i).
    + etransitivity; [apply length_filter|exact Hlen].
    + intros q. rewrite list_elem_of_filter. unfold L.
      rewrite picks_elem by (try apply NoDup_seqZ; try done; set_solver). split.
      * intros (Hin & t & H1 & H2 & ->). unfold NewQuorum in *.
        assert (t ∪ (∅ : Quorum) = t) as Et by (apply leibniz_equiv; set_solver). rewrite Et in *.
        split; [|done]. intros r Hr%H1. apply elem_of_seqZ in Hr. lia.
      * intros (H1 & H2 & H3). split; [done|]. exists q. split; [|split; [done|]].
        -- intros r Hr%H1. apply elem_of_seqZ. lia.
        -- unfold NewQuorum. apply leibniz_equiv. set_solver.
Qed.

(** the numbers of a leader's quorums *)
Lemma numbered_lookup lqs L qid q : numbered lqs L ->
  lqs !! qid = Some q <-> 0 <= qid < Z.of_nat (length L) /\ L !! Z.to_nat qid = Some q.
Proof.
  intros [_ Hl]. rewrite Hl. destruct (Z.leb_spec 0 qid) as [H|H]; [|split; [done|lia]]. split; [|tauto].
  intros E. split; [|done]. apply lookup_lt_Some in E. lia.
Qed.

Lemma BallotOf_spec N k qs l (q : Quorum) :
  0 < k <= N -> N <= 26 -> all_quorums N k qs -> 0 <= l < N ->
  (forall r, r ∈ q -> 0 <= r < N) -> Z.of_nat (size q) = k -> l ∈ q ->
  exists qid L, numbered (default ∅ (qs !! l)) L /\ 0 <= qid < Z.of_nat (length L) /\
    (length L <= 2 ^ Z.to_nat N)%nat /\
    default ∅ (qs !! l) !! qid = Some q /\ BallotOf qs l q = qid * N + l.
Proof.
  intros Hk HN [Hsz Hall] Hl Hq Hqs Hlq. destruct (Hall l Hl) as (L & Hnum & Hlen & Hmem).
  assert (q ∈ L) as (n & Hn)%list_elem_of_lookup_1 by (by apply Hmem).
  assert (Hin : default ∅ (qs !! l) !! Z.of_nat n = Some q).
  { rewrite numbered_lookup by done. rewrite Nat2Z.id. split; [|done]. apply lookup_lt_Some in Hn. lia. }
  unfold BallotOf.
  destruct (find _ (map_to_list _)) as [[qid q']|] eqn:Ef.
  2:{ exfalso. apply elem_of_map_to_list, list_elem_of_In in Hin.
      pose proof (find_none _ _ Ef _ Hin) as H. cbn in H.
      assert (Equals q q = true) by (by apply Equals_spec). congruence. }
  apply find_some in Ef as [H1 H2]. cbn in H2. apply Equals_spec in H2 as ->.
  apply list_elem_of_In, elem_of_map_to_list in H1. pose proof H1 as H1'.
  rewrite numbered_lookup in H1 by done. destruct H1 as [H1 _].
  exists qid, L. split; [done|]. split; [done|]. split; [done|]. split; [done|].
  assert (Z.of_nat (length L) <= 2 ^ 26).
  { assert (2 ^ Z.to_nat N <= 2 ^ 26)%nat by (apply Nat.pow_le_mono_r; lia).
    assert (Z.of_nat (2 ^ 26)%nat = 2 ^ 26) by (rewrite Nat2Z.inj_pow; done). lia. }
  rewrite Hsz, (i32_small N) by lia. rewrite (i32_small (qid * N)) by nia. rewrite i32_small by nia. done.
Qed.

(** a leader has a quorum of each size *)
Lemma quorum_exists N k l : 0 < k <= N -> 0 <= l < N ->
  exists q : Quorum, (forall r, r ∈ q -> 0 <= r < N) /\ Z.of_nat (size q) = k /\ l ∈ q.
Proof.
  intros Hk Hl. set (others := filter (fun r : Z => r <> l) (seqZ 0 N)).
  assert (Ho : Z.of_nat (length others) = N - 1).
  { unfold others. assert (l ∈ seqZ 0 N) as (l1 & l2 & E)%list_elem_of_split by (apply elem_of_seqZ; lia).
    pose proof (NoDup_seqZ 0 N) as Hnd. rewrite E in Hnd |- *.
    apply NoDup_app in Hnd as (N1 & N2 & N3). apply NoDup_cons in N3 as [N3 N4].
    assert (Hf : forall l' : list Z, l ∉ l' -> filter (fun r : Z => r <> l) l' = l').
    { clear. induction l' as [|x l' IH]; [done|]. intros H. rewrite filter_cons.
      rewrite decide_True by set_solver. f_equal. apply IH. set_solver. }
    rewrite filter_app, filter_cons, decide_False by tauto. rewrite !Hf; [|done|].
    - pose proof (f_equal length E) as El. rewrite length_seqZ, !length_app in El. cbn in El.
      rewrite length_app. lia.
    - intros Hin. apply (N2 l Hin). apply elem_of_cons. by left. }
  assert (Hnd : NoDup others) by (apply NoDup_filter, NoDup_seqZ).
  exists ({[l]} ∪ list_to_set (take (Z.to_nat (k - 1)) others)).
  assert (Hno : forall r, r ∈ take (Z.to_nat (k - 1)) others -> r <> l /\ 0 <= r < N).
  { intros r Hr. apply list_elem_of_lookup_1 in Hr as [i Hi]. apply lookup_take_Some in Hi as [Hi _].
    apply list_elem_of_lookup_2 in Hi. rename Hi into Hr.
    unfold others in Hr. apply list_elem_of_filter in Hr as [H1 H2]. apply elem_of_seqZ in H2. split; [done|lia]. }
  split; [|split; [|set_solver]].
  - intros r [->%elem_of_singleton|Hr%elem_of_list_to_set]%elem_of_union; [done|by apply Hno].
  - rewrite size_union, size_singleton, size_list_to_set.
    + rewrite length_take. lia.
    + eapply sublist_NoDup; [exact Hnd|apply sublist_take].
    + intros r ->%elem_of_singleton Hr%elem_of_list_to_set. by destruct (Hno l Hr).
Qed.

Lemma AQ_spec N k qs b : 0 < k <= N -> N <= 26 -> all_quorums N k qs -> 0 <= b ->
  let l := Leader b N in
  0 <= l < N /\ exists L, numbered (default ∅ (qs !! l)) L /\ 0 < Z.of_nat (length L) /\
    AQ qs b = default ∅ (qs !! l) !! Z.rem (Z.quot b N) (Z.of_nat (length L)).
Proof.
  intros Hk HN [Hsz Hall] Hb l. assert (Hl : 0 <= l < N).
  { unfold l, Leader. rewrite i32_small by lia. apply Z.rem_bound_pos; lia. }
  split; [done|]. destruct (Hall l Hl) as (L & Hnum & Hlen & Hmem). exists L. split; [done|].
  assert (Hpos : 0 < Z.of_nat (length L)).
  { assert (exists q : Quorum, q ∈ L) as [q Hq].
    { destruct (quorum_exists N k l Hk Hl) as (q & H). exists q. by apply Hmem. }
    destruct L; [by apply elem_of_nil in Hq|]. cbn. lia. }
  split; [done|]. unfold AQ. rewrite Hsz. fold l. rewrite (proj1 Hnum).
  assert (Z.of_nat (length L) <= 2 ^ 26).
  { assert (2 ^ Z.to_nat N <= 2 ^ 26)%nat by (apply Nat.pow_le_mono_r; lia).
    assert (Z.of_nat (2 ^ 26)%nat = 2 ^ 26) by (rewrite Nat2Z.inj_pow; done). lia. }
  rewrite !i32_small by lia. rewrite (proj2 (Z.eqb_neq N 0)), (proj2 (Z.eqb_neq _ 0)) by lia.
  destruct (_ !! Z.rem _ _) eqn:E; [done|]. exfalso.
  assert (0 <= Z.rem (Z.quot b N) (Z.of_nat (length L)) < Z.of_nat (length L)) as Hr
    by (apply Z.rem_bound_pos; [apply Z.quot_pos; lia|lia]).
  destruct Hnum as [_ Hn]. rewrite Hn, (proj2 (Z.leb_le _ _)) in E by lia.
  apply lookup_ge_None_1 in E. lia.
Qed.

(** * Sets of replies ([src/replica/mset.go]): messages of a quorum are collected until
    there are enough, those that do not fit the leader's message are dropped.

    [accept] is the set's filter, a function of a message and of the leader's message
    if it has arrived; freeing a message and calling the handler are outputs.  Where
    the code ranges over the map of messages, whose order Go leaves open, the model
    takes the order of [map_to_list]. *)

Section msgset.
Context {Q M : Type} `{QuorumI Q}.

Record MsgSet := mkMsgSet {
  ms_q : Q;
  ms_msgs : gmap Z M;
  ms_leaderMsg : option M;
  ms_accept : M -> option M -> bool }.

Inductive ms_effect :=
| FreeMsg (m : M)
| Handler (leaderMsg : option M) (msgs : list M).

Definition NewMsgSet (q : Q) (accept : M -> option M -> bool) : MsgSet := mkMsgSet q ∅ None accept.

(** [None] is the nil pointer; the messages of an old set are not freed *)
Definition ReinitMsgSet (ms : option MsgSet) (q : Q) (accept : M -> option M -> bool) : MsgSet :=
  match ms with
  | None => NewMsgSet q accept
  | Some ms => mkMsgSet q ∅ None accept
  end.

Definition rejected (ms : MsgSet) (repId : Z) : bool :=
  negb (Contains (ms_q ms) repId) ||
  (match ms_leaderMsg ms with Some _ => true | None => false end &&
   match ms_msgs ms !! repId with Some _ => true | None => false end).

(** the leader's message arrives: those that do not fit it are freed *)
Definition set_leader (ms : MsgSet) (msg : M) : MsgSet * list ms_effect :=
  (mkMsgSet (ms_q ms) (filter (fun p : Z * M => ms_accept ms p.2 (Some msg) = true) (ms_msgs ms)) (Some msg) (ms_accept ms),
   FreeMsg <$> filter (fun m => ms_accept ms m (Some msg) = false) (map_to_list (ms_msgs ms)).*2).

Definition enough (ms : MsgSet) : bool :=
  let n := Z.of_nat (size (ms_msgs ms)) in
  (Size (ms_q ms) <=? n) ||
  ((Size (ms_q ms) - 1 <=? n) && match ms_leaderMsg ms with Some _ => true | None => false end).

Definition Add (ms : MsgSet) (repId : Z) (isLeader : bool) (msg : M) : MsgSet * list ms_effect * bool :=
  if rejected ms repId then (ms, [], false) else
  let '(ms, fx, added) :=
    if isLeader then let (ms, fx) := set_leader ms msg in (ms, fx, true)
    else if ms_accept ms msg (ms_leaderMsg ms)
    then (mkMsgSet (ms_q ms) (<[repId := msg]> (ms_msgs ms)) (ms_leaderMsg ms) (ms_accept ms), [], true)
    else (ms, [FreeMsg msg], false) in
  (ms, fx ++ if enough ms then [Handler (ms_leaderMsg ms) (map_to_list (ms_msgs ms)).*2] else [], added).

Definition Free (ms : option MsgSet) : list ms_effect :=
  match ms with
  | None => []
  | Some ms =>
      match ms_leaderMsg ms with Some m => [FreeMsg m] | None => [] end ++
      (FreeMsg <$> (map_to_list (ms_msgs ms)).*2)
  end.

(** * What is collected *)

(** a message added to the set: the replica, whether it was taken for the leader's,
    the message *)
Definition arrival : Type := Z * bool * M.

Fixpoint adds (ms : MsgSet) (l : list arrival) : MsgSet * list ms_effect :=
  match l with
  | [] => (ms, [])
  | (repId, isLeader, msg) :: l =>
      let '(ms, fx, _) := Add ms repId isLeader msg in
      let (ms, fx') := adds ms l in (ms, fx ++ fx')
  end.

Record ms_ok (q : Q) (accept : M -> option M -> bool) (seen : list arrival) (ms : MsgSet) : Prop := {
  mo_q : ms_q ms = q;
  mo_accept : ms_accept ms = accept;
  mo_msgs : forall r m, ms_msgs ms !! r = Some m ->
    (r, false, m) ∈ seen /\ Contains q r = true /\ accept m (ms_leaderMsg ms) = true;
  mo_leader : forall m, ms_leaderMsg ms = Some m -> exists r, (r, true, m) ∈ seen /\ Contains q r = true }.

(** the handler's arguments: the messages of distinct members of the quorum, all
    fitting the leader's, and enough of them *)
Definition handled (q : Q) (accept : M -> option M -> bool) (seen : list arrival)
    (leaderMsg : option M) (msgs : list M) : Prop :=
  (exists from : list Z, NoDup from /\
     Forall2 (fun r m => (r, false, m) ∈ seen /\ Contains q r = true /\ accept m leaderMsg = true) from msgs) /\
  (forall m, leaderMsg = Some m -> exists r, (r, true, m) ∈ seen /\ Contains q r = true) /\
  (Size q <= Z.of_nat (length msgs) \/ leaderMsg <> None /\ Size q - 1 <= Z.of_nat (length msgs)).

Lemma NewMsgSet_ok q accept seen : ms_ok q accept seen (NewMsgSet q accept).
Proof. by split. Qed.

Lemma ms_ok_weaken q accept seen seen' ms : (forall a, a ∈ seen -> a ∈ seen') ->
  ms_ok q accept seen ms -> ms_ok q accept seen' ms.
Proof.
  intros Hs [A B C D]. split; [done|done| |].
  - intros r m Hm. destruct (C r m Hm) as (? & ?). auto.
  - intros m Hm. destruct (D m Hm) as (r & ? & ?). eauto.
Qed.

Lemma enough_handled q accept seen ms : ms_ok q accept seen ms -> enough ms = true ->
  handled q accept seen (ms_leaderMsg ms) (map_to_list (ms_msgs ms)).*2.
Proof.
  intros [Eq Ea Hm Hl] He. split; [|split; [exact Hl|]].
  - exists (map_to_list (ms_msgs ms)).*1. split; [apply NoDup_fst_map_to_list|].
    apply Forall2_fmap_2, Forall_Forall2_diag, Forall_forall. intros [r m] Hin.
    apply elem_of_map_to_list in Hin. by apply Hm.
  - unfold enough in He. rewrite length_fmap, length_map_to_list. rewrite Eq in He.
    apply orb_true_iff in He as [He|He]; [left; lia|]. apply andb_true_iff in He as [He1 He2].
    right. split; [by destruct (ms_leaderMsg ms)|lia].
Qed.

Lemma Add_ok q accept seen ms repId isLeader msg :
  ms_ok q accept seen ms ->
  let seen' := (repId, isLeader, msg) :: seen in
  let '(ms', fx, _) := Add ms repId isLeader msg in
  ms_ok q accept seen' ms' /\
  forall l m, Handler l m ∈ fx -> handled q accept seen' l m.
Proof.
  intros Hok seen'. pose proof (ms_ok_weaken q accept seen seen' ms ltac:(set_solver) Hok) as Hok'.
  unfold Add. destruct (rejected ms repId) eqn:Er; [split; [done|]; by intros ?? ?%elem_of_nil|].
  assert (Hc : Contains q repId = true).
  { unfold rejected in Er. apply orb_false_iff in Er as [Er _]. rewrite <- (mo_q _ _ _ _ Hok).
    by apply negb_false_iff in Er. }
  set (p := if isLeader then _ else _).
  assert (Hp : ms_ok q accept seen' p.1.1 /\ forall l m, Handler l m ∉ p.1.2).
  { unfold p. destruct Hok' as [Eq Ea Hm Hl]. destruct isLeader.
    - cbn. split.
      + split; cbn; [done|done| |].
        * intros r m [Hr Hac]%map_lookup_filter_Some. rewrite Ea in Hac.
          destruct (Hm r m Hr) as (? & ? & ?). auto.
        * intros m [= <-]. exists repId. split; [apply elem_of_cons; by left|done].
      + intros l m Hin. apply list_elem_of_fmap in Hin as (? & [=] & _).
    - destruct (ms_accept ms msg (ms_leaderMsg ms)) eqn:Eacc; cbn.
      + split; [|intros; apply not_elem_of_nil]. split; cbn; [done|done| |done].
        intros r m. destruct (decide (r = repId)) as [->|Hne].
        * rewrite lookup_insert_eq. intros [= <-]. rewrite <- Ea.
          split; [apply elem_of_cons; by left|done].
        * rewrite lookup_insert_ne by done. apply Hm.
      + split; [done|]. intros l m Hin. by apply list_elem_of_singleton in Hin. }
  destruct p as [[ms1 fx1] added]. cbn [fst snd] in Hp. destruct Hp as [H1 H2]. split; [done|].
  intros l m [Hin|Hin]%elem_of_app; [by destruct (H2 l m)|].
  destruct (enough ms1) eqn:Een; [|by apply elem_of_nil in Hin].
  apply list_elem_of_singleton in Hin. injection Hin as -> ->. by apply enough_handled.
Qed.

Lemma handled_weaken q accept seen seen' l m : (forall a, a ∈ seen -> a ∈ seen') ->
  handled q accept seen l m -> handled q accept seen' l m.
Proof.
  intros Hs ((from & H1 & H2) & H3 & H4). split; [|split; [|done]].
  - exists from. split; [done|]. eapply Forall2_impl; [exact H2|]. cbn. intros r x (? & ? & ?). auto.
  - intros x Hx. destruct (H3 x Hx) as (r & ? & ?). eauto.
Qed.

Lemma adds_ok q accept l : forall seen ms, ms_ok q accept seen ms ->
  let (ms', fx) := adds ms l in
  ms_ok q accept (rev l ++ seen) ms' /\
  forall lm m, Handler lm m ∈ fx -> handled q accept (rev l ++ seen) lm m.
Proof.
  induction l as [|[[repId isLeader] msg] l IH]; intros seen ms Hok; cbn [adds rev].
  { split; [done|]. by intros ?? ?%elem_of_nil. }
  pose proof (Add_ok q accept seen ms repId isLeader msg Hok) as H1. cbv zeta in H1.
  destruct (Add ms repId isLeader msg) as [[ms1 fx1] b]. destruct H1 as [H1 H2].
  specialize (IH _ ms1 H1). destruct (adds ms1 l) as [ms2 fx2]. destruct IH as [H3 H4].
  rewrite <- app_assoc. cbn [app]. split; [done|].
  intros lm m [Hin|Hin]%elem_of_app; [|by apply H4].
  eapply handled_weaken; [|by apply H2]. intros a Ha. apply elem_of_app. by right.
Qed.
End msgset.
