(* ===== verification/GobWire.v ===== *)
(** What the messages of the baseline protocols share ([src/*/defs.go] below the line
    "Generated with gobin-codegen", [src/rpc/rpc.go], and the sending and listening
    sides of a connection in [src/replica/replica.go]).

    [Marshal] gives the bytes it writes.  [Unmarshal] fills in a value it is given: it
    ends with the filled value and the rest of the stream ([Done]), with an error,
    what was filled until then and the rest ([Fails]), or with a panic ([Crash]).  A
    nested [Unmarshal] whose error the code drops is [nested].  The reader is the
    buffered reader of a connection, seen as the bytes that it will ever deliver. *)
From stdpp Require Import gmap list.
From S2P Require Import Prelude WireBase Wire State QuorumSets.

(** * Integers *)

Definition is_i32 (z : Z) : Prop := - 2 ^ 31 <= z < 2 ^ 31.
Definition is_u8 (z : Z) : Prop := 0 <= z < 256.
Definition is_i8 (z : Z) : Prop := - 128 <= z < 128.

(** [bs\[0\] = byte(v)], [bs\[1\] = byte(v >> 8)], ... *)
Definition le32 (v : Z) : list byte := le_bytes 4 v.
Definition le64 (v : Z) : list byte := le_bytes 8 v.
Definition le8 (v : Z) : list byte := [byte_of v].

(** [int32(uint32(bs\[off\]) | uint32(bs\[off+1\]) << 8 | ...)] and the others *)
Definition i32_at (bs : list byte) (off : nat) : Z := i32 (le_val (sub bs off 4)).
Definition i64_at (bs : list byte) (off : nat) : Z := i64 (le_val (sub bs off 8)).
Definition u8_at (bs : list byte) (off : nat) : Z := le_val (sub bs off 1).
Definition i8_at (bs : list byte) (off : nat) : Z :=
  let v := u8_at bs off in if v <? 128 then v else v - 256.

(** ** Varints *)

Fixpoint PutUvarint (fuel : nat) (x : Z) : list byte :=
  match fuel with
  | O => []
  | S fuel => if x <? 128 then [byte_of x] else byte_of (x mod 128 + 128) :: PutUvarint fuel (x / 128)
  end.
(** [binary.PutVarint]; ten bytes hold 64 bits *)
Definition PutVarint (x : Z) : list byte :=
  PutUvarint 10 (if x <? 0 then 2 * (- x - 1) + 1 else 2 * x).

Inductive gob_error := ReadError (e : wire_error) | VarintOverflow.

(** [binary.ReadUvarint], at the byte [i] of at most ten *)
Fixpoint ReadUvarint (fuel : nat) (i x : Z) (bs : list byte) : (Z + gob_error) * list byte :=
  match fuel with
  | O => (inr VarintOverflow, bs)
  | S fuel =>
      match bs with
      | [] => (inr (ReadError (if i =? 0 then EOF else ErrUnexpectedEOF)), [])
      | b :: bs =>
          let v := byte_val b in
          if v <? 128
          then if (i =? 9) && (1 <? v) then (inr VarintOverflow, bs) else (inl (x + v * 2 ^ (7 * i)), bs)
          else ReadUvarint fuel (i + 1) (x + v mod 128 * 2 ^ (7 * i)) bs
      end
  end.
Definition ReadVarint (bs : list byte) : (Z + gob_error) * list byte :=
  match ReadUvarint 10 0 0 bs with
  | (inl ux, bs) => (inl (if Z.odd ux then - (ux / 2) - 1 else ux / 2), bs)
  | (inr e, bs) => (inr e, bs)
  end.

(** * Decoders *)

Inductive dres (A : Type) :=
| Done (a : A) (rest : list byte)
| Fails (a : A) (rest : list byte) (e : gob_error)
| Crash.
Arguments Done {A}. Arguments Fails {A}. Arguments Crash {A}.

Definition into (A : Type) : Type := A -> list byte -> dres A.

Definition seq_into {A} (d1 d2 : into A) : into A := fun t bs =>
  match d1 t bs with Done t bs => d2 t bs | r => r end.
Notation "d1 ;> d2" := (seq_into d1 d2) (at level 60, right associativity).

(** [io.ReadAtLeast(wire, bs\[:n\], n)] *)
Definition chunk {A} (n : nat) (f : list byte -> A -> A) : into A := fun t bs =>
  if decide (n <= length bs)%nat then Done (f (take n bs) t) (drop n bs)
  else Fails t [] (ReadError (if decide (bs = []) then EOF else ErrUnexpectedEOF)).

(** how many bytes of the stream that is left the connection's reader has at hand *)
Class Conn := buffered : list byte -> nat.

(** [io.ReadAtLeast] with a buffer of [cap > n] bytes: it also takes what else the
    reader has at hand, [got] bytes *)
Definition chunk_upto {A} (got : list byte -> nat) (n cap : nat) (f : list byte -> A -> A) : into A := fun t bs =>
  if decide (n <= length bs)%nat
  then let k := Nat.max n (Nat.min (Nat.min cap (got bs)) (length bs)) in Done (f (take k bs) t) (drop k bs)
  else Fails t [] (ReadError (if decide (bs = []) then EOF else ErrUnexpectedEOF)).

(** a field's own [Unmarshal], its error dropped *)
Definition nested {A B} (d : into B) (get : A -> B) (set : B -> A -> A) : into A := fun t bs =>
  match d (get t) bs with
  | Done b bs | Fails b bs _ => Done (set b t) bs
  | Crash => Crash
  end.

(** an [Unmarshal] that ends at the first error of a part, nothing filled by it *)
Definition of_reader {A B} (p : reader B) (set : B -> A -> A) : into A := fun t bs =>
  match p bs with
  | Ok b bs => Done (set b t) bs
  | Err e => Fails t [] (ReadError e)
  end.

(** the loop over a slice just made: its elements are zero; the errors of [d] are
    dropped, or end it *)
Fixpoint fill {B} (drop_errors : bool) (d : into B) (zero : B) (n : nat) (bs : list byte) : dres (list B) :=
  match n with
  | O => Done [] bs
  | S n =>
      match d zero bs with
      | Crash => Crash
      | Fails b rest e =>
          if drop_errors then
            match fill drop_errors d zero n rest with
            | Done l rest => Done (b :: l) rest
            | Fails l rest e => Fails (b :: l) rest e
            | Crash => Crash
            end
          else Fails (b :: replicate n zero) rest e
      | Done b rest =>
          match fill drop_errors d zero n rest with
          | Done l rest => Done (b :: l) rest
          | Fails l rest e => Fails (b :: l) rest e
          | Crash => Crash
          end
      end
  end.

(** the largest allocation; [make] panics beyond it, and on a negative length *)
Definition maxAlloc : Z := 2 ^ 48.

(** a slice: its length, [make], the loop.  [size] is the size of an element. *)
Definition slice_into {A B} (size : Z) (drop_errors : bool) (d : into B) (zero : B) (set : list B -> A -> A) :
    into A := fun t bs =>
  match ReadVarint bs with
  | (inr e, bs) => Fails t bs e
  | (inl n, bs) =>
      if (n <? 0) || (maxAlloc <? n * size) then Crash else
      match fill drop_errors d zero (Z.to_nat n) bs with
      | Done l bs => Done (set l t) bs
      | Fails l bs e => Fails (set l t) bs e
      | Crash => Crash
      end
  end.

Definition put_slice {B} (m : B -> list byte) (l : list B) : list byte :=
  PutVarint (Zlength l) ++ concat (m <$> l).

(** ** What a decoder does with what an encoder wrote *)

Definition Puts {A} (d : into A) (bs : list byte) (t t' : A) : Prop :=
  forall rest, d t (bs ++ rest) = Done t' rest.

Section puts.
Context {A B : Type}.

Lemma Puts_eq (d : into A) bs t t' t'' : Puts d bs t t' -> t' = t'' -> Puts d bs t t''.
Proof. by intros H ->. Qed.

Lemma Puts_seq (d1 d2 : into A) bs1 bs2 t t1 t2 :
  Puts d1 bs1 t t1 -> Puts d2 bs2 t1 t2 -> Puts (d1 ;> d2) (bs1 ++ bs2) t t2.
Proof. intros H1 H2 rest. unfold seq_into. rewrite <- app_assoc, H1. apply H2. Qed.

Lemma Puts_chunk n (f : list byte -> A -> A) bs t : length bs = n -> Puts (chunk n f) bs t (f bs t).
Proof.
  intros <- rest. unfold chunk. rewrite decide_True by (rewrite length_app; lia).
  by rewrite take_app_length, drop_app_length.
Qed.

(** when the reader has all of it at hand *)
Lemma Puts_chunk_upto got n cap (f : list byte -> A -> A) bs t : length bs = cap -> (n <= cap)%nat ->
  (forall b, (cap <= got b)%nat) -> Puts (chunk_upto got n cap f) bs t (f bs t).
Proof.
  intros <- Hn Hg rest. unfold chunk_upto. specialize (Hg (bs ++ rest)).
  rewrite decide_True by (rewrite length_app; lia). rewrite length_app.
  replace (Nat.max _ _) with (length bs) by lia. by rewrite take_app_length, drop_app_length.
Qed.

(** when the reader is offered no more than what was written *)
Lemma Puts_chunk_exact got n cap (f : list byte -> A -> A) bs t : length bs = n -> n = cap ->
  Puts (chunk_upto got n cap f) bs t (f bs t).
Proof.
  intros <- <- rest. unfold chunk_upto. rewrite decide_True by (rewrite length_app; lia).
  replace (Nat.max _ _) with (length bs) by lia. by rewrite take_app_length, drop_app_length.
Qed.

Lemma Puts_nested (d : into B) (get : A -> B) set bs t b : Puts d bs (get t) b -> Puts (nested d get set) bs t (set b t).
Proof. intros H rest. unfold nested. by rewrite H. Qed.

Lemma Puts_reader (p : reader B) (set : B -> A -> A) bs t b : Reads p bs b -> Puts (of_reader p set) bs t (set b t).
Proof. intros H rest. unfold of_reader. by rewrite H. Qed.

Lemma fill_puts de (d : into B) (m : B -> list byte) zero l rest :
  Forall (fun x => Puts d (m x) zero x) l -> fill de d zero (length l) (concat (m <$> l) ++ rest) = Done l rest.
Proof.
  induction 1 as [|x l Hx Hl IH]; cbn [length fill]; [done|]. rewrite fmap_cons. cbn [concat].
  by rewrite <- app_assoc, Hx, IH.
Qed.
End puts.

Lemma ReadUvarint_app n : forall fuel i acc x rest,
  (n <= fuel)%nat -> 0 <= i -> i + Z.of_nat n <= 9 -> 0 <= x < 2 ^ (7 * Z.of_nat n) ->
  ReadUvarint fuel i acc (PutUvarint n x ++ rest) = (inl (acc + x * 2 ^ (7 * i)), rest) \/ n = O.
Proof.
  induction n as [|n IH]; intros fuel i acc x rest Hf Hi Hin Hx; [by right|]. left.
  destruct fuel as [|fuel]; [lia|]. cbn [PutUvarint].
  destruct (Z.ltb_spec x 128) as [Hlt|Hge].
  - cbn [app ReadUvarint]. rewrite byte_val_of, Z.mod_small by lia.
    rewrite (proj2 (Z.ltb_lt x 128)) by lia. rewrite (proj2 (Z.eqb_neq i 9)) by lia. done.
  - cbn [app ReadUvarint]. rewrite byte_val_of.
    pose proof (Z.mod_pos_bound x 128 ltac:(lia)). rewrite (Z.mod_small _ 256) by lia.
    rewrite (proj2 (Z.ltb_ge _ 128)) by lia.
    replace (Z.of_nat (S n)) with (Z.of_nat n + 1) in * by lia.
    assert (Hd : 0 <= x / 128 < 2 ^ (7 * Z.of_nat n)).
    { split; [apply Z.div_pos; lia|]. apply Z.div_lt_upper_bound; [lia|].
      replace (128 * 2 ^ (7 * Z.of_nat n)) with (2 ^ (7 * (Z.of_nat n + 1))); [lia|].
      change 128 with (2 ^ 7). rewrite <- Z.pow_add_r by lia. f_equal. lia. }
    destruct (IH fuel (i + 1) (acc + (x mod 128 + 128) mod 128 * 2 ^ (7 * i)) (x / 128) rest) as [-> | ->];
      [lia..| |].
    + do 2 f_equal. replace ((x mod 128 + 128) mod 128) with (x mod 128).
      2:{ replace (x mod 128 + 128) with (x mod 128 + 1 * 128) by lia. by rewrite Z.mod_add, Z.mod_mod. }
      replace (2 ^ (7 * (i + 1))) with (128 * 2 ^ (7 * i)).
      2:{ change 128 with (2 ^ 7). rewrite <- Z.pow_add_r by lia. f_equal. lia. }
      pose proof (Z.div_mod x 128 ltac:(lia)) as Ex. set (q := x / 128) in *. set (y := x mod 128) in *.
      rewrite Ex. ring.
    + change (2 ^ (7 * (Z.of_nat 0 + 1))) with 128 in Hx. lia.
Qed.

(** more fuel than digits changes nothing *)
Lemma PutUvarint_fuel n : forall m x, (n <= m)%nat -> (1 <= n)%nat -> 0 <= x < 2 ^ (7 * Z.of_nat n) ->
  PutUvarint m x = PutUvarint n x.
Proof.
  induction n as [|n IH]; intros m x Hm Hn Hx; [lia|]. destruct m as [|m]; [lia|]. cbn [PutUvarint].
  destruct (Z.ltb_spec x 128) as [|Hge]; [done|]. f_equal.
  replace (Z.of_nat (S n)) with (Z.of_nat n + 1) in Hx by lia.
  destruct n as [|n]; [change (2 ^ (7 * (Z.of_nat 0 + 1))) with 128 in Hx; lia|].
  apply IH; [lia..|]. split; [apply Z.div_pos; lia|]. apply Z.div_lt_upper_bound; [lia|].
  replace (128 * 2 ^ (7 * Z.of_nat (S n))) with (2 ^ (7 * (Z.of_nat (S n) + 1))); [lia|].
  change 128 with (2 ^ 7). rewrite <- Z.pow_add_r by lia. f_equal. lia.
Qed.

Lemma ReadVarint_app x rest : 0 <= x <= maxAlloc -> ReadVarint (PutVarint x ++ rest) = (inl x, rest).
Proof.
  unfold maxAlloc. intros Hx. unfold ReadVarint, PutVarint. rewrite (proj2 (Z.ltb_ge x 0)) by lia.
  assert (Hb : 0 <= 2 * x < 2 ^ (7 * Z.of_nat 8)) by (change (2 ^ (7 * Z.of_nat 8)) with (2 ^ 56); lia).
  rewrite (PutUvarint_fuel 8 10) by lia.
  destruct (ReadUvarint_app 8 10 0 0 (2 * x) rest) as [-> | ]; [lia..| |done].
  change (2 ^ (7 * 0)) with 1. replace (0 + 2 * x * 1) with (2 * x) by lia.
  rewrite Z.odd_mul. cbn [Z.odd andb]. by rewrite Z.mul_comm, Z.div_mul.
Qed.

Lemma Puts_slice {A B} size de (d : into B) (m : B -> list byte) zero (set : list B -> A -> A) l t :
  0 < size -> Zlength l * size <= maxAlloc -> Forall (fun x => Puts d (m x) zero x) l ->
  Puts (slice_into size de d zero set) (put_slice m l) t (set l t).
Proof.
  intros Hsz Hle Hl rest. unfold slice_into, put_slice. rewrite <- app_assoc.
  assert (0 <= Zlength l) by lia. rewrite ReadVarint_app by nia.
  rewrite (proj2 (Z.ltb_ge _ 0)), (proj2 (Z.ltb_ge _ _)) by lia. cbn [orb].
  rewrite Nat2Z.id. by rewrite (fill_puts de d m).
Qed.

(** ** Reading fields back *)

Lemma sub_skip {n} (v : Z) bs off w : sub (le_bytes n v ++ bs) (n + off) w = sub bs off w.
Proof. unfold sub. f_equal. rewrite <- drop_drop. f_equal. by rewrite <- (length_le_bytes n v) at 1; rewrite drop_app_length. Qed.
Lemma sub_skip32 v bs off w : sub (le32 v ++ bs) (S (S (S (S off)))) w = sub bs off w.
Proof. apply (sub_skip (n := 4)). Qed.
Lemma sub_skip64 v bs off w : sub (le64 v ++ bs) (S (S (S (S (S (S (S (S off)))))))) w = sub bs off w.
Proof. apply (sub_skip (n := 8)). Qed.
Lemma sub_skip8 v bs off w : sub (le8 v ++ bs) (S off) w = sub bs off w.
Proof. done. Qed.

Lemma sub_here {n} (v : Z) bs : sub (le_bytes n v ++ bs) 0 n = le_bytes n v.
Proof. unfold sub. rewrite drop_0. rewrite <- (length_le_bytes n v) at 1. apply take_app_length. Qed.
Lemma sub_last {n} (v : Z) : sub (le_bytes n v) 0 n = le_bytes n v.
Proof. rewrite <- (app_nil_r (le_bytes n v)) at 1. apply sub_here. Qed.

Lemma i32_read v : is_i32 v -> i32 (le_val (le_bytes 4 v)) = v.
Proof.
  unfold is_i32. intros H. rewrite le_val_bytes. unfold i32. change (256 ^ Z.of_nat 4) with W32. rewrite Z.mod_mod by done.
  apply (i32_small v). exact H.
Qed.
Lemma i64_read v : is_i64 v -> i64 (le_val (le_bytes 8 v)) = v.
Proof. intros H. rewrite le_val_bytes. change (v mod 256 ^ Z.of_nat 8) with (u64 v). by apply i64_u64. Qed.

Lemma i32_at_here v bs : is_i32 v -> i32_at (le32 v ++ bs) 0 = v.
Proof. intros H. unfold i32_at, le32. rewrite sub_here. by apply i32_read. Qed.
Lemma i32_at_last v : is_i32 v -> i32_at (le32 v) 0 = v.
Proof. intros H. unfold i32_at, le32. rewrite sub_last. by apply i32_read. Qed.
Lemma i64_at_here v bs : is_i64 v -> i64_at (le64 v ++ bs) 0 = v.
Proof. intros H. unfold i64_at, le64. rewrite sub_here. by apply i64_read. Qed.
Lemma i64_at_last v : is_i64 v -> i64_at (le64 v) 0 = v.
Proof. intros H. unfold i64_at, le64. rewrite sub_last. by apply i64_read. Qed.
Lemma u8_at_here v bs : is_u8 v -> u8_at (le8 v ++ bs) 0 = v.
Proof.
  unfold is_u8. intros H. change (u8_at (le8 v ++ bs) 0) with (byte_val (byte_of v) + 256 * 0).
  rewrite byte_val_of, Z.mod_small by lia. lia.
Qed.
Lemma u8_at_last v : is_u8 v -> u8_at (le8 v) 0 = v.
Proof. apply (u8_at_here v []). Qed.
Lemma i8_at_here v bs : is_i8 v -> i8_at (le8 v ++ bs) 0 = v.
Proof.
  unfold is_i8. intros H. unfold i8_at. change (u8_at (le8 v ++ bs) 0) with (byte_val (byte_of v) + 256 * 0).
  rewrite byte_val_of, Z.mul_0_r, Z.add_0_r.
  destruct (decide (0 <= v)).
  - rewrite Z.mod_small by lia. rewrite (proj2 (Z.ltb_lt _ _)) by lia. done.
  - replace (v mod 256) with (v + 256) by (apply (Z.mod_unique _ _ (-1)); lia).
    rewrite (proj2 (Z.ltb_ge _ _)) by lia. lia.
Qed.
Lemma i8_at_last v : is_i8 v -> i8_at (le8 v) 0 = v.
Proof. apply (i8_at_here v []). Qed.

Lemma i32_at_skip32 v bs off : i32_at (le32 v ++ bs) (S (S (S (S off)))) = i32_at bs off.
Proof. unfold i32_at. by rewrite sub_skip32. Qed.
Lemma i32_at_skip64 v bs off : i32_at (le64 v ++ bs) (S (S (S (S (S (S (S (S off)))))))) = i32_at bs off.
Proof. unfold i32_at. by rewrite sub_skip64. Qed.
Lemma i32_at_skip8 v bs off : i32_at (le8 v ++ bs) (S off) = i32_at bs off.
Proof. done. Qed.
Lemma i64_at_skip32 v bs off : i64_at (le32 v ++ bs) (S (S (S (S off)))) = i64_at bs off.
Proof. unfold i64_at. by rewrite sub_skip32. Qed.
Lemma u8_at_skip32 v bs off : u8_at (le32 v ++ bs) (S (S (S (S off)))) = u8_at bs off.
Proof. unfold u8_at. by rewrite sub_skip32. Qed.
Lemma i8_at_skip32 v bs off : i8_at (le32 v ++ bs) (S (S (S (S off)))) = i8_at bs off.
Proof. unfold i8_at. by rewrite u8_at_skip32. Qed.

Create Rewrite HintDb gob.
#[export] Hint Rewrite @i32_at_skip32 @i32_at_skip64 @i32_at_skip8 @i64_at_skip32 @u8_at_skip32 @i8_at_skip32 : gob.
#[export] Hint Rewrite @i32_at_here @i32_at_last @i64_at_here @i64_at_last @u8_at_here @u8_at_last @i8_at_here @i8_at_last
  using done : gob.
#[global] Opaque le32 le64 le8 i32_at i64_at u8_at i8_at.

(** * What a message type promises *)

Class GobCodec (A : Type) := {
  gob_zero : A;
  GMarshal : A -> list byte;
  GUnmarshal : into A;
  GWf : A -> Prop;
  gob_reads m : GWf m -> Puts GUnmarshal (GMarshal m) gob_zero m }.

Lemma put_slice_codec {A B} `{GobCodec B} size de (set : list B -> A -> A) l t :
  0 < size -> Zlength l * size <= maxAlloc -> Forall GWf l ->
  Puts (slice_into size de GUnmarshal gob_zero set) (put_slice GMarshal l) t (set l t).
Proof.
  intros Hs Hl HF. apply Puts_slice; [done|done|]. eapply Forall_impl; [exact HF|]. intros x. apply gob_reads.
Qed.

Lemma nested_codec {A B} `{GobCodec B} (get : A -> B) set t b :
  GWf b -> get t = gob_zero -> Puts (nested GUnmarshal get set) (GMarshal b) t (set b t).
Proof. intros Hb Hz. apply Puts_nested. rewrite Hz. by apply gob_reads. Qed.

Create HintDb gob_fields.

(** the parts of a message, one after the other; then its fields *)
Ltac gob_part :=
  first
    [ apply Puts_chunk; reflexivity
    | eapply nested_codec; [eassumption|reflexivity]
    | eapply put_slice_codec; [lia|done|first [done|by apply Forall_true]]
    | eapply Puts_slice; [lia|done|eapply Forall_impl; [eassumption|]; eauto with gob_fields] ].
Ltac gob_parts :=
  lazymatch goal with
  | |- Puts (_ ;> _) _ _ _ => eapply Puts_seq; [gob_part|gob_parts]
  | |- _ => gob_part
  end.
Ltac gob_message := eapply Puts_eq; [gob_parts|]; cbv beta; autorewrite with gob; subst; reflexivity.

(** ** Parts *)

#[export, program] Instance Command_codec : GobCodec Command := {|
  gob_zero := mkCommand 0 0 [];
  GMarshal := Command_Marshal;
  GUnmarshal := of_reader Operation_Unmarshal (fun o c => mkCommand o (cmd_K c) (cmd_V c)) ;>
                of_reader Key_Unmarshal (fun k c => mkCommand (cmd_Op c) k (cmd_V c)) ;>
                of_reader Value_Unmarshal (fun v c => mkCommand (cmd_Op c) (cmd_K c) v);
  GWf := Command_wf |}.
Next Obligation.
  intros c (Ho & Hk & Hv). unfold Command_Marshal. eapply Puts_eq.
  - eapply Puts_seq; [by apply Puts_reader, Operation_reads|].
    eapply Puts_seq; [by apply Puts_reader, Key_reads|by apply Puts_reader, Value_reads].
  - by destruct c.
Qed.

(** a field read byte by byte into an array *)
Fixpoint bytes_into {A} (n : nat) (add : byte -> A -> A) : into A :=
  match n with
  | O => fun t bs => Done t bs
  | S n => chunk 1 (fun bs => add (ByteAt bs 0)) ;> bytes_into n add
  end.

Lemma bytes_into_app {A} (add : byte -> A -> A) l t : Puts (bytes_into (length l) add) l t (foldl (fun t b => add b t) t l).
Proof.
  revert t. induction l as [|b l IH]; intros t; cbn [bytes_into length foldl]; [by intros rest|].
  change (b :: l) with ([b] ++ l). eapply Puts_seq; [by apply Puts_chunk|]. apply IH.
Qed.

#[export, program] Instance byte_codec : GobCodec byte := {|
  gob_zero := x00;
  GMarshal := fun b => [b];
  GUnmarshal := chunk 1 (fun bs _ => ByteAt bs 0);
  GWf := fun _ => True |}.
Next Obligation. intros b _. by eapply Puts_eq; [apply Puts_chunk|]. Qed.

(** an [int32], an [int] of a slice *)
Definition int32_fields : into Z := chunk 4 (fun bs _ => i32_at bs 0).
Definition int_fields : into Z := chunk 8 (fun bs _ => i64_at bs 0).
Lemma int32_fields_reads v : is_i32 v -> Puts int32_fields (le32 v) 0 v.
Proof. intros H. eapply Puts_eq; [apply Puts_chunk; reflexivity|]. by apply i32_at_last. Qed.
Lemma int_fields_reads v : is_i64 v -> Puts int_fields (le64 v) 0 v.
Proof. intros H. eapply Puts_eq; [apply Puts_chunk; reflexivity|]. by apply i64_at_last. Qed.
#[export] Hint Resolve int32_fields_reads int_fields_reads : gob_fields.

Definition Value_wf (v : Value) : Prop := Zlength v < 2 ^ 16.
#[export, program] Instance Value_codec : GobCodec Value := {|
  gob_zero := [];
  GMarshal := Value_Marshal;
  GUnmarshal := of_reader Value_Unmarshal (fun v _ => v);
  GWf := Value_wf |}.
Next Obligation. intros v H. apply (Puts_reader _ (fun v _ => v)). by apply Value_reads. Qed.

#[export, program] Instance Key_codec : GobCodec Key := {|
  gob_zero := 0;
  GMarshal := Key_Marshal;
  GUnmarshal := of_reader Key_Unmarshal (fun v _ => v);
  GWf := is_i64 |}.
Next Obligation. intros v H. apply (Puts_reader _ (fun v _ => v)). by apply Key_reads. Qed.

(** * The caches of messages of the generated code ([Get], [Put]): one definition for all
    of them; the wire files instantiate it per message.

    A message is a value; an entry may be the nil pointer, [None].  The mutex makes a
    call one step. *)

Section cache.
Context {M : Type}.

Definition Cache : Type := list (option M).
Definition NewCache : Cache := [].

(** [new]: what [&T{}] makes *)
Definition Cache_Get (new : M) (p : Cache) : M * Cache :=
  match last p with
  | None => (new, p)
  | Some t => (default new t, take (length p - 1) p)
  end.
Definition Cache_Put (p : Cache) (t : option M) : Cache := p ++ [t].

(** ** A stack *)

Lemma Get_Put new p t : Cache_Get new (Cache_Put p t) = (default new t, p).
Proof.
  unfold Cache_Get, Cache_Put. rewrite last_snoc. f_equal. rewrite length_app. cbn.
  replace (length p + 1 - 1)%nat with (length p) by lia. by rewrite take_app_length.
Qed.
Lemma Get_New new : Cache_Get new NewCache = (new, []).
Proof. done. Qed.
End cache.
Arguments Cache : clear implicits.
