(* ===== verification/DefsWire.v ===== *)
(** The messages between clients and replicas of the baselines ([src/replica/defs/defs.go]). *)
From stdpp Require Import gmap list.
From S2P Require Import Prelude WireBase Wire State QuorumSets GobWire.

Record Propose := mkPropose {
  pps_CommandId : Z;
  pps_ClientId : Z;
  pps_Command : Command;
  pps_Timestamp : Z }.
#[export] Instance eta_Propose : Eta Propose := fun r => mkPropose (pps_CommandId r) (pps_ClientId r) (pps_Command r) (pps_Timestamp r).
Definition Propose_Marshal (t : Propose) : list byte :=
  (le32 (pps_CommandId t) ++ le32 (pps_ClientId t)) ++
  GMarshal (pps_Command t) ++
  le64 (pps_Timestamp t).
Definition Propose_Unmarshal : into Propose :=
  chunk 8 (fun bs t => t <| pps_CommandId := i32_at bs 0 |> <| pps_ClientId := i32_at bs 4 |>) ;>
  nested GUnmarshal pps_Command (fun x t => t <| pps_Command := x |>) ;>
  chunk 8 (fun bs t => t <| pps_Timestamp := i64_at bs 0 |>).
Definition Propose_wf (t : Propose) : Prop :=
  is_i32 (pps_CommandId t) /\ is_i32 (pps_ClientId t) /\ GWf (pps_Command t) /\ is_i64 (pps_Timestamp t).
#[export, program] Instance Propose_codec : GobCodec Propose := {|
  gob_zero := mkPropose 0 0 (mkCommand 0 0 []) 0;
  GMarshal := Propose_Marshal; GUnmarshal := Propose_Unmarshal; GWf := Propose_wf |}.
Next Obligation.
  intros [v0 v1 v2 v3] Hwf. unfold Propose_wf in Hwf. cbn [pps_CommandId pps_ClientId pps_Command pps_Timestamp] in Hwf. destruct_and? Hwf.
  unfold Propose_Marshal, Propose_Unmarshal. cbn [pps_CommandId pps_ClientId pps_Command pps_Timestamp]. gob_message.
Qed.

Record ProposeReply := mkProposeReply {
  prp_OK : Z;
  prp_CommandId : Z }.
#[export] Instance eta_ProposeReply : Eta ProposeReply := fun r => mkProposeReply (prp_OK r) (prp_CommandId r).
Definition ProposeReply_Marshal (t : ProposeReply) : list byte :=
  (le8 (prp_OK t) ++ le32 (prp_CommandId t)).
Definition ProposeReply_Unmarshal : into ProposeReply :=
  chunk 5 (fun bs t => t <| prp_OK := u8_at bs 0 |> <| prp_CommandId := i32_at bs 1 |>).
Definition ProposeReply_wf (t : ProposeReply) : Prop :=
  is_u8 (prp_OK t) /\ is_i32 (prp_CommandId t).
#[export, program] Instance ProposeReply_codec : GobCodec ProposeReply := {|
  gob_zero := mkProposeReply 0 0;
  GMarshal := ProposeReply_Marshal; GUnmarshal := ProposeReply_Unmarshal; GWf := ProposeReply_wf |}.
Next Obligation.
  intros [v0 v1] Hwf. unfold ProposeReply_wf in Hwf. cbn [prp_OK prp_CommandId] in Hwf. destruct_and? Hwf.
  unfold ProposeReply_Marshal, ProposeReply_Unmarshal. cbn [prp_OK prp_CommandId]. gob_message.
Qed.

Record ProposeReplyTS := mkProposeReplyTS {
  prt_OK : Z;
  prt_CommandId : Z;
  prt_Value : Value;
  prt_Timestamp : Z }.
#[export] Instance eta_ProposeReplyTS : Eta ProposeReplyTS := fun r => mkProposeReplyTS (prt_OK r) (prt_CommandId r) (prt_Value r) (prt_Timestamp r).
Definition ProposeReplyTS_Marshal (t : ProposeReplyTS) : list byte :=
  (le8 (prt_OK t) ++ le32 (prt_CommandId t)) ++
  GMarshal (prt_Value t) ++
  le64 (prt_Timestamp t).
Definition ProposeReplyTS_Unmarshal : into ProposeReplyTS :=
  chunk 5 (fun bs t => t <| prt_OK := u8_at bs 0 |> <| prt_CommandId := i32_at bs 1 |>) ;>
  nested GUnmarshal prt_Value (fun x t => t <| prt_Value := x |>) ;>
  chunk 8 (fun bs t => t <| prt_Timestamp := i64_at bs 0 |>).
Definition ProposeReplyTS_wf (t : ProposeReplyTS) : Prop :=
  is_u8 (prt_OK t) /\ is_i32 (prt_CommandId t) /\ GWf (prt_Value t) /\ is_i64 (prt_Timestamp t).
#[export, program] Instance ProposeReplyTS_codec : GobCodec ProposeReplyTS := {|
  gob_zero := mkProposeReplyTS 0 0 [] 0;
  GMarshal := ProposeReplyTS_Marshal; GUnmarshal := ProposeReplyTS_Unmarshal; GWf := ProposeReplyTS_wf |}.
Next Obligation.
  intros [v0 v1 v2 v3] Hwf. unfold ProposeReplyTS_wf in Hwf. cbn [prt_OK prt_CommandId prt_Value prt_Timestamp] in Hwf. destruct_and? Hwf.
  unfold ProposeReplyTS_Marshal, ProposeReplyTS_Unmarshal. cbn [prt_OK prt_CommandId prt_Value prt_Timestamp]. gob_message.
Qed.

Record Read := mkRead {
  prd_CommandId : Z;
  prd_Key : Key }.
#[export] Instance eta_Read : Eta Read := fun r => mkRead (prd_CommandId r) (prd_Key r).
Definition Read_Marshal (t : Read) : list byte :=
  le32 (prd_CommandId t) ++
  GMarshal (prd_Key t).
Definition Read_Unmarshal : into Read :=
  chunk 4 (fun bs t => t <| prd_CommandId := i32_at bs 0 |>) ;>
  nested GUnmarshal prd_Key (fun x t => t <| prd_Key := x |>).
Definition Read_wf (t : Read) : Prop :=
  is_i32 (prd_CommandId t) /\ GWf (prd_Key t).
#[export, program] Instance Read_codec : GobCodec Read := {|
  gob_zero := mkRead 0 0;
  GMarshal := Read_Marshal; GUnmarshal := Read_Unmarshal; GWf := Read_wf |}.
Next Obligation.
  intros [v0 v1] Hwf. unfold Read_wf in Hwf. cbn [prd_CommandId prd_Key] in Hwf. destruct_and? Hwf.
  unfold Read_Marshal, Read_Unmarshal. cbn [prd_CommandId prd_Key]. gob_message.
Qed.

Record ReadReply := mkReadReply {
  prr_CommandId : Z;
  prr_Value : Value }.
#[export] Instance eta_ReadReply : Eta ReadReply := fun r => mkReadReply (prr_CommandId r) (prr_Value r).
Definition ReadReply_Marshal (t : ReadReply) : list byte :=
  le32 (prr_CommandId t) ++
  GMarshal (prr_Value t).
Definition ReadReply_Unmarshal : into ReadReply :=
  chunk 4 (fun bs t => t <| prr_CommandId := i32_at bs 0 |>) ;>
  nested GUnmarshal prr_Value (fun x t => t <| prr_Value := x |>).
Definition ReadReply_wf (t : ReadReply) : Prop :=
  is_i32 (prr_CommandId t) /\ GWf (prr_Value t).
#[export, program] Instance ReadReply_codec : GobCodec ReadReply := {|
  gob_zero := mkReadReply 0 [];
  GMarshal := ReadReply_Marshal; GUnmarshal := ReadReply_Unmarshal; GWf := ReadReply_wf |}.
Next Obligation.
  intros [v0 v1] Hwf. unfold ReadReply_wf in Hwf. cbn [prr_CommandId prr_Value] in Hwf. destruct_and? Hwf.
  unfold ReadReply_Marshal, ReadReply_Unmarshal. cbn [prr_CommandId prr_Value]. gob_message.
Qed.

Record ProposeAndRead := mkProposeAndRead {
  par2_CommandId : Z;
  par2_Command : Command;
  par2_Key : Key }.
#[export] Instance eta_ProposeAndRead : Eta ProposeAndRead := fun r => mkProposeAndRead (par2_CommandId r) (par2_Command r) (par2_Key r).
Definition ProposeAndRead_Marshal (t : ProposeAndRead) : list byte :=
  le32 (par2_CommandId t) ++
  GMarshal (par2_Command t) ++
  GMarshal (par2_Key t).
Definition ProposeAndRead_Unmarshal : into ProposeAndRead :=
  chunk 4 (fun bs t => t <| par2_CommandId := i32_at bs 0 |>) ;>
  nested GUnmarshal par2_Command (fun x t => t <| par2_Command := x |>) ;>
  nested GUnmarshal par2_Key (fun x t => t <| par2_Key := x |>).
Definition ProposeAndRead_wf (t : ProposeAndRead) : Prop :=
  is_i32 (par2_CommandId t) /\ GWf (par2_Command t) /\ GWf (par2_Key t).
#[export, program] Instance ProposeAndRead_codec : GobCodec ProposeAndRead := {|
  gob_zero := mkProposeAndRead 0 (mkCommand 0 0 []) 0;
  GMarshal := ProposeAndRead_Marshal; GUnmarshal := ProposeAndRead_Unmarshal; GWf := ProposeAndRead_wf |}.
Next Obligation.
  intros [v0 v1 v2] Hwf. unfold ProposeAndRead_wf in Hwf. cbn [par2_CommandId par2_Command par2_Key] in Hwf. destruct_and? Hwf.
  unfold ProposeAndRead_Marshal, ProposeAndRead_Unmarshal. cbn [par2_CommandId par2_Command par2_Key]. gob_message.
Qed.

Record ProposeAndReadReply := mkProposeAndReadReply {
  parr_OK : Z;
  parr_CommandId : Z;
  parr_Value : Value }.
#[export] Instance eta_ProposeAndReadReply : Eta ProposeAndReadReply := fun r => mkProposeAndReadReply (parr_OK r) (parr_CommandId r) (parr_Value r).
Definition ProposeAndReadReply_Marshal (t : ProposeAndReadReply) : list byte :=
  (le8 (parr_OK t) ++ le32 (parr_CommandId t)) ++
  GMarshal (parr_Value t).
Definition ProposeAndReadReply_Unmarshal : into ProposeAndReadReply :=
  chunk 5 (fun bs t => t <| parr_OK := u8_at bs 0 |> <| parr_CommandId := i32_at bs 1 |>) ;>
  nested GUnmarshal parr_Value (fun x t => t <| parr_Value := x |>).
Definition ProposeAndReadReply_wf (t : ProposeAndReadReply) : Prop :=
  is_u8 (parr_OK t) /\ is_i32 (parr_CommandId t) /\ GWf (parr_Value t).
#[export, program] Instance ProposeAndReadReply_codec : GobCodec ProposeAndReadReply := {|
  gob_zero := mkProposeAndReadReply 0 0 [];
  GMarshal := ProposeAndReadReply_Marshal; GUnmarshal := ProposeAndReadReply_Unmarshal; GWf := ProposeAndReadReply_wf |}.
Next Obligation.
  intros [v0 v1 v2] Hwf. unfold ProposeAndReadReply_wf in Hwf. cbn [parr_OK parr_CommandId parr_Value] in Hwf. destruct_and? Hwf.
  unfold ProposeAndReadReply_Marshal, ProposeAndReadReply_Unmarshal. cbn [parr_OK parr_CommandId parr_Value]. gob_message.
Qed.

Record Beacon := mkBeacon {
  bcn_Timestamp : Z }.
#[export] Instance eta_Beacon : Eta Beacon := fun r => mkBeacon (bcn_Timestamp r).
Definition Beacon_Marshal (t : Beacon) : list byte :=
  le64 (bcn_Timestamp t).
Definition Beacon_Unmarshal : into Beacon :=
  chunk 8 (fun bs t => t <| bcn_Timestamp := i64_at bs 0 |>).
Definition Beacon_wf (t : Beacon) : Prop :=
  is_i64 (bcn_Timestamp t).
#[export, program] Instance Beacon_codec : GobCodec Beacon := {|
  gob_zero := mkBeacon 0;
  GMarshal := Beacon_Marshal; GUnmarshal := Beacon_Unmarshal; GWf := Beacon_wf |}.
Next Obligation.
  intros [v0] Hwf. unfold Beacon_wf in Hwf. cbn [bcn_Timestamp] in Hwf. destruct_and? Hwf.
  unfold Beacon_Marshal, Beacon_Unmarshal. cbn [bcn_Timestamp]. gob_message.
Qed.

Record BeaconReply := mkBeaconReply {
  bcr_Timestamp : Z }.
#[export] Instance eta_BeaconReply : Eta BeaconReply := fun r => mkBeaconReply (bcr_Timestamp r).
Definition BeaconReply_Marshal (t : BeaconReply) : list byte :=
  le64 (bcr_Timestamp t).
Definition BeaconReply_Unmarshal : into BeaconReply :=
  chunk 8 (fun bs t => t <| bcr_Timestamp := i64_at bs 0 |>).
Definition BeaconReply_wf (t : BeaconReply) : Prop :=
  is_i64 (bcr_Timestamp t).
#[export, program] Instance BeaconReply_codec : GobCodec BeaconReply := {|
  gob_zero := mkBeaconReply 0;
  GMarshal := BeaconReply_Marshal; GUnmarshal := BeaconReply_Unmarshal; GWf := BeaconReply_wf |}.
Next Obligation.
  intros [v0] Hwf. unfold BeaconReply_wf in Hwf. cbn [bcr_Timestamp] in Hwf. destruct_and? Hwf.
  unfold BeaconReply_Marshal, BeaconReply_Unmarshal. cbn [bcr_Timestamp]. gob_message.
Qed.

Record PingArgs := mkPingArgs {
  png_ActAsLeader : Z }.
#[export] Instance eta_PingArgs : Eta PingArgs := fun r => mkPingArgs (png_ActAsLeader r).
Definition PingArgs_Marshal (t : PingArgs) : list byte :=
  le8 (png_ActAsLeader t).
Definition PingArgs_Unmarshal : into PingArgs :=
  chunk 1 (fun bs t => t <| png_ActAsLeader := u8_at bs 0 |>).
Definition PingArgs_wf (t : PingArgs) : Prop :=
  is_u8 (png_ActAsLeader t).
#[export, program] Instance PingArgs_codec : GobCodec PingArgs := {|
  gob_zero := mkPingArgs 0;
  GMarshal := PingArgs_Marshal; GUnmarshal := PingArgs_Unmarshal; GWf := PingArgs_wf |}.
Next Obligation.
  intros [v0] Hwf. unfold PingArgs_wf in Hwf. cbn [png_ActAsLeader] in Hwf. destruct_and? Hwf.
  unfold PingArgs_Marshal, PingArgs_Unmarshal. cbn [png_ActAsLeader]. gob_message.
Qed.

Record BeTheLeaderReply := mkBeTheLeaderReply {
  btl_Leader : Z;
  btl_NextLeader : Z }.
#[export] Instance eta_BeTheLeaderReply : Eta BeTheLeaderReply := fun r => mkBeTheLeaderReply (btl_Leader r) (btl_NextLeader r).
Definition BeTheLeaderReply_Marshal (t : BeTheLeaderReply) : list byte :=
  (le32 (btl_Leader t) ++ le32 (btl_NextLeader t)).
Definition BeTheLeaderReply_Unmarshal : into BeTheLeaderReply :=
  chunk 8 (fun bs t => t <| btl_Leader := i32_at bs 0 |> <| btl_NextLeader := i32_at bs 4 |>).
Definition BeTheLeaderReply_wf (t : BeTheLeaderReply) : Prop :=
  is_i32 (btl_Leader t) /\ is_i32 (btl_NextLeader t).
#[export, program] Instance BeTheLeaderReply_codec : GobCodec BeTheLeaderReply := {|
  gob_zero := mkBeTheLeaderReply 0 0;
  GMarshal := BeTheLeaderReply_Marshal; GUnmarshal := BeTheLeaderReply_Unmarshal; GWf := BeTheLeaderReply_wf |}.
Next Obligation.
  intros [v0 v1] Hwf. unfold BeTheLeaderReply_wf in Hwf. cbn [btl_Leader btl_NextLeader] in Hwf. destruct_and? Hwf.
  unfold BeTheLeaderReply_Marshal, BeTheLeaderReply_Unmarshal. cbn [btl_Leader btl_NextLeader]. gob_message.
Qed.

(** [NewBeTheLeaderReply], [UpdateBeTheLeaderReply], [IsDefault] *)
Definition NewBeTheLeaderReply : BeTheLeaderReply := mkBeTheLeaderReply (-1) (-1).
Definition UpdateBeTheLeaderReply (r : BeTheLeaderReply) : BeTheLeaderReply :=
  let r := if btl_Leader r =? -2 then r <| btl_Leader := 0 |> else r in
  if btl_NextLeader r =? -2 then r <| btl_NextLeader := 0 |> else r.
Definition IsDefault (r : BeTheLeaderReply) : bool := (btl_Leader r =? -1) && (btl_NextLeader r =? -1).

(** * Constructors, sizes and caches *)

Definition PingArgs_BinarySize : Z * bool := (1, true).
Definition PingArgsCache : Type := Cache PingArgs.
Definition NewPingArgsCache : PingArgsCache := NewCache.
Definition PingArgsCache_Get (p : PingArgsCache) : PingArgs * PingArgsCache := Cache_Get (mkPingArgs 0) p.
Definition PingArgsCache_Put (p : PingArgsCache) (t : option PingArgs) : PingArgsCache := Cache_Put p t.

Definition BeTheLeaderReply_BinarySize : Z * bool := (8, true).
Definition BeTheLeaderReplyCache : Type := Cache BeTheLeaderReply.
Definition NewBeTheLeaderReplyCache : BeTheLeaderReplyCache := NewCache.
Definition BeTheLeaderReplyCache_Get (p : BeTheLeaderReplyCache) : BeTheLeaderReply * BeTheLeaderReplyCache := Cache_Get (mkBeTheLeaderReply 0 0) p.
Definition BeTheLeaderReplyCache_Put (p : BeTheLeaderReplyCache) (t : option BeTheLeaderReply) : BeTheLeaderReplyCache := Cache_Put p t.

Definition Propose_BinarySize : Z * bool := (0, false).
Definition ProposeCache : Type := Cache Propose.
Definition NewProposeCache : ProposeCache := NewCache.
Definition ProposeCache_Get (p : ProposeCache) : Propose * ProposeCache := Cache_Get (mkPropose 0 0 (mkCommand 0 0 []) 0) p.
Definition ProposeCache_Put (p : ProposeCache) (t : option Propose) : ProposeCache := Cache_Put p t.

Definition ProposeReplyTS_BinarySize : Z * bool := (0, false).
Definition ProposeReplyTSCache : Type := Cache ProposeReplyTS.
Definition NewProposeReplyTSCache : ProposeReplyTSCache := NewCache.
Definition ProposeReplyTSCache_Get (p : ProposeReplyTSCache) : ProposeReplyTS * ProposeReplyTSCache := Cache_Get (mkProposeReplyTS 0 0 [] 0) p.
Definition ProposeReplyTSCache_Put (p : ProposeReplyTSCache) (t : option ProposeReplyTS) : ProposeReplyTSCache := Cache_Put p t.

Definition Read_BinarySize : Z * bool := (0, false).
Definition ReadCache : Type := Cache Read.
Definition NewReadCache : ReadCache := NewCache.
Definition ReadCache_Get (p : ReadCache) : Read * ReadCache := Cache_Get (mkRead 0 0) p.
Definition ReadCache_Put (p : ReadCache) (t : option Read) : ReadCache := Cache_Put p t.

Definition ProposeAndRead_BinarySize : Z * bool := (0, false).
Definition ProposeAndReadCache : Type := Cache ProposeAndRead.
Definition NewProposeAndReadCache : ProposeAndReadCache := NewCache.
Definition ProposeAndReadCache_Get (p : ProposeAndReadCache) : ProposeAndRead * ProposeAndReadCache := Cache_Get (mkProposeAndRead 0 (mkCommand 0 0 []) 0) p.
Definition ProposeAndReadCache_Put (p : ProposeAndReadCache) (t : option ProposeAndRead) : ProposeAndReadCache := Cache_Put p t.

Definition BeaconReply_BinarySize : Z * bool := (8, true).
Definition BeaconReplyCache : Type := Cache BeaconReply.
Definition NewBeaconReplyCache : BeaconReplyCache := NewCache.
Definition BeaconReplyCache_Get (p : BeaconReplyCache) : BeaconReply * BeaconReplyCache := Cache_Get (mkBeaconReply 0) p.
Definition BeaconReplyCache_Put (p : BeaconReplyCache) (t : option BeaconReply) : BeaconReplyCache := Cache_Put p t.

Definition ProposeReply_BinarySize : Z * bool := (5, true).
Definition ProposeReplyCache : Type := Cache ProposeReply.
Definition NewProposeReplyCache : ProposeReplyCache := NewCache.
Definition ProposeReplyCache_Get (p : ProposeReplyCache) : ProposeReply * ProposeReplyCache := Cache_Get (mkProposeReply 0 0) p.
Definition ProposeReplyCache_Put (p : ProposeReplyCache) (t : option ProposeReply) : ProposeReplyCache := Cache_Put p t.

Definition ReadReply_BinarySize : Z * bool := (0, false).
Definition ReadReplyCache : Type := Cache ReadReply.
Definition NewReadReplyCache : ReadReplyCache := NewCache.
Definition ReadReplyCache_Get (p : ReadReplyCache) : ReadReply * ReadReplyCache := Cache_Get (mkReadReply 0 []) p.
Definition ReadReplyCache_Put (p : ReadReplyCache) (t : option ReadReply) : ReadReplyCache := Cache_Put p t.

Definition ProposeAndReadReply_BinarySize : Z * bool := (0, false).
Definition ProposeAndReadReplyCache : Type := Cache ProposeAndReadReply.
Definition NewProposeAndReadReplyCache : ProposeAndReadReplyCache := NewCache.
Definition ProposeAndReadReplyCache_Get (p : ProposeAndReadReplyCache) : ProposeAndReadReply * ProposeAndReadReplyCache := Cache_Get (mkProposeAndReadReply 0 0 []) p.
Definition ProposeAndReadReplyCache_Put (p : ProposeAndReadReplyCache) (t : option ProposeAndReadReply) : ProposeAndReadReplyCache := Cache_Put p t.

Definition Beacon_BinarySize : Z * bool := (8, true).
Definition BeaconCache : Type := Cache Beacon.
Definition NewBeaconCache : BeaconCache := NewCache.
Definition BeaconCache_Get (p : BeaconCache) : Beacon * BeaconCache := Cache_Get (mkBeacon 0) p.
Definition BeaconCache_Put (p : BeaconCache) (t : option Beacon) : BeaconCache := Cache_Put p t.
