(* ===== verification/Handlers.v ===== *)
(** What the handlers of the baselines share: how a handler ends, the proposal a client
    makes ([GPropose] of [src/replica/defs/defs.go]) and its constants. *)
From stdpp Require Import gmap list.
From S2P Require Import Prelude WireBase Wire State QuorumSets GobWire DefsWire.

(** [GPropose] of [src/replica/defs/defs.go]; a client's connection is its number *)
Record GPropose := mkGPropose {
  gp_CommandId : Z; gp_ClientId : Z; gp_Command : Command; gp_Timestamp : Z; gp_Reply : Z; gp_Proxy : bool }.
(** [defs.CHAN_BUFFER_SIZE], the capacity of the channels *)
Definition CHAN_BUFFER_SIZE : Z := 2000000.
Definition PTRUE : Z := 1.
Definition PFALSE : Z := 0.

(** how a handler ends *)
Inductive outcome (A : Type) := Ok (a : A) | Panic | Stuck.
Arguments Ok {A}. Arguments Panic {A}. Arguments Stuck {A}.

Definition obind {A B} (m : outcome A) (k : A -> outcome B) : outcome B :=
  match m with Ok a => k a | Panic => Panic | Stuck => Stuck end.
Notation "x <~ y ;; z" := (obind y (fun x => z)) (at level 20, y at level 99, z at level 200, only parsing).
Notation "' x <~ y ;; z" := (obind y (fun x => z)) (at level 20, x pattern, y at level 99, z at level 200,
  only parsing).

(** a pointer that is followed *)
Definition deref {A} (o : option A) : outcome A := match o with Some a => Ok a | None => Panic end.
(** a slice is indexed: out of range panics *)
Definition index {A} (l : list A) (i : Z) : outcome A :=
  if i <? 0 then Panic else deref (l !! Z.to_nat i).

Lemma obind_Ok {A B} (m : outcome A) (k : A -> outcome B) b : obind m k = Ok b -> exists a, m = Ok a /\ k a = Ok b.
Proof. destruct m as [a| |]; [|done|done]. by exists a. Qed.
Lemma deref_Ok {A} (o : option A) a : deref o = Ok a -> o = Some a.
Proof. destruct o; [by intros [= ->]|done]. Qed.

(** the steps of a handler that returned *)
Ltac ok_steps :=
  repeat match goal with
  | H : obind _ _ = Ok _ |- _ => apply obind_Ok in H as (? & ? & H); cbn beta iota in H
  | H : Ok _ = Ok _ |- _ => injection H as H; subst
  | H : deref ?o = Ok _ |- _ => destruct o eqn:?; cbn [deref] in H; [|discriminate H]
  | H : Panic = Ok _ |- _ => discriminate H
  | H : Stuck = Ok _ |- _ => discriminate H
  | H : (_, _) = (_, _) |- _ => injection H as ? ?; subst
  | p : (_ * _)%type |- _ => destruct p
  end.

(** a computation that was seen to return, without its value *)
Lemma returned {A} (o : option A) d : match o with Some _ => true | None => false end = true -> o = Some (default d o).
Proof. by destruct o. Qed.

(** * The sender of the baselines ([src/replica/sender.go]): a queue of messages with
    their destinations, and the goroutine that takes them out.

    [Alive] has an entry per replica.  A closure [free] is a value; running it is an
    output. *)

Inductive SendType := SEND_ALL | SEND_QUORUM | SEND_EXCEPT | SEND_SINGLE | SEND_CLIENT | SEND_ALL_EXCEPT.
Definition ARGS_NUM : Z := CHAN_BUFFER_SIZE.

Section sender.
Context {M F : Type}.

Record SendArg := mkSendArg {
  sa_msg : M; sa_rpc : Z; sa_quorum : Quorum; sa_sendType : SendType; sa_id : Z; sa_free : option F }.
Definition Sender : Type := list SendArg.

(** a send on the channel; it waits when the channel is full *)
Definition sender_send (s : Sender) (arg : SendArg) : outcome Sender :=
  if ARGS_NUM <=? Zlength s then Stuck else Ok (s ++ [arg]).

Definition SendToAllAndFree (s : Sender) (msg : M) (rpc : Z) (free : option F) : outcome Sender :=
  sender_send s (mkSendArg msg rpc ∅ SEND_ALL 0 free).
Definition SendToAllExecptAndFree (s : Sender) (except : Z) (msg : M) (rpc : Z) (free : option F) : outcome Sender :=
  sender_send s (mkSendArg msg rpc ∅ SEND_ALL_EXCEPT except free).
Definition SendToQuorumAndFree (s : Sender) (q : Quorum) (msg : M) (rpc : Z) (free : option F) : outcome Sender :=
  sender_send s (mkSendArg msg rpc q SEND_QUORUM 0 free).
Definition SendExceptAndFree (s : Sender) (q : Quorum) (msg : M) (rpc : Z) (free : option F) : outcome Sender :=
  sender_send s (mkSendArg msg rpc q SEND_EXCEPT 0 free).
Definition SendToClientAndFree (s : Sender) (cid : Z) (msg : M) (rpc : Z) (free : option F) : outcome Sender :=
  sender_send s (mkSendArg msg rpc ∅ SEND_CLIENT cid free).
Definition SendToAndFree (s : Sender) (id : Z) (msg : M) (rpc : Z) (free : option F) : outcome Sender :=
  sender_send s (mkSendArg msg rpc ∅ SEND_SINGLE id free).

Definition SendToAll (s : Sender) (msg : M) (rpc : Z) := SendToAllAndFree s msg rpc None.
Definition SendToAllExecpt (s : Sender) (except : Z) (msg : M) (rpc : Z) := SendToAllExecptAndFree s except msg rpc None.
Definition SendToQuorum (s : Sender) (q : Quorum) (msg : M) (rpc : Z) := SendToQuorumAndFree s q msg rpc None.
Definition SendExcept (s : Sender) (q : Quorum) (msg : M) (rpc : Z) := SendExceptAndFree s q msg rpc None.
Definition SendToClient (s : Sender) (cid : Z) (msg : M) (rpc : Z) := SendToClientAndFree s cid msg rpc None.
Definition SendTo (s : Sender) (id : Z) (msg : M) (rpc : Z) := SendToAndFree s id msg rpc None.

(** * What the goroutine does *)

Inductive sender_effect :=
| ToPeer (p : Z) (rpc : Z) (msg : M)
| ToClient (cid : Z) (rpc : Z) (msg : M)
| RunFree (f : F).

(** the peers that are alive and wanted *)
Definition alive_peers (N : Z) (Alive : list bool) (wanted : Z -> bool) : list Z :=
  filter (fun p => wanted p && default false (Alive !! Z.to_nat p) = true) (seqZ 0 N).
Definition sendToAll (N : Z) (Alive : list bool) (msg : M) (rpc : Z) : list sender_effect :=
  (fun p => ToPeer p rpc msg) <$> alive_peers N Alive (fun _ => true).
Definition sendToAllExcept (N : Z) (Alive : list bool) (except : Z) (msg : M) (rpc : Z) : list sender_effect :=
  (fun p => ToPeer p rpc msg) <$> alive_peers N Alive (fun p => negb (p =? except)).
Definition sendToQuorum (N : Z) (Alive : list bool) (q : Quorum) (msg : M) (rpc : Z) : list sender_effect :=
  (fun p => ToPeer p rpc msg) <$> alive_peers N Alive (fun p => Contains q p).
Definition sendExcept (N : Z) (Alive : list bool) (q : Quorum) (msg : M) (rpc : Z) : list sender_effect :=
  (fun p => ToPeer p rpc msg) <$> alive_peers N Alive (fun p => negb (Contains q p)).

Definition send_arg (N : Z) (Alive : list bool) (arg : SendArg) : list sender_effect :=
  match sa_sendType arg with
  | SEND_ALL => sendToAll N Alive (sa_msg arg) (sa_rpc arg)
  | SEND_QUORUM => sendToQuorum N Alive (sa_quorum arg) (sa_msg arg) (sa_rpc arg)
  | SEND_EXCEPT => sendExcept N Alive (sa_quorum arg) (sa_msg arg) (sa_rpc arg)
  | SEND_CLIENT => [ToClient (sa_id arg) (sa_rpc arg) (sa_msg arg)]
  | SEND_SINGLE => [ToPeer (sa_id arg) (sa_rpc arg) (sa_msg arg)]
  | SEND_ALL_EXCEPT => sendToAllExcept N Alive (sa_id arg) (sa_msg arg) (sa_rpc arg)
  end ++ match sa_free arg with Some f => [RunFree f] | None => [] end.

(** a turn of the goroutine that [NewSender] starts; [None]: it waits *)
Definition queue_turn (N : Z) (Alive : list bool) (s : Sender) : option (Sender * list sender_effect) :=
  match s with [] => None | arg :: s => Some (s, send_arg N Alive arg) end.

Lemma alive_peers_elem N Alive wanted p :
  p ∈ alive_peers N Alive wanted <-> 0 <= p < N /\ wanted p = true /\ Alive !! Z.to_nat p = Some true.
Proof.
  unfold alive_peers. rewrite list_elem_of_filter, elem_of_seqZ, andb_true_iff.
  destruct (Alive !! Z.to_nat p) as [[]|]; cbn; naive_solver lia.
Qed.

(** a message to all goes to the quorum and to the rest, once each *)
Lemma quorum_and_rest N Alive q msg rpc :
  sendToQuorum N Alive q msg rpc ++ sendExcept N Alive q msg rpc ≡ₚ sendToAll N Alive msg rpc.
Proof.
  unfold sendToQuorum, sendExcept, sendToAll, alive_peers. rewrite <- fmap_app. f_equiv.
  induction (seqZ 0 N) as [|p l IH]; [done|]. rewrite !filter_cons.
  destruct (Contains q p), (default false (Alive !! Z.to_nat p)); cbn [andb negb];
    rewrite ?decide_True, ?decide_False by done; [by constructor|exact IH| |exact IH].
  etrans; [symmetry; apply Permutation_middle|]. by constructor.
Qed.
End sender.
Arguments SendArg : clear implicits.
Arguments Sender : clear implicits.
