(* ===== verification/Paxos.v ===== *)
(** The Multi-Paxos baseline ([src/paxos/paxos.go]).

    A handler runs in the single goroutine of [run], so it is one step: it ends with
    a new state and what it sends ([Ok]), with a panic that ends the process
    ([Panic]), or it never returns ([Stuck]: a send on a full channel that only this
    goroutine drains, or a loop that does not end).  [nil] is [None]; a decoded list
    is never [nil].  [int32] arithmetic wraps.  [executeCommands] is a second
    goroutine; its passes over the log are steps too. *)
From stdpp Require Import gmap list.
From S2P Require Import Prelude WireBase Wire State QuorumSets GobWire DefsWire Handlers.

(** * Messages *)

(** [src/paxos/defs.go] *)
Record Prepare := mkPrepare { pp_LeaderId : Z; pp_Instance : Z; pp_Ballot : Z }.
Record PrepareReply := mkPrepareReply {
  pr_Instance : Z; pr_Ballot : Z; pr_VBallot : Z; pr_DefaultBallot : Z; pr_AcceptorId : Z;
  pr_Command : list Command }.
Record Accept := mkAccept { pa_LeaderId : Z; pa_Instance : Z; pa_Ballot : Z; pa_Command : list Command }.
Record AcceptReply := mkAcceptReply { par_Instance : Z; par_Ballot : Z }.
Record Commit := mkCommit { pc_LeaderId : Z; pc_Instance : Z; pc_Ballot : Z; pc_Command : list Command }.
Record CommitShort := mkCommitShort { pcs_LeaderId : Z; pcs_Instance : Z; pcs_Count : Z; pcs_Ballot : Z }.

Inductive paxos_msg :=
| PPrepare (m : Prepare) | PAccept (m : Accept) | PCommit (m : Commit) | PCommitShort (m : CommitShort)
| PPrepareReply (m : PrepareReply) | PAcceptReply (m : AcceptReply).

Inductive paxos_effect :=
| PSend (peer : Z) (m : paxos_msg)
| ReplyProposeTS (client : Z) (m : ProposeReplyTS)
| StoreWrite (b : list byte)
| StoreSync.

(** * State *)

Inductive InstanceStatus := PREPARING | PREPARED | ACCEPTED | COMMITTED.
#[export] Instance InstanceStatus_dec : EqDecision InstanceStatus.
Proof. solve_decision. Defined.
Definition status_code (s : InstanceStatus) : Z :=
  match s with PREPARING => 0 | PREPARED => 1 | ACCEPTED => 2 | COMMITTED => 3 end.

Record LeaderBookkeeping := mkLB {
  lb_clientProposals : option (list GPropose);
  lb_prepareOKs : Z;
  lb_acceptOKs : Z;
  lb_nacks : Z;
  lb_ballot : Z;
  lb_cmds : option (list Command);
  lb_lastTriedBallot : Z }.

Record PInstance := mkPInstance {
  in_cmds : option (list Command);
  in_bal : Z;
  in_vbal : Z;
  in_status : InstanceStatus;
  in_lb : option LeaderBookkeeping }.

#[export] Instance eta_LB : Eta LeaderBookkeeping := fun r =>
  mkLB (lb_clientProposals r) (lb_prepareOKs r) (lb_acceptOKs r) (lb_nacks r) (lb_ballot r)
    (lb_cmds r) (lb_lastTriedBallot r).
#[export] Instance eta_PInstance : Eta PInstance := fun r =>
  mkPInstance (in_cmds r) (in_bal r) (in_vbal r) (in_status r) (in_lb r).

(** the fields of [paxos.Replica] and of the embedded [replica.Replica] that the
    handlers use; [p_PeerWriters] holds the peers with a connection *)
Record PaxosReplica (TM : Treemap Value) := mkPaxosReplica {
  p_Id : Z; p_N : Z; p_F : Z;
  p_PeerWriters : list bool; p_Alive : list bool; p_PreferredPeerOrder : list Z;
  p_ProposeChan : list GPropose;
  p_Dreply : bool; p_Durable : bool;
  p_State : tm_carrier TM;
  p_instancesToRecover : list Z;
  p_IsLeader : bool;
  p_instanceSpace : gmap Z PInstance;
  p_crtInstance : Z;
  p_maxRecvBallot : Z;
  p_defaultBallot : list Z;
  p_smallestDefaultBallot : Z;
  p_executedUpTo : Z;
  p_totalRecNum : Z; p_totalSendNum : Z }.
Arguments mkPaxosReplica {TM}.
Arguments p_Id {TM}. Arguments p_N {TM}. Arguments p_F {TM}. Arguments p_PeerWriters {TM}.
Arguments p_Alive {TM}. Arguments p_PreferredPeerOrder {TM}. Arguments p_ProposeChan {TM}.
Arguments p_Dreply {TM}. Arguments p_Durable {TM}. Arguments p_State {TM}.
Arguments p_instancesToRecover {TM}. Arguments p_IsLeader {TM}. Arguments p_instanceSpace {TM}.
Arguments p_crtInstance {TM}. Arguments p_maxRecvBallot {TM}. Arguments p_defaultBallot {TM}.
Arguments p_smallestDefaultBallot {TM}. Arguments p_executedUpTo {TM}.
Arguments p_totalRecNum {TM}. Arguments p_totalSendNum {TM}.

#[export] Instance eta_PaxosReplica {TM} : Eta (PaxosReplica TM) := fun r =>
  mkPaxosReplica (p_Id r) (p_N r) (p_F r) (p_PeerWriters r) (p_Alive r) (p_PreferredPeerOrder r)
    (p_ProposeChan r) (p_Dreply r) (p_Durable r) (p_State r) (p_instancesToRecover r) (p_IsLeader r)
    (p_instanceSpace r) (p_crtInstance r) (p_maxRecvBallot r) (p_defaultBallot r)
    (p_smallestDefaultBallot r) (p_executedUpTo r) (p_totalRecNum r) (p_totalSendNum r).

Definition instanceSpace_len : Z := 15 * 1024 * 1024.
Section paxos.
Context {TM : Treemap Value}.
Implicit Types r : PaxosReplica TM.

(** [New] *)
Definition New_ (id N F : Z) (isLeader : bool) : PaxosReplica TM :=
  mkPaxosReplica id N F (replicate (Z.to_nat N) false) (replicate (Z.to_nat N) false)
    ((fun i => Z.rem (id + 1 + i) N) <$> seqZ 0 N) [] true false InitState [] isLeader ∅ (-1) (-1)
    (replicate (Z.to_nat N) (-1)) (-1) (-1) 0 0.

Definition WriteQuorumSize r : Z := p_F r + 1.
Definition ReadQuorumSize r : Z := p_N r - p_F r.

(** ** Memory *)

(** [r.instanceSpace\[i\]]: an index out of range panics *)
Definition instance_at r (i : Z) : outcome (option PInstance) :=
  if (0 <=? i) && (i <? instanceSpace_len) then Ok (p_instanceSpace r !! i) else Panic.
Definition set_instance r (i : Z) (inst : PInstance) : PaxosReplica TM :=
  r <| p_instanceSpace ::= <[i := inst]> |>.
Definition default_ballot r (i : Z) : outcome Z :=
  index (p_defaultBallot r) i.
Definition set_default_ballot r (i b : Z) : PaxosReplica TM :=
  r <| p_defaultBallot ::= <[Z.to_nat i := b]> |>.
Definition see_ballot r (b : Z) : PaxosReplica TM :=
  if p_maxRecvBallot r <? b then r <| p_maxRecvBallot := b |> else r.

(** ** Output *)

Definition recordInstanceMetadata r (inst : PInstance) : list paxos_effect :=
  if negb (p_Durable r) then []
  else [StoreWrite (PutUint32 (zeros 4) 0 (u32 (in_bal inst)) ++ [byte_of (status_code (in_status inst))])].
Definition recordCommands r (cmds : option (list Command)) : list paxos_effect :=
  if negb (p_Durable r) then []
  else match cmds with None => [] | Some cmds => (fun c => StoreWrite (Command_Marshal c)) <$> cmds end.
Definition sync r : list paxos_effect := if negb (p_Durable r) then [] else [StoreSync].

(** [SendMsg]: a peer without a connection loses the message *)
Definition SendMsg r (peer : Z) (m : paxos_msg) : outcome (list paxos_effect) :=
  up <~ index (p_PeerWriters r) peer ;; Ok (if up : bool then [PSend peer m] else []).

(** the loop of the three broadcasts; their [recover] ends it at a panic *)
Fixpoint bcast_to r (peers : list Z) (m : paxos_msg) : list paxos_effect :=
  match peers with
  | [] => []
  | q :: peers =>
      match index (p_Alive r) q with
      | Ok true =>
          match SendMsg r q m with
          | Ok fx => fx ++ bcast_to r peers m
          | _ => []
          end
      | Ok false => bcast_to r peers m
      | _ => []
      end
  end.
Definition bcast r (m : paxos_msg) : list paxos_effect :=
  bcast_to r (take (Z.to_nat (p_N r - 1)) (p_PreferredPeerOrder r)) m.

(** the bookkeeping of an instance, for the broadcasts that read it *)
Definition bookkeeping r (i : Z) : option LeaderBookkeeping :=
  match instance_at r i with Ok (Some inst) => in_lb inst | _ => None end.

Definition bcastPrepare r (i : Z) : list paxos_effect :=
  match bookkeeping r i with
  | None => []
  | Some lb => bcast r (PPrepare (mkPrepare (p_Id r) i (lb_lastTriedBallot lb)))
  end.
Definition bcastAccept r (i : Z) : list paxos_effect :=
  match bookkeeping r i with
  | None => []
  | Some lb => bcast r (PAccept (mkAccept (p_Id r) i (lb_lastTriedBallot lb) (default [] (lb_cmds lb))))
  end.
Definition bcastCommit r (i ballot : Z) (cmds : option (list Command)) : list paxos_effect :=
  bcast r (PCommitShort (mkCommitShort (p_Id r) i (i32 (Zlength (default [] cmds))) ballot)).

(** ** Ballots *)

Fixpoint ballot_loop (fuel : nat) (n d m N : Z) : outcome Z :=
  match fuel with
  | O => Stuck
  | S fuel => if (n <? d) || (n <? m) then ballot_loop fuel (i32 (n + i32 N)) d m N else Ok n
  end.
(** enough turns to pass the bound; where the addition may wrap, [n] repeats after
    2^32 turns, and the loop does not end if it has not ended by then *)
Definition ballot_fuel (n d m N : Z) : nat :=
  if (0 <? N) && (Z.max d m + N <? 2 ^ 31) then S (Z.to_nat (Z.max d m - n)) else Z.to_nat (2 ^ 32).

(** [makeBallot]: the ballot is chosen before [lb] is written *)
Definition makeBallot r (i : Z) : outcome (PaxosReplica TM) :=
  inst <~ instance_at r i ;; inst <~ deref inst ;;
  d <~ default_ballot r (p_Id r) ;;
  n <~ (if p_IsLeader r
        then ballot_loop (ballot_fuel (p_Id r) d (p_maxRecvBallot r) (p_N r)) (p_Id r) d (p_maxRecvBallot r) (p_N r)
        else Ok (p_Id r)) ;;
  lb <~ deref (in_lb inst) ;;
  Ok (set_instance r i (inst <| in_lb := Some (lb <| lb_lastTriedBallot := n |>) |>)).

(** ** Handlers *)

Definition handler : Type := outcome (PaxosReplica TM * list paxos_effect).

Definition BeTheLeader r : PaxosReplica TM :=
  r <| p_IsLeader := true |> <| p_totalRecNum := 0 |> <| p_totalSendNum := 0 |>.

(** a new instance at the replica's default ballot *)
Definition fresh_instance r (lb : option LeaderBookkeeping) : outcome PInstance :=
  d <~ default_ballot r (p_Id r) ;; Ok (mkPInstance None d d PREPARING lb).

Definition handlePropose r (propose : GPropose) : handler :=
  if negb (p_IsLeader r)
  then Ok (r, [ReplyProposeTS (gp_Reply propose) (mkProposeReplyTS PFALSE (-1) NIL 0)])
  else
    let proposals := propose :: p_ProposeChan r in
    let cmds := gp_Command <$> proposals in
    let r := r <| p_ProposeChan := [] |> <| p_crtInstance ::= fun i => i32 (i + 1) |> in
    let i := p_crtInstance r in
    _ <~ instance_at r i ;;
    inst <~ fresh_instance r (Some (mkLB (Some proposals) 0 0 0 (p_Id r) None (-1))) ;;
    r <~ makeBallot (set_instance r i inst) i ;;
    inst <~ deref (p_instanceSpace r !! i) ;; lb <~ deref (in_lb inst) ;;
    let r := set_default_ballot r (p_Id r) (lb_lastTriedBallot lb) in
    if negb (lb_lastTriedBallot lb =? p_smallestDefaultBallot r) then Ok (r, bcastPrepare r i)
    else
      let b := lb_lastTriedBallot lb in
      let r := set_instance r i
                 (mkPInstance (Some cmds) b b ACCEPTED (Some (lb <| lb_cmds := Some cmds |>))) in
      Ok (r, bcastAccept r i).

(** an instance first heard of moves [crtInstance] *)
Definition hear_instance r (i : Z) : PaxosReplica TM :=
  if p_crtInstance r <? i then r <| p_crtInstance := i |> else r.
Definition open_instance r (i : Z) : outcome (PaxosReplica TM * PInstance) :=
  inst <~ instance_at r i ;;
  match inst with
  | Some inst => Ok (r, inst)
  | None =>
      let r := hear_instance r i in
      inst <~ fresh_instance r None ;; Ok (set_instance r i inst, inst)
  end.

Definition handlePrepare r (prepare : Prepare) : handler :=
  let r := see_ballot r (pp_Ballot prepare) in
  let i := pp_Instance prepare in
  '(r, inst) <~ open_instance r i ;;
  if bool_decide (in_status inst = COMMITTED)
  then
    fx <~ SendMsg r (pp_LeaderId prepare)
           (PCommit (mkCommit (pp_LeaderId prepare) i (in_vbal inst) (default [] (in_cmds inst)))) ;;
    Ok (r, fx)
  else
    let '(r, inst) :=
      if in_bal inst <? pp_Ballot prepare then
        let inst := inst <| in_bal := pp_Ballot prepare |> <| in_status := PREPARED |> in
        let r := set_instance r i inst in
        (if p_crtInstance r =? i then set_default_ballot r (p_Id r) (pp_Ballot prepare) else r, inst)
      else (r, inst) in
    d <~ default_ballot r (p_Id r) ;;
    fx <~ SendMsg r (pp_LeaderId prepare)
           (PPrepareReply (mkPrepareReply i (in_bal inst) (in_vbal inst) d (p_Id r) (default [] (in_cmds inst)))) ;;
    Ok (r, fx).

Definition handleAccept r (accept : Accept) : handler :=
  let i := pa_Instance accept in
  inst <~ instance_at r i ;;
  let r := see_ballot r (pa_Ballot accept) in
  let accepted lb := mkPInstance (Some (pa_Command accept)) (pa_Ballot accept) (pa_Ballot accept) ACCEPTED lb in
  let stored inst := recordInstanceMetadata r inst ++ recordCommands r (Some (pa_Command accept)) ++ sync r in
  let '(r, inst, fx) :=
    match inst with
    | None => let inst := accepted None in (set_instance (hear_instance r i) i inst, inst, stored inst)
    | Some inst =>
        if (pa_Ballot accept <? in_bal inst) || bool_decide (in_status inst = COMMITTED) then (r, inst, [])
        else let inst := accepted (in_lb inst) in (set_instance r i inst, inst, stored inst)
    end in
  fx' <~ SendMsg r (pa_LeaderId accept) (PAcceptReply (mkAcceptReply i (in_bal inst))) ;;
  Ok (r, fx ++ fx').

(** the proposals of a command of someone else go back to the queue *)
Definition requeue r (proposals : list GPropose) : outcome (PaxosReplica TM) :=
  if CHAN_BUFFER_SIZE <? Zlength (p_ProposeChan r) + Zlength proposals then Stuck
  else Ok (r <| p_ProposeChan ::= fun l => l ++ proposals |>).

Definition handleCommit r (commit : Commit) : handler :=
  let i := pc_Instance commit in
  '(r, inst) <~ open_instance r i ;;
  if bool_decide (in_status inst = COMMITTED) || (pc_Ballot commit <? in_bal inst) then Ok (r, []) else
  '(r, lb) <~
    match in_lb inst with
    | Some lb =>
        match lb_clientProposals lb with
        | Some ps => r <~ requeue r ps ;; Ok (r, Some (lb <| lb_clientProposals := None |>))
        | None => Ok (r, Some lb)
        end
    | None => Ok (r, None)
    end ;;
  let inst := mkPInstance (Some (pc_Command commit)) (pc_Ballot commit) (pc_Ballot commit) COMMITTED lb in
  Ok (set_instance r i inst, recordInstanceMetadata r inst ++ recordCommands r (Some (pc_Command commit))).

Definition handleCommitShort r (commit : CommitShort) : handler :=
  let i := pcs_Instance commit in
  inst <~ instance_at r i ;;
  match inst with
  | None => Ok (r, [])
  | Some inst =>
      if bool_decide (in_status inst = COMMITTED) || (pcs_Ballot commit <? in_bal inst) then Ok (r, [])
      else
        let inst := inst <| in_status := COMMITTED |> <| in_bal := pcs_Ballot commit |> in
        Ok (set_instance r i inst, recordInstanceMetadata r inst ++ recordCommands r (in_cmds inst))
  end.

(** the smallest known default ballot, and how many are known *)
Definition known_ballots (l : list Z) : Z * Z :=
  foldl (fun acc e => if e =? -1 then acc else (acc.1 + 1, if e <? acc.2 then e else acc.2))
    (0, 2 ^ 31 - 1) l.

(** a reply for the ballot that is being tried, once it is counted: the value *)
Definition chosen_cmds (lb : LeaderBookkeeping) : list Command :=
  match lb_clientProposals lb with Some ps => gp_Command <$> ps | None => NOOP end.

Definition handlePrepareReply r (preply : PrepareReply) : handler :=
  let i := pr_Instance preply in
  inst <~ instance_at r i ;; inst <~ deref inst ;;
  let r := see_ballot r (pr_Ballot preply) in
  lb <~ deref (in_lb inst) ;;
  if pr_Ballot preply <? lb_lastTriedBallot lb then Ok (r, [])
  else if lb_lastTriedBallot lb <? pr_Ballot preply then
    let lb := lb <| lb_nacks ::= fun n => n + 1 |> in
    let r := set_instance r i (inst <| in_lb := Some lb |>) in
    if (Z.shiftr (p_N r) 1 <? lb_nacks lb + 1) && p_IsLeader r
    then r <~ makeBallot r i ;; Ok (r, bcastPrepare r i)
    else Ok (r, [])
  else
    let lb := if lb_ballot lb <? pr_VBallot preply
              then lb <| lb_ballot := pr_VBallot preply |> <| lb_cmds := Some (pr_Command preply) |> else lb in
    let lb := lb <| lb_prepareOKs ::= fun n => n + 1 |> in
    let r := set_instance r i (inst <| in_lb := Some lb |>) in
    d <~ default_ballot r (pr_AcceptorId preply) ;;
    let r := if d <? pr_DefaultBallot preply
             then set_default_ballot r (pr_AcceptorId preply) (pr_DefaultBallot preply) else r in
    let r := if (lb_prepareOKs lb <? ReadQuorumSize r) && negb (Nat.eqb (length (pr_Command preply)) 0)
             then r <| p_totalRecNum ::= fun n => n + Zlength (pr_Command preply) |> else r in
    if lb_prepareOKs lb + 1 <? ReadQuorumSize r then Ok (r, [])
    else
      let cmds := chosen_cmds lb in
      let inst := mkPInstance (Some cmds) (lb_lastTriedBallot lb) (in_vbal inst) ACCEPTED
                    (Some (lb <| lb_cmds := Some cmds |>)) in
      let r := set_instance r i inst in
      let (count, m) := known_ballots (p_defaultBallot r) in
      let r := if (ReadQuorumSize r - 1 <=? count) && (p_smallestDefaultBallot r <? m)
               then r <| p_smallestDefaultBallot := m |> else r in
      let fx := recordInstanceMetadata r inst ++ sync r ++ bcastAccept r i in
      Ok (r <| p_totalSendNum ::= fun n => n + Zlength cmds |>, fx).

(** the replies to the clients of the first [n] commands of a batch *)
Fixpoint reply_all (n : nat) (ps : list GPropose) : outcome (list paxos_effect) :=
  match n, ps with
  | O, _ => Ok []
  | S n, p :: ps =>
      fx <~ reply_all n ps ;;
      Ok (ReplyProposeTS (gp_Reply p) (mkProposeReplyTS PTRUE (gp_CommandId p) NIL (gp_Timestamp p)) :: fx)
  | S _, [] => Panic
  end.

Definition handleAcceptReply r (areply : AcceptReply) : handler :=
  let i := par_Instance areply in
  inst <~ instance_at r i ;; inst <~ deref inst ;;
  let r := see_ballot r (par_Ballot areply) in
  if bool_decide (in_status inst = COMMITTED) then Ok (r, []) else
  lb <~ deref (in_lb inst) ;;
  if par_Ballot areply <? lb_lastTriedBallot lb then Ok (r, [])
  else if lb_lastTriedBallot lb <? par_Ballot areply then
    let lb := lb <| lb_nacks ::= fun n => n + 1 |> in
    let r := set_instance r i (inst <| in_lb := Some lb |>) in
    if (WriteQuorumSize r <=? lb_nacks lb + 1) && p_IsLeader r
    then r <~ makeBallot r (par_Ballot areply) ;; Ok (r, bcastPrepare r i)
    else Ok (r, [])
  else
    let lb := lb <| lb_acceptOKs ::= fun n => n + 1 |> in
    if lb_acceptOKs lb + 1 <? WriteQuorumSize r then Ok (set_instance r i (inst <| in_lb := Some lb |>), [])
    else
      let inst := inst <| in_lb := Some lb |> <| in_status := COMMITTED |> in
      let r := set_instance r i inst in
      let fx := recordInstanceMetadata r inst ++ sync r ++ bcastCommit r i (in_bal inst) (in_cmds inst) in
      match lb_clientProposals lb with
      | Some ps =>
          if p_Dreply r then Ok (r, fx)
          else fx' <~ reply_all (length (default [] (in_cmds inst))) ps ;; Ok (r, fx ++ fx')
      | None => Ok (r, fx)
      end.

(** [recover], for an instance taken from [instancesToRecover] *)
Definition recover r (i : Z) : handler :=
  inst <~ instance_at r i ;;
  inst <~ match inst with Some inst => Ok inst | None => fresh_instance r None end ;;
  let inst := match in_lb inst with
              | Some _ => inst
              | None => inst <| in_lb := Some (mkLB None 0 0 0 (-1) None (-1)) |>
              end in
  r <~ makeBallot (set_instance r i inst) i ;;
  Ok (r, bcastPrepare r i).

(** one turn of [run]; the queued propositions are [p_ProposeChan] *)
Inductive run_event :=
| EvPropose
| EvMsg (m : paxos_msg)
| EvRecover.

Definition handle_event r (e : run_event) : handler :=
  match e with
  | EvPropose =>
      match p_ProposeChan r with
      | [] => Ok (r, [])
      | p :: ps => handlePropose (r <| p_ProposeChan := ps |>) p
      end
  | EvMsg (PPrepare m) => handlePrepare r m
  | EvMsg (PAccept m) => handleAccept r m
  | EvMsg (PCommit m) => handleCommit r m
  | EvMsg (PCommitShort m) => handleCommitShort r m
  | EvMsg (PPrepareReply m) => handlePrepareReply r m
  | EvMsg (PAcceptReply m) => handleAcceptReply r m
  | EvRecover =>
      match p_instancesToRecover r with
      | [] => Ok (r, [])
      | i :: rest => recover (r <| p_instancesToRecover := rest |>) i
      end
  end.

(** * Execution *)

(** the commands of one instance; [ps] are the proposals to answer *)
Fixpoint execute_cmds (answer : bool) (ps : list GPropose) (cmds : list Command) (st : tm_carrier TM) :
    outcome (tm_carrier TM * list paxos_effect) :=
  match cmds with
  | [] => Ok (st, [])
  | c :: cmds =>
      '(st, fx, ps) <~
        (if answer then
           '(val, st) <~ deref (Execute c st) ;;
           match ps with
           | [] => Panic
           | p :: ps =>
               Ok (st, [ReplyProposeTS (gp_Reply p)
                          (mkProposeReplyTS PTRUE (gp_CommandId p) val (gp_Timestamp p))], ps)
           end
         else if is_op c PUT then '(_, st) <~ deref (Execute c st) ;; Ok (st, [], ps)
         else Ok (st, [], ps)) ;;
      '(st, fx') <~ execute_cmds answer ps cmds st ;;
      Ok (st, fx ++ fx')
  end.

(** an instance that can be executed: its commands, and the proposals to answer *)
Definition executable r (i : Z) : option (list Command * option (list GPropose)) :=
  match p_instanceSpace r !! i with
  | Some inst =>
      match in_cmds inst with
      | Some cmds =>
          if bool_decide (in_status inst = COMMITTED)
          then Some (cmds, if p_Dreply r then in_lb inst ≫= lb_clientProposals else None) else None
      | None => None
      end
  | None => None
  end.

(** the locals of [executeCommands] *)
Record exec_locals := mkexec { ex_timeout : Z; ex_problemInstance : Z }.
Definition SLEEP_TIME_NS : Z := 1000000.
Definition COMMIT_GRACE_PERIOD : Z := 3000000000.

(** the instance [i] blocks the execution *)
Definition exec_blocked r (l : exec_locals) (i : Z) : PaxosReplica TM * exec_locals :=
  if i =? ex_problemInstance l then
    let timeout := ex_timeout l + SLEEP_TIME_NS in
    if COMMIT_GRACE_PERIOD <=? timeout
    then (r <| p_instancesToRecover ::= fun q => q ++ seqZ i (p_crtInstance r + 1 - i) |>, mkexec 0 0)
    else (r, mkexec timeout (ex_problemInstance l))
  else (r, mkexec 0 i).

(** one pass of the loop over the instances, from [i] *)
Fixpoint exec_pass (n : nat) r (l : exec_locals) (i : Z) :
    outcome (PaxosReplica TM * exec_locals * list paxos_effect) :=
  match n with
  | O => Ok (r, l, [])
  | S n =>
      match executable r i with
      | None => let (r, l) := exec_blocked r l i in Ok (r, l, [])
      | Some (cmds, ps) =>
          '(st, fx) <~ execute_cmds (match ps with Some _ => true | None => false end) (default [] ps) cmds (p_State r) ;;
          let r := r <| p_State := st |> <| p_executedUpTo ::= fun e => i32 (e + 1) |> in
          '(r, l, fx') <~ exec_pass n r l (i + 1) ;;
          Ok (r, l, fx ++ fx')
      end
  end.

Definition executeCommands r (l : exec_locals) : outcome (PaxosReplica TM * exec_locals * list paxos_effect) :=
  exec_pass (Z.to_nat (p_crtInstance r - p_executedUpTo r)) r l (p_executedUpTo r + 1).
End paxos.
