(* ===== verification/PaxosInv.v ===== *)
(** What the acceptor's handlers of the Multi-Paxos baseline keep: an instance's ballot
    does not go down and a committed instance does not change. *)
From stdpp Require Import gmap list relations.
From S2P Require Import Prelude WireBase Wire State QuorumSets Handlers Paxos.

Section inv.
Context {TM : Treemap Value}.
Implicit Types r : PaxosReplica TM.

(** the messages an acceptor handles *)
Definition acceptor_msg (m : paxos_msg) : Prop :=
  match m with PPrepare _ | PAccept _ | PCommit _ | PCommitShort _ => True | _ => False end.
Definition acceptor_step r r' (fx : list paxos_effect) : Prop :=
  exists m, acceptor_msg m /\ handle_event r (EvMsg m) = Ok (r', fx).
Definition acceptor_moves r r' : Prop := exists fx, acceptor_step r r' fx.

(** an instance later in a run *)
Definition inst_later (a b : PInstance) : Prop :=
  in_bal a <= in_bal b /\
  (in_status a = COMMITTED -> in_status b = COMMITTED /\ in_cmds b = in_cmds a /\ in_vbal b = in_vbal a /\ in_bal b = in_bal a).
Definition space_later r r' : Prop :=
  forall i a, p_instanceSpace r !! i = Some a -> exists b, p_instanceSpace r' !! i = Some b /\ inst_later a b.

Lemma inst_later_refl a : inst_later a a.
Proof. by split. Qed.
#[export] Instance inst_later_trans : Transitive inst_later.
Proof.
  intros a b c [H1 H2] [H3 H4]. split; [lia|]. intros Ha. destruct (H2 Ha) as (Hb & E1 & E2 & E3).
  destruct (H4 Hb) as (Hc & ? & ? & ?). split_and!; congruence.
Qed.
#[export] Instance space_later_refl : Reflexive space_later.
Proof. intros r i a Ha. exists a. split; [done|apply inst_later_refl]. Qed.
#[export] Instance space_later_trans : Transitive space_later.
Proof.
  intros r1 r2 r3 H1 H2 i a Ha. destruct (H1 i a Ha) as (b & Hb & Hab).
  destruct (H2 i b Hb) as (c & Hc & Hbc). exists c. split; [done|]. by etrans.
Qed.

(** ** Frames *)

Lemma space_see r b : p_instanceSpace (see_ballot r b) = p_instanceSpace r.
Proof. unfold see_ballot. by destruct (_ <? _). Qed.
Lemma space_hear r i : p_instanceSpace (hear_instance r i) = p_instanceSpace r.
Proof. unfold hear_instance. by destruct (_ <? _). Qed.
Lemma space_set r i inst : p_instanceSpace (set_instance r i inst) = <[i := inst]> (p_instanceSpace r).
Proof. done. Qed.
Lemma space_default r i b : p_instanceSpace (set_default_ballot r i b) = p_instanceSpace r.
Proof. done. Qed.
Lemma space_requeue r ps r' : requeue r ps = Ok r' -> p_instanceSpace r' = p_instanceSpace r.
Proof. unfold requeue. destruct (_ <? _); [done|]. by intros [= <-]. Qed.

Lemma instance_at_Ok r i o : instance_at r i = Ok o -> o = p_instanceSpace r !! i.
Proof. unfold instance_at. destruct (_ && _); [|done]. by intros [= <-]. Qed.

Lemma SendMsg_elem r peer m fx p m' : SendMsg r peer m = Ok fx -> PSend p m' ∈ fx -> p = peer /\ m' = m.
Proof.
  unfold SendMsg. intros H. apply obind_Ok in H as (up & _ & H). injection H as <-.
  destruct up; [|by intros ?%elem_of_nil]. by intros [= -> ->]%list_elem_of_singleton.
Qed.

(** an instance is replaced by a later one *)
Lemma space_later_set r r' i inst :
  p_instanceSpace r' = <[i := inst]> (p_instanceSpace r) ->
  (forall a, p_instanceSpace r !! i = Some a -> inst_later a inst) -> space_later r r'.
Proof.
  intros E H j a Ha. rewrite E. destruct (decide (j = i)) as [->|Hne].
  - rewrite lookup_insert_eq. exists inst. split; [done|]. by apply H.
  - rewrite lookup_insert_ne by done. exists a. split; [done|apply inst_later_refl].
Qed.
Lemma space_later_same r r' : p_instanceSpace r' = p_instanceSpace r -> space_later r r'.
Proof. intros E j a Ha. rewrite E. exists a. split; [done|apply inst_later_refl]. Qed.

Lemma open_instance_spec r i r1 inst : open_instance r i = Ok (r1, inst) ->
  p_instanceSpace r1 !! i = Some inst /\ space_later r r1.
Proof.
  unfold open_instance. intros H. apply obind_Ok in H as (o & Ho & H). apply instance_at_Ok in Ho as ->.
  destruct (p_instanceSpace r !! i) as [a|] eqn:E; ok_steps; [done|].
  rewrite space_set, space_hear, lookup_insert_eq. split; [done|].
  eapply space_later_set; [by rewrite space_set, space_hear|]. intros a Ha. congruence.
Qed.

(** ** The handlers *)

(** what a prepare or an accept is answered *)
Definition promises r' (fx : list paxos_effect) : Prop :=
  (forall peer p, PSend peer (PPrepareReply p) ∈ fx ->
     exists inst, p_instanceSpace r' !! pr_Instance p = Some inst /\ in_bal inst = pr_Ballot p /\
       in_vbal inst = pr_VBallot p /\ default [] (in_cmds inst) = pr_Command p) /\
  (forall peer a, PSend peer (PAcceptReply a) ∈ fx ->
     exists inst, p_instanceSpace r' !! par_Instance a = Some inst /\ in_bal inst = par_Ballot a).

Lemma promises_none r fx : (forall peer m, PSend peer m ∈ fx -> exists c, m = PCommit c) -> promises r fx.
Proof. intros H. split; intros peer m Hm; by destruct (H _ _ Hm) as [? [=]]. Qed.

Lemma handlePrepare_acceptor r m r' fx : handlePrepare r m = Ok (r', fx) ->
  space_later r r' /\ promises r' fx.
Proof.
  unfold handlePrepare. intros H. apply obind_Ok in H as ([r1 inst] & H1 & H).
  apply open_instance_spec in H1 as [Hi H1].
  assert (H1' : space_later r r1) by (etrans; [|exact H1]; apply space_later_same, space_see). clear H1.
  case_bool_decide as Hc.
  { apply obind_Ok in H as (fx0 & Hs & [= <- <-]). split; [done|]. apply promises_none.
    intros p m' Hin. destruct (SendMsg_elem _ _ _ _ _ _ Hs Hin) as [_ ->]. eauto. }
  set (upd := if _ <? _ then _ else _) in H.
  assert (Hu : p_instanceSpace upd.1 !! pp_Instance m = Some upd.2 /\ space_later r1 upd.1).
  { unfold upd. destruct (Z.ltb_spec (in_bal inst) (pp_Ballot m)) as [Hlt|Hge]; [|done]. cbn [fst snd].
    match goal with |- p_instanceSpace ?x !! _ = Some ?y /\ _ =>
      assert (E : p_instanceSpace x = <[pp_Instance m := y]> (p_instanceSpace r1))
        by (destruct (p_crtInstance _ =? _); by rewrite ?space_default, space_set) end.
    split; [by rewrite E, lookup_insert_eq|]. eapply space_later_set; [exact E|].
    intros a Ha. assert (a = inst) as -> by congruence. split; [rsimpl; lia|done]. }
  destruct upd as [r2 inst2]. destruct Hu as [Hi2 H2]. cbn [fst snd] in Hi2, H2.
  apply obind_Ok in H as (d & _ & H). apply obind_Ok in H as (fx0 & Hs & [= <- <-]).
  split; [by etrans|]. split; intros p x Hin; destruct (SendMsg_elem _ _ _ _ _ _ Hs Hin) as [_ [=]]. subst x.
  exists inst2. done.
Qed.

(** where an accept is taken: nothing was promised or committed above it *)
Definition accepts r (m : Accept) : Prop :=
  match p_instanceSpace r !! pa_Instance m with
  | None => True
  | Some inst => in_bal inst <= pa_Ballot m /\ in_status inst <> COMMITTED
  end.
#[export] Instance accepts_dec r m : Decision (accepts r m).
Proof. unfold accepts. destruct (_ !! _); solve_decision. Defined.

Lemma handleAccept_acceptor r m r' fx : handleAccept r m = Ok (r', fx) ->
  promises r' fx /\
  (accepts r m -> exists lb, p_instanceSpace r' =
     <[pa_Instance m := mkPInstance (Some (pa_Command m)) (pa_Ballot m) (pa_Ballot m) ACCEPTED lb]> (p_instanceSpace r)) /\
  (~ accepts r m -> p_instanceSpace r' = p_instanceSpace r).
Proof.
  unfold handleAccept, accepts. intros H. apply obind_Ok in H as (o & Ho & H). apply instance_at_Ok in Ho as ->.
  cbv zeta in H. lazymatch type of H with match ?t with _ => _ end = _ => set (upd := t) in H end.
  assert (Hu : (forall p x, PSend p x ∉ upd.2) /\ p_instanceSpace upd.1.1 !! pa_Instance m = Some upd.1.2 /\
    match p_instanceSpace r !! pa_Instance m with
    | None => p_instanceSpace upd.1.1 = <[pa_Instance m := upd.1.2]> (p_instanceSpace r) /\
              exists lb, upd.1.2 = mkPInstance (Some (pa_Command m)) (pa_Ballot m) (pa_Ballot m) ACCEPTED lb
    | Some inst =>
        if (pa_Ballot m <? in_bal inst) || bool_decide (in_status inst = COMMITTED)
        then p_instanceSpace upd.1.1 = p_instanceSpace r
        else p_instanceSpace upd.1.1 = <[pa_Instance m := upd.1.2]> (p_instanceSpace r) /\
             exists lb, upd.1.2 = mkPInstance (Some (pa_Command m)) (pa_Ballot m) (pa_Ballot m) ACCEPTED lb
    end).
  { assert (Hst : forall r0 inst p x, PSend p x ∉ recordInstanceMetadata r0 inst ++
        recordCommands r0 (Some (pa_Command m)) ++ sync r0).
    { intros r0 inst p x. unfold recordInstanceMetadata, recordCommands, sync. destruct (negb _).
      - by intros ?%elem_of_nil.
      - rewrite !elem_of_app, !list_elem_of_singleton. intros [[=]|[Hin|[=]]].
        by apply list_elem_of_fmap in Hin as (? & [=] & _). }
    unfold upd. destruct (p_instanceSpace r !! pa_Instance m) as [inst|] eqn:E.
    - destruct (_ || _); cbn [fst snd].
      + split_and!; [by intros ?? ?%elem_of_nil|by rewrite space_see|by rewrite space_see].
      + split_and!; [intros; apply Hst|by rewrite space_set, lookup_insert_eq|by rewrite space_set, space_see|eauto].
    - cbn [fst snd]. split_and!; [intros; apply Hst|by rewrite space_set, lookup_insert_eq| |eauto].
      by rewrite space_set, space_hear, space_see. }
  destruct upd as [[r1 inst1] fx1]. destruct Hu as (Hf & Hi & Hu). cbn [fst snd] in Hf, Hi, Hu.
  apply obind_Ok in H as (fx2 & Hs & [= <- <-]). split.
  { split; intros p x [Hin|Hin]%elem_of_app; try (by destruct (Hf _ _ Hin));
      destruct (SendMsg_elem _ _ _ _ _ _ Hs Hin) as [_ [=]]; subst x. by exists inst1. }
  destruct (p_instanceSpace r !! pa_Instance m) as [inst|] eqn:E.
  - destruct (Z.ltb_spec (pa_Ballot m) (in_bal inst)) as [Hlt|Hge]; cbn [orb] in Hu.
    { split; [intros [? _]; lia|done]. }
    case_bool_decide as Hc; [split; [by intros [_ []]|done]|].
    split; [|intros []; split; [lia|done]]. intros _. destruct Hu as (-> & lb & ->). by exists lb.
  - split; [|by intros []]. intros _. destruct Hu as (-> & lb & ->). by exists lb.
Qed.

Lemma handleAccept_later r m r' fx : handleAccept r m = Ok (r', fx) -> space_later r r'.
Proof.
  intros H. destruct (handleAccept_acceptor _ _ _ _ H) as (_ & H1 & H2).
  destruct (decide (accepts r m)) as [Ha|Hn]; [|by apply space_later_same, H2].
  destruct (H1 Ha) as (lb & E). eapply space_later_set; [exact E|]. unfold accepts in Ha. intros a Ea.
  rewrite Ea in Ha. split; [cbn; lia|]. by intros ?%(proj2 Ha).
Qed.

Lemma handleCommit_later r m r' fx : handleCommit r m = Ok (r', fx) ->
  space_later r r' /\ forall p x, PSend p x ∉ fx.
Proof.
  unfold handleCommit. intros H. apply obind_Ok in H as ([r1 inst] & H1 & H).
  apply open_instance_spec in H1 as [Hi H1].
  case_bool_decide as Hc; cbn [orb] in H; [injection H as <- <-; split; [done|by intros ?? ?%elem_of_nil]|].
  destruct (Z.ltb_spec (pc_Ballot m) (in_bal inst)) as [Hlt|Hge];
    [injection H as <- <-; split; [done|by intros ?? ?%elem_of_nil]|].
  apply obind_Ok in H as ([r2 lb] & H2 & [= <- <-]).
  assert (E2 : p_instanceSpace r2 = p_instanceSpace r1).
  { destruct (in_lb inst) as [lb0|]; [|by injection H2 as <- <-].
    destruct (lb_clientProposals lb0); [|by injection H2 as <- <-].
    apply obind_Ok in H2 as (r3 & H3 & [= <- <-]). by apply space_requeue in H3. }
  split.
  - etrans; [exact H1|]. eapply space_later_set; [by rewrite space_set, E2|].
    intros a Ha. assert (a = inst) as -> by congruence. by split.
  - intros p x. unfold recordInstanceMetadata, recordCommands. destruct (negb _); [by intros ?%elem_of_nil|].
    rewrite elem_of_app, list_elem_of_singleton. intros [[=]|Hin]. by apply list_elem_of_fmap in Hin as (? & [=] & _).
Qed.

Lemma handleCommitShort_later r m r' fx : handleCommitShort r m = Ok (r', fx) ->
  space_later r r' /\ forall p x, PSend p x ∉ fx.
Proof.
  unfold handleCommitShort. intros H. apply obind_Ok in H as (o & Ho & H). apply instance_at_Ok in Ho as ->.
  destruct (p_instanceSpace r !! pcs_Instance m) as [inst|] eqn:E;
    [|injection H as <- <-; split; [done|by intros ?? ?%elem_of_nil]].
  case_bool_decide as Hc; cbn [orb] in H; [injection H as <- <-; split; [done|by intros ?? ?%elem_of_nil]|].
  destruct (Z.ltb_spec (pcs_Ballot m) (in_bal inst)) as [Hlt|Hge];
    [injection H as <- <-; split; [done|by intros ?? ?%elem_of_nil]|].
  injection H as <- <-. split.
  - eapply space_later_set; [done|]. intros a Ha. assert (a = inst) as -> by congruence. by split.
  - intros p x. unfold recordInstanceMetadata, recordCommands. destruct (negb _); [by intros ?%elem_of_nil|].
    rewrite elem_of_app, list_elem_of_singleton. intros [[=]|Hin].
    destruct (in_cmds _); [|by apply elem_of_nil in Hin]. by apply list_elem_of_fmap in Hin as (? & [=] & _).
Qed.

Lemma acceptor_step_later r r' fx : acceptor_step r r' fx -> space_later r r' /\ promises r' fx.
Proof.
  intros ([m|m|m|m|m|m] & Hm & H); cbn [handle_event] in H; try done.
  - by apply (handlePrepare_acceptor r m).
  - split; [by eapply handleAccept_later|]. by apply (handleAccept_acceptor r m).
  - destruct (handleCommit_later _ _ _ _ H) as [? Hfx]. split; [done|]. apply promises_none.
    intros p x Hin. by destruct (Hfx p x).
  - destruct (handleCommitShort_later _ _ _ _ H) as [? Hfx]. split; [done|]. apply promises_none.
    intros p x Hin. by destruct (Hfx p x).
Qed.

Lemma acceptor_run_later r r' : rtc acceptor_moves r r' -> space_later r r'.
Proof.
  induction 1 as [r|r1 r2 r3 [fx H] _ IH]; [done|]. etrans; [|exact IH]. by apply (acceptor_step_later _ _ fx).
Qed.
End inv.
