(* ===== verification/PaxosNet.v ===== *)
(** Replicas of the Multi-Paxos baseline and the messages between them, as an
    executable system: a message is handled once, in any order ([replicaListener]
    hands each one to a goroutine of its own), or never. *)
From stdpp Require Import gmap list.
From S2P Require Import Prelude WireBase Wire State QuorumSets GobWire DefsWire Handlers Paxos PaxosInv.

Section net.
Context {TM : Treemap Value}.

Record net := mkNet { n_replicas : list (PaxosReplica TM); n_soup : list (Z * paxos_msg) }.

Inductive action :=
| ADeliver (k : nat)                 (* the [k]-th message that is under way *)
| APropose (i : nat) (p : GPropose)  (* a client's proposition reaches replica [i] *)
| ALead (i : nat).                   (* [BeTheLeader] *)

Definition sends (fx : list paxos_effect) : list (Z * paxos_msg) :=
  omap (fun e => match e with PSend p m => Some (p, m) | _ => None end) fx.

(** a turn of replica [i]'s [run]; [None] when there is none, or it does not return *)
Definition net_event (n : net) (i : nat) (e : run_event) : option net :=
  r ← n_replicas n !! i;
  match handle_event r e with
  | Ok (r', fx) => Some (mkNet (<[i := r']> (n_replicas n)) (n_soup n ++ sends fx))
  | _ => None
  end.

Definition net_step (n : net) (a : action) : option net :=
  match a with
  | ADeliver k =>
      '(p, m) ← n_soup n !! k;
      net_event (mkNet (n_replicas n) (delete k (n_soup n))) (Z.to_nat p) (EvMsg m)
  | APropose i p =>
      r ← n_replicas n !! i;
      net_event (mkNet (<[i := r <| p_ProposeChan ::= fun q => q ++ [p] |>]> (n_replicas n)) (n_soup n)) i EvPropose
  | ALead i => r ← n_replicas n !! i; Some (mkNet (<[i := BeTheLeader r]> (n_replicas n)) (n_soup n))
  end.
Fixpoint net_run (n : net) (l : list action) : option net :=
  match l with [] => Some n | a :: l => n ← net_step n a; net_run n l end.

(** [N] replicas, all connected *)
Definition net_init (N F : Z) (leader : Z) : net :=
  mkNet ((fun id => (New_ id N F (id =? leader)) <| p_PeerWriters := replicate (Z.to_nat N) true |>
                       <| p_Alive := replicate (Z.to_nat N) true |>) <$> seqZ 0 N) [].

(** what replica [i] has committed for an instance *)
Definition committed (n : net) (i : nat) (inst : Z) : option (option (list Command)) :=
  r ← n_replicas n !! i; x ← p_instanceSpace r !! inst;
  if decide (in_status x = COMMITTED) then Some (in_cmds x) else None.
End net.
Arguments net : clear implicits.

(** * Where the commands of the Multi-Paxos baseline come from: every handler keeps, for
    any set of commands that holds the no-op, that a replica's instances, its queue of
    propositions and what it sends only hold commands of the set. *)

(** ** Outcomes that satisfy a predicate, if there is one *)

Definition Okay {A} (Q : A -> Prop) (m : outcome A) : Prop := forall a, m = Handlers.Ok a -> Q a.

Lemma Okay_ret {A} (Q : A -> Prop) a : Q a -> Okay Q (Handlers.Ok a).
Proof. by intros H a' [= <-]. Qed.
Lemma Okay_bind {A B} (Q' : A -> Prop) (Q : B -> Prop) m k :
  Okay Q' m -> (forall a, Q' a -> Okay Q (k a)) -> Okay Q (obind m k).
Proof. intros Hm Hk b Hb. apply obind_Ok in Hb as (a & Ha & Hb). by apply (Hk a (Hm a Ha)). Qed.
Lemma Okay_skip {A B} (Q : B -> Prop) (m : outcome A) k :
  (forall a, m = Handlers.Ok a -> Okay Q (k a)) -> Okay Q (obind m k).
Proof. intros Hk b Hb. apply obind_Ok in Hb as (a & Ha & Hb). by apply (Hk a Ha). Qed.
Lemma Okay_deref {A} (Q : A -> Prop) o : (forall a, o = Some a -> Q a) -> Okay Q (deref o).
Proof. intros H a Ha. destruct o; [|done]. injection Ha as <-. by apply H. Qed.

Section valid.
Context {TM : Treemap Value} (P : Command -> Prop) (P_noop : Forall P NOOP).
Implicit Types r : PaxosReplica TM.

Definition cmds_ok (o : option (list Command)) : Prop := forall l, o = Some l -> Forall P l.
Definition proposals_ok (ps : list GPropose) : Prop := Forall (fun p => P (gp_Command p)) ps.
Definition lb_ok (lb : LeaderBookkeeping) : Prop :=
  cmds_ok (lb_cmds lb) /\ forall ps, lb_clientProposals lb = Some ps -> proposals_ok ps.
Definition inst_ok (x : PInstance) : Prop := cmds_ok (in_cmds x) /\ forall lb, in_lb x = Some lb -> lb_ok lb.
Definition replica_ok r : Prop :=
  (forall i x, p_instanceSpace r !! i = Some x -> inst_ok x) /\ proposals_ok (p_ProposeChan r).
Definition msg_ok (m : paxos_msg) : Prop :=
  match m with
  | PAccept m => Forall P (pa_Command m) | PCommit m => Forall P (pc_Command m)
  | PPrepareReply m => Forall P (pr_Command m) | _ => True
  end.
Definition fx_ok (fx : list paxos_effect) : Prop := forall p m, PSend p m ∈ fx -> msg_ok m.
Definition step_ok (res : PaxosReplica TM * list paxos_effect) : Prop := replica_ok res.1 /\ fx_ok res.2.

Lemma cmds_ok_none : cmds_ok None. Proof. done. Qed.
Lemma cmds_ok_some l : Forall P l -> cmds_ok (Some l). Proof. by intros H ? [= <-]. Qed.
Lemma cmds_ok_default o : cmds_ok o -> Forall P (default [] o).
Proof. destruct o; cbn; [auto|constructor]. Qed.
Lemma proposals_cmds ps : proposals_ok ps -> Forall P (gp_Command <$> ps).
Proof. intros H. by apply Forall_fmap. Qed.

Lemma fx_nil : fx_ok []. Proof. by intros p m ?%elem_of_nil. Qed.
Lemma fx_app a b : fx_ok a -> fx_ok b -> fx_ok (a ++ b).
Proof. intros Ha Hb p m [H|H]%elem_of_app; eauto. Qed.
Lemma fx_meta r x : fx_ok (recordInstanceMetadata r x).
Proof. unfold recordInstanceMetadata. destruct (negb _); [apply fx_nil|]. by intros p m H%list_elem_of_singleton. Qed.
Lemma fx_cmds r c : fx_ok (recordCommands r c).
Proof.
  unfold recordCommands. destruct (negb _), c; try apply fx_nil. intros p m H.
  by apply list_elem_of_fmap in H as (? & [=] & _).
Qed.
Lemma fx_sync r : fx_ok (sync r).
Proof. unfold sync. destruct (negb _); [apply fx_nil|]. by intros p m H%list_elem_of_singleton. Qed.
Lemma fx_send r peer m : msg_ok m -> Okay fx_ok (SendMsg r peer m).
Proof. intros Hm fx Hfx p m' Hin. by destruct (SendMsg_elem _ _ _ _ _ _ Hfx Hin) as [_ ->]. Qed.
Lemma fx_bcast r m : msg_ok m -> fx_ok (bcast r m).
Proof.
  intros Hm. unfold bcast. generalize (take (Z.to_nat (p_N r - 1)) (p_PreferredPeerOrder r)). intros l.
  induction l as [|q l IH]; cbn [bcast_to]; [apply fx_nil|].
  destruct (index _ q) as [[]| |]; [|done|apply fx_nil|apply fx_nil].
  destruct (SendMsg r q m) as [fx| |] eqn:E; [|apply fx_nil|apply fx_nil]. apply fx_app; [|done].
  by apply (fx_send r q m).
Qed.
Lemma fx_replies l : (forall e, e ∈ l -> exists c m, e = ReplyProposeTS c m) -> fx_ok l.
Proof. intros H p m Hin. by destruct (H _ Hin) as (? & ? & [=]). Qed.

(** ** Updates *)

Lemma ok_same r r' : p_instanceSpace r' = p_instanceSpace r -> p_ProposeChan r' = p_ProposeChan r ->
  replica_ok r -> replica_ok r'.
Proof. unfold replica_ok. by intros -> ->. Qed.
Lemma ok_see r b : replica_ok r -> replica_ok (see_ballot r b).
Proof. unfold see_ballot. by destruct (_ <? _). Qed.
Lemma ok_hear r i : replica_ok r -> replica_ok (hear_instance r i).
Proof. unfold hear_instance. by destruct (_ <? _). Qed.
Lemma ok_default r i b : replica_ok r -> replica_ok (set_default_ballot r i b).
Proof. done. Qed.
Lemma ok_set r i x : replica_ok r -> inst_ok x -> replica_ok (set_instance r i x).
Proof.
  intros [H1 H2] Hx. split; [|exact H2]. intros j y. rewrite space_set.
  destruct (decide (i = j)) as [->|Hne]; [rewrite lookup_insert_eq; by intros [= <-]|].
  rewrite lookup_insert_ne by done. apply H1.
Qed.
Lemma ok_at r i : replica_ok r -> Okay (fun o => forall x, o = Some x -> inst_ok x) (instance_at r i).
Proof. intros [H _] o Ho x ->. apply instance_at_Ok in Ho. by eapply H. Qed.
Lemma ok_fresh r lb : (forall l, lb = Some l -> lb_ok l) -> Okay inst_ok (fresh_instance r lb).
Proof. intros H. apply Okay_skip. intros d _. apply Okay_ret. by split. Qed.
Lemma ok_open r i : replica_ok r -> Okay (fun p => replica_ok p.1 /\ inst_ok p.2) (open_instance r i).
Proof.
  intros Hr. eapply Okay_bind; [by apply ok_at|]. intros [x|] Hx; [apply Okay_ret; auto|].
  eapply Okay_bind; [by apply ok_fresh|]. intros y Hy. apply Okay_ret. split; [|done].
  apply ok_set; [|done]. by apply ok_hear.
Qed.
Lemma lb_ok_tried lb n : lb_ok lb -> lb_ok (lb <| lb_lastTriedBallot := n |>).
Proof. by intros [? ?]. Qed.
Lemma ok_makeBallot r i : replica_ok r -> Okay replica_ok (makeBallot r i).
Proof.
  intros Hr. eapply Okay_bind; [by apply ok_at|]. intros o Ho.
  eapply (Okay_bind inst_ok); [by apply Okay_deref, Ho|]. intros x Hx. apply Okay_skip. intros d _. apply Okay_skip. intros n _.
  eapply (Okay_bind lb_ok); [apply Okay_deref, Hx|]. intros lb Hlb. apply Okay_ret. apply ok_set; [done|].
  split; [apply Hx|]. by intros ? [= <-].
Qed.

Lemma fx_bcastPrepare r i : fx_ok (bcastPrepare r i).
Proof. unfold bcastPrepare. destruct (bookkeeping r i); [by apply fx_bcast|apply fx_nil]. Qed.
Lemma fx_bcastAccept r i : replica_ok r -> fx_ok (bcastAccept r i).
Proof.
  intros Hr. unfold bcastAccept, bookkeeping. destruct (instance_at r i) as [[x|]| |] eqn:E; try apply fx_nil.
  pose proof (ok_at r i Hr _ E x eq_refl) as [_ Hlb]. destruct (in_lb x) as [lb|]; [|apply fx_nil].
  apply fx_bcast. by apply cmds_ok_default, Hlb.
Qed.
Lemma fx_bcastCommit r i b c : fx_ok (bcastCommit r i b c).
Proof. by apply fx_bcast. Qed.

Lemma reply_all_ok n : forall ps, Okay fx_ok (reply_all n ps).
Proof.
  induction n as [|n IH]; intros ps; [by apply Okay_ret, fx_nil|]. destruct ps as [|p ps]; [done|].
  cbn [reply_all]. eapply Okay_bind; [apply IH|]. intros fx Hfx. apply Okay_ret.
  apply (fx_app [_]); [|done]. by intros q m H%list_elem_of_singleton.
Qed.

(** ** The handlers *)

Lemma handlePropose_ok r p : replica_ok r -> P (gp_Command p) -> Okay step_ok (handlePropose r p).
Proof.
  intros Hr Hp. unfold handlePropose. destruct (negb _).
  { apply Okay_ret. split; [done|]. apply fx_replies. intros e ->%list_elem_of_singleton. eauto. }
  assert (Hps : proposals_ok (p :: p_ProposeChan r)) by (constructor; [done|apply Hr]).
  cbv zeta. set (r1 := (r <| p_ProposeChan := [] |>) <| p_crtInstance ::= _ |>).
  assert (H1 : replica_ok r1) by (split; [apply Hr|constructor]). clearbody r1.
  apply Okay_skip. intros _ _. eapply Okay_bind.
  { apply ok_fresh. intros ? [= <-]. split; [apply cmds_ok_none|]. by intros ? [= <-]. }
  intros x Hx. eapply Okay_bind; [by apply ok_makeBallot, ok_set|]. intros r2 H2.
  eapply (Okay_bind inst_ok); [apply Okay_deref; intros y Hy; by eapply H2|]. intros y Hy.
  eapply (Okay_bind lb_ok); [apply Okay_deref, Hy|]. intros lb Hlb. destruct (negb _); apply Okay_ret.
  { split; [done|]. apply fx_bcastPrepare. }
  match goal with |- step_ok (?r', _) => assert (H3 : replica_ok r') end.
  { apply ok_set; [done|]. split; [exact (cmds_ok_some _ (proposals_cmds _ Hps))|]. intros ? [= <-].
    split; [exact (cmds_ok_some _ (proposals_cmds _ Hps))|apply Hlb]. }
  split; [done|]. by apply fx_bcastAccept.
Qed.

Lemma handlePrepare_ok r m : replica_ok r -> Okay step_ok (handlePrepare r m).
Proof.
  intros Hr. eapply Okay_bind; [by apply ok_open, ok_see|]. intros [r1 x] [H1 Hx]. cbn [fst snd] in H1, Hx.
  case_bool_decide.
  { eapply Okay_bind; [apply fx_send; by apply cmds_ok_default, Hx|]. intros fx Hfx. by apply Okay_ret. }
  set (upd := if _ <? _ then _ else _).
  assert (Hu : replica_ok upd.1 /\ inst_ok upd.2).
  { unfold upd. destruct (_ <? _); [|done]. destruct (_ =? _); (split; [by apply ok_set|done]). }
  destruct upd as [r2 y]. destruct Hu as [H2 Hy]. apply Okay_skip. intros d _.
  eapply Okay_bind; [apply fx_send; by apply cmds_ok_default, Hy|]. intros fx Hfx. by apply Okay_ret.
Qed.

Lemma handleAccept_ok r m : replica_ok r -> Forall P (pa_Command m) -> Okay step_ok (handleAccept r m).
Proof.
  intros Hr Hm. eapply Okay_bind; [by apply ok_at|]. intros o Ho. cbv zeta.
  assert (Hsee : replica_ok (see_ballot r (pa_Ballot m))) by by apply ok_see.
  set (r0 := see_ballot r (pa_Ballot m)) in *. clearbody r0.
  assert (Hst : forall r' x, fx_ok (recordInstanceMetadata r' x ++ recordCommands r' (Some (pa_Command m)) ++ sync r')).
  { intros. repeat apply fx_app; auto using fx_meta, fx_cmds, fx_sync. }
  assert (Hacc : forall lb, (forall l, lb = Some l -> lb_ok l) ->
    inst_ok (mkPInstance (Some (pa_Command m)) (pa_Ballot m) (pa_Ballot m) ACCEPTED lb)).
  { intros lb Hlb. split; [by apply cmds_ok_some|done]. }
  lazymatch goal with |- Okay _ (match ?t with _ => _ end) =>
    assert (Hu : replica_ok t.1.1 /\ fx_ok t.2); [|destruct t as [[r1 x] fx]; destruct Hu as [H1 Hfx]] end.
  { destruct o as [x|].
    - destruct (_ || _); [split; [done|apply fx_nil]|]. split; [|apply Hst]. apply ok_set; [done|].
      apply Hacc, (Ho x eq_refl).
    - split; [|apply Hst]. apply ok_set; [by apply ok_hear|]. by apply Hacc. }
  eapply Okay_bind; [by apply fx_send|]. intros fx' Hfx'. apply Okay_ret. split; [done|]. by apply fx_app.
Qed.

Lemma requeue_ok r ps : replica_ok r -> proposals_ok ps -> Okay replica_ok (requeue r ps).
Proof.
  intros [H1 H2] Hps. unfold requeue. destruct (_ <? _); [done|]. apply Okay_ret. split; [exact H1|].
  by apply Forall_app.
Qed.

Lemma handleCommit_ok r m : replica_ok r -> Forall P (pc_Command m) -> Okay step_ok (handleCommit r m).
Proof.
  intros Hr Hm. eapply Okay_bind; [by apply ok_open|]. intros [r1 x] [H1 Hx]. cbn [fst snd] in H1, Hx.
  destruct (_ || _); [apply Okay_ret; split; [done|apply fx_nil]|].
  eapply (Okay_bind (fun p => replica_ok p.1 /\ forall l, p.2 = Some l -> lb_ok l)).
  { destruct (in_lb x) as [lb|] eqn:Elb; [|by apply Okay_ret]. pose proof (proj2 Hx lb Elb) as Hlb.
    destruct (lb_clientProposals lb) as [ps|] eqn:Eps.
    - eapply Okay_bind; [apply requeue_ok; [done|by apply Hlb]|]. intros r2 H2. apply Okay_ret. split; [done|].
      intros ? [= <-]. by split; [apply Hlb|].
    - apply Okay_ret. split; [done|]. by intros ? [= <-]. }
  intros [r2 lb] [H2 Hlb]. apply Okay_ret. split.
  - apply ok_set; [done|]. split; [by apply cmds_ok_some|done].
  - apply fx_app; auto using fx_meta, fx_cmds.
Qed.

Lemma handleCommitShort_ok r m : replica_ok r -> Okay step_ok (handleCommitShort r m).
Proof.
  intros Hr. eapply Okay_bind; [by apply ok_at|]. intros [x|] Hx; [|apply Okay_ret; split; [done|apply fx_nil]].
  destruct (_ || _); apply Okay_ret; (split; [|try apply fx_nil; apply fx_app; auto using fx_meta, fx_cmds]); [done|].
  by apply ok_set, (Hx x eq_refl).
Qed.

Lemma handlePrepareReply_ok r m : replica_ok r -> Forall P (pr_Command m) -> Okay step_ok (handlePrepareReply r m).
Proof.
  intros Hr Hm. eapply Okay_bind; [by apply ok_at|]. intros o Ho.
  eapply (Okay_bind inst_ok); [by apply Okay_deref, Ho|]. intros x Hx. cbv zeta.
  pose proof (ok_see r (pr_Ballot m) Hr) as H0. set (r0 := see_ballot r _) in *. clearbody r0.
  eapply (Okay_bind lb_ok); [apply Okay_deref, Hx|]. intros lb Hlb.
  destruct (_ <? _); [apply Okay_ret; split; [done|apply fx_nil]|]. destruct (_ <? _).
  { destruct (_ && _); [|apply Okay_ret; split; [by apply ok_set; [|split; [apply Hx|intros ? [= <-]]]|apply fx_nil]].
    eapply Okay_bind; [apply ok_makeBallot, ok_set; [done|split; [apply Hx|by intros ? [= <-]]]|]. intros r1 H1.
    apply Okay_ret. split; [done|apply fx_bcastPrepare]. }
  set (lb1 := if _ <? pr_VBallot m then _ else _).
  assert (Hlb1 : lb_ok lb1).
  { unfold lb1. destruct (_ <? _); [|done]. split; [by apply cmds_ok_some|apply Hlb]. }
  clearbody lb1. set (lb2 := lb1 <| lb_prepareOKs ::= _ |>). assert (Hlb2 : lb_ok lb2) by exact Hlb1. clearbody lb2.
  apply Okay_skip. intros d _.
  match goal with |- context [?c && negb _] => set (r1 := if c && negb _ then _ else _) end.
  assert (H1 : replica_ok r1).
  { unfold r1. destruct (_ && _), (_ <? _); (apply ok_set; [done|]; split; [apply Hx|by intros ? [= <-]]). }
  clearbody r1. destruct (_ <? _); [apply Okay_ret; split; [done|apply fx_nil]|].
  assert (Hc : Forall P (chosen_cmds lb2)).
  { unfold chosen_cmds. destruct (lb_clientProposals lb2) as [ps|] eqn:E; [|done]. by apply proposals_cmds, Hlb2. }
  set (y := mkPInstance _ _ _ _ _). assert (Hy : inst_ok y).
  { split; [by apply cmds_ok_some|]. intros ? [= <-]. split; [by apply cmds_ok_some|apply Hlb2]. }
  clearbody y. destruct (known_ballots _) as [count mn]. set (r2 := if _ && _ then _ else _).
  assert (H2 : replica_ok r2) by (unfold r2; destruct (_ && _); by apply ok_set). clearbody r2.
  apply Okay_ret. split; [exact H2|]. repeat apply fx_app; auto using fx_meta, fx_sync, fx_bcastAccept.
Qed.

Lemma handleAcceptReply_ok r m : replica_ok r -> Okay step_ok (handleAcceptReply r m).
Proof.
  intros Hr. eapply Okay_bind; [by apply ok_at|]. intros o Ho.
  eapply (Okay_bind inst_ok); [by apply Okay_deref, Ho|]. intros x Hx. cbv zeta.
  pose proof (ok_see r (par_Ballot m) Hr) as H0. set (r0 := see_ballot r _) in *. clearbody r0.
  case_bool_decide; [apply Okay_ret; split; [done|apply fx_nil]|].
  eapply (Okay_bind lb_ok); [apply Okay_deref, Hx|]. intros lb Hlb.
  destruct (_ <? _); [apply Okay_ret; split; [done|apply fx_nil]|]. destruct (_ <? _).
  { assert (Hn : replica_ok (set_instance r0 (par_Instance m) (x <| in_lb := Some (lb <| lb_nacks ::= fun n => n + 1 |>) |>))).
    { apply ok_set; [done|]. split; [apply Hx|by intros ? [= <-]]. }
    destruct (_ && _); [|apply Okay_ret; split; [done|apply fx_nil]].
    eapply Okay_bind; [by apply ok_makeBallot|]. intros r1 H1. apply Okay_ret. split; [done|apply fx_bcastPrepare]. }
  destruct (_ <? _).
  { apply Okay_ret. split; [|apply fx_nil]. apply ok_set; [done|]. split; [apply Hx|by intros ? [= <-]]. }
  match goal with |- context [set_instance r0 ?i ?y] => assert (H1 : replica_ok (set_instance r0 i y)) end.
  { apply ok_set; [done|]. split; [apply Hx|by intros ? [= <-]]. }
  assert (Hfx : forall r' y c b, fx_ok (recordInstanceMetadata r' y ++ sync r' ++ bcastCommit r' (par_Instance m) b c)).
  { intros. repeat apply fx_app; auto using fx_meta, fx_sync, fx_bcastCommit. }
  destruct (lb_clientProposals _); [|apply Okay_ret; split; [done|apply Hfx]].
  destruct (p_Dreply _); [apply Okay_ret; split; [done|apply Hfx]|].
  eapply Okay_bind; [apply reply_all_ok|]. intros fx' Hfx'. apply Okay_ret. split; [done|]. apply fx_app; [apply Hfx|done].
Qed.

Lemma recover_ok r i : replica_ok r -> Okay step_ok (recover r i).
Proof.
  intros Hr. eapply Okay_bind; [by apply ok_at|]. intros o Ho.
  eapply (Okay_bind inst_ok); [destruct o; [by apply Okay_ret, Ho|by apply ok_fresh]|]. intros x Hx.
  eapply Okay_bind; [apply ok_makeBallot, ok_set; [done|]|].
  { destruct (in_lb x); [done|]. split; [apply Hx|]. intros ? [= <-]. by split. }
  intros r1 H1. apply Okay_ret. split; [done|apply fx_bcastPrepare].
Qed.

Definition event_ok (e : run_event) : Prop := match e with EvMsg m => msg_ok m | _ => True end.

Lemma handle_event_ok r e : replica_ok r -> event_ok e -> Okay step_ok (handle_event r e).
Proof.
  intros Hr He. destruct e as [|m|]; cbn [handle_event].
  - destruct (p_ProposeChan r) as [|p ps] eqn:E; [apply Okay_ret; split; [done|apply fx_nil]|].
    destruct Hr as [H1 H2]. rewrite E in H2. apply Forall_cons in H2 as [Hp H2]. by apply handlePropose_ok.
  - destruct m; cbn in He.
    + by apply handlePrepare_ok.
    + by apply handleAccept_ok.
    + by apply handleCommit_ok.
    + by apply handleCommitShort_ok.
    + by apply handlePrepareReply_ok.
    + by apply handleAcceptReply_ok.
  - destruct (p_instancesToRecover r); [apply Okay_ret; split; [done|apply fx_nil]|]. by apply recover_ok.
Qed.

(** ** The system *)

Definition net_ok (n : net TM) : Prop := Forall replica_ok (n_replicas n) /\ Forall (fun pm => msg_ok pm.2) (n_soup n).

Lemma net_event_ok n i e n' : net_ok n -> event_ok e -> net_event n i e = Some n' -> net_ok n'.
Proof.
  intros [Hr Hs] He. unfold net_event. destruct (n_replicas n !! i) as [r|] eqn:Er; [|done]. cbn [mbind option_bind].
  destruct (handle_event r e) as [[r' fx]| |] eqn:E; [|done|done]. intros [= <-].
  destruct (handle_event_ok r e) with (a := (r', fx)) as [H1 H2]; [by eapply Forall_lookup_1|done|done|].
  split; cbn [n_replicas n_soup].
  - by apply Forall_insert.
  - apply Forall_app. split; [done|]. apply Forall_forall. intros [p m] Hin.
    apply list_elem_of_omap in Hin as (f & Hf & Ef). destruct f; try done. injection Ef as -> ->. by eapply H2.
Qed.

Definition action_ok (a : action) : Prop := match a with APropose _ p => P (gp_Command p) | _ => True end.

Lemma net_step_ok n a n' : net_ok n -> action_ok a -> net_step n a = Some n' -> net_ok n'.
Proof.
  intros [Hr Hs] Ha. destruct a as [k|i p|i]; cbn [net_step].
  - destruct (n_soup n !! k) as [[p m]|] eqn:E; [|done]. cbn [mbind option_bind]. apply net_event_ok.
    + split; [done|]. by apply Forall_delete.
    + exact (Forall_lookup_1 _ _ _ _ Hs E).
  - destruct (n_replicas n !! i) as [r|] eqn:E; [|done]. cbn [mbind option_bind]. apply net_event_ok; [|done].
    split; [|done]. apply Forall_insert; [done|]. destruct (Forall_lookup_1 _ _ _ _ Hr E) as [H1 H2]. split; [exact H1|].
    apply Forall_app. split; [exact H2|]. by apply Forall_singleton.
  - destruct (n_replicas n !! i) as [r|] eqn:E; [|done]. cbn [mbind option_bind]. intros [= <-].
    split; [|done]. apply Forall_insert; [done|]. exact (Forall_lookup_1 _ _ _ _ Hr E).
Qed.

Lemma net_run_ok l : forall n n', net_ok n -> Forall action_ok l -> net_run n l = Some n' -> net_ok n'.
Proof.
  induction l as [|a l IH]; intros n n' Hn Hl; cbn [net_run]; [by intros [= <-]|].
  apply Forall_cons in Hl as [Ha Hl]. destruct (net_step n a) as [n1|] eqn:E; [|done]. cbn [mbind option_bind].
  apply IH; [|done]. by eapply net_step_ok.
Qed.

Lemma net_init_ok N F leader : net_ok (net_init N F leader).
Proof.
  split; [|constructor]. apply Forall_fmap, Forall_forall. intros id _. split; [|constructor].
  intros i x Hx. change (p_instanceSpace _) with (∅ : gmap Z PInstance) in Hx. by apply lookup_empty_Some in Hx.
Qed.

Lemma committed_ok n i inst l : net_ok n -> committed n i inst = Some (Some l) -> Forall P l.
Proof.
  intros [Hr _]. unfold committed. destruct (n_replicas n !! i) as [r|] eqn:E; [|done]. cbn [mbind option_bind].
  destruct (p_instanceSpace r !! inst) as [x|] eqn:Ex; [|done]. cbn [mbind option_bind]. case_decide; [|done].
  intros [= Ec]. destruct (Forall_lookup_1 _ _ _ _ Hr E) as [H1 _]. by apply (H1 _ _ Ex).
Qed.
End valid.
