(* ===== verification/Rpc.v ===== *)
(** The connection between two replicas of a baseline protocol: the table of message
    types ([src/rpc/rpc.go]), what is written to a peer, and the loop that reads what a
    peer wrote ([SendMsg], [SendBeacon], [ReplyBeacon], [replicaListener] of
    [src/replica/replica.go]). *)
From stdpp Require Import gmap list.
From S2P Require Import Prelude WireBase Wire State QuorumSets GobWire DefsWire.

(** * The table *)

(** a table of message types; a type is its decoder *)
Record Table (P : Type) := mkTable { t_id : Z; t_pairs : gmap Z P }.
Arguments mkTable {P}. Arguments t_id {P}. Arguments t_pairs {P}.

Definition NewTableId {P} (id : Z) : Table P := mkTable id ∅.
(** the [uint8] counter wraps *)
Definition Register {P} (t : Table P) (p : P) : Table P * Z :=
  (mkTable ((t_id t + 1) mod 256) (<[t_id t := p]> (t_pairs t)), t_id t).
Definition Get {P} (t : Table P) (id : Z) : option P := t_pairs t !! id.

(** the types of a protocol, in the order it registers them *)
Definition register_all {P} (t : Table P) (ps : list P) : Table P := foldl (fun t p => (Register t p).1) t ps.

(** [src/replica/defs/defs.go] *)
Definition GENERIC_SMR_BEACON : Z := 6.
Definition GENERIC_SMR_BEACON_REPLY : Z := 7.
Definition RPC_TABLE : Z := 9.

Lemma register_all_get {P} (ps : list P) : forall (t : Table P) base i p,
  t_id t = base -> 0 <= base -> base + Zlength ps <= 256 -> ps !! i = Some p ->
  Get (register_all t ps) (base + Z.of_nat i) = Some p.
Proof.
  assert (Hkeep : forall (ps : list P) (t : Table P) k p, t_id t + Zlength ps <= 256 -> 0 <= k < t_id t ->
    Get t k = Some p -> Get (register_all t ps) k = Some p).
  { clear. intros ps. induction ps as [|q ps IH]; intros t k p Hle Hk Hg; [done|].
    cbn [register_all foldl length] in *. destruct ps as [|q' ps].
    - cbn. unfold Get in *. cbn. by rewrite lookup_insert_ne by lia.
    - apply IH; cbn [t_id Register fst length] in *.
      + rewrite Z.mod_small by lia. lia.
      + rewrite Z.mod_small by lia. lia.
      + unfold Get in *. cbn. by rewrite lookup_insert_ne by lia. }
  induction ps as [|q ps IH]; intros t base i p Hb H0 Hle Hi; [done|].
  cbn [register_all foldl length] in *. fold (register_all (Register t q).1 ps). destruct i as [|i].
  - injection Hi as ->. rewrite Z.add_0_r, <- Hb. destruct ps as [|q' ps].
    + cbn. unfold Get. cbn. by rewrite lookup_insert_eq.
    + apply Hkeep; cbn [t_id Register fst length] in *; [rewrite Z.mod_small by lia; lia|rewrite Z.mod_small by lia; lia|].
      unfold Get. cbn. by rewrite lookup_insert_eq.
  - destruct ps as [|q' ps]; [done|]. cbn [length] in *.
    replace (base + Z.of_nat (S i)) with (base + 1 + Z.of_nat i) by lia.
    apply IH; [|lia|cbn [length] in *; lia|done].
    cbn [t_id Register fst]. rewrite Z.mod_small by lia. lia.
Qed.

(** * A protocol's messages *)

(** how a registered type reads a message: [New], then [Unmarshal] *)
Definition decode {A M} `{GobCodec A} (inj : A -> M) (bs : list byte) : dres M :=
  match GUnmarshal gob_zero bs with
  | Done a rest => Done (inj a) rest
  | Fails a rest e => Fails (inj a) rest e
  | Crash => Crash
  end.

Lemma decode_reads {A M} `{GobCodec A} (inj : A -> M) m rest :
  GWf m -> decode inj (GMarshal m ++ rest) = Done (inj m) rest.
Proof. intros Hwf. unfold decode. by rewrite (gob_reads m Hwf). Qed.

(** the types a protocol registers, and how a message is written: the number of its
    type among them, and its bytes *)
Class Protocol (M : Type) := {
  proto_types : list (list byte -> dres M);
  proto_type : M -> nat;
  proto_marshal : M -> list byte;
  proto_wf : M -> Prop;
  proto_small : (length proto_types < 240)%nat;
  proto_reads m : proto_wf m ->
    exists d, proto_types !! proto_type m = Some d /\ forall rest, d (proto_marshal m ++ rest) = Done m rest }.

Definition proto_table {M} `{Protocol M} : Table (list byte -> dres M) :=
  register_all (NewTableId RPC_TABLE) proto_types.
(** the code [Register] gave the type *)
Definition proto_code {M} `{Protocol M} (m : M) : Z := RPC_TABLE + Z.of_nat (proto_type m).

(** * Both ends of a connection *)

Inductive peer_msg (M : Type) :=
| MsgBeacon (b : Beacon)
| MsgBeaconReply (b : BeaconReply)
| MsgRpc (m : M).
Arguments MsgBeacon {M}. Arguments MsgBeaconReply {M}. Arguments MsgRpc {M}.

Inductive listen_end := ConnError (e : gob_error) | UnknownType (code : Z) | ListenPanic | ListenFuel.

Section listener.
Context {M : Type} `{Protocol M}.

(** [SendMsg], [SendBeacon], [ReplyBeacon] *)
Definition SendMsg_bytes (m : peer_msg M) : list byte :=
  match m with
  | MsgRpc m => byte_of (proto_code m) :: proto_marshal m
  | MsgBeacon b => byte_of GENERIC_SMR_BEACON :: GMarshal b
  | MsgBeaconReply b => byte_of GENERIC_SMR_BEACON_REPLY :: GMarshal b
  end.

(** [replicaListener]: what is read, and why it ends; every turn reads a byte *)
Fixpoint replicaListener (fuel : nat) (bs : list byte) : list (peer_msg M) * listen_end :=
  match fuel with
  | O => ([], ListenFuel)
  | S fuel =>
      match bs with
      | [] => ([], ConnError (ReadError EOF))
      | msgType :: bs =>
          let code := byte_val msgType in
          let go (res : dres (peer_msg M)) :=
            match res with
            | Done m bs => let (ms, e) := replicaListener fuel bs in (m :: ms, e)
            | Fails _ _ e => ([], ConnError e)
            | Crash => ([], ListenPanic)
            end in
          let map_rpc (res : dres M) : dres (peer_msg M) :=
            match res with
            | Done m bs => Done (MsgRpc m) bs | Fails m bs e => Fails (MsgRpc m) bs e | Crash => Crash end in
          if code =? GENERIC_SMR_BEACON then go (decode MsgBeacon bs)
          else if code =? GENERIC_SMR_BEACON_REPLY then go (decode MsgBeaconReply bs)
          else
            match Get proto_table code with
            | Some p => go (map_rpc (p bs))
            | None => ([], UnknownType code)
            end
      end
  end.

Definition peer_wf (m : peer_msg M) : Prop :=
  match m with MsgRpc m => proto_wf m | MsgBeacon b => GWf b | MsgBeaconReply b => GWf b end.

Lemma proto_get m : proto_wf m ->
  exists d, Get proto_table (proto_code m) = Some d /\ (RPC_TABLE <= proto_code m < 256) /\
    forall rest, d (proto_marshal m ++ rest) = Done m rest.
Proof.
  intros Hwf. destruct (proto_reads m Hwf) as (d & Hd & Hr). exists d.
  pose proof proto_small as Hs. pose proof (lookup_lt_Some _ _ _ Hd) as Hlt.
  unfold proto_code, proto_table, RPC_TABLE in *. split; [|split; [lia|done]].
  apply register_all_get; [done|lia|lia|done].
Qed.

(** one message *)
Lemma replicaListener_cons fuel m rest : peer_wf m ->
  replicaListener (S fuel) (SendMsg_bytes m ++ rest) =
    let (ms, e) := replicaListener fuel rest in (m :: ms, e).
Proof.
  intros Hwf. destruct m as [b|b|m]; cbn [SendMsg_bytes app replicaListener].
  - rewrite byte_val_of. change (GENERIC_SMR_BEACON mod 256 =? GENERIC_SMR_BEACON) with true. cbv iota.
    by rewrite (decode_reads MsgBeacon b rest Hwf).
  - rewrite byte_val_of. change (GENERIC_SMR_BEACON_REPLY mod 256 =? GENERIC_SMR_BEACON) with false.
    change (GENERIC_SMR_BEACON_REPLY mod 256 =? GENERIC_SMR_BEACON_REPLY) with true. cbv iota.
    by rewrite (decode_reads MsgBeaconReply b rest Hwf).
  - destruct (proto_get m Hwf) as (d & Hg & Hc & Hr). unfold RPC_TABLE in Hc.
    rewrite byte_val_of, Z.mod_small by lia.
    rewrite (proj2 (Z.eqb_neq _ _)) by (unfold GENERIC_SMR_BEACON; lia).
    rewrite (proj2 (Z.eqb_neq _ _)) by (unfold GENERIC_SMR_BEACON_REPLY; lia).
    by rewrite Hg, Hr.
Qed.

Lemma replicaListener_sent ms : forall fuel, Forall peer_wf ms -> (length ms < fuel)%nat ->
  replicaListener fuel (concat (SendMsg_bytes <$> ms)) = (ms, ConnError (ReadError EOF)).
Proof.
  induction ms as [|m ms IH]; intros fuel Hwf Hf; (destruct fuel as [|fuel]; [cbn in Hf; lia|]); [done|].
  apply Forall_cons in Hwf as [Hm Hms]. rewrite fmap_cons. cbn [concat length] in *.
  rewrite replicaListener_cons by done. by rewrite IH by (done || lia).
Qed.
End listener.
