(* ===== verification/PaxosWire.v ===== *)
(** The messages of the Multi-Paxos baseline on the wire ([src/paxos/defs.go]). *)
From stdpp Require Import gmap list.
From S2P Require Import Prelude WireBase Wire State QuorumSets GobWire Handlers Paxos Rpc.

#[export] Instance eta_Prepare : Eta Prepare := fun r => mkPrepare (pp_LeaderId r) (pp_Instance r) (pp_Ballot r).
Definition Prepare_Marshal (t : Prepare) : list byte :=
  (le32 (pp_LeaderId t) ++ le32 (pp_Instance t) ++ le32 (pp_Ballot t)).
Definition Prepare_Unmarshal : into Prepare :=
  chunk 12 (fun bs t => t <| pp_LeaderId := i32_at bs 0 |> <| pp_Instance := i32_at bs 4 |> <| pp_Ballot := i32_at bs 8 |>).
Definition Prepare_wf (t : Prepare) : Prop :=
  is_i32 (pp_LeaderId t) /\ is_i32 (pp_Instance t) /\ is_i32 (pp_Ballot t).
#[export, program] Instance Prepare_codec : GobCodec Prepare := {|
  gob_zero := mkPrepare 0 0 0;
  GMarshal := Prepare_Marshal; GUnmarshal := Prepare_Unmarshal; GWf := Prepare_wf |}.
Next Obligation.
  intros [v0 v1 v2] Hwf. unfold Prepare_wf in Hwf. cbn [pp_LeaderId pp_Instance pp_Ballot] in Hwf. destruct_and? Hwf.
  unfold Prepare_Marshal, Prepare_Unmarshal. cbn [pp_LeaderId pp_Instance pp_Ballot]. gob_message.
Qed.

#[export] Instance eta_PrepareReply : Eta PrepareReply := fun r => mkPrepareReply (pr_Instance r) (pr_Ballot r) (pr_VBallot r) (pr_DefaultBallot r) (pr_AcceptorId r) (pr_Command r).
Definition PrepareReply_Marshal (t : PrepareReply) : list byte :=
  (le32 (pr_Instance t) ++ le32 (pr_Ballot t) ++ le32 (pr_VBallot t) ++ le32 (pr_DefaultBallot t) ++ le32 (pr_AcceptorId t)) ++
  put_slice GMarshal (pr_Command t).
Definition PrepareReply_Unmarshal : into PrepareReply :=
  chunk 20 (fun bs t => t <| pr_Instance := i32_at bs 0 |> <| pr_Ballot := i32_at bs 4 |> <| pr_VBallot := i32_at bs 8 |> <| pr_DefaultBallot := i32_at bs 12 |> <| pr_AcceptorId := i32_at bs 16 |>) ;>
  slice_into 40 true GUnmarshal gob_zero (fun l t => t <| pr_Command := l |>).
Definition PrepareReply_wf (t : PrepareReply) : Prop :=
  is_i32 (pr_Instance t) /\ is_i32 (pr_Ballot t) /\ is_i32 (pr_VBallot t) /\ is_i32 (pr_DefaultBallot t) /\ is_i32 (pr_AcceptorId t) /\ Zlength (pr_Command t) * 40 <= maxAlloc /\ Forall GWf (pr_Command t).
#[export, program] Instance PrepareReply_codec : GobCodec PrepareReply := {|
  gob_zero := mkPrepareReply 0 0 0 0 0 [];
  GMarshal := PrepareReply_Marshal; GUnmarshal := PrepareReply_Unmarshal; GWf := PrepareReply_wf |}.
Next Obligation.
  intros [v0 v1 v2 v3 v4 v5] Hwf. unfold PrepareReply_wf in Hwf. cbn [pr_Instance pr_Ballot pr_VBallot pr_DefaultBallot pr_AcceptorId pr_Command] in Hwf. destruct_and? Hwf.
  unfold PrepareReply_Marshal, PrepareReply_Unmarshal. cbn [pr_Instance pr_Ballot pr_VBallot pr_DefaultBallot pr_AcceptorId pr_Command]. gob_message.
Qed.

#[export] Instance eta_Accept : Eta Accept := fun r => mkAccept (pa_LeaderId r) (pa_Instance r) (pa_Ballot r) (pa_Command r).
Definition Accept_Marshal (t : Accept) : list byte :=
  (le32 (pa_LeaderId t) ++ le32 (pa_Instance t) ++ le32 (pa_Ballot t)) ++
  put_slice GMarshal (pa_Command t).
Definition Accept_Unmarshal : into Accept :=
  chunk 12 (fun bs t => t <| pa_LeaderId := i32_at bs 0 |> <| pa_Instance := i32_at bs 4 |> <| pa_Ballot := i32_at bs 8 |>) ;>
  slice_into 40 true GUnmarshal gob_zero (fun l t => t <| pa_Command := l |>).
Definition Accept_wf (t : Accept) : Prop :=
  is_i32 (pa_LeaderId t) /\ is_i32 (pa_Instance t) /\ is_i32 (pa_Ballot t) /\ Zlength (pa_Command t) * 40 <= maxAlloc /\ Forall GWf (pa_Command t).
#[export, program] Instance Accept_codec : GobCodec Accept := {|
  gob_zero := mkAccept 0 0 0 [];
  GMarshal := Accept_Marshal; GUnmarshal := Accept_Unmarshal; GWf := Accept_wf |}.
Next Obligation.
  intros [v0 v1 v2 v3] Hwf. unfold Accept_wf in Hwf. cbn [pa_LeaderId pa_Instance pa_Ballot pa_Command] in Hwf. destruct_and? Hwf.
  unfold Accept_Marshal, Accept_Unmarshal. cbn [pa_LeaderId pa_Instance pa_Ballot pa_Command]. gob_message.
Qed.

#[export] Instance eta_AcceptReply : Eta AcceptReply := fun r => mkAcceptReply (par_Instance r) (par_Ballot r).
Definition AcceptReply_Marshal (t : AcceptReply) : list byte :=
  (le32 (par_Instance t) ++ le32 (par_Ballot t)).
Definition AcceptReply_Unmarshal : into AcceptReply :=
  chunk 8 (fun bs t => t <| par_Instance := i32_at bs 0 |> <| par_Ballot := i32_at bs 4 |>).
Definition AcceptReply_wf (t : AcceptReply) : Prop :=
  is_i32 (par_Instance t) /\ is_i32 (par_Ballot t).
#[export, program] Instance AcceptReply_codec : GobCodec AcceptReply := {|
  gob_zero := mkAcceptReply 0 0;
  GMarshal := AcceptReply_Marshal; GUnmarshal := AcceptReply_Unmarshal; GWf := AcceptReply_wf |}.
Next Obligation.
  intros [v0 v1] Hwf. unfold AcceptReply_wf in Hwf. cbn [par_Instance par_Ballot] in Hwf. destruct_and? Hwf.
  unfold AcceptReply_Marshal, AcceptReply_Unmarshal. cbn [par_Instance par_Ballot]. gob_message.
Qed.

#[export] Instance eta_Commit : Eta Commit := fun r => mkCommit (pc_LeaderId r) (pc_Instance r) (pc_Ballot r) (pc_Command r).
Definition Commit_Marshal (t : Commit) : list byte :=
  (le32 (pc_LeaderId t) ++ le32 (pc_Instance t) ++ le32 (pc_Ballot t)) ++
  put_slice GMarshal (pc_Command t).
Definition Commit_Unmarshal : into Commit :=
  chunk 12 (fun bs t => t <| pc_LeaderId := i32_at bs 0 |> <| pc_Instance := i32_at bs 4 |> <| pc_Ballot := i32_at bs 8 |>) ;>
  slice_into 40 true GUnmarshal gob_zero (fun l t => t <| pc_Command := l |>).
Definition Commit_wf (t : Commit) : Prop :=
  is_i32 (pc_LeaderId t) /\ is_i32 (pc_Instance t) /\ is_i32 (pc_Ballot t) /\ Zlength (pc_Command t) * 40 <= maxAlloc /\ Forall GWf (pc_Command t).
#[export, program] Instance Commit_codec : GobCodec Commit := {|
  gob_zero := mkCommit 0 0 0 [];
  GMarshal := Commit_Marshal; GUnmarshal := Commit_Unmarshal; GWf := Commit_wf |}.
Next Obligation.
  intros [v0 v1 v2 v3] Hwf. unfold Commit_wf in Hwf. cbn [pc_LeaderId pc_Instance pc_Ballot pc_Command] in Hwf. destruct_and? Hwf.
  unfold Commit_Marshal, Commit_Unmarshal. cbn [pc_LeaderId pc_Instance pc_Ballot pc_Command]. gob_message.
Qed.

#[export] Instance eta_CommitShort : Eta CommitShort := fun r => mkCommitShort (pcs_LeaderId r) (pcs_Instance r) (pcs_Count r) (pcs_Ballot r).
Definition CommitShort_Marshal (t : CommitShort) : list byte :=
  (le32 (pcs_LeaderId t) ++ le32 (pcs_Instance t) ++ le32 (pcs_Count t) ++ le32 (pcs_Ballot t)).
Definition CommitShort_Unmarshal : into CommitShort :=
  chunk 16 (fun bs t => t <| pcs_LeaderId := i32_at bs 0 |> <| pcs_Instance := i32_at bs 4 |> <| pcs_Count := i32_at bs 8 |> <| pcs_Ballot := i32_at bs 12 |>).
Definition CommitShort_wf (t : CommitShort) : Prop :=
  is_i32 (pcs_LeaderId t) /\ is_i32 (pcs_Instance t) /\ is_i32 (pcs_Count t) /\ is_i32 (pcs_Ballot t).
#[export, program] Instance CommitShort_codec : GobCodec CommitShort := {|
  gob_zero := mkCommitShort 0 0 0 0;
  GMarshal := CommitShort_Marshal; GUnmarshal := CommitShort_Unmarshal; GWf := CommitShort_wf |}.
Next Obligation.
  intros [v0 v1 v2 v3] Hwf. unfold CommitShort_wf in Hwf. cbn [pcs_LeaderId pcs_Instance pcs_Count pcs_Ballot] in Hwf. destruct_and? Hwf.
  unfold CommitShort_Marshal, CommitShort_Unmarshal. cbn [pcs_LeaderId pcs_Instance pcs_Count pcs_Ballot]. gob_message.
Qed.

(** * The protocol *)

(** the types in the order they are registered *)
Definition paxos_msg_types : list (list byte -> dres paxos_msg) :=
  [decode PPrepare; decode PAccept; decode PCommit; decode PCommitShort; decode PPrepareReply; decode PAcceptReply].
Definition paxos_msg_type (m : paxos_msg) : nat :=
  match m with PPrepare _ => 0 | PAccept _ => 1 | PCommit _ => 2 | PCommitShort _ => 3 | PPrepareReply _ => 4 | PAcceptReply _ => 5 end.
Definition paxos_msg_marshal (m : paxos_msg) : list byte :=
  match m with PPrepare m => Prepare_Marshal m | PAccept m => Accept_Marshal m | PCommit m => Commit_Marshal m | PCommitShort m => CommitShort_Marshal m | PPrepareReply m => PrepareReply_Marshal m | PAcceptReply m => AcceptReply_Marshal m end.
Definition paxos_msg_wf (m : paxos_msg) : Prop :=
  match m with PPrepare m => Prepare_wf m | PAccept m => Accept_wf m | PCommit m => Commit_wf m | PCommitShort m => CommitShort_wf m | PPrepareReply m => PrepareReply_wf m | PAcceptReply m => AcceptReply_wf m end.
Lemma paxos_msg_reads m : paxos_msg_wf m ->
  exists d, paxos_msg_types !! paxos_msg_type m = Some d /\ forall rest, d (paxos_msg_marshal m ++ rest) = Done m rest.
Proof. destruct m; intros Hwf; (eexists; split; [reflexivity|]); intros rest; exact (decode_reads _ m rest Hwf). Qed.
#[export] Instance paxos_msg_protocol : Protocol paxos_msg := {|
  proto_types := paxos_msg_types; proto_type := paxos_msg_type; proto_marshal := paxos_msg_marshal; proto_wf := paxos_msg_wf;
  proto_small := ltac:(cbn; lia); proto_reads := paxos_msg_reads |}.

(** * Constructors, sizes and caches *)

Definition Prepare_BinarySize : Z * bool := (13, true).
Definition Prepare_New : Prepare := mkPrepare 0 0 0.
Definition PrepareCache : Type := Cache Prepare.
Definition NewPrepareCache : PrepareCache := NewCache.
Definition PrepareCache_Get (p : PrepareCache) : Prepare * PrepareCache := Cache_Get Prepare_New p.
Definition PrepareCache_Put (p : PrepareCache) (t : option Prepare) : PrepareCache := Cache_Put p t.

Definition PrepareReply_BinarySize : Z * bool := (0, false).
Definition PrepareReply_New : PrepareReply := mkPrepareReply 0 0 0 0 0 [].
Definition PrepareReplyCache : Type := Cache PrepareReply.
Definition NewPrepareReplyCache : PrepareReplyCache := NewCache.
Definition PrepareReplyCache_Get (p : PrepareReplyCache) : PrepareReply * PrepareReplyCache := Cache_Get PrepareReply_New p.
Definition PrepareReplyCache_Put (p : PrepareReplyCache) (t : option PrepareReply) : PrepareReplyCache := Cache_Put p t.

Definition Accept_BinarySize : Z * bool := (0, false).
Definition Accept_New : Accept := mkAccept 0 0 0 [].
Definition AcceptCache : Type := Cache Accept.
Definition NewAcceptCache : AcceptCache := NewCache.
Definition AcceptCache_Get (p : AcceptCache) : Accept * AcceptCache := Cache_Get Accept_New p.
Definition AcceptCache_Put (p : AcceptCache) (t : option Accept) : AcceptCache := Cache_Put p t.

Definition AcceptReply_BinarySize : Z * bool := (9, true).
Definition AcceptReply_New : AcceptReply := mkAcceptReply 0 0.
Definition AcceptReplyCache : Type := Cache AcceptReply.
Definition NewAcceptReplyCache : AcceptReplyCache := NewCache.
Definition AcceptReplyCache_Get (p : AcceptReplyCache) : AcceptReply * AcceptReplyCache := Cache_Get AcceptReply_New p.
Definition AcceptReplyCache_Put (p : AcceptReplyCache) (t : option AcceptReply) : AcceptReplyCache := Cache_Put p t.

Definition Commit_BinarySize : Z * bool := (0, false).
Definition Commit_New : Commit := mkCommit 0 0 0 [].
Definition CommitCache : Type := Cache Commit.
Definition NewCommitCache : CommitCache := NewCache.
Definition CommitCache_Get (p : CommitCache) : Commit * CommitCache := Cache_Get Commit_New p.
Definition CommitCache_Put (p : CommitCache) (t : option Commit) : CommitCache := Cache_Put p t.

Definition CommitShort_BinarySize : Z * bool := (16, true).
Definition CommitShort_New : CommitShort := mkCommitShort 0 0 0 0.
Definition CommitShortCache : Type := Cache CommitShort.
Definition NewCommitShortCache : CommitShortCache := NewCache.
Definition CommitShortCache_Get (p : CommitShortCache) : CommitShort * CommitShortCache := Cache_Get CommitShort_New p.
Definition CommitShortCache_Put (p : CommitShortCache) (t : option CommitShort) : CommitShortCache := Cache_Put p t.
