(* ===== verification/N2Wire.v ===== *)
(** The messages of the n2paxos baseline ([src/n2paxos/defs.go]). *)
From stdpp Require Import gmap list.
From S2P Require Import Prelude WireBase Wire State QuorumSets GobWire Rpc.

Record CommandId := mkCommandId {
  ci_ClientId : Z;
  ci_SeqNum : Z }.
#[export] Instance eta_CommandId : Eta CommandId := fun r => mkCommandId (ci_ClientId r) (ci_SeqNum r).
Definition CommandId_Marshal (t : CommandId) : list byte :=
  (le32 (ci_ClientId t) ++ le32 (ci_SeqNum t)).
Definition CommandId_Unmarshal : into CommandId :=
  chunk 8 (fun bs t => t <| ci_ClientId := i32_at bs 0 |> <| ci_SeqNum := i32_at bs 4 |>).
Definition CommandId_wf (t : CommandId) : Prop :=
  is_i32 (ci_ClientId t) /\ is_i32 (ci_SeqNum t).
#[export, program] Instance CommandId_codec : GobCodec CommandId := {|
  gob_zero := mkCommandId 0 0;
  GMarshal := CommandId_Marshal; GUnmarshal := CommandId_Unmarshal; GWf := CommandId_wf |}.
Next Obligation.
  intros [v0 v1] Hwf. unfold CommandId_wf in Hwf. cbn [ci_ClientId ci_SeqNum] in Hwf. destruct_and? Hwf.
  unfold CommandId_Marshal, CommandId_Unmarshal. cbn [ci_ClientId ci_SeqNum]. gob_message.
Qed.

Record M2A := mkM2A {
  m2a_Replica : Z;
  m2a_Ballot : Z;
  m2a_Cmd : Command;
  m2a_CmdId : CommandId;
  m2a_CmdSlot : Z }.
#[export] Instance eta_M2A : Eta M2A := fun r => mkM2A (m2a_Replica r) (m2a_Ballot r) (m2a_Cmd r) (m2a_CmdId r) (m2a_CmdSlot r).
Definition M2A_Marshal (t : M2A) : list byte :=
  (le32 (m2a_Replica t) ++ le32 (m2a_Ballot t)) ++
  GMarshal (m2a_Cmd t) ++
  (le32 (ci_ClientId (m2a_CmdId t)) ++ le32 (ci_SeqNum (m2a_CmdId t)) ++ le64 (m2a_CmdSlot t)).
Definition M2A_Unmarshal : into M2A :=
  chunk 8 (fun bs t => t <| m2a_Replica := i32_at bs 0 |> <| m2a_Ballot := i32_at bs 4 |>) ;>
  nested GUnmarshal m2a_Cmd (fun x t => t <| m2a_Cmd := x |>) ;>
  chunk 16 (fun bs t => t <| m2a_CmdId := mkCommandId (i32_at bs 0) (i32_at bs 4) |> <| m2a_CmdSlot := i64_at bs 8 |>).
Definition M2A_wf (t : M2A) : Prop :=
  is_i32 (m2a_Replica t) /\ is_i32 (m2a_Ballot t) /\ GWf (m2a_Cmd t) /\ CommandId_wf (m2a_CmdId t) /\ is_i64 (m2a_CmdSlot t).
#[export, program] Instance M2A_codec : GobCodec M2A := {|
  gob_zero := mkM2A 0 0 (mkCommand 0 0 []) (mkCommandId 0 0) 0;
  GMarshal := M2A_Marshal; GUnmarshal := M2A_Unmarshal; GWf := M2A_wf |}.
Next Obligation.
  intros [v0 v1 v2 [c3 s3] v4] Hwf. unfold M2A_wf, CommandId_wf in Hwf. cbn [m2a_Replica m2a_Ballot m2a_Cmd m2a_CmdId m2a_CmdSlot ci_ClientId ci_SeqNum] in Hwf. destruct_and? Hwf.
  unfold M2A_Marshal, M2A_Unmarshal. cbn [m2a_Replica m2a_Ballot m2a_Cmd m2a_CmdId m2a_CmdSlot ci_ClientId ci_SeqNum]. gob_message.
Qed.

Record M2B := mkM2B {
  m2b_Replica : Z;
  m2b_Ballot : Z;
  m2b_CmdSlot : Z }.
#[export] Instance eta_M2B : Eta M2B := fun r => mkM2B (m2b_Replica r) (m2b_Ballot r) (m2b_CmdSlot r).
Definition M2B_Marshal (t : M2B) : list byte :=
  (le32 (m2b_Replica t) ++ le32 (m2b_Ballot t) ++ le64 (m2b_CmdSlot t)).
Definition M2B_Unmarshal : into M2B :=
  chunk 16 (fun bs t => t <| m2b_Replica := i32_at bs 0 |> <| m2b_Ballot := i32_at bs 4 |> <| m2b_CmdSlot := i64_at bs 8 |>).
Definition M2B_wf (t : M2B) : Prop :=
  is_i32 (m2b_Replica t) /\ is_i32 (m2b_Ballot t) /\ is_i64 (m2b_CmdSlot t).
#[export, program] Instance M2B_codec : GobCodec M2B := {|
  gob_zero := mkM2B 0 0 0;
  GMarshal := M2B_Marshal; GUnmarshal := M2B_Unmarshal; GWf := M2B_wf |}.
Next Obligation.
  intros [v0 v1 v2] Hwf. unfold M2B_wf in Hwf. cbn [m2b_Replica m2b_Ballot m2b_CmdSlot] in Hwf. destruct_and? Hwf.
  unfold M2B_Marshal, M2B_Unmarshal. cbn [m2b_Replica m2b_Ballot m2b_CmdSlot]. gob_message.
Qed.

(** an element of a slice: one read per field *)
Definition M2B_fields : into M2B :=
  chunk 4 (fun bs t => t <| m2b_Replica := i32_at bs 0 |>) ;>
  chunk 4 (fun bs t => t <| m2b_Ballot := i32_at bs 0 |>) ;>
  chunk 8 (fun bs t => t <| m2b_CmdSlot := i64_at bs 0 |>).
Lemma M2B_fields_reads x : M2B_wf x -> Puts M2B_fields (M2B_Marshal x) (mkM2B 0 0 0) x.
Proof.
  destruct x as [v0 v1 v2]. intros Hwf. unfold M2B_wf in Hwf. cbn [m2b_Replica m2b_Ballot m2b_CmdSlot] in Hwf. destruct_and? Hwf.
  unfold M2B_Marshal, M2B_fields. cbn [m2b_Replica m2b_Ballot m2b_CmdSlot]. gob_message.
Qed.
#[export] Hint Resolve M2B_fields_reads : gob_fields.

Record M2s := mkM2s {
  m2s_TwoAs : list M2A;
  m2s_TwoBs : list M2B }.
#[export] Instance eta_M2s : Eta M2s := fun r => mkM2s (m2s_TwoAs r) (m2s_TwoBs r).
Definition M2s_Marshal (t : M2s) : list byte :=
  put_slice GMarshal (m2s_TwoAs t) ++
  put_slice M2B_Marshal (m2s_TwoBs t).
Definition M2s_Unmarshal : into M2s :=
  slice_into 64 true GUnmarshal gob_zero (fun l t => t <| m2s_TwoAs := l |>) ;>
  slice_into 16 false M2B_fields (mkM2B 0 0 0) (fun l t => t <| m2s_TwoBs := l |>).
Definition M2s_wf (t : M2s) : Prop :=
  Zlength (m2s_TwoAs t) * 64 <= maxAlloc /\ Forall GWf (m2s_TwoAs t) /\ Zlength (m2s_TwoBs t) * 16 <= maxAlloc /\ Forall M2B_wf (m2s_TwoBs t).
#[export, program] Instance M2s_codec : GobCodec M2s := {|
  gob_zero := mkM2s [] [];
  GMarshal := M2s_Marshal; GUnmarshal := M2s_Unmarshal; GWf := M2s_wf |}.
Next Obligation.
  intros [v0 v1] Hwf. unfold M2s_wf in Hwf. cbn [m2s_TwoAs m2s_TwoBs] in Hwf. destruct_and? Hwf.
  unfold M2s_Marshal, M2s_Unmarshal. cbn [m2s_TwoAs m2s_TwoBs]. gob_message.
Qed.

Record M1A := mkM1A {
  m1a_Replica : Z;
  m1a_Ballot : Z }.
#[export] Instance eta_M1A : Eta M1A := fun r => mkM1A (m1a_Replica r) (m1a_Ballot r).
Definition M1A_Marshal (t : M1A) : list byte :=
  (le32 (m1a_Replica t) ++ le32 (m1a_Ballot t)).
Definition M1A_Unmarshal : into M1A :=
  chunk 8 (fun bs t => t <| m1a_Replica := i32_at bs 0 |> <| m1a_Ballot := i32_at bs 4 |>).
Definition M1A_wf (t : M1A) : Prop :=
  is_i32 (m1a_Replica t) /\ is_i32 (m1a_Ballot t).
#[export, program] Instance M1A_codec : GobCodec M1A := {|
  gob_zero := mkM1A 0 0;
  GMarshal := M1A_Marshal; GUnmarshal := M1A_Unmarshal; GWf := M1A_wf |}.
Next Obligation.
  intros [v0 v1] Hwf. unfold M1A_wf in Hwf. cbn [m1a_Replica m1a_Ballot] in Hwf. destruct_and? Hwf.
  unfold M1A_Marshal, M1A_Unmarshal. cbn [m1a_Replica m1a_Ballot]. gob_message.
Qed.

Record M1B := mkM1B {
  m1b_Replica : Z;
  m1b_Ballot : Z;
  m1b_CBallot : Z;
  m1b_Cmds : list Command }.
#[export] Instance eta_M1B : Eta M1B := fun r => mkM1B (m1b_Replica r) (m1b_Ballot r) (m1b_CBallot r) (m1b_Cmds r).
Definition M1B_Marshal (t : M1B) : list byte :=
  (le32 (m1b_Replica t) ++ le32 (m1b_Ballot t) ++ le32 (m1b_CBallot t)) ++
  put_slice GMarshal (m1b_Cmds t).
Definition M1B_Unmarshal : into M1B :=
  chunk 12 (fun bs t => t <| m1b_Replica := i32_at bs 0 |> <| m1b_Ballot := i32_at bs 4 |> <| m1b_CBallot := i32_at bs 8 |>) ;>
  slice_into 40 true GUnmarshal gob_zero (fun l t => t <| m1b_Cmds := l |>).
Definition M1B_wf (t : M1B) : Prop :=
  is_i32 (m1b_Replica t) /\ is_i32 (m1b_Ballot t) /\ is_i32 (m1b_CBallot t) /\ Zlength (m1b_Cmds t) * 40 <= maxAlloc /\ Forall GWf (m1b_Cmds t).
#[export, program] Instance M1B_codec : GobCodec M1B := {|
  gob_zero := mkM1B 0 0 0 [];
  GMarshal := M1B_Marshal; GUnmarshal := M1B_Unmarshal; GWf := M1B_wf |}.
Next Obligation.
  intros [v0 v1 v2 v3] Hwf. unfold M1B_wf in Hwf. cbn [m1b_Replica m1b_Ballot m1b_CBallot m1b_Cmds] in Hwf. destruct_and? Hwf.
  unfold M1B_Marshal, M1B_Unmarshal. cbn [m1b_Replica m1b_Ballot m1b_CBallot m1b_Cmds]. gob_message.
Qed.

Record MPaxosSync := mkMPaxosSync {
  mps_Replica : Z;
  mps_Ballot : Z;
  mps_Cmds : list Command }.
#[export] Instance eta_MPaxosSync : Eta MPaxosSync := fun r => mkMPaxosSync (mps_Replica r) (mps_Ballot r) (mps_Cmds r).
Definition MPaxosSync_Marshal (t : MPaxosSync) : list byte :=
  (le32 (mps_Replica t) ++ le32 (mps_Ballot t)) ++
  put_slice GMarshal (mps_Cmds t).
Definition MPaxosSync_Unmarshal : into MPaxosSync :=
  chunk 8 (fun bs t => t <| mps_Replica := i32_at bs 0 |> <| mps_Ballot := i32_at bs 4 |>) ;>
  slice_into 40 true GUnmarshal gob_zero (fun l t => t <| mps_Cmds := l |>).
Definition MPaxosSync_wf (t : MPaxosSync) : Prop :=
  is_i32 (mps_Replica t) /\ is_i32 (mps_Ballot t) /\ Zlength (mps_Cmds t) * 40 <= maxAlloc /\ Forall GWf (mps_Cmds t).
#[export, program] Instance MPaxosSync_codec : GobCodec MPaxosSync := {|
  gob_zero := mkMPaxosSync 0 0 [];
  GMarshal := MPaxosSync_Marshal; GUnmarshal := MPaxosSync_Unmarshal; GWf := MPaxosSync_wf |}.
Next Obligation.
  intros [v0 v1 v2] Hwf. unfold MPaxosSync_wf in Hwf. cbn [mps_Replica mps_Ballot mps_Cmds] in Hwf. destruct_and? Hwf.
  unfold MPaxosSync_Marshal, MPaxosSync_Unmarshal. cbn [mps_Replica mps_Ballot mps_Cmds]. gob_message.
Qed.

(** * The protocol *)

Inductive n2paxos_msg :=
| N1A (m : M1A)
| N1B (m : M1B)
| N2A (m : M2A)
| N2B (m : M2B)
| N2s (m : M2s)
| NSync (m : MPaxosSync).
(** the types in the order they are registered *)
Definition n2paxos_msg_types : list (list byte -> dres n2paxos_msg) :=
  [decode N1A; decode N1B; decode N2A; decode N2B; decode N2s; decode NSync].
Definition n2paxos_msg_type (m : n2paxos_msg) : nat :=
  match m with N1A _ => 0 | N1B _ => 1 | N2A _ => 2 | N2B _ => 3 | N2s _ => 4 | NSync _ => 5 end.
Definition n2paxos_msg_marshal (m : n2paxos_msg) : list byte :=
  match m with N1A m => M1A_Marshal m | N1B m => M1B_Marshal m | N2A m => M2A_Marshal m | N2B m => M2B_Marshal m | N2s m => M2s_Marshal m | NSync m => MPaxosSync_Marshal m end.
Definition n2paxos_msg_wf (m : n2paxos_msg) : Prop :=
  match m with N1A m => M1A_wf m | N1B m => M1B_wf m | N2A m => M2A_wf m | N2B m => M2B_wf m | N2s m => M2s_wf m | NSync m => MPaxosSync_wf m end.
Lemma n2paxos_msg_reads m : n2paxos_msg_wf m ->
  exists d, n2paxos_msg_types !! n2paxos_msg_type m = Some d /\ forall rest, d (n2paxos_msg_marshal m ++ rest) = Done m rest.
Proof. destruct m; intros Hwf; (eexists; split; [reflexivity|]); intros rest; exact (decode_reads _ m rest Hwf). Qed.
#[export] Instance n2paxos_msg_protocol : Protocol n2paxos_msg := {|
  proto_types := n2paxos_msg_types; proto_type := n2paxos_msg_type; proto_marshal := n2paxos_msg_marshal; proto_wf := n2paxos_msg_wf;
  proto_small := ltac:(cbn; lia); proto_reads := n2paxos_msg_reads |}.

(** * Constructors, sizes and caches *)

Definition M1A_BinarySize : Z * bool := (8, true).
Definition M1A_New : M1A := mkM1A 0 0.
Definition M1ACache : Type := Cache M1A.
Definition NewM1ACache : M1ACache := NewCache.
Definition M1ACache_Get (p : M1ACache) : M1A * M1ACache := Cache_Get M1A_New p.
Definition M1ACache_Put (p : M1ACache) (t : option M1A) : M1ACache := Cache_Put p t.

Definition M1B_BinarySize : Z * bool := (0, false).
Definition M1B_New : M1B := mkM1B 0 0 0 [].
Definition M1BCache : Type := Cache M1B.
Definition NewM1BCache : M1BCache := NewCache.
Definition M1BCache_Get (p : M1BCache) : M1B * M1BCache := Cache_Get M1B_New p.
Definition M1BCache_Put (p : M1BCache) (t : option M1B) : M1BCache := Cache_Put p t.

Definition MPaxosSync_BinarySize : Z * bool := (0, false).
Definition MPaxosSync_New : MPaxosSync := mkMPaxosSync 0 0 [].
Definition MPaxosSyncCache : Type := Cache MPaxosSync.
Definition NewMPaxosSyncCache : MPaxosSyncCache := NewCache.
Definition MPaxosSyncCache_Get (p : MPaxosSyncCache) : MPaxosSync * MPaxosSyncCache := Cache_Get MPaxosSync_New p.
Definition MPaxosSyncCache_Put (p : MPaxosSyncCache) (t : option MPaxosSync) : MPaxosSyncCache := Cache_Put p t.

Definition CommandId_BinarySize : Z * bool := (8, true).
Definition CommandIdCache : Type := Cache CommandId.
Definition NewCommandIdCache : CommandIdCache := NewCache.
Definition CommandIdCache_Get (p : CommandIdCache) : CommandId * CommandIdCache := Cache_Get (mkCommandId 0 0) p.
Definition CommandIdCache_Put (p : CommandIdCache) (t : option CommandId) : CommandIdCache := Cache_Put p t.

Definition M2A_BinarySize : Z * bool := (0, false).
Definition M2A_New : M2A := mkM2A 0 0 (mkCommand 0 0 []) (mkCommandId 0 0) 0.
Definition M2ACache : Type := Cache M2A.
Definition NewM2ACache : M2ACache := NewCache.
Definition M2ACache_Get (p : M2ACache) : M2A * M2ACache := Cache_Get M2A_New p.
Definition M2ACache_Put (p : M2ACache) (t : option M2A) : M2ACache := Cache_Put p t.

Definition M2B_BinarySize : Z * bool := (16, true).
Definition M2B_New : M2B := mkM2B 0 0 0.
Definition M2BCache : Type := Cache M2B.
Definition NewM2BCache : M2BCache := NewCache.
Definition M2BCache_Get (p : M2BCache) : M2B * M2BCache := Cache_Get M2B_New p.
Definition M2BCache_Put (p : M2BCache) (t : option M2B) : M2BCache := Cache_Put p t.

Definition M2s_BinarySize : Z * bool := (0, false).
Definition M2s_New : M2s := mkM2s [] [].
Definition M2sCache : Type := Cache M2s.
Definition NewM2sCache : M2sCache := NewCache.
Definition M2sCache_Get (p : M2sCache) : M2s * M2sCache := Cache_Get M2s_New p.
Definition M2sCache_Put (p : M2sCache) (t : option M2s) : M2sCache := Cache_Put p t.
