(* ===== verification/N2Paxos.v ===== *)
(** The N2Paxos baseline ([src/n2paxos/n2paxos.go], [src/n2paxos/batcher.go]): a fixed
    leader numbers the proposals, every replica acknowledges to every other.

    The goroutine of [run] hands each message to the descriptor of its slot; a
    descriptor has a goroutine of its own, which takes the messages from the channel
    [msgs], or, when there are many already, is handled in place ([seq]).  A turn of
    one of these goroutines, of the batcher or of the sender is a step.  [Stuck]: the
    goroutine waits, for a channel with room or for a message.  What [run] has still
    to hand on of an [M2s] is [n_todo].  A descriptor in use is in [n_cmdDescs]; the
    pool may give back any descriptor that was freed, or a new one: the choice is an
    argument.  The keys of the maps are the numbers and the identifiers themselves,
    not their text.  [MaxDescRoutines] and the length of [n_history] are the code's. *)
From stdpp Require Import gmap list.
From S2P Require Import Prelude WireBase Wire State Hook QuorumSets GobWire DefsWire Handlers Rpc N2Wire.

#[export] Instance N2_CommandId_dec : EqDecision CommandId.
Proof. solve_decision. Defined.
#[export] Instance N2_CommandId_countable : Countable CommandId :=
  inj_countable' (fun c => (ci_ClientId c, ci_SeqNum c)) (fun p => mkCommandId p.1 p.2)
    (fun c => match c with mkCommandId _ _ => eq_refl end).

(** * State *)

Inductive n2_status := NORMAL | RECOVERING.
Inductive n2_phase := START | COMMIT.
#[export] Instance n2_phase_dec : EqDecision n2_phase.
Proof. solve_decision. Defined.
#[export] Instance n2_status_dec : EqDecision n2_status.
Proof. solve_decision. Defined.
Definition HISTORY_SIZE : Z := 10010001.
Definition MaxDescRoutines : Z := 100.

(** what goes through a descriptor's channel: the integer is [DSlot], the string
    [DDeliver] *)
Inductive desc_msg :=
| DPropose (p : GPropose) | D2A (m : M2A) | D2B (m : M2B) | DDeliver | DSlot (slot : Z).

(** a closure given to [afterPayload] runs [deliver]'s body for a slot *)
Record commandDesc := mkCommandDesc {
  cd_cmdId : CommandId;
  cd_cmd : Command;
  cd_phase : n2_phase;
  cd_cmdSlot : Z;
  cd_propose : option GPropose;
  cd_twoBs : option (MsgSet (Q := Majority) (M := M2B));
  cd_afterPayload : option (OptCondF CommandId Z);
  cd_msgs : list desc_msg;
  cd_active : bool;
  cd_seq : bool }.
#[export] Instance eta_commandDesc : Eta commandDesc := fun d =>
  mkCommandDesc (cd_cmdId d) (cd_cmd d) (cd_phase d) (cd_cmdSlot d) (cd_propose d) (cd_twoBs d)
    (cd_afterPayload d) (cd_msgs d) (cd_active d) (cd_seq d).
(** [&commandDesc{}] *)
Definition commandDesc_zero : commandDesc :=
  mkCommandDesc (mkCommandId 0 0) (mkCommand 0 0 []) START 0 None None None [] false false.

Record commandStaticDesc := mkCommandStaticDesc { sd_cmdSlot : Z; sd_phase : n2_phase; sd_cmd : Command }.

Record BatcherOp (M : Type) := mkBatcherOp { bo_cid : Z; bo_msg : M; bo_sendToClient : bool }.
Arguments mkBatcherOp {M}. Arguments bo_cid {M}. Arguments bo_msg {M}. Arguments bo_sendToClient {M}.
Record Batcher := mkBatcher { b_size : Z; b_twoAs : list (BatcherOp M2A); b_twoBs : list (BatcherOp M2B) }.
Definition NewBatcher (size : Z) : Batcher := mkBatcher size [] [].

Record N2Replica (TM : Treemap Value) := mkN2Replica {
  n_Id : Z; n_N : Z; n_Exec : bool; n_Dreply : bool; n_Alive : list bool;
  n_State : tm_carrier TM;
  n_ballot : Z; n_cballot : Z; n_status : n2_status;
  n_isLeader : bool; n_lastCmdSlot : Z;
  n_slots : gmap CommandId Z;
  n_proposes : gmap CommandId GPropose;
  n_cmdDescs : gmap Z commandDesc;
  n_delivered : gset Z;
  n_sender : Sender M2s unit; n_batcher : Batcher;
  n_history : gmap Z commandStaticDesc;
  n_AQ : Majority; n_qs : QuorumSet;
  n_deliverChan : list Z;
  n_descPool : list commandDesc; n_poolLevel : Z; n_routineCount : Z;
  n_todo : list (Z * desc_msg) }.
Arguments mkN2Replica {TM}. Arguments n_Id {TM}. Arguments n_N {TM}. Arguments n_Exec {TM}. Arguments n_Dreply {TM}.
Arguments n_Alive {TM}. Arguments n_State {TM}. Arguments n_ballot {TM}. Arguments n_cballot {TM}.
Arguments n_status {TM}. Arguments n_isLeader {TM}. Arguments n_lastCmdSlot {TM}. Arguments n_slots {TM}.
Arguments n_proposes {TM}. Arguments n_cmdDescs {TM}. Arguments n_delivered {TM}. Arguments n_sender {TM}.
Arguments n_batcher {TM}. Arguments n_history {TM}. Arguments n_AQ {TM}. Arguments n_qs {TM}.
Arguments n_deliverChan {TM}. Arguments n_descPool {TM}. Arguments n_poolLevel {TM}. Arguments n_routineCount {TM}.
Arguments n_todo {TM}.
#[export] Instance eta_N2Replica {TM} : Eta (N2Replica TM) := fun r =>
  mkN2Replica (n_Id r) (n_N r) (n_Exec r) (n_Dreply r) (n_Alive r) (n_State r) (n_ballot r) (n_cballot r)
    (n_status r) (n_isLeader r) (n_lastCmdSlot r) (n_slots r) (n_proposes r) (n_cmdDescs r) (n_delivered r)
    (n_sender r) (n_batcher r) (n_history r) (n_AQ r) (n_qs r) (n_deliverChan r) (n_descPool r) (n_poolLevel r)
    (n_routineCount r) (n_todo r).

Inductive n2_effect :=
| N2Reply (client : Z) (m : ProposeReplyTS)
| N2Out (e : @sender_effect M2s unit).

(** * The batcher *)

(** a send on one of its channels *)
Definition batch_send {M} (size : Z) (c : list (BatcherOp M)) (op : BatcherOp M) : outcome (list (BatcherOp M)) :=
  if size <=? Zlength c then Stuck else Ok (c ++ [op]).
Definition batch_2A (b : Batcher) (op : BatcherOp M2A) : outcome Batcher :=
  l <~ batch_send (b_size b) (b_twoAs b) op ;; Ok (mkBatcher (b_size b) l (b_twoBs b)).
Definition batch_2B (b : Batcher) (op : BatcherOp M2B) : outcome Batcher :=
  l <~ batch_send (b_size b) (b_twoBs b) op ;; Ok (mkBatcher (b_size b) (b_twoAs b) l).
Definition Send2A (b : Batcher) (twoA : M2A) := batch_2A b (mkBatcherOp 0 twoA false).
Definition Send2B (b : Batcher) (twoB : M2B) := batch_2B b (mkBatcherOp 0 twoB false).
Definition Send2AClient (b : Batcher) (twoA : M2A) (cid : Z) := batch_2A b (mkBatcherOp cid twoA true).
Definition Send2BClient (b : Batcher) (twoB : M2B) (cid : Z) := batch_2B b (mkBatcherOp cid twoB true).

Section n2paxos.
Context {TM : Treemap Value}.
Implicit Types r : N2Replica TM.
Implicit Types d : commandDesc.

(** [cs.twosRPC], as [initCs] registers it *)
Definition twosRPC : Z := proto_code (N2s (mkM2s [] [])).

(** the batcher takes a 2A ([true]) or a 2B first, and with it all that wait *)
Definition batcher_turn r (side : bool) : outcome (N2Replica TM) :=
  let b := n_batcher r in
  op <~ (if side then '(op : BatcherOp M2A) <~ match b_twoAs b with op :: _ => Ok op | [] => Stuck end ;;
                      Ok (bo_cid op, bo_sendToClient op)
         else '(op : BatcherOp M2B) <~ match b_twoBs b with op :: _ => Ok op | [] => Stuck end ;;
              Ok (bo_cid op, bo_sendToClient op)) ;;
  let twos := mkM2s (bo_msg <$> b_twoAs b) (bo_msg <$> b_twoBs b) in
  s <~ SendToAll (n_sender r) twos twosRPC ;;
  s <~ (if (op : Z * bool).2 then SendToClient s op.1 twos twosRPC else Ok s) ;;
  Ok (r <| n_sender := s |> <| n_batcher := mkBatcher (b_size b) [] [] |>).

(** * Descriptors *)

(** [allocDesc]: with a pool, the [choice]-th of its descriptors, or a new one *)
Definition allocDesc r (choice : nat) : N2Replica TM * commandDesc :=
  if 0 <? n_poolLevel r then
    match n_descPool r !! choice with
    | Some d => (r <| n_descPool ::= delete choice |>, d)
    | None => (r, commandDesc_zero)
    end
  else (r, commandDesc_zero).
Definition freeDesc r d : N2Replica TM :=
  if 0 <? n_poolLevel r then r <| n_descPool ::= fun l => l ++ [d] |> else r.

(** the condition of [afterPayload]: the command is known *)
Definition has_payload (c : CommandId) : bool := negb (ci_SeqNum c =? -42).

Definition newDesc r (choice : nat) : N2Replica TM * commandDesc :=
  let (r, d) := allocDesc r choice in
  (r, d <| cd_cmdSlot := -1 |> <| cd_active := true |> <| cd_phase := START |>
        <| cd_seq := MaxDescRoutines <=? n_routineCount r |> <| cd_propose := None |>
        <| cd_cmdId := mkCommandId (ci_ClientId (cd_cmdId d)) (-42) |>
        <| cd_afterPayload := Some (OptCondF_ReinitCondF (cd_afterPayload d) has_payload) |>
        <| cd_twoBs := Some (ReinitMsgSet (cd_twoBs d) (n_AQ r) (fun _ _ => true)) |>).

(** * Handlers *)

Definition handler : Type := outcome (N2Replica TM * commandDesc * list n2_effect).

(** the message [int] of [handleMsg]: the descriptor is done *)
Definition retire r (hslot : Z) d (slot : Z) : outcome (N2Replica TM * commandDesc) :=
  if (hslot <? 0) || (HISTORY_SIZE <=? hslot) then Panic else
  let r := r <| n_history ::= <[hslot := mkCommandStaticDesc slot (cd_phase d) (cd_cmd d)]> |> in
  let d := d <| cd_active := false |> in
  Ok (freeDesc (r <| n_cmdDescs ::= delete slot |>) d, d).

(** what a sequential descriptor receives from its own channel until an integer *)
Fixpoint until_slot (l : list desc_msg) : outcome (Z * list desc_msg) :=
  match l with
  | [] => Stuck
  | DSlot s :: l => Ok (s, l)
  | _ :: l => until_slot l
  end.

Definition msgs_cap : Z := 8.
Definition send_msg d (m : desc_msg) : outcome commandDesc :=
  if msgs_cap <=? Zlength (cd_msgs d) then Stuck else Ok (d <| cd_msgs ::= fun l => l ++ [m] |>).

(** whether the closure of [deliver] goes on, and the proposal it answers *)
Definition deliverable r d (slot : Z) : option GPropose :=
  if bool_decide (slot ∈ n_delivered r) || negb (n_Exec r) then None
  else if negb (bool_decide (cd_phase d = COMMIT)) && negb (n_isLeader r) then None
  else if (0 <? slot) && negb (bool_decide (slot - 1 ∈ n_delivered r)) then None
  else match n_proposes r !! cd_cmdId d with Some p => Some p | None => cd_propose d end.

(** the closure that [deliver] hands to [afterPayload] *)
Definition deliver_body r d (slot : Z) : handler :=
  match deliverable r d slot with
  | None => Ok (r, d, [])
  | Some p =>
      let d := d <| cd_propose := Some p |> in
      let r := r <| n_delivered ::= fun s => {[slot]} ∪ s |> in
      '(v, st) <~ deref (Execute (cd_cmd d) (n_State r)) ;;
      let r := r <| n_State := st |> <| n_deliverChan ::= fun l => l ++ [slot + 1] |> in
      d <~ send_msg d (DSlot slot) ;;
      let fx := if gp_Proxy p && n_Dreply r
                then [N2Reply (gp_Reply p) (mkProposeReplyTS PTRUE (gp_CommandId p) v (gp_Timestamp p))] else [] in
      if cd_seq d then
        '(hslot, rest) <~ until_slot (cd_msgs d) ;;
        '(r, d) <~ retire r hslot (d <| cd_msgs := rest |>) slot ;;
        Ok (r, d, fx)
      else Ok (r, d, fx)
  end.

Fixpoint deliver_all r d (slots : list Z) : handler :=
  match slots with
  | [] => Ok (r, d, [])
  | s :: slots =>
      '(r, d, fx) <~ deliver_body r d s ;;
      '(r, d, fx') <~ deliver_all r d slots ;;
      Ok (r, d, fx ++ fx')
  end.

Definition deliver r d (slot : Z) : handler :=
  cf <~ deref (cd_afterPayload d) ;;
  let '(cf, ran, _) := OptCondF_Call cf (cd_cmdId d) slot in
  deliver_all r (d <| cd_afterPayload := Some cf |>) ran.

(** [get2BsHandler] *)
Fixpoint twoBs_effects r d (fx : list (ms_effect (M := M2B))) : handler :=
  match fx with
  | [] => Ok (r, d, [])
  | FreeMsg _ :: fx => twoBs_effects r d fx
  | Handler _ _ :: fx =>
      let d := d <| cd_phase := COMMIT |> in
      '(r, d, e) <~ deliver r d (cd_cmdSlot d) ;;
      '(r, d, e') <~ twoBs_effects r d fx ;;
      Ok (r, d, e ++ e')
  end.

Definition handle2B r (msg : M2B) d : handler :=
  if negb (bool_decide (n_status r = NORMAL)) || negb (n_ballot r =? m2b_Ballot msg) then Ok (r, d, []) else
  ms <~ deref (cd_twoBs d) ;;
  let '(ms, fx, _) := Add ms (m2b_Replica msg) false msg in
  twoBs_effects r (d <| cd_twoBs := Some ms |>) fx.

Definition handle2A r (msg : M2A) d : handler :=
  if negb (bool_decide (n_status r = NORMAL)) || negb (n_ballot r =? m2a_Ballot msg) then Ok (r, d, []) else
  let d := d <| cd_cmd := m2a_Cmd msg |> <| cd_cmdId := m2a_CmdId msg |> <| cd_cmdSlot := m2a_CmdSlot msg |> in
  let r := r <| n_slots ::= <[cd_cmdId d := cd_cmdSlot d]> |> in
  if negb (Contains (n_AQ r) (n_Id r)) then
    cf <~ deref (cd_afterPayload d) ;;
    let '(cf, ran, _) := OptCondF_Recall cf (cd_cmdId d) in
    deliver_all r (d <| cd_afterPayload := Some cf |>) ran
  else
    let twoB := mkM2B (n_Id r) (m2a_Ballot msg) (m2a_CmdSlot msg) in
    b <~ Send2B (n_batcher r) twoB ;;
    handle2B (r <| n_batcher := b |>) twoB d.

Definition handlePropose r (msg : GPropose) d (slot : Z) : handler :=
  if negb (bool_decide (n_status r = NORMAL)) || match cd_propose d with Some _ => true | None => false end
  then Ok (r, d, []) else
  let d := d <| cd_propose := Some msg |> in
  let twoA := mkM2A (n_Id r) (n_ballot r) (gp_Command msg) (mkCommandId (gp_ClientId msg) (gp_CommandId msg)) slot in
  b <~ Send2A (n_batcher r) twoA ;;
  handle2A (r <| n_batcher := b |>) twoA d.

(** [handleMsg]; the result tells whether the descriptor is done *)
Definition handleMsg r (m : desc_msg) d (slot : Z) : outcome (N2Replica TM * commandDesc * list n2_effect * bool) :=
  match m with
  | DSlot hslot => '(r, d) <~ retire r hslot d slot ;; Ok (r, d, [], true)
  | _ =>
      '(r, d, fx) <~
        match m with
        | DPropose p => handlePropose r p d slot
        | D2A m => if m2a_CmdSlot m =? slot then handle2A r m d else Ok (r, d, [])
        | D2B m => if m2b_CmdSlot m =? slot then handle2B r m d else Ok (r, d, [])
        | _ => deliver r d slot
        end ;;
      Ok (r, d, fx, false)
  end.

(** a descriptor that was changed; one that is done is no longer there *)
Definition put_desc r (slot : Z) d : N2Replica TM :=
  if cd_active d then r <| n_cmdDescs ::= <[slot := d]> |> else r.

(** [getCmdDesc] with the message it is called with; the result tells whether there
    is a descriptor *)
Definition getCmdDesc r (choice : nat) (slot : Z) (msg : desc_msg) : outcome (N2Replica TM * list n2_effect * bool) :=
  if bool_decide (slot ∈ n_delivered r) then Ok (r, [], false) else
  let (r, d) :=
    match n_cmdDescs r !! slot with
    | Some d => (r, d)
    | None =>
        let (r, d) := newDesc r choice in
        let d := d <| cd_cmdSlot := slot |> in
        (if cd_seq d then r else r <| n_routineCount ::= fun n => n + 1 |>, d)
    end in
  if cd_seq d then
    '(r, d, fx, _) <~ handleMsg r msg d slot ;; Ok (put_desc r slot d, fx, true)
  else
    d <~ send_msg d msg ;; Ok (put_desc r slot d, [], true).

(** a turn of [handleDesc] *)
Definition handleDesc r (slot : Z) : outcome (N2Replica TM * list n2_effect) :=
  match n_cmdDescs r !! slot with
  | None => Stuck
  | Some d =>
      if cd_seq d then Stuck else
      match cd_msgs d with
      | [] => Stuck
      | m :: rest =>
          '(r, d, fx, done) <~ handleMsg r m (d <| cd_msgs := rest |>) slot ;;
          let r := put_desc r slot d in
          Ok (if (done : bool) then r <| n_routineCount ::= fun n => n - 1 |> else r, fx)
      end
  end.

(** * [run] *)

Definition commandId_of (p : GPropose) : CommandId := mkCommandId (gp_ClientId p) (gp_CommandId p).

Definition run_propose r (choice : nat) (p : GPropose) : outcome (N2Replica TM * list n2_effect) :=
  if n_isLeader r then
    '(r, fx, found) <~ getCmdDesc r choice (n_lastCmdSlot r) (DPropose p) ;;
    if (found : bool) then Ok (r <| n_lastCmdSlot ::= fun n => n + 1 |>, fx) else Panic
  else
    let r := r <| n_proposes ::= <[commandId_of p := p]> |> in
    match n_slots r !! commandId_of p with
    | Some slot => '(r, fx, _) <~ getCmdDesc r choice slot DDeliver ;; Ok (r, fx)
    | None => Ok (r, [])
    end.

Inductive n2_turn :=
| TRunDeliver (k choice : nat)              (* the [k]-th slot that waits on [deliverChan] *)
| TRunPropose (choice : nat) (p : GPropose) (* a proposal from [ProposeChan] *)
| TRunMsg (m : n2paxos_msg)                 (* a message from a channel of [cs] *)
| TRunNext (choice : nat)                   (* what is left of it *)
| TDesc (slot : Z)                          (* the goroutine of a descriptor *)
| TBatcher (side : bool)
| TSender.

Definition n2_step r (t : n2_turn) : outcome (N2Replica TM * list n2_effect) :=
  match t with
  | TRunDeliver k choice =>
      match n_todo r, n_deliverChan r !! k with
      | [], Some slot =>
          '(r, fx, _) <~ getCmdDesc (r <| n_deliverChan ::= delete k |>) choice slot DDeliver ;; Ok (r, fx)
      | _, _ => Stuck
      end
  | TRunPropose choice p => match n_todo r with [] => run_propose r choice p | _ => Stuck end
  | TRunMsg m =>
      match n_todo r with
      | [] =>
          let todo :=
            match m with
            | N2A m => [(m2a_CmdSlot m, D2A m)]
            | N2B m => [(m2b_CmdSlot m, D2B m)]
            | N2s m => ((fun a => (m2a_CmdSlot a, D2A a)) <$> m2s_TwoAs m) ++
                       ((fun b => (m2b_CmdSlot b, D2B b)) <$> m2s_TwoBs m)
            | _ => []
            end in
          Ok (r <| n_todo := todo |>, [])
      | _ => Stuck
      end
  | TRunNext choice =>
      match n_todo r with
      | [] => Stuck
      | (slot, m) :: todo =>
          '(r, fx, _) <~ getCmdDesc (r <| n_todo := todo |>) choice slot m ;; Ok (r, fx)
      end
  | TDesc slot => handleDesc r slot
  | TBatcher side => r <~ batcher_turn r side ;; Ok (r, [])
  | TSender =>
      match queue_turn (n_N r) (n_Alive r) (n_sender r) with
      | None => Stuck
      | Some (s, fx) => Ok (r <| n_sender := s |>, N2Out <$> fx)
      end
  end.

(** [New]; [file] is what [NewQuorumsFromFile] returns *)
Definition New_ (id N : Z) (exec dreply : bool) (pl : Z) (file : list Quorum * list Z * option quorum_error) :
    outcome (N2Replica TM) :=
  let '(AQs, leaderIds, err) := file in
  '(ballot, isLeader) <~
    match err, AQs, leaderIds with
    | None, _ :: _, l :: _ => Ok (l, l =? id)
    | Some NO_QUORUM_FILE, _, _ => Ok (0, 0 =? id)
    | _, _, _ => Panic
    end ;;
  Ok (mkN2Replica id N exec dreply (replicate (Z.to_nat N) false) InitState ballot ballot NORMAL isLeader 0
        ∅ ∅ ∅ ∅ [] (NewBatcher 16) ∅ (NewMajorityOf N) (NewQuorumSet (Z.quot N 2 + 1) N) [] [] pl 0 []).
End n2paxos.

(** * Replicas of the N2Paxos baseline and the messages between them, as an executable
    system: any goroutine of any replica takes the next turn, a message is handled
    once, in any order, or never. *)

Section net.
Context {TM : Treemap Value}.

Record n2_net := mkN2Net { nn_replicas : list (N2Replica TM); nn_soup : list (Z * n2paxos_msg) }.

Inductive n2_action :=
| NTurn (i : nat) (t : n2_turn)  (* a goroutine of replica [i] *)
| NDeliver (k : nat).            (* the [k]-th message that is under way reaches its replica *)

Definition n2_sends (fx : list n2_effect) : list (Z * n2paxos_msg) :=
  omap (fun e => match e with N2Out (ToPeer p _ m) => Some (p, N2s m) | _ => None end) fx.

Definition n2_net_turn (n : n2_net) (i : nat) (t : n2_turn) : option n2_net :=
  r ← nn_replicas n !! i;
  match n2_step r t with
  | Ok (r', fx) => Some (mkN2Net (<[i := r']> (nn_replicas n)) (nn_soup n ++ n2_sends fx))
  | _ => None
  end.
(** a message reaches [run] only through the network *)
Definition internal (t : n2_turn) : bool := match t with TRunMsg _ => false | _ => true end.
Definition n2_net_step (n : n2_net) (a : n2_action) : option n2_net :=
  match a with
  | NTurn i t => if internal t then n2_net_turn n i t else None
  | NDeliver k =>
      '(p, m) ← nn_soup n !! k;
      if p <? 0 then None
      else n2_net_turn (mkN2Net (nn_replicas n) (delete k (nn_soup n))) (Z.to_nat p) (TRunMsg m)
  end.
Fixpoint n2_net_run (n : n2_net) (l : list n2_action) : option n2_net :=
  match l with [] => Some n | a :: l => n ← n2_net_step n a; n2_net_run n l end.

(** replica [id] of [N] led by [leader], connected to the others, as [New] makes it
    of a quorum file that names the leader *)
Definition n2_replica (N pl leader id : Z) : N2Replica TM :=
  mkN2Replica id N true true ((fun j => negb (j =? id)) <$> seqZ 0 N) InitState leader leader NORMAL (leader =? id) 0
    ∅ ∅ ∅ ∅ [] (NewBatcher 16) ∅ (NewMajorityOf N) (NewQuorumSet (Z.quot N 2 + 1) N) [] [] pl 0 [].
Definition n2_net_init (N pl leader : Z) : n2_net := mkN2Net (n2_replica N pl leader <$> seqZ 0 N) [].

(** the proposals that the leader has taken, in the order of its [run] *)
Definition led (leader : Z) (run : list n2_action) : list GPropose :=
  omap (fun a => match a with
                 | NTurn i (TRunPropose _ p) => if Z.of_nat i =? leader then Some p else None
                 | _ => None
                 end) run.

(** the store after commands are executed in order; [None]: one panics *)
Fixpoint execute_list (cmds : list Command) (st : tm_carrier TM) : option (tm_carrier TM) :=
  match cmds with [] => Some st | c :: cmds => '(_, st) ← Execute c st; execute_list cmds st end.

Lemma execute_list_app a b st : execute_list (a ++ b) st = (st ← execute_list a st; execute_list b st).
Proof.
  revert st. induction a as [|c a IH]; intros st; cbn; [done|]. destruct (Execute c st) as [[v st']|]; cbn; [apply IH|done].
Qed.
End net.
Arguments n2_net : clear implicits.
