(* ===== verification/N2Inv.v ===== *)
(** What holds of a replica of the N2Paxos baseline between its turns, relative to the
    proposals [ps] that the leader has numbered so far and to the slots that other
    replicas have accepted ([A j s]: replica [j] has accepted slot [s]). *)
From stdpp Require Import gmap list.
From S2P Require Import Prelude WireBase Wire State Hook QuorumSets GobWire DefsWire Handlers N2Wire N2Paxos.

Definition prop_at (ps : list GPropose) (s : Z) : option GPropose :=
  if s <? 0 then None else ps !! Z.to_nat s.

Lemma prop_at_range ps s p : prop_at ps s = Some p -> 0 <= s < Z.of_nat (length ps).
Proof. unfold prop_at. destruct (Z.ltb_spec s 0); [done|]. intros Hp. apply lookup_lt_Some in Hp. lia. Qed.
Lemma prop_at_app ps qs s p : prop_at ps s = Some p -> prop_at (ps ++ qs) s = Some p.
Proof. unfold prop_at. destruct (s <? 0); [done|]. apply lookup_app_l_Some. Qed.
Lemma prop_at_last ps p : prop_at (ps ++ [p]) (Z.of_nat (length ps)) = Some p.
Proof.
  unfold prop_at. rewrite (proj2 (Z.ltb_ge _ _)) by lia. rewrite Nat2Z.id, lookup_app_r, Nat.sub_diag by lia. done.
Qed.

(** the messages by which a descriptor is started and ended *)
Definition marked (m : desc_msg) : bool := match m with DPropose _ | DSlot _ => true | _ => false end.
Definition marks (l : list desc_msg) : list desc_msg := filter (fun m => marked m = true) l.

Lemma marks_app a b : marks (a ++ b) = marks a ++ marks b.
Proof. apply filter_app. Qed.
Lemma marks_nil l : marks l = [] -> forall m, m ∈ l -> marked m = false.
Proof.
  intros Hl m Hm. destruct (marked m) eqn:E; [|done]. assert (H : m ∈ marks l) by (by apply list_elem_of_filter).
  rewrite Hl in H. by apply elem_of_nil in H.
Qed.
Lemma until_slot_marks l s : marks l = [] -> until_slot (l ++ [DSlot s]) = Ok (s, []).
Proof.
  intros Hl. pose proof (marks_nil l Hl) as Hm. clear Hl. induction l as [|m l IH]; [done|].
  pose proof (Hm m ltac:(set_solver)) as H0.
  destruct m; cbn in H0; try done; cbn [app until_slot]; apply IH; intros x Hx; apply Hm; set_solver.
Qed.

Section inv.
Context {TM : Treemap Value} (ps : list GPropose) (A : Z -> Z -> Prop).
Implicit Types r : N2Replica TM.
Implicit Types d : commandDesc.

Definition good2A (m : M2A) : Prop :=
  exists p, prop_at ps (m2a_CmdSlot m) = Some p /\ m2a_Cmd m = gp_Command p /\ m2a_CmdId m = commandId_of p.
(** the replica has accepted the slot's command *)
Definition known r (s : Z) : Prop := exists p, prop_at ps s = Some p /\ is_Some (n_slots r !! commandId_of p).
Definition acc r (j s : Z) : Prop := A j s \/ (j = n_Id r /\ known r s).
Definition good2B r (m : M2B) : Prop := acc r (m2b_Replica m) (m2b_CmdSlot m).
(** a quorum has accepted the slot *)
Definition voted r (s : Z) : Prop :=
  exists q, NoDup q /\ Size (n_AQ r) <= Z.of_nat (length q) /\ Forall (fun j => acc r j s) q.

Definition plain r (m : desc_msg) : Prop :=
  match m with
  | D2A m => n_isLeader r = false /\ good2A m
  | D2B m => good2B r m
  | DDeliver => True
  | _ => False
  end.

Definition mark_ok r (s : Z) d (l : list desc_msg) : Prop :=
  match l with
  | [] => True
  | [DPropose p] => n_isLeader r = true /\ prop_at ps s = Some p /\ has_payload (cd_cmdId d) = false
  | [DSlot x] => x = s /\ s ∈ n_delivered r
  | _ => False
  end.

Record desc_ok r (s : Z) d : Prop := {
  do_slot : cd_cmdSlot d = s;
  do_msgs : forall m, m ∈ cd_msgs d -> marked m = false -> plain r m;
  do_marks : mark_ok r s d (marks (cd_msgs d));
  do_payload : has_payload (cd_cmdId d) = true ->
    exists p, prop_at ps s = Some p /\ cd_cmd d = gp_Command p /\ cd_cmdId d = commandId_of p;
  do_hook : forall cf, cd_afterPayload d = Some cf ->
    oc_cond cf = has_payload /\ (oc_funs_num cf <= length (oc_funs cf))%nat /\ Forall (eq s) (take (oc_funs_num cf) (oc_funs cf));
  do_sets : forall ms, cd_twoBs d = Some ms ->
    ms_q ms = n_AQ r /\ ms_leaderMsg ms = None /\ forall j m, ms_msgs ms !! j = Some m -> acc r j s;
  do_phase : cd_phase d = COMMIT -> voted r s }.

Definition good_arg r (arg : SendArg M2s unit) : Prop :=
  sa_sendType arg = SEND_ALL /\ Forall good2A (m2s_TwoAs (sa_msg arg)) /\ Forall (good2B r) (m2s_TwoBs (sa_msg arg)) /\
  (n_isLeader r = false -> m2s_TwoAs (sa_msg arg) = []).

Record rep_ok r : Prop := {
  ro_descs : forall s d, n_cmdDescs r !! s = Some d -> desc_ok r s d;
  ro_pool : Forall (fun d => Forall (plain r) (cd_msgs d)) (n_descPool r);
  ro_todo : Forall (fun sm => plain r sm.2) (n_todo r);
  ro_twoAs : Forall (fun op => good2A (bo_msg op) /\ bo_sendToClient op = false) (b_twoAs (n_batcher r));
  ro_twoBs : Forall (fun op => good2B r (bo_msg op) /\ bo_sendToClient op = false) (b_twoBs (n_batcher r));
  ro_leads : n_isLeader r = false -> b_twoAs (n_batcher r) = [];
  ro_sender : Forall (good_arg r) (n_sender r);
  ro_executed : exists k, (k <= length ps)%nat /\ (forall s, s ∈ n_delivered r <-> 0 <= s < Z.of_nat k) /\
    execute_list (gp_Command <$> take k ps) InitState = Some (n_State r);
  ro_voted : n_isLeader r = false -> forall s, s ∈ n_delivered r -> voted r s }.

(** what turns do not change, and what only grows *)
Record later r r' : Prop := {
  la_Id : n_Id r' = n_Id r;
  la_leader : n_isLeader r' = n_isLeader r;
  la_AQ : n_AQ r' = n_AQ r;
  la_N : n_N r' = n_N r;
  la_Alive : n_Alive r' = n_Alive r;
  la_last : n_lastCmdSlot r' = n_lastCmdSlot r;
  la_slots : forall c, is_Some (n_slots r !! c) -> is_Some (n_slots r' !! c);
  la_delivered : forall s, s ∈ n_delivered r -> s ∈ n_delivered r' }.

Lemma later_refl r : later r r.
Proof. by split. Qed.
Lemma later_trans r1 r2 r3 : later r1 r2 -> later r2 r3 -> later r1 r3.
Proof. intros [] []. split; try congruence; auto. Qed.

Lemma acc_later r r' j s : later r r' -> acc r j s -> acc r' j s.
Proof.
  intros L [H|[-> (p & Hp & Hs)]]; [by left|]. right. split; [by rewrite (la_Id _ _ L)|].
  exists p. split; [done|]. by apply (la_slots _ _ L).
Qed.
Lemma voted_later r r' s : later r r' -> voted r s -> voted r' s.
Proof.
  intros L (q & Hq & Hn & Ha). exists q. rewrite (la_AQ _ _ L). split_and!; [done|done|].
  eapply Forall_impl; [exact Ha|]. intros j. by apply acc_later.
Qed.
Lemma plain_later r r' m : later r r' -> plain r m -> plain r' m.
Proof.
  intros L. destruct m; cbn; try done; [by rewrite (la_leader _ _ L)|by apply acc_later].
Qed.
Lemma mark_later r r' s d l : later r r' -> mark_ok r s d l -> mark_ok r' s d l.
Proof.
  intros L. destruct l as [|[p|?|?| |x] [|]]; cbn; try done; [by rewrite (la_leader _ _ L)|].
  intros [-> H]. split; [done|]. by apply (la_delivered _ _ L).
Qed.
Lemma desc_later r r' s d : later r r' -> desc_ok r s d -> desc_ok r' s d.
Proof.
  intros L [D1 D2 D3 D4 D5 D6 D7]. split; [done| | |done|done| |].
  - intros m Hm Hu. by apply (plain_later r), D2.
  - by apply (mark_later r).
  - intros ms Hms. destruct (D6 ms Hms) as (H1 & H2 & H3). rewrite (la_AQ _ _ L). split_and!; [done|done|].
    intros j m Hm. apply (acc_later r); eauto.
  - intros Hc. by apply (voted_later r), D7.
Qed.
Lemma arg_later r r' arg : later r r' -> good_arg r arg -> good_arg r' arg.
Proof.
  intros L (H1 & H2 & H3 & H4). split_and!; [done|done| |by rewrite (la_leader _ _ L)].
  eapply Forall_impl; [exact H3|]. intros m. by apply acc_later.
Qed.

(** a replica that differs only in what the invariant does not read *)
Lemma rep_frame r r' : rep_ok r -> later r r' ->
  n_cmdDescs r' = n_cmdDescs r -> n_descPool r' = n_descPool r -> n_todo r' = n_todo r -> n_batcher r' = n_batcher r ->
  n_sender r' = n_sender r -> n_delivered r' = n_delivered r -> n_State r' = n_State r -> rep_ok r'.
Proof.
  intros [R1 R2 R3 R4 R5 R6 R7 R8 R9] L E1 E2 E3 E4 E5 E6 E7. split.
  - rewrite E1. intros s d Hd. by apply (desc_later r), R1.
  - rewrite E2. eapply Forall_impl; [exact R2|]. intros d Hd. eapply Forall_impl; [exact Hd|]. intros m. by apply plain_later.
  - rewrite E3. eapply Forall_impl; [exact R3|]. intros m. by apply plain_later.
  - by rewrite E4.
  - rewrite E4. eapply Forall_impl; [exact R5|]. intros op [H1 H2]. split; [by apply (acc_later r)|done].
  - rewrite E4, (la_leader _ _ L). exact R6.
  - rewrite E5. eapply Forall_impl; [exact R7|]. intros arg. by apply arg_later.
  - by rewrite E6, E7.
  - rewrite E6, (la_leader _ _ L). intros Hl s Hs. by apply (voted_later r), R9.
Qed.
End inv.

(** * The handlers of the N2Paxos baseline keep the replica's invariant, from the closure
    of [deliver] up to the turns of its goroutines. *)

Section steps.
Context {TM : Treemap Value} (ps : list GPropose) (A : Z -> Z -> Prop).
Implicit Types r : N2Replica TM.
Implicit Types d : commandDesc.
#[local] Abbreviation rep_ok := (rep_ok ps A).
#[local] Abbreviation desc_ok := (desc_ok ps A).
#[local] Abbreviation voted := (voted ps A).
#[local] Abbreviation plain := (plain ps A).

Ltac same_later := split; rsimpl; try done; auto.

(** a handler's result; it sends nothing to a peer itself *)
Definition kept r (s : Z) r' d' (fx : list n2_effect) : Prop :=
  rep_ok r' /\ desc_ok r' s d' /\ later r r' /\ n2_sends fx = [].

Lemma kept_refl r s d : rep_ok r -> desc_ok r s d -> kept r s r d [].
Proof. intros H1 H2. split_and!; [done|done|apply later_refl|done]. Qed.
Lemma n2_sends_app a b : n2_sends (a ++ b) = n2_sends a ++ n2_sends b.
Proof. apply omap_app. Qed.
Lemma kept_trans r1 r2 r3 s d2 d3 fx fx' : kept r1 s r2 d2 fx -> kept r2 s r3 d3 fx' -> kept r1 s r3 d3 (fx ++ fx').
Proof.
  intros (A1 & A2 & A3 & A4) (B1 & B2 & B3 & B4). split_and!; [done|done|by eapply later_trans|].
  by rewrite n2_sends_app, A4, B4.
Qed.

(** ** The end of a descriptor *)

Lemma retire_kept r hs d s r' d' : rep_ok r -> desc_ok r s d -> marks (cd_msgs d) = [] ->
  retire r hs d s = Ok (r', d') -> kept r s r' d' [] /\ cd_cmdId d' = cd_cmdId d.
Proof.
  intros R D Hm. unfold retire. destruct (_ || _); [done|]. intros [= <- <-].
  set (d' := d <| cd_active := false |>). assert (D' : desc_ok r s d') by (destruct D; by split).
  set (r1 := (r <| n_history ::= _ |>) <| n_cmdDescs ::= delete s |>).
  assert (L1 : later r r1) by (unfold r1; same_later).
  assert (R1 : rep_ok r1).
  { apply (rep_frame ps A (r <| n_cmdDescs ::= delete s |>)); [|by unfold r1; same_later|by unfold r1; rsimpl..].
    pose proof R as [Q1 Q2 Q3 Q4 Q5 Q6 Q7 Q8 Q9]. assert (L : later r (r <| n_cmdDescs ::= delete s |>)) by same_later.
    split; rsimpl; try done.
    intros s0 d0 Hd. apply lookup_delete_Some in Hd as [_ Hd]. by apply (desc_later ps A r), Q1. }
  clearbody r1. assert (L2 : later r1 (freeDesc r1 d')) by (unfold freeDesc; destruct (_ <? _); same_later).
  split; [|done]. split_and!; [|by apply (desc_later ps A r1), (desc_later ps A r)|by eapply later_trans|done].
  unfold freeDesc in *. destruct (0 <? n_poolLevel r1); [|done]. destruct R1 as [Q1 Q2 Q3 Q4 Q5 Q6 Q7 Q8 Q9].
  split; rsimpl; try done.
  - intros s0 d0 Hd. by apply (desc_later ps A r1), Q1.
  - apply Forall_app. split; [done|]. apply Forall_singleton, Forall_forall. intros m Hin. unfold d' in Hin.
    change (cd_msgs (d <| cd_active := false |>)) with (cd_msgs d) in Hin.
    apply (plain_later ps A r); [by eapply later_trans|]. apply (do_msgs _ _ _ _ _ D); [done|]. by eapply marks_nil.
Qed.

(** ** Delivery *)

Lemma deliverable_Some r d s p : deliverable r d s = Some p ->
  (s ∉ n_delivered r) /\ (n_isLeader r = false -> cd_phase d = COMMIT) /\ (s <= 0 \/ s - 1 ∈ n_delivered r).
Proof.
  unfold deliverable. case_bool_decide as Hs; [done|]. destruct (n_Exec r); [|done]. cbn [orb negb].
  intros H. split_and!; [done| |].
  - intros Hl. rewrite Hl in H. destruct (bool_decide (cd_phase d = COMMIT)) eqn:Ep; [by apply bool_decide_eq_true in Ep|done].
  - destruct (negb _ && _); [done|]. destruct (Z.ltb_spec 0 s); [|by left]. right. cbn [andb] in H.
    by case_bool_decide.
Qed.

Lemma deliver_next r d s p : rep_ok r -> desc_ok r s d -> has_payload (cd_cmdId d) = true -> deliverable r d s = Some p ->
  forall v st, Execute (cd_cmd d) (n_State r) = Some (v, st) ->
  let r' := (r <| n_delivered ::= fun x => {[s]} ∪ x |>) <| n_State := st |> <| n_deliverChan ::= fun l => l ++ [s + 1] |> in
  rep_ok r' /\ later r r'.
Proof.
  intros R D Hp Hd v st He r'. apply deliverable_Some in Hd as (Hnew & Hphase & Hprev).
  assert (L : later r r') by (unfold r'; split; rsimpl; try done; set_solver). split; [|exact L].
  destruct (do_payload _ _ _ _ _ D Hp) as (p0 & Hat & Hcmd & _). pose proof (prop_at_range _ _ _ Hat) as Hr.
  pose proof R as [Q1 Q2 Q3 Q4 Q5 Q6 Q7 (k & Hk & Hdel & Hex) Q9].
  assert (Hsk : s = Z.of_nat k) by (rewrite Hdel in Hnew, Hprev; lia).
  split; unfold r'; rsimpl; try done.
  - intros s0 d0 Hd0. by apply (desc_later ps A r), Q1.
  - exists (S k). split; [lia|]. split.
    + intros s0. rewrite elem_of_union, elem_of_singleton, Hdel. lia.
    + unfold prop_at in Hat. destruct (s <? 0); [done|]. rewrite Hsk, Nat2Z.id in Hat.
      erewrite take_S_r by done. rewrite fmap_app, execute_list_app, Hex. cbn. by rewrite <- Hcmd, He.
  - intros Hl s0 [Hs0|Hs0]%elem_of_union; apply (voted_later ps A r); try done; [|by apply Q9].
    apply elem_of_singleton in Hs0 as ->. apply (do_phase _ _ _ _ _ D). auto.
Qed.

Lemma send_msg_Ok d m d' : send_msg d m = Ok d' -> d' = d <| cd_msgs ::= fun l => l ++ [m] |>.
Proof. unfold send_msg. destruct (_ <=? _); [done|]. by intros [= <-]. Qed.

(** [DSlot] is put in the descriptor's channel *)
Lemma desc_slot r s d : desc_ok r s d -> s ∈ n_delivered r -> marks (cd_msgs d) = [] ->
  desc_ok r s (d <| cd_msgs ::= fun l => l ++ [DSlot s] |>).
Proof.
  intros [D1 D2 D3 D4 D5 D6 D7] Hs Hm. split; try done.
  - rsimpl. intros m [Hin|Hin%list_elem_of_singleton]%elem_of_app Hu; [by apply D2|by subst].
  - rsimpl. rewrite marks_app, Hm. by split.
Qed.

Lemma deliver_body_kept r d s r' d' fx : rep_ok r -> desc_ok r s d -> has_payload (cd_cmdId d) = true ->
  deliver_body r d s = Ok (r', d', fx) -> kept r s r' d' fx /\ cd_cmdId d' = cd_cmdId d.
Proof.
  intros R D Hp. unfold deliver_body. destruct (deliverable r d s) as [p|] eqn:Ed.
  2:{ intros H. injection H as <- <- <-. split; [by apply kept_refl|done]. }
  intros H. apply obind_Ok in H as ([v st] & He & H). cbn [cd_cmd] in He. rsimpl.
  apply deref_Ok in He. change (Execute (cd_cmd d) (n_State r) = Some (v, st)) in He.
  pose proof (deliver_next r d s p R D Hp Ed v st He) as [R1 L1]. cbv zeta in R1, L1.
  set (r1 := (r <| n_delivered ::= _ |>) <| n_State := st |> <| n_deliverChan ::= _ |>) in *.
  apply deliverable_Some in Ed as (Hnew & _). set (d1 := d <| cd_propose := Some p |>) in *.
  assert (D1 : desc_ok r1 s d1) by (apply (desc_later ps A r); [done|]; destruct D; by split).
  assert (Hs1 : s ∈ n_delivered r1) by (unfold r1; rsimpl; set_solver).
  assert (Hm : marks (cd_msgs d1) = []).
  { change (cd_msgs d1) with (cd_msgs d). pose proof (do_marks _ _ _ _ _ D) as Hm.
    destruct (marks (cd_msgs d)) as [|[q| | | |x] [|]]; cbn in Hm; try done; [|by destruct Hm as [_ ?]].
    destruct Hm as (_ & _ & Hm). congruence. }
  clearbody r1. apply obind_Ok in H as (d2 & Hs & H). apply send_msg_Ok in Hs.
  assert (D2 : desc_ok r1 s d2) by (rewrite Hs; by apply desc_slot).
  assert (Hmsgs : cd_msgs d2 = cd_msgs d1 ++ [DSlot s]) by (by rewrite Hs).
  assert (Hid : cd_cmdId d2 = cd_cmdId d) by (by rewrite Hs).
  clearbody d1. clear Hs. cbv zeta in H. set (fx0 := if _ && _ then _ else _) in H.
  assert (Hfx : n2_sends fx0 = []) by (unfold fx0; by destruct (_ && _)). clearbody fx0.
  destruct (cd_seq d2).
  - apply obind_Ok in H as ([hs rest] & Hu & H). rewrite Hmsgs, until_slot_marks in Hu by done. injection Hu as <- <-.
    apply obind_Ok in H as ([r2 d3] & Hr & H). injection H as <- <- <-.
    assert (D3 : desc_ok r1 s (d2 <| cd_msgs := [] |>)).
    { destruct D2 as [E1 E2 E3 E4 E5 E6 E7]. split; try done. cbn. by intros m Hin%elem_of_nil. }
    destruct (retire_kept _ _ _ _ _ _ R1 D3 eq_refl Hr) as [(K1 & K2 & K3 & _) K5].
    split; [|by rewrite K5]. split_and!; [done|done|by eapply later_trans|done].
  - injection H as <- <- <-. split; [|done]. by split_and!.
Qed.

Lemma deliver_all_kept slots : forall r d s r' d' fx, rep_ok r -> desc_ok r s d -> has_payload (cd_cmdId d) = true ->
  Forall (eq s) slots -> deliver_all r d slots = Ok (r', d', fx) -> kept r s r' d' fx.
Proof.
  induction slots as [|x slots IH]; intros r d s r' d' fx R D Hp Hs; cbn [deliver_all].
  - intros [= <- <- <-]. by apply kept_refl.
  - apply Forall_cons in Hs as [<- Hs]. intros H. apply obind_Ok in H as ([[r1 d1] fx1] & H1 & H).
    apply obind_Ok in H as ([[r2 d2] fx2] & H2 & H). injection H as <- <- <-.
    destruct (deliver_body_kept _ _ _ _ _ _ R D Hp H1) as [K1 E1]. eapply kept_trans; [exact K1|].
    destruct K1 as (R1 & D1 & _). eapply IH; [done|done|by rewrite E1|done|done].
Qed.

(** a new condition variable does not matter to the rest *)
Lemma desc_hook r s d cf : desc_ok r s d -> oc_cond cf = has_payload -> (oc_funs_num cf <= length (oc_funs cf))%nat ->
  Forall (eq s) (take (oc_funs_num cf) (oc_funs cf)) -> desc_ok r s (d <| cd_afterPayload := Some cf |>).
Proof. intros [D1 D2 D3 D4 D5 D6 D7] H1 H2 H3. split; try done. cbn. by intros cf' [= <-]. Qed.

Lemma deliver_kept r d s r' d' fx : rep_ok r -> desc_ok r s d -> deliver r d s = Ok (r', d', fx) -> kept r s r' d' fx.
Proof.
  intros R D H. unfold deliver in H. apply obind_Ok in H as (cf & Hcf & H). apply deref_Ok in Hcf.
  destruct (do_hook _ _ _ _ _ D cf Hcf) as (Hc & Hn & Hf).
  unfold OptCondF_Call in H. destruct (oc_cond cf (cd_cmdId d)) eqn:Ec.
  - eapply deliver_all_kept; [done| | | |exact H].
    + apply desc_hook; cbn; [done|done|lia|by apply Forall_nil].
    + cbn. by rewrite <- Hc.
    + apply Forall_app. split; [done|]. by constructor.
  - cbn [deliver_all] in H. injection H as <- <- <-. apply kept_refl; [done|]. apply desc_hook; cbn; [done|done| |].
    + destruct (Nat.leb_spec (length (oc_funs cf)) (oc_funs_num cf)); rewrite ?length_app, ?length_insert; cbn; lia.
    + destruct (Nat.leb_spec (length (oc_funs cf)) (oc_funs_num cf)) as [Hle|Hlt].
      * rewrite take_ge by (rewrite length_app; cbn; lia). rewrite take_ge in Hf by lia.
        apply Forall_app. split; [done|]. by constructor.
      * rewrite (take_S_r _ _ s) by (rewrite list_lookup_insert_eq; [done|lia]). rewrite take_insert_ge by lia.
        apply Forall_app. split; [done|]. by constructor.
Qed.

(** ** Votes *)

Lemma twoBs_kept fxs : forall r d s r' d' fx, rep_ok r -> desc_ok r s d ->
  (forall l m, Handler l m ∈ fxs -> voted r s) -> twoBs_effects r d fxs = Ok (r', d', fx) -> kept r s r' d' fx.
Proof.
  induction fxs as [|e fxs IH]; intros r d s r' d' fx R D Hv; cbn [twoBs_effects].
  - intros H. injection H as <- <- <-. by apply kept_refl.
  - destruct e as [m|l ms].
    + apply IH; [done|done|]. intros l ms Hin. apply (Hv l ms). set_solver.
    + intros H. apply obind_Ok in H as ([[r1 d1] fx1] & H1 & H). apply obind_Ok in H as ([[r2 d2] fx2] & H2 & H).
      injection H as <- <- <-.
      assert (D0 : desc_ok r s (d <| cd_phase := COMMIT |>)).
      { destruct D as [E1 E2 E3 E4 E5 E6 E7]. split; try done. intros _. apply (Hv l ms). set_solver. }
      change (cd_cmdSlot (d <| cd_phase := COMMIT |>)) with (cd_cmdSlot d) in H1. rewrite (do_slot _ _ _ _ _ D) in H1.
      pose proof (deliver_kept _ _ _ _ _ _ R D0 H1) as K1. eapply kept_trans; [exact K1|].
      destruct K1 as (R1 & D1 & L1 & _). eapply IH; [done|done| |exact H2].
      intros l0 m0 Hin. apply (voted_later ps A r); [done|]. apply (Hv l0 m0). set_solver.
Qed.

(** a vote is counted, and the handler runs only when a quorum has voted *)
Lemma Add_voted r s d ms j m ms' fx b : desc_ok r s d -> cd_twoBs d = Some ms -> acc ps A r j s ->
  Add ms j false m = (ms', fx, b) ->
  desc_ok r s (d <| cd_twoBs := Some ms' |>) /\ forall l x, Handler l x ∈ fx -> voted r s.
Proof.
  intros D Hms Hj. destruct (do_sets _ _ _ _ _ D ms Hms) as (Hq & Hl & Hm). unfold Add, rejected.
  rewrite Hl. destruct (Contains (ms_q ms) j); cbn [negb orb andb].
  2:{ intros H. injection H as <- <- <-. split; [|by intros ?? ?%elem_of_nil].
      destruct D as [E1 E2 E3 E4 E5 E6 E7]. split; try done. cbn. intros ? [= <-]. by split_and!. }
  destruct (ms_accept ms m None).
  - intros H. injection H as <- <- <-. set (ms' := mkMsgSet _ _ _ _).
    assert (Hm' : forall i x, ms_msgs ms' !! i = Some x -> acc ps A r i s).
    { intros i x. unfold ms'. cbn. intros [[<- _]|[_ Hi]]%lookup_insert_Some; [done|by eapply Hm]. }
    assert (Hq' : ms_q ms' = n_AQ r) by done. assert (Hl' : ms_leaderMsg ms' = None) by done. clearbody ms'. split.
    + destruct D as [E1 E2 E3 E4 E5 E6 E7]. split; try done. cbn. intros ? [= <-]. by split_and!.
    + intros l x. cbn [app]. destruct (enough ms') eqn:He; [|by intros ?%elem_of_nil]. intros _.
      exists (map_to_list (ms_msgs ms')).*1. split_and!; [apply NoDup_fst_map_to_list| |].
      * unfold enough in He. rewrite Hl', andb_false_r, orb_false_r, Hq' in He. rewrite length_fmap, length_map_to_list. lia.
      * apply Forall_forall. intros i Hi. apply list_elem_of_fmap in Hi as ([i' x'] & -> & Hi).
        apply elem_of_map_to_list in Hi. by eapply Hm'.
  - intros H. injection H as <- <- <-. split.
    + destruct D as [E1 E2 E3 E4 E5 E6 E7]. split; try done. cbn. intros ? [= <-]. by split_and!.
    + intros l x. cbn [app]. rewrite elem_of_cons. intros [?|Hx]; [done|].
      destruct (enough ms) eqn:He; [|by apply elem_of_nil in Hx].
      exists (map_to_list (ms_msgs ms)).*1. split_and!; [apply NoDup_fst_map_to_list| |].
      * unfold enough in He. rewrite Hl, andb_false_r, orb_false_r, Hq in He. rewrite length_fmap, length_map_to_list. lia.
      * apply Forall_forall. intros i Hi. apply list_elem_of_fmap in Hi as ([i' x'] & -> & Hi).
        apply elem_of_map_to_list in Hi. by eapply Hm.
Qed.

Lemma handle2B_kept r msg d s r' d' fx : rep_ok r -> desc_ok r s d -> good2B ps A r msg -> m2b_CmdSlot msg = s ->
  handle2B r msg d = Ok (r', d', fx) -> kept r s r' d' fx.
Proof.
  intros R D Hg <-. unfold handle2B. destruct (_ || _).
  { intros H. injection H as <- <- <-. by apply kept_refl. }
  intros H. apply obind_Ok in H as (ms & Hms & H). apply deref_Ok in Hms.
  destruct (Add ms (m2b_Replica msg) false msg) as [[ms' fx'] b] eqn:Ea.
  destruct (Add_voted _ _ _ _ _ _ _ _ _ D Hms Hg Ea) as [D' Hv]. by eapply twoBs_kept.
Qed.

(** ** Accepting a command *)

Lemma batch_send_Ok {M} size (c : list (BatcherOp M)) op c' : batch_send size c op = Ok c' -> c' = c ++ [op].
Proof. unfold batch_send. destruct (_ <=? _); [done|]. by intros [= <-]. Qed.

Lemma Send2B_rep r m b : rep_ok r -> good2B ps A r m -> Send2B (n_batcher r) m = Ok b ->
  rep_ok (r <| n_batcher := b |>) /\ later r (r <| n_batcher := b |>).
Proof.
  intros R Hm H. unfold Send2B, batch_2B in H. apply obind_Ok in H as (l & Hl & H). injection H as <-.
  apply batch_send_Ok in Hl as ->. split; [|same_later]. destruct R as [Q1 Q2 Q3 Q4 Q5 Q6 Q7 Q8 Q9].
  split; rsimpl; try done; cbn.
  - intros s d Hd. apply (desc_later ps A r); [same_later|by apply Q1].
  - apply Forall_app. split; [exact Q5|]. by apply Forall_singleton.
Qed.
Lemma Send2A_rep r m b : rep_ok r -> good2A ps m -> n_isLeader r = true -> Send2A (n_batcher r) m = Ok b ->
  rep_ok (r <| n_batcher := b |>) /\ later r (r <| n_batcher := b |>).
Proof.
  intros R Hm Hlead H. unfold Send2A, batch_2A in H. apply obind_Ok in H as (l & Hl & H). injection H as <-.
  apply batch_send_Ok in Hl as ->. split; [|same_later]. destruct R as [Q1 Q2 Q3 Q4 Q5 Q6 Q7 Q8 Q9].
  split; rsimpl; try done; cbn.
  - intros s d Hd. apply (desc_later ps A r); [same_later|by apply Q1].
  - apply Forall_app. split; [exact Q4|]. by apply Forall_singleton.
  - congruence.
Qed.

Lemma slots_later r c s : later r (r <| n_slots ::= <[c := s]> |>).
Proof. same_later. intros c' Hc'. rewrite lookup_insert. case_decide; [by eexists|done]. Qed.

(** the descriptor learns its command *)
Lemma desc_command r s d p cmd id : desc_ok r s d -> prop_at ps s = Some p -> cmd = gp_Command p -> id = commandId_of p ->
  (forall q, marks (cd_msgs d) <> [DPropose q]) ->
  desc_ok r s (d <| cd_cmd := cmd |> <| cd_cmdId := id |> <| cd_cmdSlot := s |>).
Proof.
  intros [D1 D2 D3 D4 D5 D6 D7] Hp -> -> Hn. split; try done.
  - rsimpl. destruct (marks (cd_msgs d)) as [|[q| | | |x] [|]]; try done. by destruct (Hn q).
  - intros _. by exists p.
Qed.

Lemma handle2A_kept r msg d s r' d' fx : rep_ok r -> desc_ok r s d -> good2A ps msg -> m2a_CmdSlot msg = s ->
  (forall q, marks (cd_msgs d) <> [DPropose q]) -> handle2A r msg d = Ok (r', d', fx) -> kept r s r' d' fx.
Proof.
  intros R D (p & Hp & Hc & Hi) Hs Hn. rewrite Hs in Hp. unfold handle2A. destruct (_ || _).
  { intros H. injection H as <- <- <-. by apply kept_refl. }
  cbv zeta. rewrite Hs. set (d1 := (d <| cd_cmd := _ |>) <| cd_cmdId := _ |> <| cd_cmdSlot := s |>).
  set (r1 := r <| n_slots ::= _ |>).
  assert (L1 : later r r1) by apply slots_later.
  assert (R1 : rep_ok r1) by (by apply (rep_frame ps A r)).
  assert (D1 : desc_ok r1 s d1).
  { apply (desc_later ps A r); [done|]. by eapply desc_command. }
  assert (K1 : known ps r1 s).
  { exists p. split; [done|]. unfold r1, d1. rsimpl. rewrite Hi, lookup_insert_eq. by eexists. }
  clearbody r1 d1. destruct (negb (Contains (n_AQ r1) (n_Id r1))).
  - intros H. apply obind_Ok in H as (cf & Hcf & H). apply deref_Ok in Hcf.
    destruct (do_hook _ _ _ _ _ D1 cf Hcf) as (Hcc & Hnn & Hff). unfold OptCondF_Recall in H.
    destruct (Nat.ltb 0 (oc_funs_num cf) && oc_cond cf (cd_cmdId d1)) eqn:Ec.
    + apply andb_true_iff in Ec as [_ Ec]. eapply (kept_trans r r1 _ s d1 _ []).
      { by split_and!. }
      eapply deliver_all_kept; [done| | |exact Hff|exact H].
      * apply desc_hook; cbn; [done|done|lia|by apply Forall_nil].
      * cbn. by rewrite <- Hcc.
    + cbn [deliver_all] in H. injection H as <- <- <-. split_and!; [done|by apply desc_hook|done|done].
  - intros H. apply obind_Ok in H as (b & Hb & H).
    assert (Hown : acc ps A r1 (n_Id r1) s) by (by right).
    destruct (Send2B_rep r1 (mkM2B (n_Id r1) (m2a_Ballot msg) s) _ R1 Hown Hb) as [R2 L2].
    eapply (kept_trans r (r1 <| n_batcher := b |>) _ s d1 _ []).
    { split_and!; [done|by apply (desc_later ps A r1)|by eapply later_trans|done]. }
    apply (handle2B_kept _ (mkM2B (n_Id r1) (m2a_Ballot msg) s) d1); [done|by apply (desc_later ps A r1)| |done|exact H].
    by apply (acc_later ps A r1).
Qed.

Lemma handlePropose_kept r p d s r' d' fx : rep_ok r -> desc_ok r s d -> n_isLeader r = true -> prop_at ps s = Some p ->
  marks (cd_msgs d) = [] -> handlePropose r p d s = Ok (r', d', fx) -> kept r s r' d' fx.
Proof.
  intros R D Hl Hp Hm. unfold handlePropose. destruct (_ || _).
  { intros H. injection H as <- <- <-. by apply kept_refl. }
  intros H. apply obind_Ok in H as (b & Hb & H).
  assert (Hg : good2A ps (mkM2A (n_Id r) (n_ballot r) (gp_Command p) (commandId_of p) s)) by (by exists p).
  destruct (Send2A_rep r _ _ R Hg Hl Hb) as [R1 L1].
  assert (D1 : desc_ok (r <| n_batcher := b |>) s (d <| cd_propose := Some p |>)).
  { apply (desc_later ps A r); [done|]. destruct D; by split. }
  eapply (kept_trans r (r <| n_batcher := b |>) _ s _ _ []); [split_and!; [done|exact D1|done|done]|].
  eapply handle2A_kept; [done|exact D1|exact Hg|done| |exact H].
  intros q. change (cd_msgs (d <| cd_propose := Some p |>)) with (cd_msgs d). by rewrite Hm.
Qed.
End steps.
