(* ===== verification/N2Turns.v ===== *)
(** The turns of an N2Paxos replica's goroutines, and the system of replicas, keep the
    invariant. *)
From stdpp Require Import gmap list.
From S2P Require Import Prelude WireBase Wire State Hook QuorumSets GobWire DefsWire Handlers N2Wire N2Paxos N2Inv.

Section turns.
Context {TM : Treemap Value} (ps : list GPropose) (A : Z -> Z -> Prop).
Implicit Types r : N2Replica TM.
Implicit Types d : commandDesc.
#[local] Abbreviation rep_ok := (rep_ok ps A).
#[local] Abbreviation desc_ok := (desc_ok ps A).
#[local] Abbreviation plain := (plain ps A).
#[local] Abbreviation kept := (kept ps A).

(** what a message needs of the descriptor it is handled with *)
Definition ready r (s : Z) d (m : desc_msg) : Prop :=
  match m with
  | DPropose p => n_isLeader r = true /\ prop_at ps s = Some p /\ marks (cd_msgs d) = []
  | DSlot _ => marks (cd_msgs d) = []
  | _ => plain r m
  end.

Lemma handleMsg_kept r m d s r' d' fx b : rep_ok r -> desc_ok r s d -> ready r s d m ->
  handleMsg r m d s = Ok (r', d', fx, b) -> kept r s r' d' fx.
Proof.
  intros R D Hr. destruct m as [p|m|m| |x]; cbn [handleMsg ready plain] in *; intros H.
  - destruct Hr as (Hl & Hp & Hm). apply obind_Ok in H as ([[r1 d1] fx1] & H1 & H). injection H as <- <- <- <-.
    by eapply handlePropose_kept.
  - destruct Hr as [Hl Hg]. apply obind_Ok in H as ([[r1 d1] fx1] & H1 & H). injection H as <- <- <- <-.
    destruct (Z.eqb_spec (m2a_CmdSlot m) s); [|injection H1 as <- <- <-; by apply kept_refl].
    eapply handle2A_kept; [done|done|exact Hg|done| |exact H1].
    intros q Hq. pose proof (do_marks _ _ _ _ _ D) as Hm. rewrite Hq in Hm. destruct Hm as [Hm _]. congruence.
  - apply obind_Ok in H as ([[r1 d1] fx1] & H1 & H). injection H as <- <- <- <-.
    destruct (Z.eqb_spec (m2b_CmdSlot m) s); [|injection H1 as <- <- <-; by apply kept_refl].
    by eapply handle2B_kept.
  - apply obind_Ok in H as ([[r1 d1] fx1] & H1 & H). injection H as <- <- <- <-. by eapply deliver_kept.
  - apply obind_Ok in H as ([r1 d1] & H1 & H). injection H as <- <- <- <-. by eapply retire_kept.
Qed.

(** a message leaves the channel *)
Lemma desc_pop r s d m rest : desc_ok r s d -> cd_msgs d = m :: rest ->
  let d' := d <| cd_msgs := rest |> in desc_ok r s d' /\ ready r s d' m.
Proof.
  intros [D1 D2 D3 D4 D5 D6 D7] E d'.
  assert (Hm : mark_ok ps r s d (marks rest) /\ (marked m = true -> marks rest = [])).
  { rewrite E in D3. unfold marks in D3. rewrite filter_cons in D3. destruct (decide (marked m = true)) as [Hm|Hm]; [|by split].
    change (mark_ok ps r s d (m :: marks rest)) in D3. destruct (marks rest) as [|x l]; [by split|].
    destruct m; cbn in D3; done. }
  assert (D' : desc_ok r s d').
  { split; try done; unfold d'; rsimpl.
    - intros x Hx. apply D2. rewrite E. set_solver.
    - by destruct Hm. }
  split; [exact D'|]. destruct (marked m) eqn:Em.
  - destruct Hm as [_ Hm]. specialize (Hm eq_refl). rewrite E in D3. unfold marks in D3. rewrite filter_cons_True in D3 by done.
    change (mark_ok ps r s d (m :: marks rest)) in D3. rewrite Hm in D3. destruct m; try done; cbn in D3 |- *; unfold d'; rsimpl.
    by destruct D3 as (? & ? & _).
  - assert (Hp : plain r m) by (apply D2; [rewrite E; set_solver|done]). by destruct m.
Qed.

Lemma put_desc_rep r s d : rep_ok r -> desc_ok r s d -> rep_ok (put_desc r s d) /\ later r (put_desc r s d).
Proof.
  intros R D. unfold put_desc. destruct (cd_active d); [|split; [done|apply later_refl]].
  assert (L : later r (r <| n_cmdDescs ::= <[s := d]> |>)) by (split; rsimpl; done). split; [|done].
  destruct R as [Q1 Q2 Q3 Q4 Q5 Q6 Q7 Q8 Q9]. split; rsimpl; try done.
  intros s0 d0 Hd. apply (desc_later ps A r); [done|]. apply lookup_insert_Some in Hd as [[<- <-]|[_ Hd]]; [done|by apply Q1].
Qed.

(** a new descriptor, whatever the one it is made of *)
Lemma newDesc_rep r choice s r1 d : rep_ok r -> newDesc r choice = (r1, d) ->
  rep_ok r1 /\ later r r1 /\ desc_ok r1 s (d <| cd_cmdSlot := s |>) /\ marks (cd_msgs d) = [] /\
  has_payload (cd_cmdId d) = false /\ n_cmdDescs r1 = n_cmdDescs r.
Proof.
  intros R. unfold newDesc. destruct (allocDesc r choice) as [r0 d0] eqn:Ea. intros H. injection H as <- <-.
  assert (H0 : rep_ok r0 /\ later r r0 /\ Forall (plain r) (cd_msgs d0) /\ n_cmdDescs r0 = n_cmdDescs r).
  { unfold allocDesc in Ea. destruct (0 <? n_poolLevel r).
    2:{ injection Ea as <- <-. split_and!; [done|apply later_refl|by apply Forall_nil|done]. }
    destruct (n_descPool r !! choice) as [d1|] eqn:Ep; injection Ea as <- <-.
    2:{ split_and!; [done|apply later_refl|by apply Forall_nil|done]. }
    assert (L : later r (r <| n_descPool ::= delete choice |>)) by (split; rsimpl; done).
    split_and!; [|done| |done].
    - pose proof R as [Q1 Q2 Q3 Q4 Q5 Q6 Q7 Q8 Q9]. split; rsimpl; try done.
      + intros s0 d0 Hd. by apply (desc_later ps A r), Q1.
      + apply Forall_forall. intros x Hx. assert (Hx' : x ∈ n_descPool r).
        { rewrite <- (take_drop_middle _ _ _ Ep). rewrite delete_take_drop in Hx. set_solver. }
        by apply (proj1 (Forall_forall _ _) Q2).
    - by apply (proj1 (Forall_lookup _ _) (ro_pool _ _ _ R) choice d1). }
  destruct H0 as (R0 & L0 & Hp & Hc). rewrite Forall_forall in Hp.
  assert (Hm : marks (cd_msgs d0) = []).
  { destruct (marks (cd_msgs d0)) as [|x l] eqn:E; [done|]. assert (Hx : x ∈ marks (cd_msgs d0)) by (rewrite E; set_solver).
    apply list_elem_of_filter in Hx as [Hx1 Hx2]. specialize (Hp x Hx2). by destruct x. }
  split_and!; [done|done| |done|done|done]. split; try done; rsimpl.
  - intros m Hin _. apply (plain_later ps A r); [done|]. by apply Hp.
  - by rewrite Hm.
  - intros cf [= <-]. unfold OptCondF_ReinitCondF. destruct (cd_afterPayload d0) as [[]|]; cbn; split_and!; try done; lia.
  - intros ms [= <-]. unfold ReinitMsgSet, NewMsgSet. destruct (cd_twoBs d0) as [[]|]; cbn; split_and!; try done.
Qed.

(** ** [getCmdDesc] *)

(** what it is called with *)
Definition called r (s : Z) (m : desc_msg) : Prop :=
  match m with
  | DPropose p => n_isLeader r = true /\ prop_at ps s = Some p /\
      forall d, n_cmdDescs r !! s = Some d -> marks (cd_msgs d) = [] /\ has_payload (cd_cmdId d) = false
  | DSlot _ => False
  | _ => plain r m
  end.

Lemma desc_push r s d m : desc_ok r s d -> (marked m = false -> plain r m) ->
  (marked m = true -> marks (cd_msgs d) = [] /\ mark_ok ps r s d [m]) ->
  desc_ok r s (d <| cd_msgs ::= fun l => l ++ [m] |>).
Proof.
  intros [D1 D2 D3 D4 D5 D6 D7] Hu Hm. split; try done; rsimpl.
  - intros x [Hx|Hx%list_elem_of_singleton]%elem_of_app; [by apply D2|]. subst. exact Hu.
  - rewrite marks_app. unfold marks at 2. rewrite filter_cons, filter_nil. destruct (decide (marked m = true)) as [E|E].
    + destruct (Hm E) as [-> H]. exact H.
    + by rewrite app_nil_r.
Qed.

Lemma getCmdDesc_rep r choice s m r' fx b : rep_ok r -> called r s m -> getCmdDesc r choice s m = Ok (r', fx, b) ->
  rep_ok r' /\ later r r' /\ n2_sends fx = [].
Proof.
  intros R Hc. unfold getCmdDesc. case_bool_decide as Hdel.
  { intros H. injection H as <- <- <-. split_and!; [done|apply later_refl|done]. }
  set (rd := match n_cmdDescs r !! s with Some d => (r, d) | None => _ end).
  assert (Hrd : rep_ok rd.1 /\ later r rd.1 /\ desc_ok rd.1 s rd.2 /\
    (forall p, m = DPropose p -> marks (cd_msgs rd.2) = [] /\ has_payload (cd_cmdId rd.2) = false)).
  { unfold rd. destruct (n_cmdDescs r !! s) as [d|] eqn:Ed.
    - split_and!; [done|apply later_refl|by apply (ro_descs _ _ _ R)|]. intros p ->. destruct Hc as (_ & _ & Hc). by apply Hc.
    - destruct (newDesc r choice) as [r1 d1] eqn:En. destruct (newDesc_rep _ _ s _ _ R En) as (R1 & L1 & D1 & Hm & Hp & _).
      set (r2 := if cd_seq _ then r1 else _). assert (L2 : later r1 r2) by (unfold r2; destruct (cd_seq _); split; rsimpl; done).
      assert (R2 : rep_ok r2) by (unfold r2 in *; destruct (cd_seq _); [done|by apply (rep_frame ps A r1)]).
      cbn [fst snd]. split_and!; [done|by eapply later_trans|by apply (desc_later ps A r1)|]. intros p _. by split. }
  clearbody rd. destruct rd as [r1 d1]. cbn [fst snd] in Hrd. destruct Hrd as (R1 & L1 & D1 & Hm).
  assert (Hc1 : ready r1 s d1 m).
  { destruct m as [p|m|m| |x]; cbn [called ready] in *; try done; try (by eapply (plain_later ps A r)).
    destruct Hc as (Hl & Hp & _). destruct (Hm p eq_refl) as [Hm1 _]. by rewrite (la_leader _ _ L1). }
  destruct (cd_seq d1).
  - intros H. apply obind_Ok in H as ([[[r2 d2] fx2] b2] & H2 & H). injection H as <- <- <-.
    destruct (handleMsg_kept _ _ _ _ _ _ _ _ R1 D1 Hc1 H2) as (R2 & D2 & L2 & F2).
    destruct (put_desc_rep _ _ _ R2 D2) as [R3 L3]. split_and!; [done|by do 2 (eapply later_trans; [done|])|done].
  - intros H. apply obind_Ok in H as (d2 & H2 & H). injection H as <- <- <-. apply send_msg_Ok in H2.
    assert (D2 : desc_ok r1 s d2).
    { rewrite H2. apply desc_push; [done| |].
      - intros Hu. by destruct m.
      - intros Hu. destruct m as [p| | | |x]; try done. destruct Hc1 as (Hl & Hp & Hmm). destruct (Hm p eq_refl) as [_ Hpay].
        by split. }
    destruct (put_desc_rep _ _ _ R1 D2) as [R3 L3]. split_and!; [done|by eapply later_trans|done].
Qed.

Lemma handleDesc_rep r s r' fx : rep_ok r -> handleDesc r s = Ok (r', fx) -> rep_ok r' /\ later r r' /\ n2_sends fx = [].
Proof.
  intros R. unfold handleDesc. destruct (n_cmdDescs r !! s) as [d|] eqn:Ed; [|done]. destruct (cd_seq d); [done|].
  destruct (cd_msgs d) as [|m rest] eqn:Em; [done|]. intros H. apply obind_Ok in H as ([[[r1 d1] fx1] b] & H1 & H).
  injection H as <- <-. destruct (desc_pop _ _ _ _ _ (ro_descs _ _ _ R _ _ Ed) Em) as [D1 Hr].
  destruct (handleMsg_kept _ _ _ _ _ _ _ _ R D1 Hr H1) as (R1 & D2 & L1 & F1).
  destruct (put_desc_rep _ _ _ R1 D2) as [R2 L2]. set (r2 := put_desc r1 s d1) in *. clearbody r2.
  assert (L3 : later r2 (r2 <| n_routineCount ::= fun n => n - 1 |>)) by (split; rsimpl; done).
  destruct b; (split_and!; [|by eapply later_trans; [done|]; eapply later_trans|done]); [by apply (rep_frame ps A r2)|done].
Qed.
End turns.

(** * More proposals, more acceptances *)

Section mono.
Context {TM : Treemap Value} (ps qs : list GPropose) (A A' : Z -> Z -> Prop) (HA : forall j s, A j s -> A' j s).
Implicit Types r : N2Replica TM.

Lemma good2A_mono m : good2A ps m -> good2A (ps ++ qs) m.
Proof. intros (p & Hp & H). exists p. split; [by apply prop_at_app|done]. Qed.
Lemma known_mono r s : known ps r s -> known (ps ++ qs) r s.
Proof. intros (p & Hp & H). exists p. split; [by apply prop_at_app|done]. Qed.
Lemma acc_mono r j s : acc ps A r j s -> acc (ps ++ qs) A' r j s.
Proof. intros [H|[-> H]]; [left; auto|right]. split; [done|by apply known_mono]. Qed.
Lemma voted_mono r s : voted ps A r s -> voted (ps ++ qs) A' r s.
Proof. intros (q & H1 & H2 & H3). exists q. split_and!; [done|done|]. eapply Forall_impl; [exact H3|]. intros j. apply acc_mono. Qed.
Lemma plain_mono r m : plain ps A r m -> plain (ps ++ qs) A' r m.
Proof. destruct m; cbn; try done; [|apply acc_mono]. intros [? ?]. split; [done|by apply good2A_mono]. Qed.
Lemma desc_mono r s d : desc_ok ps A r s d -> desc_ok (ps ++ qs) A' r s d.
Proof.
  intros [D1 D2 D3 D4 D5 D6 D7]. split; [done| | | |done| |].
  - intros m Hm Hu. by apply plain_mono, D2.
  - destruct (marks (cd_msgs d)) as [|[p| | | |x] [|]]; try done. destruct D3 as (? & ? & ?). split_and!; [done|by apply prop_at_app|done].
  - intros H. destruct (D4 H) as (p & Hp & H'). exists p. split; [by apply prop_at_app|done].
  - intros ms Hms. destruct (D6 ms Hms) as (H1 & H2 & H3). split_and!; [done|done|]. intros j m Hm. eapply acc_mono; eauto.
  - intros H. by apply voted_mono, D7.
Qed.
Lemma rep_mono r : rep_ok ps A r -> rep_ok (ps ++ qs) A' r.
Proof.
  intros [Q1 Q2 Q3 Q4 Q5 Q6 Q7 (k & Hk & Hd & He) Q9]. split; try done.
  - intros s d Hd'. by apply desc_mono, Q1.
  - eapply Forall_impl; [exact Q2|]. intros d H. eapply Forall_impl; [exact H|]. intros m. apply plain_mono.
  - eapply Forall_impl; [exact Q3|]. intros m. apply plain_mono.
  - eapply Forall_impl; [exact Q4|]. intros m [? ?]. split; [by apply good2A_mono|done].
  - eapply Forall_impl; [exact Q5|]. intros m [? ?]. split; [by apply acc_mono|done].
  - eapply Forall_impl; [exact Q7|]. intros arg (H1 & H2 & H3 & H4). split_and!; [done| | |done].
    + eapply Forall_impl; [exact H2|]. intros m. apply good2A_mono.
    + eapply Forall_impl; [exact H3|]. intros m. apply acc_mono.
  - exists k. split_and!; [rewrite length_app; lia|done|]. by rewrite take_app_le by lia.
  - intros Hl s Hs. by apply voted_mono, Q9.
Qed.
End mono.

(** * The turns *)

Section step.
Context {TM : Treemap Value} (ps : list GPropose) (A : Z -> Z -> Prop).
Implicit Types r : N2Replica TM.

Lemma batcher_rep r side r' : rep_ok ps A r -> batcher_turn r side = Ok r' -> rep_ok ps A r' /\ later r r'.
Proof.
  intros R. unfold batcher_turn. intros H. apply obind_Ok in H as ([cid cl] & Ho & H).
  set (twos := mkM2s _ _) in H. apply obind_Ok in H as (s1 & H1 & H). apply obind_Ok in H as (s2 & H2 & H). injection H as <-.
  unfold SendToAll, SendToAllAndFree, sender_send in H1. destruct (_ <=? _) in H1; [done|]. injection H1 as <-.
  pose proof R as [Q1 Q2 Q3 Q4 Q5 Q6 Q7 Q8 Q9].
  assert (cl = false) as ->.
  { destruct side; apply obind_Ok in Ho as (op & Hop & Ho); injection Ho as <- <-.
    - destruct (b_twoAs (n_batcher r)) as [|op' l]; [done|]. injection Hop as ->. by apply Forall_cons in Q4 as [[_ ?] _].
    - destruct (b_twoBs (n_batcher r)) as [|op' l]; [done|]. injection Hop as ->. by apply Forall_cons in Q5 as [[_ ?] _]. }
  cbn [snd] in H2. injection H2 as <-.
  assert (Harg : good_arg ps A r (mkSendArg twos twosRPC ∅ SEND_ALL 0 (None : option unit))).
  { split_and!; [done| | |]; cbn.
    - apply Forall_fmap. eapply Forall_impl; [exact Q4|]. by intros op [? _].
    - apply Forall_fmap. eapply Forall_impl; [exact Q5|]. by intros op [? _].
    - intros Hl. by rewrite Q6. }
  set (r' := (r <| n_sender := _ |>) <| n_batcher := _ |>). assert (L : later r r') by (split; unfold r'; rsimpl; done).
  split; [|done]. split; unfold r'; rsimpl; try done; try by apply Forall_nil.
  - intros s d Hd. by apply (desc_later ps A r), Q1.
  - apply Forall_app. split; [exact Q7|]. by apply Forall_singleton.
Qed.

(** what a replica sends *)
Definition sent_ok r (pm : Z * n2paxos_msg) : Prop :=
  exists m, pm.2 = N2s m /\ Forall (good2A ps) (m2s_TwoAs m) /\ Forall (good2B ps A r) (m2s_TwoBs m) /\
    0 <= pm.1 /\ n_Alive r !! Z.to_nat pm.1 = Some true /\ (n_isLeader r = false -> m2s_TwoAs m = []).

Lemma sender_rep r s fx : rep_ok ps A r -> queue_turn (n_N r) (n_Alive r) (n_sender r) = Some (s, fx) ->
  let r' := r <| n_sender := s |> in
  rep_ok ps A r' /\ later r r' /\ Forall (sent_ok r') (n2_sends (N2Out <$> fx)).
Proof.
  intros R H r'. unfold queue_turn in H. pose proof R as [Q1 Q2 Q3 Q4 Q5 Q6 Q7 Q8 Q9].
  destruct (n_sender r) as [|arg s0] eqn:Es; [done|]. injection H as -> <-.
  apply Forall_cons in Q7 as [(E1 & H2 & H3 & H4) Q7]. assert (L : later r r') by (split; unfold r'; rsimpl; done).
  split_and!; [|done|].
  - split; unfold r'; rsimpl; try done. intros s1 d Hd. by apply (desc_later ps A r), Q1.
  - apply Forall_forall. intros [p m] Hin. unfold n2_sends in Hin. apply list_elem_of_omap in Hin as (e & He & Hx).
    apply list_elem_of_fmap in He as (o & -> & Ho). unfold send_arg in Ho. rewrite E1 in Ho.
    apply elem_of_app in Ho as [Ho|Ho].
    + unfold sendToAll in Ho. apply list_elem_of_fmap in Ho as (q & -> & Hq). injection Hx as <- <-.
      apply alive_peers_elem in Hq as (Hq & _ & Ha). exists (sa_msg arg). cbn [fst snd].
      split_and!; [done|done|exact H3|lia|exact Ha|exact H4].
    + destruct (sa_free arg); [|by apply elem_of_nil in Ho]. apply list_elem_of_singleton in Ho as ->. done.
Qed.
End step.

(** what reaches [run] from the network *)
Definition wire_ok {TM} ps A (r : N2Replica TM) (t : n2_turn) : Prop :=
  match t with
  | TRunMsg m =>
      exists tw, m = N2s tw /\ Forall (good2A ps) (m2s_TwoAs tw) /\ Forall (good2B ps A r) (m2s_TwoBs tw) /\
        (n_isLeader r = true -> m2s_TwoAs tw = [])
  | _ => True
  end.
(** the proposal a turn takes as the leader *)
Definition leads {TM} (r : N2Replica TM) (t : n2_turn) : list GPropose :=
  match t with TRunPropose _ p => if n_isLeader r then [p] else [] | _ => [] end.

Record grown {TM} (r r' : N2Replica TM) : Prop := {
  gr_Id : n_Id r' = n_Id r;
  gr_leader : n_isLeader r' = n_isLeader r;
  gr_AQ : n_AQ r' = n_AQ r;
  gr_Alive : n_Alive r' = n_Alive r;
  gr_slots : forall c, is_Some (n_slots r !! c) -> is_Some (n_slots r' !! c) }.
Lemma later_grown {TM} (r r' : N2Replica TM) : later r r' -> grown r r'.
Proof. intros []. by split. Qed.

Definition counted {TM} (r : N2Replica TM) (ps : list GPropose) : Prop :=
  n_isLeader r = true -> n_lastCmdSlot r = Z.of_nat (length ps).

Section step2.
Context {TM : Treemap Value} (ps : list GPropose) (A : Z -> Z -> Prop).
Implicit Types r : N2Replica TM.

Definition stepped r r' (new : list GPropose) (fx : list n2_effect) : Prop :=
  rep_ok (ps ++ new) A r' /\ grown r r' /\ counted r' (ps ++ new) /\ Forall (sent_ok (ps ++ new) A r') (n2_sends fx).

Lemma stepped_later r r' fx : counted r ps -> rep_ok ps A r' -> later r r' -> n2_sends fx = [] -> stepped r r' [] fx.
Proof.
  intros Hc R L F. unfold stepped. rewrite app_nil_r, F. split_and!; [done|by apply later_grown| |by apply Forall_nil].
  unfold counted. by rewrite (la_leader _ _ L), (la_last _ _ L).
Qed.

Lemma run_propose_rep r choice p r' fx : rep_ok ps A r -> counted r ps -> run_propose r choice p = Ok (r', fx) ->
  stepped r r' (leads r (TRunPropose choice p)) fx.
Proof.
  intros R Hc. unfold run_propose. cbn [leads]. destruct (n_isLeader r) eqn:El.
  - intros H. apply obind_Ok in H as ([[r1 fx1] b] & H1 & H). destruct b; [|done]. injection H as <- <-.
    specialize (Hc El). rewrite Hc in H1.
    assert (R0 : rep_ok (ps ++ [p]) A r) by (eapply rep_mono; [|exact R]; done).
    assert (Hcall : called (ps ++ [p]) A r (Z.of_nat (length ps)) (DPropose p)).
    { split_and!; [done|apply prop_at_last|]. intros d Hd. pose proof (ro_descs _ _ _ R _ _ Hd) as D. split.
      - pose proof (do_marks _ _ _ _ _ D) as Hm. destruct (marks (cd_msgs d)) as [|[q| | | |x] [|]]; cbn in Hm; try done.
        + destruct Hm as (_ & Hq & _). apply prop_at_range in Hq. lia.
        + destruct Hm as [_ Hs]. destruct (ro_executed _ _ _ R) as (k & Hk & Hdel & _). apply Hdel in Hs. lia.
      - destruct (has_payload (cd_cmdId d)) eqn:Hp; [|done]. destruct (do_payload _ _ _ _ _ D Hp) as (q & Hq & _).
        apply prop_at_range in Hq. lia. }
    destruct (getCmdDesc_rep _ _ _ _ _ _ _ _ _ R0 Hcall H1) as (R1 & L1 & F1).
    set (r2 := r1 <| n_lastCmdSlot ::= fun n => n + 1 |>). split_and!.
    + destruct R1 as [Q1 Q2 Q3 Q4 Q5 Q6 Q7 Q8 Q9]. split; unfold r2; rsimpl; try done.
      intros s d Hd. destruct (Q1 s d Hd) as [D1 D2 D3 D4 D5 D6 D7]. by split.
    + destruct (later_grown _ _ L1). by split.
    + intros _. unfold r2. rsimpl. rewrite (la_last _ _ L1), Hc, length_app. cbn. lia.
    + rewrite F1. by apply Forall_nil.
  - set (r1 := r <| n_proposes ::= _ |>). assert (L1 : later r r1) by (split; unfold r1; rsimpl; done).
    assert (R1 : rep_ok ps A r1) by (by apply (rep_frame ps A r)). clearbody r1.
    destruct (n_slots r1 !! commandId_of p) as [slot|].
    + intros H. apply obind_Ok in H as ([[r2 fx2] b] & H2 & H). injection H as <- <-.
      destruct (getCmdDesc_rep ps A _ _ _ DDeliver _ _ _ R1 I H2) as (R2 & L2 & F2).
      apply stepped_later; [done|done|by eapply later_trans|done].
    + intros H. injection H as <- <-. by apply stepped_later.
Qed.

Lemma n2_step_rep r t r' fx : rep_ok ps A r -> counted r ps -> wire_ok ps A r t -> n2_step r t = Ok (r', fx) ->
  stepped r r' (leads r t) fx.
Proof.
  intros R Hc Hw. destruct t as [k choice|choice p|m|choice|slot|side|]; cbn [n2_step leads].
  - destruct (n_todo r); [|done]. destruct (n_deliverChan r !! k) as [slot|]; [|done].
    intros H. apply obind_Ok in H as ([[r1 fx1] b] & H1 & H). injection H as <- <-.
    set (r0 := r <| n_deliverChan ::= delete k |>) in H1. assert (L0 : later r r0) by (split; unfold r0; rsimpl; done).
    assert (R0 : rep_ok ps A r0) by (by apply (rep_frame ps A r)).
    destruct (getCmdDesc_rep ps A _ _ _ DDeliver _ _ _ R0 I H1) as (R1 & L1 & F1).
    apply stepped_later; [done|done|by eapply later_trans|done].
  - destruct (n_todo r); [|done]. by apply run_propose_rep.
  - destruct (n_todo r) eqn:Et; [|done]. destruct Hw as (tw & -> & H1 & H2 & H3). intros H. injection H as <- <-.
    set (r1 := r <| n_todo := _ |>). assert (L : later r r1) by (split; unfold r1; rsimpl; done).
    apply stepped_later; [done| |done|done].
    destruct R as [Q1 Q2 Q3 Q4 Q5 Q6 Q7 Q8 Q9]. split; unfold r1; rsimpl; try done.
    + intros s d Hd. by apply (desc_later ps A r), Q1.
    + apply Forall_app. split; apply Forall_fmap, Forall_forall; cbn.
      * intros a Ha. split; [|by apply (proj1 (Forall_forall _ _) H1)].
        destruct (n_isLeader r) eqn:El; [|exact El]. rewrite H3 in Ha by done. by apply elem_of_nil in Ha.
      * intros b Hb. by apply (proj1 (Forall_forall _ _) H2).
  - destruct (n_todo r) as [|[slot m] todo] eqn:Et; [done|].
    intros H. apply obind_Ok in H as ([[r1 fx1] b] & H1 & H). injection H as <- <-.
    set (r0 := r <| n_todo := todo |>) in H1. assert (L0 : later r r0) by (split; unfold r0; rsimpl; done).
    pose proof (ro_todo _ _ _ R) as Ht. rewrite Et in Ht. apply Forall_cons in Ht as [Hm Ht].
    assert (R0 : rep_ok ps A r0).
    { destruct R as [Q1 Q2 Q3 Q4 Q5 Q6 Q7 Q8 Q9]. split; unfold r0; rsimpl; try done.
      intros s d Hd. by apply (desc_later ps A r), Q1. }
    assert (Hcall : called ps A r0 slot m) by (cbn in Hm; destruct m; done).
    destruct (getCmdDesc_rep ps A _ _ _ _ _ _ _ R0 Hcall H1) as (R1 & L1 & F1).
    apply stepped_later; [done|done|by eapply later_trans|done].
  - intros H. destruct (handleDesc_rep _ _ _ _ _ _ R H) as (R1 & L1 & F1). by apply stepped_later.
  - intros H. apply obind_Ok in H as (r1 & H1 & H). injection H as <- <-.
    destruct (batcher_rep _ _ _ _ _ R H1) as [R1 L1]. by apply stepped_later.
  - destruct (queue_turn _ _ _) as [[s fxs]|] eqn:Eq; [|done]. intros H. injection H as <- <-.
    destruct (sender_rep _ _ _ _ _ R Eq) as (R1 & L1 & F1). unfold stepped. rewrite app_nil_r.
    split_and!; [done|by apply later_grown|exact Hc|exact F1].
Qed.
End step2.

(** * The invariant of a system of N2Paxos replicas with one leader: every message that is
    under way carries what the leader numbered, and every replica's own invariant
    holds. *)

Section agree.
Context {TM : Treemap Value} (N L : Z).
Implicit Types n : n2_net TM.
Implicit Types r : N2Replica TM.

(** replica [j] has accepted the command of slot [s] *)
Definition accepted ps n (j s : Z) : Prop :=
  exists r, 0 <= j /\ nn_replicas n !! Z.to_nat j = Some r /\ known ps r s.

Record member ps n (i : nat) r : Prop := {
  me_rep : rep_ok ps (accepted ps n) r;
  me_Id : n_Id r = Z.of_nat i;
  me_leader : n_isLeader r = true <-> Z.of_nat i = L;
  me_AQ : n_AQ r = NewMajorityOf N;
  me_Alive : n_Alive r !! i = Some false;
  me_counted : counted r ps }.

Definition carried ps n (pm : Z * n2paxos_msg) : Prop :=
  exists m, pm.2 = N2s m /\ Forall (good2A ps) (m2s_TwoAs m) /\
    Forall (fun b => accepted ps n (m2b_Replica b) (m2b_CmdSlot b)) (m2s_TwoBs m) /\ (m2s_TwoAs m = [] \/ pm.1 <> L).

Record net_ok ps n : Prop := {
  ne_members : forall i r, nn_replicas n !! i = Some r -> member ps n i r;
  ne_soup : Forall (carried ps n) (nn_soup n) }.

Lemma acc_accepted ps n i r j s : nn_replicas n !! i = Some r -> n_Id r = Z.of_nat i ->
  acc ps (accepted ps n) r j s -> accepted ps n j s.
Proof. intros Hi Hid [H|[-> H]]; [done|]. exists r. rewrite Hid, Nat2Z.id. split_and!; [lia|done|done]. Qed.

Lemma carried_mono ps qs n n' pm : (forall j s, accepted ps n j s -> accepted (ps ++ qs) n' j s) ->
  carried ps n pm -> carried (ps ++ qs) n' pm.
Proof.
  intros Ha (m & Hm & H1 & H2 & H3). exists m. split_and!; [done| | |done].
  - eapply Forall_impl; [exact H1|]. intros a. apply good2A_mono.
  - eapply Forall_impl; [exact H2|]. intros b. apply Ha.
Qed.

(** a turn of a member *)
Lemma turn_ok ps n i t r r' fx soup : net_ok ps n -> nn_replicas n !! i = Some r ->
  wire_ok ps (accepted ps n) r t -> n2_step r t = Ok (r', fx) -> Forall (carried ps n) soup ->
  net_ok (ps ++ leads r t) (mkN2Net (<[i := r']> (nn_replicas n)) (soup ++ n2_sends fx)).
Proof.
  intros [Hm Hs] Hi Hw Hstep Hsoup. pose proof (Hm i r Hi) as [M1 M2 M3 M4 M5 M6].
  destruct (n2_step_rep ps _ r t r' fx M1 M6 Hw Hstep) as (R' & [G1 G2 G3 G4 G5] & C' & S').
  set (new := leads r t) in *. set (n' := mkN2Net _ _).
  assert (Hlt : (i < length (nn_replicas n))%nat) by (by eapply lookup_lt_Some).
  assert (Hi' : nn_replicas n' !! i = Some r') by (by apply list_lookup_insert_eq).
  assert (Hacc : forall j s, accepted ps n j s -> accepted (ps ++ new) n' j s).
  { intros j s (rj & Hj & Hrj & p & Hp & Hk). destruct (decide (Z.to_nat j = i)) as [E|E].
    - exists r'. split_and!; [done|by rewrite E|]. rewrite E in Hrj. assert (rj = r) as -> by congruence.
      exists p. split; [by apply prop_at_app|by apply G5].
    - exists rj. split_and!; [done|by cbn; rewrite list_lookup_insert_ne by congruence|]. apply known_mono. by exists p. }
  assert (Hrep : forall r0, rep_ok (ps ++ new) (accepted ps n) r0 -> rep_ok (ps ++ new) (accepted (ps ++ new) n') r0).
  { intros r0 H0. rewrite <- (app_nil_r (ps ++ new)). eapply rep_mono; [|exact H0]. intros j s Ha.
    rewrite ?app_nil_r. by apply Hacc. }
  split.
  - intros k rk Hk. destruct (decide (k = i)) as [->|Hne].
    + assert (rk = r') as -> by congruence. split; [by apply Hrep|congruence|by rewrite G2|congruence|congruence|done].
    + assert (Hk0 : nn_replicas n !! k = Some rk) by (cbn in Hk; by rewrite list_lookup_insert_ne in Hk).
      destruct (Hm k rk Hk0) as [K1 K2 K3 K4 K5 K6].
      split; [|done|done|done|done|].
      * eapply rep_mono; [|exact K1]. exact Hacc.
      * intros Hl. assert (new = []) as E.
        { unfold new, leads. destruct t; try done. destruct (n_isLeader r) eqn:El; [|done]. assert (Ei : Z.of_nat i = L) by (by apply M3). apply K3 in Hl. lia. }
        rewrite E, app_nil_r. by apply K6.
  - cbn. apply Forall_app. split.
    + eapply Forall_impl; [exact Hsoup|]. intros pm. by apply carried_mono.
    + eapply Forall_impl; [exact S'|]. intros [p m] (tw & E & H1 & H2 & H3 & H4 & H5). exists tw. cbn [fst snd] in *.
      split_and!; [done|done| |].
      * eapply Forall_impl; [exact H2|]. intros b [Hb|[Hb Hk]].
        -- by apply Hacc.
        -- exists r'. rewrite Hb, G1, M2, Nat2Z.id. split_and!; [lia|done|done].
      * destruct (n_isLeader r') eqn:El; [right|left; by apply H5].
        assert (Ei : Z.of_nat i = L) by (apply M3; congruence). intros ->. rewrite <- Ei, Nat2Z.id, G4 in H4. congruence.
Qed.

Lemma delete_forall {X} (P : X -> Prop) l k : Forall P l -> Forall P (delete k l).
Proof.
  revert k. induction l as [|x l IH]; intros k H; [by destruct k|]. apply Forall_cons in H as [Hx Hl].
  destruct k; cbn; [done|]. apply Forall_cons. split; [done|by apply IH].
Qed.

Lemma n2_net_step_ok ps n a n' : net_ok ps n -> n2_net_step n a = Some n' -> net_ok (ps ++ led L [a]) n'.
Proof.
  intros Hn. destruct a as [i t|k]; cbn [n2_net_step].
  - destruct (internal t) eqn:Ei; [|done]. unfold n2_net_turn. destruct (nn_replicas n !! i) as [r|] eqn:Er; [|done]. cbn [mbind option_bind].
    destruct (n2_step r t) as [[r' fx]| |] eqn:Es; try done. intros [= <-].
    assert (led L [NTurn i t] = leads r t) as ->.
    { unfold led, leads. cbn. destruct t; try done. pose proof (me_leader _ _ _ _ (ne_members _ _ Hn i r Er)) as Hl.
      destruct (Z.eqb_spec (Z.of_nat i) L) as [E|E].
      - by rewrite (proj2 Hl E).
      - destruct (n_isLeader r); [|done]. by destruct E; apply Hl. }
    apply (turn_ok ps n i t r r' fx); [done|done|by destruct t|done|by apply ne_soup].
  - destruct (nn_soup n !! k) as [[p m]|] eqn:Ek; [|done]. cbn [mbind option_bind]. destruct (Z.ltb_spec p 0); [done|].
    unfold n2_net_turn. cbn [nn_replicas nn_soup]. destruct (nn_replicas n !! Z.to_nat p) as [r|] eqn:Er; [|done]. cbn [mbind option_bind].
    destruct (n2_step r (TRunMsg m)) as [[r' fx]| |] eqn:Es; try done. intros [= <-].
    pose proof (proj1 (Forall_lookup _ _) (ne_soup _ _ Hn) k _ Ek) as (tw & E & H1 & H2 & H3). cbn [fst snd] in *. subst m.
    pose proof (me_leader _ _ _ _ (ne_members _ _ Hn _ r Er)) as Hl.
    apply (turn_ok ps n (Z.to_nat p) (TRunMsg (N2s tw)) r r' fx); [done|done| |done|].
    + exists tw. split_and!; [done|done| |].
      * eapply Forall_impl; [exact H2|]. intros b Hb. by left.
      * intros Hlead. destruct H3 as [|H3]; [done|]. apply Hl in Hlead. lia.
    + apply delete_forall, Hn.
Qed.

Lemma led_app run run' : led L (run ++ run') = led L run ++ led L run'.
Proof. apply omap_app. Qed.

Lemma n2_net_run_ok run : forall ps n n', net_ok ps n -> n2_net_run n run = Some n' -> net_ok (ps ++ led L run) n'.
Proof.
  induction run as [|a run IH]; intros ps n n' Hn; cbn [n2_net_run].
  - intros [= <-]. by rewrite app_nil_r.
  - destruct (n2_net_step n a) as [n1|] eqn:Es; [|done]. cbn [mbind option_bind]. intros H.
    change (a :: run) with ([a] ++ run). rewrite led_app, (assoc_L (++)). eapply IH; [|exact H]. by eapply n2_net_step_ok.
Qed.

Lemma n2_net_init_ok pl : net_ok [] (n2_net_init N pl L).
Proof.
  split; [|by apply Forall_nil]. intros i r Hi. unfold n2_net_init in Hi. cbn in Hi.
  rewrite list_lookup_fmap in Hi. destruct (seqZ 0 N !! i) as [id|] eqn:Ei; [|done]. cbn in Hi. injection Hi as <-.
  apply lookup_seqZ in Ei as [-> Hlt]. split.
  - split; unfold n2_replica; cbn; try by apply Forall_nil.
    + by intros s d ?%lookup_empty_Some.
    + done.
    + exists 0%nat. split_and!; [lia| |done]. intros s. split; [by intros ?%elem_of_empty|lia].
    + by intros _ s ?%elem_of_empty.
  - cbn. lia.
  - cbn. rewrite Z.eqb_eq. lia.
  - done.
  - unfold n2_replica. cbn. rewrite list_lookup_fmap.
    assert (seqZ 0 N !! i = Some (0 + Z.of_nat i)) as -> by (by apply lookup_seqZ). cbn. f_equal. apply negb_false_iff. lia.
  - by intros _.
Qed.
End agree.
