(* ===== verification/FastWire.v ===== *)
(** The messages of the Fast Paxos baseline ([src/fastpaxos/defs.go]). *)
From stdpp Require Import gmap list.
From S2P Require Import Prelude WireBase Wire State QuorumSets GobWire Rpc.

Record CommandId := mkCommandId {
  ci_ClientId : Z;
  ci_SeqNum : Z }.
#[export] Instance eta_CommandId : Eta CommandId := fun r => mkCommandId (ci_ClientId r) (ci_SeqNum r).
Definition CommandId_Marshal (t : CommandId) : list byte :=
  (le32 (ci_ClientId t) ++ le32 (ci_SeqNum t)).
Definition CommandId_Unmarshal : into CommandId :=
  chunk 8 (fun bs t => t <| ci_ClientId := i32_at bs 0 |> <| ci_SeqNum := i32_at bs 4 |>).
Definition CommandId_wf (t : CommandId) : Prop :=
  is_i32 (ci_ClientId t) /\ is_i32 (ci_SeqNum t).
#[export, program] Instance CommandId_codec : GobCodec CommandId := {|
  gob_zero := mkCommandId 0 0;
  GMarshal := CommandId_Marshal; GUnmarshal := CommandId_Unmarshal; GWf := CommandId_wf |}.
Next Obligation.
  intros [v0 v1] Hwf. unfold CommandId_wf in Hwf. cbn [ci_ClientId ci_SeqNum] in Hwf. destruct_and? Hwf.
  unfold CommandId_Marshal, CommandId_Unmarshal. cbn [ci_ClientId ci_SeqNum]. gob_message.
Qed.

Record M2B := mkM2B {
  m2b_CmdId : CommandId;
  m2b_Ballot : Z;
  m2b_Cballot : Z;
  m2b_Replica : Z;
  m2b_InstanceId : Z }.
#[export] Instance eta_M2B : Eta M2B := fun r => mkM2B (m2b_CmdId r) (m2b_Ballot r) (m2b_Cballot r) (m2b_Replica r) (m2b_InstanceId r).
Definition M2B_Marshal (t : M2B) : list byte :=
  (le32 (ci_ClientId (m2b_CmdId t)) ++ le32 (ci_SeqNum (m2b_CmdId t)) ++ le32 (m2b_Ballot t) ++ le32 (m2b_Cballot t) ++ le32 (m2b_Replica t) ++ le64 (m2b_InstanceId t)).
Definition M2B_Unmarshal : into M2B :=
  chunk 28 (fun bs t => t <| m2b_CmdId := mkCommandId (i32_at bs 0) (i32_at bs 4) |> <| m2b_Ballot := i32_at bs 8 |> <| m2b_Cballot := i32_at bs 12 |> <| m2b_Replica := i32_at bs 16 |> <| m2b_InstanceId := i64_at bs 20 |>).
Definition M2B_wf (t : M2B) : Prop :=
  CommandId_wf (m2b_CmdId t) /\ is_i32 (m2b_Ballot t) /\ is_i32 (m2b_Cballot t) /\ is_i32 (m2b_Replica t) /\ is_i64 (m2b_InstanceId t).
#[export, program] Instance M2B_codec : GobCodec M2B := {|
  gob_zero := mkM2B (mkCommandId 0 0) 0 0 0 0;
  GMarshal := M2B_Marshal; GUnmarshal := M2B_Unmarshal; GWf := M2B_wf |}.
Next Obligation.
  intros [[c0 s0] v1 v2 v3 v4] Hwf. unfold M2B_wf, CommandId_wf in Hwf. cbn [m2b_CmdId m2b_Ballot m2b_Cballot m2b_Replica m2b_InstanceId ci_ClientId ci_SeqNum] in Hwf. destruct_and? Hwf.
  unfold M2B_Marshal, M2B_Unmarshal. cbn [m2b_CmdId m2b_Ballot m2b_Cballot m2b_Replica m2b_InstanceId ci_ClientId ci_SeqNum]. gob_message.
Qed.

(** * The protocol *)

Inductive fastpaxos_msg :=
| F2B (m : M2B).
(** the types in the order they are registered *)
Definition fastpaxos_msg_types : list (list byte -> dres fastpaxos_msg) :=
  [decode F2B].
Definition fastpaxos_msg_type (m : fastpaxos_msg) : nat :=
  match m with F2B _ => 0 end.
Definition fastpaxos_msg_marshal (m : fastpaxos_msg) : list byte :=
  match m with F2B m => M2B_Marshal m end.
Definition fastpaxos_msg_wf (m : fastpaxos_msg) : Prop :=
  match m with F2B m => M2B_wf m end.
Lemma fastpaxos_msg_reads m : fastpaxos_msg_wf m ->
  exists d, fastpaxos_msg_types !! fastpaxos_msg_type m = Some d /\ forall rest, d (fastpaxos_msg_marshal m ++ rest) = Done m rest.
Proof. destruct m; intros Hwf; (eexists; split; [reflexivity|]); intros rest; exact (decode_reads _ m rest Hwf). Qed.
#[export] Instance fastpaxos_msg_protocol : Protocol fastpaxos_msg := {|
  proto_types := fastpaxos_msg_types; proto_type := fastpaxos_msg_type; proto_marshal := fastpaxos_msg_marshal; proto_wf := fastpaxos_msg_wf;
  proto_small := ltac:(cbn; lia); proto_reads := fastpaxos_msg_reads |}.

(** * Constructors, sizes and caches *)

Definition CommandId_BinarySize : Z * bool := (8, true).
Definition CommandIdCache : Type := Cache CommandId.
Definition NewCommandIdCache : CommandIdCache := NewCache.
Definition CommandIdCache_Get (p : CommandIdCache) : CommandId * CommandIdCache := Cache_Get (mkCommandId 0 0) p.
Definition CommandIdCache_Put (p : CommandIdCache) (t : option CommandId) : CommandIdCache := Cache_Put p t.

Definition M2B_BinarySize : Z * bool := (28, true).
Definition M2B_New : M2B := mkM2B (mkCommandId 0 0) 0 0 0 0.
Definition M2BCache : Type := Cache M2B.
Definition NewM2BCache : M2BCache := NewCache.
Definition M2BCache_Get (p : M2BCache) : M2B * M2BCache := Cache_Get M2B_New p.
Definition M2BCache_Put (p : M2BCache) (t : option M2B) : M2BCache := Cache_Put p t.
