(* ===== verification/CurpWire.v ===== *)
(** The messages of the CURP baseline ([src/curp/defs.go]). *)
From stdpp Require Import gmap list.
From S2P Require Import Prelude WireBase Wire State QuorumSets GobWire Rpc.

Record CommandId := mkCommandId {
  ci_ClientId : Z;
  ci_SeqNum : Z }.
#[export] Instance eta_CommandId : Eta CommandId := fun r => mkCommandId (ci_ClientId r) (ci_SeqNum r).
Definition CommandId_Marshal (t : CommandId) : list byte :=
  (le32 (ci_ClientId t) ++ le32 (ci_SeqNum t)).
Definition CommandId_Unmarshal : into CommandId :=
  chunk 8 (fun bs t => t <| ci_ClientId := i32_at bs 0 |> <| ci_SeqNum := i32_at bs 4 |>).
Definition CommandId_wf (t : CommandId) : Prop :=
  is_i32 (ci_ClientId t) /\ is_i32 (ci_SeqNum t).
#[export, program] Instance CommandId_codec : GobCodec CommandId := {|
  gob_zero := mkCommandId 0 0;
  GMarshal := CommandId_Marshal; GUnmarshal := CommandId_Unmarshal; GWf := CommandId_wf |}.
Next Obligation.
  intros [v0 v1] Hwf. unfold CommandId_wf in Hwf. cbn [ci_ClientId ci_SeqNum] in Hwf. destruct_and? Hwf.
  unfold CommandId_Marshal, CommandId_Unmarshal. cbn [ci_ClientId ci_SeqNum]. gob_message.
Qed.

Record MCommit := mkMCommit {
  mcm_Replica : Z;
  mcm_Ballot : Z;
  mcm_CmdSlot : Z }.
#[export] Instance eta_MCommit : Eta MCommit := fun r => mkMCommit (mcm_Replica r) (mcm_Ballot r) (mcm_CmdSlot r).
Definition MCommit_Marshal (t : MCommit) : list byte :=
  (le32 (mcm_Replica t) ++ le32 (mcm_Ballot t) ++ le64 (mcm_CmdSlot t)).
Definition MCommit_Unmarshal : into MCommit :=
  chunk 16 (fun bs t => t <| mcm_Replica := i32_at bs 0 |> <| mcm_Ballot := i32_at bs 4 |> <| mcm_CmdSlot := i64_at bs 8 |>).
Definition MCommit_wf (t : MCommit) : Prop :=
  is_i32 (mcm_Replica t) /\ is_i32 (mcm_Ballot t) /\ is_i64 (mcm_CmdSlot t).
#[export, program] Instance MCommit_codec : GobCodec MCommit := {|
  gob_zero := mkMCommit 0 0 0;
  GMarshal := MCommit_Marshal; GUnmarshal := MCommit_Unmarshal; GWf := MCommit_wf |}.
Next Obligation.
  intros [v0 v1 v2] Hwf. unfold MCommit_wf in Hwf. cbn [mcm_Replica mcm_Ballot mcm_CmdSlot] in Hwf. destruct_and? Hwf.
  unfold MCommit_Marshal, MCommit_Unmarshal. cbn [mcm_Replica mcm_Ballot mcm_CmdSlot]. gob_message.
Qed.

Record MSyncReply := mkMSyncReply {
  msr_Replica : Z;
  msr_Ballot : Z;
  msr_CmdId : CommandId;
  msr_Rep : list byte }.
#[export] Instance eta_MSyncReply : Eta MSyncReply := fun r => mkMSyncReply (msr_Replica r) (msr_Ballot r) (msr_CmdId r) (msr_Rep r).
Definition MSyncReply_Marshal (t : MSyncReply) : list byte :=
  (le32 (msr_Replica t) ++ le32 (msr_Ballot t) ++ le32 (ci_ClientId (msr_CmdId t)) ++ le32 (ci_SeqNum (msr_CmdId t))) ++
  put_slice GMarshal (msr_Rep t).
Definition MSyncReply_Unmarshal : into MSyncReply :=
  chunk 16 (fun bs t => t <| msr_Replica := i32_at bs 0 |> <| msr_Ballot := i32_at bs 4 |> <| msr_CmdId := mkCommandId (i32_at bs 8) (i32_at bs 12) |>) ;>
  slice_into 1 false GUnmarshal gob_zero (fun l t => t <| msr_Rep := l |>).
Definition MSyncReply_wf (t : MSyncReply) : Prop :=
  is_i32 (msr_Replica t) /\ is_i32 (msr_Ballot t) /\ CommandId_wf (msr_CmdId t) /\ Zlength (msr_Rep t) * 1 <= maxAlloc.
#[export, program] Instance MSyncReply_codec : GobCodec MSyncReply := {|
  gob_zero := mkMSyncReply 0 0 (mkCommandId 0 0) [];
  GMarshal := MSyncReply_Marshal; GUnmarshal := MSyncReply_Unmarshal; GWf := MSyncReply_wf |}.
Next Obligation.
  intros [v0 v1 [c2 s2] v3] Hwf. unfold MSyncReply_wf, CommandId_wf in Hwf. cbn [msr_Replica msr_Ballot msr_CmdId msr_Rep ci_ClientId ci_SeqNum] in Hwf. destruct_and? Hwf.
  unfold MSyncReply_Marshal, MSyncReply_Unmarshal. cbn [msr_Replica msr_Ballot msr_CmdId msr_Rep ci_ClientId ci_SeqNum]. gob_message.
Qed.

Record MAccept := mkMAccept {
  mac_Replica : Z;
  mac_Ballot : Z;
  mac_Cmd : Command;
  mac_CmdId : CommandId;
  mac_CmdSlot : Z }.
#[export] Instance eta_MAccept : Eta MAccept := fun r => mkMAccept (mac_Replica r) (mac_Ballot r) (mac_Cmd r) (mac_CmdId r) (mac_CmdSlot r).
Definition MAccept_Marshal (t : MAccept) : list byte :=
  (le32 (mac_Replica t) ++ le32 (mac_Ballot t)) ++
  GMarshal (mac_Cmd t) ++
  (le32 (ci_ClientId (mac_CmdId t)) ++ le32 (ci_SeqNum (mac_CmdId t)) ++ le64 (mac_CmdSlot t)).
Definition MAccept_Unmarshal : into MAccept :=
  chunk 8 (fun bs t => t <| mac_Replica := i32_at bs 0 |> <| mac_Ballot := i32_at bs 4 |>) ;>
  nested GUnmarshal mac_Cmd (fun x t => t <| mac_Cmd := x |>) ;>
  chunk 16 (fun bs t => t <| mac_CmdId := mkCommandId (i32_at bs 0) (i32_at bs 4) |> <| mac_CmdSlot := i64_at bs 8 |>).
Definition MAccept_wf (t : MAccept) : Prop :=
  is_i32 (mac_Replica t) /\ is_i32 (mac_Ballot t) /\ GWf (mac_Cmd t) /\ CommandId_wf (mac_CmdId t) /\ is_i64 (mac_CmdSlot t).
#[export, program] Instance MAccept_codec : GobCodec MAccept := {|
  gob_zero := mkMAccept 0 0 (mkCommand 0 0 []) (mkCommandId 0 0) 0;
  GMarshal := MAccept_Marshal; GUnmarshal := MAccept_Unmarshal; GWf := MAccept_wf |}.
Next Obligation.
  intros [v0 v1 v2 [c3 s3] v4] Hwf. unfold MAccept_wf, CommandId_wf in Hwf. cbn [mac_Replica mac_Ballot mac_Cmd mac_CmdId mac_CmdSlot ci_ClientId ci_SeqNum] in Hwf. destruct_and? Hwf.
  unfold MAccept_Marshal, MAccept_Unmarshal. cbn [mac_Replica mac_Ballot mac_Cmd mac_CmdId mac_CmdSlot ci_ClientId ci_SeqNum]. gob_message.
Qed.

Record MAcceptAck := mkMAcceptAck {
  maa_Replica : Z;
  maa_Ballot : Z;
  maa_CmdSlot : Z }.
#[export] Instance eta_MAcceptAck : Eta MAcceptAck := fun r => mkMAcceptAck (maa_Replica r) (maa_Ballot r) (maa_CmdSlot r).
Definition MAcceptAck_Marshal (t : MAcceptAck) : list byte :=
  (le32 (maa_Replica t) ++ le32 (maa_Ballot t) ++ le64 (maa_CmdSlot t)).
Definition MAcceptAck_Unmarshal : into MAcceptAck :=
  chunk 16 (fun bs t => t <| maa_Replica := i32_at bs 0 |> <| maa_Ballot := i32_at bs 4 |> <| maa_CmdSlot := i64_at bs 8 |>).
Definition MAcceptAck_wf (t : MAcceptAck) : Prop :=
  is_i32 (maa_Replica t) /\ is_i32 (maa_Ballot t) /\ is_i64 (maa_CmdSlot t).
#[export, program] Instance MAcceptAck_codec : GobCodec MAcceptAck := {|
  gob_zero := mkMAcceptAck 0 0 0;
  GMarshal := MAcceptAck_Marshal; GUnmarshal := MAcceptAck_Unmarshal; GWf := MAcceptAck_wf |}.
Next Obligation.
  intros [v0 v1 v2] Hwf. unfold MAcceptAck_wf in Hwf. cbn [maa_Replica maa_Ballot maa_CmdSlot] in Hwf. destruct_and? Hwf.
  unfold MAcceptAck_Marshal, MAcceptAck_Unmarshal. cbn [maa_Replica maa_Ballot maa_CmdSlot]. gob_message.
Qed.

(** an element of a slice: one read per field *)
Definition MAcceptAck_fields : into MAcceptAck :=
  chunk 4 (fun bs t => t <| maa_Replica := i32_at bs 0 |>) ;>
  chunk 4 (fun bs t => t <| maa_Ballot := i32_at bs 0 |>) ;>
  chunk 8 (fun bs t => t <| maa_CmdSlot := i64_at bs 0 |>).
Lemma MAcceptAck_fields_reads x : MAcceptAck_wf x -> Puts MAcceptAck_fields (MAcceptAck_Marshal x) (mkMAcceptAck 0 0 0) x.
Proof.
  destruct x as [v0 v1 v2]. intros Hwf. unfold MAcceptAck_wf in Hwf. cbn [maa_Replica maa_Ballot maa_CmdSlot] in Hwf. destruct_and? Hwf.
  unfold MAcceptAck_Marshal, MAcceptAck_fields. cbn [maa_Replica maa_Ballot maa_CmdSlot]. gob_message.
Qed.
#[export] Hint Resolve MAcceptAck_fields_reads : gob_fields.

Record MAAcks := mkMAAcks {
  mas_Acks : list MAcceptAck;
  mas_Accepts : list MAccept }.
#[export] Instance eta_MAAcks : Eta MAAcks := fun r => mkMAAcks (mas_Acks r) (mas_Accepts r).
Definition MAAcks_Marshal (t : MAAcks) : list byte :=
  put_slice MAcceptAck_Marshal (mas_Acks t) ++
  put_slice GMarshal (mas_Accepts t).
Definition MAAcks_Unmarshal : into MAAcks :=
  slice_into 16 false MAcceptAck_fields (mkMAcceptAck 0 0 0) (fun l t => t <| mas_Acks := l |>) ;>
  slice_into 64 true GUnmarshal gob_zero (fun l t => t <| mas_Accepts := l |>).
Definition MAAcks_wf (t : MAAcks) : Prop :=
  Zlength (mas_Acks t) * 16 <= maxAlloc /\ Forall MAcceptAck_wf (mas_Acks t) /\ Zlength (mas_Accepts t) * 64 <= maxAlloc /\ Forall GWf (mas_Accepts t).
#[export, program] Instance MAAcks_codec : GobCodec MAAcks := {|
  gob_zero := mkMAAcks [] [];
  GMarshal := MAAcks_Marshal; GUnmarshal := MAAcks_Unmarshal; GWf := MAAcks_wf |}.
Next Obligation.
  intros [v0 v1] Hwf. unfold MAAcks_wf in Hwf. cbn [mas_Acks mas_Accepts] in Hwf. destruct_and? Hwf.
  unfold MAAcks_Marshal, MAAcks_Unmarshal. cbn [mas_Acks mas_Accepts]. gob_message.
Qed.

Record MRecordAck := mkMRecordAck {
  mra_Replica : Z;
  mra_Ballot : Z;
  mra_CmdId : CommandId;
  mra_Ok : Z }.
#[export] Instance eta_MRecordAck : Eta MRecordAck := fun r => mkMRecordAck (mra_Replica r) (mra_Ballot r) (mra_CmdId r) (mra_Ok r).
Definition MRecordAck_Marshal (t : MRecordAck) : list byte :=
  (le32 (mra_Replica t) ++ le32 (mra_Ballot t) ++ le32 (ci_ClientId (mra_CmdId t)) ++ le32 (ci_SeqNum (mra_CmdId t)) ++ le8 (mra_Ok t)).
Definition MRecordAck_Unmarshal : into MRecordAck :=
  chunk 17 (fun bs t => t <| mra_Replica := i32_at bs 0 |> <| mra_Ballot := i32_at bs 4 |> <| mra_CmdId := mkCommandId (i32_at bs 8) (i32_at bs 12) |> <| mra_Ok := u8_at bs 16 |>).
Definition MRecordAck_wf (t : MRecordAck) : Prop :=
  is_i32 (mra_Replica t) /\ is_i32 (mra_Ballot t) /\ CommandId_wf (mra_CmdId t) /\ is_u8 (mra_Ok t).
#[export, program] Instance MRecordAck_codec : GobCodec MRecordAck := {|
  gob_zero := mkMRecordAck 0 0 (mkCommandId 0 0) 0;
  GMarshal := MRecordAck_Marshal; GUnmarshal := MRecordAck_Unmarshal; GWf := MRecordAck_wf |}.
Next Obligation.
  intros [v0 v1 [c2 s2] v3] Hwf. unfold MRecordAck_wf, CommandId_wf in Hwf. cbn [mra_Replica mra_Ballot mra_CmdId mra_Ok ci_ClientId ci_SeqNum] in Hwf. destruct_and? Hwf.
  unfold MRecordAck_Marshal, MRecordAck_Unmarshal. cbn [mra_Replica mra_Ballot mra_CmdId mra_Ok ci_ClientId ci_SeqNum]. gob_message.
Qed.

Record MSync := mkMSync {
  msy_CmdId : CommandId }.
#[export] Instance eta_MSync : Eta MSync := fun r => mkMSync (msy_CmdId r).
Definition MSync_Marshal (t : MSync) : list byte :=
  (le32 (ci_ClientId (msy_CmdId t)) ++ le32 (ci_SeqNum (msy_CmdId t))).
Definition MSync_Unmarshal : into MSync :=
  chunk 8 (fun bs t => t <| msy_CmdId := mkCommandId (i32_at bs 0) (i32_at bs 4) |>).
Definition MSync_wf (t : MSync) : Prop :=
  CommandId_wf (msy_CmdId t).
#[export, program] Instance MSync_codec : GobCodec MSync := {|
  gob_zero := mkMSync (mkCommandId 0 0);
  GMarshal := MSync_Marshal; GUnmarshal := MSync_Unmarshal; GWf := MSync_wf |}.
Next Obligation.
  intros [[c0 s0]] Hwf. unfold MSync_wf, CommandId_wf in Hwf. cbn [msy_CmdId ci_ClientId ci_SeqNum] in Hwf. destruct_and? Hwf.
  unfold MSync_Marshal, MSync_Unmarshal. cbn [msy_CmdId ci_ClientId ci_SeqNum]. gob_message.
Qed.

(** ** [MReply]

    After the loop over [Rep], [bs] is the one-byte slice of its last turn; with an empty
    [Rep] it is still the whole buffer, sixteen bytes, which [Marshal] then writes and
    [Unmarshal] offers to the reader. *)
Record MReply := mkMReply {
  mre_Replica : Z;
  mre_Ballot : Z;
  mre_CmdId : CommandId;
  mre_Rep : list byte;
  mre_Ok : Z }.
#[export] Instance eta_MReply : Eta MReply := fun r =>
  mkMReply (mre_Replica r) (mre_Ballot r) (mre_CmdId r) (mre_Rep r) (mre_Ok r).

Definition MReply_header (t : MReply) : list byte :=
  le32 (mre_Replica t) ++ le32 (mre_Ballot t) ++ le32 (ci_ClientId (mre_CmdId t)) ++ le32 (ci_SeqNum (mre_CmdId t)).
Definition MReply_Marshal (t : MReply) : list byte :=
  MReply_header t ++
  put_slice GMarshal (mre_Rep t) ++
  le8 (mre_Ok t) ++ (if decide (mre_Rep t = []) then drop 1 (MReply_header t) else []).

Section mreply.
Context `{Conn}.
Definition MReply_Unmarshal : into MReply :=
  chunk 16 (fun bs t => t <| mre_Replica := i32_at bs 0 |> <| mre_Ballot := i32_at bs 4 |>
                          <| mre_CmdId := mkCommandId (i32_at bs 8) (i32_at bs 12) |>) ;>
  slice_into 1 false GUnmarshal gob_zero (fun l t => t <| mre_Rep := l |>) ;>
  fun t => chunk_upto buffered 1 (if decide (mre_Rep t = []) then 16 else 1)%nat
             (fun bs t => t <| mre_Ok := u8_at bs 0 |>) t.

(** with an empty [Rep] the reader must have the rest of the message at hand *)
Definition MReply_wf (t : MReply) : Prop :=
  is_i32 (mre_Replica t) /\ is_i32 (mre_Ballot t) /\ CommandId_wf (mre_CmdId t) /\
  Zlength (mre_Rep t) * 1 <= maxAlloc /\ is_u8 (mre_Ok t) /\
  (mre_Rep t <> [] \/ forall bs, (16 <= buffered bs)%nat).

Lemma CurpReply_reads m : MReply_wf m -> Puts MReply_Unmarshal (MReply_Marshal m) (mkMReply 0 0 (mkCommandId 0 0) [] 0) m.
Proof.
  destruct m as [v0 v1 [c s] rep ok]. unfold MReply_wf, CommandId_wf.
  cbn [mre_Replica mre_Ballot mre_CmdId mre_Rep mre_Ok ci_ClientId ci_SeqNum]. intros (H0 & H1 & [H2 H3] & Hl & Hok & Hrep).
  unfold MReply_Marshal, MReply_Unmarshal. eapply Puts_seq; [apply Puts_chunk; reflexivity|].
  eapply Puts_seq; [apply put_slice_codec; [lia|exact Hl|by apply Forall_true]|].
  unfold MReply_header. cbn [mre_Replica mre_Ballot mre_CmdId mre_Rep mre_Ok ci_ClientId ci_SeqNum].
  eapply Puts_eq.
  - assert (Hcap : forall t : MReply, mre_Rep (t <| mre_Rep := rep |>) = rep) by done.
    intros rest. rewrite Hcap. destruct (decide (rep = [])) as [->|Hne].
    + destruct Hrep as [?|Hb]; [done|]. rewrite (Puts_chunk_upto buffered 1 16); [reflexivity|reflexivity|lia|apply Hb].
    + rewrite app_nil_r. by rewrite (Puts_chunk_exact buffered 1 1).
  - cbv beta. autorewrite with gob. destruct (decide (rep = [])); autorewrite with gob; reflexivity.
Qed.
#[export] Instance MReply_codec : GobCodec MReply := {|
  gob_zero := mkMReply 0 0 (mkCommandId 0 0) [] 0;
  GMarshal := MReply_Marshal; GUnmarshal := MReply_Unmarshal; GWf := MReply_wf; gob_reads := CurpReply_reads |}.

(** * The protocol *)

Inductive curp_msg :=
| CReply (m : MReply)
| CAccept (m : MAccept)
| CAcceptAck (m : MAcceptAck)
| CAAcks (m : MAAcks)
| CRecordAck (m : MRecordAck)
| CCommit (m : MCommit)
| CSync (m : MSync)
| CSyncReply (m : MSyncReply).
(** the types in the order they are registered *)
Definition curp_msg_types : list (list byte -> dres curp_msg) :=
  [decode CReply; decode CAccept; decode CAcceptAck; decode CAAcks; decode CRecordAck; decode CCommit; decode CSync; decode CSyncReply].
Definition curp_msg_type (m : curp_msg) : nat :=
  match m with CReply _ => 0 | CAccept _ => 1 | CAcceptAck _ => 2 | CAAcks _ => 3 | CRecordAck _ => 4 | CCommit _ => 5 | CSync _ => 6 | CSyncReply _ => 7 end.
Definition curp_msg_marshal (m : curp_msg) : list byte :=
  match m with CReply m => MReply_Marshal m | CAccept m => MAccept_Marshal m | CAcceptAck m => MAcceptAck_Marshal m | CAAcks m => MAAcks_Marshal m | CRecordAck m => MRecordAck_Marshal m | CCommit m => MCommit_Marshal m | CSync m => MSync_Marshal m | CSyncReply m => MSyncReply_Marshal m end.
Definition curp_msg_wf (m : curp_msg) : Prop :=
  match m with CReply m => MReply_wf m | CAccept m => MAccept_wf m | CAcceptAck m => MAcceptAck_wf m | CAAcks m => MAAcks_wf m | CRecordAck m => MRecordAck_wf m | CCommit m => MCommit_wf m | CSync m => MSync_wf m | CSyncReply m => MSyncReply_wf m end.
Lemma curp_msg_reads m : curp_msg_wf m ->
  exists d, curp_msg_types !! curp_msg_type m = Some d /\ forall rest, d (curp_msg_marshal m ++ rest) = Done m rest.
Proof. destruct m; intros Hwf; (eexists; split; [reflexivity|]); intros rest; exact (decode_reads _ m rest Hwf). Qed.
#[export] Instance curp_msg_protocol : Protocol curp_msg := {|
  proto_types := curp_msg_types; proto_type := curp_msg_type; proto_marshal := curp_msg_marshal; proto_wf := curp_msg_wf;
  proto_small := ltac:(cbn; lia); proto_reads := curp_msg_reads |}.
End mreply.

(** * Constructors, sizes and caches *)

Definition MCommit_BinarySize : Z * bool := (16, true).
Definition MCommit_New : MCommit := mkMCommit 0 0 0.
Definition MCommitCache : Type := Cache MCommit.
Definition NewMCommitCache : MCommitCache := NewCache.
Definition MCommitCache_Get (p : MCommitCache) : MCommit * MCommitCache := Cache_Get MCommit_New p.
Definition MCommitCache_Put (p : MCommitCache) (t : option MCommit) : MCommitCache := Cache_Put p t.

Definition MSyncReply_BinarySize : Z * bool := (0, false).
Definition MSyncReply_New : MSyncReply := mkMSyncReply 0 0 (mkCommandId 0 0) [].
Definition MSyncReplyCache : Type := Cache MSyncReply.
Definition NewMSyncReplyCache : MSyncReplyCache := NewCache.
Definition MSyncReplyCache_Get (p : MSyncReplyCache) : MSyncReply * MSyncReplyCache := Cache_Get MSyncReply_New p.
Definition MSyncReplyCache_Put (p : MSyncReplyCache) (t : option MSyncReply) : MSyncReplyCache := Cache_Put p t.

Definition MAccept_BinarySize : Z * bool := (0, false).
Definition MAccept_New : MAccept := mkMAccept 0 0 (mkCommand 0 0 []) (mkCommandId 0 0) 0.
Definition MAcceptCache : Type := Cache MAccept.
Definition NewMAcceptCache : MAcceptCache := NewCache.
Definition MAcceptCache_Get (p : MAcceptCache) : MAccept * MAcceptCache := Cache_Get MAccept_New p.
Definition MAcceptCache_Put (p : MAcceptCache) (t : option MAccept) : MAcceptCache := Cache_Put p t.

Definition MReply_BinarySize : Z * bool := (0, false).
Definition MReply_New : MReply := mkMReply 0 0 (mkCommandId 0 0) [] 0.
Definition MReplyCache : Type := Cache MReply.
Definition NewMReplyCache : MReplyCache := NewCache.
Definition MReplyCache_Get (p : MReplyCache) : MReply * MReplyCache := Cache_Get MReply_New p.
Definition MReplyCache_Put (p : MReplyCache) (t : option MReply) : MReplyCache := Cache_Put p t.

Definition MAcceptAck_BinarySize : Z * bool := (16, true).
Definition MAcceptAck_New : MAcceptAck := mkMAcceptAck 0 0 0.
Definition MAcceptAckCache : Type := Cache MAcceptAck.
Definition NewMAcceptAckCache : MAcceptAckCache := NewCache.
Definition MAcceptAckCache_Get (p : MAcceptAckCache) : MAcceptAck * MAcceptAckCache := Cache_Get MAcceptAck_New p.
Definition MAcceptAckCache_Put (p : MAcceptAckCache) (t : option MAcceptAck) : MAcceptAckCache := Cache_Put p t.

Definition MAAcks_BinarySize : Z * bool := (0, false).
Definition MAAcks_New : MAAcks := mkMAAcks [] [].
Definition MAAcksCache : Type := Cache MAAcks.
Definition NewMAAcksCache : MAAcksCache := NewCache.
Definition MAAcksCache_Get (p : MAAcksCache) : MAAcks * MAAcksCache := Cache_Get MAAcks_New p.
Definition MAAcksCache_Put (p : MAAcksCache) (t : option MAAcks) : MAAcksCache := Cache_Put p t.

Definition MRecordAck_BinarySize : Z * bool := (17, true).
Definition MRecordAck_New : MRecordAck := mkMRecordAck 0 0 (mkCommandId 0 0) 0.
Definition MRecordAckCache : Type := Cache MRecordAck.
Definition NewMRecordAckCache : MRecordAckCache := NewCache.
Definition MRecordAckCache_Get (p : MRecordAckCache) : MRecordAck * MRecordAckCache := Cache_Get MRecordAck_New p.
Definition MRecordAckCache_Put (p : MRecordAckCache) (t : option MRecordAck) : MRecordAckCache := Cache_Put p t.

Definition MSync_BinarySize : Z * bool := (8, true).
Definition MSync_New : MSync := mkMSync (mkCommandId 0 0).
Definition MSyncCache : Type := Cache MSync.
Definition NewMSyncCache : MSyncCache := NewCache.
Definition MSyncCache_Get (p : MSyncCache) : MSync * MSyncCache := Cache_Get MSync_New p.
Definition MSyncCache_Put (p : MSyncCache) (t : option MSync) : MSyncCache := Cache_Put p t.

Definition CommandId_BinarySize : Z * bool := (8, true).
Definition CommandIdCache : Type := Cache CommandId.
Definition NewCommandIdCache : CommandIdCache := NewCache.
Definition CommandIdCache_Get (p : CommandIdCache) : CommandId * CommandIdCache := Cache_Get (mkCommandId 0 0) p.
Definition CommandIdCache_Put (p : CommandIdCache) (t : option CommandId) : CommandIdCache := Cache_Put p t.
