(* ===== verification/EpaxosWire.v ===== *)
(** The messages of the EPaxos baseline ([src/epaxos/defs.go]). *)
From stdpp Require Import gmap list.
From S2P Require Import Prelude WireBase Wire State QuorumSets GobWire Rpc.

Record Prepare := mkPrepare {
  ep_LeaderId : Z;
  ep_Replica : Z;
  ep_Instance : Z;
  ep_Ballot : Z }.
#[export] Instance eta_Prepare : Eta Prepare := fun r => mkPrepare (ep_LeaderId r) (ep_Replica r) (ep_Instance r) (ep_Ballot r).
Definition Prepare_Marshal (t : Prepare) : list byte :=
  (le32 (ep_LeaderId t) ++ le32 (ep_Replica t) ++ le32 (ep_Instance t) ++ le32 (ep_Ballot t)).
Definition Prepare_Unmarshal : into Prepare :=
  chunk 16 (fun bs t => t <| ep_LeaderId := i32_at bs 0 |> <| ep_Replica := i32_at bs 4 |> <| ep_Instance := i32_at bs 8 |> <| ep_Ballot := i32_at bs 12 |>).
Definition Prepare_wf (t : Prepare) : Prop :=
  is_i32 (ep_LeaderId t) /\ is_i32 (ep_Replica t) /\ is_i32 (ep_Instance t) /\ is_i32 (ep_Ballot t).
#[export, program] Instance Prepare_codec : GobCodec Prepare := {|
  gob_zero := mkPrepare 0 0 0 0;
  GMarshal := Prepare_Marshal; GUnmarshal := Prepare_Unmarshal; GWf := Prepare_wf |}.
Next Obligation.
  intros [v0 v1 v2 v3] Hwf. unfold Prepare_wf in Hwf. cbn [ep_LeaderId ep_Replica ep_Instance ep_Ballot] in Hwf. destruct_and? Hwf.
  unfold Prepare_Marshal, Prepare_Unmarshal. cbn [ep_LeaderId ep_Replica ep_Instance ep_Ballot]. gob_message.
Qed.

(** [VBallot] is not on the wire. *)
Record PrepareReply := mkPrepareReply {
  epr_AcceptorId : Z;
  epr_Replica : Z;
  epr_Instance : Z;
  epr_Ballot : Z;
  epr_VBallot : Z;
  epr_Status : Z;
  epr_Command : list Command;
  epr_Seq : Z;
  epr_Deps : list Z }.
#[export] Instance eta_PrepareReply : Eta PrepareReply := fun r => mkPrepareReply (epr_AcceptorId r) (epr_Replica r) (epr_Instance r) (epr_Ballot r) (epr_VBallot r) (epr_Status r) (epr_Command r) (epr_Seq r) (epr_Deps r).
Definition PrepareReply_Marshal (t : PrepareReply) : list byte :=
  (le32 (epr_AcceptorId t) ++ le32 (epr_Replica t) ++ le32 (epr_Instance t) ++ le32 (epr_Ballot t) ++ le8 (epr_Status t)) ++
  put_slice GMarshal (epr_Command t) ++
  le32 (epr_Seq t) ++
  put_slice le32 (epr_Deps t).
Definition PrepareReply_Unmarshal : into PrepareReply :=
  chunk 17 (fun bs t => t <| epr_AcceptorId := i32_at bs 0 |> <| epr_Replica := i32_at bs 4 |> <| epr_Instance := i32_at bs 8 |> <| epr_Ballot := i32_at bs 12 |> <| epr_Status := i8_at bs 16 |>) ;>
  slice_into 40 true GUnmarshal gob_zero (fun l t => t <| epr_Command := l |>) ;>
  chunk 4 (fun bs t => t <| epr_Seq := i32_at bs 0 |>) ;>
  slice_into 4 false int32_fields 0 (fun l t => t <| epr_Deps := l |>).
Definition PrepareReply_wf (t : PrepareReply) : Prop :=
  is_i32 (epr_AcceptorId t) /\ is_i32 (epr_Replica t) /\ is_i32 (epr_Instance t) /\ is_i32 (epr_Ballot t) /\ is_i32 (epr_VBallot t) /\ is_i8 (epr_Status t) /\ Zlength (epr_Command t) * 40 <= maxAlloc /\ Forall GWf (epr_Command t) /\ is_i32 (epr_Seq t) /\ Zlength (epr_Deps t) * 4 <= maxAlloc /\ Forall is_i32 (epr_Deps t) /\ epr_VBallot t = 0.
#[export, program] Instance PrepareReply_codec : GobCodec PrepareReply := {|
  gob_zero := mkPrepareReply 0 0 0 0 0 0 [] 0 [];
  GMarshal := PrepareReply_Marshal; GUnmarshal := PrepareReply_Unmarshal; GWf := PrepareReply_wf |}.
Next Obligation.
  intros [v0 v1 v2 v3 v4 v5 v6 v7 v8] Hwf. unfold PrepareReply_wf in Hwf. cbn [epr_AcceptorId epr_Replica epr_Instance epr_Ballot epr_VBallot epr_Status epr_Command epr_Seq epr_Deps] in Hwf. destruct_and? Hwf.
  unfold PrepareReply_Marshal, PrepareReply_Unmarshal. cbn [epr_AcceptorId epr_Replica epr_Instance epr_Ballot epr_VBallot epr_Status epr_Command epr_Seq epr_Deps]. gob_message.
Qed.

Record PreAccept := mkPreAccept {
  epa_LeaderId : Z;
  epa_Replica : Z;
  epa_Instance : Z;
  epa_Ballot : Z;
  epa_Command : list Command;
  epa_Seq : Z;
  epa_Deps : list Z }.
#[export] Instance eta_PreAccept : Eta PreAccept := fun r => mkPreAccept (epa_LeaderId r) (epa_Replica r) (epa_Instance r) (epa_Ballot r) (epa_Command r) (epa_Seq r) (epa_Deps r).
Definition PreAccept_Marshal (t : PreAccept) : list byte :=
  (le32 (epa_LeaderId t) ++ le32 (epa_Replica t) ++ le32 (epa_Instance t) ++ le32 (epa_Ballot t)) ++
  put_slice GMarshal (epa_Command t) ++
  le32 (epa_Seq t) ++
  put_slice le32 (epa_Deps t).
Definition PreAccept_Unmarshal : into PreAccept :=
  chunk 16 (fun bs t => t <| epa_LeaderId := i32_at bs 0 |> <| epa_Replica := i32_at bs 4 |> <| epa_Instance := i32_at bs 8 |> <| epa_Ballot := i32_at bs 12 |>) ;>
  slice_into 40 true GUnmarshal gob_zero (fun l t => t <| epa_Command := l |>) ;>
  chunk 4 (fun bs t => t <| epa_Seq := i32_at bs 0 |>) ;>
  slice_into 4 false int32_fields 0 (fun l t => t <| epa_Deps := l |>).
Definition PreAccept_wf (t : PreAccept) : Prop :=
  is_i32 (epa_LeaderId t) /\ is_i32 (epa_Replica t) /\ is_i32 (epa_Instance t) /\ is_i32 (epa_Ballot t) /\ Zlength (epa_Command t) * 40 <= maxAlloc /\ Forall GWf (epa_Command t) /\ is_i32 (epa_Seq t) /\ Zlength (epa_Deps t) * 4 <= maxAlloc /\ Forall is_i32 (epa_Deps t).
#[export, program] Instance PreAccept_codec : GobCodec PreAccept := {|
  gob_zero := mkPreAccept 0 0 0 0 [] 0 [];
  GMarshal := PreAccept_Marshal; GUnmarshal := PreAccept_Unmarshal; GWf := PreAccept_wf |}.
Next Obligation.
  intros [v0 v1 v2 v3 v4 v5 v6] Hwf. unfold PreAccept_wf in Hwf. cbn [epa_LeaderId epa_Replica epa_Instance epa_Ballot epa_Command epa_Seq epa_Deps] in Hwf. destruct_and? Hwf.
  unfold PreAccept_Marshal, PreAccept_Unmarshal. cbn [epa_LeaderId epa_Replica epa_Instance epa_Ballot epa_Command epa_Seq epa_Deps]. gob_message.
Qed.

(** ** [PreAcceptReply]

    The loop over [CommittedDeps] reads into the [bs] the loop over [Deps] left: four
    bytes, or the whole buffer of 21 when [Deps] is empty. *)
Record PreAcceptReply := mkPreAcceptReply {
  epar_Replica : Z;
  epar_Instance : Z;
  epar_Ballot : Z;
  epar_VBallot : Z;
  epar_Seq : Z;
  epar_Deps : list Z;
  epar_CommittedDeps : list Z;
  epar_Status : Z }.
#[export] Instance eta_PreAcceptReply : Eta PreAcceptReply := fun r =>
  mkPreAcceptReply (epar_Replica r) (epar_Instance r) (epar_Ballot r) (epar_VBallot r) (epar_Seq r) (epar_Deps r)
    (epar_CommittedDeps r) (epar_Status r).
Definition PreAcceptReply_Marshal (t : PreAcceptReply) : list byte :=
  (le32 (epar_Replica t) ++ le32 (epar_Instance t) ++ le32 (epar_Ballot t) ++ le32 (epar_VBallot t) ++
   le32 (epar_Seq t) ++ le8 (epar_Status t)) ++
  put_slice le32 (epar_Deps t) ++
  put_slice le32 (epar_CommittedDeps t).

Record PreAcceptOK := mkPreAcceptOK {
  epo_Instance : Z }.
#[export] Instance eta_PreAcceptOK : Eta PreAcceptOK := fun r => mkPreAcceptOK (epo_Instance r).
Definition PreAcceptOK_Marshal (t : PreAcceptOK) : list byte :=
  le32 (epo_Instance t).
Definition PreAcceptOK_Unmarshal : into PreAcceptOK :=
  chunk 4 (fun bs t => t <| epo_Instance := i32_at bs 0 |>).
Definition PreAcceptOK_wf (t : PreAcceptOK) : Prop :=
  is_i32 (epo_Instance t).
#[export, program] Instance PreAcceptOK_codec : GobCodec PreAcceptOK := {|
  gob_zero := mkPreAcceptOK 0;
  GMarshal := PreAcceptOK_Marshal; GUnmarshal := PreAcceptOK_Unmarshal; GWf := PreAcceptOK_wf |}.
Next Obligation.
  intros [v0] Hwf. unfold PreAcceptOK_wf in Hwf. cbn [epo_Instance] in Hwf. destruct_and? Hwf.
  unfold PreAcceptOK_Marshal, PreAcceptOK_Unmarshal. cbn [epo_Instance]. gob_message.
Qed.

Record Accept := mkAccept {
  ea_LeaderId : Z;
  ea_Replica : Z;
  ea_Instance : Z;
  ea_Ballot : Z;
  ea_Seq : Z;
  ea_Deps : list Z }.
#[export] Instance eta_Accept : Eta Accept := fun r => mkAccept (ea_LeaderId r) (ea_Replica r) (ea_Instance r) (ea_Ballot r) (ea_Seq r) (ea_Deps r).
Definition Accept_Marshal (t : Accept) : list byte :=
  (le32 (ea_LeaderId t) ++ le32 (ea_Replica t) ++ le32 (ea_Instance t) ++ le32 (ea_Ballot t) ++ le32 (ea_Seq t)) ++
  put_slice le32 (ea_Deps t).
Definition Accept_Unmarshal : into Accept :=
  chunk 20 (fun bs t => t <| ea_LeaderId := i32_at bs 0 |> <| ea_Replica := i32_at bs 4 |> <| ea_Instance := i32_at bs 8 |> <| ea_Ballot := i32_at bs 12 |> <| ea_Seq := i32_at bs 16 |>) ;>
  slice_into 4 false int32_fields 0 (fun l t => t <| ea_Deps := l |>).
Definition Accept_wf (t : Accept) : Prop :=
  is_i32 (ea_LeaderId t) /\ is_i32 (ea_Replica t) /\ is_i32 (ea_Instance t) /\ is_i32 (ea_Ballot t) /\ is_i32 (ea_Seq t) /\ Zlength (ea_Deps t) * 4 <= maxAlloc /\ Forall is_i32 (ea_Deps t).
#[export, program] Instance Accept_codec : GobCodec Accept := {|
  gob_zero := mkAccept 0 0 0 0 0 [];
  GMarshal := Accept_Marshal; GUnmarshal := Accept_Unmarshal; GWf := Accept_wf |}.
Next Obligation.
  intros [v0 v1 v2 v3 v4 v5] Hwf. unfold Accept_wf in Hwf. cbn [ea_LeaderId ea_Replica ea_Instance ea_Ballot ea_Seq ea_Deps] in Hwf. destruct_and? Hwf.
  unfold Accept_Marshal, Accept_Unmarshal. cbn [ea_LeaderId ea_Replica ea_Instance ea_Ballot ea_Seq ea_Deps]. gob_message.
Qed.

Record AcceptReply := mkAcceptReply {
  ear_Replica : Z;
  ear_Instance : Z;
  ear_Ballot : Z }.
#[export] Instance eta_AcceptReply : Eta AcceptReply := fun r => mkAcceptReply (ear_Replica r) (ear_Instance r) (ear_Ballot r).
Definition AcceptReply_Marshal (t : AcceptReply) : list byte :=
  (le32 (ear_Replica t) ++ le32 (ear_Instance t) ++ le32 (ear_Ballot t)).
Definition AcceptReply_Unmarshal : into AcceptReply :=
  chunk 12 (fun bs t => t <| ear_Replica := i32_at bs 0 |> <| ear_Instance := i32_at bs 4 |> <| ear_Ballot := i32_at bs 8 |>).
Definition AcceptReply_wf (t : AcceptReply) : Prop :=
  is_i32 (ear_Replica t) /\ is_i32 (ear_Instance t) /\ is_i32 (ear_Ballot t).
#[export, program] Instance AcceptReply_codec : GobCodec AcceptReply := {|
  gob_zero := mkAcceptReply 0 0 0;
  GMarshal := AcceptReply_Marshal; GUnmarshal := AcceptReply_Unmarshal; GWf := AcceptReply_wf |}.
Next Obligation.
  intros [v0 v1 v2] Hwf. unfold AcceptReply_wf in Hwf. cbn [ear_Replica ear_Instance ear_Ballot] in Hwf. destruct_and? Hwf.
  unfold AcceptReply_Marshal, AcceptReply_Unmarshal. cbn [ear_Replica ear_Instance ear_Ballot]. gob_message.
Qed.

Record Commit := mkCommit {
  ec_LeaderId : Z;
  ec_Replica : Z;
  ec_Instance : Z;
  ec_Ballot : Z;
  ec_Command : list Command;
  ec_Seq : Z;
  ec_Deps : list Z }.
#[export] Instance eta_Commit : Eta Commit := fun r => mkCommit (ec_LeaderId r) (ec_Replica r) (ec_Instance r) (ec_Ballot r) (ec_Command r) (ec_Seq r) (ec_Deps r).
Definition Commit_Marshal (t : Commit) : list byte :=
  (le32 (ec_LeaderId t) ++ le32 (ec_Replica t) ++ le32 (ec_Instance t) ++ le32 (ec_Ballot t)) ++
  put_slice GMarshal (ec_Command t) ++
  le32 (ec_Seq t) ++
  put_slice le32 (ec_Deps t).
Definition Commit_Unmarshal : into Commit :=
  chunk 16 (fun bs t => t <| ec_LeaderId := i32_at bs 0 |> <| ec_Replica := i32_at bs 4 |> <| ec_Instance := i32_at bs 8 |> <| ec_Ballot := i32_at bs 12 |>) ;>
  slice_into 40 true GUnmarshal gob_zero (fun l t => t <| ec_Command := l |>) ;>
  chunk 4 (fun bs t => t <| ec_Seq := i32_at bs 0 |>) ;>
  slice_into 4 false int32_fields 0 (fun l t => t <| ec_Deps := l |>).
Definition Commit_wf (t : Commit) : Prop :=
  is_i32 (ec_LeaderId t) /\ is_i32 (ec_Replica t) /\ is_i32 (ec_Instance t) /\ is_i32 (ec_Ballot t) /\ Zlength (ec_Command t) * 40 <= maxAlloc /\ Forall GWf (ec_Command t) /\ is_i32 (ec_Seq t) /\ Zlength (ec_Deps t) * 4 <= maxAlloc /\ Forall is_i32 (ec_Deps t).
#[export, program] Instance Commit_codec : GobCodec Commit := {|
  gob_zero := mkCommit 0 0 0 0 [] 0 [];
  GMarshal := Commit_Marshal; GUnmarshal := Commit_Unmarshal; GWf := Commit_wf |}.
Next Obligation.
  intros [v0 v1 v2 v3 v4 v5 v6] Hwf. unfold Commit_wf in Hwf. cbn [ec_LeaderId ec_Replica ec_Instance ec_Ballot ec_Command ec_Seq ec_Deps] in Hwf. destruct_and? Hwf.
  unfold Commit_Marshal, Commit_Unmarshal. cbn [ec_LeaderId ec_Replica ec_Instance ec_Ballot ec_Command ec_Seq ec_Deps]. gob_message.
Qed.

Record TryPreAccept := mkTryPreAccept {
  etp_LeaderId : Z;
  etp_Replica : Z;
  etp_Instance : Z;
  etp_Ballot : Z;
  etp_Command : list Command;
  etp_Seq : Z;
  etp_Deps : list Z }.
#[export] Instance eta_TryPreAccept : Eta TryPreAccept := fun r => mkTryPreAccept (etp_LeaderId r) (etp_Replica r) (etp_Instance r) (etp_Ballot r) (etp_Command r) (etp_Seq r) (etp_Deps r).
Definition TryPreAccept_Marshal (t : TryPreAccept) : list byte :=
  (le32 (etp_LeaderId t) ++ le32 (etp_Replica t) ++ le32 (etp_Instance t) ++ le32 (etp_Ballot t)) ++
  put_slice GMarshal (etp_Command t) ++
  le32 (etp_Seq t) ++
  put_slice le32 (etp_Deps t).
Definition TryPreAccept_Unmarshal : into TryPreAccept :=
  chunk 16 (fun bs t => t <| etp_LeaderId := i32_at bs 0 |> <| etp_Replica := i32_at bs 4 |> <| etp_Instance := i32_at bs 8 |> <| etp_Ballot := i32_at bs 12 |>) ;>
  slice_into 40 true GUnmarshal gob_zero (fun l t => t <| etp_Command := l |>) ;>
  chunk 4 (fun bs t => t <| etp_Seq := i32_at bs 0 |>) ;>
  slice_into 4 false int32_fields 0 (fun l t => t <| etp_Deps := l |>).
Definition TryPreAccept_wf (t : TryPreAccept) : Prop :=
  is_i32 (etp_LeaderId t) /\ is_i32 (etp_Replica t) /\ is_i32 (etp_Instance t) /\ is_i32 (etp_Ballot t) /\ Zlength (etp_Command t) * 40 <= maxAlloc /\ Forall GWf (etp_Command t) /\ is_i32 (etp_Seq t) /\ Zlength (etp_Deps t) * 4 <= maxAlloc /\ Forall is_i32 (etp_Deps t).
#[export, program] Instance TryPreAccept_codec : GobCodec TryPreAccept := {|
  gob_zero := mkTryPreAccept 0 0 0 0 [] 0 [];
  GMarshal := TryPreAccept_Marshal; GUnmarshal := TryPreAccept_Unmarshal; GWf := TryPreAccept_wf |}.
Next Obligation.
  intros [v0 v1 v2 v3 v4 v5 v6] Hwf. unfold TryPreAccept_wf in Hwf. cbn [etp_LeaderId etp_Replica etp_Instance etp_Ballot etp_Command etp_Seq etp_Deps] in Hwf. destruct_and? Hwf.
  unfold TryPreAccept_Marshal, TryPreAccept_Unmarshal. cbn [etp_LeaderId etp_Replica etp_Instance etp_Ballot etp_Command etp_Seq etp_Deps]. gob_message.
Qed.

Record TryPreAcceptReply := mkTryPreAcceptReply {
  etr_AcceptorId : Z;
  etr_Replica : Z;
  etr_Instance : Z;
  etr_Ballot : Z;
  etr_VBallot : Z;
  etr_ConflictReplica : Z;
  etr_ConflictInstance : Z;
  etr_ConflictStatus : Z }.
#[export] Instance eta_TryPreAcceptReply : Eta TryPreAcceptReply := fun r => mkTryPreAcceptReply (etr_AcceptorId r) (etr_Replica r) (etr_Instance r) (etr_Ballot r) (etr_VBallot r) (etr_ConflictReplica r) (etr_ConflictInstance r) (etr_ConflictStatus r).
Definition TryPreAcceptReply_Marshal (t : TryPreAcceptReply) : list byte :=
  (le32 (etr_AcceptorId t) ++ le32 (etr_Replica t) ++ le32 (etr_Instance t) ++ le32 (etr_Ballot t) ++ le32 (etr_VBallot t) ++ le32 (etr_ConflictReplica t) ++ le32 (etr_ConflictInstance t) ++ le8 (etr_ConflictStatus t)).
Definition TryPreAcceptReply_Unmarshal : into TryPreAcceptReply :=
  chunk 29 (fun bs t => t <| etr_AcceptorId := i32_at bs 0 |> <| etr_Replica := i32_at bs 4 |> <| etr_Instance := i32_at bs 8 |> <| etr_Ballot := i32_at bs 12 |> <| etr_VBallot := i32_at bs 16 |> <| etr_ConflictReplica := i32_at bs 20 |> <| etr_ConflictInstance := i32_at bs 24 |> <| etr_ConflictStatus := i8_at bs 28 |>).
Definition TryPreAcceptReply_wf (t : TryPreAcceptReply) : Prop :=
  is_i32 (etr_AcceptorId t) /\ is_i32 (etr_Replica t) /\ is_i32 (etr_Instance t) /\ is_i32 (etr_Ballot t) /\ is_i32 (etr_VBallot t) /\ is_i32 (etr_ConflictReplica t) /\ is_i32 (etr_ConflictInstance t) /\ is_i8 (etr_ConflictStatus t).
#[export, program] Instance TryPreAcceptReply_codec : GobCodec TryPreAcceptReply := {|
  gob_zero := mkTryPreAcceptReply 0 0 0 0 0 0 0 0;
  GMarshal := TryPreAcceptReply_Marshal; GUnmarshal := TryPreAcceptReply_Unmarshal; GWf := TryPreAcceptReply_wf |}.
Next Obligation.
  intros [v0 v1 v2 v3 v4 v5 v6 v7] Hwf. unfold TryPreAcceptReply_wf in Hwf. cbn [etr_AcceptorId etr_Replica etr_Instance etr_Ballot etr_VBallot etr_ConflictReplica etr_ConflictInstance etr_ConflictStatus] in Hwf. destruct_and? Hwf.
  unfold TryPreAcceptReply_Marshal, TryPreAcceptReply_Unmarshal. cbn [etr_AcceptorId etr_Replica etr_Instance etr_Ballot etr_VBallot etr_ConflictReplica etr_ConflictInstance etr_ConflictStatus]. gob_message.
Qed.

Section preacceptreply.
Context `{Conn}.
Definition PreAcceptReply_Unmarshal : into PreAcceptReply :=
  chunk 21 (fun bs t => t <| epar_Replica := i32_at bs 0 |> <| epar_Instance := i32_at bs 4 |>
    <| epar_Ballot := i32_at bs 8 |> <| epar_VBallot := i32_at bs 12 |> <| epar_Seq := i32_at bs 16 |>
    <| epar_Status := i8_at bs 20 |>) ;>
  slice_into 4 false int32_fields 0 (fun l t => t <| epar_Deps := l |>) ;>
  fun t => slice_into 4 false
    (chunk_upto buffered 4 (if decide (epar_Deps t = []) then 21 else 4)%nat (fun bs _ => i32_at bs 0))
    0 (fun l t => t <| epar_CommittedDeps := l |>) t.
Definition PreAcceptReply_wf (t : PreAcceptReply) : Prop :=
  is_i32 (epar_Replica t) /\ is_i32 (epar_Instance t) /\ is_i32 (epar_Ballot t) /\ is_i32 (epar_VBallot t) /\
  is_i32 (epar_Seq t) /\ is_i8 (epar_Status t) /\
  (Zlength (epar_Deps t) * 4 <= maxAlloc /\ Forall is_i32 (epar_Deps t)) /\
  (Zlength (epar_CommittedDeps t) * 4 <= maxAlloc /\ Forall is_i32 (epar_CommittedDeps t)) /\
  (epar_Deps t <> [] \/ epar_CommittedDeps t = []).

Lemma PreAcceptReply_reads m : PreAcceptReply_wf m ->
  Puts PreAcceptReply_Unmarshal (PreAcceptReply_Marshal m) (mkPreAcceptReply 0 0 0 0 0 [] [] 0) m.
Proof.
  destruct m as [v0 v1 v2 v3 v4 deps cdeps st]. unfold PreAcceptReply_wf.
  cbn [epar_Replica epar_Instance epar_Ballot epar_VBallot epar_Seq epar_Deps epar_CommittedDeps epar_Status].
  intros (H0 & H1 & H2 & H3 & H4 & Hs & [Hl Hd] & [Hl' Hd'] & Hne).
  unfold PreAcceptReply_Marshal, PreAcceptReply_Unmarshal.
  cbn [epar_Replica epar_Instance epar_Ballot epar_VBallot epar_Seq epar_Deps epar_CommittedDeps epar_Status].
  eapply Puts_eq; [eapply Puts_seq; [apply Puts_chunk; reflexivity|]; eapply Puts_seq; [gob_part|]|].
  - intros rest. set (t := _ <| epar_Deps := deps |>). assert (Et : epar_Deps t = deps) by done. rewrite Et.
    refine (Puts_slice 4 false _ le32 0 _ cdeps t _ Hl' _ rest); [lia|].
    destruct Hne as [Hne|Hnil]; [|rewrite Hnil; constructor]. rewrite decide_False by done.
    eapply Forall_impl; [exact Hd'|]. intros x Hx. eapply Puts_eq; [apply Puts_chunk_exact; reflexivity|].
    by apply i32_at_last.
  - cbv beta. autorewrite with gob. reflexivity.
Qed.
#[export] Instance PreAcceptReply_codec : GobCodec PreAcceptReply := {|
  gob_zero := mkPreAcceptReply 0 0 0 0 0 [] [] 0;
  GMarshal := PreAcceptReply_Marshal; GUnmarshal := PreAcceptReply_Unmarshal; GWf := PreAcceptReply_wf;
  gob_reads := PreAcceptReply_reads |}.

(** * The protocol *)

Inductive epaxos_msg :=
| EPrepare (m : Prepare)
| EPrepareReply (m : PrepareReply)
| EPreAccept (m : PreAccept)
| EPreAcceptReply (m : PreAcceptReply)
| EAccept (m : Accept)
| EAcceptReply (m : AcceptReply)
| ECommit (m : Commit)
| ETryPreAccept (m : TryPreAccept)
| ETryPreAcceptReply (m : TryPreAcceptReply).
(** the types in the order they are registered *)
Definition epaxos_msg_types : list (list byte -> dres epaxos_msg) :=
  [decode EPrepare; decode EPrepareReply; decode EPreAccept; decode EPreAcceptReply; decode EAccept; decode EAcceptReply; decode ECommit; decode ETryPreAccept; decode ETryPreAcceptReply].
Definition epaxos_msg_type (m : epaxos_msg) : nat :=
  match m with EPrepare _ => 0 | EPrepareReply _ => 1 | EPreAccept _ => 2 | EPreAcceptReply _ => 3 | EAccept _ => 4 | EAcceptReply _ => 5 | ECommit _ => 6 | ETryPreAccept _ => 7 | ETryPreAcceptReply _ => 8 end.
Definition epaxos_msg_marshal (m : epaxos_msg) : list byte :=
  match m with EPrepare m => Prepare_Marshal m | EPrepareReply m => PrepareReply_Marshal m | EPreAccept m => PreAccept_Marshal m | EPreAcceptReply m => PreAcceptReply_Marshal m | EAccept m => Accept_Marshal m | EAcceptReply m => AcceptReply_Marshal m | ECommit m => Commit_Marshal m | ETryPreAccept m => TryPreAccept_Marshal m | ETryPreAcceptReply m => TryPreAcceptReply_Marshal m end.
Definition epaxos_msg_wf (m : epaxos_msg) : Prop :=
  match m with EPrepare m => Prepare_wf m | EPrepareReply m => PrepareReply_wf m | EPreAccept m => PreAccept_wf m | EPreAcceptReply m => PreAcceptReply_wf m | EAccept m => Accept_wf m | EAcceptReply m => AcceptReply_wf m | ECommit m => Commit_wf m | ETryPreAccept m => TryPreAccept_wf m | ETryPreAcceptReply m => TryPreAcceptReply_wf m end.
Lemma epaxos_msg_reads m : epaxos_msg_wf m ->
  exists d, epaxos_msg_types !! epaxos_msg_type m = Some d /\ forall rest, d (epaxos_msg_marshal m ++ rest) = Done m rest.
Proof. destruct m; intros Hwf; (eexists; split; [reflexivity|]); intros rest; exact (decode_reads _ m rest Hwf). Qed.
#[export] Instance epaxos_msg_protocol : Protocol epaxos_msg := {|
  proto_types := epaxos_msg_types; proto_type := epaxos_msg_type; proto_marshal := epaxos_msg_marshal; proto_wf := epaxos_msg_wf;
  proto_small := ltac:(cbn; lia); proto_reads := epaxos_msg_reads |}.
End preacceptreply.

(** * Constructors, sizes and caches *)

Definition PrepareReply_BinarySize : Z * bool := (0, false).
Definition PrepareReply_New : PrepareReply := mkPrepareReply 0 0 0 0 0 0 [] 0 [].
Definition PrepareReplyCache : Type := Cache PrepareReply.
Definition NewPrepareReplyCache : PrepareReplyCache := NewCache.
Definition PrepareReplyCache_Get (p : PrepareReplyCache) : PrepareReply * PrepareReplyCache := Cache_Get PrepareReply_New p.
Definition PrepareReplyCache_Put (p : PrepareReplyCache) (t : option PrepareReply) : PrepareReplyCache := Cache_Put p t.

Definition PreAccept_BinarySize : Z * bool := (0, false).
Definition PreAccept_New : PreAccept := mkPreAccept 0 0 0 0 [] 0 [].
Definition PreAcceptCache : Type := Cache PreAccept.
Definition NewPreAcceptCache : PreAcceptCache := NewCache.
Definition PreAcceptCache_Get (p : PreAcceptCache) : PreAccept * PreAcceptCache := Cache_Get PreAccept_New p.
Definition PreAcceptCache_Put (p : PreAcceptCache) (t : option PreAccept) : PreAcceptCache := Cache_Put p t.

Definition Accept_BinarySize : Z * bool := (0, false).
Definition Accept_New : Accept := mkAccept 0 0 0 0 0 [].
Definition AcceptCache : Type := Cache Accept.
Definition NewAcceptCache : AcceptCache := NewCache.
Definition AcceptCache_Get (p : AcceptCache) : Accept * AcceptCache := Cache_Get Accept_New p.
Definition AcceptCache_Put (p : AcceptCache) (t : option Accept) : AcceptCache := Cache_Put p t.

Definition AcceptReply_BinarySize : Z * bool := (13, true).
Definition AcceptReply_New : AcceptReply := mkAcceptReply 0 0 0.
Definition AcceptReplyCache : Type := Cache AcceptReply.
Definition NewAcceptReplyCache : AcceptReplyCache := NewCache.
Definition AcceptReplyCache_Get (p : AcceptReplyCache) : AcceptReply * AcceptReplyCache := Cache_Get AcceptReply_New p.
Definition AcceptReplyCache_Put (p : AcceptReplyCache) (t : option AcceptReply) : AcceptReplyCache := Cache_Put p t.

Definition TryPreAccept_BinarySize : Z * bool := (0, false).
Definition TryPreAccept_New : TryPreAccept := mkTryPreAccept 0 0 0 0 [] 0 [].
Definition TryPreAcceptCache : Type := Cache TryPreAccept.
Definition NewTryPreAcceptCache : TryPreAcceptCache := NewCache.
Definition TryPreAcceptCache_Get (p : TryPreAcceptCache) : TryPreAccept * TryPreAcceptCache := Cache_Get TryPreAccept_New p.
Definition TryPreAcceptCache_Put (p : TryPreAcceptCache) (t : option TryPreAccept) : TryPreAcceptCache := Cache_Put p t.

Definition Prepare_BinarySize : Z * bool := (16, true).
Definition Prepare_New : Prepare := mkPrepare 0 0 0 0.
Definition PrepareCache : Type := Cache Prepare.
Definition NewPrepareCache : PrepareCache := NewCache.
Definition PrepareCache_Get (p : PrepareCache) : Prepare * PrepareCache := Cache_Get Prepare_New p.
Definition PrepareCache_Put (p : PrepareCache) (t : option Prepare) : PrepareCache := Cache_Put p t.

Definition PreAcceptReply_BinarySize : Z * bool := (0, false).
Definition PreAcceptReply_New : PreAcceptReply := mkPreAcceptReply 0 0 0 0 0 [] [] 0.
Definition PreAcceptReplyCache : Type := Cache PreAcceptReply.
Definition NewPreAcceptReplyCache : PreAcceptReplyCache := NewCache.
Definition PreAcceptReplyCache_Get (p : PreAcceptReplyCache) : PreAcceptReply * PreAcceptReplyCache := Cache_Get PreAcceptReply_New p.
Definition PreAcceptReplyCache_Put (p : PreAcceptReplyCache) (t : option PreAcceptReply) : PreAcceptReplyCache := Cache_Put p t.

Definition PreAcceptOK_BinarySize : Z * bool := (4, true).
Definition PreAcceptOK_New : PreAcceptOK := mkPreAcceptOK 0.
Definition PreAcceptOKCache : Type := Cache PreAcceptOK.
Definition NewPreAcceptOKCache : PreAcceptOKCache := NewCache.
Definition PreAcceptOKCache_Get (p : PreAcceptOKCache) : PreAcceptOK * PreAcceptOKCache := Cache_Get PreAcceptOK_New p.
Definition PreAcceptOKCache_Put (p : PreAcceptOKCache) (t : option PreAcceptOK) : PreAcceptOKCache := Cache_Put p t.

Definition Commit_BinarySize : Z * bool := (0, false).
Definition Commit_New : Commit := mkCommit 0 0 0 0 [] 0 [].
Definition CommitCache : Type := Cache Commit.
Definition NewCommitCache : CommitCache := NewCache.
Definition CommitCache_Get (p : CommitCache) : Commit * CommitCache := Cache_Get Commit_New p.
Definition CommitCache_Put (p : CommitCache) (t : option Commit) : CommitCache := Cache_Put p t.

Definition TryPreAcceptReply_BinarySize : Z * bool := (26, true).
Definition TryPreAcceptReply_New : TryPreAcceptReply := mkTryPreAcceptReply 0 0 0 0 0 0 0 0.
Definition TryPreAcceptReplyCache : Type := Cache TryPreAcceptReply.
Definition NewTryPreAcceptReplyCache : TryPreAcceptReplyCache := NewCache.
Definition TryPreAcceptReplyCache_Get (p : TryPreAcceptReplyCache) : TryPreAcceptReply * TryPreAcceptReplyCache := Cache_Get TryPreAcceptReply_New p.
Definition TryPreAcceptReplyCache_Put (p : TryPreAcceptReplyCache) (t : option TryPreAcceptReply) : TryPreAcceptReplyCache := Cache_Put p t.
