(* ===== verification/EPaxos.v ===== *)
(** The EPaxos baseline ([src/epaxos/epaxos.go]): the messages, the state, and every
    handler of [run].

    A handler runs in the goroutine of [run] and is one step; see [Handlers] for how it
    ends.  A [[]int32] is a pointer to an array in [x_heap], because the handlers share
    such slices and write through them ([mergeAttributes]); [None] is the nil slice.  A
    slice that was decoded is never nil.  An instance is named by its row and number: no
    handler keeps a pointer to one that was replaced.  [int32] arithmetic wraps.  The
    time an instance is made at is read from [x_now]. *)
From stdpp Require Import gmap list.
From S2P Require Import Prelude WireBase Wire State QuorumSets GobWire DefsWire Handlers EpaxosWire.

(** * State *)

(** the values of [Status], an [int8] *)
Definition st_NONE : Z := 0.
Definition st_PREACCEPTED : Z := 1.
Definition st_PREACCEPTED_EQ : Z := 2.
Definition st_ACCEPTED : Z := 3.
Definition st_COMMITTED : Z := 4.
Definition st_EXECUTED : Z := 5.
Definition MAX_INSTANCE : Z := 10 * 1024 * 1024.

Record InstPair := mkInstPair { ip_last : Z; ip_lastWrite : Z }.

(** a [PrepareReply] that is kept: its slices are shared *)
Record KeptReply := mkKeptReply {
  kr_AcceptorId : Z; kr_Replica : Z; kr_Instance : Z; kr_Ballot : Z; kr_VBallot : Z; kr_Status : Z;
  kr_Command : option (list Command); kr_Seq : Z; kr_Deps : option nat }.

Record EBookkeeping := mkEB {
  el_clientProposals : option (list GPropose);
  el_ballot : Z; el_allEqual : bool; el_preAcceptOKs : Z; el_acceptOKs : Z; el_nacks : Z;
  el_originalDeps : option nat; el_committedDeps : option nat;
  el_prepareReplies : list KeptReply;
  el_preparing : bool; el_tryingToPreAccept : bool;
  el_possibleQuorum : list bool; el_tpaReps : Z; el_tpaAccepted : bool;
  el_lastTriedBallot : Z;
  el_cmds : option (list Command); el_status : Z; el_seq : Z; el_deps : option nat;
  el_leaderResponded : bool }.
#[export] Instance eta_EB : Eta EBookkeeping := fun l =>
  mkEB (el_clientProposals l) (el_ballot l) (el_allEqual l) (el_preAcceptOKs l) (el_acceptOKs l) (el_nacks l)
    (el_originalDeps l) (el_committedDeps l) (el_prepareReplies l) (el_preparing l) (el_tryingToPreAccept l)
    (el_possibleQuorum l) (el_tpaReps l) (el_tpaAccepted l) (el_lastTriedBallot l) (el_cmds l) (el_status l)
    (el_seq l) (el_deps l) (el_leaderResponded l).

Record EInstance := mkEInstance {
  ei_Cmds : option (list Command);
  ei_bal : Z; ei_vbal : Z; ei_Status : Z; ei_Seq : Z;
  ei_Deps : option nat;
  ei_lb : option EBookkeeping;
  ei_Index : Z; ei_Lowlink : Z;
  ei_proposeTime : Z;
  ei_id : Z * Z }.
#[export] Instance eta_EInstance : Eta EInstance := fun i =>
  mkEInstance (ei_Cmds i) (ei_bal i) (ei_vbal i) (ei_Status i) (ei_Seq i) (ei_Deps i) (ei_lb i) (ei_Index i)
    (ei_Lowlink i) (ei_proposeTime i) (ei_id i).

Record EReplica (TM : Treemap Value) := mkEReplica {
  x_Id : Z; x_N : Z; x_F : Z;
  x_PeerWriters : list bool; x_Alive : list bool; x_PreferredPeerOrder : list Z;
  x_ProposeChan : list GPropose;
  x_Thrifty : bool; x_LRead : bool; x_Dreply : bool; x_Durable : bool;
  x_State : tm_carrier TM;
  x_InstanceSpace : gmap (Z * Z) EInstance;
  x_crtInstance : list Z; x_CommittedUpTo : list Z; x_ExecedUpTo : list Z;
  x_conflicts : list (gmap Z InstPair);
  x_maxSeqPerKey : gmap Z Z; x_maxSeq : Z;
  x_instancesToRecover : list (Z * Z);
  x_IsLeader : bool; x_maxRecvBallot : Z; x_transconf : bool;
  x_deferMap : gmap Z Z;
  x_heap : gmap nat (list Z);
  x_now : Z }.
Arguments mkEReplica {TM}. Arguments x_Id {TM}. Arguments x_N {TM}. Arguments x_F {TM}. Arguments x_PeerWriters {TM}.
Arguments x_Alive {TM}. Arguments x_PreferredPeerOrder {TM}. Arguments x_ProposeChan {TM}. Arguments x_Thrifty {TM}.
Arguments x_LRead {TM}. Arguments x_Dreply {TM}. Arguments x_Durable {TM}. Arguments x_State {TM}.
Arguments x_InstanceSpace {TM}. Arguments x_crtInstance {TM}. Arguments x_CommittedUpTo {TM}. Arguments x_ExecedUpTo {TM}.
Arguments x_conflicts {TM}. Arguments x_maxSeqPerKey {TM}. Arguments x_maxSeq {TM}. Arguments x_instancesToRecover {TM}.
Arguments x_IsLeader {TM}. Arguments x_maxRecvBallot {TM}. Arguments x_transconf {TM}. Arguments x_deferMap {TM}.
Arguments x_heap {TM}. Arguments x_now {TM}.
#[export] Instance eta_EReplica {TM} : Eta (EReplica TM) := fun r =>
  mkEReplica (x_Id r) (x_N r) (x_F r) (x_PeerWriters r) (x_Alive r) (x_PreferredPeerOrder r) (x_ProposeChan r)
    (x_Thrifty r) (x_LRead r) (x_Dreply r) (x_Durable r) (x_State r) (x_InstanceSpace r) (x_crtInstance r)
    (x_CommittedUpTo r) (x_ExecedUpTo r) (x_conflicts r) (x_maxSeqPerKey r) (x_maxSeq r) (x_instancesToRecover r)
    (x_IsLeader r) (x_maxRecvBallot r) (x_transconf r) (x_deferMap r) (x_heap r) (x_now r).

Inductive e_effect :=
| XSend (peer : Z) (m : epaxos_msg)
| XReply (client : Z) (m : ProposeReplyTS)
| XStoreWrite (b : list byte)
| XStoreSync.

(** a list that is written at an index: out of range panics *)
Definition set_index {A} (l : list A) (i : Z) (x : A) : outcome (list A) :=
  _ <~ index l i ;; Ok (<[Z.to_nat i := x]> l).

Section epaxos.
Context {TM : Treemap Value}.
Implicit Types r : EReplica TM.

(** [New]; without a peer yet *)
Definition New_ (id N F : Z) (durable transconf : bool) : EReplica TM :=
  mkEReplica id N F (replicate (Z.to_nat N) false) (replicate (Z.to_nat N) false)
    ((fun i => Z.rem (id + 1 + i) N) <$> seqZ 0 N) [] true false true durable InitState ∅
    (replicate (Z.to_nat N) (-1)) (replicate (Z.to_nat N) (-1)) (replicate (Z.to_nat N) (-1))
    (replicate (Z.to_nat N) ∅) ∅ 0 [] false (-1) transconf ∅ ∅ 0.

Definition FastQuorumSize r : Z := x_F r + Z.quot (x_F r + 1) 2.
Definition SlowQuorumSize r : Z := Z.quot (x_N r + 1) 2.

(** ** Slices of [int32] *)

Definition new_slice r (l : list Z) : EReplica TM * option nat :=
  let a := fresh (dom (x_heap r)) in (r <| x_heap ::= <[a := l]> |>, Some a).
Definition slice r (p : option nat) : list Z := match p with Some a => default [] (x_heap r !! a) | None => [] end.
Definition slice_at r (p : option nat) (i : Z) : outcome Z := index (slice r p) i.
Definition set_slice r (p : option nat) (i v : Z) : outcome (EReplica TM) :=
  l <~ set_index (slice r p) i v ;;
  a <~ deref p ;; Ok (r <| x_heap ::= <[a := l]> |>).
Definition nil_deps r : list Z := replicate (Z.to_nat (x_N r)) (-1).

(** ** Instances *)

(** [r.InstanceSpace\[q\]\[i\]] *)
Definition inst_at r (q i : Z) : outcome (option EInstance) :=
  if (q <? 0) || (x_N r <=? q) || (i <? 0) || (MAX_INSTANCE <=? i) then Panic else Ok (x_InstanceSpace r !! (q, i)).
Definition set_inst r (q i : Z) (inst : EInstance) : EReplica TM := r <| x_InstanceSpace ::= <[(q, i) := inst]> |>.

Definition newInstance r (replica instance : Z) (cmds : option (list Command)) (cballot lballot status seq : Z)
    (deps : option nat) : EInstance :=
  mkEInstance cmds cballot lballot status seq deps None 0 0 (x_now r) (replica, instance).
Definition newInstanceDefault r (replica instance : Z) : EInstance :=
  newInstance r replica instance None (-1) (-1) st_NONE (-1) None.

Definition newLeaderBookkeeping r (p : option (list GPropose)) (originalDeps committedDeps deps : option nat)
    (lastTriedBallot : Z) (cmds : option (list Command)) (status seq : Z) : EBookkeeping :=
  mkEB p (-1) true 0 0 0 originalDeps committedDeps [] true false (replicate (Z.to_nat (x_N r)) false) 0 false
    lastTriedBallot cmds status seq deps false.
(** [newNilDeps], [newLeaderBookkeepingDefault] *)
Definition newNilDeps r : EReplica TM * option nat := new_slice r (nil_deps r).
Definition newLeaderBookkeepingDefault r : EReplica TM * EBookkeeping :=
  let (r, a) := newNilDeps r in
  let (r, b) := newNilDeps r in
  let (r, c) := newNilDeps r in
  (r, newLeaderBookkeeping r None a b c 0 None st_NONE (-1)).

(** [if inst == nil { inst = r.newInstanceDefault(...) }] *)
Definition open_inst r (q i : Z) : outcome (EReplica TM * EInstance) :=
  o <~ inst_at r q i ;;
  match o with
  | Some inst => Ok (r, inst)
  | None => let inst := newInstanceDefault r q i in Ok (set_inst r q i inst, inst)
  end.

(** ** Stable storage *)

(** the buffer has room for [N] dependencies *)
Definition recordInstanceMetadata r (inst : EInstance) : outcome (list e_effect) :=
  if negb (x_Durable r) then Ok []
  else
    let deps := slice r (ei_Deps inst) in
    if x_N r <? Zlength deps then Panic
    else Ok [XStoreWrite (le32 (ei_vbal inst) ++ [byte_of (ei_Status inst)] ++ le32 (ei_Seq inst) ++ concat (le32 <$> deps) ++
                          zeros (Z.to_nat ((x_N r - Zlength deps) * 4)))].
Definition recordCommands r (cmds : option (list Command)) : list e_effect :=
  if negb (x_Durable r) then [] else (fun c => XStoreWrite (Command_Marshal c)) <$> default [] cmds.
Definition sync r : list e_effect := if negb (x_Durable r) then [] else [XStoreSync].

(** ** Sending *)

Definition SendMsg r (peer : Z) (m : epaxos_msg) : outcome (list e_effect) :=
  up <~ index (x_PeerWriters r) peer ;; Ok (if up : bool then [XSend peer m] else []).
Definition replyPrepare r (replicaId : Z) (reply : PrepareReply) := SendMsg r replicaId (EPrepareReply reply).
Definition replyPreAccept r (replicaId : Z) (reply : PreAcceptReply) := SendMsg r replicaId (EPreAcceptReply reply).
Definition replyAccept r (replicaId : Z) (reply : AcceptReply) := SendMsg r replicaId (EAcceptReply reply).
Definition replyTryPreAccept r (replicaId : Z) (reply : TryPreAcceptReply) := SendMsg r replicaId (ETryPreAcceptReply reply).

(** the loops of the broadcasts: to the live ones of [peers], until [n] were sent; a
    panic ends the loop, it is recovered *)
Fixpoint bcast_to r (peers : list Z) (n : Z) (m : epaxos_msg) : list e_effect :=
  match peers with
  | [] => []
  | q :: peers =>
      match index (x_Alive r) q with
      | Ok true =>
          match SendMsg r q m with
          | Ok fx => fx ++ (if n <=? 1 then [] else bcast_to r peers (n - 1) m)
          | _ => []
          end
      | Ok false => bcast_to r peers n m
      | _ => []
      end
  end.
(** the peers in their order of preference, and in the order of their numbers *)
Definition preferred r : list Z := take (Z.to_nat (x_N r - 1)) (x_PreferredPeerOrder r).
Definition others r : list Z := filter (fun q => q <> x_Id r) (seqZ 0 (x_N r)).

(** [r.InstanceSpace\[replica\]\[instance\].lb], which a broadcast starts with *)
Definition bookkeeping r (q i : Z) : option EBookkeeping :=
  match inst_at r q i with Ok (Some inst) => ei_lb inst | _ => None end.

Definition bcastPrepare r (replica instance : Z) : list e_effect :=
  match bookkeeping r replica instance with
  | None => []
  | Some lb =>
      bcast_to r ((fun k => Z.rem (x_Id r + 1 + k) (x_N r)) <$> seqZ 0 (x_N r - 1)) (x_N r - 1)
        (EPrepare (mkPrepare (x_Id r) replica instance (el_lastTriedBallot lb)))
  end.
Definition bcastPreAccept r (replica instance : Z) : list e_effect :=
  match bookkeeping r replica instance with
  | None => []
  | Some lb =>
      bcast_to r (preferred r) (if x_Thrifty r then FastQuorumSize r - 1 else x_N r - 1)
        (EPreAccept (mkPreAccept (x_Id r) replica instance (el_lastTriedBallot lb) (default [] (el_cmds lb)) (el_seq lb)
           (slice r (el_deps lb))))
  end.
Definition bcastTryPreAccept r (replica instance : Z) : list e_effect :=
  match bookkeeping r replica instance with
  | None => []
  | Some lb =>
      bcast_to r (others r) (x_N r)
        (ETryPreAccept (mkTryPreAccept (x_Id r) replica instance (el_lastTriedBallot lb) (default [] (el_cmds lb)) (el_seq lb)
           (slice r (el_deps lb))))
  end.
Definition bcastAccept r (replica instance : Z) : list e_effect :=
  match bookkeeping r replica instance with
  | None => []
  | Some lb =>
      bcast_to r (preferred r) (if x_Thrifty r then Z.quot (x_N r) 2 else x_N r - 1)
        (EAccept (mkAccept (x_Id r) replica instance (el_lastTriedBallot lb) (el_seq lb) (slice r (el_deps lb))))
  end.
Definition bcastCommit r (replica instance : Z) : list e_effect :=
  match bookkeeping r replica instance with
  | None => []
  | Some lb =>
      bcast_to r (preferred r) (x_N r)
        (ECommit (mkCommit (x_Id r) replica instance (el_ballot lb) (default [] (el_cmds lb)) (el_seq lb) (slice r (el_deps lb))))
  end.

(** ** Attributes *)

(** [updateCommitted]'s loop from [i]; [fuel] is more than the instances there are *)
Fixpoint committed_loop (fuel : nat) r (replica i : Z) : outcome Z :=
  match fuel with
  | O => Stuck
  | S fuel =>
      o <~ inst_at r replica (i32 (i + 1)) ;;
      match o with
      | Some inst =>
          if (ei_Status inst =? st_COMMITTED) || (ei_Status inst =? st_EXECUTED)
          then committed_loop fuel r replica (i32 (i + 1)) else Ok i
      | None => Ok i
      end
  end.
Definition updateCommitted r (replica : Z) : outcome (EReplica TM) :=
  i <~ index (x_CommittedUpTo r) replica ;;
  i <~ committed_loop (S (size (x_InstanceSpace r))) r replica i ;;
  l <~ set_index (x_CommittedUpTo r) replica i ;;
  Ok (r <| x_CommittedUpTo := l |>).

(** a command in a row's table of the last instances per key *)
Definition note_conflict (c : gmap Z InstPair) (cmd : Command) (instance : Z) : gmap Z InstPair :=
  match c !! cmd_K cmd with
  | Some p =>
      let p1 := if ip_last p <? instance then mkInstPair instance (ip_lastWrite p) else p in
      let p2 := if (ip_lastWrite p <? instance) && negb (is_op cmd GET) then mkInstPair (ip_last p1) instance else p1 in
      <[cmd_K cmd := p2]> c
  | None => <[cmd_K cmd := mkInstPair instance (if is_op cmd GET then -1 else instance)]> c
  end.
Definition note_seq (m : gmap Z Z) (cmd : Command) (seq : Z) : gmap Z Z :=
  match m !! cmd_K cmd with
  | Some s => if s <? seq then <[cmd_K cmd := seq]> m else m
  | None => <[cmd_K cmd := seq]> m
  end.
Fixpoint updateConflicts r (cmds : list Command) (replica instance seq : Z) : outcome (EReplica TM) :=
  match cmds with
  | [] => Ok r
  | cmd :: cmds =>
      c <~ index (x_conflicts r) replica ;;
      l <~ set_index (x_conflicts r) replica (note_conflict c cmd instance) ;;
      updateConflicts (r <| x_conflicts := l |> <| x_maxSeqPerKey ::= fun m => note_seq m cmd seq |>) cmds replica instance seq
  end.

(** the instance of a row that a command must follow *)
Definition last_conflict (c : gmap Z InstPair) (cmd : Command) : option Z :=
  match c !! cmd_K cmd with
  | Some p => Some (if is_op cmd GET then ip_lastWrite p else ip_last p)
  | None => None
  end.

(** the inner loop for row [q]; it ends at the first command that raises the dependency *)
Fixpoint attributes_row r (q : Z) (c : gmap Z InstPair) (cmds : list Command) (seq : Z) (deps : option nat) :
    outcome (EReplica TM * Z * bool) :=
  match cmds with
  | [] => Ok (r, seq, false)
  | cmd :: cmds =>
      match last_conflict c cmd with
      | None => attributes_row r q c cmds seq deps
      | Some d =>
          cur <~ slice_at r deps q ;;
          if cur <? d then
            r <~ set_slice r deps q d ;;
            o <~ inst_at r q d ;; inst <~ deref o ;;
            Ok (r, if seq <=? ei_Seq inst then i32 (ei_Seq inst + 1) else seq, true)
          else attributes_row r q c cmds seq deps
      end
  end.
Fixpoint attributes_rows r (qs : list Z) (cmds : list Command) (seq : Z) (deps : option nat) (replica : Z) (changed : bool) :
    outcome (EReplica TM * Z * bool) :=
  match qs with
  | [] => Ok (r, seq, changed)
  | q :: qs =>
      if negb (x_Id r =? replica) && (q =? replica) then attributes_rows r qs cmds seq deps replica changed
      else
        '(r, seq, ch) <~ match cmds with
                         | [] => Ok (r, seq, false)
                         | _ => c <~ index (x_conflicts r) q ;; attributes_row r q c cmds seq deps
                         end ;;
        attributes_rows r qs cmds seq deps replica (changed || ch)
  end.
(** the loop over [maxSeqPerKey] *)
Definition raise_seq (m : gmap Z Z) (cmds : list Command) (seq : Z) : Z * bool :=
  foldl (fun (sc : Z * bool) cmd =>
    match m !! cmd_K cmd with
    | Some s => if sc.1 <=? s then (i32 (s + 1), true) else sc
    | None => sc
    end) (seq, false) cmds.
Definition updateAttributes r (cmds : list Command) (seq : Z) (deps : option nat) (replica : Z) :
    outcome (EReplica TM * Z * bool) :=
  '(r, seq, changed) <~ attributes_rows r (seqZ 0 (x_N r)) cmds seq deps replica false ;;
  let (seq, raised) := raise_seq (x_maxSeqPerKey r) cmds seq in
  Ok (r, seq, changed || raised).

Fixpoint merge_rows r (qs : list Z) (deps1 deps2 : option nat) (equal : bool) : outcome (EReplica TM * bool) :=
  match qs with
  | [] => Ok (r, equal)
  | q :: qs =>
      if q =? x_Id r then merge_rows r qs deps1 deps2 equal
      else
        d1 <~ slice_at r deps1 q ;; d2 <~ slice_at r deps2 q ;;
        if d1 =? d2 then merge_rows r qs deps1 deps2 equal
        else
          r <~ (if d1 <? d2 then set_slice r deps1 q d2 else Ok r) ;;
          merge_rows r qs deps1 deps2 false
  end.
(** it writes through [deps1] *)
Definition mergeAttributes r (seq1 : Z) (deps1 : option nat) (seq2 : Z) (deps2 : option nat) :
    outcome (EReplica TM * Z * bool) :=
  '(r, equal) <~ merge_rows r (seqZ 0 (x_N r)) deps1 deps2 (seq1 =? seq2) ;;
  Ok (r, if seq1 <? seq2 then seq2 else seq1, equal).

Fixpoint equal (deps1 deps2 : list Z) : outcome bool :=
  match deps1, deps2 with
  | [], _ => Ok true
  | _ :: _, [] => Panic
  | a :: deps1, b :: deps2 => if a =? b then equal deps1 deps2 else Ok false
  end.

(** ** Ballots *)

Definition isInitialBallot (ballot replica instance : Z) : bool := ballot =? replica.

Fixpoint raise_ballot (fuel : nat) (n m N : Z) : outcome Z :=
  match fuel with
  | O => Stuck
  | S fuel => if n <? m then raise_ballot fuel (i32 (n + i32 N)) m N else Ok n
  end.
(** enough turns to pass the bound; where the addition may wrap, [n] repeats after
    2^32 turns, and the loop does not end if it has not ended by then *)
Definition raise_fuel (n m N : Z) : nat :=
  if (0 <? N) && (m + N <? 2 ^ 31) then S (Z.to_nat (m - n)) else Z.to_nat (2 ^ 32).
Definition makeBallot r (replica instance : Z) : outcome (EReplica TM) :=
  o <~ inst_at r replica instance ;; inst <~ deref o ;;
  let n := if x_Id r =? replica then x_Id r else i32 (x_Id r + i32 (x_N r)) in
  n <~ (if x_IsLeader r then raise_ballot (raise_fuel n (x_maxRecvBallot r) (x_N r)) n (x_maxRecvBallot r) (x_N r) else Ok n) ;;
  lb <~ deref (ei_lb inst) ;;
  Ok (set_inst r replica instance (inst <| ei_lb := Some (lb <| el_lastTriedBallot := n |>) |>)).

(** [if b > r.maxRecvBallot { r.maxRecvBallot = b }] *)
Definition see_ballot r (b : Z) : EReplica TM := if x_maxRecvBallot r <? b then r <| x_maxRecvBallot := b |> else r.
(** [if i > r.crtInstance\[q\] { r.crtInstance\[q\] = i }] *)
Definition hear_instance r (q i : Z) : outcome (EReplica TM) :=
  c <~ index (x_crtInstance r) q ;;
  if c <? i then l <~ set_index (x_crtInstance r) q i ;; Ok (r <| x_crtInstance := l |>) else Ok r.

(** ** Phase 1 *)

Definition handler : Type := outcome (EReplica TM * list e_effect).

Definition startPhase1 r (cmds : list Command) (replica instance ballot : Z) (proposals : option (list GPropose)) : handler :=
  let (r, deps) := new_slice r (nil_deps r) in
  '(r, seq, _) <~ updateAttributes r cmds 0 deps replica ;;
  let (r, comDeps) := new_slice r (nil_deps r) in
  _ <~ inst_at r replica instance ;;
  let inst := newInstance r replica instance (Some cmds) ballot ballot st_PREACCEPTED seq deps in
  let inst := inst <| ei_lb := Some (newLeaderBookkeeping r proposals deps comDeps deps ballot (Some cmds) st_PREACCEPTED (-1)) |> in
  let r := set_inst r replica instance inst in
  r <~ updateConflicts r cmds replica instance seq ;;
  let r := if x_maxSeq r <=? seq then r <| x_maxSeq := seq |> else r in
  o <~ inst_at r (x_Id r) instance ;;
  fx <~ (if x_Durable r then mine <~ deref o ;; recordInstanceMetadata r mine else Ok []) ;;
  Ok (r, fx ++ recordCommands r (Some cmds) ++ sync r ++ bcastPreAccept r replica instance).

Definition handlePropose r (propose : GPropose) : handler :=
  let proposals := propose :: x_ProposeChan r in
  let r := r <| x_ProposeChan := [] |> in
  c <~ index (x_crtInstance r) (x_Id r) ;;
  l <~ set_index (x_crtInstance r) (x_Id r) (i32 (c + 1)) ;;
  startPhase1 (r <| x_crtInstance := l |>) (gp_Command <$> proposals) (x_Id r) (i32 (c + 1)) (x_Id r) (Some proposals).

Definition handlePreAccept r (m : PreAccept) : handler :=
  let q := epa_Replica m in
  let i := epa_Instance m in
  _ <~ inst_at r q i ;;
  let (r, deps) := new_slice r (epa_Deps m) in
  let r := if x_maxSeq r <=? epa_Seq m then r <| x_maxSeq := i32 (epa_Seq m + 1) |> else r in
  let r := see_ballot r (epa_Ballot m) in
  r <~ hear_instance r q i ;;
  '(r, inst) <~ open_inst r q i ;;
  if epa_Ballot m <? ei_bal inst then Ok (r, []) else
  let inst := inst <| ei_bal := epa_Ballot m |> in
  let r := set_inst r q i inst in
  '(r, fx) <~
    (if st_ACCEPTED <=? ei_Status inst then
       match ei_Cmds inst with
       | Some _ => Ok (r, [])
       | None =>
           (* the row of the sender, not of the instance *)
           o <~ inst_at r (epa_LeaderId m) i ;; other <~ deref o ;;
           let r := set_inst r (epa_LeaderId m) i (other <| ei_Cmds := Some (epa_Command m) |>) in
           r <~ updateConflicts r (epa_Command m) q i (epa_Seq m) ;;
           Ok (r, recordCommands r (Some (epa_Command m)) ++ sync r)
       end
     else
       '(r, seq, changed) <~ updateAttributes r (epa_Command m) (epa_Seq m) deps q ;;
       let inst := inst <| ei_Cmds := Some (epa_Command m) |> <| ei_Seq := seq |> <| ei_Deps := deps |>
                        <| ei_bal := epa_Ballot m |> <| ei_vbal := epa_Ballot m |>
                        <| ei_Status := if (changed : bool) then st_PREACCEPTED else st_PREACCEPTED_EQ |> in
       let r := set_inst r q i inst in
       r <~ updateConflicts r (epa_Command m) q i (epa_Seq m) ;;
       fx <~ recordInstanceMetadata r inst ;;
       Ok (r, fx ++ recordCommands r (Some (epa_Command m)) ++ sync r)) ;;
  o <~ inst_at r q i ;; inst <~ deref o ;;
  fx' <~ replyPreAccept r (epa_LeaderId m)
           (mkPreAcceptReply q i (ei_bal inst) (ei_vbal inst) (ei_Seq inst) (slice r (ei_Deps inst)) (x_CommittedUpTo r)
              (ei_Status inst)) ;;
  Ok (r, fx ++ fx').

(** the proposals are answered when they need no result *)
Definition reply_all r (inst : EInstance) : list e_effect :=
  match ei_lb inst ≫= el_clientProposals with
  | Some ps =>
      if x_Dreply r then []
      else (fun p => XReply (gp_Reply p) (mkProposeReplyTS PTRUE (gp_CommandId p) NIL (gp_Timestamp p))) <$> ps
  | None => []
  end.

(** more than half have refused: a leader tries a new ballot *)
Definition nack r (q i : Z) (inst : EInstance) (lb : EBookkeeping) : handler :=
  let lb := lb <| el_nacks ::= fun n => n + 1 |> in
  let r := set_inst r q i (inst <| ei_lb := Some lb |>) in
  if (Z.shiftr (x_N r) 1 <? el_nacks lb + 1) && x_IsLeader r
  then r <~ makeBallot r q i ;; Ok (r, bcastPrepare r q i)
  else Ok (r, []).

(** the committed dependencies the repliers report; only for [N > 7] *)
Fixpoint all_committed r (qs : list Z) (committed : option nat) (theirs : list Z) (mine : option nat) (all : bool) :
    outcome (EReplica TM * bool) :=
  match qs with
  | [] => Ok (r, all)
  | q :: qs =>
      c <~ slice_at r committed q ;; t <~ index theirs q ;;
      r <~ (if c <? t then set_slice r committed q t else Ok r) ;;
      c <~ slice_at r committed q ;; u <~ index (x_CommittedUpTo r) q ;;
      r <~ (if c <? u then set_slice r committed q u else Ok r) ;;
      c <~ slice_at r committed q ;; d <~ slice_at r mine q ;;
      all_committed r qs committed theirs mine (all && negb (c <? d))
  end.

(** the instance takes what its bookkeeping holds *)
Definition adopt (inst : EInstance) (lb : EBookkeeping) : EInstance :=
  inst <| ei_Status := el_status lb |> <| ei_bal := el_ballot lb |> <| ei_Cmds := el_cmds lb |> <| ei_Deps := el_deps lb |>
       <| ei_Seq := el_seq lb |> <| ei_lb := Some lb |>.

Definition handlePreAcceptReply r (m : PreAcceptReply) : handler :=
  let q := epar_Replica m in
  let i := epar_Instance m in
  o <~ inst_at r q i ;; inst <~ deref o ;;
  let (r, their) := new_slice r (epar_Deps m) in
  let r := see_ballot r (epar_Ballot m) in
  lb <~ deref (ei_lb inst) ;;
  if epar_Ballot m <? el_lastTriedBallot lb then Ok (r, [])
  else if el_lastTriedBallot lb <? epar_Ballot m then nack r q i inst lb
  else if negb (el_status lb =? st_PREACCEPTED) && negb (el_status lb =? st_PREACCEPTED_EQ) then Ok (r, [])
  else
    let lb := lb <| el_preAcceptOKs ::= fun n => n + 1 |> in
    let lb := if el_ballot lb <? epar_VBallot m
              then lb <| el_ballot := epar_VBallot m |> <| el_seq := epar_Seq m |> <| el_deps := their |>
                      <| el_status := epar_Status m |>
              else lb in
    let initial := isInitialBallot (el_lastTriedBallot lb) q i in
    '(r, seq, allEqual) <~ mergeAttributes r (el_seq lb) (el_deps lb) (epar_Seq m) their ;;
    let lb := if (x_N r <=? 3) && x_Thrifty r then lb else lb <| el_allEqual ::= fun b => b && allEqual |> in
    '(r, allCommitted) <~
      (if 7 <? x_N r then all_committed r (seqZ 0 (x_N r)) (el_committedDeps lb) (epar_CommittedDeps m) (ei_Deps inst) true
       else Ok (r, true)) ;;
    (* [deps] is the slice of [lb.deps] *)
    let lb := if el_status lb <=? st_PREACCEPTED_EQ then lb <| el_seq := seq |> else lb in
    let precondition := el_allEqual lb && allCommitted && initial in
    if (FastQuorumSize r - 1 <=? el_preAcceptOKs lb) && precondition then
      let inst := adopt inst (lb <| el_status := st_COMMITTED |>) in
      let r := set_inst r q i inst in
      fx <~ recordInstanceMetadata r inst ;;
      let fx := fx ++ sync r in
      r <~ updateCommitted r q ;;
      Ok (r, fx ++ reply_all r inst ++ bcastCommit r q i)
    else if FastQuorumSize r - 1 <=? el_preAcceptOKs lb then
      let inst := adopt inst (lb <| el_status := st_ACCEPTED |>) in
      let r := set_inst r q i inst in
      fx <~ recordInstanceMetadata r inst ;;
      Ok (r, fx ++ sync r ++ bcastAccept r q i)
    else Ok (set_inst r q i (inst <| ei_lb := Some lb |>), []).

(** ** Phase 2 and commit *)

Definition handleAccept r (m : Accept) : handler :=
  let q := ea_Replica m in
  let i := ea_Instance m in
  _ <~ inst_at r q i ;;
  let (r, deps) := new_slice r (ea_Deps m) in
  let r := see_ballot r (ea_Ballot m) in
  r <~ hear_instance r q i ;;
  '(r, inst) <~ open_inst r q i ;;
  '(r, inst, fx) <~
    (if (ea_Ballot m <? ei_bal inst) || (st_COMMITTED <=? ei_Status inst) then Ok (r, inst, [])
     else
       (* the status and the commands stay *)
       let inst := inst <| ei_Deps := deps |> <| ei_Seq := ea_Seq m |> <| ei_bal := ea_Ballot m |> <| ei_vbal := ea_Ballot m |> in
       let r := set_inst r q i inst in
       fx <~ recordInstanceMetadata r inst ;; Ok (r, inst, fx ++ sync r)) ;;
  fx' <~ replyAccept r (ea_LeaderId m) (mkAcceptReply q i (ei_bal inst)) ;;
  Ok (r, fx ++ fx').

Definition handleAcceptReply r (m : AcceptReply) : handler :=
  let q := ear_Replica m in
  let i := ear_Instance m in
  o <~ inst_at r q i ;; inst <~ deref o ;;
  let r := see_ballot r (ear_Ballot m) in
  lb <~ deref (ei_lb inst) ;;
  if negb (el_status lb =? st_ACCEPTED) || negb (el_lastTriedBallot lb =? ear_Ballot m) then Ok (r, [])
  else if el_lastTriedBallot lb <? ear_Ballot m then nack r q i inst lb
  else
    let lb := lb <| el_acceptOKs ::= fun n => n + 1 |> in
    if Z.quot (x_N r) 2 <? el_acceptOKs lb + 1 then
      let inst := inst <| ei_lb := Some (lb <| el_status := st_COMMITTED |>) |> <| ei_Status := st_COMMITTED |> in
      let r := set_inst r q i inst in
      r <~ updateCommitted r q ;;
      fx <~ recordInstanceMetadata r inst ;;
      Ok (r, fx ++ sync r ++ reply_all r inst ++ bcastCommit r q i)
    else Ok (set_inst r q i (inst <| ei_lb := Some lb |>), []).

(** the proposals of a replica's own instance that was made a no-op go back to the
    queue, which this goroutine drains *)
Definition requeue r (inst : EInstance) (cmds : list Command) : outcome (EReplica TM * EInstance) :=
  if Nat.eqb (length cmds) 1 && match cmds with c :: _ => is_op c NONE | [] => false end then
    lb <~ deref (ei_lb inst) ;;
    match el_clientProposals lb with
    | None => Ok (r, inst)
    | Some ps =>
        if CHAN_BUFFER_SIZE <? Zlength (x_ProposeChan r) + Zlength ps then Stuck
        else Ok (r <| x_ProposeChan ::= fun l => l ++ ps |>, inst <| ei_lb := Some (lb <| el_clientProposals := None |>) |>)
    end
  else Ok (r, inst).

Definition handleCommit r (m : Commit) : handler :=
  let q := ec_Replica m in
  let i := ec_Instance m in
  _ <~ inst_at r q i ;;
  let (r, deps) := new_slice r (ec_Deps m) in
  r <~ hear_instance r q i ;;
  let r := see_ballot r (ec_Ballot m) in
  '(r, inst) <~ open_inst r q i ;;
  if (st_COMMITTED <=? ei_Status inst) || (ec_Ballot m <? ei_bal inst) then Ok (r, []) else
  '(r, inst) <~ (if q =? x_Id r then requeue r inst (ec_Command m) else Ok (r, inst)) ;;
  let inst := inst <| ei_bal := ec_Ballot m |> <| ei_vbal := ec_Ballot m |> <| ei_Cmds := Some (ec_Command m) |>
                   <| ei_Seq := ec_Seq m |> <| ei_Deps := deps |> <| ei_Status := st_COMMITTED |> in
  let r := set_inst r q i inst in
  r <~ updateConflicts r (ec_Command m) q i (ec_Seq m) ;;
  r <~ updateCommitted r q ;;
  fx <~ recordInstanceMetadata r inst ;;
  Ok (r, fx ++ recordCommands r (Some (ec_Command m))).

(** ** Recovery *)

Definition BeTheLeader r : EReplica TM := r <| x_IsLeader := true |>.

Definition startRecoveryForInstance r (q i : Z) : handler :=
  o <~ inst_at r q i ;;
  if match o with Some inst => (st_COMMITTED <=? ei_Status inst) && match ei_Cmds inst with Some _ => true | None => false end | None => false end
  then Ok (r, []) else
  '(r, inst) <~ open_inst r q i ;;
  let proposals := ei_lb inst ≫= el_clientProposals in
  let (r, lb) := newLeaderBookkeepingDefault r in
  let lb := lb <| el_clientProposals := proposals |> <| el_ballot := ei_vbal inst |> <| el_seq := ei_Seq inst |>
               <| el_cmds := ei_Cmds inst |> <| el_deps := ei_Deps inst |> <| el_status := ei_Status inst |> in
  r <~ makeBallot (set_inst r q i (inst <| ei_lb := Some lb |>)) q i ;;
  o <~ inst_at r q i ;; inst <~ deref o ;; lb <~ deref (ei_lb inst) ;;
  let b := el_lastTriedBallot lb in
  let inst := inst <| ei_bal := b |> <| ei_vbal := b |> in
  let preply := mkKeptReply (x_Id r) q i b b (ei_Status inst) (ei_Cmds inst) (ei_Seq inst) (ei_Deps inst) in
  let lb := lb <| el_prepareReplies ::= fun l => l ++ [preply] |> <| el_leaderResponded := x_Id r =? q |> in
  let r := set_inst r q i (inst <| ei_lb := Some lb |>) in
  Ok (r, bcastPrepare r q i).

Definition handlePrepare r (m : Prepare) : handler :=
  let q := ep_Replica m in
  let i := ep_Instance m in
  _ <~ inst_at r q i ;;
  let r := see_ballot r (ep_Ballot m) in
  '(r, inst) <~ open_inst r q i ;;
  let inst := if ei_bal inst <? ep_Ballot m then inst <| ei_bal := ep_Ballot m |> else inst in
  let r := set_inst r q i inst in
  fx <~ replyPrepare r (ep_LeaderId m)
          (mkPrepareReply (x_Id r) q i (ei_bal inst) (ei_vbal inst) (ei_Status inst) (default [] (ei_Cmds inst)) (ei_Seq inst)
             (slice r (ei_Deps inst))) ;;
  Ok (r, fx).

(** the replies' values: the last one of the highest ballot is taken *)
Definition take_reply (lb : EBookkeeping) (e : KeptReply) : EBookkeeping :=
  let lb := if el_ballot lb <=? kr_VBallot e
            then lb <| el_ballot := kr_VBallot e |> <| el_cmds := kr_Command e |> <| el_seq := kr_Seq e |>
                    <| el_deps := kr_Deps e |> <| el_status := kr_Status e |>
            else lb in
  if kr_AcceptorId e =? kr_Replica e then lb <| el_leaderResponded := true |> else lb.
Definition preaccepted (e : KeptReply) : bool :=
  (kr_Status e =? st_PREACCEPTED_EQ) || (kr_Status e =? st_PREACCEPTED).

(** whether the pre-accepted replies agree; it merges them until one does not *)
Fixpoint replies_equal r (lb : EBookkeeping) (es : list KeptReply) : outcome (EReplica TM * bool) :=
  match es with
  | [] => Ok (r, true)
  | e :: es =>
      if (kr_VBallot e =? el_ballot lb) && (st_PREACCEPTED <=? kr_Status e) then
        '(r, _, eq) <~ mergeAttributes r (el_seq lb) (el_deps lb) (kr_Seq e) (kr_Deps e) ;;
        if (eq : bool) then replies_equal r lb es else Ok (r, false)
      else replies_equal r lb es
  end.

Inductive recovery_case := CaseCommitted | CaseAccepted | CaseEqual | CaseTry | CasePhase1 | CaseNone.

(** [subCase] *)
Definition sub_case r (lb : EBookkeeping) (preAcceptCount : Z) : outcome (EReplica TM * recovery_case) :=
  if st_COMMITTED <=? el_status lb then Ok (r, CaseCommitted)
  else if el_status lb =? st_ACCEPTED then Ok (r, CaseAccepted)
  else if (el_status lb =? st_PREACCEPTED) || (el_status lb =? st_PREACCEPTED_EQ) then
    '(r, allEqual) <~ replies_equal r lb (el_prepareReplies lb) ;;
    let many := SlowQuorumSize r - 1 <=? preAcceptCount in
    if many && negb (el_leaderResponded lb) && (allEqual : bool) then Ok (r, CaseEqual)
    (* the same condition again *)
    else if many && negb (el_leaderResponded lb) && allEqual then Ok (r, CaseTry)
    else if (0 <? preAcceptCount) && (el_leaderResponded lb || negb allEqual || negb many) then Ok (r, CasePhase1)
    else Panic
  else if el_status lb =? st_NONE then Ok (r, CaseNone)
  else Panic.

Definition handlePrepareReply r (m : PrepareReply) : handler :=
  let q := epr_Replica m in
  let i := epr_Instance m in
  o <~ inst_at r q i ;; inst <~ deref o ;;
  let (r, deps) := new_slice r (epr_Deps m) in
  let r := see_ballot r (epr_Ballot m) in
  match ei_lb inst with
  | None => Ok (r, [])
  | Some lb =>
      if negb (el_preparing lb) then Ok (r, [])
      else if negb (epr_Ballot m =? el_lastTriedBallot lb)
      then Ok (set_inst r q i (inst <| ei_lb := Some (lb <| el_nacks ::= fun n => n + 1 |>) |>), [])
      else
        let kept := mkKeptReply (epr_AcceptorId m) q i (epr_Ballot m) (epr_VBallot m) (epr_Status m) (Some (epr_Command m))
                      (epr_Seq m) deps in
        let lb := lb <| el_prepareReplies ::= fun l => l ++ [kept] |> in
        if Zlength (el_prepareReplies lb) <? SlowQuorumSize r
        then Ok (set_inst r q i (inst <| ei_lb := Some lb |>), [])
        else
          let lb := foldl take_reply (lb <| el_preparing := false |>) (el_prepareReplies lb) in
          '(r, case) <~ sub_case r lb (Zlength (filter (fun e => preaccepted e = true) (el_prepareReplies lb))) ;;
          let inst := inst <| ei_Cmds := el_cmds lb |> <| ei_bal := el_lastTriedBallot lb |> <| ei_vbal := el_lastTriedBallot lb |>
                           <| ei_Seq := el_seq lb |> <| ei_Deps := el_deps lb |> <| ei_Status := el_status lb |> in
          match case with
          | CaseCommitted => Ok (set_inst r q i (inst <| ei_lb := Some lb |>), [])
          | CaseAccepted | CaseEqual =>
              let r := set_inst r q i (inst <| ei_Status := st_ACCEPTED |> <| ei_lb := Some (lb <| el_status := st_ACCEPTED |>) |>) in
              Ok (r, bcastAccept r q i)
          | CaseTry =>
              let r := set_inst r q i (inst <| ei_lb := Some (lb <| el_tryingToPreAccept := true |>) |>) in
              Ok (r, bcastTryPreAccept r q i)
          | CasePhase1 | CaseNone =>
              startPhase1 (set_inst r q i (inst <| ei_lb := Some lb |>)) (default NOOP (el_cmds lb)) q i
                (el_lastTriedBallot lb) (el_clientProposals lb)
          end
  end.

(** one instance that may conflict: the code goes on, leaves the row, or has found a
    conflict *)
Inductive conflict_turn := CGoOn | CLeave | CFound.
Definition conflict_at r (cmds : list Command) (replica instance seq : Z) (deps : list Z) (q i : Z) : outcome conflict_turn :=
  if i =? -1 then Ok CGoOn
  else if (replica =? q) && (instance =? i) then Ok CLeave
  else
    d <~ index deps q ;;
    if i =? d then Ok CGoOn
    else
      o <~ inst_at r q i ;;
      match o with
      | None => Ok CGoOn
      | Some inst =>
          match ei_Cmds inst with
          | None | Some [] => Ok CGoOn
          | Some theirs =>
              e <~ slice_at r (ei_Deps inst) replica ;;
              if instance <=? e then Ok CGoOn
              else
                c <~ (if x_LRead r then Ok true else deref (ConflictBatch theirs cmds)) ;;
                if (c : bool) &&
                   ((d <? i) || ((i <? d) && (seq <=? ei_Seq inst) &&
                                 (negb (q =? replica) || (st_PREACCEPTED_EQ <? ei_Status inst))))
                then Ok CFound else Ok CGoOn
          end
      end.
Fixpoint conflict_row r (cmds : list Command) (replica instance seq : Z) (deps : list Z) (q : Z) (js : list Z) :
    outcome (option Z) :=
  match js with
  | [] => Ok None
  | i :: js =>
      t <~ conflict_at r cmds replica instance seq deps q i ;;
      match t with
      | CGoOn => conflict_row r cmds replica instance seq deps q js
      | CLeave => Ok None
      | CFound => Ok (Some i)
      end
  end.
Fixpoint conflict_rows r (cmds : list Command) (replica instance seq : Z) (deps : list Z) (qs : list Z) :
    outcome (option (Z * Z)) :=
  match qs with
  | [] => Ok None
  | q :: qs =>
      e <~ index (x_ExecedUpTo r) q ;; c <~ index (x_crtInstance r) q ;;
      f <~ conflict_row r cmds replica instance seq deps q (seqZ e (c + 1 - e)) ;;
      match f with Some i => Ok (Some (q, i)) | None => conflict_rows r cmds replica instance seq deps qs end
  end.
Definition findPreAcceptConflicts r (cmds : list Command) (replica instance seq : Z) (deps : list Z) : outcome (option (Z * Z)) :=
  let search := conflict_rows r cmds replica instance seq deps (seqZ 0 (x_N r)) in
  o <~ inst_at r replica instance ;;
  match o with
  | Some inst =>
      match ei_Cmds inst with
      | None | Some [] => search
      | Some _ =>
          if st_ACCEPTED <=? ei_Status inst then Ok (Some (replica, instance))
          else
            same <~ (if ei_Seq inst =? seq then equal (slice r (ei_Deps inst)) deps else Ok false) ;;
            if (same : bool) then Ok None else search
      end
  | None => search
  end.

Definition handleTryPreAccept r (m : TryPreAccept) : handler :=
  let q := etp_Replica m in
  let i := etp_Instance m in
  let (r, deps) := new_slice r (etp_Deps m) in
  '(r, inst) <~ open_inst r q i ;;
  if etp_Ballot m <? ei_bal inst then Ok (r, []) else
  let inst := inst <| ei_bal := etp_Ballot m |> in
  let r := set_inst r q i inst in
  '(r, inst, conf) <~
    (if ei_Status inst =? st_NONE then
       f <~ findPreAcceptConflicts r (etp_Command m) q i (etp_Seq m) (etp_Deps m) ;;
       match f with
       | Some conf => Ok (r, inst, conf)
       | None =>
           r <~ hear_instance r q i ;;
           let inst := inst <| ei_Cmds := Some (etp_Command m) |> <| ei_Seq := etp_Seq m |> <| ei_Deps := deps |>
                            <| ei_Status := st_PREACCEPTED |> in
           Ok (set_inst r q i inst, inst, (0, 0)%Z)
       end
     else Ok (r, inst, (0, 0)%Z)) ;;
  fx <~ replyTryPreAccept r (etp_LeaderId m)
          (mkTryPreAcceptReply (x_Id r) q i (ei_bal inst) (ei_vbal inst) conf.1 conf.2 st_NONE) ;;
  Ok (r, fx).

(** two [int32]s in a [uint64]; a negative one fills the upper half *)
Definition pack (q i : Z) : Z := Z.lor (u64 (Z.shiftl (u64 q) 32)) (u64 i).
Definition updateDeferred r (dr di q i : Z) : EReplica TM := r <| x_deferMap ::= <[pack q i := pack dr di]> |>.
Definition deferredByInstance r (q i : Z) : option (Z * Z) :=
  match x_deferMap r !! pack q i with
  | None => None
  | Some daux => Some (i32 (Z.shiftr daux 32), i32 daux)
  end.

Definition handleTryPreAcceptReply r (m : TryPreAcceptReply) : handler :=
  let q := etr_Replica m in
  let i := etr_Instance m in
  _ <~ inst_at r q i ;;
  let r := see_ballot r (etr_Ballot m) in
  '(r, inst) <~ open_inst r q i ;;
  match ei_lb inst with
  | None => Ok (r, [])
  | Some lb =>
      if negb (el_tryingToPreAccept lb) || negb (etr_Ballot m =? el_lastTriedBallot lb) then Ok (r, []) else
      let put lb := set_inst r q i (inst <| ei_lb := Some lb |>) in
      let lb := lb <| el_tpaReps ::= fun n => n + 1 |> in
      let accepted := etr_VBallot m =? el_lastTriedBallot lb in
      let lb := if accepted then lb <| el_preAcceptOKs ::= fun n => n + 1 |> else lb <| el_nacks ::= fun n => n + 1 |> in
      if accepted && (Z.quot (x_N r) 2 <=? el_preAcceptOKs lb) then
        let lb := lb <| el_status := st_ACCEPTED |> <| el_tryingToPreAccept := false |> <| el_acceptOKs := 0 |> in
        let inst := inst <| ei_Cmds := el_cmds lb |> <| ei_Seq := el_seq lb |> <| ei_Deps := el_deps lb |>
                         <| ei_Status := el_status lb |> <| ei_vbal := el_lastTriedBallot lb |>
                         <| ei_bal := el_lastTriedBallot lb |> <| ei_lb := Some lb |> in
        let r := set_inst r q i inst in
        Ok (r, bcastAccept r q i)
      else
        quorum <~ (if accepted then Ok (el_possibleQuorum lb)
                   else l <~ set_index (el_possibleQuorum lb) (etr_AcceptorId m) false ;;
                        set_index l (etr_ConflictReplica m) false) ;;
        let lb := lb <| el_possibleQuorum := quorum |>
                     <| el_tpaAccepted ::= fun b => b || (st_ACCEPTED <=? etr_ConflictStatus m) |> in
        if (SlowQuorumSize r - 1 <=? el_tpaReps lb) && el_tpaAccepted lb then
          let lb := lb <| el_tryingToPreAccept := false |> in
          startPhase1 (put lb) (default [] (el_cmds lb)) q i (el_lastTriedBallot lb) (el_clientProposals lb)
        else
          (* the loop counts the same replica [N] times *)
          there <~ (if 0 <? x_N r then index (el_possibleQuorum lb) (etr_AcceptorId m) else Ok true) ;;
          let notInQuorum := if (there : bool) then 0 else x_N r in
          contradiction <~
            (if notInQuorum =? Z.quot (x_N r) 2 then
               match deferredByInstance r q i with
               | Some (dq, _) => index (el_possibleQuorum lb) dq
               | None => Ok false
               end
             else Ok false) ;;
          if (contradiction : bool) then
            r <~ makeBallot (put (lb <| el_tryingToPreAccept := false |>)) q i ;;
            o <~ inst_at r q i ;; inst <~ deref o ;; lb <~ deref (ei_lb inst) ;;
            startPhase1 r (default [] (el_cmds lb)) q i (el_lastTriedBallot lb) (el_clientProposals lb)
          else if Z.quot (x_N r) 2 <=? el_tpaReps lb then
            Ok (updateDeferred (put (lb <| el_tryingToPreAccept := false |>)) q i (etr_ConflictReplica m) (etr_ConflictInstance m), [])
          else Ok (put lb, [])
  end.

(** ** [run] *)

Inductive e_event :=
| EvPropose (p : GPropose)
| EvMsg (m : epaxos_msg)
| EvRecover
| EvBeTheLeader.

(** one turn of [run], at a time [now]; the clocks that pace batching and beacons are
    left out *)
Definition handle_event r (now : Z) (e : e_event) : handler :=
  let r := r <| x_now := now |> in
  match e with
  | EvPropose p => handlePropose r p
  | EvMsg (EPrepare m) => handlePrepare r m
  | EvMsg (EPrepareReply m) => handlePrepareReply r m
  | EvMsg (EPreAccept m) => handlePreAccept r m
  | EvMsg (EPreAcceptReply m) => handlePreAcceptReply r m
  | EvMsg (EAccept m) => handleAccept r m
  | EvMsg (EAcceptReply m) => handleAcceptReply r m
  | EvMsg (ECommit m) => handleCommit r m
  | EvMsg (ETryPreAccept m) => handleTryPreAccept r m
  | EvMsg (ETryPreAcceptReply m) => handleTryPreAcceptReply r m
  | EvRecover =>
      match x_instancesToRecover r with
      | [] => Stuck
      | (q, i) :: rest => startRecoveryForInstance (r <| x_instancesToRecover := rest |>) q i
      end
  | EvBeTheLeader => Ok (BeTheLeader r, [])
  end.
End epaxos.
