(* ===== verification/EpaxosExec.v ===== *)
(** The execution of committed instances by the EPaxos baseline ([src/epaxos/exec.go],
    [executeCommands] of [src/epaxos/epaxos.go]): Tarjan's algorithm finds the strongly
    connected components of the dependency graph, each of them runs in the order of its
    sequence numbers.

    The goroutine of [executeCommands] treats one instance in a step.  The components
    that ran are recorded in [xs_batches].  [sort.Sort] is a parameter: of instances
    that compare equal it may put either first. *)
From stdpp Require Import gmap list sorting.
From S2P Require Import Prelude WireBase Wire State QuorumSets GobWire DefsWire Handlers EpaxosWire EPaxos.

(** [sort.Sort] *)
Class Sorter := { sort_Sort : forall {A}, (A -> A -> bool) -> list A -> list A }.
Class SorterLaws (S : Sorter) : Prop := {
  sort_perm : forall A (less : A -> A -> bool) l, sort_Sort less l ≡ₚ l;
  sort_sorted : forall A (less : A -> A -> bool) l,
    (forall a b, less a b = true -> less b a = false) ->
    (forall a b c, less b a = false -> less c b = false -> less c a = false) ->
    Sorted (fun a b => less b a = false) (sort_Sort less l) }.

(** a node of the graph: the row and the number of an instance *)
Abbreviation node := (Z * Z)%type.

Record ExecState (TM : Treemap Value) := mkExecState {
  xs_r : EReplica TM;
  xs_stack : list node;
  xs_index : Z;
  xs_batches : list (list node);
  xs_fx : list e_effect }.
Arguments mkExecState {TM}. Arguments xs_r {TM}. Arguments xs_stack {TM}. Arguments xs_index {TM}.
Arguments xs_batches {TM}. Arguments xs_fx {TM}.
#[export] Instance eta_ExecState {TM} : Eta (ExecState TM) := fun s =>
  mkExecState (xs_r s) (xs_stack s) (xs_index s) (xs_batches s) (xs_fx s).

Section exec.
Context {TM : Treemap Value} {So : Sorter}.
Implicit Types (r : EReplica TM) (s : ExecState TM).

(** a write through the pointer to an instance *)
Definition write_inst r (v : node) (f : EInstance -> EInstance) : EReplica TM := r <| x_InstanceSpace ::= alter f v |>.
Definition node_inst r (v : node) : outcome EInstance := o <~ inst_at r v.1 v.2 ;; deref o.

(** ** The commands of a component *)

(** [nodeArray.Less] *)
Definition Less (a b : EInstance) : bool :=
  (ei_Seq a <? ei_Seq b) || ((ei_Seq a =? ei_Seq b) && ((ei_id a).1 <? (ei_id b).1)) ||
  ((ei_Seq a =? ei_Seq b) && ((ei_id a).1 =? (ei_id b).1) && (ei_proposeTime a <? ei_proposeTime b)).

Definition run_cmd r (c : Command) : outcome (EReplica TM * Value) :=
  '(val, st) <~ deref (Execute c (x_State r)) ;; Ok (r <| x_State := st |>, val).

(** the commands from [idx] of an instance with its proposals, if they want a result *)
Fixpoint exec_cmds r (proposals : option (list GPropose)) (idx : Z) (cmds : list Command) : outcome (EReplica TM * list e_effect) :=
  match cmds with
  | [] => Ok (r, [])
  | c :: cmds =>
      '(r, fx) <~
        (if is_op c NONE then Ok (r, [])
         else
           match proposals with
           | Some ps =>
               '(r, val) <~ run_cmd r c ;;
               p <~ index ps idx ;;
               Ok (r, [XReply (gp_Reply p) (mkProposeReplyTS PTRUE (gp_CommandId p) val (gp_Timestamp p))])
           | None => if is_op c PUT then '(r, _) <~ run_cmd r c ;; Ok (r, []) else Ok (r, [])
           end) ;;
      '(r, fx') <~ exec_cmds r proposals (idx + 1) cmds ;;
      Ok (r, fx ++ fx')
  end.

Fixpoint exec_nodes r (ws : list node) : outcome (EReplica TM * list e_effect) :=
  match ws with
  | [] => Ok (r, [])
  | w :: ws =>
      inst <~ node_inst r w ;;
      let proposals := if x_Dreply r then ei_lb inst ≫= el_clientProposals else None in
      '(r, fx) <~ exec_cmds r proposals 0 (default [] (ei_Cmds inst)) ;;
      '(r, fx') <~ exec_nodes (write_inst r w (fun i => i <| ei_Status := st_EXECUTED |>)) ws ;;
      Ok (r, fx ++ fx')
  end.

Fixpoint node_insts r (ws : list node) : outcome (list (node * EInstance)) :=
  match ws with
  | [] => Ok []
  | w :: ws => inst <~ node_inst r w ;; l <~ node_insts r ws ;; Ok ((w, inst) :: l)
  end.

(** a component: the stack from [l] *)
Definition pop_component s (l : nat) : outcome (ExecState TM) :=
  nodes <~ node_insts (xs_r s) (drop l (xs_stack s)) ;;
  let batch := (sort_Sort (fun a b : node * EInstance => Less a.2 b.2) nodes).*1 in
  '(r, fx) <~ exec_nodes (xs_r s) batch ;;
  Ok (s <| xs_r := r |> <| xs_stack ::= take l |> <| xs_batches ::= fun b => b ++ [batch] |> <| xs_fx ::= fun f => f ++ fx |>).

(** ** Tarjan's algorithm *)

Definition inStack s (w : node) : bool := existsb (fun u => bool_decide (w = u)) (xs_stack s).
Definition lower s (v : node) (x : Z) : ExecState TM :=
  s <| xs_r ::= fun r => write_inst r v (fun i => if x <? ei_Lowlink i then i <| ei_Lowlink := x |> else i) |>.

(** with [transconf], the code compares all commands and drops the result *)
Definition scan_conflicts (alphas betas : list Command) : outcome unit :=
  foldl (fun o ab => _ <~ o ;; _ <~ deref (Conflict ab.1 ab.2) ;; Ok tt) (Ok tt)
    (alphas ≫= fun a => (fun b => (a, b)) <$> betas).

Section visit.
(** [strongconnect], for the nodes that are met for the first time *)
Variable connect : node -> ExecState TM -> outcome (ExecState TM * bool).

(** one dependency [w] of [v]; the result says whether [v] goes on *)
Definition visit_dep (v : node) (cmds : list Command) (w : node) s : outcome (ExecState TM * bool) :=
  o <~ inst_at (xs_r s) w.1 w.2 ;;
  match o with
  | Some inst =>
      match ei_Cmds inst with
      | None => Ok (s, false)
      | Some theirs =>
          _ <~ (if x_transconf (xs_r s) then scan_conflicts cmds theirs else Ok tt) ;;
          if ei_Status inst =? st_EXECUTED then Ok (s, true)
          else if negb (ei_Status inst =? st_COMMITTED) then Ok (s, false)
          else if ei_Index inst =? 0 then
            '(s, ok) <~ connect w s ;;
            if negb ok then Ok (s, false)
            else inst <~ node_inst (xs_r s) w ;; Ok (lower s v (ei_Lowlink inst), true)
          else if inStack s w then Ok (lower s v (ei_Index inst), true)
          else Ok (s, true)
      end
  | None => Ok (s, false)
  end.
Fixpoint visit_row (v : node) (cmds : list Command) (q : Z) (js : list Z) s : outcome (ExecState TM * bool) :=
  match js with
  | [] => Ok (s, true)
  | j :: js =>
      '(s, ok) <~ visit_dep v cmds (q, j) s ;;
      if (ok : bool) then visit_row v cmds q js s else Ok (s, false)
  end.
Fixpoint visit_rows (v : node) (cmds : list Command) (deps : option nat) (qs : list Z) s : outcome (ExecState TM * bool) :=
  match qs with
  | [] => Ok (s, true)
  | q :: qs =>
      d <~ slice_at (xs_r s) deps q ;;
      e <~ index (x_ExecedUpTo (xs_r s)) q ;;
      '(s, ok) <~ visit_row v cmds q (seqZ (i32 (e + 1)) (d + 1 - i32 (e + 1))) s ;;
      if (ok : bool) then visit_rows v cmds deps qs s else Ok (s, false)
  end.
End visit.

(** [v] gets the next index and goes on the stack *)
Definition push_node s (v : node) : ExecState TM :=
  s <| xs_r ::= fun r => write_inst r v (fun i => i <| ei_Index := xs_index s |> <| ei_Lowlink := xs_index s |>) |>
    <| xs_index ::= fun i => i + 1 |> <| xs_stack ::= fun l => l ++ [v] |>.

Fixpoint strongconnect (fuel : nat) (v : node) s : outcome (ExecState TM * bool) :=
  match fuel with
  | O => Stuck
  | S fuel =>
      let l := length (xs_stack s) in
      let s := push_node s v in
      inst <~ node_inst (xs_r s) v ;;
      match ei_Cmds inst with
      | None => Ok (s, false)
      | Some cmds =>
          '(s, ok) <~ visit_rows (strongconnect fuel) v cmds (ei_Deps inst) (seqZ 0 (x_N (xs_r s))) s ;;
          if negb ok then Ok (s, false)
          else
            inst <~ node_inst (xs_r s) v ;;
            if ei_Lowlink inst =? ei_Index inst then s <~ pop_component s l ;; Ok (s, true) else Ok (s, true)
      end
  end.

(** the indices of the stack are reset; the fuel is more than the instances there are *)
Definition reset_indices r (l : list node) : EReplica TM :=
  foldl (fun r v => write_inst r v (fun i => i <| ei_Index := 0 |>)) r l.
Definition findSCC r (root : node) : outcome (ExecState TM * bool) :=
  '(s, ret) <~ strongconnect (S (size (x_InstanceSpace r))) root (mkExecState r [] 1 [] []) ;;
  Ok (s <| xs_r ::= fun r => reset_indices r (xs_stack s) |>, ret).

Definition executeCommand r (replica instance : Z) : outcome (ExecState TM * bool) :=
  let s0 := mkExecState r [] 1 [] [] in
  o <~ inst_at r replica instance ;;
  match o with
  | None => Ok (s0, false)
  | Some inst =>
      if ei_Status inst =? st_EXECUTED then Ok (s0, true)
      else if negb (ei_Status inst =? st_COMMITTED) then Ok (s0, false)
      else findSCC r (replica, instance)
  end.

(** ** [executeCommands] *)

Definition SLEEP_TIME_NS : Z := 1000000.
Definition COMMIT_GRACE_PERIOD : Z := 10 * 1000000000.

Record Executor := mkExecutor { problemInstance : list Z; timeout : list Z }.
Definition new_executor r : Executor :=
  mkExecutor (replicate (Z.to_nat (x_N r)) (-1)) (replicate (Z.to_nat (x_N r)) 0).

Definition bump_execed r (q i : Z) : outcome (EReplica TM) :=
  e <~ index (x_ExecedUpTo r) q ;;
  if i =? i32 (e + 1) then l <~ set_index (x_ExecedUpTo r) q i ;; Ok (r <| x_ExecedUpTo := l |>) else Ok r.

(** an instance that is not ready: after the grace period the row is to be recovered *)
Definition not_ready r (x : Executor) (q i : Z) : outcome (EReplica TM * Executor) :=
  p <~ index (problemInstance x) q ;;
  if i =? p then
    t <~ index (timeout x) q ;;
    let t := u64 (t + SLEEP_TIME_NS) in
    if COMMIT_GRACE_PERIOD <=? t then
      c <~ index (x_crtInstance r) q ;;
      let ids := (fun k => (q, k)) <$> seqZ p (c + 1 - p) in
      if CHAN_BUFFER_SIZE <? Zlength (x_instancesToRecover r) + Zlength ids then Stuck
      else ts <~ set_index (timeout x) q 0 ;;
           Ok (r <| x_instancesToRecover ::= fun l => l ++ ids |>, mkExecutor (problemInstance x) ts)
    else ts <~ set_index (timeout x) q t ;; Ok (r, mkExecutor (problemInstance x) ts)
  else
    ps <~ set_index (problemInstance x) q i ;; ts <~ set_index (timeout x) q 0 ;; Ok (r, mkExecutor ps ts).

(** one turn for instance [i] of row [q]; the first flag: the row goes on, the second:
    something ran *)
Definition exec_turn r (x : Executor) (q i : Z) : outcome (EReplica TM * Executor * bool * bool * list e_effect) :=
  o <~ inst_at r q i ;;
  if match o with Some inst => ei_Status inst =? st_EXECUTED | None => false end then
    r <~ bump_execed r q i ;; Ok (r, x, true, false, [])
  else
    if match o with
       | None => true
       | Some inst => (ei_Status inst <? st_COMMITTED) || match ei_Cmds inst with None => true | Some _ => false end
       end
    then '(r, x) <~ not_ready r x q i ;; Ok (r, x, false, false, [])
    else
      '(s, ok) <~ executeCommand r q i ;;
      if (ok : bool) then r <~ bump_execed (xs_r s) q i ;; Ok (r, x, true, true, xs_fx s)
      else Ok (xs_r s, x, true, false, xs_fx s).

Fixpoint exec_row (js : list Z) r (x : Executor) (q : Z) (executed : bool) (fx : list e_effect) :
    outcome (EReplica TM * Executor * bool * list e_effect) :=
  match js with
  | [] => Ok (r, x, executed, fx)
  | j :: js =>
      '(r, x, go, ran, fx') <~ exec_turn r x q j ;;
      if (go : bool) then exec_row js r x q (executed || ran) (fx ++ fx') else Ok (r, x, executed, fx ++ fx')
  end.
(** a pass of [executeCommands] over the rows *)
Fixpoint exec_pass (qs : list Z) r (x : Executor) (executed : bool) (fx : list e_effect) :
    outcome (EReplica TM * Executor * bool * list e_effect) :=
  match qs with
  | [] => Ok (r, x, executed, fx)
  | q :: qs =>
      e <~ index (x_ExecedUpTo r) q ;; c <~ index (x_crtInstance r) q ;;
      '(r, x, executed, fx) <~ exec_row (seqZ (i32 (e + 1)) (c + 1 - i32 (e + 1))) r x q executed fx ;;
      exec_pass qs r x executed fx
  end.
Definition executeCommands_pass r (x : Executor) := exec_pass (seqZ 0 (x_N r)) r x false [].
End exec.
