(* ===== verification/EpaxosOrder.v ===== *)
(** The order of execution of the EPaxos baseline: the invariant of Tarjan's algorithm
    as [strongconnect] writes it. *)
From stdpp Require Import gmap list sorting.
From S2P Require Import Prelude WireBase Wire State QuorumSets GobWire DefsWire Handlers EpaxosWire EPaxos EpaxosExec.

Section order.
Context {TM : Treemap Value} {So : Sorter} {SL : SorterLaws So}.
Implicit Types (r : EReplica TM) (s : ExecState TM) (M : gmap (Z * Z) EInstance).

(** * What the execution leaves as it is *)

Definition exec_frame r r' : Prop := exists m st, r' = r <| x_InstanceSpace := m |> <| x_State := st |>.
Lemma exec_frame_refl r : exec_frame r r.
Proof. exists (x_InstanceSpace r), (x_State r). by destruct r. Qed.
Lemma exec_frame_trans r1 r2 r3 : exec_frame r1 r2 -> exec_frame r2 r3 -> exec_frame r1 r3.
Proof. intros (m & st & ->) (m' & st' & ->). by exists m', st'. Qed.
Lemma write_frame r v f : exec_frame r (write_inst r v f).
Proof. exists (alter f v (x_InstanceSpace r)), (x_State r). by destruct r. Qed.
Lemma exec_frame_fields r r' :
  exec_frame r r' -> x_N r' = x_N r /\ x_heap r' = x_heap r /\ x_ExecedUpTo r' = x_ExecedUpTo r /\ x_Dreply r' = x_Dreply r /\
                     x_transconf r' = x_transconf r.
Proof. by intros (m & st & ->). Qed.

(** an instance with another status, index or low link *)
Definition same_value (i i' : EInstance) : Prop :=
  exists st ix ll, i' = i <| ei_Status := st |> <| ei_Index := ix |> <| ei_Lowlink := ll |> /\
                   (st = ei_Status i \/ ei_Status i = st_COMMITTED /\ st = st_EXECUTED).
Lemma same_value_refl i : same_value i i.
Proof. exists (ei_Status i), (ei_Index i), (ei_Lowlink i). split; [by destruct i|by left]. Qed.
Lemma same_value_trans i1 i2 i3 : same_value i1 i2 -> same_value i2 i3 -> same_value i1 i3.
Proof.
  intros (st & ix & ll & -> & S1) (st' & ix' & ll' & -> & S2). exists st', ix', ll'. split; [done|].
  rsimpl in S2. unfold st_COMMITTED, st_EXECUTED in *. lia.
Qed.
Definition evolves M M' : Prop := forall v, option_Forall2 same_value (M !! v) (M' !! v).
Lemma evolves_refl M : evolves M M.
Proof. intros v. destruct (M !! v); constructor. apply same_value_refl. Qed.
Lemma evolves_trans M1 M2 M3 : evolves M1 M2 -> evolves M2 M3 -> evolves M1 M3.
Proof.
  intros H1 H2 v. specialize (H1 v). specialize (H2 v).
  inversion H1 as [x y Hxy E1 E2|E1 E2]; rewrite <- E2 in H2; inversion H2; constructor; eauto using same_value_trans.
Qed.

Definition inst_of s (v : node) : option EInstance := x_InstanceSpace (xs_r s) !! v.
Definition idx s (v : node) : Z := from_option ei_Index 0 (inst_of s v).
Definition low s (v : node) : Z := from_option ei_Lowlink 0 (inst_of s v).
Definition executed M (v : node) : Prop := exists i, M !! v = Some i /\ ei_Status i = st_EXECUTED.
Definition has_cmds (i : EInstance) : Prop := ei_Cmds i <> None.

(** [w] is a dependency of [u] that was not known to be executed *)
Definition depends r (u w : node) : Prop :=
  exists i d e, x_InstanceSpace r !! u = Some i /\ 0 <= w.1 < x_N r /\
    slice_at r (ei_Deps i) w.1 = Ok d /\ index (x_ExecedUpTo r) w.1 = Ok e /\ i32 (e + 1) <= w.2 <= d.

(** a component that may run after those of [pre] *)
Record component_ok r (pre : list (list node)) (B : list node) : Prop := mkComponentOk {
  co_ready : forall v, v ∈ B -> exists i, x_InstanceSpace r !! v = Some i /\ ei_Status i = st_COMMITTED /\ has_cmds i;
  co_fresh : NoDup (concat pre ++ B);
  co_deps : forall v w, v ∈ B -> depends r v w -> executed (x_InstanceSpace r) w \/ w ∈ concat pre \/ w ∈ B;
  co_sorted : Sorted (fun v w => forall i j, x_InstanceSpace r !! v = Some i -> x_InstanceSpace r !! w = Some j -> Less j i = false) B }.

(** ** The invariant *)

Record Tarjan r0 s : Prop := mkTarjan {
  tj_frame : exec_frame r0 (xs_r s);
  tj_evolves : evolves (x_InstanceSpace r0) (x_InstanceSpace (xs_r s));
  tj_stack : forall v, v ∈ xs_stack s <-> exists i, inst_of s v = Some i /\ ei_Status i <> st_EXECUTED /\ ei_Index i <> 0;
  tj_committed : forall v i, v ∈ xs_stack s -> inst_of s v = Some i -> ei_Status i = st_COMMITTED;
  tj_sorted : StronglySorted Z.lt (idx s <$> xs_stack s);
  tj_bounds : forall v, v ∈ xs_stack s -> 1 <= idx s v < xs_index s;
  tj_index : 1 <= xs_index s;
  tj_exec : forall v, executed (x_InstanceSpace (xs_r s)) v <-> executed (x_InstanceSpace r0) v \/ v ∈ concat (xs_batches s);
  tj_fresh : NoDup (concat (xs_batches s));
  tj_batches : forall pre B post, xs_batches s = pre ++ B :: post -> component_ok r0 pre B }.

(** [u]'s dependencies have run, or are on the stack and not below [x] *)
Definition reaches s (x : Z) (w : node) : Prop :=
  executed (x_InstanceSpace (xs_r s)) w \/ (w ∈ xs_stack s /\ x <= idx s w).
Definition settled r0 s (x : Z) (u : node) : Prop :=
  (exists i, x_InstanceSpace r0 !! u = Some i /\ has_cmds i) /\ forall w, depends r0 u w -> reaches s x w.

(** [s'] comes after [s], with the nodes of the stack of [s] unchanged *)
Definition later s s' : Prop :=
  (exists ext, xs_stack s' = xs_stack s ++ ext) /\ (forall u, u ∈ xs_stack s -> inst_of s' u = inst_of s u) /\
  (forall w, executed (x_InstanceSpace (xs_r s)) w -> executed (x_InstanceSpace (xs_r s')) w).

(** what [strongconnect] gives when it does not give up *)
Record connected r0 (v : node) s s' : Prop := mkConnected {
  cn_stack : exists ext, xs_stack s' = xs_stack s ++ ext /\
    (ext = [] /\ executed (x_InstanceSpace (xs_r s')) v \/
     v ∈ ext /\ low s' v < xs_index s /\ idx s' v = xs_index s) /\
    forall u, u ∈ ext -> settled r0 s' (low s' v) u;
  cn_later : later s s';
  cn_low : 1 <= low s' v }.

Definition connect_spec r0 (connect : node -> ExecState TM -> outcome (ExecState TM * bool)) : Prop :=
  forall v s s' b i, Tarjan r0 s -> inst_of s v = Some i -> ei_Status i = st_COMMITTED -> ei_Index i = 0 ->
    connect v s = Ok (s', b) -> Tarjan r0 s' /\ (b = true -> connected r0 v s s').
(** * The components *)

Lemma write_lookup r v f u : x_InstanceSpace (write_inst r v f) !! u = if decide (u = v) then f <$> x_InstanceSpace r !! v else x_InstanceSpace r !! u.
Proof.
  unfold write_inst. rsimpl. destruct (decide (u = v)) as [->|].
  - by rewrite (lookup_alter_eq (M:=gmap (Z * Z))).
  - by rewrite (lookup_alter_ne (M:=gmap (Z * Z))).
Qed.
Lemma node_inst_Ok r v i : node_inst r v = Ok i -> x_InstanceSpace r !! v = Some i.
Proof.
  unfold node_inst, inst_at. destruct v as [q j]. cbn [fst snd]. intros H. apply obind_Ok in H as (o & Ho & H).
  destruct (_ || _); [done|]. injection Ho as Ho. apply deref_Ok in H. congruence.
Qed.

Lemma run_cmd_frame r c r' val : run_cmd r c = Ok (r', val) -> exists st, r' = r <| x_State := st |>.
Proof. unfold run_cmd. intros H. ok_steps. by eexists. Qed.
Lemma exec_cmds_frame cs r ps k r' fx : exec_cmds r ps k cs = Ok (r', fx) -> exists st, r' = r <| x_State := st |>.
Proof.
  revert r k r' fx. induction cs as [|c cs IH]; intros r k r' fx H; cbn [exec_cmds] in H.
  { ok_steps. exists (x_State r'). by destruct r'. }
  apply obind_Ok in H as ((r1 & fx1) & H1 & H). apply obind_Ok in H as ((r2 & fx2) & H2 & H). ok_steps.
  apply IH in H2 as (st2 & ->).
  assert (exists st, r1 = r <| x_State := st |>) as (st1 & ->); [|by exists st2].
  destruct (is_op c NONE).
  { ok_steps. exists (x_State r1). by destruct r1. }
  destruct ps as [ps|].
  - apply obind_Ok in H1 as ((r2 & v2) & H2 & H1). ok_steps. by eapply run_cmd_frame.
  - destruct (is_op c PUT).
    + apply obind_Ok in H1 as ((r2 & v2) & H2 & H1). ok_steps. by eapply run_cmd_frame.
    + ok_steps. exists (x_State r1). by destruct r1.
Qed.

Lemma exec_nodes_spec ws r r' fx :
  exec_nodes r ws = Ok (r', fx) ->
  exec_frame r r' /\
  forall u, x_InstanceSpace r' !! u =
    if decide (u ∈ ws) then (fun i => i <| ei_Status := st_EXECUTED |>) <$> x_InstanceSpace r !! u else x_InstanceSpace r !! u.
Proof.
  revert r r' fx. induction ws as [|w ws IH]; intros r r' fx H; cbn [exec_nodes] in H.
  { injection H as <- <-. split; [apply exec_frame_refl|]. intros u. by rewrite decide_False by apply not_elem_of_nil. }
  apply obind_Ok in H as (i & Hi & H). apply obind_Ok in H as ((r1 & fx1) & H1 & H).
  apply obind_Ok in H as ((r2 & fx2) & H2 & H). injection H as <- <-.
  apply exec_cmds_frame in H1 as (st & ->). apply IH in H2 as (F & L). split.
  { eapply exec_frame_trans; [|apply F]. eapply exec_frame_trans; [|apply write_frame].
    exists (x_InstanceSpace r), st. by destruct r. }
  intros u. rewrite L, write_lookup. rsimpl.
  destruct (decide (u ∈ ws)) as [U|U], (decide (u = w)) as [->|N].
  - rewrite decide_True by (left; done). by destruct (_ !! w).
  - by rewrite decide_True by (right; done).
  - by rewrite decide_True by left.
  - rewrite decide_False; [done|]. rewrite elem_of_cons. tauto.
Qed.

Lemma node_insts_spec ws r l :
  node_insts r ws = Ok l -> l.*1 = ws /\ Forall (fun p => x_InstanceSpace r !! p.1 = Some p.2) l.
Proof.
  revert l. induction ws as [|w ws IH]; intros l H; cbn [node_insts] in H; [injection H as <-; by split|].
  apply obind_Ok in H as (i & Hi & H). apply obind_Ok in H as (l' & Hl & H). injection H as <-.
  apply IH in Hl as (<- & F). apply node_inst_Ok in Hi. split; [done|]. by constructor.
Qed.

Lemma elem_of_drop_1 {A} (l : list A) n x : x ∈ drop n l -> x ∈ l.
Proof. intros H. rewrite <- (take_drop n l), elem_of_app. by right. Qed.
Lemma elem_of_take_1 {A} (l : list A) n x : x ∈ take n l -> x ∈ l.
Proof. intros H. rewrite <- (take_drop n l), elem_of_app. by left. Qed.

Lemma stack_nodup r0 s : Tarjan r0 s -> NoDup (xs_stack s).
Proof.
  intros [_ _ _ _ H _ _ _ _ _]. apply (NoDup_fmap_1 (idx s)). induction H as [|x l S IH F]; constructor; [|done].
  intros E. rewrite Forall_forall in F. specialize (F _ E). lia.
Qed.
Lemma inst_evolved r0 s v i :
  Tarjan r0 s -> inst_of s v = Some i -> exists i0, x_InstanceSpace r0 !! v = Some i0 /\ same_value i0 i.
Proof.
  intros T E. pose proof (tj_evolves _ _ T v) as F. unfold inst_of in E. rewrite E in F. inversion F as [x y S E1 E2|].
  by exists x.
Qed.
Lemma inst_evolves r0 s v i0 :
  Tarjan r0 s -> x_InstanceSpace r0 !! v = Some i0 -> exists i, inst_of s v = Some i /\ same_value i0 i.
Proof. intros T E. pose proof (tj_evolves _ _ T v) as F. rewrite E in F. inversion F as [x y S E1 E2|]. by exists y. Qed.
Lemma Less_same i j i' j' : same_value i i' -> same_value j j' -> Less j' i' = Less j i.
Proof. by intros (? & ? & ? & -> & _) (? & ? & ? & -> & _). Qed.

Lemma Less_asym a b : Less a b = true -> Less b a = false.
Proof. unfold Less. destruct (ei_id a), (ei_id b); cbn [fst]. lia. Qed.
Lemma Less_trans a b c : Less b a = false -> Less c b = false -> Less c a = false.
Proof. unfold Less. destruct (ei_id a), (ei_id b), (ei_id c); cbn [fst]. lia. Qed.

Lemma batch_sorted r0 s (l : list (node * EInstance)) :
  Tarjan r0 s -> Forall (fun p => inst_of s p.1 = Some p.2) l ->
  Sorted (fun a b : node * EInstance => Less b.2 a.2 = false) l ->
  Sorted (fun v w => forall i j, x_InstanceSpace r0 !! v = Some i -> x_InstanceSpace r0 !! w = Some j -> Less j i = false) l.*1.
Proof.
  intros T F H. induction H as [|a l S IH Hd]; [constructor|].
  apply Forall_cons in F as [Fa F]. cbn [fmap list_fmap]. constructor; [by apply IH|].
  destruct Hd as [|b l Hab]; constructor. apply Forall_cons in F as [Fb _]. intros i j Hi Hj.
  destruct (inst_evolves _ _ _ _ T Hi) as (i' & Ei & Si). destruct (inst_evolves _ _ _ _ T Hj) as (j' & Ej & Sj).
  rewrite <- (Less_same _ _ _ _ Si Sj). congruence.
Qed.

(** the nodes of the stack from [l], with what they need *)
Lemma pop_component_ok r0 s l s' :
  Tarjan r0 s -> (forall u, u ∈ drop l (xs_stack s) -> exists i, x_InstanceSpace r0 !! u = Some i /\ has_cmds i) ->
  (forall u w, u ∈ drop l (xs_stack s) -> depends r0 u w -> executed (x_InstanceSpace (xs_r s)) w \/ w ∈ drop l (xs_stack s)) ->
  pop_component s l = Ok s' ->
  exists B, B ≡ₚ drop l (xs_stack s) /\ component_ok r0 (xs_batches s) B /\
    xs_batches s' = xs_batches s ++ [B] /\ xs_stack s' = take l (xs_stack s) /\ xs_index s' = xs_index s /\
    exec_frame (xs_r s) (xs_r s') /\
    forall u, inst_of s' u = if decide (u ∈ B) then (fun i => i <| ei_Status := st_EXECUTED |>) <$> inst_of s u else inst_of s u.
Proof.
  intros T Hc Hd H. unfold pop_component in H. apply obind_Ok in H as (ns & Hn & H).
  apply obind_Ok in H as ((r1 & fx) & H1 & H). injection H as <-.
  apply node_insts_spec in Hn as (Hl & F). apply exec_nodes_spec in H1 as (Fr & L).
  set (less := fun a b : node * EInstance => Less a.2 b.2) in *.
  assert ((sort_Sort less ns).*1 ≡ₚ drop l (xs_stack s)) as HP by (rewrite <- Hl; apply fmap_Permutation, sort_perm).
  exists (sort_Sort less ns).*1. repeat split; try done.
  - intros v. rewrite HP. intros Hv. destruct (Hc v Hv) as (i0 & E0 & C0). exists i0. split_and!; [done| |done].
    destruct (inst_evolves _ _ _ _ T E0) as (i & Ei & Si).
    pose proof (elem_of_drop_1 _ _ _ Hv) as Hs.
    pose proof (tj_committed _ _ T v i Hs Ei) as C. destruct Si as (st & ix & ll & -> & St). rsimpl in C. subst st.
    unfold st_COMMITTED, st_EXECUTED in *. lia.
  - rewrite HP. apply NoDup_app. split_and!; [apply (tj_fresh _ _ T)| |].
    + intros v Hv Hv'. pose proof (elem_of_drop_1 _ _ _ Hv') as Hs.
      apply (tj_stack _ _ T) in Hs as (i & Ei & Ns & _).
      destruct (proj2 (tj_exec _ _ T v) (or_intror Hv)) as (j & Ej & Sj). unfold inst_of in Ei. congruence.
    + pose proof (stack_nodup _ _ T) as N. rewrite <- (take_drop l (xs_stack s)) in N. by apply NoDup_app in N as (_ & _ & N).
  - intros v w. rewrite HP. intros Hv Hw. destruct (Hd v w Hv Hw) as [E|E]; [|by right; right].
    apply (tj_exec _ _ T) in E as [E|E]; [by left|by right; left].
  - apply (batch_sorted r0 s); [done| |].
    + unfold inst_of. rewrite (sort_perm _ less ns). done.
    + apply (sort_sorted _ less); unfold less; [intros a b; apply Less_asym|intros a b c; apply Less_trans].
Qed.

(** * The invariant is kept *)

Lemma fmap_idx_eq s s' (l : list node) : (forall u, u ∈ l -> inst_of s' u = inst_of s u) -> idx s' <$> l = idx s <$> l.
Proof. intros H. apply list_fmap_ext. intros k u E. unfold idx. rewrite H; [done|]. by eapply list_elem_of_lookup_2. Qed.

Lemma executed_status_inst s s' (B : list node) v :
  (forall u, inst_of s' u = if decide (u ∈ B) then (fun i => i <| ei_Status := st_EXECUTED |>) <$> inst_of s u else inst_of s u) ->
  (forall u, u ∈ B -> is_Some (inst_of s u)) ->
  executed (x_InstanceSpace (xs_r s')) v <-> executed (x_InstanceSpace (xs_r s)) v \/ v ∈ B.
Proof.
  intros L D. unfold executed. fold (inst_of s v) (inst_of s' v). rewrite L. destruct (decide (v ∈ B)) as [E|E].
  - destruct (D v E) as [i ->]. cbn [fmap option_fmap option_map]. split; [by right|]. intros _. by eexists.
  - tauto.
Qed.

Lemma pop_Tarjan r0 s l B s' :
  Tarjan r0 s -> B ≡ₚ drop l (xs_stack s) -> component_ok r0 (xs_batches s) B ->
  xs_batches s' = xs_batches s ++ [B] -> xs_stack s' = take l (xs_stack s) -> xs_index s' = xs_index s ->
  exec_frame (xs_r s) (xs_r s') ->
  (forall u, inst_of s' u = if decide (u ∈ B) then (fun i => i <| ei_Status := st_EXECUTED |>) <$> inst_of s u else inst_of s u) ->
  Tarjan r0 s' /\ (forall u, u ∈ take l (xs_stack s) -> inst_of s' u = inst_of s u) /\
  forall v, executed (x_InstanceSpace (xs_r s')) v <-> executed (x_InstanceSpace (xs_r s)) v \/ v ∈ B.
Proof.
  intros T HB HC Eb Es Ei Fr L. pose proof (stack_nodup _ _ T) as N. rewrite <- (take_drop l (xs_stack s)) in N.
  apply NoDup_app in N as (_ & Nd & _).
  assert (forall u, u ∈ B -> u ∈ xs_stack s) as Bs.
  { intros u. rewrite HB. apply elem_of_drop_1. }
  assert (forall u, u ∈ take l (xs_stack s) -> u ∈ xs_stack s) as Ts.
  { intros u. apply elem_of_take_1. }
  assert (forall u, u ∈ take l (xs_stack s) -> inst_of s' u = inst_of s u) as Same.
  { intros u Hu. rewrite L, decide_False; [done|]. rewrite HB. by apply Nd. }
  assert (forall v, executed (x_InstanceSpace (xs_r s')) v <-> executed (x_InstanceSpace (xs_r s)) v \/ v ∈ B) as X.
  { intros v. apply executed_status_inst; [done|]. intros u Hu. apply Bs, (tj_stack _ _ T) in Hu as (i & -> & _). by eexists. }
  split; [|done]. split.
  - eapply exec_frame_trans; [apply (tj_frame _ _ T)|done].
  - intros v. pose proof (tj_evolves _ _ T v) as E. fold (inst_of s v) in E. fold (inst_of s' v). rewrite L.
    destruct (decide (v ∈ B)) as [Hv|]; [|done]. pose proof (Bs v Hv) as Hs. apply (tj_stack _ _ T) in Hs as (i & Hi & _).
    pose proof (tj_committed _ _ T v i (Bs v Hv) Hi) as C. rewrite Hi in *. inversion E as [i0 ? S E1 E2|]; subst.
    constructor. eapply same_value_trans; [done|]. exists st_EXECUTED, (ei_Index i), (ei_Lowlink i). split; [by destruct i|by right].
  - intros v. rewrite Es. split.
    + intros Hv. rewrite (Same v Hv). apply (tj_stack _ _ T). auto.
    + rewrite L. destruct (decide (v ∈ B)) as [Hv|Hv].
      * intros (i & Hi & S & _). destruct (inst_of s v); [|done]. injection Hi as <-. by destruct S.
      * intros H. apply (tj_stack _ _ T) in H. rewrite <- (take_drop l (xs_stack s)), elem_of_app in H. rewrite HB in Hv. tauto.
  - intros v i. rewrite Es. intros Hv. rewrite (Same v Hv). apply (tj_committed _ _ T). auto.
  - rewrite Es, (fmap_idx_eq s s' _ Same). pose proof (tj_sorted _ _ T) as S. rewrite <- (take_drop l (xs_stack s)), fmap_app in S.
    by apply StronglySorted_app_1_l in S.
  - intros v. rewrite Es, Ei. intros Hv. unfold idx. rewrite (Same v Hv). apply (tj_bounds _ _ T). auto.
  - rewrite Ei. apply (tj_index _ _ T).
  - intros v. rewrite X, Eb, concat_app, elem_of_app. cbn [concat]. rewrite app_nil_r, (tj_exec _ _ T v). tauto.
  - rewrite Eb, concat_app. cbn [concat]. rewrite app_nil_r. apply (co_fresh _ _ _ HC).
  - intros pre B' post. rewrite Eb. intros E. destruct post as [|x post _] using rev_ind.
    + apply app_inj_tail in E as [<- <-]. done.
    + rewrite app_comm_cons, app_assoc in E. apply app_inj_tail in E as [E _]. eapply (tj_batches _ _ T). exact E.
Qed.
(** ** A node is pushed, a low link is lowered *)

Lemma push_inst s v u :
  inst_of (push_node s v) u =
  if decide (u = v) then (fun i => i <| ei_Index := xs_index s |> <| ei_Lowlink := xs_index s |>) <$> inst_of s v else inst_of s u.
Proof. unfold inst_of, push_node. rsimpl. apply write_lookup. Qed.

Lemma push_Tarjan r0 s v i :
  Tarjan r0 s -> inst_of s v = Some i -> ei_Status i = st_COMMITTED -> ei_Index i = 0 ->
  Tarjan r0 (push_node s v) /\ later s (push_node s v) /\ idx (push_node s v) v = xs_index s /\ low (push_node s v) v = xs_index s.
Proof.
  intros T Hi St Ix. pose proof (push_inst s v) as L. pose proof (tj_index _ _ T) as Hx.
  assert (v ∉ xs_stack s) as Nv.
  { intros H. apply (tj_stack _ _ T) in H as (i' & Hi' & _ & H). congruence. }
  assert (forall u, u ∈ xs_stack s -> inst_of (push_node s v) u = inst_of s u) as Same.
  { intros u Hu. rewrite L, decide_False; [done|]. by intros ->. }
  assert (inst_of (push_node s v) v = Some (i <| ei_Index := xs_index s |> <| ei_Lowlink := xs_index s |>)) as Ev.
  { rewrite L, decide_True by done. by rewrite Hi. }
  assert (xs_stack (push_node s v) = xs_stack s ++ [v]) as Es by (unfold push_node; by rsimpl).
  assert (xs_index (push_node s v) = xs_index s + 1) as Ei by (unfold push_node; by rsimpl).
  assert (xs_batches (push_node s v) = xs_batches s) as Eb by (unfold push_node; by rsimpl).
  assert (forall w, executed (x_InstanceSpace (xs_r (push_node s v))) w <-> executed (x_InstanceSpace (xs_r s)) w) as X.
  { intros w. unfold executed. fold (inst_of s w) (inst_of (push_node s v) w). destruct (decide (w = v)) as [->|Nw].
    - rewrite Ev, Hi. split; intros (? & [= <-] & H); eexists; (split; [reflexivity|]); exact H.
    - by rewrite L, decide_False. }
  assert (idx (push_node s v) v = xs_index s) as Ex by (unfold idx; by rewrite Ev).
  split_and!; [|split_and!|done|unfold low; by rewrite Ev].
  2: { exists [v]. done. } 2: done. 2: { intros w. apply X. }
  split.
  - eapply exec_frame_trans; [apply (tj_frame _ _ T)|]. unfold push_node. rsimpl. apply write_frame.
  - intros u. pose proof (tj_evolves _ _ T u) as E. fold (inst_of s u) in E. fold (inst_of (push_node s v) u).
    destruct (decide (u = v)) as [->|Nu]; [|by rewrite L, decide_False].
    rewrite Ev. rewrite Hi in E. inversion E as [i0 ? S E1 E2|]; subst. constructor.
    eapply same_value_trans; [done|]. eexists (ei_Status i), _, _. split; [by destruct i|by left].
  - intros u. rewrite Es, elem_of_app, list_elem_of_singleton. destruct (decide (u = v)) as [->|Nu].
    + split; [intros _|by right]. rewrite Ev. eexists. split; [done|]. rsimpl. unfold st_COMMITTED, st_EXECUTED in *. lia.
    + rewrite L, decide_False by done. rewrite (tj_stack _ _ T). tauto.
  - intros u j. rewrite Es, elem_of_app, list_elem_of_singleton. intros [Hu| ->].
    + rewrite (Same u Hu). by apply (tj_committed _ _ T).
    + rewrite Ev. intros [= <-]. done.
  - rewrite Es, fmap_app, (fmap_idx_eq s _ _ Same). cbn [fmap list_fmap]. rewrite Ex. apply StronglySorted_app. split_and!.
    + intros x y Hx' Hy. apply list_elem_of_fmap in Hx' as (u & -> & Hu). apply list_elem_of_singleton in Hy as ->.
      apply (tj_bounds _ _ T u Hu).
    + apply (tj_sorted _ _ T).
    + by repeat constructor.
  - intros u. rewrite Es, Ei, elem_of_app, list_elem_of_singleton. intros [Hu| ->]; [|lia].
    unfold idx. rewrite (Same u Hu). pose proof (tj_bounds _ _ T u Hu). unfold idx in *. lia.
  - lia.
  - intros u. rewrite X, Eb. apply (tj_exec _ _ T).
  - rewrite Eb. apply (tj_fresh _ _ T).
  - rewrite Eb. apply (tj_batches _ _ T).
Qed.

Lemma lower_inst s v x u :
  inst_of (lower s v x) u =
  if decide (u = v) then (fun i => if x <? ei_Lowlink i then i <| ei_Lowlink := x |> else i) <$> inst_of s v else inst_of s u.
Proof. unfold inst_of, lower. rsimpl. apply write_lookup. Qed.
Lemma lower_low s v x : is_Some (inst_of s v) -> low (lower s v x) v = Z.min x (low s v).
Proof.
  intros [i E]. unfold low. rewrite lower_inst, decide_True, E by done. cbn. destruct (Z.ltb_spec x (ei_Lowlink i)); rsimpl; lia.
Qed.
(** nothing but the low link differs *)
Lemma lower_fields s v x u :
  option_Forall2 (fun i i' => exists ll, i' = i <| ei_Lowlink := ll |>) (inst_of s u) (inst_of (lower s v x) u).
Proof.
  rewrite lower_inst. destruct (decide (u = v)) as [->|]; destruct (inst_of s _) as [i|]; constructor.
  - destruct (x <? ei_Lowlink i); [by eexists|]. exists (ei_Lowlink i). by destruct i.
  - exists (ei_Lowlink i). by destruct i.
Qed.
Lemma lower_idx s v x u : idx (lower s v x) u = idx s u.
Proof. unfold idx. destruct (lower_fields s v x u) as [i i' [ll ->]|]; done. Qed.
Lemma lower_executed s v x u : executed (x_InstanceSpace (xs_r (lower s v x))) u <-> executed (x_InstanceSpace (xs_r s)) u.
Proof.
  unfold executed. fold (inst_of s u) (inst_of (lower s v x) u). destruct (lower_fields s v x u) as [i i' [ll ->]|]; [|done].
  split; intros (? & [= <-] & H); eexists; (split; [reflexivity|]); exact H.
Qed.
Lemma lower_reaches s v x y w : reaches (lower s v x) y w <-> reaches s y w.
Proof. unfold reaches. rewrite lower_executed, lower_idx. unfold lower. by rsimpl. Qed.
Lemma lower_Tarjan r0 s v x : Tarjan r0 s -> Tarjan r0 (lower s v x).
Proof.
  intros T.
  assert (xs_stack (lower s v x) = xs_stack s) as Es by (unfold lower; by rsimpl).
  assert (xs_index (lower s v x) = xs_index s) as Ei by (unfold lower; by rsimpl).
  assert (xs_batches (lower s v x) = xs_batches s) as Eb by (unfold lower; by rsimpl).
  split; rewrite ?Es, ?Ei, ?Eb.
  - eapply exec_frame_trans; [apply (tj_frame _ _ T)|]. unfold lower. rsimpl. apply write_frame.
  - intros u. pose proof (tj_evolves _ _ T u) as E. fold (inst_of s u) in E. fold (inst_of (lower s v x) u).
    destruct (lower_fields s v x u) as [i i' [ll ->]|]; [|done]. inversion E as [i0 ? S E1 E2|]; subst. constructor.
    eapply same_value_trans; [done|]. eexists (ei_Status i), (ei_Index i), _. split; [by destruct i|by left].
  - intros u. rewrite (tj_stack _ _ T u). destruct (lower_fields s v x u) as [i i' [ll ->]|]; [|done].
    split; intros (? & [= <-] & H); eexists; (split; [reflexivity|]); exact H.
  - intros u i' Hu Hi. pose proof (tj_committed _ _ T u) as C. destruct (lower_fields s v x u) as [i i2 [ll ->]|]; [|done].
    injection Hi as <-. by apply (C i).
  - replace (idx (lower s v x) <$> xs_stack s) with (idx s <$> xs_stack s); [apply (tj_sorted _ _ T)|].
    apply list_fmap_ext. intros k u _. by rewrite lower_idx.
  - intros u. rewrite lower_idx. apply (tj_bounds _ _ T).
  - apply (tj_index _ _ T).
  - intros u. rewrite lower_executed. apply (tj_exec _ _ T).
  - apply (tj_fresh _ _ T).
  - apply (tj_batches _ _ T).
Qed.
(** * The algorithm *)

Lemma reaches_mono s s' x x' w : later s s' -> x' <= x -> reaches s x w -> reaches s' x' w.
Proof.
  intros ((ext & E) & Same & X) Hx [H|[H Hi]]; [left; auto|]. right. rewrite E, elem_of_app. split; [by left|].
  unfold idx in *. rewrite (Same w H). lia.
Qed.
Lemma settled_mono r0 s s' x x' u : later s s' -> x' <= x -> settled r0 s x u -> settled r0 s' x' u.
Proof. intros L Hx [C H]. split; [done|]. intros w D. eapply reaches_mono; eauto. Qed.
Lemma run_later_refl s : later s s.
Proof. split_and!; [exists []; by rewrite app_nil_r|done|done]. Qed.

(** [v] is being visited: it was pushed on the stack of [s0], and the dependencies in
    [P] have been looked at *)
Record visiting r0 (v : node) s0 s (P : node -> Prop) : Prop := mkVisiting {
  vi_tarjan : Tarjan r0 s;
  vi_stack : exists ext, xs_stack s = xs_stack s0 ++ v :: ext /\ forall u, u ∈ ext -> settled r0 s (low s v) u;
  vi_same : forall u, u ∈ xs_stack s0 -> inst_of s u = inst_of s0 u;
  vi_executed : forall w, executed (x_InstanceSpace (xs_r s0)) w -> executed (x_InstanceSpace (xs_r s)) w;
  vi_idx : idx s v = xs_index s0;
  vi_low : 1 <= low s v <= xs_index s0;
  vi_done : forall w, P w -> reaches s (low s v) w }.

Lemma visiting_v r0 v s0 s P : visiting r0 v s0 s P -> v ∈ xs_stack s /\ v ∉ xs_stack s0.
Proof.
  intros V. destruct (vi_stack _ _ _ _ _ V) as (ext & E & _). pose proof (stack_nodup _ _ (vi_tarjan _ _ _ _ _ V)) as N.
  rewrite E in *. split; [rewrite elem_of_app; right; left|]. apply NoDup_app in N as (_ & N & _). intros H. apply (N v H). left.
Qed.

(** the visit after a step from [s] to [s1], and [v]'s low link lowered to [x] *)
Lemma visiting_lower r0 v s0 s s1 x ext1 (P P' : node -> Prop) :
  visiting r0 v s0 s P -> Tarjan r0 s1 -> later s s1 -> xs_stack s1 = xs_stack s ++ ext1 -> 1 <= x ->
  (forall u, u ∈ ext1 -> settled r0 s1 x u) ->
  (forall w, P' w -> P w \/ reaches s1 x w) ->
  visiting r0 v s0 (lower s1 v x) P'.
Proof.
  intros V T1 L Es Hx He HP. destruct (visiting_v _ _ _ _ _ V) as [Hv Hv0]. destruct (vi_stack _ _ _ _ _ V) as (ext & E & S).
  pose proof L as (_ & Same & X). pose proof (Same v Hv) as Ev.
  assert (low s1 v = low s v) as El by (unfold low; by rewrite Ev).
  assert (is_Some (inst_of s1 v)) as D.
  { rewrite Ev. apply (tj_stack _ _ (vi_tarjan _ _ _ _ _ V)) in Hv as (i & -> & _). by eexists. }
  pose proof (lower_low s1 v x D) as Elow. pose proof (vi_low _ _ _ _ _ V) as Hl.
  assert (low (lower s1 v x) v <= low s v) as Hle by lia. assert (low (lower s1 v x) v <= x) as Hlx by lia.
  split.
  - by apply lower_Tarjan.
  - exists (ext ++ ext1). split.
    { transitivity (xs_stack s1); [unfold lower; by rsimpl|]. rewrite Es, E, <- app_assoc. done. }
    intros u. rewrite elem_of_app. intros [Hu|Hu].
    + destruct (settled_mono _ _ s1 _ (low (lower s1 v x) v) _ L Hle (S u Hu)) as [C H]. split; [done|].
      intros w Dw. apply lower_reaches. auto.
    + destruct (settled_mono _ _ s1 _ (low (lower s1 v x) v) _ (run_later_refl s1) Hlx (He u Hu)) as [C H]. split; [done|].
      intros w Dw. apply lower_reaches. auto.
  - intros u Hu. rewrite lower_inst, decide_False by congruence. rewrite Same; [by apply (vi_same _ _ _ _ _ V)|].
    rewrite E, elem_of_app. by left.
  - intros w Hw. apply lower_executed, X, (vi_executed _ _ _ _ _ V), Hw.
  - rewrite lower_idx. unfold idx. rewrite Ev. apply (vi_idx _ _ _ _ _ V).
  - lia.
  - intros w Hw. apply lower_reaches. destruct (HP w Hw) as [H|H].
    + eapply reaches_mono; [done| |by apply (vi_done _ _ _ _ _ V)]. lia.
    + eapply reaches_mono; [apply run_later_refl| |done]. lia.
Qed.
Lemma visiting_more r0 v s0 s (P P' : node -> Prop) :
  visiting r0 v s0 s P -> (forall w, P' w -> P w \/ reaches s (low s v) w) -> visiting r0 v s0 s P'.
Proof. intros [A B C D E F G] H. split; try done. intros w Hw. destruct (H w Hw); auto. Qed.

Lemma inst_at_Ok r (w : node) o : inst_at r w.1 w.2 = Ok o -> x_InstanceSpace r !! w = o.
Proof. destruct w. unfold inst_at. destruct (_ || _); [done|]. by intros [= <-]. Qed.
Lemma inStack_spec s w : inStack s w = true <-> w ∈ xs_stack s.
Proof.
  unfold inStack. rewrite existsb_exists. split.
  - intros (u & Hu & H%bool_decide_eq_true) . subst. by apply list_elem_of_In.
  - intros H. exists w. split; [by apply list_elem_of_In|]. by apply bool_decide_eq_true.
Qed.

Section visits.
Variables (connect : node -> ExecState TM -> outcome (ExecState TM * bool)) (r0 : EReplica TM) (v : node) (s0 : ExecState TM).
Hypothesis HC : connect_spec r0 connect.

Lemma visit_dep_ok cmds w s s' b P :
  visiting r0 v s0 s P -> visit_dep connect v cmds w s = Ok (s', b) ->
  Tarjan r0 s' /\ (b = true -> visiting r0 v s0 s' (fun u => P u \/ u = w)).
Proof.
  intros V H. pose proof (vi_tarjan _ _ _ _ _ V) as T. unfold visit_dep in H.
  apply obind_Ok in H as (o & Ho & H). apply inst_at_Ok in Ho. fold (inst_of s w) in Ho.
  destruct o as [i|]; [|by injection H as <- <-]. destruct (ei_Cmds i) as [theirs|]; [|by injection H as <- <-].
  apply obind_Ok in H as (? & _ & H).
  destruct (Z.eqb_spec (ei_Status i) st_EXECUTED) as [Se|Se].
  { injection H as <- <-. split; [done|]. intros _. eapply visiting_more; [done|]. intros u [Hu| ->]; [by left|].
    right. left. by exists i. }
  destruct (Z.eqb_spec (ei_Status i) st_COMMITTED) as [Sc|Sc]; cbn [negb] in H; [|by injection H as <- <-].
  destruct (Z.eqb_spec (ei_Index i) 0) as [Ix|Ix].
  - apply obind_Ok in H as ((s1 & ok) & H1 & H). destruct (HC w s s1 ok i T Ho Sc Ix H1) as (T1 & Hk).
    destruct ok; cbn [negb] in H; [|by injection H as <- <-]. destruct (Hk eq_refl) as [(ext1 & Es & Hw & He) L Hlow].
    apply obind_Ok in H as (i1 & Hi1 & H). injection H as <- <-. apply node_inst_Ok in Hi1. fold (inst_of s1 w) in Hi1.
    assert (ei_Lowlink i1 = low s1 w) as El by (unfold low; by rewrite Hi1). rewrite El. split; [by apply lower_Tarjan|].
    intros _. eapply visiting_lower; [done|done|done|done|done|done|].
    intros u [Hu| ->]; [by left|right]. destruct Hw as [[_ Hw]|(Hw & Hlt & Hi)]; [by left|].
    right. rewrite Es, elem_of_app. split; [by right|lia].
  - destruct (inStack s w) eqn:Hs.
    + apply inStack_spec in Hs. injection H as <- <-. split; [by apply lower_Tarjan|]. intros _.
      assert (ei_Index i = idx s w) as El by (unfold idx; by rewrite Ho). rewrite El.
      eapply (visiting_lower r0 v s0 s s _ []); [done|done|apply run_later_refl|by rewrite app_nil_r| | |].
      * by apply (tj_bounds _ _ T).
      * intros u Hu. by apply not_elem_of_nil in Hu.
      * intros u [Hu| ->]; [by left|]. right. right. split; [done|lia].
    + assert (w ∈ xs_stack s) as Hw by (apply (tj_stack _ _ T); by exists i). apply inStack_spec in Hw. congruence.
Qed.

Lemma visit_row_ok cmds q js s s' b P :
  visiting r0 v s0 s P -> visit_row connect v cmds q js s = Ok (s', b) ->
  Tarjan r0 s' /\ (b = true -> visiting r0 v s0 s' (fun u => P u \/ u.1 = q /\ u.2 ∈ js)).
Proof.
  revert s P. induction js as [|j js IH]; intros s P V H; cbn [visit_row] in H.
  { injection H as <- <-. split; [apply (vi_tarjan _ _ _ _ _ V)|]. intros _. eapply visiting_more; [done|].
    intros u [Hu|[_ Hu]]; [by left|by apply not_elem_of_nil in Hu]. }
  apply obind_Ok in H as ((s1 & ok) & H1 & H). destruct (visit_dep_ok _ _ _ _ _ _ V H1) as (T1 & Hk).
  destruct ok; [|by injection H as <- <-]. destruct (IH _ _ (Hk eq_refl) H) as (T2 & Hk2). split; [done|]. intros E.
  eapply visiting_more; [by apply Hk2|]. intros [q' j'] [Hu|[Hq Hu]]; [by left; left; left|]. cbn in *. subst q'. left.
  apply elem_of_cons in Hu as [->|Hu]; [by left; right|by right].
Qed.

Lemma visit_rows_ok cmds deps qs s s' b P :
  visiting r0 v s0 s P -> visit_rows connect v cmds deps qs s = Ok (s', b) ->
  Tarjan r0 s' /\ (b = true -> visiting r0 v s0 s' (fun u => P u \/ u.1 ∈ qs /\ exists d e,
    slice_at r0 deps u.1 = Ok d /\ index (x_ExecedUpTo r0) u.1 = Ok e /\ i32 (e + 1) <= u.2 <= d)).
Proof.
  revert s P. induction qs as [|q qs IH]; intros s P V H; cbn [visit_rows] in H.
  { injection H as <- <-. split; [apply (vi_tarjan _ _ _ _ _ V)|]. intros _. eapply visiting_more; [done|].
    intros u [Hu|[Hu _]]; [by left|by apply not_elem_of_nil in Hu]. }
  destruct (exec_frame_fields _ _ (tj_frame _ _ (vi_tarjan _ _ _ _ _ V))) as (_ & Eh & Ee & _).
  apply obind_Ok in H as (d & Hd & H). apply obind_Ok in H as (e & He & H).
  unfold slice_at, slice in Hd. rewrite Eh in Hd. rewrite Ee in He.
  apply obind_Ok in H as ((s1 & ok) & H1 & H). destruct (visit_row_ok _ _ _ _ _ _ _ V H1) as (T1 & Hk).
  destruct ok; [|by injection H as <- <-]. destruct (IH _ _ (Hk eq_refl) H) as (T2 & Hk2). split; [done|]. intros E.
  eapply visiting_more; [by apply Hk2|]. intros [q' j] [Hu|[Hq (d' & e' & Hd' & He' & Hj)]]; [by left; left; left|]. cbn in *.
  left. apply elem_of_cons in Hq as [->|Hq].
  - left. right. split; [done|]. unfold slice_at, slice in Hd'. rewrite Hd in Hd'. rewrite He in He'. injection Hd' as <-.
    injection He' as <-. apply elem_of_seqZ. lia.
  - right. split; [done|]. by exists d', e'.
Qed.
End visits.

(** the node itself, when its dependencies have been visited *)
Lemma visited_settled r0 v s0 s i :
  visiting r0 v s0 s (fun u => False \/ u.1 ∈ seqZ 0 (x_N r0) /\ exists d e,
    slice_at r0 (ei_Deps i) u.1 = Ok d /\ index (x_ExecedUpTo r0) u.1 = Ok e /\ i32 (e + 1) <= u.2 <= d) ->
  x_InstanceSpace r0 !! v = Some i -> has_cmds i -> settled r0 s (low s v) v.
Proof.
  intros V E C. split; [by exists i|]. intros w (i' & d & e & Ei & Hw & D). apply (vi_done _ _ _ _ _ V). right.
  split; [apply elem_of_seqZ; lia|]. exists d, e. rewrite E in Ei. by injection Ei as <-.
Qed.

Lemma push_visiting r0 s v i :
  Tarjan r0 s -> inst_of s v = Some i -> ei_Status i = st_COMMITTED -> ei_Index i = 0 ->
  visiting r0 v s (push_node s v) (fun _ => False).
Proof.
  intros T Hi St Ix. destruct (push_Tarjan r0 s v i T Hi St Ix) as (T1 & (_ & Same & X) & Ei & El).
  pose proof (tj_index _ _ T). split; try done; [|lia].
  exists []. split; [unfold push_node; by rsimpl|]. intros u Hu. by apply not_elem_of_nil in Hu.
Qed.

Lemma pop_connected r0 v s0 s s' :
  visiting r0 v s0 s (fun _ => False) -> settled r0 s (low s v) v -> low s v = idx s v ->
  pop_component s (length (xs_stack s0)) = Ok s' -> Tarjan r0 s' /\ connected r0 v s0 s'.
Proof.
  intros V Sv El H. pose proof (vi_tarjan _ _ _ _ _ V) as T. destruct (vi_stack _ _ _ _ _ V) as (ext & Es & He).
  pose proof (vi_low _ _ _ _ _ V) as Hlow. destruct (visiting_v _ _ _ _ _ V) as [Hv _].
  assert (drop (length (xs_stack s0)) (xs_stack s) = v :: ext) as Ed by (by rewrite Es, drop_app_length).
  assert (take (length (xs_stack s0)) (xs_stack s) = xs_stack s0) as Et by (by rewrite Es, take_app_length).
  assert (forall u, u ∈ v :: ext -> settled r0 s (low s v) u) as Hs.
  { intros u Hu. apply elem_of_cons in Hu as [->|Hu]; auto. }
  assert (forall w, w ∈ xs_stack s -> low s v <= idx s w -> w ∈ v :: ext) as Above.
  { intros w Hw Hi. rewrite Es, elem_of_app in Hw. destruct Hw as [Hw|Hw]; [|done].
    pose proof (tj_sorted _ _ T) as S. rewrite Es, fmap_app, StronglySorted_app in S. destruct S as (S & _).
    specialize (S (idx s w) (idx s v)). cbn [fmap list_fmap] in S.
    assert (idx s w < idx s v); [|lia]. apply S; [by apply list_elem_of_fmap_2|left]. }
  apply (pop_component_ok r0) in H as (B & HB & HC & Eb & Es' & Ei & Fr & L); [|done| |].
  2: { rewrite Ed. intros u Hu. apply (Hs u Hu). }
  2: { rewrite Ed. intros u w Hu D. destruct (proj2 (Hs u Hu) w D) as [X|[Hw Hi]]; [by left|right; auto]. }
  destruct (pop_Tarjan r0 s _ B s' T HB HC Eb Es' Ei Fr L) as (T' & Same & X). rewrite Et in *. rewrite Ed in HB. split; [done|].
  assert (v ∈ B) as HvB by (rewrite HB; left).
  split.
  - exists []. rewrite app_nil_r. split_and!; [done| |].
    + left. split; [done|]. apply X. by right.
    + intros u Hu. by apply not_elem_of_nil in Hu.
  - split_and!; [exists []; by rewrite app_nil_r| |].
    + intros u Hu. rewrite (Same u Hu). by apply (vi_same _ _ _ _ _ V).
    + intros w Hw. apply X. left. by apply (vi_executed _ _ _ _ _ V).
  - assert (low s' v = low s v) as ->; [|lia]. unfold low. rewrite L, decide_True by done. by destruct (inst_of s v).
Qed.

Lemma stay_connected r0 v s0 s :
  visiting r0 v s0 s (fun _ => False) -> settled r0 s (low s v) v -> low s v <> idx s v -> connected r0 v s0 s.
Proof.
  intros V Sv El. destruct (vi_stack _ _ _ _ _ V) as (ext & Es & He). pose proof (vi_low _ _ _ _ _ V) as Hlow.
  pose proof (vi_idx _ _ _ _ _ V) as Hidx. split; [|split_and!|lia].
  - exists (v :: ext). split_and!; [done| |].
    + right. split_and!; [left|lia|done].
    + intros u Hu. apply elem_of_cons in Hu as [->|Hu]; auto.
  - by exists (v :: ext).
  - apply (vi_same _ _ _ _ _ V).
  - apply (vi_executed _ _ _ _ _ V).
Qed.

Lemma strongconnect_ok r0 fuel : connect_spec r0 (strongconnect fuel).
Proof.
  induction fuel as [|fuel IH]; intros v s s' b i T Hi St Ix H; [done|]. cbn [strongconnect] in H.
  pose proof (push_visiting r0 s v i T Hi St Ix) as V. set (s1 := push_node s v) in *.
  pose proof (vi_tarjan _ _ _ _ _ V) as T1. destruct (exec_frame_fields _ _ (tj_frame _ _ T1)) as (EN & _).
  apply obind_Ok in H as (i1 & Hi1 & H). apply node_inst_Ok in Hi1. fold (inst_of s1 v) in Hi1.
  destruct (inst_evolved _ _ _ _ T1 Hi1) as (i0 & E0 & S0).
  destruct (ei_Cmds i1) as [cmds|] eqn:Ec; [|by injection H as <- <-].
  apply obind_Ok in H as ((s2 & ok) & H2 & H). rewrite EN in H2.
  destruct (visit_rows_ok _ _ _ _ IH _ _ _ _ _ _ _ V H2) as (T2 & Hk).
  destruct ok; cbn [negb] in H; [|by injection H as <- <-]. specialize (Hk eq_refl).
  assert (settled r0 s2 (low s2 v) v) as Sv.
  { destruct S0 as (st & ix & ll & -> & _). rsimpl in *. apply (visited_settled _ _ _ _ i0) in Hk; [done|done|].
    unfold has_cmds. congruence. }
  apply (visiting_more _ _ _ _ _ (fun _ => False)) in Hk; [|done].
  apply obind_Ok in H as (i2 & Hi2 & H). apply node_inst_Ok in Hi2. fold (inst_of s2 v) in Hi2.
  assert (ei_Lowlink i2 = low s2 v) as El by (unfold low; by rewrite Hi2).
  assert (ei_Index i2 = idx s2 v) as Ex by (unfold idx; by rewrite Hi2). rewrite El, Ex in H.
  destruct (Z.eqb_spec (low s2 v) (idx s2 v)) as [E|E].
  - apply obind_Ok in H as (s3 & H3 & H). injection H as <- <-. destruct (pop_connected _ _ _ _ _ Hk Sv E H3). auto.
  - injection H as <- <-. split; [done|]. intros _. by apply stay_connected.
Qed.

(** * What a call of [executeCommand] does *)

(** an instance that has not run carries no index: what [findSCC] leaves behind *)
Definition exec_wf r : Prop := forall v i, x_InstanceSpace r !! v = Some i -> ei_Status i <> st_EXECUTED -> ei_Index i = 0.

Lemma start_Tarjan r : exec_wf r -> Tarjan r (mkExecState r [] 1 [] []).
Proof.
  intros W. split; cbn [xs_r xs_stack xs_index xs_batches concat].
  - apply exec_frame_refl.
  - apply evolves_refl.
  - intros v. split; [intros H; by apply not_elem_of_nil in H|]. intros (i & E & S & I). destruct I. by eapply W.
  - intros v i H. by apply not_elem_of_nil in H.
  - constructor.
  - intros v H. by apply not_elem_of_nil in H.
  - lia.
  - intros v. rewrite elem_of_nil. tauto.
  - constructor.
  - intros pre B post E. by destruct pre.
Qed.

Lemma reset_indices_lookup l r u :
  x_InstanceSpace (reset_indices r l) !! u =
  if decide (u ∈ l) then (fun i => i <| ei_Index := 0 |>) <$> x_InstanceSpace r !! u else x_InstanceSpace r !! u.
Proof.
  unfold reset_indices. revert r. induction l as [|v l IH]; intros r; cbn [foldl].
  { by rewrite decide_False by apply not_elem_of_nil. }
  rewrite IH, write_lookup. destruct (decide (u ∈ l)) as [U|U], (decide (u = v)) as [->|N].
  - rewrite decide_True by (by left). by destruct (_ !! v).
  - by rewrite decide_True by (by right).
  - by rewrite decide_True by left.
  - rewrite decide_False; [done|]. rewrite elem_of_cons. tauto.
Qed.
Lemma reset_frame l r : exec_frame r (reset_indices r l).
Proof.
  unfold reset_indices. revert r. induction l as [|v l IH]; intros r; cbn [foldl]; [apply exec_frame_refl|].
  eapply exec_frame_trans; [apply write_frame|apply IH].
Qed.

(** the components of a call, in the order they ran, and the state it leaves *)
Record call_ok r r' (batches : list (list node)) : Prop := mkCallOk {
  call_frame : exec_frame r r';
  call_batches : forall pre B post, batches = pre ++ B :: post -> component_ok r pre B;
  call_state : forall v, option_Forall2 (fun i i' => exists ix ll, i' = i <| ei_Status := ei_Status i' |> <| ei_Index := ix |> <| ei_Lowlink := ll |>)
    (x_InstanceSpace r !! v) (x_InstanceSpace r' !! v);
  call_status : forall v i i', x_InstanceSpace r !! v = Some i -> x_InstanceSpace r' !! v = Some i' ->
    ei_Status i' = if decide (v ∈ concat batches) then st_EXECUTED else ei_Status i;
  call_wf : exec_wf r' }.

Lemma call_nothing r : exec_wf r -> call_ok r r [].
Proof.
  intros W. split; [apply exec_frame_refl| | | |done].
  - intros pre B post E. by destruct pre.
  - intros v. destruct (_ !! v) as [i|]; constructor. exists (ei_Index i), (ei_Lowlink i). by destruct i.
  - intros v i i' -> [= <-]. cbn [concat]. by rewrite decide_False by apply not_elem_of_nil.
Qed.

Lemma Tarjan_call r s : Tarjan r s -> call_ok r (reset_indices (xs_r s) (xs_stack s)) (xs_batches s).
Proof.
  intros T. pose proof (reset_indices_lookup (xs_stack s) (xs_r s)) as L. split.
  - eapply exec_frame_trans; [apply (tj_frame _ _ T)|apply reset_frame].
  - apply (tj_batches _ _ T).
  - intros v. rewrite L. destruct (tj_evolves _ _ T v) as [i i' (st & ix & ll & -> & _)|]; destruct (decide _); constructor; cbn.
    + by exists 0, ll.
    + by exists ix, ll.
  - intros v i i' E E'. rewrite L in E'. pose proof (tj_evolves _ _ T v) as S. rewrite E in S.
    inversion S as [? i1 S1 E1 E2|]; subst. rewrite <- E2 in E'.
    assert (ei_Status i' = ei_Status i1) as Est by (destruct (decide (v ∈ xs_stack s)); injection E' as <-; done). rewrite Est.
    destruct (decide (v ∈ concat (xs_batches s))) as [Hv|Hv].
    + destruct (proj2 (tj_exec _ _ T v) (or_intror Hv)) as (j & Ej & Sj). congruence.
    + destruct S1 as (st & ix & ll & -> & [H|[Hc H]]); [done|]. subst st.
      assert (executed (x_InstanceSpace (xs_r s)) v) as X by (eexists; split; [symmetry; exact E2|done]).
      apply (tj_exec _ _ T) in X as [(j & Ej & Sj)|X]; [|done]. rsimpl. congruence.
  - intros v i E S. rewrite L in E. destruct (decide (v ∈ xs_stack s)) as [Hv|Hv].
    + destruct (x_InstanceSpace (xs_r s) !! v); [|done]. by injection E as <-.
    + destruct (Z.eq_dec (ei_Index i) 0) as [|N]; [done|]. destruct Hv. apply (tj_stack _ _ T). by exists i.
Qed.

Lemma executeCommand_ok r q i s b :
  exec_wf r -> executeCommand r q i = Ok (s, b) ->
  call_ok r (xs_r s) (xs_batches s) /\ (b = true -> executed (x_InstanceSpace (xs_r s)) (q, i)).
Proof.
  intros W H. unfold executeCommand in H. apply obind_Ok in H as (o & Ho & H). apply (inst_at_Ok r (q, i)) in Ho.
  destruct o as [inst|].
  2: { injection H as <- <-. split; [by apply call_nothing|done]. }
  destruct (Z.eqb_spec (ei_Status inst) st_EXECUTED) as [E|E].
  { injection H as <- <-. split; [by apply call_nothing|]. intros _. by exists inst. }
  destruct (Z.eqb_spec (ei_Status inst) st_COMMITTED) as [C|C]; cbn [negb] in H.
  2: { injection H as <- <-. split; [by apply call_nothing|done]. }
  unfold findSCC in H. apply obind_Ok in H as ((s1 & b1) & H1 & H). injection H as <- <-.
  destruct (strongconnect_ok r _ _ _ _ _ _ (start_Tarjan r W) Ho C (W _ _ Ho E) H1) as (T & Hk).
  split; [exact (Tarjan_call r s1 T)|]. intros ->. destruct (Hk eq_refl) as [(ext & Es & Hx & _) _ Hl].
  destruct Hx as [[_ X]|(_ & Hlt & _)]; [|cbn in Hlt; lia]. rsimpl.
  destruct X as (j & Ej & Sj). exists (if decide ((q, i) ∈ xs_stack s1) then j <| ei_Index := 0 |> else j).
  rewrite reset_indices_lookup, Ej. by destruct (decide _).
Qed.

(** * A call returns *)

(** the instances that carry no index *)
Definition unvisited r : gset (Z * Z) := dom (filter (fun p : (Z * Z) * EInstance => ei_Index p.2 = 0) (x_InstanceSpace r)).
Lemma elem_unvisited r v : v ∈ unvisited r <-> exists i, x_InstanceSpace r !! v = Some i /\ ei_Index i = 0.
Proof.
  unfold unvisited. rewrite elem_of_dom. split.
  - intros [i H]. apply map_lookup_filter_Some in H as [H E]. by exists i.
  - intros (i & H & E). exists i. by apply map_lookup_filter_Some.
Qed.

Lemma obind_stuck {A B} (m : outcome A) (k : A -> outcome B) :
  obind m k = Stuck -> m = Stuck \/ exists a, m = Ok a /\ k a = Stuck.
Proof. destruct m as [a| |]; [right; by exists a|done|by left]. Qed.
Lemma deref_stuck {A} (o : option A) : deref o <> Stuck.
Proof. by destruct o. Qed.
Lemma index_stuck {A} (l : list A) i : index l i <> Stuck.
Proof. unfold index. destruct (_ <? _); [done|apply deref_stuck]. Qed.
Lemma inst_at_stuck r q i : inst_at r q i <> Stuck.
Proof. unfold inst_at. by destruct (_ || _). Qed.
Lemma node_inst_stuck r v : node_inst r v <> Stuck.
Proof.
  unfold node_inst. intros [H|(o & _ & H)]%obind_stuck; [by eapply inst_at_stuck|by eapply deref_stuck].
Qed.
Lemma run_cmd_stuck r c : run_cmd r c <> Stuck.
Proof. unfold run_cmd. intros [H|((v & st) & _ & H)]%obind_stuck; [by eapply deref_stuck|done]. Qed.
Lemma exec_cmds_stuck cs r ps k : exec_cmds r ps k cs <> Stuck.
Proof.
  revert r k. induction cs as [|c cs IH]; intros r k H; cbn [exec_cmds] in H; [done|].
  apply obind_stuck in H as [H|((r1 & fx1) & _ & H)].
  - destruct (is_op c NONE); [done|]. destruct ps as [ps|].
    + apply obind_stuck in H as [H|((r1 & v1) & _ & H)]; [by eapply run_cmd_stuck|].
      apply obind_stuck in H as [H|(p & _ & H)]; [by eapply index_stuck|done].
    + destruct (is_op c PUT); [|done]. apply obind_stuck in H as [H|((r1 & v1) & _ & H)]; [by eapply run_cmd_stuck|done].
  - apply obind_stuck in H as [H|((r2 & fx2) & _ & H)]; [by eapply IH|done].
Qed.
Lemma exec_nodes_stuck ws r : exec_nodes r ws <> Stuck.
Proof.
  revert r. induction ws as [|w ws IH]; intros r H; cbn [exec_nodes] in H; [done|].
  apply obind_stuck in H as [H|(i & _ & H)]; [by eapply node_inst_stuck|].
  apply obind_stuck in H as [H|((r1 & fx1) & _ & H)]; [by eapply exec_cmds_stuck|].
  apply obind_stuck in H as [H|((r2 & fx2) & _ & H)]; [by eapply IH|done].
Qed.
Lemma node_insts_stuck ws r : node_insts r ws <> Stuck.
Proof.
  induction ws as [|w ws IH]; intros H; cbn [node_insts] in H; [done|].
  apply obind_stuck in H as [H|(i & _ & H)]; [by eapply node_inst_stuck|].
  apply obind_stuck in H as [H|(l & _ & H)]; [by eapply IH|done].
Qed.
Lemma pop_component_stuck s l : pop_component s l <> Stuck.
Proof.
  unfold pop_component. intros [H|(ns & _ & H)]%obind_stuck; [by eapply node_insts_stuck|].
  apply obind_stuck in H as [H|((r1 & fx1) & _ & H)]; [by eapply exec_nodes_stuck|done].
Qed.
Lemma scan_conflicts_stuck alphas betas : scan_conflicts alphas betas <> Stuck.
Proof.
  unfold scan_conflicts. generalize (alphas ≫= fun a => (fun b => (a, b)) <$> betas). intros l.
  assert (forall o : outcome unit, o <> Stuck ->
    foldl (fun o (ab : Command * Command) => _ <~ o ;; _ <~ deref (Conflict ab.1 ab.2) ;; Ok tt) o l <> Stuck) as H; [|by apply H].
  induction l as [|ab l IH]; intros o Ho; cbn [foldl]; [done|]. apply IH.
  intros [H|(u & _ & H)]%obind_stuck; [done|]. apply obind_stuck in H as [H|(c & _ & H)]; [by eapply deref_stuck|done].
Qed.

(** the indices are not given up while the algorithm runs *)
Definition indexed s s' : Prop := unvisited (xs_r s') ⊆ unvisited (xs_r s) /\ (1 <= xs_index s -> 1 <= xs_index s').
Lemma indexed_refl s : indexed s s.
Proof. done. Qed.
Lemma indexed_trans s1 s2 s3 : indexed s1 s2 -> indexed s2 s3 -> indexed s1 s3.
Proof. intros [A B] [C D]. split; [set_solver|auto]. Qed.
Lemma lower_indexed s v x : indexed s (lower s v x).
Proof.
  split; [|unfold lower; by rsimpl]. intros u. rewrite !elem_unvisited. intros (i' & Hi & E).
  fold (inst_of (lower s v x) u) in Hi. fold (inst_of s u).
  destruct (lower_fields s v x u) as [i i2 [ll ->]|]; [|done]. injection Hi as <-. by exists i.
Qed.
Lemma pop_indexed s l s' : pop_component s l = Ok s' -> indexed s s'.
Proof.
  intros H. unfold pop_component in H. apply obind_Ok in H as (ns & _ & H).
  apply obind_Ok in H as ((r1 & fx) & H1 & H). injection H as <-. apply exec_nodes_spec in H1 as (_ & L).
  split; [|by rsimpl]. rsimpl. intros u. rewrite !elem_unvisited, L. intros (i & Hi & E).
  destruct (decide _); [|by exists i]. destruct (_ !! u) as [j|]; [|done]. injection Hi as <-. by exists j.
Qed.
Lemma push_indexed s v :
  1 <= xs_index s -> v ∈ unvisited (xs_r s) ->
  indexed s (push_node s v) /\ (size (unvisited (xs_r (push_node s v))) < size (unvisited (xs_r s)))%nat.
Proof.
  intros Hx Hv.
  assert (forall u, u ∈ unvisited (xs_r (push_node s v)) -> u ∈ unvisited (xs_r s) /\ u <> v) as L.
  { intros u. rewrite !elem_unvisited. intros (i & Hi & E). fold (inst_of (push_node s v) u) in Hi. rewrite push_inst in Hi.
    destruct (decide (u = v)) as [->|N]; [|split; [by exists i|done]].
    destruct (inst_of s v); [|done]. injection Hi as <-. rsimpl in E. lia. }
  split; [split|].
  - intros u Hu. by apply L.
  - unfold push_node. rsimpl. lia.
  - apply subset_size. split; [intros u Hu; by apply L|]. intros H. apply H in Hv. by apply L in Hv as [_ []].
Qed.

Definition connect_total (n : nat) (connect : node -> ExecState TM -> outcome (ExecState TM * bool)) : Prop :=
  forall v s, 1 <= xs_index s -> v ∈ unvisited (xs_r s) -> (size (unvisited (xs_r s)) <= n)%nat ->
    connect v s <> Stuck /\ forall s' b, connect v s = Ok (s', b) -> indexed s s'.

Section total.
Variables (n : nat) (connect : node -> ExecState TM -> outcome (ExecState TM * bool)) (v : node).
Hypothesis HC : connect_total n connect.
Implicit Types (m : outcome (ExecState TM * bool)).

Definition returns s m : Prop := m <> Stuck /\ forall s' b, m = Ok (s', b) -> indexed s s'.
Lemma returns_here s b : returns s (Ok (s, b)).
Proof. split; [done|]. intros s' b' [= <- <-]. apply indexed_refl. Qed.
Lemma returns_then s m (k : ExecState TM * bool -> outcome (ExecState TM * bool)) :
  returns s m -> (forall s1 b, indexed s s1 -> returns s1 (k (s1, b))) -> returns s (obind m k).
Proof.
  intros [N I] K. split.
  - intros [H|((s1 & b) & H1 & H)]%obind_stuck; [done|]. by destruct (K s1 b (I _ _ H1)).
  - intros s' b' H. apply obind_Ok in H as ((s1 & b) & H1 & H). eapply indexed_trans; [exact (I _ _ H1)|]. destruct (K s1 b (I _ _ H1)). eauto.
Qed.
Lemma returns_pure {A} s (o : outcome A) k : o <> Stuck -> (forall a, o = Ok a -> returns s (k a)) -> returns s (obind o k).
Proof.
  intros N K. split.
  - intros [H|(a & H1 & H)]%obind_stuck; [done|]. by destruct (K a H1).
  - intros s' b' H. apply obind_Ok in H as (a & H1 & H). destruct (K a H1). eauto.
Qed.

Lemma visit_dep_total cmds w s :
  1 <= xs_index s -> (size (unvisited (xs_r s)) <= n)%nat -> returns s (visit_dep connect v cmds w s).
Proof.
  intros Hx Hn. unfold visit_dep. apply returns_pure; [apply inst_at_stuck|]. intros o Ho. apply inst_at_Ok in Ho.
  destruct o as [i|]; [|apply returns_here]. destruct (ei_Cmds i) as [theirs|]; [|apply returns_here].
  apply returns_pure; [destruct (x_transconf _); [apply scan_conflicts_stuck|done]|]. intros _ _.
  destruct (_ =? _); [apply returns_here|]. destruct (negb _); [apply returns_here|].
  destruct (Z.eqb_spec (ei_Index i) 0) as [Ix|Ix].
  - assert (returns s (connect w s)) as R.
    { apply (HC w s Hx); [|done]. apply elem_unvisited. by exists i. }
    apply returns_then; [exact R|]. intros s1 b _.
    destruct (negb b); [apply returns_here|]. apply returns_pure; [apply node_inst_stuck|]. intros i1 _.
    split; [done|]. intros s' b' [= <- <-]. apply lower_indexed.
  - destruct (inStack s w); [|apply returns_here]. split; [done|]. intros s' b' [= <- <-]. apply lower_indexed.
Qed.
Lemma indexed_le s s1 : indexed s s1 -> (size (unvisited (xs_r s1)) <= size (unvisited (xs_r s)))%nat.
Proof. intros [H _]. by apply subseteq_size. Qed.
Lemma visit_row_total cmds q js s :
  1 <= xs_index s -> (size (unvisited (xs_r s)) <= n)%nat -> returns s (visit_row connect v cmds q js s).
Proof.
  revert s. induction js as [|j js IH]; intros s Hx Hn; cbn [visit_row]; [apply returns_here|].
  apply returns_then; [by apply visit_dep_total|]. intros s1 b I. destruct b; [|apply returns_here].
  apply IH; [by apply I|]. apply indexed_le in I. lia.
Qed.
Lemma visit_rows_total cmds deps qs s :
  1 <= xs_index s -> (size (unvisited (xs_r s)) <= n)%nat -> returns s (visit_rows connect v cmds deps qs s).
Proof.
  revert s. induction qs as [|q qs IH]; intros s Hx Hn; cbn [visit_rows]; [apply returns_here|].
  apply returns_pure; [apply index_stuck|]. intros d _. apply returns_pure; [apply index_stuck|]. intros e _.
  apply returns_then; [by apply visit_row_total|]. intros s1 b I. destruct b; [|apply returns_here].
  apply IH; [by apply I|]. apply indexed_le in I. lia.
Qed.
End total.

Lemma strongconnect_total fuel : connect_total fuel (strongconnect fuel).
Proof.
  induction fuel as [|fuel IH]; intros v s0 Hx Hv Hn.
  { assert (unvisited (xs_r s0) = (∅ : gset (Z * Z))) as E by (apply leibniz_equiv, size_empty_iff; lia).
    rewrite E in Hv. by apply elem_of_empty in Hv. }
  cbn [strongconnect]. destruct (push_indexed s0 v Hx Hv) as (I & Hlt). set (s1 := push_node s0 v) in *.
  assert (returns s1 (inst <~ node_inst (xs_r s1) v ;;
      match ei_Cmds inst with
      | None => Ok (s1, false)
      | Some cmds =>
          '(s, ok) <~ visit_rows (strongconnect fuel) v cmds (ei_Deps inst) (seqZ 0 (x_N (xs_r s1))) s1 ;;
          if negb ok then Ok (s, false)
          else
            inst <~ node_inst (xs_r s) v ;;
            if ei_Lowlink inst =? ei_Index inst then s <~ pop_component s (length (xs_stack s0)) ;; Ok (s, true) else Ok (s, true)
      end)) as [R1 R2]; [|split; [exact R1|intros s' b H; eapply indexed_trans; [exact I|by eapply R2]]].
  apply returns_pure; [apply node_inst_stuck|]. intros i _. destruct (ei_Cmds i) as [cmds|]; [|apply returns_here].
  apply returns_then; [apply (visit_rows_total fuel); [done|by apply I|lia]|]. intros s2 b _.
  destruct (negb b); [apply returns_here|]. apply returns_pure; [apply node_inst_stuck|]. intros i2 _.
  destruct (_ =? _); [|apply returns_here]. split.
  - intros [H|(s3 & _ & H)]%obind_stuck; [by eapply pop_component_stuck|done].
  - intros s' b' H. apply obind_Ok in H as (s3 & H3 & H). injection H as <- <-. by eapply pop_indexed.
Qed.

Lemma unvisited_size r : (size (unvisited r) <= size (x_InstanceSpace r))%nat.
Proof. unfold unvisited. rewrite size_dom. apply map_subseteq_size, map_filter_subseteq. Qed.
Lemma executeCommand_total r q i : exec_wf r -> executeCommand r q i <> Stuck.
Proof.
  intros W H. unfold executeCommand in H. apply obind_stuck in H as [H|(o & Ho & H)]; [by eapply inst_at_stuck|].
  apply (inst_at_Ok r (q, i)) in Ho. destruct o as [inst|]; [|done].
  destruct (Z.eqb_spec (ei_Status inst) st_EXECUTED) as [E|E]; [done|]. destruct (negb _); [done|].
  unfold findSCC in H. apply obind_stuck in H as [H|((s1 & b1) & _ & H)]; [|done].
  pose proof (unvisited_size r). destruct (strongconnect_total (S (size (x_InstanceSpace r))) (q, i) (mkExecState r [] 1 [] [])) as [N _];
    cbn [xs_index xs_r]; [lia| |lia|done]. apply elem_unvisited. exists inst. split; [done|by eapply W].
Qed.
End order.
