(* ===== verification/EpaxosInv.v ===== *)
(** The EPaxos baseline: what its handlers keep.  Every instance past [NONE] has its
    commands, and slices are in the store; the second part is about the tables of the
    last instances per key and the dependencies taken from them. *)
From stdpp Require Import gmap list.
From S2P Require Import Prelude WireBase Wire State QuorumSets GobWire DefsWire Handlers EpaxosWire EPaxos.

Section inv.
Context {TM : Treemap Value}.
Implicit Types (r : EReplica TM) (inst : EInstance) (lb : EBookkeeping) (h : gmap nat (list Z)).

(** * The parts a handler is made of *)

Lemma set_index_Ok {A} (l : list A) i x l' : set_index l i x = Ok l' -> 0 <= i < Zlength l /\ l' = <[Z.to_nat i := x]> l.
Proof.
  unfold set_index, index. intros H. apply obind_Ok in H as (y & Hy & H). injection H as <-.
  destruct (Z.ltb_spec i 0); [done|]. apply deref_Ok, lookup_lt_Some in Hy. split; [lia|done].
Qed.

Lemma new_slice_eq r l : exists a, new_slice r l = (r <| x_heap ::= <[a := l]> |>, Some a) /\ x_heap r !! a = None.
Proof.
  eexists. split; [reflexivity|]. apply not_elem_of_dom. apply is_fresh.
Qed.
Lemma set_slice_Ok r p i v r' :
  set_slice r p i v = Ok r' -> exists a, p = Some a /\ a ∈ dom (x_heap r) /\ r' = r <| x_heap ::= <[a := <[Z.to_nat i := v]> (slice r p)]> |>.
Proof.
  unfold set_slice. intros H. apply obind_Ok in H as (l & Hl & H). apply obind_Ok in H as (a & Ha & H).
  apply deref_Ok in Ha as ->. injection H as <-. apply set_index_Ok in Hl as [Hi ->]. exists a. split_and!; [done| |done].
  apply elem_of_dom. unfold slice in Hi. destruct (x_heap r !! a) eqn:E; [by eexists|]. cbn in Hi. lia.
Qed.

(** only the array [p] is written *)
Definition heap_frame (p : option nat) r r' : Prop :=
  exists h, r' = r <| x_heap := h |> /\ dom h = dom (x_heap r) /\ forall a, p <> Some a -> h !! a = x_heap r !! a.
Lemma heap_frame_refl p r : heap_frame p r r.
Proof. exists (x_heap r). split_and!; [by destruct r|done|done]. Qed.
Lemma heap_frame_trans p r1 r2 r3 : heap_frame p r1 r2 -> heap_frame p r2 r3 -> heap_frame p r1 r3.
Proof.
  intros (h & -> & D & L) (h' & -> & D' & L'). rsimpl in *. exists h'. split_and!; [done|congruence|]. intros a Ha.
  by rewrite L', L.
Qed.
Lemma set_slice_frame r p i v r' : set_slice r p i v = Ok r' -> heap_frame p r r'.
Proof.
  intros (a & -> & Ha & ->)%set_slice_Ok. eexists. split_and!; [by destruct r|rewrite dom_insert_L; set_solver|].
  intros b Hb. apply (lookup_insert_ne (M:=gmap nat)). congruence.
Qed.

Lemma attributes_row_frame r q c cmds seq deps r' seq' ch :
  attributes_row r q c cmds seq deps = Ok (r', seq', ch) -> heap_frame deps r r'.
Proof.
  revert r seq. induction cmds as [|cmd cmds IH]; intros r seq H; cbn [attributes_row] in H.
  { injection H as <- <- <-. apply heap_frame_refl. }
  destruct (last_conflict c cmd) as [d|]; [|by eapply IH].
  apply obind_Ok in H as (cur & _ & H). destruct (cur <? d); [|by eapply IH].
  apply obind_Ok in H as (r1 & H1 & H). apply obind_Ok in H as (o & _ & H). apply obind_Ok in H as (inst & _ & H).
  injection H as <- _ _. by eapply set_slice_frame.
Qed.
Lemma attributes_rows_frame qs r cmds seq deps replica b r' seq' ch :
  attributes_rows r qs cmds seq deps replica b = Ok (r', seq', ch) -> heap_frame deps r r'.
Proof.
  revert r seq b. induction qs as [|q qs IH]; intros r seq b H; cbn [attributes_rows] in H.
  { injection H as <- <- <-. apply heap_frame_refl. }
  destruct (_ && _); [by eapply IH|]. apply obind_Ok in H as (((r1 & seq1) & b1) & H1 & H).
  apply IH in H. eapply heap_frame_trans; [|exact H]. destruct cmds as [|c cs].
  - injection H1 as <- _ _. apply heap_frame_refl.
  - apply obind_Ok in H1 as (cf & _ & H1). by eapply attributes_row_frame.
Qed.
Lemma updateAttributes_frame r cmds seq deps replica r' seq' ch :
  updateAttributes r cmds seq deps replica = Ok (r', seq', ch) -> heap_frame deps r r'.
Proof.
  unfold updateAttributes. intros H. apply obind_Ok in H as (((r1 & seq1) & b1) & H1 & H).
  destruct (raise_seq _ _ _) as [seq2 b2]. injection H as <- _ _. by eapply attributes_rows_frame.
Qed.
Lemma merge_rows_frame qs r d1 d2 b r' b' : merge_rows r qs d1 d2 b = Ok (r', b') -> heap_frame d1 r r'.
Proof.
  revert r b. induction qs as [|q qs IH]; intros r b H; cbn [merge_rows] in H.
  { injection H as <- <-. apply heap_frame_refl. }
  destruct (_ =? _); [by eapply IH|]. apply obind_Ok in H as (x & _ & H). apply obind_Ok in H as (y & _ & H).
  destruct (x =? y); [by eapply IH|]. apply obind_Ok in H as (r1 & H1 & H). apply IH in H.
  eapply heap_frame_trans; [|exact H]. destruct (x <? y); [by eapply set_slice_frame|]. injection H1 as <-. apply heap_frame_refl.
Qed.
Lemma mergeAttributes_frame r s1 d1 s2 d2 r' s' b : mergeAttributes r s1 d1 s2 d2 = Ok (r', s', b) -> heap_frame d1 r r'.
Proof.
  unfold mergeAttributes. intros H. apply obind_Ok in H as ((r1 & b1) & H1 & H). injection H as <- _ _. by eapply merge_rows_frame.
Qed.
Lemma replies_equal_frame r lb es r' b : replies_equal r lb es = Ok (r', b) -> heap_frame (el_deps lb) r r'.
Proof.
  revert r. induction es as [|e es IH]; intros r H; cbn [replies_equal] in H.
  { injection H as <- _. apply heap_frame_refl. }
  destruct (_ && _); [|by eapply IH]. apply obind_Ok in H as (((r1 & s1) & b1) & H1 & H). apply mergeAttributes_frame in H1.
  destruct b1; [eapply heap_frame_trans; eauto|]. by injection H as <- _.
Qed.
Lemma all_committed_frame qs r c t m b r' b' : all_committed r qs c t m b = Ok (r', b') -> heap_frame c r r'.
Proof.
  revert r b. induction qs as [|q qs IH]; intros r b H; cbn [all_committed] in H.
  { injection H as <- _. apply heap_frame_refl. }
  apply obind_Ok in H as (x & _ & H). apply obind_Ok in H as (y & _ & H). apply obind_Ok in H as (r1 & H1 & H).
  apply obind_Ok in H as (x' & _ & H). apply obind_Ok in H as (u & _ & H). apply obind_Ok in H as (r2 & H2 & H).
  apply obind_Ok in H as (x2 & _ & H). apply obind_Ok in H as (d & _ & H). apply IH in H.
  assert (forall b0 v ra rb, (if b0 : bool then set_slice ra c q v else Ok ra) = Ok rb -> heap_frame c ra rb) as X.
  { intros b0 v ra rb E. destruct b0; [by eapply set_slice_frame|]. injection E as <-. apply heap_frame_refl. }
  eapply heap_frame_trans; [by eapply X|]. eapply heap_frame_trans; [by eapply X|done].
Qed.

Lemma updateConflicts_frame cmds r q i seq r' :
  updateConflicts r cmds q i seq = Ok r' -> exists c m, r' = r <| x_conflicts := c |> <| x_maxSeqPerKey := m |>.
Proof.
  revert r. induction cmds as [|c cmds IH]; intros r H; cbn [updateConflicts] in H.
  { injection H as <-. exists (x_conflicts r), (x_maxSeqPerKey r). by destruct r. }
  apply obind_Ok in H as (t & _ & H). apply obind_Ok in H as (l & _ & H). apply IH in H as (c' & m' & ->). by exists c', m'.
Qed.
Lemma updateCommitted_frame r q r' : updateCommitted r q = Ok r' -> exists l, r' = r <| x_CommittedUpTo := l |>.
Proof. unfold updateCommitted. intros H. ok_steps. by eexists. Qed.
Lemma hear_instance_frame r q i r' : hear_instance r q i = Ok r' -> exists l, r' = r <| x_crtInstance := l |>.
Proof.
  unfold hear_instance. intros H. apply obind_Ok in H as (c & _ & H). destruct (c <? i).
  - ok_steps. by eexists.
  - injection H as <-. exists (x_crtInstance r). by destruct r.
Qed.
Lemma see_ballot_frame r b : exists b', see_ballot r b = r <| x_maxRecvBallot := b' |>.
Proof. unfold see_ballot. destruct (_ <? _); [by eexists|]. exists (x_maxRecvBallot r). by destruct r. Qed.
Lemma inst_at_eq r q i o : inst_at r q i = Ok o -> x_InstanceSpace r !! (q, i) = o.
Proof. unfold inst_at. destruct (_ || _); [done|]. by intros [= <-]. Qed.
Lemma makeBallot_frame r q i r' :
  makeBallot r q i = Ok r' -> exists inst lb n, x_InstanceSpace r !! (q, i) = Some inst /\ ei_lb inst = Some lb /\
    r' = set_inst r q i (inst <| ei_lb := Some (lb <| el_lastTriedBallot := n |>) |>).
Proof.
  unfold makeBallot. intros H. apply obind_Ok in H as (o & Ho & H). apply inst_at_eq in Ho.
  apply obind_Ok in H as (inst & Hi & H). apply deref_Ok in Hi as ->. apply obind_Ok in H as (n & _ & H).
  apply obind_Ok in H as (lb & Hl & H). apply deref_Ok in Hl. injection H as <-. by exists inst, lb, n.
Qed.
Lemma open_inst_Ok r q i r' inst :
  open_inst r q i = Ok (r', inst) ->
  x_InstanceSpace r !! (q, i) = Some inst /\ r' = r \/
  x_InstanceSpace r !! (q, i) = None /\ inst = newInstanceDefault r q i /\ r' = set_inst r q i inst.
Proof.
  unfold open_inst. intros H. apply obind_Ok in H as (o & Ho & H). apply inst_at_eq in Ho. destruct o as [j|]; injection H as <- <-; auto.
Qed.

(** * The invariant *)

Definition ptr_ok h (p : option nat) : Prop := match p with None => True | Some a => a ∈ dom h end.

Record kept_ok h (e : KeptReply) : Prop := mkKeptOk {
  ko_cmds : kr_Status e <> st_NONE -> kr_Command e <> None;
  ko_deps : ptr_ok h (kr_Deps e) }.
Record lb_ok h (cmds : option (list Command)) lb : Prop := mkLbOk {
  lo_cmds : el_status lb <> st_NONE -> el_cmds lb <> None;
  lo_inst : el_status lb <> st_NONE -> cmds <> None;
  lo_try : el_tryingToPreAccept lb = true -> el_cmds lb <> None /\ el_preparing lb = false;
  lo_deps : ptr_ok h (el_deps lb);
  lo_kept : Forall (kept_ok h) (el_prepareReplies lb) }.
Record inst_ok h inst : Prop := mkInstOk {
  io_cmds : ei_Status inst <> st_NONE -> ei_Cmds inst <> None;
  io_deps : ptr_ok h (ei_Deps inst);
  io_lb : forall lb, ei_lb inst = Some lb -> lb_ok h (ei_Cmds inst) lb }.
Definition known r : Prop := forall v inst, x_InstanceSpace r !! v = Some inst -> inst_ok (x_heap r) inst.

Lemma ptr_ok_more h h' p : dom h ⊆ dom h' -> ptr_ok h p -> ptr_ok h' p.
Proof. destruct p; cbn; [set_solver|done]. Qed.
Lemma inst_ok_more h h' inst : dom h ⊆ dom h' -> inst_ok h inst -> inst_ok h' inst.
Proof.
  intros D [C P L]. split; [done|by eapply ptr_ok_more|]. intros lb E. destruct (L lb E) as [A B T Q K].
  split; try done; [by eapply ptr_ok_more|]. eapply Forall_impl; [exact K|]. intros e [X Y]. split; [done|by eapply ptr_ok_more].
Qed.
Lemma inst_ok_default r q i h : inst_ok h (newInstanceDefault r q i).
Proof. unfold newInstanceDefault, newInstance. by split. Qed.

Lemma set_inst_lookup r q i inst v :
  x_InstanceSpace (set_inst r q i inst) !! v = if decide (v = (q, i)) then Some inst else x_InstanceSpace r !! v.
Proof.
  unfold set_inst. rsimpl. destruct (decide (v = (q, i))) as [->|].
  - by rewrite (lookup_insert_eq (M:=gmap (Z * Z))).
  - by rewrite (lookup_insert_ne (M:=gmap (Z * Z))).
Qed.
Lemma known_set r q i inst : known r -> inst_ok (x_heap r) inst -> known (set_inst r q i inst).
Proof.
  intros K I v j E. rewrite set_inst_lookup in E. replace (x_heap (set_inst r q i inst)) with (x_heap r) by (unfold set_inst; by rsimpl).
  destruct (decide _); [by injection E as <-|by eapply K].
Qed.
Lemma known_more r r' : x_InstanceSpace r' = x_InstanceSpace r -> dom (x_heap r) ⊆ dom (x_heap r') -> known r -> known r'.
Proof. intros E D K v inst. rewrite E. intros H. eapply inst_ok_more; [exact D|by eapply K]. Qed.
Lemma known_heap_frame p r r' : heap_frame p r r' -> known r -> known r'.
Proof. intros (h & -> & D & _). apply known_more; rsimpl; [done|by rewrite D]. Qed.
Lemma heap_frame_dom p r r' : heap_frame p r r' -> dom (x_heap r') = dom (x_heap r) /\ x_InstanceSpace r' = x_InstanceSpace r.
Proof. intros (h & -> & D & _). by rsimpl. Qed.
Lemma new_slice_known r l r' p : new_slice r l = (r', p) -> known r -> known r' /\ ptr_ok (x_heap r') p /\ x_InstanceSpace r' = x_InstanceSpace r /\
  dom (x_heap r) ⊆ dom (x_heap r').
Proof.
  destruct (new_slice_eq r l) as (a & -> & Ha). intros [= <- <-] K. rsimpl. rewrite dom_insert_L. split_and!; [|cbn|done|]; [|set_solver..].
  eapply known_more; [..|exact K]; rsimpl; [done|rewrite dom_insert_L; set_solver].
Qed.
Lemma inst_ok_open r q i r' inst : known r -> open_inst r q i = Ok (r', inst) -> known r' /\ inst_ok (x_heap r') inst /\ x_heap r' = x_heap r.
Proof.
  intros K [(E & ->)|(E & -> & ->)]%open_inst_Ok.
  - split_and!; [done|by eapply K|done].
  - split_and!; [apply known_set; [done|apply inst_ok_default]|apply inst_ok_default|unfold set_inst; by rsimpl].
Qed.

(** fields that hold no instance and no slice *)
Lemma updateConflicts_known cmds r q i seq r' : updateConflicts r cmds q i seq = Ok r' -> x_InstanceSpace r' = x_InstanceSpace r /\ x_heap r' = x_heap r.
Proof. intros (c & m & ->)%updateConflicts_frame. by rsimpl. Qed.
Lemma updateCommitted_known r q r' : updateCommitted r q = Ok r' -> x_InstanceSpace r' = x_InstanceSpace r /\ x_heap r' = x_heap r.
Proof. intros (l & ->)%updateCommitted_frame. by rsimpl. Qed.
Lemma hear_instance_known r q i r' : hear_instance r q i = Ok r' -> x_InstanceSpace r' = x_InstanceSpace r /\ x_heap r' = x_heap r.
Proof. intros (l & ->)%hear_instance_frame. by rsimpl. Qed.
Lemma see_ballot_known r b : x_InstanceSpace (see_ballot r b) = x_InstanceSpace r /\ x_heap (see_ballot r b) = x_heap r.
Proof. destruct (see_ballot_frame r b) as (b' & ->). by rsimpl. Qed.
Lemma known_same r r' : x_InstanceSpace r' = x_InstanceSpace r /\ x_heap r' = x_heap r -> known r -> known r'.
Proof. intros [E H]. apply known_more; [done|by rewrite H]. Qed.
Lemma makeBallot_known r q i r' : makeBallot r q i = Ok r' -> known r -> known r'.
Proof.
  intros (inst & lb & n & E & L & ->)%makeBallot_frame K. apply known_set; [done|]. destruct (K _ _ E) as [C P B].
  split; [done|done|]. intros lb' [= <-]. destruct (B lb L). by split.
Qed.

(** * The acceptor *)

(** what a handler keeps of every instance: the ballot does not go down, and what is
    committed stays *)
Definition value_kept r r' inst inst' : Prop :=
  ei_Status inst' = ei_Status inst /\ ei_Cmds inst' = ei_Cmds inst /\ ei_Seq inst' = ei_Seq inst /\
  slice r' (ei_Deps inst') = slice r (ei_Deps inst).
Definition acceptor_step r r' : Prop :=
  forall v inst, x_InstanceSpace r !! v = Some inst -> exists inst', x_InstanceSpace r' !! v = Some inst' /\
    ei_bal inst <= ei_bal inst' /\ (st_COMMITTED <= ei_Status inst -> value_kept r r' inst inst').

Definition grow h h' : Prop := forall a, a ∈ dom h -> h' !! a = h !! a.
Lemma grow_refl h : grow h h.
Proof. done. Qed.
Lemma grow_dom h h' : grow h h' -> dom h ⊆ dom h'.
Proof. intros G a Ha. pose proof (G a Ha) as E. apply elem_of_dom in Ha as [l Hl]. apply elem_of_dom. exists l. congruence. Qed.
Lemma grow_slice r r' p : grow (x_heap r) (x_heap r') -> ptr_ok (x_heap r) p -> slice r' p = slice r p.
Proof. intros G. destruct p as [a|]; [|done]. cbn. intros Ha. by rewrite G. Qed.
Lemma new_slice_grow r l r' p : new_slice r l = (r', p) -> grow (x_heap r) (x_heap r') /\ (forall a, p = Some a -> a ∉ dom (x_heap r)) /\
  x_InstanceSpace r' = x_InstanceSpace r /\ ptr_ok (x_heap r') p.
Proof.
  destruct (new_slice_eq r l) as (a & -> & Ha). intros [= <- <-]. rsimpl. split_and!; [| |done|cbn; rewrite dom_insert_L; set_solver].
  - intros b Hb. apply (lookup_insert_ne (M:=gmap nat)). intros ->. apply elem_of_dom in Hb as [? ?]. congruence.
  - intros b [= <-]. by apply not_elem_of_dom.
Qed.
Lemma heap_frame_grow p h0 r r' : grow h0 (x_heap r) -> (forall a, p = Some a -> a ∉ dom h0) -> heap_frame p r r' -> grow h0 (x_heap r').
Proof.
  intros G N (h & -> & _ & L). rsimpl. intros a Ha. rewrite L; [by apply G|]. intros ->. by destruct (N a eq_refl).
Qed.

Lemma acceptor_intro r r' q i inst inst' :
  known r -> (forall j, x_InstanceSpace r !! (q, i) = Some j -> j = inst) ->
  (forall v, x_InstanceSpace r' !! v = if decide (v = (q, i)) then Some inst' else x_InstanceSpace r !! v) ->
  grow (x_heap r) (x_heap r') -> inst_ok (x_heap r') inst' -> ei_bal inst <= ei_bal inst' ->
  (st_COMMITTED <= ei_Status inst -> ei_Status inst' = ei_Status inst /\ ei_Cmds inst' = ei_Cmds inst /\
    ei_Seq inst' = ei_Seq inst /\ ei_Deps inst' = ei_Deps inst) ->
  known r' /\ acceptor_step r r'.
Proof.
  intros K U L G I Hb Hc. split.
  - intros v j. rewrite L. destruct (decide _); [by intros [= <-]|]. intros E. eapply inst_ok_more; [by apply grow_dom|by eapply K].
  - intros v j E. rewrite L. destruct (decide (v = (q, i))) as [->|].
    + apply U in E as E'. subst j. exists inst'. split_and!; [done|done|]. intros S. unfold value_kept. destruct (Hc S) as (-> & -> & -> & ->).
      split_and!; try done. apply grow_slice; [done|]. apply (io_deps _ _ (K _ _ E)).
    + exists j. split_and!; [done|done|]. intros _. split_and!; try done. apply grow_slice; [done|]. apply (io_deps _ _ (K _ _ E)).
Qed.

(** an instance that was opened *)
Lemma open_inst_at r q i r' inst :
  open_inst r q i = Ok (r', inst) ->
  (forall j, x_InstanceSpace r !! (q, i) = Some j -> j = inst) /\ x_heap r' = x_heap r /\
  (forall v, x_InstanceSpace r' !! v = if decide (v = (q, i)) then Some inst else x_InstanceSpace r !! v).
Proof.
  intros [(E & ->)|(E & -> & ->)]%open_inst_Ok.
  - split_and!; [congruence|done|]. intros v. destruct (decide _) as [->|]; done.
  - split_and!; [congruence|unfold set_inst; by rsimpl|]. intros v. apply set_inst_lookup.
Qed.
Lemma set_again r r1 q i inst inst' r' :
  (forall v, x_InstanceSpace r1 !! v = if decide (v = (q, i)) then Some inst else x_InstanceSpace r !! v) ->
  x_InstanceSpace r' = x_InstanceSpace (set_inst r1 q i inst') ->
  forall v, x_InstanceSpace r' !! v = if decide (v = (q, i)) then Some inst' else x_InstanceSpace r !! v.
Proof. intros L E v. rewrite E, set_inst_lookup, L. by destruct (decide _). Qed.
Lemma set_inst_heap r q i inst : x_heap (set_inst r q i inst) = x_heap r.
Proof. unfold set_inst. by rsimpl. Qed.

(** an instance with another ballot *)
Lemma inst_ok_bal h inst b v : inst_ok h inst -> inst_ok h (inst <| ei_bal := b |> <| ei_vbal := v |>).
Proof. intros [C P L]. by split. Qed.
Lemma inst_ok_bal1 h inst b : inst_ok h inst -> inst_ok h (inst <| ei_bal := b |>).
Proof. intros [C P L]. by split. Qed.

Lemma handlePrepare_accepts r m r' fx : known r -> handlePrepare r m = Ok (r', fx) -> known r' /\ acceptor_step r r'.
Proof.
  intros K H. unfold handlePrepare in H. apply obind_Ok in H as (o & _ & H).
  destruct (see_ballot_known r (ep_Ballot m)) as [Ei Eh]. pose proof (known_same _ _ (conj Ei Eh) K) as K1.
  set (r1 := see_ballot r (ep_Ballot m)) in *. clearbody r1.
  apply obind_Ok in H as ((r2 & inst) & H2 & H). destruct (inst_ok_open _ _ _ _ _ K1 H2) as (_ & I & _).
  apply open_inst_at in H2 as (U & Eh2 & L). apply obind_Ok in H as (f & _ & H). injection H as <- <-. rewrite Ei in *.
  eapply (acceptor_intro r _ (ep_Replica m) (ep_Instance m) inst); [done|done|by eapply set_again| | | |].
  - rewrite set_inst_heap, Eh2, Eh. apply grow_refl.
  - rewrite set_inst_heap. destruct (_ <? _); [by apply inst_ok_bal1|done].
  - destruct (Z.ltb_spec (ei_bal inst) (ep_Ballot m)); rsimpl; lia.
  - intros _. by destruct (_ <? _).
Qed.

Lemma handleAccept_accepts r m r' fx : known r -> handleAccept r m = Ok (r', fx) -> known r' /\ acceptor_step r r'.
Proof.
  intros K H. unfold handleAccept in H. apply obind_Ok in H as (o & _ & H).
  destruct (new_slice r (ea_Deps m)) as [r1 deps] eqn:E1. destruct (new_slice_grow _ _ _ _ E1) as (G & N & Ei1 & Pd).
  destruct (new_slice_known _ _ _ _ E1 K) as (K1 & _). destruct (see_ballot_known r1 (ea_Ballot m)) as [Ei2 Eh2].
  pose proof (known_same _ _ (conj Ei2 Eh2) K1) as K2. set (r2 := see_ballot r1 (ea_Ballot m)) in *. clearbody r2.
  apply obind_Ok in H as (r3 & H3 & H). apply hear_instance_known in H3 as [Ei3 Eh3].
  pose proof (known_same _ _ (conj Ei3 Eh3) K2) as K3.
  apply obind_Ok in H as ((r4 & inst) & H4 & H). destruct (inst_ok_open _ _ _ _ _ K3 H4) as (_ & I & _).
  apply open_inst_at in H4 as (U & Eh4 & L). apply obind_Ok in H as (((r5 & inst5) & fx5) & H5 & H).
  apply obind_Ok in H as (f & _ & H). injection H as <- _. rewrite Ei3, Ei2, Ei1 in *. rewrite Eh4, Eh3, Eh2 in *.
  destruct (_ || _) eqn:Ec.
  - injection H5 as <- <- <-. eapply (acceptor_intro r _ (ea_Replica m) (ea_Instance m) inst inst); try done; by rewrite Eh4.
  - apply obind_Ok in H5 as (f5 & _ & H5). injection H5 as <- <- <-. apply orb_false_iff in Ec as [Eb Es].
    eapply (acceptor_intro r _ (ea_Replica m) (ea_Instance m) inst); [done|done|by eapply set_again| | | |].
    + by rewrite set_inst_heap, Eh4.
    + rewrite set_inst_heap, Eh4. destruct I as [C P B]. split; [done|done|done].
    + rsimpl. lia.
    + lia.
Qed.

(** an instance that takes the commands of a message *)
Lemma inst_ok_cmds h inst cmds seq deps st b v :
  inst_ok h inst -> ptr_ok h deps ->
  inst_ok h (inst <| ei_bal := b |> <| ei_vbal := v |> <| ei_Cmds := Some cmds |> <| ei_Seq := seq |> <| ei_Deps := deps |> <| ei_Status := st |>).
Proof. intros [C P L] D. split; rsimpl; [done|done|]. intros lb E. destruct (L lb E). by split. Qed.

Lemma requeue_keeps r inst cmds r' inst' :
  requeue r inst cmds = Ok (r', inst') ->
  x_InstanceSpace r' = x_InstanceSpace r /\ x_heap r' = x_heap r /\ ei_bal inst' = ei_bal inst /\
  forall h, inst_ok h inst -> inst_ok h inst'.
Proof.
  unfold requeue. intros H. destruct (_ && _); [|by injection H as <- <-].
  apply obind_Ok in H as (lb & Hl & H). apply deref_Ok in Hl. destruct (el_clientProposals lb); [|by injection H as <- <-].
  destruct (_ <? _); [done|]. injection H as <- <-. rsimpl. split_and!; [done..|]. intros h [C P L]. split; rsimpl; [done|done|].
  intros lb' [= <-]. destruct (L lb Hl). by split.
Qed.

Lemma handleCommit_accepts r m r' fx : known r -> handleCommit r m = Ok (r', fx) -> known r' /\ acceptor_step r r'.
Proof.
  intros K H. unfold handleCommit in H. apply obind_Ok in H as (o & _ & H).
  destruct (new_slice r (ec_Deps m)) as [r1 deps] eqn:E1. destruct (new_slice_grow _ _ _ _ E1) as (G & N & Ei1 & Pd).
  destruct (new_slice_known _ _ _ _ E1 K) as (K1 & _).
  apply obind_Ok in H as (r2 & H2 & H). apply hear_instance_known in H2 as [Ei2 Eh2].
  pose proof (known_same _ _ (conj Ei2 Eh2) K1) as K2. destruct (see_ballot_known r2 (ec_Ballot m)) as [Ei3 Eh3].
  pose proof (known_same _ _ (conj Ei3 Eh3) K2) as K3. set (r3 := see_ballot r2 (ec_Ballot m)) in *. clearbody r3.
  apply obind_Ok in H as ((r4 & inst) & H4 & H). destruct (inst_ok_open _ _ _ _ _ K3 H4) as (_ & I & _).
  apply open_inst_at in H4 as (U & Eh4 & L). rewrite Ei3, Ei2, Ei1 in *. rewrite Eh3, Eh2 in *. rewrite Eh4 in I.
  destruct (_ || _) eqn:Ec.
  { injection H as <- _. eapply (acceptor_intro r _ (ec_Replica m) (ec_Instance m) inst inst); try done; by rewrite Eh4. }
  apply orb_false_iff in Ec as [Es Eb]. apply obind_Ok in H as ((r5 & inst5) & H5 & H).
  assert (x_InstanceSpace r5 = x_InstanceSpace r4 /\ x_heap r5 = x_heap r4 /\ ei_bal inst5 = ei_bal inst /\
          forall h, inst_ok h inst -> inst_ok h inst5) as (Ei5 & Eh5 & Eb5 & I5).
  { destruct (_ =? _); [by eapply requeue_keeps|by injection H5 as <- <-]. }
  apply obind_Ok in H as (r6 & H6 & H). apply obind_Ok in H as (r7 & H7 & H). apply obind_Ok in H as (f & _ & H). injection H as <- _.
  apply updateConflicts_known in H6 as [Ei6 Eh6]. apply updateCommitted_known in H7 as [Ei7 Eh7]. rewrite set_inst_heap in *.
  eapply (acceptor_intro r _ (ec_Replica m) (ec_Instance m) inst); [done|done| | | | |].
  - eapply set_again; [|by rewrite Ei7, Ei6]. intros v. by rewrite Ei5.
  - by rewrite Eh7, Eh6, Eh5, Eh4.
  - rewrite Eh7, Eh6, Eh5, Eh4. apply inst_ok_cmds; [by apply I5|done].
  - rsimpl. lia.
  - lia.
Qed.

Lemma handlePreAccept_accepts r m r' fx : known r -> handlePreAccept r m = Ok (r', fx) -> known r' /\ acceptor_step r r'.
Proof.
  intros K H. unfold handlePreAccept in H. apply obind_Ok in H as (o & _ & H).
  destruct (new_slice r (epa_Deps m)) as [r1 deps] eqn:E1. destruct (new_slice_grow _ _ _ _ E1) as (G & N & Ei1 & Pd).
  destruct (new_slice_known _ _ _ _ E1 K) as (K1 & _).
  set (ra := if x_maxSeq r1 <=? epa_Seq m then r1 <| x_maxSeq := i32 (epa_Seq m + 1) |> else r1) in *.
  assert (x_InstanceSpace ra = x_InstanceSpace r1 /\ x_heap ra = x_heap r1) as [Eia Eha].
  { unfold ra. destruct (_ <=? _); by rsimpl. }
  pose proof (known_same _ _ (conj Eia Eha) K1) as Ka. clearbody ra.
  destruct (see_ballot_known ra (epa_Ballot m)) as [Ei2 Eh2].
  pose proof (known_same _ _ (conj Ei2 Eh2) Ka) as K2. set (r2 := see_ballot ra (epa_Ballot m)) in *. clearbody r2.
  apply obind_Ok in H as (r3 & H3 & H). apply hear_instance_known in H3 as [Ei3 Eh3].
  pose proof (known_same _ _ (conj Ei3 Eh3) K2) as K3.
  apply obind_Ok in H as ((r4 & inst) & H4 & H). destruct (inst_ok_open _ _ _ _ _ K3 H4) as (_ & I & _).
  apply open_inst_at in H4 as (U & Eh4 & L). rewrite Ei3, Ei2, Eia, Ei1 in *. rewrite Eh3, Eh2, Eha in *. rewrite Eh4 in I.
  destruct (Z.ltb_spec (epa_Ballot m) (ei_bal inst)) as [Hb|Hb].
  { injection H as <- _. eapply (acceptor_intro r _ (epa_Replica m) (epa_Instance m) inst inst); try done; by rewrite Eh4. }
  apply obind_Ok in H as ((r5 & fx5) & H5 & H). apply obind_Ok in H as (o2 & _ & H). apply obind_Ok in H as (i2 & _ & H).
  apply obind_Ok in H as (f & _ & H). injection H as <- _. rsimpl in H5.
  destruct (Z.leb_spec st_ACCEPTED (ei_Status inst)) as [Hs|Hs].
  - assert (ei_Cmds inst <> None) as C by (apply (io_cmds _ _ I); unfold st_ACCEPTED, st_NONE in *; lia).
    destruct (ei_Cmds inst) as [cmds|]; [|done]. injection H5 as <- _.
    eapply (acceptor_intro r _ (epa_Replica m) (epa_Instance m) inst); [done|done|by eapply set_again| | | |].
    + by rewrite set_inst_heap, Eh4.
    + rewrite set_inst_heap, Eh4. by apply inst_ok_bal1.
    + rsimpl. lia.
    + done.
  - apply obind_Ok in H5 as (((r6 & seq) & ch) & H6 & H5). apply obind_Ok in H5 as (r7 & H7 & H5).
    apply obind_Ok in H5 as (f7 & _ & H5). injection H5 as <- _. apply updateAttributes_frame in H6.
    apply updateConflicts_known in H7 as [Ei7 Eh7]. rewrite set_inst_heap in *.
    destruct (heap_frame_dom _ _ _ H6) as [D6 Ei6]. rewrite set_inst_heap in *.
    assert (grow (x_heap r) (x_heap r6)) as G6.
    { eapply heap_frame_grow; [|exact N|exact H6]. rewrite set_inst_heap. by rewrite Eh4. }
    eapply (acceptor_intro r _ (epa_Replica m) (epa_Instance m) inst); [done|done| | | | |].
    + eapply set_again; [|by rewrite Ei7]. intros v. rewrite Ei6, set_inst_lookup, L. by destruct (decide _).
    + by rewrite Eh7.
    + rewrite Eh7. destruct I as [C P B]. split; rsimpl; [done| |].
      * destruct deps; [|done]. cbn in *. rewrite D6. by rewrite Eh4.
      * intros lb E. destruct (inst_ok_more (x_heap r1) (x_heap r6) inst) as [_ _ B']; [by rewrite D6, Eh4|by split|].
        destruct (B' lb E). by split.
    + rsimpl. lia.
    + unfold st_COMMITTED, st_ACCEPTED in *. lia.
Qed.

Lemma handleTryPreAccept_accepts r m r' fx : known r -> handleTryPreAccept r m = Ok (r', fx) -> known r' /\ acceptor_step r r'.
Proof.
  intros K H. unfold handleTryPreAccept in H.
  destruct (new_slice r (etp_Deps m)) as [r1 deps] eqn:E1. destruct (new_slice_grow _ _ _ _ E1) as (G & N & Ei1 & Pd).
  destruct (new_slice_known _ _ _ _ E1 K) as (K1 & _).
  apply obind_Ok in H as ((r4 & inst) & H4 & H). destruct (inst_ok_open _ _ _ _ _ K1 H4) as (_ & I & _).
  apply open_inst_at in H4 as (U & Eh4 & L). rewrite Ei1 in *. rewrite Eh4 in I.
  destruct (Z.ltb_spec (etp_Ballot m) (ei_bal inst)) as [Hb|Hb].
  { injection H as <- _. eapply (acceptor_intro r _ (etp_Replica m) (etp_Instance m) inst inst); try done; by rewrite Eh4. }
  apply obind_Ok in H as (((r5 & inst5) & conf) & H5 & H). apply obind_Ok in H as (f & _ & H). injection H as <- _. rsimpl in H5.
  assert (forall conf0, Ok (set_inst r4 (etp_Replica m) (etp_Instance m) (inst <| ei_bal := etp_Ballot m |>), inst <| ei_bal := etp_Ballot m |>, conf0) =
            Ok (r5, inst5, conf) -> known r5 /\ acceptor_step r r5) as Same.
  { intros conf0 [= <- _ _]. eapply (acceptor_intro r _ (etp_Replica m) (etp_Instance m) inst); [done|done|by eapply set_again| | | |].
    - by rewrite set_inst_heap, Eh4.
    - rewrite set_inst_heap, Eh4. by apply inst_ok_bal1.
    - rsimpl. lia.
    - done. }
  destruct (Z.eqb_spec (ei_Status inst) st_NONE) as [Hs|Hs]; [|by eapply Same].
  apply obind_Ok in H5 as (f5 & _ & H5). destruct f5 as [conf5|]; [by eapply Same|].
  apply obind_Ok in H5 as (r6 & H6 & H5). apply hear_instance_known in H6 as [Ei6 Eh6]. rewrite set_inst_heap in *. injection H5 as <- _ _.
  eapply (acceptor_intro r _ (etp_Replica m) (etp_Instance m) inst); [done|done| | | | |].
  - eapply set_again; [|done]. intros v. rewrite Ei6. rewrite set_inst_lookup, L. destruct (decide _) as [->|]; done.
  - by rewrite set_inst_heap, Eh6, Eh4.
  - rewrite set_inst_heap, Eh6, Eh4. destruct I as [C P B]. split; rsimpl; [done|done|]. intros lb E. destruct (B lb E). by split.
  - rsimpl. lia.
  - unfold st_COMMITTED, st_NONE in *. lia.
Qed.

(** * The leader *)

Lemma lb_ok_new r ps a b c n cmds st seq h :
  (st <> st_NONE -> cmds <> None) -> ptr_ok h c -> forall ic, (st <> st_NONE -> ic <> None) ->
  lb_ok h ic (newLeaderBookkeeping r ps a b c n cmds st seq).
Proof. intros Hc Hp ic Hi. unfold newLeaderBookkeeping. split; cbn; try done. Qed.

Lemma startPhase1_known r cmds q i b ps r' fx : known r -> startPhase1 r cmds q i b ps = Ok (r', fx) -> known r'.
Proof.
  intros K H. unfold startPhase1 in H.
  destruct (new_slice r (nil_deps r)) as [r1 deps] eqn:E1. destruct (new_slice_known _ _ _ _ E1 K) as (K1 & Pd & _).
  apply obind_Ok in H as (((r2 & seq) & ch) & H2 & H). apply updateAttributes_frame in H2.
  pose proof (known_heap_frame _ _ _ H2 K1) as K2. destruct (heap_frame_dom _ _ _ H2) as [D2 _].
  destruct (new_slice r2 (nil_deps r2)) as [r3 com] eqn:E3. destruct (new_slice_known _ _ _ _ E3 K2) as (K3 & _ & _ & D3).
  apply obind_Ok in H as (o & _ & H). apply obind_Ok in H as (r4 & H4 & H).
  apply obind_Ok in H as (o4 & _ & H). apply obind_Ok in H as (f & _ & H). injection H as <- _.
  apply updateConflicts_known in H4. apply (known_same r4); [destruct (_ <=? _); by rsimpl|].
  eapply known_same; [exact H4|]. apply known_set; [done|].
  assert (ptr_ok (x_heap r3) deps) as Pd3 by (eapply ptr_ok_more; [|exact Pd]; rewrite <- D2; exact D3).
  split; rsimpl; [done|done|]. intros lb [= <-]. by apply lb_ok_new.
Qed.

Lemma handlePropose_known r p r' fx : known r -> handlePropose r p = Ok (r', fx) -> known r'.
Proof.
  intros K H. unfold handlePropose in H. apply obind_Ok in H as (c & _ & H). apply obind_Ok in H as (l & _ & H).
  eapply startPhase1_known; [|exact H]. eapply known_same; [|exact K]. by rsimpl.
Qed.

(** an instance with other bookkeeping *)
Lemma inst_ok_lb h inst lb : inst_ok h inst -> lb_ok h (ei_Cmds inst) lb -> inst_ok h (inst <| ei_lb := Some lb |>).
Proof. intros [C P L] B. split; rsimpl; [done|done|]. by intros lb' [= <-]. Qed.
Lemma inst_ok_adopt h inst lb st :
  lb_ok h (ei_Cmds inst) lb -> el_cmds lb <> None -> inst_ok h (adopt inst (lb <| el_status := st |>)).
Proof.
  intros [A B T D K] C. split; unfold adopt; rsimpl; [done|done|]. intros lb' [= <-]. by split.
Qed.
Lemma nack_known r q i inst lb r' fx :
  known r -> inst_ok (x_heap r) inst -> ei_lb inst = Some lb -> nack r q i inst lb = Ok (r', fx) -> known r'.
Proof.
  intros K I L H. unfold nack in H. destruct (io_lb _ _ I lb L) as [A B T D Q].
  set (r1 := set_inst r q i _) in H. assert (known r1) as K1 by (apply known_set; [done|apply inst_ok_lb; [done|by split]]).
  destruct (_ && _); [|by injection H as <- _]. apply obind_Ok in H as (r2 & H2 & H). injection H as <- _. by eapply makeBallot_known.
Qed.

Lemma handlePreAcceptReply_known r m r' fx : known r -> handlePreAcceptReply r m = Ok (r', fx) -> known r'.
Proof.
  intros K H. unfold handlePreAcceptReply in H. apply obind_Ok in H as (o & Ho & H). apply inst_at_eq in Ho.
  apply obind_Ok in H as (inst & Hi & H). apply deref_Ok in Hi as ->.
  destruct (new_slice r (epar_Deps m)) as [r1 their] eqn:E1. destruct (new_slice_known _ _ _ _ E1 K) as (K1 & Pt & Ei1 & D1).
  destruct (see_ballot_known r1 (epar_Ballot m)) as [Ei2 Eh2]. pose proof (known_same _ _ (conj Ei2 Eh2) K1) as K2.
  set (r2 := see_ballot r1 (epar_Ballot m)) in *. clearbody r2. rewrite <- Ei1, <- Ei2 in Ho. pose proof (K2 _ _ Ho) as I.
  apply obind_Ok in H as (lb & Hl & H). apply deref_Ok in Hl. pose proof (io_lb _ _ I lb Hl) as B.
  destruct (_ <? _); [by injection H as <- _|]. destruct (_ <? _); [by eapply nack_known|].
  destruct (negb (el_status lb =? st_PREACCEPTED) && _) eqn:Es; [by injection H as <- _|].
  assert (el_status lb <> st_NONE) as Hn by (unfold st_PREACCEPTED, st_PREACCEPTED_EQ, st_NONE in *; lia). clear Es.
  destruct B as [A1 A2 A3 A4 A5]. specialize (A1 Hn). specialize (A2 Hn).
  match type of H with context [mergeAttributes r2 (el_seq ?l) _ _ _] => set (lb1 := l) in * end.
  rewrite <- Eh2 in Pt.
  assert (lb_ok (x_heap r2) (ei_Cmds inst) lb1 /\ el_cmds lb1 <> None) as [B1 C1].
  { unfold lb1. destruct (_ <? _); rsimpl; (split; [|done]); by split. }
  clearbody lb1. apply obind_Ok in H as (((r3 & seq) & allEq) & H3 & H). apply mergeAttributes_frame in H3.
  pose proof (known_heap_frame _ _ _ H3 K2) as K3. destruct (heap_frame_dom _ _ _ H3) as [D3 Ei3].
  set (lb2 := if (x_N r3 <=? 3) && x_Thrifty r3 then lb1 else _) in H.
  assert (lb_ok (x_heap r2) (ei_Cmds inst) lb2 /\ el_cmds lb2 <> None) as [B2 C2].
  { unfold lb2. destruct (_ && _); [done|]. rsimpl. split; [|done]. destruct B1. by split. }
  clearbody lb2. apply obind_Ok in H as ((r4 & allC) & H4 & H).
  assert (exists p, heap_frame p r3 r4) as (p & F4).
  { destruct (7 <? _); [eexists; by eapply all_committed_frame|]. injection H4 as <- _. exists None. apply heap_frame_refl. }
  pose proof (known_heap_frame _ _ _ F4 K3) as K4. destruct (heap_frame_dom _ _ _ F4) as [D4 Ei4].
  set (lb3 := if el_status lb2 <=? st_PREACCEPTED_EQ then _ else lb2) in H.
  assert (lb_ok (x_heap r2) (ei_Cmds inst) lb3 /\ el_cmds lb3 <> None) as [B3 C3].
  { unfold lb3. destruct (_ <=? _); [|done]. rsimpl. split; [|done]. destruct B2. by split. }
  clearbody lb3.
  assert (forall x, inst_ok (x_heap r2) x -> inst_ok (x_heap r4) x) as Up.
  { intros x. apply inst_ok_more. by rewrite D4, D3. }
  destruct (_ && (el_allEqual lb3 && allC && _)).
  - apply obind_Ok in H as (f & _ & H). apply obind_Ok in H as (r5 & H5 & H). injection H as <- _.
    apply updateCommitted_known in H5. eapply known_same; [exact H5|]. apply known_set; [done|]. by apply Up, inst_ok_adopt.
  - destruct (_ <=? _).
    + apply obind_Ok in H as (f & _ & H). injection H as <- _. apply known_set; [done|]. by apply Up, inst_ok_adopt.
    + injection H as <- _. apply known_set; [done|]. by apply Up, inst_ok_lb.
Qed.

Lemma handleAcceptReply_known r m r' fx : known r -> handleAcceptReply r m = Ok (r', fx) -> known r'.
Proof.
  intros K H. unfold handleAcceptReply in H. apply obind_Ok in H as (o & Ho & H). apply inst_at_eq in Ho.
  apply obind_Ok in H as (inst & Hi & H). apply deref_Ok in Hi as ->.
  destruct (see_ballot_known r (ear_Ballot m)) as [Ei2 Eh2]. pose proof (known_same _ _ (conj Ei2 Eh2) K) as K2.
  set (r2 := see_ballot r (ear_Ballot m)) in *. clearbody r2. rewrite <- Ei2 in Ho. pose proof (K2 _ _ Ho) as I.
  apply obind_Ok in H as (lb & Hl & H). apply deref_Ok in Hl. destruct (io_lb _ _ I lb Hl) as [A1 A2 A3 A4 A5].
  destruct (negb (el_status lb =? st_ACCEPTED) || _) eqn:Es; [by injection H as <- _|].
  assert (el_status lb <> st_NONE) as Hn by (unfold st_ACCEPTED, st_NONE in *; lia). clear Es.
  destruct (_ <? _); [by eapply nack_known|]. destruct (_ <? _).
  - apply obind_Ok in H as (r3 & H3 & H). apply obind_Ok in H as (f & _ & H). injection H as <- _.
    apply updateCommitted_known in H3. eapply known_same; [exact H3|]. apply known_set; [done|].
    destruct I as [C P B]. split; rsimpl; [auto|done|]. intros lb' [= <-]. split; auto.
  - injection H as <- _. apply known_set; [done|]. apply inst_ok_lb; [done|]. by split.
Qed.

Lemma startRecovery_known r q i r' fx : known r -> startRecoveryForInstance r q i = Ok (r', fx) -> known r'.
Proof.
  intros K H. unfold startRecoveryForInstance in H. apply obind_Ok in H as (o & _ & H).
  destruct (match o with Some _ => _ | None => _ end); [by injection H as <- _|].
  apply obind_Ok in H as ((r1 & inst) & H1 & H). destruct (inst_ok_open _ _ _ _ _ K H1) as (K1 & I & _).
  unfold newLeaderBookkeepingDefault, newNilDeps in H.
  destruct (new_slice r1 (nil_deps r1)) as [r2 p2] eqn:E2. destruct (new_slice_known _ _ _ _ E2 K1) as (K2 & _ & _ & D2).
  destruct (new_slice r2 (nil_deps r2)) as [r3 p3] eqn:E3. destruct (new_slice_known _ _ _ _ E3 K2) as (K3 & _ & _ & D3).
  destruct (new_slice r3 (nil_deps r3)) as [r4 p4] eqn:E4. destruct (new_slice_known _ _ _ _ E4 K3) as (K4 & _ & _ & D4).
  assert (inst_ok (x_heap r4) inst) as I4 by (eapply inst_ok_more; [|exact I]; set_solver). clear I.
  apply obind_Ok in H as (r5 & H5 & H). apply makeBallot_known in H5 as K5.
  2: { apply known_set; [done|]. apply inst_ok_lb; [done|]. destruct I4 as [C P _]. split; rsimpl; try done. }
  apply obind_Ok in H as (o5 & Ho & H). apply inst_at_eq in Ho.
  apply obind_Ok in H as (j & Hj & H). apply deref_Ok in Hj as ->. apply obind_Ok in H as (lb & Hl & H). apply deref_Ok in Hl.
  injection H as <- _. apply known_set; [done|]. pose proof (K5 _ _ Ho) as J. destruct (io_lb _ _ J lb Hl) as [A1 A2 A3 A4 A5].
  destruct J as [C P _]. split; rsimpl; [done|done|]. intros lb' [= <-]. split; rsimpl; try done.
  apply Forall_app. split; [done|]. apply Forall_singleton. by split.
Qed.

(** the value that is taken from the replies *)
Record choice_ok h lb : Prop := mkChoiceOk {
  ch_cmds : el_status lb <> st_NONE -> el_cmds lb <> None;
  ch_deps : ptr_ok h (el_deps lb);
  ch_try : el_tryingToPreAccept lb = false;
  ch_prep : el_preparing lb = false;
  ch_kept : Forall (kept_ok h) (el_prepareReplies lb) }.
Lemma take_reply_ok h es lb :
  Forall (kept_ok h) es -> choice_ok h lb -> choice_ok h (foldl take_reply lb es).
Proof.
  revert lb. induction es as [|e es IH]; intros lb F C; cbn [foldl]; [done|]. apply Forall_cons in F as [[E1 E2] F].
  apply IH; [done|]. destruct C as [A B T P Q]. unfold take_reply.
  destruct (el_ballot lb <=? kr_VBallot e), (kr_AcceptorId e =? kr_Replica e); split; rsimpl; try done.
Qed.
Lemma sub_case_ok r lb n r' c :
  sub_case r lb n = Ok (r', c) ->
  heap_frame (el_deps lb) r r' /\ (c = CaseAccepted \/ c = CaseEqual \/ c = CaseTry -> el_status lb <> st_NONE).
Proof.
  unfold sub_case, st_COMMITTED, st_ACCEPTED, st_PREACCEPTED, st_PREACCEPTED_EQ, st_NONE. intros H.
  destruct (Z.leb_spec 4 (el_status lb)). { injection H as <- <-. split; [apply heap_frame_refl|lia]. }
  destruct (Z.eqb_spec (el_status lb) 3). { injection H as <- <-. split; [apply heap_frame_refl|lia]. }
  destruct (_ || _) eqn:E.
  - apply obind_Ok in H as ((r1 & b) & H1 & H). apply replies_equal_frame in H1. assert (el_status lb <> 0) by lia.
    destruct (_ && b); [by injection H as <- <-|].
    destruct (_ && _); [by injection H as <- <-|done].
  - destruct (_ =? 0); [|done]. injection H as <- <-. split; [apply heap_frame_refl|]. intros [|[|]]; done.
Qed.

Lemma handlePrepareReply_known r m r' fx : known r -> handlePrepareReply r m = Ok (r', fx) -> known r'.
Proof.
  intros K H. unfold handlePrepareReply in H. apply obind_Ok in H as (o & Ho & H). apply inst_at_eq in Ho.
  apply obind_Ok in H as (inst & Hi & H). apply deref_Ok in Hi as ->.
  destruct (new_slice r (epr_Deps m)) as [r1 deps] eqn:E1. destruct (new_slice_known _ _ _ _ E1 K) as (K1 & Pt & Ei1 & D1).
  destruct (see_ballot_known r1 (epr_Ballot m)) as [Ei2 Eh2]. pose proof (known_same _ _ (conj Ei2 Eh2) K1) as K2.
  set (r2 := see_ballot r1 (epr_Ballot m)) in *. clearbody r2. rewrite <- Ei1, <- Ei2 in Ho. pose proof (K2 _ _ Ho) as I.
  destruct (ei_lb inst) as [lb|] eqn:Hl; [|by injection H as <- _]. destruct (io_lb _ _ I lb Hl) as [A1 A2 A3 A4 A5].
  destruct (el_preparing lb) eqn:Ep; cbn [negb] in H; [|by injection H as <- _].
  assert (el_tryingToPreAccept lb = false) as Et.
  { destruct (el_tryingToPreAccept lb) eqn:Et; [|done]. by destruct (A3 eq_refl). }
  destruct (negb _).
  { injection H as <- _. apply known_set; [done|]. apply inst_ok_lb; [done|]. split; try done. rsimpl. congruence. }
  rewrite <- Eh2 in Pt. rsimpl in H. set (kept := mkKeptReply _ _ _ _ _ _ _ _ _) in H.
  assert (Forall (kept_ok (x_heap r2)) (el_prepareReplies lb ++ [kept])) as Fk.
  { apply Forall_app. split; [done|]. apply Forall_singleton. by split. }
  destruct (_ <? _).
  { injection H as <- _. apply known_set; [done|]. apply inst_ok_lb; [done|]. split; try done. rsimpl. congruence. }
  match type of H with context [foldl take_reply ?l0 ?es] =>
    assert (choice_ok (x_heap r2) (foldl take_reply l0 es)) as C by (apply take_reply_ok; [exact Fk|by split; rsimpl]);
    set (lb1 := foldl take_reply l0 es) in * end.
  clearbody lb1. apply obind_Ok in H as ((r3 & c) & H3 & H). apply sub_case_ok in H3 as [F3 Hc].
  pose proof (known_heap_frame _ _ _ F3 K2) as K3. destruct (heap_frame_dom _ _ _ F3) as [D3 _].
  destruct C as [C1 C2 C3 C4 C5].
  assert (forall x, inst_ok (x_heap r2) x -> inst_ok (x_heap r3) x) as Up by (intros x; apply inst_ok_more; by rewrite D3).
  destruct c.
  - injection H as <- _. apply known_set; [done|]. apply Up. split; rsimpl; [done|done|]. intros lb' [= <-]. split; try done. congruence.
  - injection H as <- _. apply known_set; [done|]. apply Up. assert (el_cmds lb1 <> None) as N by auto.
    split; rsimpl; [done|done|]. intros lb' [= <-]. split; rsimpl; try done.
  - injection H as <- _. apply known_set; [done|]. apply Up. assert (el_cmds lb1 <> None) as N by auto.
    split; rsimpl; [done|done|]. intros lb' [= <-]. split; rsimpl; try done.
  - injection H as <- _. apply known_set; [done|]. apply Up. assert (el_cmds lb1 <> None) as N by auto.
    split; rsimpl; [done|done|]. intros lb' [= <-]. split; rsimpl; try done.
  - eapply startPhase1_known; [|exact H]. apply known_set; [done|]. apply Up. split; rsimpl; [done|done|].
    intros lb' [= <-]. split; try done. congruence.
  - eapply startPhase1_known; [|exact H]. apply known_set; [done|]. apply Up. split; rsimpl; [done|done|].
    intros lb' [= <-]. split; try done. congruence.
Qed.

Lemma handleTryPreAcceptReply_known r m r' fx : known r -> handleTryPreAcceptReply r m = Ok (r', fx) -> known r'.
Proof.
  intros K H. unfold handleTryPreAcceptReply in H. apply obind_Ok in H as (o & _ & H).
  destruct (see_ballot_known r (etr_Ballot m)) as [Ei2 Eh2]. pose proof (known_same _ _ (conj Ei2 Eh2) K) as K2.
  set (r2 := see_ballot r (etr_Ballot m)) in *. clearbody r2.
  apply obind_Ok in H as ((r3 & inst) & H3 & H). destruct (inst_ok_open _ _ _ _ _ K2 H3) as (K3 & I & _).
  destruct (ei_lb inst) as [lb|] eqn:Hl; [|by injection H as <- _]. destruct (io_lb _ _ I lb Hl) as [A1 A2 A3 A4 A5].
  destruct (el_tryingToPreAccept lb) eqn:Et; cbn [negb orb] in H; [|by injection H as <- _].
  destruct (negb _); [by injection H as <- _|]. destruct (A3 eq_refl) as [N P]. cbv zeta in H.
  match type of H with context [Z.quot (x_N r3) 2 <=? el_preAcceptOKs ?l] => set (lb1 := l) in * end.
  assert (lb_ok (x_heap r3) (ei_Cmds inst) lb1 /\ el_cmds lb1 <> None /\ el_preparing lb1 = false) as (B1 & N1 & P1).
  { unfold lb1. destruct (_ =? _); (split; [by split|done]). }
  clearbody lb1. destruct (_ && _).
  { injection H as <- _. apply known_set; [done|]. destruct B1 as [B1 B2 B3 B4 B5].
    split; rsimpl; [done|done|]. intros lb' [= <-]. split; rsimpl; try done. }
  apply obind_Ok in H as (quo & _ & H).
  set (lb2 := lb1 <| el_possibleQuorum := quo |> <| el_tpaAccepted ::= _ |>) in *.
  assert (lb_ok (x_heap r3) (ei_Cmds inst) lb2) as B2 by (destruct B1; by split).
  assert (forall l, l = lb2 \/ l = lb2 <| el_tryingToPreAccept := false |> ->
            known (set_inst r3 (etr_Replica m) (etr_Instance m) (inst <| ei_lb := Some l |>))) as Put.
  { intros l Hl'. apply known_set; [done|]. apply inst_ok_lb; [done|]. destruct Hl' as [->| ->]; [done|]. destruct B2. by split. }
  clearbody lb2. destruct (_ && _).
  { eapply startPhase1_known; [|exact H]. apply Put. by right. }
  apply obind_Ok in H as (there & _ & H). apply obind_Ok in H as (con & _ & H). destruct con.
  - apply obind_Ok in H as (r4 & H4 & H). apply makeBallot_known in H4 as K4; [|apply Put; by right].
    apply obind_Ok in H as (o4 & _ & H). apply obind_Ok in H as (j & _ & H). apply obind_Ok in H as (lbj & _ & H).
    by eapply startPhase1_known.
  - destruct (_ <=? _); [|injection H as <- _; apply Put; by left]. injection H as <- _. unfold updateDeferred.
    eapply known_same; [by rsimpl|]. apply Put. by right.
Qed.

(** * Runs *)

(** the messages a replica answers as an acceptor *)
Definition acceptor_event (e : e_event) : bool :=
  match e with
  | EvMsg (EPrepare _) | EvMsg (EPreAccept _) | EvMsg (EAccept _) | EvMsg (ECommit _) | EvMsg (ETryPreAccept _) => true
  | _ => false
  end.

Lemma acceptor_now r now r' :
  known r' /\ acceptor_step (r <| x_now := now |>) r' -> known r' /\ acceptor_step r r'.
Proof. done. Qed.

Lemma handle_event_known r now e r' fx :
  known r -> handle_event r now e = Ok (r', fx) -> known r' /\ (acceptor_event e = true -> acceptor_step r r').
Proof.
  intros K H. unfold handle_event in H.
  assert (known (r <| x_now := now |>)) as K1 by (eapply known_same; [by rsimpl|done]).
  destruct e as [p|m| |]; [| |destruct (x_instancesToRecover _) as [|[q i] rest]; [done|]|].
  - split; [by eapply handlePropose_known|done].
  - destruct m; cbn [acceptor_event].
    all: lazymatch type of H with
    | handlePrepare _ _ = _ => apply handlePrepare_accepts in H; [|done]; by split; [apply H|intros _; apply H]
    | handlePreAccept _ _ = _ => apply handlePreAccept_accepts in H; [|done]; by split; [apply H|intros _; apply H]
    | handleAccept _ _ = _ => apply handleAccept_accepts in H; [|done]; by split; [apply H|intros _; apply H]
    | handleCommit _ _ = _ => apply handleCommit_accepts in H; [|done]; by split; [apply H|intros _; apply H]
    | handleTryPreAccept _ _ = _ => apply handleTryPreAccept_accepts in H; [|done]; by split; [apply H|intros _; apply H]
    | handlePrepareReply _ _ = _ => split; [by eapply handlePrepareReply_known|done]
    | handlePreAcceptReply _ _ = _ => split; [by eapply handlePreAcceptReply_known|done]
    | handleAcceptReply _ _ = _ => split; [by eapply handleAcceptReply_known|done]
    | handleTryPreAcceptReply _ _ = _ => split; [by eapply handleTryPreAcceptReply_known|done]
    end.
  - split; [|done]. eapply startRecovery_known; [|exact H]. eapply known_same; [by rsimpl|done].
  - injection H as <- _. split; [|done]. eapply known_same; [|exact K1]. unfold BeTheLeader. by rsimpl.
Qed.

(** a run of a replica: its turns, with the time of each *)
Fixpoint run_events r (es : list (Z * e_event)) : outcome (EReplica TM) :=
  match es with
  | [] => Ok r
  | (now, e) :: es => '(r, _) <~ handle_event r now e ;; run_events r es
  end.
Lemma run_events_known es r r' : known r -> run_events r es = Ok r' -> known r'.
Proof.
  revert r. induction es as [|[now e] es IH]; intros r K H; cbn [run_events] in H; [by injection H as <-|].
  apply obind_Ok in H as ((r1 & fx) & H1 & H). eapply IH; [|exact H]. by eapply handle_event_known.
Qed.
Lemma New_known id N F durable transconf : known (New_ (TM := TM) id N F durable transconf).
Proof. intros v inst H. cbn in H. by rewrite lookup_empty in H. Qed.
End inv.

(** * The EPaxos baseline: the dependencies a replica gives to a command cover the
    conflicting commands it knows, as long as nothing was recovered. *)

Section deps.
Context {TM : Treemap Value}.
Implicit Types (r : EReplica TM) (inst : EInstance) (lb : EBookkeeping).

(** * The tables of the last instances per key *)

(** the table of row [q] has instance [j] for each of these commands *)
Definition recorded_in (c : gmap Z InstPair) (j : Z) (d : Command) : Prop :=
  exists p, c !! cmd_K d = Some p /\ j <= ip_last p /\ (is_op d GET = false -> j <= ip_lastWrite p).
Definition recorded r (q j : Z) (cmds : list Command) : Prop :=
  forall d, d ∈ cmds -> exists c, index (x_conflicts r) q = Ok c /\ recorded_in c j d.

Lemma note_conflict_keeps c cmd i j d : recorded_in c j d -> recorded_in (note_conflict c cmd i) j d.
Proof.
  intros (p & E & H1 & H2). unfold recorded_in, note_conflict. destruct (decide (cmd_K cmd = cmd_K d)) as [Ek|Nk].
  - rewrite Ek, E, (lookup_insert_eq (M:=gmap Z)). eexists. split; [done|].
    destruct (Z.ltb_spec (ip_last p) i), (Z.ltb_spec (ip_lastWrite p) i), (is_op cmd GET); cbn; split; try lia; intros G; specialize (H2 G); lia.
  - assert (forall q, (<[cmd_K cmd := q]> c) !! cmd_K d = Some p) as X by (intros q; by rewrite (lookup_insert_ne (M:=gmap Z))).
    exists p. split; [|done]. by destruct (c !! cmd_K cmd).
Qed.
Lemma note_conflict_records c cmd i : recorded_in (note_conflict c cmd i) i cmd.
Proof.
  unfold recorded_in, note_conflict. destruct (c !! cmd_K cmd) as [p|]; rewrite (lookup_insert_eq (M:=gmap Z)); eexists; (split; [done|]).
  - destruct (Z.ltb_spec (ip_last p) i), (Z.ltb_spec (ip_lastWrite p) i), (is_op cmd GET); cbn; split; try lia; intros; try done; lia.
  - destruct (is_op cmd GET); cbn; split; try lia; intros; try done; lia.
Qed.

Lemma index_set {A} (l : list A) i x l' k : set_index l i x = Ok l' -> 0 <= k -> index l' k = if k =? i then Ok x else index l k.
Proof.
  intros [Hi ->]%set_index_Ok Hk. unfold index. rewrite (proj2 (Z.ltb_ge k 0)) by lia. destruct (Z.eqb_spec k i) as [->|N].
  - rewrite list_lookup_insert_eq by lia. done.
  - by rewrite list_lookup_insert_ne by lia.
Qed.
Lemma index_pos {A} (l : list A) i x : index l i = Ok x -> 0 <= i.
Proof. unfold index. destruct (Z.ltb_spec i 0); [done|lia]. Qed.

Lemma updateConflicts_keeps cmds r q i seq r' q' j cs :
  updateConflicts r cmds q i seq = Ok r' -> recorded r q' j cs -> recorded r' q' j cs.
Proof.
  revert r. induction cmds as [|cmd cmds IH]; intros r H R; cbn [updateConflicts] in H; [by injection H as <-|].
  apply obind_Ok in H as (c & Hc & H). apply obind_Ok in H as (l & Hl & H). eapply IH; [exact H|].
  intros d Hd. destruct (R d Hd) as (c' & Hc' & X). rsimpl. rewrite (index_set _ _ _ _ _ Hl) by (by eapply index_pos).
  destruct (Z.eqb_spec q' q) as [->|]; [|by exists c']. eexists. split; [done|]. rewrite Hc in Hc'. injection Hc' as <-.
  by apply note_conflict_keeps.
Qed.
Lemma updateConflicts_records cmds r q i seq r' : updateConflicts r cmds q i seq = Ok r' -> recorded r' q i cmds.
Proof.
  revert r. induction cmds as [|cmd cmds IH]; intros r H; [by intros d Hd%not_elem_of_nil|]. cbn [updateConflicts] in H.
  apply obind_Ok in H as (c & Hc & H). apply obind_Ok in H as (l & Hl & H). intros d [->|Hd]%elem_of_cons; [|by eapply IH].
  assert (recorded (r <| x_conflicts := l |> <| x_maxSeqPerKey ::= fun m => note_seq m cmd seq |>) q i [cmd]) as R.
  { intros d' ->%list_elem_of_singleton. rsimpl. rewrite (index_set _ _ _ _ _ Hl), Z.eqb_refl by (by eapply index_pos).
    eexists. split; [done|]. apply note_conflict_records. }
  eapply updateConflicts_keeps in R; [|exact H]. apply R. by apply list_elem_of_singleton.
Qed.

(** every command of every instance is in the table of its row *)
Definition inst_recorded r (v : Z * Z) inst : Prop :=
  recorded r v.1 v.2 (default [] (ei_Cmds inst)) /\
  forall lb, ei_lb inst = Some lb -> recorded r v.1 v.2 (default [] (el_cmds lb)).
Definition all_recorded r : Prop := forall v inst, x_InstanceSpace r !! v = Some inst -> inst_recorded r v inst.

Definition tables_kept r r' : Prop := forall q j cs, recorded r q j cs -> recorded r' q j cs.
Lemma inst_recorded_keep r r' v inst : tables_kept r r' -> inst_recorded r v inst -> inst_recorded r' v inst.
Proof. intros T [A B]. split; [by apply T|]. intros lb E. by apply T, B. Qed.
Lemma all_recorded_same r r' : x_InstanceSpace r' = x_InstanceSpace r -> tables_kept r r' -> all_recorded r -> all_recorded r'.
Proof. intros E T A v inst. rewrite E. intros H. by eapply inst_recorded_keep, A. Qed.
Lemma same_tables r r' : x_conflicts r' = x_conflicts r -> tables_kept r r'.
Proof. intros E q j cs. unfold recorded. by rewrite E. Qed.
Lemma all_recorded_set r q i inst : all_recorded r -> inst_recorded r (q, i) inst -> all_recorded (set_inst r q i inst).
Proof.
  intros A R v j E. rewrite set_inst_lookup in E. destruct (decide (v = (q, i))) as [->|]; [injection E as <-|apply A in E];
  (eapply inst_recorded_keep; [|eassumption]; apply same_tables; unfold set_inst; by rsimpl).
Qed.

(** * What the handlers keep when nothing is recovered *)

(** only fields other than the instances and the tables differ *)
Definition tables_frame r r' : Prop := x_InstanceSpace r' = x_InstanceSpace r /\ x_conflicts r' = x_conflicts r.
Lemma tables_frame_all r r' : tables_frame r r' -> all_recorded r -> all_recorded r'.
Proof. intros [E T]. apply all_recorded_same; [done|]. by apply same_tables. Qed.
Lemma tables_frame_trans r1 r2 r3 : tables_frame r1 r2 -> tables_frame r2 r3 -> tables_frame r1 r3.
Proof. intros [A B] [C D]. split; congruence. Qed.
Lemma heap_frame_tables p r r' : heap_frame p r r' -> tables_frame r r'.
Proof. intros (h & -> & _). split; by rsimpl. Qed.
Lemma new_slice_tables r l r' p : new_slice r l = (r', p) -> tables_frame r r'.
Proof. destruct (new_slice_eq r l) as (a & -> & _). intros [= <- <-]. split; by rsimpl. Qed.
Lemma see_ballot_tables r b : tables_frame r (see_ballot r b).
Proof. destruct (see_ballot_frame r b) as (b' & ->). split; by rsimpl. Qed.
Lemma hear_instance_tables r q i r' : hear_instance r q i = Ok r' -> tables_frame r r'.
Proof. intros (l & ->)%hear_instance_frame. split; by rsimpl. Qed.
Lemma updateCommitted_tables r q r' : updateCommitted r q = Ok r' -> tables_frame r r'.
Proof. intros (l & ->)%updateCommitted_frame. split; by rsimpl. Qed.
Lemma updateConflicts_all r cmds q i seq r' : updateConflicts r cmds q i seq = Ok r' -> all_recorded r -> all_recorded r' /\ recorded r' q i cmds.
Proof.
  intros H A. split; [|by eapply updateConflicts_records]. eapply all_recorded_same; [|intros q' j cs; by eapply updateConflicts_keeps|exact A].
  by apply updateConflicts_known in H as [-> _].
Qed.
Lemma open_inst_recorded r q i r' inst :
  open_inst r q i = Ok (r', inst) -> all_recorded r -> all_recorded r' /\ inst_recorded r' (q, i) inst /\ x_conflicts r' = x_conflicts r.
Proof.
  intros [(E & ->)|(E & -> & ->)]%open_inst_Ok A; [split_and!; [done|by apply A|done]|].
  assert (inst_recorded r (q, i) (newInstanceDefault r q i)) as D by (split; [by intros d Hd%not_elem_of_nil|done]).
  split_and!; [by apply all_recorded_set| |unfold set_inst; by rsimpl].
  eapply inst_recorded_keep; [|exact D]. apply same_tables. unfold set_inst. by rsimpl.
Qed.
Lemma makeBallot_recorded r q i r' : makeBallot r q i = Ok r' -> all_recorded r -> all_recorded r'.
Proof.
  intros (inst & lb & n & E & L & ->)%makeBallot_frame A. apply all_recorded_set; [done|]. destruct (A _ _ E) as [B C].
  split; [done|]. intros lb' [= <-]. by apply (C lb).
Qed.

(** an instance is put back while its table is about to be written *)
Lemma all_recorded_after r q i inst r' cmds seq :
  all_recorded r -> updateConflicts (set_inst r q i inst) cmds q i seq = Ok r' ->
  (forall d, d ∈ default [] (ei_Cmds inst) -> d ∈ cmds) ->
  (forall lb, ei_lb inst = Some lb -> recorded r q i (default [] (el_cmds lb)) \/ forall d, d ∈ default [] (el_cmds lb) -> d ∈ cmds) ->
  all_recorded r'.
Proof.
  intros A H Hc Hl. pose proof (updateConflicts_records _ _ _ _ _ _ H) as R.
  assert (tables_kept r r') as T.
  { intros q' j cs X. eapply updateConflicts_keeps; [exact H|]. eapply same_tables; [|exact X]. unfold set_inst. by rsimpl. }
  intros v j E. apply updateConflicts_known in H as [Ei _]. rewrite Ei, set_inst_lookup in E. destruct (decide (v = (q, i))) as [->|].
  - injection E as <-. split; [intros d Hd; by apply R, Hc|]. intros lb El. destruct (Hl lb El) as [X|X]; [by apply T|].
    intros d Hd. by apply R, X.
  - eapply inst_recorded_keep; [exact T|]. by apply A.
Qed.

Lemma startPhase1_recorded r cmds q i b ps r' fx : all_recorded r -> startPhase1 r cmds q i b ps = Ok (r', fx) -> all_recorded r'.
Proof.
  intros A H. unfold startPhase1 in H. destruct (new_slice r (nil_deps r)) as [r1 deps] eqn:E1. apply new_slice_tables in E1.
  apply obind_Ok in H as (((r2 & seq) & ch) & H2 & H). apply updateAttributes_frame, heap_frame_tables in H2.
  destruct (new_slice r2 (nil_deps r2)) as [r3 com] eqn:E3. apply new_slice_tables in E3.
  apply obind_Ok in H as (o & _ & H). apply obind_Ok in H as (r4 & H4 & H).
  apply obind_Ok in H as (o4 & _ & H). apply obind_Ok in H as (f & _ & H). injection H as <- _.
  assert (all_recorded r4) as A4.
  { eapply all_recorded_after; [|exact H4|by rsimpl|]; [by eapply tables_frame_all, tables_frame_all, tables_frame_all|].
    intros lb [= <-]. right. done. }
  eapply tables_frame_all; [|exact A4]. split; destruct (_ <=? _); by rsimpl.
Qed.

Lemma handlePropose_recorded r p r' fx : all_recorded r -> handlePropose r p = Ok (r', fx) -> all_recorded r'.
Proof.
  intros A H. unfold handlePropose in H. apply obind_Ok in H as (c & _ & H). apply obind_Ok in H as (l & _ & H).
  eapply startPhase1_recorded; [|exact H]. eapply tables_frame_all; [|exact A]. split; by rsimpl.
Qed.

Lemma handlePreAccept_recorded r m r' fx : known r -> all_recorded r -> handlePreAccept r m = Ok (r', fx) -> all_recorded r'.
Proof.
  intros K A H. unfold handlePreAccept in H. apply obind_Ok in H as (o & _ & H).
  destruct (new_slice r (epa_Deps m)) as [r1 deps] eqn:E1. destruct (new_slice_known _ _ _ _ E1 K) as (K1 & _). apply new_slice_tables in E1.
  set (ra := if x_maxSeq r1 <=? epa_Seq m then r1 <| x_maxSeq := i32 (epa_Seq m + 1) |> else r1) in *.
  assert (tables_frame r1 ra /\ x_heap ra = x_heap r1) as [Ea Eha] by (unfold ra; destruct (_ <=? _); (split; [split; by rsimpl|by rsimpl])).
  pose proof (known_same _ _ (conj (proj1 Ea) Eha) K1) as Ka. clearbody ra.
  pose proof (known_same _ _ (see_ballot_known ra (epa_Ballot m)) Ka) as K2. pose proof (see_ballot_tables ra (epa_Ballot m)) as E2.
  set (r2 := see_ballot ra (epa_Ballot m)) in *. clearbody r2.
  apply obind_Ok in H as (r3 & H3 & H). pose proof (known_same _ _ (hear_instance_known _ _ _ _ H3) K2) as K3. apply hear_instance_tables in H3.
  apply obind_Ok in H as ((r4 & inst) & H4 & H). destruct (inst_ok_open _ _ _ _ _ K3 H4) as (_ & I & _).
  assert (all_recorded r3) as A3 by (do 4 (eapply tables_frame_all; [eassumption|]); done).
  destruct (open_inst_recorded _ _ _ _ _ H4 A3) as (A4 & R4 & _).
  destruct (_ <? _); [by injection H as <- _|].
  apply obind_Ok in H as ((r5 & fx5) & H5 & H). apply obind_Ok in H as (o2 & _ & H). apply obind_Ok in H as (i2 & _ & H).
  apply obind_Ok in H as (f & _ & H). injection H as <- _. rsimpl in H5.
  destruct (Z.leb_spec st_ACCEPTED (ei_Status inst)) as [Hs|Hs].
  - assert (ei_Cmds inst <> None) as C by (apply (io_cmds _ _ I); unfold st_ACCEPTED, st_NONE in *; lia).
    destruct (ei_Cmds inst) as [cmds|] eqn:Ec; [|done]. injection H5 as <- _. apply all_recorded_set; [done|].
    destruct R4 as [R L]. rewrite Ec in R. split; [by rsimpl; rewrite Ec|done].
  - apply obind_Ok in H5 as (((r6 & seq) & ch) & H6 & H5). apply obind_Ok in H5 as (r7 & H7 & H5).
    apply obind_Ok in H5 as (f7 & _ & H5). injection H5 as <- _. apply updateAttributes_frame, heap_frame_tables in H6.
    assert (all_recorded r6) as A6.
    { eapply tables_frame_all; [exact H6|]. apply all_recorded_set; [done|]. destruct R4 as [R L]. by split. }
    eapply all_recorded_after; [exact A6|exact H7|by rsimpl|]. intros lb El. left. rsimpl in El.
    destruct R4 as [_ L]. specialize (L lb El). destruct H6 as [_ Hc]. eapply same_tables; [|exact L].
    rewrite Hc. unfold set_inst. by rsimpl.
Qed.

Lemma inst_recorded_other r r' v inst inst' :
  inst_recorded r v inst -> x_conflicts r' = x_conflicts r -> ei_Cmds inst' = ei_Cmds inst ->
  (forall lb', ei_lb inst' = Some lb' -> exists lb, ei_lb inst = Some lb /\ el_cmds lb' = el_cmds lb) -> inst_recorded r' v inst'.
Proof.
  intros [A B] Ec E L. split; [rewrite E; by eapply same_tables|]. intros lb' (lb & El & ->)%L. eapply same_tables; [done|]. by apply B.
Qed.

Lemma nack_recorded r q i inst lb r' fx :
  all_recorded r -> inst_recorded r (q, i) inst -> ei_lb inst = Some lb -> nack r q i inst lb = Ok (r', fx) -> all_recorded r'.
Proof.
  intros A I L H. unfold nack in H. set (r1 := set_inst r q i _) in H.
  assert (all_recorded r1) as A1.
  { apply all_recorded_set; [done|]. eapply inst_recorded_other; [exact I|done|done|]. intros lb' [= <-]. by exists lb. }
  destruct (_ && _); [|by injection H as <- _]. apply obind_Ok in H as (r2 & H2 & H). injection H as <- _. by eapply makeBallot_recorded.
Qed.

(** the instance takes the commands of its bookkeeping *)
Lemma inst_recorded_adopt r r' v lb inst' :
  recorded r v.1 v.2 (default [] (el_cmds lb)) -> x_conflicts r' = x_conflicts r -> ei_Cmds inst' = el_cmds lb ->
  (forall lb', ei_lb inst' = Some lb' -> el_cmds lb' = el_cmds lb) -> inst_recorded r' v inst'.
Proof. intros R E C L. split; [rewrite C|intros lb' El; rewrite (L lb' El)]; by eapply same_tables. Qed.

Lemma handlePreAcceptReply_recorded r m r' fx : all_recorded r -> handlePreAcceptReply r m = Ok (r', fx) -> all_recorded r'.
Proof.
  intros A H. unfold handlePreAcceptReply in H. apply obind_Ok in H as (o & Ho & H). apply inst_at_eq in Ho.
  apply obind_Ok in H as (inst & Hi & H). apply deref_Ok in Hi as ->.
  destruct (new_slice r (epar_Deps m)) as [r1 their] eqn:E1. apply new_slice_tables in E1.
  pose proof (see_ballot_tables r1 (epar_Ballot m)) as E2. set (r2 := see_ballot r1 (epar_Ballot m)) in *. clearbody r2.
  pose proof (tables_frame_trans _ _ _ E1 E2) as T2. pose proof (tables_frame_all _ _ T2 A) as A2. clear E1 E2.
  pose proof (proj1 T2) as Ei. rewrite <- Ei in Ho. pose proof (A2 _ _ Ho) as I.
  apply obind_Ok in H as (lb & Hl & H). apply deref_Ok in Hl.
  destruct (_ <? _); [by injection H as <- _|]. destruct (_ <? _); [by eapply nack_recorded|].
  destruct (negb _ && _); [by injection H as <- _|].
  match type of H with context [mergeAttributes r2 (el_seq ?l) _ _ _] => set (lb1 := l) in * end.
  assert (el_cmds lb1 = el_cmds lb) as C1 by (unfold lb1; destruct (_ <? _); by rsimpl). clearbody lb1.
  apply obind_Ok in H as (((r3 & seq) & allEq) & H3 & H). apply mergeAttributes_frame, heap_frame_tables in H3.
  set (lb2 := if (x_N r3 <=? 3) && x_Thrifty r3 then lb1 else _) in H.
  assert (el_cmds lb2 = el_cmds lb) as C2 by (unfold lb2; destruct (_ && _); by rsimpl). clearbody lb2.
  apply obind_Ok in H as ((r4 & allC) & H4 & H).
  assert (tables_frame r3 r4) as F4.
  { destruct (7 <? _); [by eapply heap_frame_tables, all_committed_frame|]. by injection H4 as <- _. }
  pose proof (tables_frame_trans _ _ _ H3 F4) as T4. pose proof (tables_frame_all _ _ T4 A2) as A4. destruct T4 as [_ T4].
  set (lb3 := if el_status lb2 <=? st_PREACCEPTED_EQ then _ else lb2) in H.
  assert (el_cmds lb3 = el_cmds lb) as C3 by (unfold lb3; destruct (_ <=? _); by rsimpl). clearbody lb3.
  assert (forall st, inst_recorded r4 (epar_Replica m, epar_Instance m) (adopt inst (lb3 <| el_status := st |>))) as Ad.
  { intros st. apply (inst_recorded_adopt r2 r4 _ lb); [by apply (proj2 I lb)|done|unfold adopt; by rsimpl|].
    unfold adopt. rsimpl. by intros lb' [= <-]. }
  destruct (_ && (el_allEqual lb3 && allC && _)).
  - apply obind_Ok in H as (f & _ & H). apply obind_Ok in H as (r5 & H5 & H). injection H as <- _.
    apply updateCommitted_tables in H5. eapply tables_frame_all; [exact H5|]. by apply all_recorded_set.
  - destruct (_ <=? _).
    + apply obind_Ok in H as (f & _ & H). injection H as <- _. by apply all_recorded_set.
    + injection H as <- _. apply all_recorded_set; [done|]. eapply inst_recorded_other; [exact I|done|done|].
      intros lb' [= <-]. by exists lb.
Qed.

Lemma handleAccept_recorded r m r' fx : all_recorded r -> handleAccept r m = Ok (r', fx) -> all_recorded r'.
Proof.
  intros A H. unfold handleAccept in H. apply obind_Ok in H as (o & _ & H).
  destruct (new_slice r (ea_Deps m)) as [r1 deps] eqn:E1. apply new_slice_tables in E1.
  pose proof (see_ballot_tables r1 (ea_Ballot m)) as E2. set (r2 := see_ballot r1 (ea_Ballot m)) in *. clearbody r2.
  apply obind_Ok in H as (r3 & H3 & H). apply hear_instance_tables in H3.
  assert (all_recorded r3) as A3 by (do 3 (eapply tables_frame_all; [eassumption|]); done).
  apply obind_Ok in H as ((r4 & inst) & H4 & H). destruct (open_inst_recorded _ _ _ _ _ H4 A3) as (A4 & R4 & _).
  apply obind_Ok in H as (((r5 & inst5) & fx5) & H5 & H). apply obind_Ok in H as (f & _ & H). injection H as <- _.
  destruct (_ || _); [by injection H5 as <- _ _|]. apply obind_Ok in H5 as (f5 & _ & H5). injection H5 as <- _ _.
  apply all_recorded_set; [done|]. eapply inst_recorded_other; [exact R4|done|done|]. rsimpl. intros lb E. by exists lb.
Qed.

Lemma handleAcceptReply_recorded r m r' fx : all_recorded r -> handleAcceptReply r m = Ok (r', fx) -> all_recorded r'.
Proof.
  intros A H. unfold handleAcceptReply in H. apply obind_Ok in H as (o & Ho & H). apply inst_at_eq in Ho.
  apply obind_Ok in H as (inst & Hi & H). apply deref_Ok in Hi as ->.
  pose proof (see_ballot_tables r (ear_Ballot m)) as T2. set (r2 := see_ballot r (ear_Ballot m)) in *. clearbody r2.
  pose proof (tables_frame_all _ _ T2 A) as A2. pose proof (proj1 T2) as Ei. rewrite <- Ei in Ho. pose proof (A2 _ _ Ho) as I.
  apply obind_Ok in H as (lb & Hl & H). apply deref_Ok in Hl.
  destruct (_ || _); [by injection H as <- _|]. destruct (_ <? _); [by eapply nack_recorded|].
  assert (forall j, ei_Cmds j = ei_Cmds inst -> (forall lb', ei_lb j = Some lb' -> el_cmds lb' = el_cmds lb) ->
            all_recorded (set_inst r2 (ear_Replica m) (ear_Instance m) j)) as Put.
  { intros j Ec El. apply all_recorded_set; [done|]. eapply inst_recorded_other; [exact I|done|done|]. intros lb' E. exists lb. auto. }
  destruct (_ <? _).
  - apply obind_Ok in H as (r3 & H3 & H). apply obind_Ok in H as (f & _ & H). injection H as <- _. apply updateCommitted_tables in H3.
    eapply tables_frame_all; [exact H3|]. apply Put; rsimpl; [done|]. by intros lb' [= <-].
  - injection H as <- _. apply Put; rsimpl; [done|]. by intros lb' [= <-].
Qed.

Lemma requeue_recorded r v inst cmds r' inst' :
  requeue r inst cmds = Ok (r', inst') -> all_recorded r -> inst_recorded r v inst -> all_recorded r' /\ inst_recorded r' v inst'.
Proof.
  unfold requeue. intros H A R. destruct (_ && _); [|by injection H as <- <-].
  apply obind_Ok in H as (lb & Hl & H). apply deref_Ok in Hl. destruct (el_clientProposals lb); [|by injection H as <- <-].
  destruct (_ <? _); [done|]. injection H as <- <-. split; [eapply tables_frame_all; [|exact A]; split; by rsimpl|].
  eapply inst_recorded_other; [exact R|by rsimpl|done|]. rsimpl. intros lb' [= <-]. by exists lb.
Qed.

Lemma handleCommit_recorded r m r' fx : all_recorded r -> handleCommit r m = Ok (r', fx) -> all_recorded r'.
Proof.
  intros A H. unfold handleCommit in H. apply obind_Ok in H as (o & _ & H).
  destruct (new_slice r (ec_Deps m)) as [r1 deps] eqn:E1. apply new_slice_tables in E1.
  apply obind_Ok in H as (r2 & H2 & H). apply hear_instance_tables in H2.
  pose proof (see_ballot_tables r2 (ec_Ballot m)) as E3. set (r3 := see_ballot r2 (ec_Ballot m)) in *. clearbody r3.
  assert (all_recorded r3) as A3 by (do 3 (eapply tables_frame_all; [eassumption|]); done).
  apply obind_Ok in H as ((r4 & inst) & H4 & H). destruct (open_inst_recorded _ _ _ _ _ H4 A3) as (A4 & R4 & _).
  destruct (_ || _); [by injection H as <- _|]. apply obind_Ok in H as ((r5 & inst5) & H5 & H).
  assert (all_recorded r5 /\ inst_recorded r5 (ec_Replica m, ec_Instance m) inst5) as [A5 R5].
  { destruct (_ =? _); [by eapply requeue_recorded|by injection H5 as <- <-]. }
  apply obind_Ok in H as (r6 & H6 & H). apply obind_Ok in H as (r7 & H7 & H). apply obind_Ok in H as (f & _ & H). injection H as <- _.
  apply updateCommitted_tables in H7. eapply tables_frame_all; [exact H7|]. eapply all_recorded_after; [exact A5|exact H6|by rsimpl|].
  rsimpl. intros lb El. left. by apply (proj2 R5).
Qed.

(** the turns of a run without recovery *)
Definition no_recovery (e : e_event) : bool :=
  match e with
  | EvPropose _ | EvMsg (EPreAccept _) | EvMsg (EPreAcceptReply _) | EvMsg (EAccept _) | EvMsg (EAcceptReply _) | EvMsg (ECommit _) => true
  | EvBeTheLeader => true
  | _ => false
  end.
Lemma handle_event_recorded r now e r' fx :
  known r -> all_recorded r -> no_recovery e = true -> handle_event r now e = Ok (r', fx) -> all_recorded r'.
Proof.
  intros K A N H. unfold handle_event in H.
  assert (known (r <| x_now := now |>)) as K1 by (eapply known_same; [by rsimpl|done]).
  assert (all_recorded (r <| x_now := now |>)) as A1 by (eapply tables_frame_all; [split; by rsimpl|done]).
  destruct e as [p|m| |]; [by eapply handlePropose_recorded| |done|].
  - destruct m; try discriminate N.
    all: lazymatch type of H with
    | handlePreAccept _ _ = _ => by eapply handlePreAccept_recorded
    | handlePreAcceptReply _ _ = _ => by eapply handlePreAcceptReply_recorded
    | handleAccept _ _ = _ => by eapply handleAccept_recorded
    | handleAcceptReply _ _ = _ => by eapply handleAcceptReply_recorded
    | handleCommit _ _ = _ => by eapply handleCommit_recorded
    end.
  - injection H as <- _. eapply tables_frame_all; [|exact A1]. unfold BeTheLeader. split; by rsimpl.
Qed.
Lemma run_recorded es r r' :
  known r -> all_recorded r -> Forall (fun te => no_recovery te.2 = true) es -> run_events r es = Ok r' -> known r' /\ all_recorded r'.
Proof.
  revert r. induction es as [|[now e] es IH]; intros r K A F H; cbn [run_events] in H; [by injection H as <-|].
  apply obind_Ok in H as ((r1 & fx) & H1 & H). apply Forall_cons in F as [Fe F]. eapply IH; [| |exact F|exact H].
  - by eapply handle_event_known.
  - by eapply handle_event_recorded.
Qed.
Lemma New_recorded id N F durable transconf : all_recorded (New_ (TM := TM) id N F durable transconf).
Proof. intros v inst H. cbn in H. by rewrite lookup_empty in H. Qed.

(** * The attributes of a command *)

(** two commands on a key that do not commute *)
Definition interferes (c d : Command) : Prop := cmd_K c = cmd_K d /\ (is_op c GET = false \/ is_op d GET = false).

Lemma recorded_conflict t j c d : recorded_in t j d -> interferes c d -> exists l, last_conflict t c = Some l /\ j <= l.
Proof.
  intros (p & E & H1 & H2) [Ek Ho]. unfold last_conflict. rewrite Ek, E. destruct (is_op c GET).
  - exists (ip_lastWrite p). destruct Ho as [|Ho]; [done|]. auto.
  - by exists (ip_last p).
Qed.

Lemma slice_set r p q v r' k :
  set_slice r p q v = Ok r' -> 0 <= k -> slice_at r' p k = if k =? q then Ok v else slice_at r p k.
Proof.
  intros H Hk. pose proof H as H'. unfold set_slice in H'. apply obind_Ok in H' as (l & Hl & _).
  apply set_slice_Ok in H as (a & -> & Ha & ->). unfold slice_at.
  rewrite <- (index_set _ _ _ _ _ Hl Hk). apply set_index_Ok in Hl as [_ ->]. unfold slice at 1. rsimpl.
  by rewrite (lookup_insert_eq (M:=gmap nat)).
Qed.

(** dependencies are only raised *)
Definition raised (p : option nat) r r' : Prop := forall k e, slice_at r p k = Ok e -> exists e', slice_at r' p k = Ok e' /\ e <= e'.
Lemma raised_refl p r : raised p r r.
Proof. intros k e E. by exists e. Qed.
Lemma raised_trans p r1 r2 r3 : raised p r1 r2 -> raised p r2 r3 -> raised p r1 r3.
Proof. intros A B k e E. destruct (A k e E) as (e1 & E1 & L1). destruct (B k e1 E1) as (e2 & E2 & L2). exists e2. split; [done|lia]. Qed.
Lemma set_slice_raised r p q v r' cur : slice_at r p q = Ok cur -> cur < v -> set_slice r p q v = Ok r' -> raised p r r'.
Proof.
  intros Hc Hlt H k e E. rewrite (slice_set _ _ _ _ _ _ H) by (by eapply index_pos). destruct (Z.eqb_spec k q) as [->|]; [|by exists e].
  exists v. split; [done|]. rewrite Hc in E. injection E as <-. lia.
Qed.

Lemma attributes_row_raised r q c cmds seq deps r' seq' ch : attributes_row r q c cmds seq deps = Ok (r', seq', ch) -> raised deps r r'.
Proof.
  revert r seq. induction cmds as [|cmd cmds IH]; intros r seq H; cbn [attributes_row] in H.
  { injection H as <- <- <-. apply raised_refl. }
  destruct (last_conflict c cmd) as [d|]; [|by eapply IH].
  apply obind_Ok in H as (cur & Hc & H). destruct (Z.ltb_spec cur d); [|by eapply IH].
  apply obind_Ok in H as (r1 & H1 & H). apply obind_Ok in H as (o & _ & H). apply obind_Ok in H as (inst & _ & H).
  injection H as <- _ _. by eapply set_slice_raised.
Qed.
Lemma attributes_row_covers r q t c seq deps r' seq' ch d :
  attributes_row r q t [c] seq deps = Ok (r', seq', ch) -> last_conflict t c = Some d -> exists e, slice_at r' deps q = Ok e /\ d <= e.
Proof.
  cbn [attributes_row]. intros H E. rewrite E in H. apply obind_Ok in H as (cur & Hc & H). destruct (Z.ltb_spec cur d).
  - apply obind_Ok in H as (r1 & H1 & H). apply obind_Ok in H as (o & _ & H). apply obind_Ok in H as (inst & _ & H). injection H as <- _ _.
    exists d. rewrite (slice_set _ _ _ _ _ _ H1) by (by eapply index_pos). by rewrite Z.eqb_refl.
  - injection H as <- _ _. by exists cur.
Qed.

Lemma attributes_rows_raised qs r cmds seq deps replica b r' seq' ch :
  attributes_rows r qs cmds seq deps replica b = Ok (r', seq', ch) -> raised deps r r'.
Proof.
  revert r seq b. induction qs as [|q qs IH]; intros r seq b H; cbn [attributes_rows] in H.
  { injection H as <- <- <-. apply raised_refl. }
  destruct (_ && _); [by eapply IH|]. apply obind_Ok in H as (((r1 & seq1) & b1) & H1 & H).
  apply IH in H. eapply raised_trans; [|exact H]. destruct cmds as [|c cs].
  - injection H1 as <- _ _. apply raised_refl.
  - apply obind_Ok in H1 as (cf & _ & H1). by eapply attributes_row_raised.
Qed.
Lemma attributes_rows_covers qs r c seq deps replica b r' seq' ch q t d :
  attributes_rows r qs [c] seq deps replica b = Ok (r', seq', ch) ->
  q ∈ qs -> q <> replica \/ x_Id r = replica -> index (x_conflicts r) q = Ok t -> last_conflict t c = Some d ->
  exists e, slice_at r' deps q = Ok e /\ d <= e.
Proof.
  revert r seq b. induction qs as [|q1 qs IH]; intros r seq b H Hq Hr Ht Hd; [by apply not_elem_of_nil in Hq|].
  cbn [attributes_rows] in H. destruct (negb (x_Id r =? replica) && (q1 =? replica)) eqn:Es.
  { apply elem_of_cons in Hq as [->|Hq]; [exfalso; lia|by eapply IH]. }
  apply obind_Ok in H as (((r1 & seq1) & b1) & H1 & H). apply obind_Ok in H1 as (cf & Hcf & H1).
  pose proof (attributes_row_frame _ _ _ _ _ _ _ _ _ H1) as (h & -> & _).
  apply elem_of_cons in Hq as [->|Hq]; [|by eapply IH].
  rewrite Hcf in Ht. injection Ht as ->. destruct (attributes_row_covers _ _ _ _ _ _ _ _ _ _ H1 Hd) as (e & He & Hle).
  destruct (attributes_rows_raised _ _ _ _ _ _ _ _ _ _ H q1 e He) as (e' & He' & Hle'). exists e'. split; [done|lia].
Qed.

(** [deps] hold every instance a replica in state [r] knows to conflict with [c], except
    those of row [q0] when it is not its own *)
Definition covers r (deps : list Z) (q0 : Z) (c : Command) : Prop :=
  forall q j inst d, 0 <= q < x_N r -> q <> q0 \/ q0 = x_Id r -> x_InstanceSpace r !! (q, j) = Some inst ->
    d ∈ default [] (ei_Cmds inst) -> interferes c d -> exists e, index deps q = Ok e /\ j <= e.

Lemma updateAttributes_covers r0 r c seq deps replica r' seq' ch :
  all_recorded r0 -> x_conflicts r = x_conflicts r0 -> x_N r = x_N r0 -> x_Id r = x_Id r0 ->
  updateAttributes r [c] seq deps replica = Ok (r', seq', ch) -> covers r0 (slice r' deps) replica c.
Proof.
  intros A Ec En Ei H q j inst d Hq Hr E Hd Hi. destruct (A _ _ E) as [R _]. destruct (R d Hd) as (t & Ht & X). cbn in Ht, X.
  destruct (recorded_conflict _ _ _ _ X Hi) as (l & Hl & Hle). unfold updateAttributes in H.
  apply obind_Ok in H as (((r1 & seq1) & b1) & H1 & H). destruct (raise_seq _ _ _). injection H as <- _ _.
  rewrite <- Ec in Ht. destruct (attributes_rows_covers _ _ _ _ _ _ _ _ _ _ q t l H1) as (e & He & Hle'); [|lia|done|done|].
  - apply elem_of_seqZ. lia.
  - exists e. split; [done|lia].
Qed.

(** the instance and the command a turn pre-accepts, if it is a single command *)
Definition pre_accepted r (e : e_event) : option (Z * Z * Command) :=
  match e with
  | EvPropose p =>
      match x_ProposeChan r, index (x_crtInstance r) (x_Id r) with
      | [], Ok k => Some (x_Id r, i32 (k + 1), gp_Command p)
      | _, _ => None
      end
  | EvMsg (EPreAccept m) =>
      let takes :=
        match x_InstanceSpace r !! (epa_Replica m, epa_Instance m) with
        | Some inst => (ei_bal inst <=? epa_Ballot m) && (ei_Status inst <? st_ACCEPTED)
        | None => -1 <=? epa_Ballot m
        end in
      match epa_Command m with
      | [c] => if takes then Some (epa_Replica m, epa_Instance m, c) else None
      | _ => None
      end
  | _ => None
  end.

Lemma heap_frame_ids p r r' : heap_frame p r r' -> x_N r' = x_N r /\ x_Id r' = x_Id r /\ x_conflicts r' = x_conflicts r.
Proof. intros (h & -> & _). by rsimpl. Qed.

Definition pre_accept_done r r' (q i : Z) (c : Command) : Prop :=
  exists inst, x_InstanceSpace r' !! (q, i) = Some inst /\ ei_Cmds inst = Some [c] /\ covers r (slice r' (ei_Deps inst)) q c.
Lemma pre_accept_done_more r r1 r' q i c :
  x_InstanceSpace r' = x_InstanceSpace r1 -> x_heap r' = x_heap r1 -> pre_accept_done r r1 q i c -> pre_accept_done r r' q i c.
Proof. intros E Eh (inst & H1 & H2 & H3). exists inst. rewrite E. split_and!; [done|done|]. unfold slice in *. by rewrite Eh. Qed.

Lemma startPhase1_covers r0 r c q i b ps r' fx :
  all_recorded r0 -> x_conflicts r = x_conflicts r0 -> x_N r = x_N r0 -> x_Id r = x_Id r0 ->
  startPhase1 r [c] q i b ps = Ok (r', fx) -> pre_accept_done r0 r' q i c.
Proof.
  intros A Ec En Ei H. unfold startPhase1 in H. destruct (new_slice r (nil_deps r)) as [r1 deps] eqn:E1.
  destruct (new_slice_grow _ _ _ _ E1) as (_ & _ & _ & Pd).
  assert (x_conflicts r1 = x_conflicts r0 /\ x_N r1 = x_N r0 /\ x_Id r1 = x_Id r0) as (Ec1 & En1 & Ei1).
  { destruct (new_slice_eq r (nil_deps r)) as (a & Ea & _). rewrite Ea in E1. injection E1 as <- _. by rsimpl. }
  apply obind_Ok in H as (((r2 & seq) & ch) & H2 & H).
  pose proof (updateAttributes_covers _ _ _ _ _ _ _ _ _ A Ec1 En1 Ei1 H2) as C. apply updateAttributes_frame in H2.
  destruct (heap_frame_dom _ _ _ H2) as [D2 _]. destruct (new_slice r2 (nil_deps r2)) as [r3 com] eqn:E3.
  destruct (new_slice_grow _ _ _ _ E3) as (G3 & _).
  assert (slice r3 deps = slice r2 deps) as Es.
  { apply grow_slice; [done|]. destruct deps; [|done]. cbn in *. by rewrite D2. }
  apply obind_Ok in H as (o & _ & H). apply obind_Ok in H as (r4 & H4 & H).
  apply obind_Ok in H as (o4 & _ & H). apply obind_Ok in H as (f & _ & H). injection H as <- _.
  apply updateConflicts_known in H4 as [Ei4 Eh4].
  apply (pre_accept_done_more _ r4); [destruct (_ <=? _); by rsimpl..|].
  eexists. rewrite Ei4, set_inst_lookup, decide_True by done. split; [done|]. split; [by rsimpl|].
  rsimpl. unfold newInstance. cbn [ei_Deps]. unfold slice in *. rewrite Eh4, set_inst_heap. rewrite <- Es in C. exact C.
Qed.

Lemma handlePropose_covers r0 r p k r' fx :
  all_recorded r0 -> x_conflicts r = x_conflicts r0 -> x_N r = x_N r0 -> x_Id r = x_Id r0 ->
  x_ProposeChan r = [] -> index (x_crtInstance r) (x_Id r) = Ok k -> handlePropose r p = Ok (r', fx) ->
  pre_accept_done r0 r' (x_Id r) (i32 (k + 1)) (gp_Command p).
Proof.
  intros A Ec En Ei Ep Ek H. unfold handlePropose in H. rewrite Ep in H. rsimpl in H. rewrite Ek in H. cbn [obind fmap list_fmap] in H.
  apply obind_Ok in H as (l & _ & H). eapply startPhase1_covers; [exact A| | | |exact H]; by rsimpl.
Qed.

Lemma handlePreAccept_covers r0 r m c r' fx :
  all_recorded r0 -> x_conflicts r = x_conflicts r0 -> x_N r = x_N r0 -> x_Id r = x_Id r0 -> x_InstanceSpace r = x_InstanceSpace r0 ->
  pre_accepted r0 (EvMsg (EPreAccept m)) = Some (epa_Replica m, epa_Instance m, c) -> handlePreAccept r m = Ok (r', fx) ->
  pre_accept_done r0 r' (epa_Replica m) (epa_Instance m) c.
Proof.
  intros A Ec En Ei Es Hp H. unfold pre_accepted in Hp. rewrite <- Es in Hp. unfold handlePreAccept in H. apply obind_Ok in H as (o & _ & H).
  destruct (new_slice_eq r (epa_Deps m)) as (a & Ea & Ha). rewrite Ea in H. clear Ea.
  set (r1 := r <| x_heap ::= <[a := epa_Deps m]> |>) in H.
  set (ra := if x_maxSeq r1 <=? epa_Seq m then r1 <| x_maxSeq := i32 (epa_Seq m + 1) |> else r1) in *.
  destruct (see_ballot_frame ra (epa_Ballot m)) as (bb & Eb). rewrite Eb in H. clear Eb.
  apply obind_Ok in H as (r3 & H3 & H). apply hear_instance_frame in H3 as (l3 & ->).
  set (r3 := _ <| x_crtInstance := l3 |>) in H.
  assert (x_conflicts r3 = x_conflicts r0 /\ x_N r3 = x_N r0 /\ x_Id r3 = x_Id r0 /\ x_InstanceSpace r3 = x_InstanceSpace r /\
          a ∈ dom (x_heap r3)) as (Ec3 & En3 & Ei3 & Es3 & Ha3).
  { clear H Hp. unfold r3, ra, r1. destruct (_ <=? _); rsimpl; split_and!; try done; rewrite dom_insert_L; set_solver. }
  clearbody r3. clear ra r1. apply obind_Ok in H as ((r4 & inst) & H4 & H).
  assert (x_conflicts r4 = x_conflicts r0 /\ x_N r4 = x_N r0 /\ x_Id r4 = x_Id r0 /\ x_heap r4 = x_heap r3) as (Ec4 & En4 & Ei4 & Eh4).
  { apply open_inst_Ok in H4 as [(_ & ->)|(_ & _ & ->)]; [done|]. unfold set_inst. by rsimpl. }
  assert (match x_InstanceSpace r !! (epa_Replica m, epa_Instance m) with
        | Some inst => (ei_bal inst <=? epa_Ballot m) && (ei_Status inst <? st_ACCEPTED)
        | None => -1 <=? epa_Ballot m
        end = (ei_bal inst <=? epa_Ballot m) && (ei_Status inst <? st_ACCEPTED)) as Et.
  { apply open_inst_Ok in H4 as [(Ho & _)|(Ho & -> & _)]; rewrite Es3 in Ho; rewrite Ho; [done|].
    unfold newInstanceDefault, newInstance. cbn [ei_bal ei_Status]. by destruct (-1 <=? _). }
  rewrite Et in Hp. destruct (epa_Command m) as [|c' [|]]; [done| |done].
  destruct (_ && _) eqn:Eok; [|done]. injection Hp as ->. apply andb_true_iff in Eok as [Eb Est].
  rewrite (proj2 (Z.ltb_ge (epa_Ballot m) (ei_bal inst))) in H by lia.
  apply obind_Ok in H as ((r5 & fx5) & H5 & H). apply obind_Ok in H as (o2 & _ & H). apply obind_Ok in H as (i2 & _ & H).
  apply obind_Ok in H as (f & _ & H). injection H as <- _. rsimpl in H5.
  rewrite (proj2 (Z.leb_gt st_ACCEPTED (ei_Status inst))) in H5 by lia.
  apply obind_Ok in H5 as (((r6 & seq) & ch) & H6 & H5). apply obind_Ok in H5 as (r7 & H7 & H5).
  apply obind_Ok in H5 as (f7 & _ & H5). injection H5 as <- _.
  assert (covers r0 (slice r6 (Some a)) (epa_Replica m) c) as C.
  { eapply updateAttributes_covers; [exact A| | | |exact H6]; unfold set_inst; by rsimpl. }
  apply updateConflicts_known in H7 as [Ei7 Eh7]. eexists. rewrite Ei7, set_inst_lookup, decide_True by done.
  split; [done|]. split; [by rsimpl|]. rsimpl. unfold slice in *. rewrite Eh7, set_inst_heap. exact C.
Qed.

Lemma handle_event_covers r now e r' fx q i c :
  all_recorded r -> pre_accepted r e = Some (q, i, c) -> handle_event r now e = Ok (r', fx) -> pre_accept_done r r' q i c.
Proof.
  intros A Hp H. unfold handle_event in H. destruct e as [p|m| |]; [|destruct m; try done|done|done].
  - unfold pre_accepted in Hp. destruct (x_ProposeChan r) eqn:Ep; [|done]. destruct (index _ _) as [k| |] eqn:Ek; [|done..]. injection Hp as <- <- <-.
    change (x_Id r) with (x_Id (r <| x_now := now |>)). eapply handlePropose_covers; [exact A|by rsimpl..|exact H].
  - assert (q = epa_Replica m /\ i = epa_Instance m) as [-> ->].
    { unfold pre_accepted in Hp. destruct (epa_Command m) as [|? [|]]; [done| |done].
      destruct (match _ !! _ with Some _ => _ | None => _ end); [|done]. by injection Hp as <- <- _. }
    by apply (handlePreAccept_covers r (r <| x_now := now |>) m c r' fx); [exact A|rsimpl..|exact Hp|exact H].
Qed.
End deps.
