(* ===== verification/SwiftWire.v ===== *)
(** The messages of the SwiftPaxos baseline ([src/swift/defs.go]). *)
From stdpp Require Import gmap list.
From S2P Require Import Prelude WireBase Wire State QuorumSets GobWire Rpc.

Record CommandId := mkCommandId {
  ci_ClientId : Z;
  ci_SeqNum : Z }.
#[export] Instance eta_CommandId : Eta CommandId := fun r => mkCommandId (ci_ClientId r) (ci_SeqNum r).
Definition CommandId_Marshal (t : CommandId) : list byte :=
  (le32 (ci_ClientId t) ++ le32 (ci_SeqNum t)).
Definition CommandId_Unmarshal : into CommandId :=
  chunk 8 (fun bs t => t <| ci_ClientId := i32_at bs 0 |> <| ci_SeqNum := i32_at bs 4 |>).
Definition CommandId_wf (t : CommandId) : Prop :=
  is_i32 (ci_ClientId t) /\ is_i32 (ci_SeqNum t).
#[export, program] Instance CommandId_codec : GobCodec CommandId := {|
  gob_zero := mkCommandId 0 0;
  GMarshal := CommandId_Marshal; GUnmarshal := CommandId_Unmarshal; GWf := CommandId_wf |}.
Next Obligation.
  intros [v0 v1] Hwf. unfold CommandId_wf in Hwf. cbn [ci_ClientId ci_SeqNum] in Hwf. destruct_and? Hwf.
  unfold CommandId_Marshal, CommandId_Unmarshal. cbn [ci_ClientId ci_SeqNum]. gob_message.
Qed.

(** an element of a slice: one read per field *)
Definition CommandId_fields : into CommandId :=
  chunk 4 (fun bs t => t <| ci_ClientId := i32_at bs 0 |>) ;>
  chunk 4 (fun bs t => t <| ci_SeqNum := i32_at bs 0 |>).
Lemma CommandId_fields_reads x : CommandId_wf x -> Puts CommandId_fields (CommandId_Marshal x) (mkCommandId 0 0) x.
Proof.
  destruct x as [v0 v1]. intros Hwf. unfold CommandId_wf in Hwf. cbn [ci_ClientId ci_SeqNum] in Hwf. destruct_and? Hwf.
  unfold CommandId_Marshal, CommandId_fields. cbn [ci_ClientId ci_SeqNum]. gob_message.
Qed.
#[export] Hint Resolve CommandId_fields_reads : gob_fields.

(** [SHash]: an array of 32 bytes *)
Record SHash := mkSHash { sh_H : list byte }.
Definition SHash_zero : SHash := mkSHash (replicate 32 x00).
Definition SHash_wf (t : SHash) : Prop := length (sh_H t) = 32%nat.
Definition SHash_Marshal (t : SHash) : list byte := sh_H t.
Definition SHash_Unmarshal : into SHash := chunk 32 (fun bs t => mkSHash bs).
#[export, program] Instance SHash_codec : GobCodec SHash := {|
  gob_zero := SHash_zero; GMarshal := SHash_Marshal; GUnmarshal := SHash_Unmarshal; GWf := SHash_wf |}.
Next Obligation. intros [h] H. by eapply Puts_eq; [apply Puts_chunk|]. Qed.

(** inside another message the bytes are read one by one: [t.H\[i\] = bs\[0\]] *)
Fixpoint hash_bytes (i n : nat) : into SHash :=
  match n with
  | O => fun t bs => Done t bs
  | S n => chunk 1 (fun bs t => mkSHash (<[i := ByteAt bs 0]> (sh_H t))) ;> hash_bytes (S i) n
  end.
Definition SHash_fields : into SHash := hash_bytes 0 32.

Lemma hash_bytes_puts l : forall pre suf, length suf = length l ->
  Puts (hash_bytes (length pre) (length l)) l (mkSHash (pre ++ suf)) (mkSHash (pre ++ l)).
Proof.
  induction l as [|b l IH]; intros pre suf Hs; cbn [hash_bytes length].
  - destruct suf; [|done]. by intros rest.
  - destruct suf as [|c suf]; [done|]. change (b :: l) with ([b] ++ l).
    eapply Puts_seq; [by apply Puts_chunk|]. cbn [sh_H]. rewrite insert_app_r_alt by lia. rewrite Nat.sub_diag.
    change (<[0%nat:=ByteAt [b] 0]> (c :: suf)) with ([b] ++ suf). rewrite !(assoc_L (++)).
    replace (S (length pre)) with (length (pre ++ [b])) by (rewrite length_app; cbn; lia).
    apply IH. cbn in Hs. lia.
Qed.
Lemma SHash_fields_reads x : SHash_wf x -> Puts SHash_fields (SHash_Marshal x) SHash_zero x.
Proof.
  destruct x as [h]. unfold SHash_wf, SHash_Marshal, SHash_fields, SHash_zero. cbn [sh_H]. intros H. rewrite <- H.
  apply (hash_bytes_puts h [] (replicate (length h) x00)). apply length_replicate.
Qed.
#[export] Hint Resolve SHash_fields_reads : gob_fields.

Record Ack := mkAck {
  ack_CmdId : CommandId;
  ack_Dep : list CommandId;
  ack_Checksum : list SHash;
  ack_Seqnum : Z }.
#[export] Instance eta_Ack : Eta Ack := fun r => mkAck (ack_CmdId r) (ack_Dep r) (ack_Checksum r) (ack_Seqnum r).
Definition Ack_Marshal (t : Ack) : list byte :=
  (le32 (ci_ClientId (ack_CmdId t)) ++ le32 (ci_SeqNum (ack_CmdId t))) ++
  put_slice CommandId_Marshal (ack_Dep t) ++
  put_slice SHash_Marshal (ack_Checksum t) ++
  le64 (ack_Seqnum t).
Definition Ack_Unmarshal : into Ack :=
  chunk 8 (fun bs t => t <| ack_CmdId := mkCommandId (i32_at bs 0) (i32_at bs 4) |>) ;>
  slice_into 8 false CommandId_fields (mkCommandId 0 0) (fun l t => t <| ack_Dep := l |>) ;>
  slice_into 32 false SHash_fields SHash_zero (fun l t => t <| ack_Checksum := l |>) ;>
  chunk 8 (fun bs t => t <| ack_Seqnum := i64_at bs 0 |>).
Definition Ack_wf (t : Ack) : Prop :=
  CommandId_wf (ack_CmdId t) /\ Zlength (ack_Dep t) * 8 <= maxAlloc /\ Forall CommandId_wf (ack_Dep t) /\ Zlength (ack_Checksum t) * 32 <= maxAlloc /\ Forall SHash_wf (ack_Checksum t) /\ is_i64 (ack_Seqnum t).
#[export, program] Instance Ack_codec : GobCodec Ack := {|
  gob_zero := mkAck (mkCommandId 0 0) [] [] 0;
  GMarshal := Ack_Marshal; GUnmarshal := Ack_Unmarshal; GWf := Ack_wf |}.
Next Obligation.
  intros [[c0 s0] v1 v2 v3] Hwf. unfold Ack_wf, CommandId_wf in Hwf. cbn [ack_CmdId ack_Dep ack_Checksum ack_Seqnum ci_ClientId ci_SeqNum] in Hwf. destruct_and? Hwf.
  unfold Ack_Marshal, Ack_Unmarshal. cbn [ack_CmdId ack_Dep ack_Checksum ack_Seqnum ci_ClientId ci_SeqNum]. gob_message.
Qed.

Record MNewLeaderAck := mkMNewLeaderAck {
  nla_Replica : Z;
  nla_Ballot : Z;
  nla_Cballot : Z }.
#[export] Instance eta_MNewLeaderAck : Eta MNewLeaderAck := fun r => mkMNewLeaderAck (nla_Replica r) (nla_Ballot r) (nla_Cballot r).
Definition MNewLeaderAck_Marshal (t : MNewLeaderAck) : list byte :=
  (le32 (nla_Replica t) ++ le32 (nla_Ballot t) ++ le32 (nla_Cballot t)).
Definition MNewLeaderAck_Unmarshal : into MNewLeaderAck :=
  chunk 12 (fun bs t => t <| nla_Replica := i32_at bs 0 |> <| nla_Ballot := i32_at bs 4 |> <| nla_Cballot := i32_at bs 8 |>).
Definition MNewLeaderAck_wf (t : MNewLeaderAck) : Prop :=
  is_i32 (nla_Replica t) /\ is_i32 (nla_Ballot t) /\ is_i32 (nla_Cballot t).
#[export, program] Instance MNewLeaderAck_codec : GobCodec MNewLeaderAck := {|
  gob_zero := mkMNewLeaderAck 0 0 0;
  GMarshal := MNewLeaderAck_Marshal; GUnmarshal := MNewLeaderAck_Unmarshal; GWf := MNewLeaderAck_wf |}.
Next Obligation.
  intros [v0 v1 v2] Hwf. unfold MNewLeaderAck_wf in Hwf. cbn [nla_Replica nla_Ballot nla_Cballot] in Hwf. destruct_and? Hwf.
  unfold MNewLeaderAck_Marshal, MNewLeaderAck_Unmarshal. cbn [nla_Replica nla_Ballot nla_Cballot]. gob_message.
Qed.

Record MLightSync := mkMLightSync {
  mls_Replica : Z;
  mls_Ballot : Z }.
#[export] Instance eta_MLightSync : Eta MLightSync := fun r => mkMLightSync (mls_Replica r) (mls_Ballot r).
Definition MLightSync_Marshal (t : MLightSync) : list byte :=
  (le32 (mls_Replica t) ++ le32 (mls_Ballot t)).
Definition MLightSync_Unmarshal : into MLightSync :=
  chunk 8 (fun bs t => t <| mls_Replica := i32_at bs 0 |> <| mls_Ballot := i32_at bs 4 |>).
Definition MLightSync_wf (t : MLightSync) : Prop :=
  is_i32 (mls_Replica t) /\ is_i32 (mls_Ballot t).
#[export, program] Instance MLightSync_codec : GobCodec MLightSync := {|
  gob_zero := mkMLightSync 0 0;
  GMarshal := MLightSync_Marshal; GUnmarshal := MLightSync_Unmarshal; GWf := MLightSync_wf |}.
Next Obligation.
  intros [v0 v1] Hwf. unfold MLightSync_wf in Hwf. cbn [mls_Replica mls_Ballot] in Hwf. destruct_and? Hwf.
  unfold MLightSync_Marshal, MLightSync_Unmarshal. cbn [mls_Replica mls_Ballot]. gob_message.
Qed.

Record MFastAck := mkMFastAck {
  mfa_Replica : Z;
  mfa_Ballot : Z;
  mfa_CmdId : CommandId;
  mfa_Dep : list CommandId;
  mfa_Checksum : list SHash;
  mfa_Seqnum : Z }.
#[export] Instance eta_MFastAck : Eta MFastAck := fun r => mkMFastAck (mfa_Replica r) (mfa_Ballot r) (mfa_CmdId r) (mfa_Dep r) (mfa_Checksum r) (mfa_Seqnum r).
Definition MFastAck_Marshal (t : MFastAck) : list byte :=
  (le32 (mfa_Replica t) ++ le32 (mfa_Ballot t) ++ le32 (ci_ClientId (mfa_CmdId t)) ++ le32 (ci_SeqNum (mfa_CmdId t))) ++
  put_slice CommandId_Marshal (mfa_Dep t) ++
  put_slice SHash_Marshal (mfa_Checksum t) ++
  le64 (mfa_Seqnum t).
Definition MFastAck_Unmarshal : into MFastAck :=
  chunk 16 (fun bs t => t <| mfa_Replica := i32_at bs 0 |> <| mfa_Ballot := i32_at bs 4 |> <| mfa_CmdId := mkCommandId (i32_at bs 8) (i32_at bs 12) |>) ;>
  slice_into 8 false CommandId_fields (mkCommandId 0 0) (fun l t => t <| mfa_Dep := l |>) ;>
  slice_into 32 false SHash_fields SHash_zero (fun l t => t <| mfa_Checksum := l |>) ;>
  chunk 8 (fun bs t => t <| mfa_Seqnum := i64_at bs 0 |>).
Definition MFastAck_wf (t : MFastAck) : Prop :=
  is_i32 (mfa_Replica t) /\ is_i32 (mfa_Ballot t) /\ CommandId_wf (mfa_CmdId t) /\ Zlength (mfa_Dep t) * 8 <= maxAlloc /\ Forall CommandId_wf (mfa_Dep t) /\ Zlength (mfa_Checksum t) * 32 <= maxAlloc /\ Forall SHash_wf (mfa_Checksum t) /\ is_i64 (mfa_Seqnum t).
#[export, program] Instance MFastAck_codec : GobCodec MFastAck := {|
  gob_zero := mkMFastAck 0 0 (mkCommandId 0 0) [] [] 0;
  GMarshal := MFastAck_Marshal; GUnmarshal := MFastAck_Unmarshal; GWf := MFastAck_wf |}.
Next Obligation.
  intros [v0 v1 [c2 s2] v3 v4 v5] Hwf. unfold MFastAck_wf, CommandId_wf in Hwf. cbn [mfa_Replica mfa_Ballot mfa_CmdId mfa_Dep mfa_Checksum mfa_Seqnum ci_ClientId ci_SeqNum] in Hwf. destruct_and? Hwf.
  unfold MFastAck_Marshal, MFastAck_Unmarshal. cbn [mfa_Replica mfa_Ballot mfa_CmdId mfa_Dep mfa_Checksum mfa_Seqnum ci_ClientId ci_SeqNum]. gob_message.
Qed.

Record MFastAckClient := mkMFastAckClient {
  mfc_Replica : Z;
  mfc_Ballot : Z;
  mfc_CmdId : CommandId;
  mfc_Checksum : list SHash }.
#[export] Instance eta_MFastAckClient : Eta MFastAckClient := fun r => mkMFastAckClient (mfc_Replica r) (mfc_Ballot r) (mfc_CmdId r) (mfc_Checksum r).
Definition MFastAckClient_Marshal (t : MFastAckClient) : list byte :=
  (le32 (mfc_Replica t) ++ le32 (mfc_Ballot t) ++ le32 (ci_ClientId (mfc_CmdId t)) ++ le32 (ci_SeqNum (mfc_CmdId t))) ++
  put_slice SHash_Marshal (mfc_Checksum t).
Definition MFastAckClient_Unmarshal : into MFastAckClient :=
  chunk 16 (fun bs t => t <| mfc_Replica := i32_at bs 0 |> <| mfc_Ballot := i32_at bs 4 |> <| mfc_CmdId := mkCommandId (i32_at bs 8) (i32_at bs 12) |>) ;>
  slice_into 32 false SHash_fields SHash_zero (fun l t => t <| mfc_Checksum := l |>).
Definition MFastAckClient_wf (t : MFastAckClient) : Prop :=
  is_i32 (mfc_Replica t) /\ is_i32 (mfc_Ballot t) /\ CommandId_wf (mfc_CmdId t) /\ Zlength (mfc_Checksum t) * 32 <= maxAlloc /\ Forall SHash_wf (mfc_Checksum t).
#[export, program] Instance MFastAckClient_codec : GobCodec MFastAckClient := {|
  gob_zero := mkMFastAckClient 0 0 (mkCommandId 0 0) [];
  GMarshal := MFastAckClient_Marshal; GUnmarshal := MFastAckClient_Unmarshal; GWf := MFastAckClient_wf |}.
Next Obligation.
  intros [v0 v1 [c2 s2] v3] Hwf. unfold MFastAckClient_wf, CommandId_wf in Hwf. cbn [mfc_Replica mfc_Ballot mfc_CmdId mfc_Checksum ci_ClientId ci_SeqNum] in Hwf. destruct_and? Hwf.
  unfold MFastAckClient_Marshal, MFastAckClient_Unmarshal. cbn [mfc_Replica mfc_Ballot mfc_CmdId mfc_Checksum ci_ClientId ci_SeqNum]. gob_message.
Qed.

Record MLightSlowAck := mkMLightSlowAck {
  lsa_Replica : Z;
  lsa_Ballot : Z;
  lsa_CmdId : CommandId }.
#[export] Instance eta_MLightSlowAck : Eta MLightSlowAck := fun r => mkMLightSlowAck (lsa_Replica r) (lsa_Ballot r) (lsa_CmdId r).
Definition MLightSlowAck_Marshal (t : MLightSlowAck) : list byte :=
  (le32 (lsa_Replica t) ++ le32 (lsa_Ballot t) ++ le32 (ci_ClientId (lsa_CmdId t)) ++ le32 (ci_SeqNum (lsa_CmdId t))).
Definition MLightSlowAck_Unmarshal : into MLightSlowAck :=
  chunk 16 (fun bs t => t <| lsa_Replica := i32_at bs 0 |> <| lsa_Ballot := i32_at bs 4 |> <| lsa_CmdId := mkCommandId (i32_at bs 8) (i32_at bs 12) |>).
Definition MLightSlowAck_wf (t : MLightSlowAck) : Prop :=
  is_i32 (lsa_Replica t) /\ is_i32 (lsa_Ballot t) /\ CommandId_wf (lsa_CmdId t).
#[export, program] Instance MLightSlowAck_codec : GobCodec MLightSlowAck := {|
  gob_zero := mkMLightSlowAck 0 0 (mkCommandId 0 0);
  GMarshal := MLightSlowAck_Marshal; GUnmarshal := MLightSlowAck_Unmarshal; GWf := MLightSlowAck_wf |}.
Next Obligation.
  intros [v0 v1 [c2 s2]] Hwf. unfold MLightSlowAck_wf, CommandId_wf in Hwf. cbn [lsa_Replica lsa_Ballot lsa_CmdId ci_ClientId ci_SeqNum] in Hwf. destruct_and? Hwf.
  unfold MLightSlowAck_Marshal, MLightSlowAck_Unmarshal. cbn [lsa_Replica lsa_Ballot lsa_CmdId ci_ClientId ci_SeqNum]. gob_message.
Qed.

(** an element of a slice: one read per field *)
Definition MLightSlowAck_fields : into MLightSlowAck :=
  chunk 4 (fun bs t => t <| lsa_Replica := i32_at bs 0 |>) ;>
  chunk 4 (fun bs t => t <| lsa_Ballot := i32_at bs 0 |>) ;>
  chunk 4 (fun bs t => t <| lsa_CmdId := (lsa_CmdId t) <| ci_ClientId := i32_at bs 0 |> |>) ;>
  chunk 4 (fun bs t => t <| lsa_CmdId := (lsa_CmdId t) <| ci_SeqNum := i32_at bs 0 |> |>).
Lemma MLightSlowAck_fields_reads x : MLightSlowAck_wf x -> Puts MLightSlowAck_fields (MLightSlowAck_Marshal x) (mkMLightSlowAck 0 0 (mkCommandId 0 0)) x.
Proof.
  destruct x as [v0 v1 [c2 s2]]. intros Hwf. unfold MLightSlowAck_wf, CommandId_wf in Hwf. cbn [lsa_Replica lsa_Ballot lsa_CmdId ci_ClientId ci_SeqNum] in Hwf. destruct_and? Hwf.
  unfold MLightSlowAck_Marshal, MLightSlowAck_fields. cbn [lsa_Replica lsa_Ballot lsa_CmdId ci_ClientId ci_SeqNum]. gob_message.
Qed.
#[export] Hint Resolve MLightSlowAck_fields_reads : gob_fields.

Record MAccept := mkMAccept {
  mac_Replica : Z;
  mac_Ballot : Z;
  mac_CmdId : CommandId;
  mac_Rep : list byte }.
#[export] Instance eta_MAccept : Eta MAccept := fun r => mkMAccept (mac_Replica r) (mac_Ballot r) (mac_CmdId r) (mac_Rep r).
Definition MAccept_Marshal (t : MAccept) : list byte :=
  (le32 (mac_Replica t) ++ le32 (mac_Ballot t) ++ le32 (ci_ClientId (mac_CmdId t)) ++ le32 (ci_SeqNum (mac_CmdId t))) ++
  put_slice GMarshal (mac_Rep t).
Definition MAccept_Unmarshal : into MAccept :=
  chunk 16 (fun bs t => t <| mac_Replica := i32_at bs 0 |> <| mac_Ballot := i32_at bs 4 |> <| mac_CmdId := mkCommandId (i32_at bs 8) (i32_at bs 12) |>) ;>
  slice_into 1 false GUnmarshal gob_zero (fun l t => t <| mac_Rep := l |>).
Definition MAccept_wf (t : MAccept) : Prop :=
  is_i32 (mac_Replica t) /\ is_i32 (mac_Ballot t) /\ CommandId_wf (mac_CmdId t) /\ Zlength (mac_Rep t) * 1 <= maxAlloc.
#[export, program] Instance MAccept_codec : GobCodec MAccept := {|
  gob_zero := mkMAccept 0 0 (mkCommandId 0 0) [];
  GMarshal := MAccept_Marshal; GUnmarshal := MAccept_Unmarshal; GWf := MAccept_wf |}.
Next Obligation.
  intros [v0 v1 [c2 s2] v3] Hwf. unfold MAccept_wf, CommandId_wf in Hwf. cbn [mac_Replica mac_Ballot mac_CmdId mac_Rep ci_ClientId ci_SeqNum] in Hwf. destruct_and? Hwf.
  unfold MAccept_Marshal, MAccept_Unmarshal. cbn [mac_Replica mac_Ballot mac_CmdId mac_Rep ci_ClientId ci_SeqNum]. gob_message.
Qed.

Record MNewLeader := mkMNewLeader {
  mnl_Replica : Z;
  mnl_Ballot : Z }.
#[export] Instance eta_MNewLeader : Eta MNewLeader := fun r => mkMNewLeader (mnl_Replica r) (mnl_Ballot r).
Definition MNewLeader_Marshal (t : MNewLeader) : list byte :=
  (le32 (mnl_Replica t) ++ le32 (mnl_Ballot t)).
Definition MNewLeader_Unmarshal : into MNewLeader :=
  chunk 8 (fun bs t => t <| mnl_Replica := i32_at bs 0 |> <| mnl_Ballot := i32_at bs 4 |>).
Definition MNewLeader_wf (t : MNewLeader) : Prop :=
  is_i32 (mnl_Replica t) /\ is_i32 (mnl_Ballot t).
#[export, program] Instance MNewLeader_codec : GobCodec MNewLeader := {|
  gob_zero := mkMNewLeader 0 0;
  GMarshal := MNewLeader_Marshal; GUnmarshal := MNewLeader_Unmarshal; GWf := MNewLeader_wf |}.
Next Obligation.
  intros [v0 v1] Hwf. unfold MNewLeader_wf in Hwf. cbn [mnl_Replica mnl_Ballot] in Hwf. destruct_and? Hwf.
  unfold MNewLeader_Marshal, MNewLeader_Unmarshal. cbn [mnl_Replica mnl_Ballot]. gob_message.
Qed.

Record SDep := mkSDep {
  sd_Dep : list CommandId }.
#[export] Instance eta_SDep : Eta SDep := fun r => mkSDep (sd_Dep r).
Definition SDep_Marshal (t : SDep) : list byte :=
  put_slice CommandId_Marshal (sd_Dep t).
Definition SDep_Unmarshal : into SDep :=
  slice_into 8 false CommandId_fields (mkCommandId 0 0) (fun l t => t <| sd_Dep := l |>).
Definition SDep_wf (t : SDep) : Prop :=
  Zlength (sd_Dep t) * 8 <= maxAlloc /\ Forall CommandId_wf (sd_Dep t).
#[export, program] Instance SDep_codec : GobCodec SDep := {|
  gob_zero := mkSDep [];
  GMarshal := SDep_Marshal; GUnmarshal := SDep_Unmarshal; GWf := SDep_wf |}.
Next Obligation.
  intros [v0] Hwf. unfold SDep_wf in Hwf. cbn [sd_Dep] in Hwf. destruct_and? Hwf.
  unfold SDep_Marshal, SDep_Unmarshal. cbn [sd_Dep]. gob_message.
Qed.

Record MShareState := mkMShareState {
  mss_Replica : Z;
  mss_Ballot : Z }.
#[export] Instance eta_MShareState : Eta MShareState := fun r => mkMShareState (mss_Replica r) (mss_Ballot r).
Definition MShareState_Marshal (t : MShareState) : list byte :=
  (le32 (mss_Replica t) ++ le32 (mss_Ballot t)).
Definition MShareState_Unmarshal : into MShareState :=
  chunk 8 (fun bs t => t <| mss_Replica := i32_at bs 0 |> <| mss_Ballot := i32_at bs 4 |>).
Definition MShareState_wf (t : MShareState) : Prop :=
  is_i32 (mss_Replica t) /\ is_i32 (mss_Ballot t).
#[export, program] Instance MShareState_codec : GobCodec MShareState := {|
  gob_zero := mkMShareState 0 0;
  GMarshal := MShareState_Marshal; GUnmarshal := MShareState_Unmarshal; GWf := MShareState_wf |}.
Next Obligation.
  intros [v0 v1] Hwf. unfold MShareState_wf in Hwf. cbn [mss_Replica mss_Ballot] in Hwf. destruct_and? Hwf.
  unfold MShareState_Marshal, MShareState_Unmarshal. cbn [mss_Replica mss_Ballot]. gob_message.
Qed.

Record MOptAcks := mkMOptAcks {
  moa_Replica : Z;
  moa_Ballot : Z;
  moa_Acks : list Ack }.
#[export] Instance eta_MOptAcks : Eta MOptAcks := fun r => mkMOptAcks (moa_Replica r) (moa_Ballot r) (moa_Acks r).
Definition MOptAcks_Marshal (t : MOptAcks) : list byte :=
  (le32 (moa_Replica t) ++ le32 (moa_Ballot t)) ++
  put_slice GMarshal (moa_Acks t).
Definition MOptAcks_Unmarshal : into MOptAcks :=
  chunk 8 (fun bs t => t <| moa_Replica := i32_at bs 0 |> <| moa_Ballot := i32_at bs 4 |>) ;>
  slice_into 64 true GUnmarshal gob_zero (fun l t => t <| moa_Acks := l |>).
Definition MOptAcks_wf (t : MOptAcks) : Prop :=
  is_i32 (moa_Replica t) /\ is_i32 (moa_Ballot t) /\ Zlength (moa_Acks t) * 64 <= maxAlloc /\ Forall GWf (moa_Acks t).
#[export, program] Instance MOptAcks_codec : GobCodec MOptAcks := {|
  gob_zero := mkMOptAcks 0 0 [];
  GMarshal := MOptAcks_Marshal; GUnmarshal := MOptAcks_Unmarshal; GWf := MOptAcks_wf |}.
Next Obligation.
  intros [v0 v1 v2] Hwf. unfold MOptAcks_wf in Hwf. cbn [moa_Replica moa_Ballot moa_Acks] in Hwf. destruct_and? Hwf.
  unfold MOptAcks_Marshal, MOptAcks_Unmarshal. cbn [moa_Replica moa_Ballot moa_Acks]. gob_message.
Qed.

Record MPing := mkMPing {
  mpi_Replica : Z;
  mpi_Ballot : Z }.
#[export] Instance eta_MPing : Eta MPing := fun r => mkMPing (mpi_Replica r) (mpi_Ballot r).
Definition MPing_Marshal (t : MPing) : list byte :=
  (le32 (mpi_Replica t) ++ le32 (mpi_Ballot t)).
Definition MPing_Unmarshal : into MPing :=
  chunk 8 (fun bs t => t <| mpi_Replica := i32_at bs 0 |> <| mpi_Ballot := i32_at bs 4 |>).
Definition MPing_wf (t : MPing) : Prop :=
  is_i32 (mpi_Replica t) /\ is_i32 (mpi_Ballot t).
#[export, program] Instance MPing_codec : GobCodec MPing := {|
  gob_zero := mkMPing 0 0;
  GMarshal := MPing_Marshal; GUnmarshal := MPing_Unmarshal; GWf := MPing_wf |}.
Next Obligation.
  intros [v0 v1] Hwf. unfold MPing_wf in Hwf. cbn [mpi_Replica mpi_Ballot] in Hwf. destruct_and? Hwf.
  unfold MPing_Marshal, MPing_Unmarshal. cbn [mpi_Replica mpi_Ballot]. gob_message.
Qed.

Record MSlowAck := mkMSlowAck {
  msa_Replica : Z;
  msa_Ballot : Z;
  msa_CmdId : CommandId;
  msa_Dep : list CommandId;
  msa_Checksum : list SHash }.
#[export] Instance eta_MSlowAck : Eta MSlowAck := fun r => mkMSlowAck (msa_Replica r) (msa_Ballot r) (msa_CmdId r) (msa_Dep r) (msa_Checksum r).
Definition MSlowAck_Marshal (t : MSlowAck) : list byte :=
  (le32 (msa_Replica t) ++ le32 (msa_Ballot t) ++ le32 (ci_ClientId (msa_CmdId t)) ++ le32 (ci_SeqNum (msa_CmdId t))) ++
  put_slice CommandId_Marshal (msa_Dep t) ++
  put_slice SHash_Marshal (msa_Checksum t).
Definition MSlowAck_Unmarshal : into MSlowAck :=
  chunk 16 (fun bs t => t <| msa_Replica := i32_at bs 0 |> <| msa_Ballot := i32_at bs 4 |> <| msa_CmdId := mkCommandId (i32_at bs 8) (i32_at bs 12) |>) ;>
  slice_into 8 false CommandId_fields (mkCommandId 0 0) (fun l t => t <| msa_Dep := l |>) ;>
  slice_into 32 false SHash_fields SHash_zero (fun l t => t <| msa_Checksum := l |>).
Definition MSlowAck_wf (t : MSlowAck) : Prop :=
  is_i32 (msa_Replica t) /\ is_i32 (msa_Ballot t) /\ CommandId_wf (msa_CmdId t) /\ Zlength (msa_Dep t) * 8 <= maxAlloc /\ Forall CommandId_wf (msa_Dep t) /\ Zlength (msa_Checksum t) * 32 <= maxAlloc /\ Forall SHash_wf (msa_Checksum t).
#[export, program] Instance MSlowAck_codec : GobCodec MSlowAck := {|
  gob_zero := mkMSlowAck 0 0 (mkCommandId 0 0) [] [];
  GMarshal := MSlowAck_Marshal; GUnmarshal := MSlowAck_Unmarshal; GWf := MSlowAck_wf |}.
Next Obligation.
  intros [v0 v1 [c2 s2] v3 v4] Hwf. unfold MSlowAck_wf, CommandId_wf in Hwf. cbn [msa_Replica msa_Ballot msa_CmdId msa_Dep msa_Checksum ci_ClientId ci_SeqNum] in Hwf. destruct_and? Hwf.
  unfold MSlowAck_Marshal, MSlowAck_Unmarshal. cbn [msa_Replica msa_Ballot msa_CmdId msa_Dep msa_Checksum ci_ClientId ci_SeqNum]. gob_message.
Qed.

Record MAcks := mkMAcks {
  mak_FastAcks : list MFastAck;
  mak_LightSlowAcks : list MLightSlowAck }.
#[export] Instance eta_MAcks : Eta MAcks := fun r => mkMAcks (mak_FastAcks r) (mak_LightSlowAcks r).
Definition MAcks_Marshal (t : MAcks) : list byte :=
  put_slice GMarshal (mak_FastAcks t) ++
  put_slice MLightSlowAck_Marshal (mak_LightSlowAcks t).
Definition MAcks_Unmarshal : into MAcks :=
  slice_into 72 true GUnmarshal gob_zero (fun l t => t <| mak_FastAcks := l |>) ;>
  slice_into 16 false MLightSlowAck_fields (mkMLightSlowAck 0 0 (mkCommandId 0 0)) (fun l t => t <| mak_LightSlowAcks := l |>).
Definition MAcks_wf (t : MAcks) : Prop :=
  Zlength (mak_FastAcks t) * 72 <= maxAlloc /\ Forall GWf (mak_FastAcks t) /\ Zlength (mak_LightSlowAcks t) * 16 <= maxAlloc /\ Forall MLightSlowAck_wf (mak_LightSlowAcks t).
#[export, program] Instance MAcks_codec : GobCodec MAcks := {|
  gob_zero := mkMAcks [] [];
  GMarshal := MAcks_Marshal; GUnmarshal := MAcks_Unmarshal; GWf := MAcks_wf |}.
Next Obligation.
  intros [v0 v1] Hwf. unfold MAcks_wf in Hwf. cbn [mak_FastAcks mak_LightSlowAcks] in Hwf. destruct_and? Hwf.
  unfold MAcks_Marshal, MAcks_Unmarshal. cbn [mak_FastAcks mak_LightSlowAcks]. gob_message.
Qed.

Record MNewLeaderAckN := mkMNewLeaderAckN {
  nln_Replica : Z;
  nln_Ballot : Z;
  nln_Cballot : Z;
  nln_CmdIds : list CommandId;
  nln_Phases : list Z;
  nln_Cmds : list Command;
  nln_Deps : list SDep }.
#[export] Instance eta_MNewLeaderAckN : Eta MNewLeaderAckN := fun r => mkMNewLeaderAckN (nln_Replica r) (nln_Ballot r) (nln_Cballot r) (nln_CmdIds r) (nln_Phases r) (nln_Cmds r) (nln_Deps r).
Definition MNewLeaderAckN_Marshal (t : MNewLeaderAckN) : list byte :=
  (le32 (nln_Replica t) ++ le32 (nln_Ballot t) ++ le32 (nln_Cballot t)) ++
  put_slice CommandId_Marshal (nln_CmdIds t) ++
  put_slice le64 (nln_Phases t) ++
  put_slice GMarshal (nln_Cmds t) ++
  put_slice GMarshal (nln_Deps t).
Definition MNewLeaderAckN_Unmarshal : into MNewLeaderAckN :=
  chunk 12 (fun bs t => t <| nln_Replica := i32_at bs 0 |> <| nln_Ballot := i32_at bs 4 |> <| nln_Cballot := i32_at bs 8 |>) ;>
  slice_into 8 false CommandId_fields (mkCommandId 0 0) (fun l t => t <| nln_CmdIds := l |>) ;>
  slice_into 8 false int_fields 0 (fun l t => t <| nln_Phases := l |>) ;>
  slice_into 40 true GUnmarshal gob_zero (fun l t => t <| nln_Cmds := l |>) ;>
  slice_into 24 true GUnmarshal gob_zero (fun l t => t <| nln_Deps := l |>).
Definition MNewLeaderAckN_wf (t : MNewLeaderAckN) : Prop :=
  is_i32 (nln_Replica t) /\ is_i32 (nln_Ballot t) /\ is_i32 (nln_Cballot t) /\ Zlength (nln_CmdIds t) * 8 <= maxAlloc /\ Forall CommandId_wf (nln_CmdIds t) /\ Zlength (nln_Phases t) * 8 <= maxAlloc /\ Forall is_i64 (nln_Phases t) /\ Zlength (nln_Cmds t) * 40 <= maxAlloc /\ Forall GWf (nln_Cmds t) /\ Zlength (nln_Deps t) * 24 <= maxAlloc /\ Forall GWf (nln_Deps t).
#[export, program] Instance MNewLeaderAckN_codec : GobCodec MNewLeaderAckN := {|
  gob_zero := mkMNewLeaderAckN 0 0 0 [] [] [] [];
  GMarshal := MNewLeaderAckN_Marshal; GUnmarshal := MNewLeaderAckN_Unmarshal; GWf := MNewLeaderAckN_wf |}.
Next Obligation.
  intros [v0 v1 v2 v3 v4 v5 v6] Hwf. unfold MNewLeaderAckN_wf in Hwf. cbn [nln_Replica nln_Ballot nln_Cballot nln_CmdIds nln_Phases nln_Cmds nln_Deps] in Hwf. destruct_and? Hwf.
  unfold MNewLeaderAckN_Marshal, MNewLeaderAckN_Unmarshal. cbn [nln_Replica nln_Ballot nln_Cballot nln_CmdIds nln_Phases nln_Cmds nln_Deps]. gob_message.
Qed.

Record MCollect := mkMCollect {
  mco_Replica : Z;
  mco_Ballot : Z;
  mco_Ids : list CommandId }.
#[export] Instance eta_MCollect : Eta MCollect := fun r => mkMCollect (mco_Replica r) (mco_Ballot r) (mco_Ids r).
Definition MCollect_Marshal (t : MCollect) : list byte :=
  (le32 (mco_Replica t) ++ le32 (mco_Ballot t)) ++
  put_slice CommandId_Marshal (mco_Ids t).
Definition MCollect_Unmarshal : into MCollect :=
  chunk 8 (fun bs t => t <| mco_Replica := i32_at bs 0 |> <| mco_Ballot := i32_at bs 4 |>) ;>
  slice_into 8 false CommandId_fields (mkCommandId 0 0) (fun l t => t <| mco_Ids := l |>).
Definition MCollect_wf (t : MCollect) : Prop :=
  is_i32 (mco_Replica t) /\ is_i32 (mco_Ballot t) /\ Zlength (mco_Ids t) * 8 <= maxAlloc /\ Forall CommandId_wf (mco_Ids t).
#[export, program] Instance MCollect_codec : GobCodec MCollect := {|
  gob_zero := mkMCollect 0 0 [];
  GMarshal := MCollect_Marshal; GUnmarshal := MCollect_Unmarshal; GWf := MCollect_wf |}.
Next Obligation.
  intros [v0 v1 v2] Hwf. unfold MCollect_wf in Hwf. cbn [mco_Replica mco_Ballot mco_Ids] in Hwf. destruct_and? Hwf.
  unfold MCollect_Marshal, MCollect_Unmarshal. cbn [mco_Replica mco_Ballot mco_Ids]. gob_message.
Qed.

Record MPingRep := mkMPingRep {
  mpr_Replica : Z;
  mpr_Ballot : Z }.
#[export] Instance eta_MPingRep : Eta MPingRep := fun r => mkMPingRep (mpr_Replica r) (mpr_Ballot r).
Definition MPingRep_Marshal (t : MPingRep) : list byte :=
  (le32 (mpr_Replica t) ++ le32 (mpr_Ballot t)).
Definition MPingRep_Unmarshal : into MPingRep :=
  chunk 8 (fun bs t => t <| mpr_Replica := i32_at bs 0 |> <| mpr_Ballot := i32_at bs 4 |>).
Definition MPingRep_wf (t : MPingRep) : Prop :=
  is_i32 (mpr_Replica t) /\ is_i32 (mpr_Ballot t).
#[export, program] Instance MPingRep_codec : GobCodec MPingRep := {|
  gob_zero := mkMPingRep 0 0;
  GMarshal := MPingRep_Marshal; GUnmarshal := MPingRep_Unmarshal; GWf := MPingRep_wf |}.
Next Obligation.
  intros [v0 v1] Hwf. unfold MPingRep_wf in Hwf. cbn [mpr_Replica mpr_Ballot] in Hwf. destruct_and? Hwf.
  unfold MPingRep_Marshal, MPingRep_Unmarshal. cbn [mpr_Replica mpr_Ballot]. gob_message.
Qed.

(** ** [MReply]

    [Unmarshal] reads the bytes of [Rep] into the [bs] that the loop over [Checksum]
    left: one byte, or the whole buffer of sixteen when [Checksum] is empty. *)
Record MReply := mkMReply {
  mre_Replica : Z;
  mre_Ballot : Z;
  mre_CmdId : CommandId;
  mre_Checksum : list SHash;
  mre_Rep : list byte }.
#[export] Instance eta_MReply : Eta MReply := fun r =>
  mkMReply (mre_Replica r) (mre_Ballot r) (mre_CmdId r) (mre_Checksum r) (mre_Rep r).

Definition MReply_Marshal (t : MReply) : list byte :=
  (le32 (mre_Replica t) ++ le32 (mre_Ballot t) ++ le32 (ci_ClientId (mre_CmdId t)) ++ le32 (ci_SeqNum (mre_CmdId t))) ++
  put_slice SHash_Marshal (mre_Checksum t) ++
  put_slice GMarshal (mre_Rep t).

(** [MSync] is encoded by the standard library's gob package: its codec is a parameter *)
Section mreply.
Context `{Conn} {MSync : Type} {sync_codec : GobCodec MSync}.
Definition MReply_Unmarshal : into MReply :=
  chunk 16 (fun bs t => t <| mre_Replica := i32_at bs 0 |> <| mre_Ballot := i32_at bs 4 |>
                          <| mre_CmdId := mkCommandId (i32_at bs 8) (i32_at bs 12) |>) ;>
  slice_into 32 false SHash_fields SHash_zero (fun l t => t <| mre_Checksum := l |>) ;>
  fun t => slice_into 1 false
    (chunk_upto buffered 1 (if decide (length (mre_Checksum t) = 0) then 16 else 1)%nat (fun bs _ => ByteAt bs 0))
    x00 (fun l t => t <| mre_Rep := l |>) t.
Definition MReply_wf (t : MReply) : Prop :=
  is_i32 (mre_Replica t) /\ is_i32 (mre_Ballot t) /\ CommandId_wf (mre_CmdId t) /\
  (Zlength (mre_Checksum t) * 32 <= maxAlloc /\ Forall SHash_wf (mre_Checksum t)) /\
  Zlength (mre_Rep t) * 1 <= maxAlloc /\ (mre_Checksum t <> [] \/ mre_Rep t = []).

Lemma SwiftReply_reads m : MReply_wf m -> Puts MReply_Unmarshal (MReply_Marshal m) (mkMReply 0 0 (mkCommandId 0 0) [] []) m.
Proof.
  destruct m as [v0 v1 [c s] chk rep]. unfold MReply_wf, CommandId_wf.
  cbn [mre_Replica mre_Ballot mre_CmdId mre_Checksum mre_Rep ci_ClientId ci_SeqNum].
  intros (H0 & H1 & [H2 H3] & [Hl Hc] & Hl' & Hne).
  unfold MReply_Marshal, MReply_Unmarshal. cbn [mre_Replica mre_Ballot mre_CmdId mre_Checksum mre_Rep ci_ClientId ci_SeqNum].
  eapply Puts_eq; [eapply Puts_seq; [apply Puts_chunk; reflexivity|]; eapply Puts_seq; [gob_part|]|].
  - intros rest. set (t := _ <| mre_Checksum := chk |>). assert (Et : mre_Checksum t = chk) by done. rewrite Et.
    refine (Puts_slice 1 false _ GMarshal x00 _ rep t _ Hl' _ rest); [lia|].
    destruct Hne as [Hne|Hnil]; [|rewrite Hnil; constructor]. rewrite decide_False by (by destruct chk).
    apply Forall_true. intros b. eapply Puts_eq; [by apply Puts_chunk_exact|done].
  - cbv beta. autorewrite with gob. reflexivity.
Qed.
#[export] Instance MReply_codec : GobCodec MReply := {|
  gob_zero := mkMReply 0 0 (mkCommandId 0 0) [] [];
  GMarshal := MReply_Marshal; GUnmarshal := MReply_Unmarshal; GWf := MReply_wf; gob_reads := SwiftReply_reads |}.

(** * The protocol *)

Inductive swift_msg :=
| SFastAck (m : MFastAck)
| SFastAckClient (m : MFastAckClient)
| SSlowAck (m : MSlowAck)
| SLightSlowAck (m : MLightSlowAck)
| SAcks (m : MAcks)
| SOptAcks (m : MOptAcks)
| SReply (m : MReply)
| SNewLeader (m : MNewLeader)
| SNewLeaderAckN (m : MNewLeaderAckN)
| SSync (m : MSync)
| SPing (m : MPing)
| SPingRep (m : MPingRep)
| SCollect (m : MCollect)
| SAccept (m : MAccept).
(** the types in the order they are registered *)
Definition swift_msg_types : list (list byte -> dres swift_msg) :=
  [decode SFastAck; decode SFastAckClient; decode SSlowAck; decode SLightSlowAck; decode SAcks; decode SOptAcks; decode SReply; decode SNewLeader; decode SNewLeaderAckN; decode SSync; decode SPing; decode SPingRep; decode SCollect; decode SAccept].
Definition swift_msg_type (m : swift_msg) : nat :=
  match m with SFastAck _ => 0 | SFastAckClient _ => 1 | SSlowAck _ => 2 | SLightSlowAck _ => 3 | SAcks _ => 4 | SOptAcks _ => 5 | SReply _ => 6 | SNewLeader _ => 7 | SNewLeaderAckN _ => 8 | SSync _ => 9 | SPing _ => 10 | SPingRep _ => 11 | SCollect _ => 12 | SAccept _ => 13 end.
Definition swift_msg_marshal (m : swift_msg) : list byte :=
  match m with SFastAck m => MFastAck_Marshal m | SFastAckClient m => MFastAckClient_Marshal m | SSlowAck m => MSlowAck_Marshal m | SLightSlowAck m => MLightSlowAck_Marshal m | SAcks m => MAcks_Marshal m | SOptAcks m => MOptAcks_Marshal m | SReply m => MReply_Marshal m | SNewLeader m => MNewLeader_Marshal m | SNewLeaderAckN m => MNewLeaderAckN_Marshal m | SSync m => GMarshal m | SPing m => MPing_Marshal m | SPingRep m => MPingRep_Marshal m | SCollect m => MCollect_Marshal m | SAccept m => MAccept_Marshal m end.
Definition swift_msg_wf (m : swift_msg) : Prop :=
  match m with SFastAck m => MFastAck_wf m | SFastAckClient m => MFastAckClient_wf m | SSlowAck m => MSlowAck_wf m | SLightSlowAck m => MLightSlowAck_wf m | SAcks m => MAcks_wf m | SOptAcks m => MOptAcks_wf m | SReply m => MReply_wf m | SNewLeader m => MNewLeader_wf m | SNewLeaderAckN m => MNewLeaderAckN_wf m | SSync m => GWf m | SPing m => MPing_wf m | SPingRep m => MPingRep_wf m | SCollect m => MCollect_wf m | SAccept m => MAccept_wf m end.
Lemma swift_msg_reads m : swift_msg_wf m ->
  exists d, swift_msg_types !! swift_msg_type m = Some d /\ forall rest, d (swift_msg_marshal m ++ rest) = Done m rest.
Proof. destruct m; intros Hwf; (eexists; split; [reflexivity|]); intros rest; exact (decode_reads _ m rest Hwf). Qed.
#[export] Instance swift_msg_protocol : Protocol swift_msg := {|
  proto_types := swift_msg_types; proto_type := swift_msg_type; proto_marshal := swift_msg_marshal; proto_wf := swift_msg_wf;
  proto_small := ltac:(cbn; lia); proto_reads := swift_msg_reads |}.
End mreply.

(** * Constructors, sizes and caches *)

Definition CommandId_BinarySize : Z * bool := (8, true).
Definition CommandIdCache : Type := Cache CommandId.
Definition NewCommandIdCache : CommandIdCache := NewCache.
Definition CommandIdCache_Get (p : CommandIdCache) : CommandId * CommandIdCache := Cache_Get (mkCommandId 0 0) p.
Definition CommandIdCache_Put (p : CommandIdCache) (t : option CommandId) : CommandIdCache := Cache_Put p t.

Definition SHash_BinarySize : Z * bool := (32, true).
Definition SHashCache : Type := Cache SHash.
Definition NewSHashCache : SHashCache := NewCache.
Definition SHashCache_Get (p : SHashCache) : SHash * SHashCache := Cache_Get SHash_zero p.
Definition SHashCache_Put (p : SHashCache) (t : option SHash) : SHashCache := Cache_Put p t.

Definition Ack_BinarySize : Z * bool := (0, false).
Definition AckCache : Type := Cache Ack.
Definition NewAckCache : AckCache := NewCache.
Definition AckCache_Get (p : AckCache) : Ack * AckCache := Cache_Get (mkAck (mkCommandId 0 0) [] [] 0) p.
Definition AckCache_Put (p : AckCache) (t : option Ack) : AckCache := Cache_Put p t.

Definition MNewLeaderAck_BinarySize : Z * bool := (12, true).
Definition MNewLeaderAck_New : MNewLeaderAck := mkMNewLeaderAck 0 0 0.
Definition MNewLeaderAckCache : Type := Cache MNewLeaderAck.
Definition NewMNewLeaderAckCache : MNewLeaderAckCache := NewCache.
Definition MNewLeaderAckCache_Get (p : MNewLeaderAckCache) : MNewLeaderAck * MNewLeaderAckCache := Cache_Get MNewLeaderAck_New p.
Definition MNewLeaderAckCache_Put (p : MNewLeaderAckCache) (t : option MNewLeaderAck) : MNewLeaderAckCache := Cache_Put p t.

Definition MLightSync_BinarySize : Z * bool := (8, true).
Definition MLightSync_New : MLightSync := mkMLightSync 0 0.
Definition MLightSyncCache : Type := Cache MLightSync.
Definition NewMLightSyncCache : MLightSyncCache := NewCache.
Definition MLightSyncCache_Get (p : MLightSyncCache) : MLightSync * MLightSyncCache := Cache_Get MLightSync_New p.
Definition MLightSyncCache_Put (p : MLightSyncCache) (t : option MLightSync) : MLightSyncCache := Cache_Put p t.

Definition MFastAck_BinarySize : Z * bool := (0, false).
Definition MFastAck_New : MFastAck := mkMFastAck 0 0 (mkCommandId 0 0) [] [] 0.
Definition MFastAckCache : Type := Cache MFastAck.
Definition NewMFastAckCache : MFastAckCache := NewCache.
Definition MFastAckCache_Get (p : MFastAckCache) : MFastAck * MFastAckCache := Cache_Get MFastAck_New p.
Definition MFastAckCache_Put (p : MFastAckCache) (t : option MFastAck) : MFastAckCache := Cache_Put p t.

Definition MFastAckClient_BinarySize : Z * bool := (0, false).
Definition MFastAckClient_New : MFastAckClient := mkMFastAckClient 0 0 (mkCommandId 0 0) [].
Definition MFastAckClientCache : Type := Cache MFastAckClient.
Definition NewMFastAckClientCache : MFastAckClientCache := NewCache.
Definition MFastAckClientCache_Get (p : MFastAckClientCache) : MFastAckClient * MFastAckClientCache := Cache_Get MFastAckClient_New p.
Definition MFastAckClientCache_Put (p : MFastAckClientCache) (t : option MFastAckClient) : MFastAckClientCache := Cache_Put p t.

Definition MLightSlowAck_BinarySize : Z * bool := (16, true).
Definition MLightSlowAck_New : MLightSlowAck := mkMLightSlowAck 0 0 (mkCommandId 0 0).
Definition MLightSlowAckCache : Type := Cache MLightSlowAck.
Definition NewMLightSlowAckCache : MLightSlowAckCache := NewCache.
Definition MLightSlowAckCache_Get (p : MLightSlowAckCache) : MLightSlowAck * MLightSlowAckCache := Cache_Get MLightSlowAck_New p.
Definition MLightSlowAckCache_Put (p : MLightSlowAckCache) (t : option MLightSlowAck) : MLightSlowAckCache := Cache_Put p t.

Definition MAccept_BinarySize : Z * bool := (0, false).
Definition MAccept_New : MAccept := mkMAccept 0 0 (mkCommandId 0 0) [].
Definition MAcceptCache : Type := Cache MAccept.
Definition NewMAcceptCache : MAcceptCache := NewCache.
Definition MAcceptCache_Get (p : MAcceptCache) : MAccept * MAcceptCache := Cache_Get MAccept_New p.
Definition MAcceptCache_Put (p : MAcceptCache) (t : option MAccept) : MAcceptCache := Cache_Put p t.

Definition MNewLeader_BinarySize : Z * bool := (8, true).
Definition MNewLeader_New : MNewLeader := mkMNewLeader 0 0.
Definition MNewLeaderCache : Type := Cache MNewLeader.
Definition NewMNewLeaderCache : MNewLeaderCache := NewCache.
Definition MNewLeaderCache_Get (p : MNewLeaderCache) : MNewLeader * MNewLeaderCache := Cache_Get MNewLeader_New p.
Definition MNewLeaderCache_Put (p : MNewLeaderCache) (t : option MNewLeader) : MNewLeaderCache := Cache_Put p t.

Definition SDep_BinarySize : Z * bool := (0, false).
Definition SDepCache : Type := Cache SDep.
Definition NewSDepCache : SDepCache := NewCache.
Definition SDepCache_Get (p : SDepCache) : SDep * SDepCache := Cache_Get (mkSDep []) p.
Definition SDepCache_Put (p : SDepCache) (t : option SDep) : SDepCache := Cache_Put p t.

Definition MShareState_BinarySize : Z * bool := (8, true).
Definition MShareState_New : MShareState := mkMShareState 0 0.
Definition MShareStateCache : Type := Cache MShareState.
Definition NewMShareStateCache : MShareStateCache := NewCache.
Definition MShareStateCache_Get (p : MShareStateCache) : MShareState * MShareStateCache := Cache_Get MShareState_New p.
Definition MShareStateCache_Put (p : MShareStateCache) (t : option MShareState) : MShareStateCache := Cache_Put p t.

Definition MOptAcks_BinarySize : Z * bool := (0, false).
Definition MOptAcks_New : MOptAcks := mkMOptAcks 0 0 [].
Definition MOptAcksCache : Type := Cache MOptAcks.
Definition NewMOptAcksCache : MOptAcksCache := NewCache.
Definition MOptAcksCache_Get (p : MOptAcksCache) : MOptAcks * MOptAcksCache := Cache_Get MOptAcks_New p.
Definition MOptAcksCache_Put (p : MOptAcksCache) (t : option MOptAcks) : MOptAcksCache := Cache_Put p t.

Definition MPing_BinarySize : Z * bool := (8, true).
Definition MPing_New : MPing := mkMPing 0 0.
Definition MPingCache : Type := Cache MPing.
Definition NewMPingCache : MPingCache := NewCache.
Definition MPingCache_Get (p : MPingCache) : MPing * MPingCache := Cache_Get MPing_New p.
Definition MPingCache_Put (p : MPingCache) (t : option MPing) : MPingCache := Cache_Put p t.

Definition MSlowAck_BinarySize : Z * bool := (0, false).
Definition MSlowAck_New : MSlowAck := mkMSlowAck 0 0 (mkCommandId 0 0) [] [].
Definition MSlowAckCache : Type := Cache MSlowAck.
Definition NewMSlowAckCache : MSlowAckCache := NewCache.
Definition MSlowAckCache_Get (p : MSlowAckCache) : MSlowAck * MSlowAckCache := Cache_Get MSlowAck_New p.
Definition MSlowAckCache_Put (p : MSlowAckCache) (t : option MSlowAck) : MSlowAckCache := Cache_Put p t.

Definition MAcks_BinarySize : Z * bool := (0, false).
Definition MAcks_New : MAcks := mkMAcks [] [].
Definition MAcksCache : Type := Cache MAcks.
Definition NewMAcksCache : MAcksCache := NewCache.
Definition MAcksCache_Get (p : MAcksCache) : MAcks * MAcksCache := Cache_Get MAcks_New p.
Definition MAcksCache_Put (p : MAcksCache) (t : option MAcks) : MAcksCache := Cache_Put p t.

Definition MReply_BinarySize : Z * bool := (0, false).
Definition MReply_New : MReply := mkMReply 0 0 (mkCommandId 0 0) [] [].
Definition MReplyCache : Type := Cache MReply.
Definition NewMReplyCache : MReplyCache := NewCache.
Definition MReplyCache_Get (p : MReplyCache) : MReply * MReplyCache := Cache_Get MReply_New p.
Definition MReplyCache_Put (p : MReplyCache) (t : option MReply) : MReplyCache := Cache_Put p t.

Definition MNewLeaderAckN_BinarySize : Z * bool := (0, false).
Definition MNewLeaderAckN_New : MNewLeaderAckN := mkMNewLeaderAckN 0 0 0 [] [] [] [].
Definition MNewLeaderAckNCache : Type := Cache MNewLeaderAckN.
Definition NewMNewLeaderAckNCache : MNewLeaderAckNCache := NewCache.
Definition MNewLeaderAckNCache_Get (p : MNewLeaderAckNCache) : MNewLeaderAckN * MNewLeaderAckNCache := Cache_Get MNewLeaderAckN_New p.
Definition MNewLeaderAckNCache_Put (p : MNewLeaderAckNCache) (t : option MNewLeaderAckN) : MNewLeaderAckNCache := Cache_Put p t.

Definition MCollect_BinarySize : Z * bool := (0, false).
Definition MCollect_New : MCollect := mkMCollect 0 0 [].
Definition MCollectCache : Type := Cache MCollect.
Definition NewMCollectCache : MCollectCache := NewCache.
Definition MCollectCache_Get (p : MCollectCache) : MCollect * MCollectCache := Cache_Get MCollect_New p.
Definition MCollectCache_Put (p : MCollectCache) (t : option MCollect) : MCollectCache := Cache_Put p t.

Definition MPingRep_BinarySize : Z * bool := (8, true).
Definition MPingRep_New : MPingRep := mkMPingRep 0 0.
Definition MPingRepCache : Type := Cache MPingRep.
Definition NewMPingRepCache : MPingRepCache := NewCache.
Definition MPingRepCache_Get (p : MPingRepCache) : MPingRep * MPingRepCache := Cache_Get MPingRep_New p.
Definition MPingRepCache_Put (p : MPingRepCache) (t : option MPingRep) : MPingRepCache := Cache_Put p t.
