(* ===== verification/SwiftKeys.v ===== *)
(** What SwiftPaxos remembers per key ([src/swift/key.go]) and how it compares
    dependencies ([Dep] in [src/swift/defs.go]).

    Slices are lists and Go maps [gmap]s; an index out of range is a panic, [None].
    [CommandId] is [SwiftWire.CommandId]. *)
From stdpp Require Import gmap list.
From S2P Require Import Prelude WireBase Wire State GobWire SwiftWire.

#[export] Instance CommandId_dec : EqDecision CommandId.
Proof. solve_decision. Defined.
#[export] Instance CommandId_countable : Countable CommandId :=
  inj_countable' (fun c => (ci_ClientId c, ci_SeqNum c)) (fun p => mkCommandId p.1 p.2) (fun c => match c with mkCommandId _ _ => eq_refl end).

(** * Keys *)

(** [keysOf]; the count of a scan is read from its value *)
Definition keysOf (cmd : Command) : option (list Key) :=
  if is_op cmd SCAN then
    if (length (cmd_V cmd) <? 8)%nat then None else
    let count := Uint64 (cmd_V cmd) 0 in
    if maxAlloc <? count * 8 then None
    else Some ((fun i => i64 (cmd_K cmd + i)) <$> seqZ 0 count)
  else Some [cmd_K cmd].

(** ** [fullKeyInfo]: the last command of every client, in a slice with an index *)

Record fullKeyInfo := mkFullKeyInfo {
  fk_clientLastWrite : list CommandId;
  fk_clientLastCmd : list CommandId;
  fk_lastWriteIndex : gmap Z nat;
  fk_lastCmdIndex : gmap Z nat }.
Definition newFullKeyInfo : fullKeyInfo := mkFullKeyInfo [] [] ∅ ∅.

(** one slice and its index *)
Definition slot_add (l : list CommandId) (index : gmap Z nat) (cmdId : CommandId) :
    option (list CommandId * gmap Z nat) :=
  match index !! ci_ClientId cmdId with
  | Some i => if (i <? length l)%nat then Some (<[i := cmdId]> l, index) else None
  | None => Some (l ++ [cmdId], <[ci_ClientId cmdId := length l]> index)
  end.
Definition slot_remove (l : list CommandId) (index : gmap Z nat) (cmdId : CommandId) :
    option (list CommandId * gmap Z nat) :=
  match index !! ci_ClientId cmdId with
  | Some i =>
      let lastIndex := (length l - 1)%nat in
      lastId ← l !! lastIndex;
      if (i <? length l)%nat
      then Some (take lastIndex (<[i := lastId]> l),
                 delete (ci_ClientId cmdId) (<[ci_ClientId lastId := i]> index))
      else None
  | None => Some (l, index)
  end.

Definition full_add (ki : fullKeyInfo) (cmd : Command) (cmdId : CommandId) : option fullKeyInfo :=
  '(cmds, ci) ← slot_add (fk_clientLastCmd ki) (fk_lastCmdIndex ki) cmdId;
  if is_op cmd PUT then
    '(writes, wi) ← slot_add (fk_clientLastWrite ki) (fk_lastWriteIndex ki) cmdId;
    Some (mkFullKeyInfo writes cmds wi ci)
  else Some (mkFullKeyInfo (fk_clientLastWrite ki) cmds (fk_lastWriteIndex ki) ci).
Definition full_remove (ki : fullKeyInfo) (cmd : Command) (cmdId : CommandId) : option fullKeyInfo :=
  '(cmds, ci) ← slot_remove (fk_clientLastCmd ki) (fk_lastCmdIndex ki) cmdId;
  if is_op cmd PUT then
    '(writes, wi) ← slot_remove (fk_clientLastWrite ki) (fk_lastWriteIndex ki) cmdId;
    Some (mkFullKeyInfo writes cmds wi ci)
  else Some (mkFullKeyInfo (fk_clientLastWrite ki) cmds (fk_lastWriteIndex ki) ci).
Definition full_getConflictCmds (ki : fullKeyInfo) (cmd : Command) : list CommandId :=
  if is_op cmd GET then fk_clientLastWrite ki else fk_clientLastCmd ki.

(** ** [lightKeyInfo]: the last command *)

Record lightKeyInfo := mkLightKeyInfo { lk_lastWrite : list CommandId; lk_lastCmd : list CommandId }.
Definition newLightKeyInfo : lightKeyInfo := mkLightKeyInfo [] [].
Definition light_add (ki : lightKeyInfo) (cmd : Command) (cmdId : CommandId) : lightKeyInfo :=
  mkLightKeyInfo (if is_op cmd PUT then [cmdId] else lk_lastWrite ki) [cmdId].
Definition drop_first (l : list CommandId) (cmdId : CommandId) : list CommandId :=
  match l with c :: _ => if decide (c = cmdId) then [] else l | [] => [] end.
Definition light_remove (ki : lightKeyInfo) (cmdId : CommandId) : lightKeyInfo :=
  mkLightKeyInfo (drop_first (lk_lastWrite ki) cmdId) (drop_first (lk_lastCmd ki) cmdId).
Definition light_getConflictCmds (ki : lightKeyInfo) (cmd : Command) : list CommandId :=
  if is_op cmd GET then lk_lastWrite ki else lk_lastCmd ki.

(** * Dependencies *)

Definition Dep : Type := list CommandId.
Definition dep_Contains (d : Dep) (cmdId : CommandId) : bool := existsb (fun c => bool_decide (c = cmdId)) d.
Definition NilDepOfCmdId (cmdId : CommandId) : Dep := [cmdId].
Definition IsNilDepOfCmdId (cmdId : CommandId) (dep : Dep) : bool :=
  match dep with [c] => bool_decide (c = cmdId) | _ => false end.

(** a command of one list: it cancels one of the other list that was seen before *)
Definition toggle (c : CommandId) (seen other : gset CommandId) : gset CommandId * gset CommandId :=
  if decide (c ∈ other) then (seen, other ∖ {[c]}) else ({[c]} ∪ seen, other).

(** a turn of the loop of [Equals] and [EqualsAndDiff] *)
Definition dep_turn (c1 c2 : option CommandId) (seen : gset CommandId * gset CommandId) :
    gset CommandId * gset CommandId :=
  let (seen1, seen2) := seen in
  let both_same := match c1, c2 with Some a, Some b => bool_decide (a = b) | _, _ => false end in
  if both_same then (seen1, seen2) else
  let (seen1, seen2) := match c1 with Some c => toggle c seen1 seen2 | None => (seen1, seen2) end in
  match c2 with Some c => let (s2, s1) := toggle c seen2 seen1 in (s1, s2) | None => (seen1, seen2) end.

Fixpoint dep_loop (d1 d2 : Dep) (seen : gset CommandId * gset CommandId) : gset CommandId * gset CommandId :=
  match d1, d2 with
  | [], [] => seen
  | a :: d1, [] => dep_loop d1 [] (dep_turn (Some a) None seen)
  | [], b :: d2 =>
      (fix right (d2 : Dep) seen :=
         match d2 with [] => seen | b :: d2 => right d2 (dep_turn None (Some b) seen) end) d2 (dep_turn None (Some b) seen)
  | a :: d1, b :: d2 => dep_loop d1 d2 (dep_turn (Some a) (Some b) seen)
  end.

Definition dep_Equals (d1 d2 : Dep) : bool :=
  if negb (Nat.eqb (length d1) (length d2)) then false else
  let (seen1, seen2) := dep_loop d1 d2 (∅, ∅) in
  Nat.eqb (size seen1) (size seen2) && Nat.eqb (size seen1) 0.
Definition EqualsAndDiff (d1 d2 : Dep) : bool * gset CommandId :=
  let (seen1, seen2) := dep_loop d1 d2 (∅, ∅) in
  (Nat.eqb (length d1) (length d2) && Nat.eqb (size seen1) (size seen2) && Nat.eqb (size seen1) 0, seen1).

(** * The full information is a map from clients to commands *)

Record slot_repr (l : list CommandId) (index : gmap Z nat) (last : gmap Z CommandId) : Prop := {
  sr_index : forall c i, index !! c = Some i <-> exists id, l !! i = Some id /\ ci_ClientId id = c;
  sr_last : forall c, last !! c = (i ← index !! c; l !! i) }.

Lemma slot_repr_empty : slot_repr [] ∅ ∅.
Proof. split; [|done]. intros c i. split; [done|]. by intros (id & ? & _). Qed.

Lemma slot_repr_inj l index last i j a b : slot_repr l index last ->
  l !! i = Some a -> l !! j = Some b -> ci_ClientId a = ci_ClientId b -> i = j.
Proof.
  intros [Hi _] Ha Hb E. assert (H1 : index !! ci_ClientId a = Some i) by (apply Hi; eauto).
  assert (H2 : index !! ci_ClientId a = Some j) by (apply Hi; eauto). congruence.
Qed.

Lemma slot_add_repr l index last cmdId : slot_repr l index last ->
  exists l' index', slot_add l index cmdId = Some (l', index') /\
    slot_repr l' index' (<[ci_ClientId cmdId := cmdId]> last).
Proof.
  intros Hr. pose proof Hr as [Hi Hl]. unfold slot_add. set (k := ci_ClientId cmdId).
  destruct (index !! k) as [i|] eqn:E.
  - pose proof E as E'. apply Hi in E' as (id & Hid & Hk). apply lookup_lt_Some in Hid as Hlt.
    rewrite (proj2 (Nat.ltb_lt _ _)) by done. do 2 eexists. split; [done|].
    assert (Hi' : forall c j, index !! c = Some j <-> exists id', <[i:=cmdId]> l !! j = Some id' /\ ci_ClientId id' = c).
    { intros c j. destruct (decide (j = i)) as [->|Hne].
      - rewrite list_lookup_insert_eq by done. split.
        + intros Hc. apply Hi in Hc as (id' & Hid' & <-). exists cmdId. split; [done|]. assert (id' = id) as -> by congruence. done.
        + intros (id' & [= <-] & <-). done.
      - rewrite list_lookup_insert_ne by done. apply Hi. }
    split; [done|]. intros c. destruct (decide (c = k)) as [->|Hne].
    + rewrite lookup_insert_eq, E. cbn. by rewrite list_lookup_insert_eq.
    + rewrite lookup_insert_ne by done. rewrite Hl. destruct (index !! c) as [j|] eqn:Ej; [|done]. cbn.
      rewrite list_lookup_insert_ne; [done|]. intros ->. apply Hi in Ej as (id' & Hid' & <-). congruence.
  - do 2 eexists. split; [done|]. split.
    + intros c j. destruct (decide (c = k)) as [->|Hne].
      * rewrite lookup_insert_eq. split.
        -- intros [= <-]. exists cmdId. split; [|done]. by rewrite lookup_app_r, Nat.sub_diag by lia.
        -- intros (id' & Hid' & Hk). apply lookup_app_Some in Hid' as [Hid'|[Hge Hid']].
           ++ assert (index !! k = Some j) by (apply Hi; eauto). congruence.
           ++ destruct (j - length l)%nat eqn:Ed; [|done]. f_equal. lia.
      * rewrite lookup_insert_ne by done. rewrite Hi. split.
        -- intros (id' & Hid' & Hk). exists id'. split; [|done]. by apply lookup_app_l_Some.
        -- intros (id' & Hid' & Hk). exists id'. split; [|done]. apply lookup_app_Some in Hid' as [Hid'|[Hge Hid']]; [done|].
           destruct (j - length l)%nat; [|done]. injection Hid' as <-. by destruct Hne.
    + intros c. destruct (decide (c = k)) as [->|Hne].
      * rewrite !lookup_insert_eq. cbn. by rewrite lookup_app_r, Nat.sub_diag by lia.
      * rewrite !lookup_insert_ne by done. rewrite Hl. destruct (index !! c) as [j|] eqn:Ej; [|done]. cbn.
        apply Hi in Ej as (id' & Hid' & _). rewrite Hid'. symmetry. by apply lookup_app_l_Some.
Qed.

(** the last command moves into the place of the one that goes *)
Lemma slot_remove_repr l index last cmdId : slot_repr l index last ->
  exists l' index', slot_remove l index cmdId = Some (l', index') /\
    slot_repr l' index' (delete (ci_ClientId cmdId) last).
Proof.
  intros Hr. pose proof Hr as [Hi Hl]. unfold slot_remove. set (k := ci_ClientId cmdId).
  destruct (index !! k) as [i|] eqn:E.
  2:{ do 2 eexists. split; [done|]. split; [done|]. intros c. destruct (decide (c = k)) as [->|Hne].
      - by rewrite lookup_delete_eq, E.
      - by rewrite lookup_delete_ne by done. }
  pose proof E as E'. apply Hi in E' as (id & Hid & Hk). apply lookup_lt_Some in Hid as Hlt.
  destruct (lookup_lt_is_Some_2 l (length l - 1)) as [z Hz]; [lia|]. rewrite Hz. cbn [mbind option_bind].
  rewrite (proj2 (Nat.ltb_lt _ _)) by done. do 2 eexists. split; [done|].
  set (n := (length l - 1)%nat) in *.
  assert (Hlook : forall j, take n (<[i:=z]> l) !! j = if decide (j < n)%nat then (if decide (j = i) then Some z else l !! j) else None).
  { intros j. case_decide as Hj; [|by rewrite lookup_take_ge by lia]. rewrite lookup_take_lt by done.
    case_decide as Hji; [subst; by rewrite list_lookup_insert_eq|]. by rewrite list_lookup_insert_ne by done. }
  (* an entry of the new index is one of the old that is neither removed nor moved, or the moved one *)
  assert (Hidx : forall c j, delete k (<[ci_ClientId z := i]> index) !! c = Some j <->
    c <> k /\ (if decide (c = ci_ClientId z) then j = i else index !! c = Some j)).
  { intros c j. rewrite lookup_delete_Some. split; intros [Hne H]; (split; [congruence|]).
    - case_decide as Hc; [subst; rewrite lookup_insert_eq in H; congruence|].
      by rewrite lookup_insert_ne in H by congruence.
    - case_decide as Hc; [subst; by rewrite lookup_insert_eq|]. by rewrite lookup_insert_ne by congruence. }
  assert (Hnew : forall c j, delete k (<[ci_ClientId z := i]> index) !! c = Some j <->
    exists id', take n (<[i:=z]> l) !! j = Some id' /\ ci_ClientId id' = c).
  { intros c j. rewrite Hidx, Hlook. split.
    - intros [Hc H]. case_decide as Hz'.
      + subst j c. exists z. split; [|done]. assert (i <> n) by (intros ->; congruence).
        rewrite decide_True by lia. by rewrite decide_True.
      + apply Hi in H as (id' & Hid' & <-). exists id'. split; [|done].
        assert (j <> n) by (intros ->; congruence). apply lookup_lt_Some in Hid' as Hjlt.
        rewrite decide_True by lia. rewrite decide_False; [done|]. intros ->. congruence.
    - intros (id' & H & <-). destruct (decide (j < n)%nat) as [Hj|]; [|done]. case_decide as Hji.
      + injection H as <-. subst j. rewrite decide_True by done. split; [|done]. intros Ez.
        assert (i = n); [|lia]. eapply (slot_repr_inj l index last _ _ id z); [done|done|done|congruence].
      + split.
        * intros Ek. assert (j = i); [|done].
          eapply (slot_repr_inj l index last _ _ id' id); [done|done|done|congruence].
        * rewrite decide_False; [apply Hi; eauto|]. intros Ez. assert (j = n); [|lia].
          eapply (slot_repr_inj l index last _ _ id' z); [done|done|done|congruence]. }
  split; [exact Hnew|]. intros c. destruct (decide (c = k)) as [->|Hne].
  - by rewrite !lookup_delete_eq.
  - rewrite lookup_delete_ne by done. rewrite Hl. destruct (delete k _ !! c) as [j|] eqn:Ej.
    + pose proof Ej as Ej'. apply Hnew in Ej' as (id' & Hid' & _). cbn. rewrite Hid'.
      apply Hidx in Ej as [_ Ej]. rewrite Hlook in Hid'. destruct (decide (j < n)%nat); [|done].
      destruct (decide (c = ci_ClientId z)) as [->|Hcz].
      * subst j. rewrite decide_True in Hid' by done. injection Hid' as <-.
        assert (index !! ci_ClientId z = Some n) as -> by (apply Hi; eauto). done.
      * rewrite Ej. cbn. destruct (decide (j = i)) as [->|]; [|done].
        apply Hi in Ej as (id'' & Hid'' & <-). congruence.
    + cbn. destruct (index !! c) as [j|] eqn:Ec; [|done]. exfalso. destruct (decide (c = ci_ClientId z)) as [->|Hcz].
      * assert (Some i = None); [|done]. rewrite <- Ej. symmetry. apply Hidx. by rewrite decide_True.
      * assert (Some j = None); [|done]. rewrite <- Ej. symmetry. apply Hidx. by rewrite decide_False.
Qed.

(** the slice holds the map's values *)
Lemma slot_repr_values l index last : slot_repr l index last -> l ≡ₚ (map_to_list last).*2.
Proof.
  intros Hr. pose proof Hr as [Hi Hl].
  assert (Hnd : NoDup ((fun id => (ci_ClientId id, id)) <$> l)).
  { apply NoDup_fmap_2; [by intros ?? [= _ ?]|]. apply NoDup_alt. intros i j x Hx Hy. by eapply slot_repr_inj. }
  assert (E : (fun id => (ci_ClientId id, id)) <$> l ≡ₚ map_to_list last).
  { apply NoDup_Permutation; [done|apply NoDup_map_to_list|]. intros [c id]. rewrite elem_of_map_to_list, Hl. split.
    - intros H. apply list_elem_of_fmap in H as (id' & [= -> ->] & H). apply list_elem_of_lookup_1 in H as [i H].
      assert (index !! ci_ClientId id' = Some i) as -> by (apply Hi; eauto). done.
    - destruct (index !! c) as [i|] eqn:E; [|done]. cbn. intros H. apply Hi in E as (id' & Hid' & <-).
      assert (id' = id) as -> by congruence. apply list_elem_of_fmap. exists id. split; [done|]. by eapply list_elem_of_lookup_2. }
  apply (fmap_Permutation snd) in E. rewrite <- list_fmap_compose in E. etrans; [|exact E].
  clear. induction l as [|c l IH]; cbn; [done|]. by f_equiv.
Qed.

(** ** Runs *)

Inductive key_op := KAdd (cmd : Command) (cmdId : CommandId) | KRemove (cmd : Command) (cmdId : CommandId).
Definition full_op (ki : fullKeyInfo) (o : key_op) : option fullKeyInfo :=
  match o with KAdd cmd id => full_add ki cmd id | KRemove cmd id => full_remove ki cmd id end.
Fixpoint full_run (ki : fullKeyInfo) (os : list key_op) : option fullKeyInfo :=
  match os with [] => Some ki | o :: os => ki ← full_op ki o; full_run ki os end.

(** the abstract object: the last command and the last write of every client *)
Record last_commands := mkLast { lc_cmd : gmap Z CommandId; lc_write : gmap Z CommandId }.
Definition last_op (s : last_commands) (o : key_op) : last_commands :=
  match o with
  | KAdd cmd id =>
      mkLast (<[ci_ClientId id := id]> (lc_cmd s))
        (if is_op cmd PUT then <[ci_ClientId id := id]> (lc_write s) else lc_write s)
  | KRemove cmd id =>
      mkLast (delete (ci_ClientId id) (lc_cmd s))
        (if is_op cmd PUT then delete (ci_ClientId id) (lc_write s) else lc_write s)
  end.

Definition full_repr (ki : fullKeyInfo) (s : last_commands) : Prop :=
  slot_repr (fk_clientLastCmd ki) (fk_lastCmdIndex ki) (lc_cmd s) /\
  slot_repr (fk_clientLastWrite ki) (fk_lastWriteIndex ki) (lc_write s).

Lemma full_op_repr ki s o : full_repr ki s -> exists ki', full_op ki o = Some ki' /\ full_repr ki' (last_op s o).
Proof.
  intros [Hc Hw]. destruct o as [cmd id|cmd id]; cbn [full_op last_op].
  - unfold full_add. destruct (slot_add_repr _ _ _ id Hc) as (l & i & -> & H1). cbn [mbind option_bind].
    destruct (is_op cmd PUT); [|by eexists].
    destruct (slot_add_repr _ _ _ id Hw) as (l2 & i2 & -> & H2). cbn [mbind option_bind]. by eexists.
  - unfold full_remove. destruct (slot_remove_repr _ _ _ id Hc) as (l & i & -> & H1). cbn [mbind option_bind].
    destruct (is_op cmd PUT); [|by eexists].
    destruct (slot_remove_repr _ _ _ id Hw) as (l2 & i2 & -> & H2). cbn [mbind option_bind]. by eexists.
Qed.

Lemma full_run_repr os : forall ki s, full_repr ki s ->
  exists ki', full_run ki os = Some ki' /\ full_repr ki' (foldl last_op s os).
Proof.
  induction os as [|o os IH]; intros ki s H; cbn [full_run foldl]; [by exists ki|].
  destruct (full_op_repr ki s o H) as (ki1 & -> & H1). cbn [mbind option_bind]. by apply IH.
Qed.

Lemma newFullKeyInfo_repr : full_repr newFullKeyInfo (mkLast ∅ ∅).
Proof. split; apply slot_repr_empty. Qed.

(** * Comparing dependencies *)

(** what the loop keeps, for lists without repetition: the commands of one part that
    the other has not *)
Definition seen_of (d1 d2 : Dep) : gset CommandId := list_to_set d1 ∖ list_to_set d2.

Lemma toggle_spec c (a b : gset CommandId) : c ∉ a -> toggle c (a ∖ b) (b ∖ a) = (({[c]} ∪ a) ∖ b, b ∖ ({[c]} ∪ a)).
Proof. intros Hc. unfold toggle. case_decide as H; f_equal; set_solver. Qed.

Lemma dep_turn_spec c1 c2 (a b : gset CommandId) :
  (forall c, c1 = Some c -> c ∉ a) -> (forall c, c2 = Some c -> c ∉ b) ->
  dep_turn c1 c2 (a ∖ b, b ∖ a) =
    (let a' := match c1 with Some c => {[c]} ∪ a | None => a end in
     let b' := match c2 with Some c => {[c]} ∪ b | None => b end in (a' ∖ b', b' ∖ a')).
Proof.
  intros H1 H2. unfold dep_turn.
  destruct c1 as [x|], c2 as [y|]; cbn zeta.
  - case_bool_decide as Hxy.
    + subst y. specialize (H1 x eq_refl). specialize (H2 x eq_refl). f_equal; set_solver.
    + rewrite toggle_spec by (by apply H1). rewrite toggle_spec by (by apply H2). done.
  - by rewrite toggle_spec by (by apply H1).
  - by rewrite toggle_spec by (by apply H2).
  - done.
Qed.

Lemma dep_loop_spec d1 : forall d2 (a b : gset CommandId),
  NoDup d1 -> NoDup d2 -> (forall c, c ∈ d1 -> c ∉ a) -> (forall c, c ∈ d2 -> c ∉ b) ->
  dep_loop d1 d2 (a ∖ b, b ∖ a) =
    ((list_to_set d1 ∪ a) ∖ (list_to_set d2 ∪ b), (list_to_set d2 ∪ b) ∖ (list_to_set d1 ∪ a)).
Proof.
  induction d1 as [|x d1 IH]; intros d2 a b Hd1 Hd2 Ha Hb.
  - cbn [list_to_set]. rewrite (left_id_L ∅ (∪) a). revert a b Ha Hb. induction d2 as [|y d2 IH2]; intros a b Ha Hb.
    { cbn. by rewrite (left_id_L ∅ (∪) b). }
    apply NoDup_cons in Hd2 as [Hy Hd2]. transitivity (dep_loop [] d2 (dep_turn None (Some y) (a ∖ b, b ∖ a))).
    { by destruct d2. }
    rewrite dep_turn_spec; [|done|intros c [= <-]; apply Hb; set_solver]. cbn zeta. rewrite IH2; [|done|set_solver|].
    + cbn [list_to_set]. rewrite (assoc_L (∪)), (comm_L (∪) (list_to_set d2) {[y]}). done.
    + intros c Hc. pose proof (Hb c ltac:(set_solver)). set_solver.
  - apply NoDup_cons in Hd1 as [Hx Hd1]. destruct d2 as [|y d2]; cbn [dep_loop].
    + rewrite dep_turn_spec; [|intros c [= <-]; apply Ha; set_solver|done]. cbn zeta. rewrite IH; [|done|done| |done].
      * cbn [list_to_set]. rewrite (assoc_L (∪)), (comm_L (∪) (list_to_set d1) {[x]}). done.
      * intros c Hc. pose proof (Ha c ltac:(set_solver)). set_solver.
    + apply NoDup_cons in Hd2 as [Hy Hd2].
      rewrite dep_turn_spec; [|intros c [= <-]; apply Ha; set_solver|intros c [= <-]; apply Hb; set_solver]. cbn zeta.
      rewrite IH; [|done|done| |].
      * cbn [list_to_set]. rewrite !(assoc_L (∪)), (comm_L (∪) (list_to_set d1) {[x]}), (comm_L (∪) (list_to_set d2) {[y]}). done.
      * intros c Hc. pose proof (Ha c ltac:(set_solver)). set_solver.
      * intros c Hc. pose proof (Hb c ltac:(set_solver)). set_solver.
Qed.

Lemma dep_loop_start d1 d2 : NoDup d1 -> NoDup d2 -> dep_loop d1 d2 (∅, ∅) = (seen_of d1 d2, seen_of d2 d1).
Proof.
  intros H1 H2. pose proof (dep_loop_spec d1 d2 ∅ ∅ H1 H2) as H.
  rewrite difference_diag_L, !(right_id_L ∅ (∪)) in H. apply H; intros; apply not_elem_of_empty.
Qed.

Lemma seen_of_empty d1 d2 : Nat.eqb (size (seen_of d1 d2)) 0 = true <-> (forall c, c ∈ d1 -> c ∈ d2).
Proof.
  unfold seen_of. rewrite Nat.eqb_eq, size_empty_iff. split.
  - intros H c Hc. destruct (decide (c ∈ d2)) as [|Hn]; [done|]. set_solver.
  - set_solver.
Qed.

(** * The log of a key's hashes of SwiftPaxos ([src/swift/dpath.go]): a doubly linked list
    of the commands that are not synced yet, and the hash of the whole sequence; with
    [getDepAndHashes], [updateLogs] of [src/swift/swift.go].

    A [*HashNode] is an address of the log's heap.  SHA-256 is a parameter.  A slice
    index out of range is a panic, [None]. *)

Record HashNode := mkHashNode { hn_id : CommandId; hn_next : option nat; hn_previous : option nat }.
Record UpdateEntry := mkUpdateEntry { ue_hash : list SHash; ue_seqnum : Z }.

Record HashLog := mkHashLog {
  hl_synced : Z;
  hl_syncedHash : SHash;
  hl_pendingHead : option nat;
  hl_pendingTail : option nat;
  hl_hash : SHash;
  hl_nodes : gmap CommandId nat;
  hl_pendingUpd : gmap CommandId UpdateEntry;
  hl_heap : gmap nat HashNode }.
#[export] Instance eta_HashLog : Eta HashLog := fun r =>
  mkHashLog (hl_synced r) (hl_syncedHash r) (hl_pendingHead r) (hl_pendingTail r) (hl_hash r) (hl_nodes r)
    (hl_pendingUpd r) (hl_heap r).

Definition NewHashLog : HashLog := mkHashLog (-1) SHash_zero None None SHash_zero ∅ ∅ ∅.

(** [node.next = p], [node.previous = p] *)
Definition set_next (h : gmap nat HashNode) (a : nat) (p : option nat) : gmap nat HashNode :=
  alter (fun n => mkHashNode (hn_id n) p (hn_previous n)) a h.
Definition set_previous (h : gmap nat HashNode) (a : nat) (p : option nat) : gmap nat HashNode :=
  alter (fun n => mkHashNode (hn_id n) (hn_next n) p) a h.

Section hashlog.
Context (Sum256 : list byte -> list byte).

(** [hash] *)
Definition hash (initial : SHash) (cmdId : CommandId) : SHash :=
  mkSHash (Sum256 (sh_H initial ++ le32 (ci_ClientId cmdId) ++ le32 (ci_SeqNum cmdId))).

(** the loop over the list from [n]; [fuel] is a bound on its length *)
Fixpoint hash_list (fuel : nat) (h : gmap nat HashNode) (n : option nat) (initial : SHash) : SHash :=
  match fuel, n with
  | S fuel, Some a =>
      match h !! a with
      | Some nd => hash_list fuel h (hn_next nd) (hash initial (hn_id nd))
      | None => initial
      end
  | _, _ => initial
  end.

(** the node [a] leaves the list *)
Definition unlink (l : HashLog) (a : nat) : HashLog :=
  match hl_heap l !! a with
  | None => l
  | Some n =>
      let previous := hn_previous n in
      let next := hn_next n in
      let h := match previous with Some p => set_next (hl_heap l) p next | None => hl_heap l end in
      let h := match next with Some x => set_previous h x previous | None => h end in
      let l := if decide (hl_pendingHead l = Some a) then l <| hl_pendingHead := next |> else l in
      let l := if decide (hl_pendingTail l = Some a) then l <| hl_pendingTail := previous |> else l in
      l <| hl_heap := set_next (set_previous h a None) a None |>
  end.

Definition update (l : HashLog) (cmdId : CommandId) (s : Z) (h : SHash) (save : bool) : HashLog :=
  match hl_nodes l !! cmdId with
  | None =>
      if save then l <| hl_pendingUpd ::= <[cmdId := mkUpdateEntry [h] s]> |>
      else if s <=? hl_synced l then l
      else
        let l := l <| hl_synced := s |> <| hl_syncedHash := h |> in
        l <| hl_hash := hash_list (size (hl_heap l)) (hl_heap l) (hl_pendingHead l) h |>
  | Some a =>
      let l := (unlink l a) <| hl_nodes ::= delete cmdId |> in
      let l := if hl_synced l <? s then l <| hl_synced := s |> <| hl_syncedHash := h |> else l in
      l <| hl_hash := hash_list (size (hl_heap l)) (hl_heap l) (hl_pendingHead l) (hl_syncedHash l) |>
  end.
Definition Update (l : HashLog) (cmdId : CommandId) (s : Z) (h : SHash) : HashLog := update l cmdId s h true.

Definition Append (l : HashLog) (cmdId : CommandId) : option (HashLog * SHash) :=
  match hl_pendingUpd l !! cmdId with
  | Some upd =>
      h ← head (ue_hash upd);
      Some (update (l <| hl_pendingUpd ::= delete cmdId |>) cmdId (ue_seqnum upd) h false, h)
  | None =>
      let node := fresh (dom (hl_heap l)) in
      let l := l <| hl_heap ::= <[node := mkHashNode cmdId None None]> |> <| hl_nodes ::= <[cmdId := node]> |> in
      match hl_pendingHead l with
      | None =>
          let h := hash (hl_syncedHash l) cmdId in
          Some (l <| hl_pendingHead := Some node |> <| hl_hash := h |>, h)
      | Some hd =>
          let h := hash (hl_hash l) cmdId in
          let last := match hl_pendingTail l with Some t => t | None => hd end in
          Some (l <| hl_heap ::= fun m => set_previous (set_next m last (Some node)) node (Some last) |>
                  <| hl_pendingTail := Some node |> <| hl_hash := h |>, h)
      end
  end.

(** ** A replica's logs *)

Record key_logs := mkKeyLogs { kl_keys : gmap Z lightKeyInfo; kl_hlog : gmap Z HashLog }.

(** one key of [getDepAndHashes] *)
Definition dep_and_hash (cmd : Command) (cmdId : CommandId) (st : key_logs) (key : Z) :
    option (key_logs * list CommandId * SHash) :=
  let info := kl_keys st !! key in
  let cdep := match info with Some info => light_getConflictCmds info cmd | None => [] end in
  '(l, h) ← Append (default NewHashLog (kl_hlog st !! key)) cmdId;
  Some (mkKeyLogs (<[key := light_add (default newLightKeyInfo info) cmd cmdId]> (kl_keys st)) (<[key := l]> (kl_hlog st)),
        cdep, h).
Fixpoint dep_and_hashes (cmd : Command) (cmdId : CommandId) (st : key_logs) (keys : list Z) :
    option (key_logs * list CommandId * list SHash) :=
  match keys with
  | [] => Some (st, [], [])
  | k :: keys =>
      '(st, d, h) ← dep_and_hash cmd cmdId st k;
      '(st, ds, hs) ← dep_and_hashes cmd cmdId st keys;
      Some (st, d ++ ds, h :: hs)
  end.
Definition getDepAndHashes (st : key_logs) (cmd : Command) (cmdId : CommandId) :
    option (key_logs * list CommandId * list SHash) :=
  keys ← keysOf cmd; dep_and_hashes cmd cmdId st keys.

(** [None] also where the code ends the process: the numbers differ *)
Fixpoint update_keys (st : key_logs) (cmdId : CommandId) (s : Z) (khs : list (Z * SHash)) : key_logs :=
  match khs with
  | [] => st
  | (k, h) :: khs =>
      update_keys (mkKeyLogs (kl_keys st) (<[k := Update (default NewHashLog (kl_hlog st !! k)) cmdId s h]> (kl_hlog st)))
        cmdId s khs
  end.
Definition updateLogs (st : key_logs) (cmd : Command) (cmdId : CommandId) (s : Z) (hs : list SHash) : option key_logs :=
  keys ← keysOf cmd;
  if Nat.eqb (length keys) (length hs) then Some (update_keys st cmdId s (zip keys hs)) else None.

(** * The list *)

(** the nodes [l] in the heap, with their commands: linked both ways, from [prev] to
    [next] *)
Fixpoint seg (h : gmap nat HashNode) (prev : option nat) (l : list (nat * CommandId)) (next : option nat) : Prop :=
  match l with
  | [] => True
  | (a, id) :: l =>
      h !! a = Some (mkHashNode id (match l with (b, _) :: _ => Some b | [] => next end) prev) /\ seg h (Some a) l next
  end.

Definition first_of (l : list (nat * CommandId)) (next : option nat) : option nat :=
  match l with (b, _) :: _ => Some b | [] => next end.
Definition last_of (l : list (nat * CommandId)) (prev : option nat) : option nat :=
  match last l with Some (b, _) => Some b | None => prev end.

Lemma last_of_cons a id l prev : last_of ((a, id) :: l) prev = last_of l (Some a).
Proof.
  unfold last_of. destruct l as [|[b id'] l]; [done|]. rewrite last_cons_cons.
  destruct (last ((b, id') :: l)) eqn:E; [done|]. by apply last_None in E.
Qed.
Lemma last_of_snoc l a id prev : last_of (l ++ [(a, id)]) prev = Some a.
Proof. unfold last_of. by rewrite last_snoc. Qed.

Lemma seg_app h l1 : forall prev l2 next,
  seg h prev (l1 ++ l2) next <-> seg h prev l1 (first_of l2 next) /\ seg h (last_of l1 prev) l2 next.
Proof.
  induction l1 as [|[a id] l1 IH]; intros prev l2 next; [unfold last_of; cbn; tauto|].
  rewrite last_of_cons. cbn [app seg]. rewrite IH.
  assert (E : match l1 ++ l2 with (b, _) :: _ => Some b | [] => next end =
    match l1 with (b, _) :: _ => Some b | [] => first_of l2 next end) by (destruct l1 as [|[]]; [by destruct l2 as [|[]]|done]).
  rewrite E. tauto.
Qed.

(** what is not of the list does not matter *)
Lemma seg_frame h h' l : forall prev next, (forall a, a ∈ l.*1 -> h' !! a = h !! a) ->
  seg h prev l next -> seg h' prev l next.
Proof.
  induction l as [|[a id] l IH]; intros prev next Hh; [done|]. cbn [seg]. intros [Ha Hl]. split.
  - rewrite Hh by (cbn; set_solver). exact Ha.
  - apply IH; [|done]. intros b Hb. apply Hh. cbn. set_solver.
Qed.

Lemma seg_set_next h l a id prev next next' : NoDup (l ++ [(a, id)]).*1 ->
  seg h prev (l ++ [(a, id)]) next -> seg (set_next h a next') prev (l ++ [(a, id)]) next'.
Proof.
  intros Hnd. rewrite !seg_app. intros [Hl [Ha _]]. rewrite fmap_app, NoDup_app in Hnd. destruct Hnd as (_ & Hnd & _).
  split; [|split; [|done]].
  - eapply seg_frame; [|exact Hl]. intros b Hb. unfold set_next. rewrite lookup_alter_ne; [done|]. intros <-.
    apply (Hnd a Hb). cbn. set_solver.
  - unfold set_next. by rewrite (lookup_alter_eq (M := gmap nat)), Ha.
Qed.
Lemma seg_set_previous h l a id prev prev' next : NoDup ((a, id) :: l).*1 ->
  seg h prev ((a, id) :: l) next -> seg (set_previous h a prev') prev' ((a, id) :: l) next.
Proof.
  intros Hnd [Ha Hl]. cbn in Hnd. apply NoDup_cons in Hnd as [Hnd _]. split.
  - unfold set_previous. by rewrite (lookup_alter_eq (M := gmap nat)), Ha.
  - eapply seg_frame; [|exact Hl]. intros b Hb. unfold set_previous. rewrite lookup_alter_ne; [done|]. by intros <-.
Qed.

Lemma hash_list_seg h l : forall fuel prev initial, (length l <= fuel)%nat -> seg h prev l None ->
  hash_list fuel h (first_of l None) initial = foldl hash initial l.*2.
Proof.
  induction l as [|[a id] l IH]; intros fuel prev initial Hf Hs; [by destruct fuel|].
  destruct fuel as [|fuel]; [cbn in Hf; lia|]. destruct Hs as [Ha Hl]. cbn [first_of hash_list fmap list_fmap foldl snd].
  rewrite Ha. cbn [hn_next hn_id]. apply (IH fuel (Some a)); [cbn in Hf; lia|done].
Qed.

Lemma seg_size h l prev next : NoDup l.*1 -> seg h prev l next -> (length l <= size h)%nat.
Proof.
  intros Hnd Hs. rewrite <- (length_fmap fst), <- (size_list_to_set (C := gset nat)) by done.
  rewrite <- (size_dom (D := gset nat)). apply subseteq_size. intros a Ha. apply elem_of_list_to_set in Ha.
  clear Hnd. revert prev Hs Ha. induction l as [|[b id] l IH]; intros prev Hs Ha; [by apply elem_of_nil in Ha|].
  destruct Hs as [Hb Hl]. cbn in Ha. apply elem_of_cons in Ha as [->|Ha]; [by apply elem_of_dom; eexists|by eapply IH].
Qed.

(** * The abstract log: what is synced, the commands after it, and the updates that
    came before their command *)

Record list_log := mkListLog {
  ll_synced : Z;
  ll_syncedHash : SHash;
  ll_pending : list CommandId;
  ll_early : gmap CommandId (SHash * Z) }.

Definition ll_hash (sp : list_log) : SHash := foldl hash (ll_syncedHash sp) (ll_pending sp).
Definition ll_sync (sp : list_log) (s : Z) (h : SHash) : list_log :=
  if ll_synced sp <? s then mkListLog s h (ll_pending sp) (ll_early sp) else sp.
Definition ll_drop (sp : list_log) (cmdId : CommandId) : list_log :=
  mkListLog (ll_synced sp) (ll_syncedHash sp) (filter (fun c => c <> cmdId) (ll_pending sp)) (ll_early sp).

Definition ll_Update (sp : list_log) (cmdId : CommandId) (s : Z) (h : SHash) : list_log :=
  if decide (cmdId ∈ ll_pending sp) then ll_sync (ll_drop sp cmdId) s h
  else mkListLog (ll_synced sp) (ll_syncedHash sp) (ll_pending sp) (<[cmdId := (h, s)]> (ll_early sp)).
Definition ll_Append (sp : list_log) (cmdId : CommandId) : list_log * SHash :=
  match ll_early sp !! cmdId with
  | Some (h, s) => (ll_sync (mkListLog (ll_synced sp) (ll_syncedHash sp) (ll_pending sp) (delete cmdId (ll_early sp))) s h, h)
  | None =>
      let sp := mkListLog (ll_synced sp) (ll_syncedHash sp) (ll_pending sp ++ [cmdId]) (ll_early sp) in
      (sp, ll_hash sp)
  end.

Definition early_entry (hs : SHash * Z) : UpdateEntry := mkUpdateEntry [hs.1] hs.2.

Record log_repr (l : HashLog) (pend : list (nat * CommandId)) (sp : list_log) : Prop := {
  lr_nodup : NoDup pend.*1;
  lr_ids : NoDup pend.*2;
  lr_seg : seg (hl_heap l) None pend None;
  lr_head : hl_pendingHead l = first_of pend None;
  lr_tail : hl_pendingTail l = last_of pend None \/ (hl_pendingTail l = None /\ (length pend <= 1)%nat);
  lr_nodes : forall id a, hl_nodes l !! id = Some a <-> (a, id) ∈ pend;
  lr_pending : pend.*2 = ll_pending sp;
  lr_synced : hl_synced l = ll_synced sp;
  lr_syncedHash : hl_syncedHash l = ll_syncedHash sp;
  lr_hash : hl_hash l = ll_hash sp;
  lr_early : hl_pendingUpd l = early_entry <$> ll_early sp }.

Definition new_list_log : list_log := mkListLog (-1) SHash_zero [] ∅.
Lemma NewHashLog_repr : log_repr NewHashLog [] new_list_log.
Proof.
  split; [apply NoDup_nil_2|apply NoDup_nil_2|done|done|by left| |done|done|done|done|symmetry; apply fmap_empty].
  intros id a. split; [done|]. by intros ?%elem_of_nil.
Qed.

Lemma rehash l pend h : NoDup pend.*1 -> seg (hl_heap l) None pend None -> hl_pendingHead l = first_of pend None ->
  hash_list (size (hl_heap l)) (hl_heap l) (hl_pendingHead l) h = foldl hash h pend.*2.
Proof. intros Hnd Hs ->. eapply hash_list_seg; [|exact Hs]. by eapply seg_size. Qed.

(** ** Unlinking a node *)

Lemma seg_unlink h p1 a id p2 : NoDup (p1 ++ (a, id) :: p2).*1 -> seg h None (p1 ++ (a, id) :: p2) None ->
  let previous := last_of p1 None in
  let next := first_of p2 None in
  h !! a = Some (mkHashNode id next previous) /\
  seg (let h := match previous with Some p => set_next h p next | None => h end in
       match next with Some x => set_previous h x previous | None => h end) None (p1 ++ p2) None.
Proof.
  intros Hnd Hs previous next. apply seg_app in Hs as [H1 [Ha H2]]. cbn [first_of] in H1.
  split; [exact Ha|]. rewrite fmap_app, NoDup_app in Hnd. destruct Hnd as (Hn1 & Hd & Hn2).
  cbn [fmap list_fmap] in Hd, Hn2. apply NoDup_cons in Hn2 as [Hna Hn2].
  assert (Hdis : forall b, b ∈ p1.*1 -> b ∉ p2.*1).
  { intros b Hb Hb2. apply (Hd b Hb). cbn. apply elem_of_cons. by right. }
  set (h1 := match previous with Some p => set_next h p next | None => h end).
  assert (H1' : seg h1 None p1 next /\ seg h1 (Some a) p2 None).
  { unfold h1, previous. destruct p1 as [|[b idb] q] using rev_ind; [done|clear IHq]. rewrite last_of_snoc. split.
    - by eapply seg_set_next.
    - eapply seg_frame; [|exact H2]. intros c Hc. unfold set_next. rewrite lookup_alter_ne; [done|]. intros <-.
      apply (Hdis b); [|exact Hc]. rewrite fmap_app. cbn. set_solver. }
  clearbody h1. destruct H1' as [H1' H2']. cbv zeta. apply seg_app. fold next previous.
  destruct p2 as [|[b idb] q]; cbn [first_of] in next; unfold next in *; [done|]. split.
  - eapply seg_frame; [|exact H1']. intros c Hc. unfold set_previous. rewrite lookup_alter_ne; [done|]. intros <-.
    apply (Hdis b Hc). cbn. set_solver.
  - by eapply seg_set_previous.
Qed.

Lemma node_split a id (pend : list (nat * CommandId)) : (a, id) ∈ pend -> exists p1 p2, pend = p1 ++ (a, id) :: p2.
Proof. intros H. by apply list_elem_of_split in H. Qed.

Lemma filter_drop id (p1 p2 : list (nat * CommandId)) a : NoDup (p1 ++ (a, id) :: p2).*2 ->
  filter (fun c => c <> id) (p1 ++ (a, id) :: p2).*2 = (p1 ++ p2).*2.
Proof.
  rewrite !fmap_app. cbn [fmap list_fmap snd]. intros Hnd. rewrite filter_app, filter_cons_False by (intros []; done).
  apply NoDup_app in Hnd as (_ & Hd & Hn2). apply NoDup_cons in Hn2 as [Hn2 _].
  assert (Hall : forall l : list CommandId, id ∉ l -> filter (fun c => c <> id) l = l).
  { clear. intros l. induction l as [|c l IH]; intros Hid; [done|].
    rewrite filter_cons_True by set_solver. f_equal. apply IH. set_solver. }
  rewrite !Hall; [done|exact Hn2|]. intros Hin. apply (Hd id Hin). set_solver.
Qed.

Lemma NoDup_drop_mid {A} (l1 l2 : list A) x : NoDup (l1 ++ x :: l2) -> NoDup (l1 ++ l2).
Proof.
  rewrite !NoDup_app, NoDup_cons. intros (H1 & Hd & _ & H2). split_and!; [done| |done]. intros y Hy Hy2.
  apply (Hd y Hy). apply elem_of_cons. by right.
Qed.

Definition tail_ok (tail : option nat) (pend : list (nat * CommandId)) : Prop :=
  tail = last_of pend None \/ (tail = None /\ (length pend <= 1)%nat).

Lemma last_of_app l1 l2 prev : last_of (l1 ++ l2) prev = last_of l2 (last_of l1 prev).
Proof.
  unfold last_of. destruct l2 as [|x l2] using rev_ind; [by rewrite app_nil_r|].
  by rewrite (assoc_L (++)), !last_snoc.
Qed.
Lemma last_of_in l prev a : last_of l prev = Some a -> prev = Some a \/ a ∈ l.*1.
Proof.
  unfold last_of. destruct l as [|[b id] l] using rev_ind; [by left|]. rewrite last_snoc. intros [= ->]. right.
  rewrite fmap_app. cbn. set_solver.
Qed.

Lemma unlink_spec l p1 a id p2 :
  let pend := p1 ++ (a, id) :: p2 in
  NoDup pend.*1 -> seg (hl_heap l) None pend None -> hl_pendingHead l = first_of pend None -> tail_ok (hl_pendingTail l) pend ->
  let l' := unlink l a in
  seg (hl_heap l') None (p1 ++ p2) None /\ hl_pendingHead l' = first_of (p1 ++ p2) None /\
  tail_ok (hl_pendingTail l') (p1 ++ p2) /\
  (hl_synced l' = hl_synced l /\ hl_syncedHash l' = hl_syncedHash l /\ hl_nodes l' = hl_nodes l /\
   hl_pendingUpd l' = hl_pendingUpd l).
Proof.
  intros pend Hnd Hs Hhd Htl l'. destruct (seg_unlink _ _ _ _ _ Hnd Hs) as [Ha Hs']. cbv zeta in Ha, Hs'.
  assert (Hna : a ∉ (p1 ++ p2).*1).
  { unfold pend in Hnd. rewrite fmap_app in Hnd. cbn in Hnd. rewrite fmap_app. apply NoDup_app in Hnd as (_ & Hd & Hn2).
    apply NoDup_cons in Hn2 as [Hn2 _]. intros [Hin|Hin]%elem_of_app; [|done]. apply (Hd a Hin). set_solver. }
  unfold l', unlink. rewrite Ha. cbn [hn_previous hn_next].
  set (lh := if decide (hl_pendingHead l = Some a) then _ else l).
  assert (Eh : hl_pendingHead lh = first_of (p1 ++ p2) None /\ hl_pendingTail lh = hl_pendingTail l /\
    hl_synced lh = hl_synced l /\ hl_syncedHash lh = hl_syncedHash l /\ hl_nodes lh = hl_nodes l /\ hl_pendingUpd lh = hl_pendingUpd l).
  { unfold lh. rewrite Hhd. unfold pend. destruct p1 as [|[b idb] p1]; cbn [app first_of].
    - rewrite decide_True by done. split; [by rsimpl|]. split_and!; by rsimpl.
    - rewrite decide_False; [|intros [= ->]; apply Hna; cbn; set_solver]. split; [exact Hhd|done]. }
  clearbody lh. destruct Eh as (E1 & E2 & E3 & E4 & E5 & E6).
  set (lt := if decide (hl_pendingTail lh = Some a) then _ else lh).
  assert (Et : tail_ok (hl_pendingTail lt) (p1 ++ p2) /\ hl_pendingHead lt = hl_pendingHead lh /\
    hl_synced lt = hl_synced lh /\ hl_syncedHash lt = hl_syncedHash lh /\ hl_nodes lt = hl_nodes lh /\ hl_pendingUpd lt = hl_pendingUpd lh).
  { assert (Hlast : last_of pend None = last_of p2 (Some a)) by (unfold pend; by rewrite last_of_app, last_of_cons).
    assert (Hp2 : p2 = [] \/ (last_of p2 (Some a) <> Some a /\ last_of p2 (Some a) = last_of (p1 ++ p2) None)).
    { destruct p2 as [|x p2]; [by left|right]. split.
      - intros H. rewrite <- Hlast in H. destruct x as [c idc]. rewrite Hlast, last_of_cons in H.
        apply last_of_in in H as [[= ->]|H]; apply Hna; rewrite fmap_app; cbn; set_solver.
      - destruct x as [c idc]. by rewrite last_of_app, !last_of_cons. }
    unfold lt. rewrite E2. destruct (decide (hl_pendingTail l = Some a)) as [Hta|Hta].
    - split; [|split_and!; by rsimpl]. rsimpl. destruct Hp2 as [->|[Hne _]]; [left; by rewrite app_nil_r|].
      destruct Htl as [Htl|[Htl _]]; congruence.
    - split; [|done]. rewrite E2. destruct Htl as [Htl|[Htl Hlen]].
      + destruct Hp2 as [->|[_ Heq]]; [|left; congruence]. destruct Hta. by rewrite Htl.
      + right. split; [done|]. unfold pend in Hlen. rewrite !length_app in *. cbn in Hlen. lia. }
  clearbody lt. destruct Et as (F1 & F2 & F3 & F4 & F5 & F6).
  split_and!; rsimpl; try congruence.
  eapply seg_frame; [|exact Hs']. intros b Hb. unfold set_next at 1, set_previous at 1.
  rewrite !lookup_alter_ne by (intros <-; done). done.
Qed.

Lemma update_pending l pend sp id s h save : log_repr l pend sp -> id ∈ ll_pending sp ->
  exists pend', log_repr (update l id s h save) pend' (ll_sync (ll_drop sp id) s h).
Proof.
  intros [R1 R2 R3 R4 R5 R6 R7 R8 R9 R10 R11] Hid. rewrite <- R7 in Hid.
  apply list_elem_of_fmap in Hid as ([a id'] & -> & Hin). cbn [snd]. pose proof (proj2 (R6 id' a) Hin) as Hna.
  destruct (node_split a id' pend Hin) as (p1 & p2 & ->). exists (p1 ++ p2).
  destruct (unlink_spec l p1 a id' p2 R1 R3 R4 R5) as (U1 & U2 & U3 & U4 & U5 & U6 & U7).
  assert (N1 : NoDup (p1 ++ p2).*1 /\ NoDup (p1 ++ p2).*2).
  { rewrite (fmap_app fst) in R1. rewrite (fmap_app snd) in R2. rewrite !fmap_app. split; by eapply NoDup_drop_mid. }
  unfold update. rewrite Hna. set (u := unlink l a) in *. clearbody u.
  set (v := u <| hl_nodes ::= delete id' |>).
  assert (V : hl_heap v = hl_heap u /\ hl_pendingHead v = hl_pendingHead u /\ hl_pendingTail v = hl_pendingTail u /\
    hl_synced v = hl_synced l /\ hl_syncedHash v = hl_syncedHash l /\ hl_nodes v = delete id' (hl_nodes l) /\
    hl_pendingUpd v = hl_pendingUpd l).
  { unfold v. split_and!; rsimpl; congruence. }
  clearbody v. destruct V as (V1 & V2 & V3 & V4 & V5 & V6 & V7).
  set (w := if hl_synced v <? s then _ else v).
  assert (Wk : hl_heap w = hl_heap u /\ hl_pendingHead w = hl_pendingHead u /\ hl_pendingTail w = hl_pendingTail u /\
    hl_nodes w = delete id' (hl_nodes l) /\ hl_pendingUpd w = hl_pendingUpd l /\
    hl_synced w = ll_synced (ll_sync (ll_drop sp id') s h) /\ hl_syncedHash w = ll_syncedHash (ll_sync (ll_drop sp id') s h)).
  { unfold w, ll_sync, ll_drop. cbn [ll_synced]. rewrite V4, R8.
    destruct (ll_synced sp <? s); cbn [ll_synced ll_syncedHash]; split_and!; rsimpl; congruence. }
  clearbody w. destruct Wk as (W1 & W2 & W3 & W4 & W5 & W6 & W7).
  assert (Hpend : ll_pending (ll_sync (ll_drop sp id') s h) = (p1 ++ p2).*2).
  { rewrite <- (filter_drop id' p1 p2 a R2), R7. unfold ll_sync. by destruct (_ <? _). }
  assert (Hearly : ll_early (ll_sync (ll_drop sp id') s h) = ll_early sp) by (unfold ll_sync; by destruct (_ <? _)).
  destruct N1 as [N1 N2].
  split; rsimpl; [done|done|by rewrite W1|by rewrite W2|by rewrite W3| |done|done|done| |congruence].
  - intros c b. rewrite W4, lookup_delete_Some, R6. clear - R1 R2. split.
    + intros [Hne [Hb|Hb]%elem_of_app]; apply elem_of_app; [by left|]. apply elem_of_cons in Hb as [[= -> ->]|Hb]; [done|by right].
    + intros Hb. split; [|apply elem_of_app in Hb as [Hb|Hb]; apply elem_of_app; [by left|right; apply elem_of_cons; by right]].
      intros <-. rewrite fmap_app in R2. cbn in R2. apply NoDup_app in R2 as (_ & Hd & Hn). apply NoDup_cons in Hn as [Hn _].
      apply elem_of_app in Hb as [Hb|Hb].
      * apply (Hd id'); [by apply (list_elem_of_fmap_2 snd _ (b, id'))|set_solver].
      * apply Hn. by apply (list_elem_of_fmap_2 snd _ (b, id')).
  - unfold ll_hash. rewrite Hpend, <- W7. apply rehash; [done|by rewrite W1|by rewrite W2].
Qed.

Lemma update_absent l pend sp id s h : log_repr l pend sp -> id ∉ ll_pending sp ->
  log_repr (update l id s h false) pend (ll_sync sp s h) /\
  log_repr (update l id s h true) pend
    (mkListLog (ll_synced sp) (ll_syncedHash sp) (ll_pending sp) (<[id := (h, s)]> (ll_early sp))).
Proof.
  intros R Hid. pose proof R as [R1 R2 R3 R4 R5 R6 R7 R8 R9 R10 R11].
  assert (Hn : hl_nodes l !! id = None).
  { apply eq_None_not_Some. intros [a Ha]. apply Hid. rewrite <- R7. apply R6 in Ha.
    by apply (list_elem_of_fmap_2 snd _ (a, id)). }
  unfold update. rewrite Hn. split.
  - rewrite R8. unfold ll_sync. rewrite Z.ltb_antisym. destruct (s <=? ll_synced sp); cbn [negb]; [exact R|].
    split; rsimpl; try done. unfold ll_hash. cbn [ll_syncedHash ll_pending]. rewrite <- R7.
    rewrite R4. eapply hash_list_seg; [|exact R3]. by eapply seg_size.
  - split; rsimpl; try done. rewrite R11. cbn [ll_early]. by rewrite fmap_insert.
Qed.

(** ** A new command *)

Lemma tail_last l pend hd : pend <> [] -> hl_pendingHead l = first_of pend None -> tail_ok (hl_pendingTail l) pend ->
  hl_pendingHead l = Some hd ->
  last_of pend None = Some (match hl_pendingTail l with Some t => t | None => hd end).
Proof.
  intros Hne Hh Ht Hhd. destruct pend as [|[a id] pend]; [done|]. cbn in Hh. destruct Ht as [Ht|[Ht Hlen]]; rewrite Ht.
  - rewrite last_of_cons. unfold last_of. by destruct (last pend) as [[]|].
  - destruct pend; [|cbn in Hlen; lia]. unfold last_of. cbn. congruence.
Qed.

Lemma seg_snoc h pend a id last : NoDup (pend ++ [(a, id)]).*1 -> seg h None pend None -> last_of pend None = Some last ->
  h !! a = Some (mkHashNode id None None) ->
  seg (set_previous (set_next h last (Some a)) a (Some last)) None (pend ++ [(a, id)]) None.
Proof.
  intros Hnd Hs Hl Ha. apply seg_app. rewrite fmap_app, NoDup_app in Hnd. destruct Hnd as (Hn & Hd & _).
  assert (Hla : last <> a).
  { intros ->. apply last_of_in in Hl as [?|Hl]; [done|]. apply (Hd a Hl). cbn. set_solver. }
  split.
  - eapply (seg_frame (set_next h last (Some a))).
    + intros b Hb. unfold set_previous. rewrite lookup_alter_ne; [done|]. intros <-. apply (Hd a Hb). cbn. set_solver.
    + destruct pend as [|[b idb] q] using rev_ind; [done|clear IHq]. rewrite last_of_snoc in Hl. injection Hl as <-.
      by eapply seg_set_next.
  - rewrite Hl. cbn. split; [|done]. unfold set_previous, set_next.
    by rewrite (lookup_alter_eq (M := gmap nat)), lookup_alter_ne, Ha.
Qed.

Lemma append_early l pend sp id : log_repr l pend sp -> id ∉ ll_pending sp ->
  is_Some (ll_early sp !! id) ->
  exists l' h, Append l id = Some (l', h) /\ h = (ll_Append sp id).2 /\ log_repr l' pend (ll_Append sp id).1.
Proof.
  intros R Hid [[h s] He]. unfold Append, ll_Append. rewrite (lr_early _ _ _ R), lookup_fmap, He. cbn.
  eexists _, h. split; [done|split; [done|]].
  set (l1 := l <| hl_pendingUpd ::= delete id |>).
  set (sp1 := mkListLog (ll_synced sp) (ll_syncedHash sp) (ll_pending sp) (delete id (ll_early sp))).
  assert (R1 : log_repr l1 pend sp1).
  { destruct R. split; unfold l1, sp1; rsimpl; try done. cbn [ll_early]. by rewrite fmap_delete, lr_early0. }
  by apply (update_absent _ _ _ id s h R1).
Qed.

Lemma append_new l pend sp id : log_repr l pend sp -> id ∉ ll_pending sp -> ll_early sp !! id = None ->
  exists l' h pend', Append l id = Some (l', h) /\ h = (ll_Append sp id).2 /\ log_repr l' pend' (ll_Append sp id).1.
Proof.
  intros R Hid He. pose proof (lr_early _ _ _ R) as Hearly. unfold Append, ll_Append.
  rewrite Hearly, lookup_fmap, He. cbn [fmap option_fmap option_map fst snd]. clear He.
  set (a := fresh (dom (hl_heap l))). assert (Ha : hl_heap l !! a = None) by (apply not_elem_of_dom, is_fresh).
  clearbody a. destruct R as [R1 R2 R3 R4 R5 R6 R7 R8 R9 R10 _].
  assert (Hna : a ∉ pend.*1).
  { intros Hin. apply list_elem_of_fmap in Hin as ([a' id'] & -> & Hin). cbn in Ha.
    apply list_elem_of_split in Hin as (p1 & p2 & ->). apply seg_app in R3 as [_ [R3 _]]. congruence. }
  assert (N1 : NoDup (pend ++ [(a, id)]).*1).
  { rewrite fmap_app. apply NoDup_app. split_and!; [done|set_solver|apply NoDup_singleton]. }
  assert (N2 : NoDup (pend ++ [(a, id)]).*2).
  { rewrite fmap_app. apply NoDup_app. rewrite R7. split_and!; [by rewrite <- R7|set_solver|apply NoDup_singleton]. }
  assert (Hs : seg (<[a := mkHashNode id None None]> (hl_heap l)) None pend None).
  { eapply seg_frame; [|exact R3]. intros b Hb. apply lookup_insert_ne. by intros <-. }
  assert (Hnodes : forall id' a', <[id := a]> (hl_nodes l) !! id' = Some a' <-> (a', id') ∈ pend ++ [(a, id)]).
  { intros id' a'. rewrite lookup_insert_Some, R6, elem_of_app, list_elem_of_singleton.
    split; [intros [[<- <-]|[_ ?]]; tauto|]. intros [Hin|[= -> ->]]; [|by left]. right. split; [|done].
    intros <-. apply Hid. rewrite <- R7. by apply (list_elem_of_fmap_2 snd _ (a', id)). }
  assert (Hp : (pend ++ [(a, id)]).*2 = ll_pending sp ++ [id]) by (by rewrite fmap_app, R7).
  assert (Hh : forall h, hash (foldl hash h (ll_pending sp)) id = foldl hash h (ll_pending sp ++ [id]))
    by (intros h; by rewrite foldl_app).
  rsimpl. destruct (hl_pendingHead l) as [hd|] eqn:Ehd.
  - assert (Hne : pend <> []) by (intros ->; discriminate R4).
    assert (Hl : last_of pend None = Some (match hl_pendingTail l with Some t => t | None => hd end))
      by (apply (tail_last l); [done|congruence|done|done]).
    set (last := match hl_pendingTail l with Some t => t | None => hd end) in *. clearbody last.
    eexists _, _, (pend ++ [(a, id)]). split; [done|]. split; [rewrite R10; apply Hh|].
    split; rsimpl; try done.
    + apply seg_snoc; [done|done|done|apply lookup_insert_eq].
    + rewrite Ehd, R4. by destruct pend as [|[]].
    + left. by rewrite last_of_snoc.
    + unfold ll_hash. cbn [ll_syncedHash ll_pending]. rewrite R10. apply Hh.
  - assert (pend = []) as -> by (destruct pend as [|[]]; [done|discriminate R4]).
    cbn in R7. rewrite <- R7 in *. eexists _, _, [(a, id)]. split; [done|]. rewrite R9. split; [done|].
    split; rsimpl; try done.
    + split; [apply lookup_insert_eq|done].
    + destruct R5 as [R5|[R5 _]]; rewrite R5; right; by split; [|cbn; lia].
Qed.

(** * Runs *)

Inductive log_op := OpAppend (cmdId : CommandId) | OpUpdate (cmdId : CommandId) (s : Z) (h : SHash).
Definition appended (ops : list log_op) : list CommandId :=
  omap (fun o => match o with OpAppend c => Some c | OpUpdate _ _ _ => None end) ops.

(** what [Append] returned, and the hash of the log after each operation *)
Fixpoint hash_run (l : HashLog) (ops : list log_op) : option (HashLog * list SHash) :=
  match ops with
  | [] => Some (l, [])
  | OpAppend c :: ops =>
      '(l, h) ← Append l c;
      let cur := hl_hash l in
      '(l, hs) ← hash_run l ops; Some (l, h :: cur :: hs)
  | OpUpdate c s h :: ops =>
      let l := Update l c s h in
      let cur := hl_hash l in
      '(l, hs) ← hash_run l ops; Some (l, cur :: hs)
  end.
Fixpoint list_run (sp : list_log) (ops : list log_op) : list_log * list SHash :=
  match ops with
  | [] => (sp, [])
  | OpAppend c :: ops =>
      let sh := ll_Append sp c in
      let r := list_run sh.1 ops in (r.1, sh.2 :: ll_hash sh.1 :: r.2)
  | OpUpdate c s h :: ops =>
      let sp := ll_Update sp c s h in
      let r := list_run sp ops in (r.1, ll_hash sp :: r.2)
  end.

Lemma append_repr l pend sp id : log_repr l pend sp -> id ∉ ll_pending sp ->
  exists l' h pend', Append l id = Some (l', h) /\ h = (ll_Append sp id).2 /\ log_repr l' pend' (ll_Append sp id).1.
Proof.
  intros R Hid. destruct (ll_early sp !! id) eqn:He; [|by eapply append_new].
  destruct (append_early l pend sp id R Hid) as (l' & h & H); [by eexists|]. by exists l', h, pend.
Qed.
Lemma Update_repr l pend sp id s h : log_repr l pend sp ->
  exists pend', log_repr (Update l id s h) pend' (ll_Update sp id s h).
Proof.
  intros R. unfold Update, ll_Update. case_decide as Hid; [by eapply update_pending|].
  exists pend. by apply update_absent.
Qed.

Lemma ll_sync_pending sp s h : ll_pending (ll_sync sp s h) = ll_pending sp.
Proof. unfold ll_sync. by destruct (_ <? s). Qed.
Lemma ll_Append_pending sp id c : c ∈ ll_pending (ll_Append sp id).1 -> c ∈ ll_pending sp \/ c = id.
Proof.
  unfold ll_Append. destruct (ll_early sp !! id) as [[h s]|]; cbn [fst].
  - rewrite ll_sync_pending. by left.
  - cbn. set_solver.
Qed.
Lemma ll_Update_pending sp id s h c : c ∈ ll_pending (ll_Update sp id s h) -> c ∈ ll_pending sp.
Proof.
  unfold ll_Update. case_decide; [|done]. rewrite ll_sync_pending. cbn. rewrite list_elem_of_filter. tauto.
Qed.

Lemma hash_run_repr ops : forall l pend sp, log_repr l pend sp -> NoDup (appended ops) ->
  (forall c, c ∈ appended ops -> c ∉ ll_pending sp) ->
  exists l' pend', hash_run l ops = Some (l', (list_run sp ops).2) /\ log_repr l' pend' (list_run sp ops).1.
Proof.
  induction ops as [|o ops IH]; intros l pend sp R Hnd Hfr; [by exists l, pend|].
  destruct o as [c|c s h]; cbn [hash_run list_run].
  - cbn in Hnd. apply NoDup_cons in Hnd as [Hc Hnd].
    destruct (append_repr l pend sp c R) as (l1 & h & p1 & E & Eh & R1); [apply Hfr; cbn; set_solver|].
    rewrite E. cbn. destruct (IH l1 p1 _ R1 Hnd) as (l2 & p2 & E2 & R2).
    { intros d Hd [Hd'| ->]%ll_Append_pending; [|done]. revert Hd'. apply Hfr. cbn. set_solver. }
    exists l2, p2. rewrite E2. cbn. by rewrite <- Eh, (lr_hash _ _ _ R1).
  - destruct (Update_repr l pend sp c s h R) as (p1 & R1).
    destruct (IH _ p1 _ R1 Hnd) as (l2 & p2 & E2 & R2).
    { intros d Hd Hd'%ll_Update_pending. by apply (Hfr d). }
    exists l2, p2. rewrite E2. cbn. by rewrite (lr_hash _ _ _ R1).
Qed.
End hashlog.
