(* ===== verification/WireProps.v ===== *)
(** Properties of the wire format: what one process writes, another reads
    back; a cut-off message is an error; what is read is well formed. *)
From S2P Require Import Prelude WireBase Wire WireStream State.

(** * Messages *)

Lemma length_send_msgs ms : (length ms <= length (concat (send_msg <$> ms)))%nat.
Proof.
  induction ms as [|m ms IH]; cbn [fmap list_fmap concat length]; [lia|].
  rewrite length_app. unfold send_msg at 1, sendMsg. cbn [length]. lia.
Qed.

Lemma Post_map {A B} (f : A -> B) (p : reader A) P Q :
  Post p P -> (forall a, P a -> Q (f a)) -> Post (rd_map f p) Q.
Proof. intros Hp Hf. eapply Post_bind; [exact Hp|]. intros a Ha. apply Post_ret. auto. Qed.

Lemma read_body_post c : Post (read_body c) msg_wf.
Proof.
  unfold read_body.
  repeat (apply Post_if; intros _;
    [first [ apply (Post_map RSchdPrepareReply _ SchdPrepareReply_wf);
               [exact SchdPrepareReply_post|intros ? H; exact H]
           | apply (Post_map RSchdCommit _ SchdPrepareReply_wf);
               [exact SchdPrepareReply_post|intros ? H; exact H]
           | match goal with |- Post (rd_map (A:=?T) _ _) _ =>
               apply (Post_map _ _ (Wf (A:=T)));
                 [exact (codec_post (A:=T))|intros ? H; exact H] end ]|]).
  apply Post_fail.
Qed.

Definition sample_msgs : list replica_msg :=
  [RGapRequest (mkBusGapRequest 7 1 3);
   RBus (mkBusMessage 1 5 9 [mkRequestMessage 1 2 3 [x00]]);
   RSyncPrepare (mkBusSyncPrepare 1 7 true 99 0)].

Lemma sample_msgs_wf : Forall msg_wf sample_msgs.
Proof.
  unfold sample_msgs. rewrite !Forall_cons. repeat split; cbn; try word_lia; try done.
  rewrite Forall_singleton. repeat split; cbn; unfold W32, W64; lia.
Qed.

(** C27: a sequence of well-formed messages, each written by [sendMsg] as its
    code byte and its marshalled body, is read back by the listener's loop as
    exactly those messages in that order, and then the connection's end is
    reported as [EOF]. *)
Theorem stream_roundtrip ms :
  Forall msg_wf ms ->
  let bs := concat (send_msg <$> ms) in
  read_stream (S (length bs)) bs = (ms, EOF).
Proof.
  intros Hwf bs. subst bs. apply read_stream_reads; [done|]. pose proof (length_send_msgs ms). lia.
Qed.

Theorem stream_roundtrip_witness :
  read_stream (S (length (concat (send_msg <$> sample_msgs)))) (concat (send_msg <$> sample_msgs))
    = (sample_msgs, EOF).
Proof. exact (stream_roundtrip sample_msgs sample_msgs_wf). Defined.

(** C28: a message cut off anywhere before its last byte is never accepted: the
    decoder reports an error, so no handler sees a partial message. *)
Theorem truncated_message_rejected m pre suf :
  msg_wf m -> send_msg m = pre ++ suf -> suf <> [] -> exists e, read_msg pre = Err e.
Proof. intros Hm. eapply Reads_prefix_fails; [apply read_msg_ext|by apply msg_reads]. Qed.

Theorem truncated_message_rejected_witness :
  exists e, read_msg (take 10 (send_msg (RGapRequest (mkBusGapRequest 7 1 3)))) = Err e.
Proof.
  apply (truncated_message_rejected (RGapRequest (mkBusGapRequest 7 1 3)) _
           (drop 10 (send_msg (RGapRequest (mkBusGapRequest 7 1 3))))).
  - cbn. unfold BusGapRequest_wf. cbn. word_lia.
  - symmetry. apply take_drop.
  - vm_compute. discriminate.
Defined.

(** C29: every message the listener accepts, from any bytes whatsoever, is well
    formed: its numbers fit their widths, and its bitmaps, slot lists, schedules
    and state entries are within the decoders' limits. *)
Theorem decoded_message_wf bs m rest : read_msg bs = Ok m rest -> msg_wf m.
Proof.
  apply (Post_bind _ _ (fun _ => True)); [by intros|]. intros b _. apply read_body_post.
Qed.

Theorem decoded_message_wf_witness : msg_wf (RGapRequest (mkBusGapRequest 7 1 3)).
Proof.
  apply (decoded_message_wf (send_msg (RGapRequest (mkBusGapRequest 7 1 3)) ++ [x00]) _ [x00]).
  vm_compute. reflexivity.
Defined.

(** * Batches *)

(** the messages a batch stands for *)
Definition batch_msgs (b : scheduleBatch) : list replica_msg :=
  [RScheduleInstall (sb_snapshot b); RSchdPrepare (sb_prepare b)] ++
  (if sb_committed b then
     [RSchdCommit {| spr_ReplicaId := sp_ReplicaId (sb_prepare b);
                     spr_ViewId := sp_ViewId (sb_prepare b);
                     spr_StartTime := sp_StartTime (sb_prepare b);
                     spr_EndTime := sp_EndTime (sb_prepare b) |}]
   else []).

Lemma batch_bytes b :
  sendMsg MsgBusScheduleInstall (scheduleBatch_Marshal b) = concat (send_msg <$> batch_msgs b).
Proof.
  unfold scheduleBatch_Marshal, batch_msgs, sendMsg.
  destruct (sb_committed b); cbn [app fmap list_fmap concat]; unfold send_msg, sendMsg;
    cbn [msg_code msg_body]; rewrite ?app_nil_r; cbn [app]; by rewrite <- ?app_assoc.
Qed.

Lemma batch_msgs_wf b :
  BusScheduleInstall_wf (sb_snapshot b) -> SchdPrepare_wf (sb_prepare b) ->
  Forall msg_wf (batch_msgs b).
Proof.
  intros Hs Hp. unfold batch_msgs. apply Forall_app. rewrite !Forall_cons.
  split; [split; [exact Hs|]; split; [exact Hp|apply Forall_nil_2]|].
  destruct (sb_committed b); [|apply Forall_nil_2]. apply Forall_singleton.
  cbn. unfold SchdPrepare_wf, SchdPrepareReply_wf in *. cbn. tauto.
Qed.

(** A schedule batch, sent as one message announced by the snapshot's code,
    is read by the receiving replica as the snapshot, then the window being
    prepared, then its commit exactly when the sender had committed it. *)
Theorem schedule_batch_read b :
  BusScheduleInstall_wf (sb_snapshot b) -> SchdPrepare_wf (sb_prepare b) ->
  let bs := sendMsg MsgBusScheduleInstall (scheduleBatch_Marshal b) in
  read_stream (S (length bs)) bs = (batch_msgs b, EOF).
Proof.
  intros Hs Hp bs. subst bs. rewrite batch_bytes.
  pose proof (length_send_msgs (batch_msgs b)).
  apply read_stream_reads; [by apply batch_msgs_wf|lia].
Qed.

Definition sample_batch : scheduleBatch :=
  mkscheduleBatch (mkBusScheduleInstall 1 0 0 [mkBusSyncMessage 20 1 10 1])
    (mkSchdPrepare 0 1 [mkHsRequest 1 30 1] 20 40) true.

Theorem schedule_batch_read_witness :
  read_stream (S (length (sendMsg MsgBusScheduleInstall (scheduleBatch_Marshal sample_batch))))
    (sendMsg MsgBusScheduleInstall (scheduleBatch_Marshal sample_batch))
  = (batch_msgs sample_batch, EOF).
Proof.
  apply (schedule_batch_read sample_batch).
  - repeat split; cbn; try word_lia; [by vm_compute|].
    apply Forall_singleton. repeat split; cbn; unfold W64; lia.
  - repeat split; cbn; try word_lia; [by vm_compute|].
    apply Forall_singleton. repeat split; cbn; unfold W64; lia.
Defined.

(** A bus's requests, marshalled as the payload gap recovery and state
    transfer carry, are read back unchanged, and the payload does not depend on
    what follows it in the buffer. *)
Theorem requests_payload_roundtrip reqs extra :
  requests_wf reqs -> UnmarshalRequests (MarshalRequests reqs ++ extra) = Some reqs.
Proof. intros H. unfold UnmarshalRequests. by rewrite Reads_requests. Qed.

Theorem requests_payload_roundtrip_witness :
  UnmarshalRequests (MarshalRequests [mkRequestMessage 1 2 3 [x00]] ++ [x01]) =
    Some [mkRequestMessage 1 2 3 [x00]].
Proof.
  apply requests_payload_roundtrip. split; [by vm_compute|].
  apply Forall_singleton. repeat split; cbn; unfold W32, W64; lia.
Defined.

(** Commands of the replicated state machine survive [Command.Marshal] and
    [Command.Unmarshal], one after another, as long as their values are shorter
    than 64 KiB, the length the 16-bit prefix can express. *)
Theorem commands_roundtrip cs :
  Forall Command_wf cs ->
  read_n Command_Unmarshal (length cs) (concat (Command_Marshal <$> cs)) = Ok cs [].
Proof.
  intros H. rewrite <- (app_nil_r (concat _)). apply Reads_read_n.
  eapply Forall_impl; [exact H|]. apply Command_reads.
Qed.

Theorem commands_roundtrip_witness :
  read_n Command_Unmarshal 1 (concat (Command_Marshal <$> [mkCommand 1 (-5) [x01]])) =
    Ok [mkCommand 1 (-5) [x01]] [].
Proof.
  apply (commands_roundtrip [mkCommand 1 (-5) [x01]]). apply Forall_singleton.
  repeat split; cbn; unfold W64; lia.
Defined.
