(* ===== verification/ConfigProps.v ===== *)
(** Properties of the configuration: what [ReadConfig] accepts, and the quorum
    and leader arithmetic the protocol builds on it. *)
From Stdlib Require Import String.
From S2P Require Import Prelude WireBase Wire Config State.

#[local] Open Scope string_scope.
#[local] Open Scope Z_scope.

Definition replicas (c : Config) : gset Z := list_to_set (seqZ 0 (cfg_N c)).

Lemma size_replicas c : config_ok c -> size (replicas c) = Z.to_nat (cfg_N c).
Proof.
  intros Hc. unfold replicas. rewrite size_list_to_set by apply NoDup_seqZ.
  by rewrite length_seqZ.
Qed.

Lemma ReadConfig_ok lines e c : ReadConfig lines e = inl c -> config_ok c.
Proof.
  unfold ReadConfig. cbv zeta.
  destruct (read_lines _ lines) as [c1|] eqn:E; [|done]. destruct e; [done|].
  apply finish_config_ok. eapply read_lines_ok; [|exact E].
  split; [|split]; cbn; [| |constructor]; (split; [lia|]; by vm_compute).
Qed.

Definition sample_lines : list string :=
  ["# three replicas"; "f 1"; "replica h0:7000"; " replica h1:7001 "; "replica h2:7002";
   "clients 4"; ""; "schedule-window-ms 250"].

Definition sample_config : Config :=
  mkConfig 3 1 4 250 ["h0:7000"; "h1:7001"; "h2:7002"].

Lemma sample_config_read : ReadConfig sample_lines false = inl sample_config.
Proof. by vm_compute. Qed.

(** A configuration that [ReadConfig] accepts has [2F+1] replicas, at most
    32 of them (replica sets are 32-bit masks), each with a port, a client count
    the schedule can hold, and a window short enough that four of them fit a
    signed 64-bit nanosecond clock. *)
Theorem ReadConfig_valid lines e c :
  ReadConfig lines e = inl c ->
  cfg_N c = 2 * cfg_F c + 1 /\ cfg_N c = Zlength (cfg_Replicas c) /\ 1 <= cfg_N c <= 32 /\
  (forall i, 0 <= i < cfg_N c -> is_Some (Port c (Z.to_nat i))) /\
  1 <= cfg_ExpectedClients c <= MaxScheduleLen /\
  0 < ScheduleWindow c /\ 4 * ScheduleWindow c <= MaxInt64.
Proof.
  intros H%ReadConfig_ok. pose proof (ScheduleWindow_range c H).
  destruct H as [HN HNF HF Hm Hc Hw Ha]. unfold maxReplicaCount in Hm.
  split; [lia|]. split; [lia|]. split; [lia|]. split; [|split; [lia|done]].
  intros i Hi. unfold Port. destruct (lookup_lt_is_Some_2 (cfg_Replicas c) (Z.to_nat i)) as [a E]; [lia|].
  rewrite E. by eexists.
Qed.

Theorem ReadConfig_valid_witness : 0 < ScheduleWindow sample_config.
Proof. apply (ReadConfig_valid sample_lines false sample_config sample_config_read). Defined.

Lemma quorum_meet lines e c (A B : gset Z) :
  ReadConfig lines e = inl c ->
  A ⊆ replicas c -> B ⊆ replicas c ->
  QuorumSize c <= Z.of_nat (size A) -> QuorumSize c <= Z.of_nat (size B) ->
  exists i, i ∈ A /\ i ∈ B.
Proof.
  intros H%ReadConfig_ok HA HB Ha Hb. pose proof (config_quorum c H) as [_ Hq].
  destruct (decide (A ∩ B = ∅)) as [E|E].
  - exfalso. assert (size (A ∪ B) <= Z.to_nat (cfg_N c))%nat.
    { rewrite <- (size_replicas c H). apply subseteq_size. set_solver. }
    rewrite size_union in H0 by set_solver. destruct H. lia.
  - apply set_choose_L in E as [i Hi]. exists i. set_solver.
Qed.

(** Under an accepted configuration any two sets of [QuorumSize] replicas
    share a replica, and the quorum is small enough to survive [F] failures. *)
Theorem quorums_intersect lines e c (A B : gset Z) :
  ReadConfig lines e = inl c ->
  A ⊆ replicas c -> B ⊆ replicas c ->
  QuorumSize c <= Z.of_nat (size A) -> QuorumSize c <= Z.of_nat (size B) ->
  QuorumSize c + cfg_F c = cfg_N c /\ exists i, i ∈ A /\ i ∈ B.
Proof.
  intros Hc HA HB Ha Hb. split; [|by apply (quorum_meet lines e c)].
  apply ReadConfig_ok in Hc. destruct Hc. unfold QuorumSize. lia.
Qed.

Theorem quorums_intersect_witness : exists i : Z, i ∈ ({[0; 1]} : gset Z) /\ i ∈ ({[1; 2]} : gset Z).
Proof.
  apply (quorums_intersect sample_lines false sample_config {[0; 1]} {[1; 2]} sample_config_read);
    first [ by vm_compute | apply (bool_decide_unpack _); by vm_compute ].
Defined.

(** The leader of every view is one of the replicas and, in any
    [N] consecutive views, every replica leads exactly one. *)
Theorem leader_rotation lines e c v i :
  ReadConfig lines e = inl c -> 0 <= i < cfg_N c ->
  exists v', v <= v' < v + cfg_N c /\ LeaderIndex c v' = i /\
    forall w, v <= w < v + cfg_N c -> LeaderIndex c w = i -> w = v'.
Proof.
  intros H%ReadConfig_ok Hi. unfold LeaderIndex. assert (0 < cfg_N c) as HN by lia.
  exists (v + (i - v) mod cfg_N c). pose proof (Z.mod_pos_bound (i - v) (cfg_N c) HN).
  assert ((v + (i - v) mod cfg_N c) mod cfg_N c = i) as E.
  { rewrite Zplus_mod_idemp_r. replace (v + (i - v)) with i by lia. by apply Z.mod_small. }
  split; [lia|]. split; [done|]. intros w Hw Hwi.
  assert ((w - v) mod cfg_N c = (i - v) mod cfg_N c) as E2.
  { rewrite <- Hwi. by rewrite Zminus_mod_idemp_l. }
  rewrite (Z.mod_small (w - v)) in E2 by lia. lia.
Qed.

Theorem leader_rotation_witness :
  exists v', 5 <= v' < 5 + 3 /\ LeaderIndex sample_config v' = 1 /\
    forall w, 5 <= w < 5 + 3 -> LeaderIndex sample_config w = 1 -> w = v'.
Proof.
  apply (leader_rotation sample_lines false sample_config 5 1 sample_config_read).
  cbn. lia.
Defined.

(** * Properties of the replicated state machine. *)

(** [Conflict] is sound for single-key commands: two that do not conflict
    give the same results in either order and leave stores that answer alike, so
    replicas may execute them in different orders. *)
Theorem nonconflicting_commute {TM : Treemap Value} {TL : TreemapLaws TM}
    (c d : Command) (st : tm_carrier TM) vc vd s1 s2 vc' vd' s1' s2' :
  single c -> single d -> Conflict c d = Some false ->
  Execute c st = Some (vc, s1) -> Execute d s1 = Some (vd, s2) ->
  Execute d st = Some (vd', s1') -> Execute c s1' = Some (vc', s2') ->
  vc = vc' /\ vd = vd' /\ store_equiv s2 s2'.
Proof. apply Execute_commute. Qed.

#[local] Instance store : Treemap Value := gmap_Treemap Value.
#[local] Instance store_laws : TreemapLaws store := gmap_TreemapLaws Value.

Theorem nonconflicting_commute_witness :
  exists s2 s2' : tm_carrier store, store_equiv s2 s2'.
Proof.
  pose (put := mkCommand 1 7 [x00]). pose (get := mkCommand 2 8 []).
  exists (tm_Put InitState 7 [x00]), (tm_Put InitState 7 [x00]).
  apply (nonconflicting_commute put get InitState NIL NIL (tm_Put InitState 7 [x00])
           (tm_Put InitState 7 [x00]) NIL NIL InitState (tm_Put InitState 7 [x00])); reflexivity.
Defined.
