(* ===== verification/ScheduleProps.v ===== *)
(** Properties of the schedule: what [validateSchedule] accepts, and the slots
    [computeGlobalSlot] gives the buses of an accepted schedule. *)
From S2P Require Import Prelude WireBase Wire Lines GlobalOrder.

(** Two clients in one window, then one of them in the next. *)
Definition sample_schedule : list BusSyncMessage :=
  [ mkBusSyncMessage 6000000 1 1000000 2; mkBusSyncMessage 6000000 2 1000000 2 ].
Definition sample_more : list BusSyncMessage := [ mkBusSyncMessage 9000000 1 7000000 1 ].

Lemma sample_entries : Forall entry_u64 (sample_schedule ++ sample_more).
Proof. repeat (apply Forall_cons; split; [repeat split; cbn; unfold W64; lia|]). apply Forall_nil_2. Qed.

Lemma sample_valid : schedule_valid (sample_schedule ++ sample_more).
Proof. apply validateSchedule_spec; [exact sample_entries|]. by vm_compute. Qed.

Lemma sample_valid_1 : schedule_valid sample_schedule.
Proof. eapply schedule_valid_prefix, sample_valid. Qed.

Abbreviation sample_lines := (schedule_lines ∅ sample_schedule).

Lemma sample_scheduled : scheduled sample_lines (3000000, 2).
Proof. apply elem_of_all_buses. apply (bool_decide_unpack _). by vm_compute. Qed.

Lemma sample_total : Zlength (all_buses sample_lines) < W64.
Proof. by vm_compute. Qed.

(** On entries as the decoder delivers them, [validateSchedule] accepts
    exactly the valid schedules: at most [MaxScheduleHistoryLen] entries, every
    window well timed (a non-empty interval of signed 64-bit time, an interval
    whose nanoseconds do not overflow), and the entries grouped by window, in
    time order without overlap and by client within a window. *)
Theorem validateSchedule_decides s :
  Forall entry_u64 s -> validateSchedule s = true <-> schedule_valid s.
Proof. apply validateSchedule_spec. Qed.

Theorem validateSchedule_decides_witness :
  validateSchedule sample_schedule = true <-> schedule_valid sample_schedule.
Proof.
  apply validateSchedule_decides.
  exact (proj1 (proj1 (Forall_app _ _ _) sample_entries)).
Defined.

Lemma slot_of_scheduled old s b :
  schedule_valid s -> Zlength (all_buses (schedule_lines old s)) < W64 ->
  scheduled (schedule_lines old s) b ->
  computeGlobalSlot (schedule_lines old s) b.2 b.1 = rank (schedule_lines old s) b.
Proof.
  intros Hv Htot Hb. pose proof (schedule_lines_ok old s Hv) as Hok.
  pose proof (scheduled_time _ _ Hok Hb). pose proof (rank_bound _ _ Hb).
  destruct b as [t c], Hb as (cl & Hc & _).
  cbn [fst snd] in *. rewrite (computeGlobalSlot_rank _ c cl t Hok Hc) by lia. apply u64_small. word_lia.
Qed.

(** C6: under an accepted schedule [computeGlobalSlot] numbers the scheduled
    buses 0, 1, 2, ... in the order of their arrival times, ties by client: it is
    an order isomorphism onto an initial segment, so two buses never share a slot
    and no slot below the number of buses is unowned. *)
Theorem computeGlobalSlot_isomorphism old s :
  let lines := schedule_lines old s in
  let slot b := computeGlobalSlot lines b.2 b.1 in
  schedule_valid s -> Zlength (all_buses lines) < W64 ->
  (forall b, scheduled lines b -> 0 <= slot b < Zlength (all_buses lines)) /\
  (forall b b', scheduled lines b -> scheduled lines b' -> bus_lt b b' <-> slot b < slot b') /\
  (forall k, 0 <= k < Zlength (all_buses lines) -> exists b, scheduled lines b /\ slot b = k).
Proof.
  intros lines slot Hv Htot. pose proof (schedule_lines_ok old s Hv) as Hok.
  assert (forall b, scheduled lines b -> slot b = rank lines b) as Hslot.
  { intros b Hb. by apply slot_of_scheduled. }
  split; [|split].
  - intros b Hb. rewrite Hslot by done. by apply rank_bound.
  - intros b b' Hb Hb'. rewrite !Hslot by done. split; [by apply rank_lt|].
    intros Hlt. destruct (bus_lt_total b b') as [|[<-|Hgt]]; [done|lia|].
    pose proof (rank_lt _ _ _ Hb' Hgt). lia.
  - intros k Hk. destruct (rank_dense lines k Hok Hk) as (b & Hb & <-). eauto.
Qed.

Theorem computeGlobalSlot_isomorphism_witness :
  exists b, scheduled sample_lines b /\ computeGlobalSlot sample_lines b.2 b.1 = 3.
Proof.
  apply (computeGlobalSlot_isomorphism ∅ sample_schedule sample_valid_1 sample_total).
  vm_compute. done.
Defined.

(** C7: committing further windows never moves a bus: if an accepted schedule is
    extended by windows that begin after its own have ended, every bus of the
    shorter schedule is still scheduled and keeps its slot, so replicas that have
    installed different prefixes of one history agree on the slots they share. *)
Theorem slots_stable_under_extension old1 old2 s1 s2 b :
  schedule_valid (s1 ++ s2) -> later_windows s1 s2 ->
  Zlength (all_buses (schedule_lines old2 (s1 ++ s2))) < W64 ->
  Zlength (all_buses (schedule_lines old1 s1)) < W64 ->
  scheduled (schedule_lines old1 s1) b ->
  scheduled (schedule_lines old2 (s1 ++ s2)) b /\
  computeGlobalSlot (schedule_lines old2 (s1 ++ s2)) b.2 b.1 =
    computeGlobalSlot (schedule_lines old1 s1) b.2 b.1.
Proof.
  intros Hv Hlater Ht2 Ht1 Hb. pose proof (schedule_valid_prefix s1 s2 Hv) as Hv1.
  pose proof (schedule_lines_of old1 s1 (sv_windows _ Hv1)) as H1.
  pose proof (schedule_lines_of old2 (s1 ++ s2) (sv_windows _ Hv)) as H2.
  pose proof (scheduled_extend _ _ _ _ b H1 H2 Hb) as Hb2.
  split; [done|]. rewrite !slot_of_scheduled by done. by eapply rank_extend.
Qed.

Theorem slots_stable_under_extension_witness :
  computeGlobalSlot (schedule_lines ∅ (sample_schedule ++ sample_more)) 2 3000000 =
    computeGlobalSlot sample_lines 2 3000000.
Proof.
  apply (slots_stable_under_extension ∅ ∅ sample_schedule sample_more (3000000, 2)).
  - exact sample_valid.
  - intros m m'. rewrite !list_elem_of_In. cbn. intros [<-|[<-|[]]] [<-|[]]; cbn; lia.
  - by vm_compute.
  - exact sample_total.
  - exact sample_scheduled.
Defined.

Lemma sample_line cl c : sample_lines !! c = Some cl -> line_ok cl.
Proof. intros H. eapply (schedule_lines_ok ∅ sample_schedule sample_valid_1), H. Qed.

Definition line1 : clientLine := default (mkclientLine [] [] 0 0 0) (sample_lines !! 1).
Lemma line1_ok : line_ok line1.
Proof. apply (sample_line line1 1). by vm_compute. Qed.

(** On a line of an accepted schedule [countBefore] counts the client's
    arrivals before [y], or up to and including [y] when ties count as earlier,
    by binary search over the windows and one division in the window found. *)
Theorem countBefore_counts cl y tie :
  line_ok cl -> 0 <= y <= MaxInt64 ->
  countBefore cl y tie =
    u64 (Z.of_nat (length (filter (fun t => t < (if tie then y + 1 else y)) (line_arrivals cl)))).
Proof. apply countBefore_spec. Qed.

Theorem countBefore_counts_witness :
  countBefore line1 3000000 true =
    u64 (Z.of_nat (length (filter (fun t => t < 3000000 + 1) (line_arrivals line1)))).
Proof. apply (countBefore_counts line1 3000000 true line1_ok). by vm_compute. Defined.

(** A bus's sequence number passes [validSequence] exactly when the client
    is scheduled to arrive at that time in a window the committed schedule
    ([end_]) covers completely. *)
Theorem validSequence_decides cl seq end_ :
  line_ok cl -> 0 <= seq <= MaxInt64 ->
  validSequence cl seq end_ = true <->
  exists w, w ∈ cl_windows cl /\ bs_EndTime w <= end_ /\ seq ∈ window_arrivals w.
Proof.
  intros Hok Hs. rewrite validSequence_spec by done. split.
  - intros (i & w & Hi & Ha & He). exists w. split; [by eapply list_elem_of_lookup_2|done].
  - intros (w & Hw & He & Ha). apply list_elem_of_lookup_1 in Hw as [i Hi]. eauto.
Qed.

Theorem validSequence_decides_witness :
  validSequence line1 3000000 6000000 = true <->
  exists w, w ∈ cl_windows line1 /\ bs_EndTime w <= 6000000 /\ 3000000 ∈ window_arrivals w.
Proof. apply (validSequence_decides line1 3000000 6000000 line1_ok). by vm_compute. Defined.

(** [nextSequence] finds the client's earliest arrival at or after a time,
    across windows and over paused ones; 0 means there is none. *)
Theorem nextSequence_least cl seq :
  line_ok cl -> 0 <= seq ->
  (nextSequence cl seq ∈ line_arrivals cl /\ seq <= nextSequence cl seq /\
   forall t, t ∈ line_arrivals cl -> seq <= t -> nextSequence cl seq <= t) \/
  (nextSequence cl seq = 0 /\ forall t, t ∈ line_arrivals cl -> t < seq).
Proof. apply nextSequence_spec. Qed.

Theorem nextSequence_least_witness :
  (nextSequence line1 2000000 ∈ line_arrivals line1 /\ 2000000 <= nextSequence line1 2000000 /\
   forall t, t ∈ line_arrivals line1 -> 2000000 <= t -> nextSequence line1 2000000 <= t) \/
  (nextSequence line1 2000000 = 0 /\ forall t, t ∈ line_arrivals line1 -> t < 2000000).
Proof. apply (nextSequence_least line1 2000000 line1_ok). by vm_compute. Defined.
