(* ===== verification/LogProps.v ===== *)
(** Properties of the replica's bus log. *)
From S2P Require Import Prelude WireBase Wire WireStream Config Lines GlobalOrder State.
From S2P Require Import ReplicaState Cursor Log LogSpec LogInv.




(** * Receiving *)

Section receiving.
Context {TM : Treemap Value} {TL : TreemapLaws TM}.
Implicit Types r : Replica TM.

(** the ways a slot is filled: a bus from its client, a recovered payload, a
    no-op *)
Inductive receives r : Replica TM -> Prop :=
| receives_bus slot c q reqs : receives r (recordBusReceived r slot c q reqs).1
| receives_recovered slot c q payload isBus : receives r (storeRecovered r slot c q payload isBus).1
| receives_noop slot : receives r (setNoOp r slot).1.

(** filling a claimed slot changes no filled slot *)
Lemma claim_keeps r slot b free e s :
  claimSlot r slot = (b, free) -> slotState_of r s <> slotEmpty ->
  r_globalLog b !! s = r_globalLog r !! s /\
  (free = true -> r_globalLog (setEntry b slot e) !! s = r_globalLog r !! s).
Proof.
  intros Hc Hs. pose proof (claimSlot_spec r slot) as (_ & _ & Ho & Hsl & Hf).
  rewrite Hc in *. cbn [fst snd] in *.
  assert (r_globalLog b !! s = r_globalLog r !! s) as E.
  { destruct (decide (s = slot)) as [->|]; [|auto]. rewrite Hsl. unfold slotState_of in Hs.
    by destruct (r_globalLog r !! slot). }
  split; [done|]. intros ->. unfold setEntry. rsimpl. rewrite lookup_insert_ne; [done|].
  intros ->. symmetry in Hf. by apply bool_decide_eq_true in Hf.
Qed.

Lemma recordBusReceived_log r slot c q reqs s :
  slotState_of r s <> slotEmpty ->
  r_globalLog (recordBusReceived r slot c q reqs).1 !! s = r_globalLog r !! s.
Proof.
  intros Hs. unfold recordBusReceived. destruct (claimSlot r slot) as [b [|]] eqn:Ec; cbn [fst]; rsimpl;
    [by eapply claim_keeps|by apply (claim_keeps r slot _ _ emptyEntry s Ec Hs)].
Qed.

Lemma recordReceived_log r slot c q op s :
  slotState_of r s <> slotEmpty ->
  r_globalLog (recordReceived r slot c q op).1 !! s = r_globalLog r !! s.
Proof.
  intros Hs. unfold recordReceived. destruct (claimSlot r slot) as [b [|]] eqn:Ec; cbn [fst]; rsimpl;
    [by eapply claim_keeps|by apply (claim_keeps r slot _ _ emptyEntry s Ec Hs)].
Qed.

Lemma storeRecovered_log r slot c q payload isBus s :
  slotState_of r s <> slotEmpty ->
  r_globalLog (storeRecovered r slot c q payload isBus).1 !! s = r_globalLog r !! s.
Proof.
  intros Hs. unfold storeRecovered. destruct (negb isBus); [by apply recordReceived_log|].
  destruct (UnmarshalRequests payload); [by apply recordBusReceived_log|done].
Qed.

Lemma setNoOp_slot r slot s :
  slotState_of r s = slotNoOp \/ s <> slot \/ executed r slot = true ->
  r_globalLog (setNoOp r slot).1 !! s = r_globalLog r !! s \/
  slotState_of (setNoOp r slot).1 s = slotNoOp.
Proof.
  intros H. pose proof (setNoOp_log r slot) as (_ & _ & Ho & Hs).
  destruct (executed r slot) eqn:E; [left; by rewrite setNoOp_executed|].
  destruct (decide (s = slot)) as [->|]; [|by left; apply Ho]. right.
  destruct (Hs eq_refl) as (e' & He & Hst & _). unfold slotState_of. by rewrite He.
Qed.

Lemma receives_inv r r' snap hi : log_inv r snap hi -> receives r r' -> log_inv r' snap hi.
Proof.
  intros Hinv [slot c q reqs|slot c q payload isBus|slot]; unfold log_inv in *.
  - pose proof (claimSlot_spec r slot) as (_ & Hpb & _).
    replace (r_prunedBelow (recordBusReceived r slot c q reqs).1) with (r_prunedBelow r);
      [by apply recordBusReceived_inv|].
    unfold recordBusReceived. by destruct (claimSlot r slot) as [b [|]].
  - replace (r_prunedBelow (storeRecovered r slot c q payload isBus).1) with (r_prunedBelow r);
      [by apply storeRecovered_inv|].
    pose proof (claimSlot_spec r slot) as (_ & Hpb & _).
    unfold storeRecovered, recordReceived, recordBusReceived.
    destruct (negb isBus); [by destruct (claimSlot r slot) as [b [|]]|].
    destruct (UnmarshalRequests payload); [by destruct (claimSlot r slot) as [b [|]]|done].
  - pose proof (setNoOp_log r slot) as (_ & Hpb & _). rewrite Hpb. by apply setNoOp_inv.
Qed.

Lemma receives_slot r r' s :
  receives r r' -> slotState_of r s <> slotEmpty -> executed r s = true \/ slotState_of r s = slotNoOp ->
  slotState_of r' s = slotState_of r s.
Proof.
  intros [slot c q reqs|slot c q payload isBus|slot] Hs Hor.
  - unfold slotState_of. by rewrite recordBusReceived_log.
  - unfold slotState_of. by rewrite storeRecovered_log.
  - destruct (setNoOp_slot r slot s) as [E|E]; [|by unfold slotState_of; rewrite E|].
    + destruct Hor as [H|H]; [|by left]. destruct (decide (s = slot)) as [->|]; auto.
    + destruct Hor as [H|H]; [|congruence].
      destruct (decide (s = slot)) as [->|Hne].
      * rewrite setNoOp_executed by done. done.
      * pose proof (setNoOp_log r slot) as (_ & _ & Ho & _). unfold slotState_of.
        by rewrite Ho.
Qed.
End receiving.

(** * Executing each request once *)

Section once.
Context {TM : Treemap Value} {TL : TreemapLaws TM}.

(** the requests of a bus that are neither recorded nor repeated *)
Fixpoint first_requests (seen : gset (Z * Z)) (reqs : list RequestMessage) {struct reqs} :
    list RequestMessage :=
  match reqs with
  | [] => []
  | rq :: reqs =>
      if decide (reqKey rq ∈ seen) then first_requests seen reqs
      else rq :: first_requests ({[reqKey rq]} ∪ seen) reqs
  end.

Lemma first_requests_unseen seen reqs rq :
  rq ∈ first_requests seen reqs -> (reqKey rq ∉ seen) /\ rq ∈ reqs.
Proof.
  revert seen. induction reqs as [|rq0 reqs IH]; intros seen; cbn [first_requests];
    [by intros ?%elem_of_nil|].
  case_decide as Hd.
  - intros [? ?]%IH. set_solver.
  - intros [->|Hin]%elem_of_cons; [set_solver|]. apply IH in Hin as [? ?]. set_solver.
Qed.

Lemma first_requests_NoDup seen reqs : NoDup (reqKey <$> first_requests seen reqs).
Proof.
  revert seen. induction reqs as [|rq0 reqs IH]; intros seen; cbn [first_requests]; [constructor|].
  case_decide as Hd; [apply IH|]. cbn [fmap list_fmap]. constructor; [|apply IH].
  intros (rq & E & Hin)%list_elem_of_fmap. apply first_requests_unseen in Hin as [Hn _].
  rewrite E in Hn. set_solver.
Qed.

Lemma exec_requests_once (li : Z) (reqs : list RequestMessage) (d : gmap (Z * Z) Z)
    (st : tm_carrier TM) d' st' ans :
  exec_requests li reqs d st = (d', st', ans) ->
  st' = foldl (fun st rq => executeReq rq st) st (first_requests (dom d) reqs) /\
  dom d' = dom d ∪ list_to_set (reqKey <$> reqs) /\
  Forall2 (fun rq i => (d' !! reqKey rq) = Some i) reqs ans.
Proof.
  revert li d st d' st' ans. induction reqs as [|rq reqs IH]; intros li d st d' st' ans;
    cbn [exec_requests first_requests].
  { intros [= <- <- <-]. split; [done|]. split; [set_solver|constructor]. }
  destruct (d !! reqKey rq) as [i|] eqn:Ed.
  - rewrite decide_True by (apply elem_of_dom; eauto).
    destruct (exec_requests _ reqs d st) as [[d1 st1] a1] eqn:E. intros [= <- <- <-].
    destruct (IH _ _ _ _ _ _ E) as (H1 & H2 & H3). split; [done|]. split.
    + rewrite H2. cbn. assert (reqKey rq ∈ dom d) by (apply elem_of_dom; eauto). set_solver.
    + constructor; [|done]. by eapply exec_requests_keeps.
  - rewrite decide_False by (by apply not_elem_of_dom).
    destruct (exec_requests _ reqs _ _) as [[d1 st1] a1] eqn:E. intros [= <- <- <-].
    destruct (IH _ _ _ _ _ _ E) as (H1 & H2 & H3). split; [|split].
    + cbn [foldl]. rewrite executeReq_Put. rewrite H1, dom_insert_L. done.
    + rewrite H2, dom_insert_L. cbn. set_solver.
    + constructor; [|done]. eapply exec_requests_keeps; [exact E|]. apply lookup_insert_eq.
Qed.
End once.

(** * A concrete replica *)

(** four slots retained; slot 0 and 1 hold buses (the second repeats a request
    of the first), slot 2 nothing, slot 3 a bus *)
#[local] Instance store : Treemap Value := gmap_Treemap Value.
#[local] Instance store_laws : TreemapLaws store := gmap_TreemapLaws Value.

Definition opts4 : RecoveryOptions := mkRecoveryOptions 0 0 0 0 0 4 0.
Definition fresh4 : Replica store :=
  NewReplica (mkConfig 3 1 2 250 []) 0 false dropNone 0 0 opts4.

Definition rq1 : RequestMessage := mkRequestMessage 1 1 0 [x00].
Definition rq2 : RequestMessage := mkRequestMessage 2 1 0 [x01].
Definition rq3 : RequestMessage := mkRequestMessage 1 2 0 [x02].
Definition filled1 : Replica store := (recordBusReceived fresh4 0 1 10 [rq1; rq2]).1.
Definition filled2 : Replica store := (recordBusReceived filled1 1 2 11 [rq1; rq3]).1.
Definition filled3 : Replica store := (recordBusReceived filled2 3 2 13 [rq2]).1.

Lemma fresh4_inv : log_inv fresh4 snap0 0.
Proof. apply NewReplica_inv; by vm_compute. Qed.

Lemma filled3_inv : log_inv filled3 snap0 0.
Proof.
  assert (forall r slot c q reqs, log_inv r snap0 0 ->
    log_inv (recordBusReceived r slot c q reqs).1 snap0 0) as H.
  { intros r slot c q reqs Hr. eapply receives_inv, receives_bus. done. }
  unfold filled3, filled2, filled1. by do 3 apply H; apply fresh4_inv.
Qed.

Lemma filled3_roomy : roomy filled3 0 (S (size (r_globalLog filled3))).
Proof.
  split; [by vm_compute|by vm_compute|].
  assert (map_Forall (fun _ e => entry_len e <= 2 ^ 32) (r_globalLog filled3)) as H; [|exact H].
  apply (bool_decide_unpack _). by vm_compute.
Qed.

(** * The invariant *)

(** A new replica's log is empty and consistent: its rings have the size its
    retention asks for, nothing is executed, and its hash, log index, dedup table
    and store are those of the empty history. *)
Theorem NewReplica_consistent {TM : Treemap Value} {TL : TreemapLaws TM} config idx dl mode every gd opts :
  0 <= o_RetainSlots opts -> o_RetainSlots (withDefaults opts) + 4 < W64 ->
  let r := NewReplica config idx dl mode every gd opts in
  log_inv r snap0 0 /\ r_nextExpected r = 0 /\ forall s, slotState_of r s = slotEmpty.
Proof. intros H0 H1 r. split; [by apply NewReplica_inv|]. done. Qed.

Theorem NewReplica_consistent_witness : log_inv fresh4 snap0 0.
Proof.
  apply (NewReplica_consistent (mkConfig 3 1 2 250 []) 0 false dropNone 0 0 opts4); by vm_compute.
Defined.

(** Filling slots, whether with a client's bus, a payload recovered from a
    peer or a no-op, keeps the log consistent with the same history of executed
    slots, and never changes a slot that is executed or already a no-op. *)
Theorem receiving_keeps_history {TM : Treemap Value} {TL : TreemapLaws TM} (r r' : Replica TM) snap hi :
  log_inv r snap hi -> receives r r' ->
  log_inv r' snap hi /\
  forall s, slotState_of r s <> slotEmpty -> executed r s = true \/ slotState_of r s = slotNoOp ->
    slotState_of r' s = slotState_of r s.
Proof.
  intros Hinv Hr. split; [by eapply receives_inv|]. intros s. by apply receives_slot.
Qed.

Theorem receiving_keeps_history_witness : log_inv (setNoOp filled3 2).1 snap0 0.
Proof. apply (receiving_keeps_history filled3 _ snap0 0 filled3_inv (receives_noop _ 2)). Defined.

(** C2: the execution loop terminates at the first empty slot: it executes
    exactly the run of filled slots that starts at [nextExpected], keeps the log
    consistent with a history that extends the old one, and leaves every slot's
    state as it was. *)
Theorem advance_executes_run {TM : Treemap Value} {TL : TreemapLaws TM} (r : Replica TM) snap hi :
  log_inv r snap hi -> roomy r hi (S (size (r_globalLog r))) ->
  let r' := advance_loop (S (size (r_globalLog r))) r in
  (exists snap' hi', log_inv r' snap' hi' /\
     forall s, s <= r_nextExpected r -> snap' s = snap s) /\
  r_nextExpected r <= r_nextExpected r' /\
  (forall s, r_nextExpected r <= s < r_nextExpected r' -> slotState_of r s <> slotEmpty) /\
  slotState_of r (r_nextExpected r') = slotEmpty /\
  (forall s, slotState_of r' s = slotState_of r s).
Proof.
  intros Hinv Hroom r'. unfold log_inv in *.
  destruct (advance_loop_spec _ _ r snap hi Hinv Hroom) as ((snap' & hi' & Hinv' & Hadv) & _ & Hrun & _).
  pose proof (advance_loop_stops _ r snap hi Hinv Hroom) as Hstop. fold r' in Hinv', Hadv, Hrun, Hstop.
  pose proof (adv_slots _ _ _ _ _ _ Hadv) as Hslots.
  split; [|split; [apply Hadv|split; [done|split; [by rewrite <- Hslots|done]]]].
  exists snap', hi'. destruct (adv_frame _ _ _ _ _ _ Hadv) as (Hpb & _). rewrite Hpb.
  split; [done|apply Hadv].
Qed.

Theorem advance_executes_run_witness :
  slotState_of filled3 (r_nextExpected (advance_loop (S (size (r_globalLog filled3))) filled3))
    = slotEmpty.
Proof.
  destruct (advance_executes_run filled3 snap0 0 filled3_inv filled3_roomy) as (_ & _ & _ & H & _).
  exact H.
Defined.

(** * Executing and undoing *)

(** C3: executing the next slot runs each of its requests at most once, ever: the
    store gets the write of exactly those requests whose key is neither recorded
    from an earlier slot nor repeated within the bus, in order; all its keys are
    recorded; and every request, fresh or repeated, is answered with the log index
    its key was first given. *)
Theorem requests_execute_once {TM : Treemap Value} {TL : TreemapLaws TM} (r : Replica TM) snap hi e :
  log_inv r snap hi -> room_for r hi e ->
  r_globalLog r !! r_nextExpected r = Some e -> ge_state e = slotReceived ->
  exists r' sent,
    advanceNextExpectedOne r = (r', true) /\
    r_State r' = foldl (fun st rq => executeReq rq st) (r_State r)
                   (first_requests (dom (r_dedup r)) (ge_requests e)) /\
    dom (r_dedup r') = dom (r_dedup r) ∪ list_to_set (reqKey <$> ge_requests e) /\
    r_pendingReplies r' = r_pendingReplies r ++ sent /\
    Forall2 (fun rq pr => pr_clientId pr = rq_ClientId rq /\ pr_requestId pr = rq_RequestId rq /\
               Some (pr_logIndex pr) = r_dedup r' !! reqKey rq) (ge_requests e) sent.
Proof.
  intros Hinv Hroom He Hst.
  destruct (advance_one_inv _ r snap hi e Hinv He) as (r' & sn & Ea & _ & Hrest); [by rewrite Hst|done|].
  assert (is_noop e = false) as Hno by (unfold is_noop; by rewrite Hst).
  unfold exec_entry in Hrest. rewrite Hno in Hrest.
  destruct (exec_requests (r_nextLogIndex r) (ge_requests e) (r_dedup r) (r_State r))
    as [[d st] ans] eqn:Eex.
  destruct Hrest as ((e' & _ & _ & Hf) & _ & Hsn & _).
  pose proof (slot_frame_core _ _ _ _ _ _ _ _ _ Hf)
    as (_ & _ & Ed & Es & _ & _ & _ & _ & _ & _ & _ & Ep & _).
  destruct (exec_requests_once _ _ _ _ _ _ _ Eex) as (H1 & H2 & H3).
  exists r', (entry_replies (r_nextExpected r) (view r) e ans).
  split; [done|]. rewrite Es, Ed, Hsn. split; [done|]. split; [done|]. split; [done|].
  unfold entry_replies, replies_of. rewrite Hno. clear -H3.
  induction H3 as [|rq i reqs ans Hi _ IH]; cbn [zip_with]; constructor; auto.
Qed.

Theorem requests_execute_once_witness :
  exists r' sent, advanceNextExpectedOne filled3 = (r', true) /\
    r_State r' = foldl (fun st rq => executeReq rq st) (r_State filled3) [rq1; rq2] /\
    r_pendingReplies r' = r_pendingReplies filled3 ++ sent /\ length sent = 2%nat.
Proof.
  destruct (requests_execute_once filled3 snap0 0
    (default emptyEntry (r_globalLog filled3 !! 0)) filled3_inv) as (r' & sent & H1 & H2 & _ & H4 & H5).
  - split; by vm_compute.
  - by vm_compute.
  - by vm_compute.
  - exists r', sent. split; [exact H1|]. split; [exact H2|]. split; [exact H4|].
    symmetry. exact (Forall2_length _ _ _ H5).
Defined.

Lemma log_inv_dedup_bound {TM : Treemap Value} {TL : TreemapLaws TM} (r : Replica TM) snap hi k i :
  log_inv r snap hi -> r_dedup r !! k = Some i -> i < r_nextLogIndex r.
Proof.
  intros Hinv Hk. destruct (li_dedup _ _ _ _ Hinv k i Hk) as (s & e & rq & Hs & _ & _ & _ & _ & Hi).
  pose proof (li_bounds _ _ _ _ Hinv). destruct (li_top _ _ _ _ Hinv) as (_ & -> & _).
  pose proof (li_mono _ _ _ _ Hinv (s + 1) (r_nextExpected r)). lia.
Qed.



(** The prefix hash and log index a replica reports for an executed slot are
    the history's, as long as no slot executed since reuses its ring position, or
    when the slot has left the ring but its entry is still resident. *)
Theorem prefix_state_reported {TM : Treemap Value} {TL : TreemapLaws TM} (r : Replica TM) snap hi s :
  log_inv r snap hi -> 0 <= s < r_nextExpected r ->
  hi - r_ringSize r <= s \/ r_prunedBelow r <= s < r_nextExpected r - r_ringSize r ->
  prefixHashAt r s = Some (sn_hash (snap (s + 1))) /\
  logIndexAfter r s = Some (sn_logIdx (snap (s + 1))).
Proof. apply prefixHashAt_correct. Qed.

(** C5: pruning keeps the log consistent and never takes an entry that may still
    be needed: nothing at or above the stable slot (or, with no stable slot, the
    next slot to execute) is dropped, the executed prefix's hash, length and store
    are untouched, no dedup key is invented, and it goes on until the resident
    bytes are within budget or nothing below the stable slot is left. *)
Theorem pruning_is_safe {TM : Treemap Value} {TL : TreemapLaws TM} (r : Replica TM) snap hi :
  log_inv r snap hi -> 0 <= prune_limit r < W64 -> 0 <= r_retainBytes r ->
  let r' := pruneCommitted r in
  log_inv r' snap hi /\
  (forall s, prune_limit r <= s -> r_globalLog r' !! s = r_globalLog r !! s) /\
  r_State r' = r_State r /\ r_prefixHash r' = r_prefixHash r /\
  r_prunedBelow r <= r_prunedBelow r' <= Z.max (r_prunedBelow r) (prune_limit r) /\
  within_budget r' (prune_limit r).
Proof.
  intros Hinv Hl Hrb r'. pose proof (li_bounds _ _ _ _ Hinv).
  destruct (pruneCommitted_spec r) as (Htr & Hbud & Hpb); [lia|done..|]. fold r' in Htr, Hbud, Hpb.
  split; [apply pruneCommitted_inv; [done|lia]|]. split; [apply Htr|]. split; [apply Htr|].
  split; [|done]. destruct (tr_history _ _ _ Htr) as (_ & _ & _ & _ & _ & ? & _). done.
Qed.

Definition run4 : Replica store := advance_loop (S (size (r_globalLog filled3))) filled3.

(** [run4] has executed slots 0 and 1 *)
Lemma run4_inv : exists snap hi, log_inv run4 snap hi /\ hi = 2.
Proof.
  destruct (advance_loop_spec _ _ filled3 snap0 0 filled3_inv filled3_roomy)
    as ((snap & hi & Hinv & Hadv) & _).
  fold run4 in Hinv, Hadv. exists snap, hi. split.
  - unfold log_inv. destruct (adv_frame _ _ _ _ _ _ Hadv) as (E & _). rewrite E. exact Hinv.
  - rewrite (adv_hi _ _ _ _ _ _ Hadv). by vm_compute.
Qed.

Theorem prefix_state_reported_witness :
  exists h n, prefixHashAt run4 1 = Some h /\ logIndexAfter run4 1 = Some n.
Proof.
  destruct run4_inv as (snap & hi & Hinv & Hhi).
  destruct (prefix_state_reported run4 snap hi 1 Hinv) as [H1 H2].
  - vm_compute. done.
  - left. rewrite Hhi. vm_compute. done.
  - exists (sn_hash (snap (1 + 1))), (sn_logIdx (snap (1 + 1))). split; [exact H1|exact H2].
Defined.

Theorem pruning_is_safe_witness :
  r_globalLog (pruneCommitted run4) !! 3 = r_globalLog run4 !! 3 /\
  within_budget (pruneCommitted run4) (prune_limit run4).
Proof.
  destruct run4_inv as (snap & hi & Hinv & Hhi).
  destruct (pruning_is_safe run4 snap hi Hinv) as (_ & H1 & _ & _ & _ & H2).
  - by vm_compute.
  - by vm_compute.
  - split; [apply H1; by vm_compute|exact H2].
Defined.

(** * Stability *)

Lemma setStable_cases {TM : Treemap Value} (r : Replica TM) slot :
  let top := Z.min slot (r_nextExpected r - 1) in
  (setStable r slot = r /\
     (r_nextExpected r = 0 \/ (r_haveStable r = true /\ top <= r_stableSlot r))) \/
  (setStable r slot = r <| r_stableSlot := top |> <| r_haveStable := true |> /\
     (r_haveStable r = true -> r_stableSlot r < top) /\ r_nextExpected r <> 0).
Proof.
  cbv zeta. unfold setStable. destruct (Z.eqb_spec (r_nextExpected r) 0) as [E|E]; [auto|].
  replace (if r_nextExpected r - 1 <? slot then r_nextExpected r - 1 else slot)
    with (Z.min slot (r_nextExpected r - 1))
    by (destruct (Z.ltb_spec (r_nextExpected r - 1) slot); lia).
  destruct (negb (r_haveStable r) || _) eqn:Ec.
  - right. split; [reflexivity|]. split; [|exact E]. intros Hh. rewrite Hh in Ec. cbn in Ec. lia.
  - left. split; [reflexivity|]. right. apply orb_false_iff in Ec as [E1 E2].
    apply negb_false_iff in E1. split; [exact E1|lia].
Qed.

(** The stable slot only moves forward, always names an executed slot, and a
    stable announcement for an executed slot is never lost. *)
Theorem stable_monotone {TM : Treemap Value} (r : Replica TM) slot :
  0 <= r_nextExpected r -> (r_haveStable r = true -> r_stableSlot r < r_nextExpected r) ->
  let r' := setStable r slot in
  (r_haveStable r = true -> r_haveStable r' = true /\ r_stableSlot r <= r_stableSlot r') /\
  (r_haveStable r' = true -> r_stableSlot r' < r_nextExpected r') /\
  (0 <= slot < r_nextExpected r -> r_haveStable r' = true /\ slot <= r_stableSlot r').
Proof.
  intros Hn Hst. cbv zeta.
  destruct (setStable_cases r slot) as [[E Hor]|(E & Hlt & Hne)]; rewrite E.
  - split; [intros H; split; [exact H|lia]|]. split; [exact Hst|]. intros Hs.
    destruct Hor as [|[H1 H2]]; [lia|]. split; [exact H1|lia].
  - rsimpl. split; [|split].
    + intros H. specialize (Hlt H). split; [reflexivity|lia].
    + intros _. lia.
    + intros Hs. split; [reflexivity|lia].
Qed.

Theorem stable_monotone_witness :
  r_haveStable (setStable run4 1) = true /\ 1 <= r_stableSlot (setStable run4 1).
Proof.
  destruct (stable_monotone run4 1) as (_ & _ & H).
  - by vm_compute.
  - by vm_compute.
  - apply H. by vm_compute.
Defined.

(** * A stale ring *)

Definition record_bus (r : Replica store) (slot : nat) : Replica store :=
  (recordBusReceived r (Z.of_nat slot) 1 (Z.of_nat slot) []).1.

(** ten slots executed, then the log taken back to slot 5 *)
Definition run10 : Replica store := advance_loop 11 (foldl record_bus fresh4 (seq 0 10)).
Definition back5 : Replica store := (rewindTo run10 5).1.

(** After a rewind a prefix hash can be reported wrongly.  The ring holds six
    hashes; after ten slots are executed and the log is taken back to slot 5, slot
    0 is an executed slot in the ring's window again, but its position was reused
    by slot 6, so the hash reported for slot 0 is slot 6's and not the one its own
    entry recorded. *)
Theorem rewound_ring_is_stale :
  executed back5 0 = true /\ ringValid back5 0 = true /\
  prefixHashAt back5 0 = prefixHashAt run10 6 /\
  prefixHashAt back5 0 <> ge_prefixHash <$> r_globalLog back5 !! 0.
Proof. vm_compute. repeat split; discriminate. Qed.
