(* ===== verification/AgreementProps.v ===== *)
(** Properties of the schedule agreement and of the slot cursor. *)
From S2P Require Import Prelude WireBase Wire WireStream Config Lines GlobalOrder State.
From S2P Require Import ReplicaState Cursor Log LogSpec LogInv Admission.
From S2P Require Import ScheduleProto SchedInv ConfigProps ScheduleProps LogProps.

#[local] Existing Instances store store_laws.

Section steps.
Context {TM : Treemap Value}.
Implicit Types r : Replica TM.

(** one step of the agreement at a replica: a message that passed the decoder,
    a client's request, or a turn of the leader's loop *)
Inductive agreement_step : Replica TM -> Replica TM -> Prop :=
| step_prepare r m : SchdPrepare_wf m -> agreement_step r (handleSchdPrepare r m).1
| step_prepareReply r m : SchdPrepareReply_wf m -> agreement_step r (handleSchdPrepareReply r m)
| step_commit r m : agreement_step r (handleSchdCommit r m)
| step_install r m : BusScheduleInstall_wf m -> agreement_step r (handleScheduleInstall r m).1
| step_request r m lw wall : HsRequest_wf m -> agreement_step r (handleHsRequest r m lw wall).1
| step_loop r wall wall' mono : agreement_step r (scheduleLoop r wall wall' mono).1.

Lemma agreement_step_spec r r' : agreement_step r r' -> sched_inv r -> sched_step r r'.
Proof.
  intros [] Hinv; eauto using handleSchdPrepare_spec, handleSchdPrepareReply_spec,
    handleSchdCommit_spec, handleScheduleInstall_spec, handleHsRequest_spec, scheduleLoop_spec.
Qed.

Lemma agreement_steps_spec r r' : rtc agreement_step r r' -> sched_inv r -> sched_step r r'.
Proof.
  induction 1 as [r|r1 r2 r3 H _ IH]; intros Hinv; [by apply sched_step_refl|].
  pose proof (agreement_step_spec _ _ H Hinv) as H12.
  eapply sched_step_trans; [exact H12|]. apply IH, H12.
Qed.

(** a window that ends by the committed end comes before every one that does
    not *)
Lemma filter_sorted_prefix (e : Z) s :
  schedule_valid s -> filter (fun m => bs_EndTime m <= e) s `prefix_of` s.
Proof.
  intros [_ Hw Hs]. clear -Hw Hs. induction Hs as [|m s Hs IH Hm]; [done|].
  inversion_clear Hw as [|? ? Hw1 Hw2]. rewrite filter_cons. case_decide as Hd.
  - by apply prefix_cons, IH.
  - assert (filter (fun m => bs_EndTime m <= e) s = []) as ->; [|apply prefix_nil].
    assert (Forall (fun m' => ~ bs_EndTime m' <= e) s) as Hno.
    { rewrite Forall_forall in Hm |- *. rewrite Forall_forall in Hw2. intros m' Hin.
      pose proof (wok_end _ (Hw2 m' Hin)). destruct (Hm m' Hin) as [(_ & E & _)|E]; lia. }
    clear -Hno. induction Hno as [|m' s Hn _ IH]; [done|]. rewrite filter_cons, decide_False; done.
Qed.

Lemma committedSchedule_prefix r :
  sched_inv r -> committedSchedule r `prefix_of` r_schedule r.
Proof. intros Hinv. apply filter_sorted_prefix, Hinv. Qed.

(** the log does not see the schedule *)
Lemma log_inv_sched_frame {TL : TreemapLaws TM} r r' snap hi :
  sched_frame r r' -> log_inv r snap hi -> log_inv r' snap hi.
Proof.
  intros Hf Hinv. unfold sched_frame in Hf. rewrite Hf. unfold log_inv, with_sched. rsimpl.
  apply (log_inv_change _ r _ _ _ Hinv); [split; by rsimpl|by rsimpl|rsimpl; by intros].
Qed.

(** ** Committing *)

Lemma acceptSchedulePrepare_same_end r m :
  r_scheduleCommittedEnd (acceptSchedulePrepare r m).1 = r_scheduleCommittedEnd r.
Proof.
  unfold acceptSchedulePrepare. destruct (prepare_rejected r m); [done|].
  destruct (mapM _ _); [|done]. destruct (negb _); [done|]. destruct (group_at _ _); [done|].
  destruct (match last _ with Some s => _ | None => _ end); [done|].
  destruct (_ <? _); [done|]. cbv zeta. cbn [fst]. rsimpl.
  unfold installSchedule. cbv zeta. destruct (schedulesEqual _ _).
  - by destruct (set_epoch_fields r (sp_ViewId m) false) as (_ & _ & _ & _ & _ & ->).
  - set (r1 := _ <| r_schedule := _ |>).
    destruct (set_epoch_fields r1 (sp_ViewId m) false) as (_ & _ & _ & _ & _ & E).
    destruct (schedulePrefix _ _); [by rewrite E|].
    destruct (resetCursor_fields (set_epoch r1 (sp_ViewId m) false)) as (_ & _ & _ & ->).
    by rewrite E.
Qed.

Lemma propose_same_end r now :
  r_scheduleCommittedEnd (propose r now) = r_scheduleCommittedEnd r.
Proof.
  unfold propose. destruct (r_scheduleInstallActive r); [done|]. cbv zeta.
  destruct (_ =? 0); [done|]. rsimpl. destruct (_ <? _); [by rsimpl|].
  set (r1 := r <| r_scheduleRequests ::= _ |>). set (m := {| sp_ReplicaId := _ |}).
  pose proof (acceptSchedulePrepare_same_end r1 m) as E.
  destruct (acceptSchedulePrepare r1 m) as [r2 []]; cbn [fst] in E; rsimpl; by rewrite E.
Qed.

Lemma drive_proposal_commit r msg mono :
  r_scheduleCommittedEnd (drive_proposal r msg mono).1 <> r_scheduleCommittedEnd r ->
  QuorumSize (r_config r) <= Z.of_nat (size (r_schedulePrepared r)) /\
  r_scheduleCommittedEnd (drive_proposal r msg mono).1 = sp_EndTime msg /\
  r_scheduleProposal (drive_proposal r msg mono).1 = None.
Proof.
  unfold drive_proposal. cbv zeta. cbn [fst].
  destruct (Z.leb_spec (QuorumSize (r_config r)) (Z.of_nat (size (r_schedulePrepared r)))) as [H|H];
    cbn [orb]; [by rsimpl|]. destruct (send_due r mono); by rsimpl.
Qed.

(** ** Preparing *)

Lemma take_group_all start l :
  Forall (fun m => bs_FirstMsgNs m = start) l -> take_group start l = l.
Proof.
  induction 1 as [|m l E _ IH]; cbn [take_group]; [done|].
  by rewrite E, Z.eqb_refl, IH.
Qed.

Lemma group_at_app start s1 s2 :
  group_at start s1 = None -> Forall (fun m => bs_FirstMsgNs m = start) s2 -> s2 <> [] ->
  group_at start (s1 ++ s2) = Some s2.
Proof.
  intros H1 H2 Hne. induction s1 as [|m s1 IH]; cbn [group_at app] in *.
  - destruct s2 as [|m s2]; [done|]. pose proof (Forall_inv H2) as E.
    cbn [group_at]. by rewrite E, Z.eqb_refl, take_group_all.
  - destruct (_ =? _); [done|]. auto.
Qed.
End steps.

Section quorum.
Context {TM : Treemap Value}.
Implicit Types r : Replica TM.

(** the replicas counted as having prepared are replicas *)
Definition prepared_ok r : Prop :=
  0 <= r_idx r < cfg_N (r_config r) /\ cfg_N (r_config r) <= W32 /\
  r_schedulePrepared r ⊆ replicas (r_config r).

Lemma elem_of_replicas c j : j ∈ replicas c <-> 0 <= j < cfg_N c.
Proof. unfold replicas. rewrite elem_of_list_to_set, elem_of_seqZ. lia. Qed.

Lemma sched_frame_config r r' :
  sched_frame r r' -> r_config r' = r_config r /\ r_idx r' = r_idx r /\ r_viewId r' = r_viewId r /\
    r_status r' = r_status r.
Proof. unfold sched_frame. intros H. rewrite H. unfold with_sched. by rsimpl. Qed.

Lemma prepared_ok_frame r r' :
  sched_frame r r' -> prepared_ok r ->
  r_schedulePrepared r' = r_schedulePrepared r \/
  (exists j, 0 <= j < cfg_N (r_config r) /\
     (r_schedulePrepared r' = {[j]} ∪ r_schedulePrepared r \/ r_schedulePrepared r' = {[j]})) ->
  prepared_ok r'.
Proof.
  intros (E1 & E2 & _)%sched_frame_config (Hi & HN & Hs) Hp. unfold prepared_ok.
  rewrite E1, E2. split; [done|]. split; [done|].
  destruct Hp as [-> | (j & Hj%elem_of_replicas & [-> | ->])]; set_solver.
Qed.

Lemma set_epoch_prepared r epoch ready :
  r_schedulePrepared (set_epoch r epoch ready) = r_schedulePrepared r.
Proof.
  unfold set_epoch, commitScheduleHistory. cbv zeta. rsimpl.
  destruct ready; [|by rsimpl]. destruct (last (r_schedule r)); by rsimpl.
Qed.

Lemma installSchedule_prepared r s epoch ready :
  r_schedulePrepared (installSchedule r s epoch ready) = r_schedulePrepared r.
Proof.
  unfold installSchedule. cbv zeta. destruct (schedulesEqual _ _); [apply set_epoch_prepared|].
  destruct (schedulePrefix _ _); [by rewrite set_epoch_prepared; rsimpl|].
  unfold resetCursor. cbv zeta. destruct (_ =? 0); rsimpl; by rewrite set_epoch_prepared; rsimpl.
Qed.

Lemma acceptSchedulePrepare_prepared r m :
  r_schedulePrepared (acceptSchedulePrepare r m).1 = r_schedulePrepared r.
Proof.
  unfold acceptSchedulePrepare. destruct (prepare_rejected r m); [done|].
  destruct (mapM _ _); [|done]. destruct (negb _); [done|]. destruct (group_at _ _); [done|].
  destruct (match last _ with Some s => _ | None => _ end); [done|].
  destruct (_ <? _); [done|]. cbv zeta. cbn [fst]. rsimpl. apply installSchedule_prepared.
Qed.

Lemma acceptSchedulePrepare_frame r m : sched_frame r (acceptSchedulePrepare r m).1.
Proof.
  unfold acceptSchedulePrepare. pose proof (sched_frame_refl r). destruct (prepare_rejected r m); [done|].
  destruct (mapM _ _); [|done]. destruct (negb _); [done|]. destruct (group_at _ _); [done|].
  destruct (match last _ with Some s => _ | None => _ end); [done|].
  destruct (_ <? _); [done|]. cbv zeta. cbn [fst].
  eapply sched_frame_trans; [apply installSchedule_frame|]. unfold sched_frame, with_sched. replica_eq.
Qed.

Lemma propose_prepared r now :
  r_schedulePrepared (propose r now) = r_schedulePrepared r \/
  r_schedulePrepared (propose r now) = {[u32 (r_idx r)]}.
Proof.
  unfold propose. destruct (r_scheduleInstallActive r); [by left|]. cbv zeta.
  destruct (_ =? 0); [by left|]. rsimpl. destruct (_ <? _); [left; by rsimpl|].
  set (r1 := r <| r_scheduleRequests ::= _ |>). set (m := {| sp_ReplicaId := _ |}).
  pose proof (acceptSchedulePrepare_prepared r1 m) as E.
  pose proof (acceptSchedulePrepare_frame r1 m) as Hf.
  destruct (acceptSchedulePrepare r1 m) as [r2 []]; cbn [fst] in E, Hf.
  - right. rsimpl. apply sched_frame_config in Hf as (_ & E2 & _). by rewrite E2.
  - left. by rewrite E.
Qed.

Lemma agreement_step_prepared r r' :
  sched_inv r -> agreement_step r r' -> prepared_ok r -> prepared_ok r'.
Proof.
  intros Hinv Hstep Hp. pose proof (ss_frame _ _ (agreement_step_spec _ _ Hstep Hinv)) as Hf.
  apply (prepared_ok_frame r r' Hf Hp). clear Hf. destruct Hstep as [r m Hm|r m Hm|r m|r m Hm|r m lw wall Hm|r wall wall' mono].
  - left. unfold handleSchdPrepare. pose proof (acceptSchedulePrepare_prepared r m) as E.
    by destruct (acceptSchedulePrepare r m).
  - unfold handleSchdPrepareReply. destruct (r_scheduleProposal r); [|by left].
    destruct (_ && (_ <? _)) eqn:E; [|by left]. right. apply andb_prop in E as [_ E%Z.ltb_lt].
    destruct Hm as (Hj & _). exists (spr_ReplicaId m). split; [word_lia|]. left. by rsimpl.
  - left. unfold handleSchdCommit. destruct (_ || _); [done|]. destruct (existsb _ _); [|done].
    cbv zeta. destruct (_ <? _); by rsimpl.
  - left. unfold handleScheduleInstall. destruct (install_rejected r m); [done|].
    destruct (last _); [|done]. destruct (schedulePrefix _ _); [apply installSchedule_prepared|].
    destruct (schedulePrefix _ _); [|done]. cbv zeta. destruct (_ <? _); by rsimpl.
  - left. unfold handleHsRequest. cbv zeta. destruct (_ || _); [done|]. destruct (_ || _); [done|].
    destruct (scheduled_reply r m); [done|]. destruct (request_too_late_or_early _ _ _); [done|].
    destruct (_ && _); by rsimpl.
  - unfold scheduleLoop. destruct (_ || _); [by left|]. cbv zeta.
    set (r1 := expireScheduleRequests r (u64 wall)). set (r2 := propose r1 (u64 wall')).
    assert (r_schedulePrepared r2 = r_schedulePrepared r \/
            exists j, 0 <= j < cfg_N (r_config r) /\ r_schedulePrepared r2 = {[j]}) as H2.
    { destruct (propose_prepared r1 (u64 wall')) as [E|E]; [by left|right].
      destruct Hp as (Hi & HN & _). exists (r_idx r). split; [done|].
      assert (u32 (r_idx r) = r_idx r) as Eu by (apply u32_small; word_lia). unfold r2. rewrite E. change (r_idx r1) with (r_idx r). by rewrite Eu. }
    assert (forall r3, r_schedulePrepared r3 = r_schedulePrepared r2 ->
      r_schedulePrepared r3 = r_schedulePrepared r \/
      exists j, 0 <= j < cfg_N (r_config r) /\ (r_schedulePrepared r3 = {[j]} ∪ r_schedulePrepared r \/
        r_schedulePrepared r3 = {[j]})) as Hend by (intros r3 ->; naive_solver).
    apply Hend. destruct (r_scheduleProposal r2).
    + unfold drive_proposal. cbv zeta. cbn [fst]. destruct (QuorumSize _ <=? _); cbn [orb];
        [by rsimpl|]. destruct (send_due _ _); by rsimpl.
    + unfold repeat_schedule. destruct (_ && _); by rsimpl.
Qed.
End quorum.

(** * A concrete agreement *)

(** Replica 0 of three leads view 0.  At 1000 windows after the epoch client 7
    asks for window 1002; the window is proposed, replica 1 accepts, and the
    leader's next turn commits it. *)
Definition w250 : Z := 250000000.
Definition leader0 : Replica store := NewReplica sample_config 0 false dropNone 0 0 opts4.
Definition ask7 : HsRequest := mkHsRequest 7 (1002 * w250) 50.
Definition asked : Replica store := (handleHsRequest leader0 ask7 17 (1000 * w250)).1.
Definition proposed : Replica store := (scheduleLoop asked (1001 * w250) (1001 * w250) 0).1.
Definition reply1 : SchdPrepareReply := mkSchdPrepareReply 1 0 (1002 * w250) (1003 * w250).
Definition answered : Replica store := handleSchdPrepareReply proposed reply1.
Definition agreed : Replica store := (scheduleLoop answered (1001 * w250) (1001 * w250) 1).1.

Lemma NewReplica_sched_inv {TM : Treemap Value} config idx dl mode every gd opts :
  0 <= cfg_ExpectedClients config ->
  sched_inv (NewReplica config idx dl mode every gd opts).
Proof.
  intros Hc. unfold NewReplica. cbv zeta. split; cbn; try done.
  - split; [done|constructor|constructor].
  - by left.
Qed.

Lemma agreed_steps : rtc agreement_step leader0 agreed.
Proof.
  eapply rtc_l; [apply (step_request leader0 ask7 17 (1000 * w250))|].
  { split_and!; by vm_compute. }
  eapply rtc_l; [apply (step_loop asked (1001 * w250) (1001 * w250) 0)|].
  eapply rtc_l; [apply (step_prepareReply proposed reply1)|].
  { split_and!; by vm_compute. }
  eapply rtc_l; [apply (step_loop answered (1001 * w250) (1001 * w250) 1)|].
  apply rtc_refl.
Qed.

Lemma leader0_inv : sched_inv leader0.
Proof. apply NewReplica_sched_inv. by vm_compute. Qed.

Lemma agreed_inv : sched_inv agreed.
Proof. apply (agreement_steps_spec _ _ agreed_steps leader0_inv). Qed.

Example agreed_schedule :
  r_schedule agreed = [mkBusSyncMessage (1003 * w250) 7 (1002 * w250) 50] /\
  r_scheduleCommittedEnd agreed = 1003 * w250.
Proof. by vm_compute. Qed.

(** * The agreement *)

(** C30: from a new replica on, whatever messages, requests and loop turns come
    in whatever order, the installed schedule stays valid, the client lines stay
    its lines, the committed end is 0 or the end of a scheduled window, the open
    requests of a window never outgrow the configured clients; windows are only
    appended; what [committedScheduleLocked] sends is a prefix of the schedule;
    and the bus log is untouched. *)
Theorem agreement_invariant {TM : Treemap Value} {TL : TreemapLaws TM} (r r' : Replica TM) :
  sched_inv r -> rtc agreement_step r r' ->
  sched_inv r' /\ r_schedule r `prefix_of` r_schedule r' /\
  committedSchedule r' `prefix_of` r_schedule r' /\
  forall snap hi, log_inv r snap hi -> log_inv r' snap hi.
Proof.
  intros Hinv Hs. destruct (agreement_steps_spec r r' Hs Hinv) as [Hinv' Hf [s2 E]].
  split; [done|]. split; [by exists s2|]. split; [by apply committedSchedule_prefix|].
  intros snap hi. by apply log_inv_sched_frame.
Qed.

Theorem agreement_invariant_witness :
  sched_inv agreed /\ committedSchedule agreed `prefix_of` r_schedule agreed.
Proof.
  destruct (agreement_invariant leader0 agreed leader0_inv agreed_steps) as (H1 & _ & H2 & _).
  by split.
Defined.


Lemma answered_inv : sched_inv answered /\ prepared_ok answered.
Proof.
  assert (prepared_ok leader0) as H0.
  { split; [by vm_compute|]. split; [by vm_compute|]. by intros j H. }
  pose proof (step_request leader0 ask7 17 (1000 * w250) ltac:(split_and!; by vm_compute)) as S1.
  pose proof (step_loop asked (1001 * w250) (1001 * w250) 0) as S2.
  pose proof (step_prepareReply proposed reply1 ltac:(split_and!; by vm_compute)) as S3.
  pose proof (ss_inv _ _ (agreement_step_spec _ _ S1 leader0_inv)) as I1.
  pose proof (ss_inv _ _ (agreement_step_spec _ _ S2 I1)) as I2.
  split; [exact (ss_inv _ _ (agreement_step_spec _ _ S3 I2))|].
  apply (agreement_step_prepared _ _ I2 S3), (agreement_step_prepared _ _ I1 S2),
    (agreement_step_prepared _ _ leader0_inv S1), H0.
Qed.


(** A prepared window stays prepared: a follower that has accepted a
    proposal has its windows in the schedule, and accepting the same proposal
    again, as the leader resends it until it is committed, answers yes again and
    changes nothing. *)
Theorem prepare_idempotent {TM : Treemap Value} (r r' : Replica TM) m :
  sched_inv r -> SchdPrepare_wf m -> acceptSchedulePrepare r m = (r', true) ->
  acceptSchedulePrepare r' m = (r', true) /\
  exists entries, mapM (prepare_entry m) (sp_HsReqList m) = Some entries /\
    group_at (sp_StartTime m) (r_schedule r') = Some entries.
Proof.
  intros Hinv Hwf Ha. pose proof (acceptSchedulePrepare_frame r m) as Hf. rewrite Ha in Hf.
  cbn [fst] in Hf. destruct (sched_frame_config _ _ Hf) as (E1 & E2 & E3 & E4).
  assert (prepare_rejected r' m = prepare_rejected r m) as Er.
  { unfold prepare_rejected, view, leaderIdx, view. by rewrite E1, E3, E4. }
  unfold acceptSchedulePrepare in *. rewrite Er. destruct (prepare_rejected r m) eqn:Erej; [done|].
  destruct (mapM _ _) as [entries|] eqn:Em; [|done].
  destruct (negb (validateSchedule entries)) eqn:Ev; [done|].
  assert (group_at (sp_StartTime m) (r_schedule r') = Some entries) as Eg.
  2:{ rewrite Eg. rewrite (proj2 (schedulesEqual_spec entries entries) eq_refl). eauto. }
  destruct (group_at _ (r_schedule r)) as [g|] eqn:Eg.
  { injection Ha as <- Eq%schedulesEqual_spec. by rewrite Eg, Eq. }
  destruct (match last _ with Some s => _ | None => _ end) eqn:El; [done|].
  destruct (Z.ltb_spec MaxScheduleHistoryLen (Zlength (r_schedule r) + Zlength entries)); [done|].
  destruct (prepare_entries m _ _ Em) as (Hlen & Hall & Hu64).
  apply negb_false_iff, validateSchedule_spec in Ev; [|apply Hu64, Hwf].
  destruct (schedule_valid_app (r_schedule r) entries (sci_valid r Hinv) Ev) as [Hv _].
  { rewrite length_app. lia. }
  { intros m1 m2 Hl Hm2. rewrite Hl in El. apply Z.ltb_ge in El.
    rewrite Forall_forall in Hall. destruct (Hall m2 Hm2) as [-> _]. done. }
  destruct (installSchedule_inv r entries (sp_ViewId m) false Hinv Hv) as (_ & Es & _).
  injection Ha as <-. rsimpl. rewrite Es. apply group_at_app; [done| |].
  - eapply Forall_impl; [exact Hall|]. by intros ? [? _].
  - intros ->. unfold prepare_rejected in Erej. destruct (sp_HsReqList m); [|done].
    cbn in Erej. by rewrite !orb_true_r in Erej.
Qed.

Definition follower0 : Replica store := NewReplica sample_config 1 false dropNone 0 0 opts4.
Definition prepare7 : SchdPrepare :=
  mkSchdPrepare 0 0 [ask7] (1002 * w250) (1003 * w250).

Lemma prepare7_wf : SchdPrepare_wf prepare7.
Proof.
  do 4 (split; [by vm_compute|]). split; [by vm_compute|].
  apply Forall_cons. split; [split_and!; by vm_compute|by apply Forall_nil].
Qed.

Theorem prepare_idempotent_witness :
  exists r', acceptSchedulePrepare follower0 prepare7 = (r', true) /\
    acceptSchedulePrepare r' prepare7 = (r', true).
Proof.
  exists (acceptSchedulePrepare follower0 prepare7).1.
  assert (acceptSchedulePrepare follower0 prepare7 =
    ((acceptSchedulePrepare follower0 prepare7).1, true)) as E by (by vm_compute).
  split; [exact E|]. refine (proj1 (prepare_idempotent follower0 _ prepare7 _ _ E)).
  - apply NewReplica_sched_inv. by vm_compute.
  - exact prepare7_wf.
Defined.

(** * Admission under the agreed schedule *)

Section admission.
Context {TM : Treemap Value}.
Implicit Types r : Replica TM.

Lemma validSequence_u64 cl s end_ :
  line_ok cl -> 0 <= s -> validSequence cl s end_ = true -> s <= MaxInt64.
Proof.
  intros Hok Hs. unfold validSequence.
  pose proof (line_windows_pos cl Hok) as Hne. apply Nat.ltb_lt in Hne.
  rewrite (proj2 (Nat.eqb_neq _ _)) by lia.
  destruct (search_window_spec cl s Hok) as (_ & _ & Hhi).
  destruct (cl_windows cl !! _) as [w|] eqn:Ew; [|done]. intros _.
  specialize (Hhi _ w Ew ltac:(lia)). pose proof (line_window_ok _ _ _ Hok Ew) as [_ _ He _]. lia.
Qed.

(** noting the last sequence seen keeps the lines *)
Lemma lines_of_seen lines s c line seq :
  lines_of lines s -> lines !! c = Some line ->
  lines_of (<[c := line <| cl_maxSeqSeen := seq |>]> lines) s.
Proof.
  intros Hl Hc c'. specialize (Hl c'). cbv zeta in *. destruct (decide (c = c')) as [<-|Hne].
  - rewrite lookup_insert_eq. rewrite Hc in Hl. exact Hl.
  - by rewrite lookup_insert_ne.
Qed.

(** what admission may change: the lines' last sequences and the statistics *)
Lemma admitLocked_spec r cid seq ns :
  sched_inv r ->
  let r' := (admitLocked r cid seq ns).1 in
  sched_inv r' /\ r_schedule r' = r_schedule r /\
  r_scheduleCommittedEnd r' = r_scheduleCommittedEnd r.
Proof.
  intros Hinv. unfold admitLocked. destruct (r_clients r !! cid) as [line|] eqn:Ec; [|done].
  destruct (_ || _); [done|].
  set (p := if cl_maxSeqSeen line <? seq then _ else _).
  assert (sched_inv p.1 /\ r_schedule p.1 = r_schedule r /\
          r_scheduleCommittedEnd p.1 = r_scheduleCommittedEnd r) as Hp.
  { unfold p. destruct (_ <? _); [|done]. cbn [fst]. split; [|by split; rsimpl].
    destruct Hinv. split; rsimpl; [done| |done..]. by apply lines_of_seen. }
  clearbody p. destruct p as [r1 line1]. cbn [fst] in Hp. cbv zeta.
  assert (forall r2, r_schedule r2 = r_schedule r1 -> r_clients r2 = r_clients r1 ->
    r_scheduleCommittedEnd r2 = r_scheduleCommittedEnd r1 ->
    r_scheduleProposal r2 = r_scheduleProposal r1 -> r_config r2 = r_config r1 ->
    r_scheduleRequests r2 = r_scheduleRequests r1 ->
    sched_inv r2 /\ r_schedule r2 = r_schedule r /\
    r_scheduleCommittedEnd r2 = r_scheduleCommittedEnd r) as Hsame.
  { intros r2 E1 E2 E3 E4 E5 E6. destruct Hp as ([] & <- & <-). rewrite E1, E3.
    split; [|done]. split; by rewrite ?E1, ?E2, ?E3, ?E4, ?E5, ?E6. }
  destruct (negb (scheduleActive r1)); [apply Hsame; by rsimpl|].
  destruct (shouldDrop _ _); [apply Hsame; by rsimpl|]. cbn [fst]. unfold observeArrival. cbv zeta.
  destruct (r_winRecv r1 =? 0); [apply Hsame; by rsimpl|].
  destruct (_ <? r_winDeltaMinUs r1); cbv zeta; destruct (_ <? _); apply Hsame; by rsimpl.
Qed.

Lemma admitted_valid r r' cid seq ns :
  admitLocked r cid seq ns = (r', admitted) ->
  exists line, r_clients r !! cid = Some line /\ seq <> 0 /\
    validSequence line seq (r_scheduleCommittedEnd r) = true /\
    r_scheduleReady r = true.
Proof.
  unfold admitLocked. destruct (r_clients r !! cid) as [line|]; [|done].
  destruct (Z.eqb_spec seq 0); [done|]. cbn [orb].
  destruct (validSequence _ _ _) eqn:Ev; [|done]. cbn [negb].
  destruct (r_scheduleReady r) eqn:Er; [by eauto|].
  destruct (cl_maxSeqSeen line <? seq); unfold scheduleActive; rsimpl; rewrite Er; cbn; done.
Qed.
End admission.

(** A bus is admitted only where the agreement put it: its client is
    scheduled to arrive at exactly that time in a window the committed schedule
    covers, time 0 apart, and the slot computed for it is the number of
    scheduled buses that precede it; admission keeps the agreement's invariant. *)
Theorem admitted_bus_scheduled {TM : Treemap Value} (r r' : Replica TM) cid seq ns :
  sched_inv r -> Zlength (all_buses (r_clients r)) < W64 -> 0 <= seq ->
  admitLocked r cid seq ns = (r', admitted) ->
  sched_inv r' /\ r_scheduleReady r = true /\ seq <> 0 /\
  (exists m, m ∈ r_schedule r /\ bs_ClientId m = cid /\ seq ∈ window_arrivals m /\
     bs_EndTime m <= r_scheduleCommittedEnd r) /\
  computeGlobalSlot (r_clients r') cid seq = rank (r_clients r) (seq, cid).
Proof.
  intros Hinv Htot Hseq Ha. destruct (admitted_valid _ _ _ _ _ Ha) as (line & Hc & H0 & Hv & Hr).
  pose proof (admitLocked_spec r cid seq ns Hinv) as (Hinv' & Es & _). rewrite Ha in *. cbn [fst] in *.
  pose proof (lines_of_ok _ _ (sci_lines r Hinv) (sci_valid r Hinv)) as Hok.
  pose proof (validSequence_u64 line seq _ (Hok _ _ Hc) Hseq Hv) as Hmax.
  apply validSequence_spec in Hv as (i & w & Hw & Hin & He); [|by eapply Hok|lia].
  pose proof (sci_lines r Hinv cid) as Hl. cbv zeta in Hl. rewrite Hc in Hl.
  destruct Hl as (_ & Hws & _). apply list_elem_of_lookup_2 in Hw. rewrite Hws in Hw.
  apply list_elem_of_filter in Hw as [Hcw Hw].
  split; [done|]. split; [done|]. split; [done|]. split; [by exists w|].
  assert (scheduled (r_clients r) (seq, cid)) as Hb.
  { apply (scheduled_entry _ _ _ (sci_lines r Hinv)). by exists w. }
  pose proof (sci_lines r' Hinv') as Hl'. pose proof (sci_valid r' Hinv') as Hv'. rewrite Es in Hl', Hv'.
  rewrite <- (app_nil_r (r_schedule r)) in Hl', Hv'.
  rewrite <- (rank_extend _ _ _ [] _ (sci_lines r Hinv) Hl' Hv' ltac:(intros ? ? _ []%elem_of_nil) Hb).
  pose proof (scheduled_extend _ _ _ [] _ (sci_lines r Hinv) Hl' Hb) as Hb'.
  pose proof (lines_of_ok _ _ Hl' Hv') as Hok'. pose proof (rank_bound _ _ Hb') as Hrk.
  destruct Hb' as (cl & Hc' & _). cbn [snd] in Hc'.
  rewrite (computeGlobalSlot_rank _ cid cl seq Hok' Hc') by lia. apply u64_small.
  rewrite app_nil_r in Hl', Hv'.
  pose proof (all_buses_extend (r_clients r') (r_clients r) (r_schedule r) [] Hl') as Hle.
  rewrite app_nil_r in Hle. specialize (Hle (sci_lines r Hinv) Hv'). word_lia.
Qed.

Theorem admitted_bus_scheduled_witness :
  computeGlobalSlot (r_clients (admitLocked agreed 7 (1002 * w250 + 50000000) 0).1) 7
    (1002 * w250 + 50000000) = rank (r_clients agreed) (1002 * w250 + 50000000, 7).
Proof.
  apply (admitted_bus_scheduled agreed _ 7 (1002 * w250 + 50000000) 0 agreed_inv); by vm_compute.
Defined.

(** * Slot owners *)

Section owners.
Context {TM : Treemap Value}.
Implicit Types r : Replica TM.

Lemma slotOwner_bus r b :
  cursor_inv r -> scheduled (r_clients r) b -> r_prunedBelow r <= rank (r_clients r) b ->
  (slotOwner r (rank (r_clients r) b)).2 = mkslotMetaEntry b.2 b.1 b.1.
Proof.
  intros Hinv Hb Hp. pose proof (rank_bound _ _ Hb) as Hr.
  pose proof (slotOwner_spec r (rank (r_clients r) b) Hinv Hp ltac:(lia)) as H. cbv zeta in H.
  rewrite decide_True in H by lia. destruct H as (Hs & Hrk & He).
  destruct (slotOwner r _).2 as [c q y]. cbn [sm_reqId sm_clientId sm_expectedNs] in *. subst y.
  apply (rank_inj (r_clients r)) in Hrk; [|done|done]. by subst b.
Qed.

Lemma slot_of_rank r b :
  lines_ok (r_clients r) -> Zlength (all_buses (r_clients r)) < W64 -> scheduled (r_clients r) b ->
  computeGlobalSlot (r_clients r) b.2 b.1 = rank (r_clients r) b.
Proof.
  intros Hok Htot Hb. pose proof (scheduled_time _ _ Hok Hb). pose proof (rank_bound _ _ Hb).
  destruct b as [t c], Hb as (cl & Hc & _). cbn [fst snd] in *.
  rewrite (computeGlobalSlot_rank _ c cl t Hok Hc) by lia. apply u64_small. word_lia.
Qed.
End owners.

(** [slotOwnerLocked] inverts [computeGlobalSlot]: from any cursor that is
    in step with the lines, the owner looked up for a bus's slot is that bus, and
    beyond the last scheduled bus nobody owns a slot. *)
Theorem slotOwner_inverts_computeGlobalSlot {TM : Treemap Value} (r : Replica TM) :
  cursor_inv r ->
  (forall b, scheduled (r_clients r) b ->
     let slot := computeGlobalSlot (r_clients r) b.2 b.1 in
     r_prunedBelow r <= slot -> (slotOwner r slot).2 = mkslotMetaEntry b.2 b.1 b.1) /\
  forall slot, Zlength (all_buses (r_clients r)) <= slot -> r_prunedBelow r <= slot ->
    (slotOwner r slot).2 = slotMeta0.
Proof.
  intros Hinv. split.
  - intros b Hb. cbv zeta. rewrite slot_of_rank by (done || apply Hinv). by apply slotOwner_bus.
  - intros slot Hge Hp. pose proof (slotOwner_spec r slot Hinv Hp ltac:(lia)) as H. cbv zeta in H.
    by rewrite decide_False in H by lia.
Qed.

(** [resetCursorLocked] re-establishes the cursor from the pruned slot on,
    whatever it held before, by binary search for the time of that slot: every
    slot not pruned is again attributed to its bus. *)
Theorem resetCursor_restores_owners {TM : Treemap Value} (r : Replica TM) b :
  lines_ok (r_clients r) -> lines_positive (r_clients r) ->
  Zlength (all_buses (r_clients r)) < W64 ->
  0 <= r_prunedBelow r -> scheduled (r_clients r) b ->
  let slot := computeGlobalSlot (r_clients r) b.2 b.1 in
  r_prunedBelow r <= slot ->
  cursor_inv (resetCursor r) /\ (slotOwner (resetCursor r) slot).2 = mkslotMetaEntry b.2 b.1 b.1.
Proof.
  intros Hok Hpos Htot Hp Hb slot. unfold slot. rewrite slot_of_rank by done. intros Hps.
  pose proof (rank_bound _ _ Hb).
  destruct (resetCursor_inv r Hok Hpos Htot ltac:(lia)) as [Hinv (a & c & d & E)].
  split; [done|].
  assert (r_clients (resetCursor r) = r_clients r /\ r_prunedBelow (resetCursor r) = r_prunedBelow r)
    as [Ec Epb] by (rewrite E; by rsimpl).
  pose proof (slotOwner_bus (resetCursor r) b Hinv) as H1. rewrite Ec, Epb in H1. by apply H1.
Qed.

(** the sample schedule with two slots pruned *)
Definition pruned2 : Replica store :=
  fresh4 <| r_clients := schedule_lines ∅ sample_schedule |> <| r_prunedBelow := 2 |>
    <| r_cursorSlot := 77 |>.

Lemma sample_positive : lines_positive sample_lines.
Proof.
  intros b Hb%elem_of_all_buses. revert b Hb.
  assert (Forall (fun b : Z * Z => 0 < b.1) (all_buses sample_lines)) as H.
  { apply (bool_decide_unpack _). by vm_compute. }
  by apply Forall_forall.
Qed.

Lemma pruned2_inv : cursor_inv (resetCursor pruned2).
Proof.
  apply (resetCursor_inv pruned2).
  - exact (schedule_lines_ok ∅ sample_schedule sample_valid_1).
  - exact sample_positive.
  - exact sample_total.
  - by vm_compute.
Qed.

Theorem slotOwner_inverts_computeGlobalSlot_witness :
  (slotOwner (resetCursor pruned2) 3).2 = mkslotMetaEntry 2 3000000 3000000.
Proof.
  exact (proj1 (slotOwner_inverts_computeGlobalSlot (resetCursor pruned2) pruned2_inv) (3000000, 2)
    sample_scheduled ltac:(by vm_compute)).
Defined.

Theorem resetCursor_restores_owners_witness :
  (slotOwner (resetCursor pruned2) 3).2 = mkslotMetaEntry 2 3000000 3000000.
Proof.
  apply (resetCursor_restores_owners pruned2 (3000000, 2)
    (schedule_lines_ok ∅ sample_schedule sample_valid_1) sample_positive sample_total);
    [by vm_compute|exact sample_scheduled|by vm_compute].
Defined.
