(* ===== verification/NodeInv.v ===== *)
(** The invariant of a replica, over every step it takes: a message of a
    connection, a turn of a goroutine, a connection that ends
    ([src/paxosbus/internal/protocol/replica.go]: [clientListener], [serve]). *)
From S2P Require Import Prelude WireBase Wire WireStream Config Lines GlobalOrder State ReplicaState Cursor Log LogSpec LogInv Admission ScheduleProto SchedInv Merge Gaps Sync ViewChange Recovery LogFrame ViewInv RecoveryInv RecoveryLog RecoveryExec FetchLog DurableLog Serve Listener ConfigProps LogProps AgreementProps.

Section node.
Context {TM : Treemap Value} {TL : TreemapLaws TM}.
Implicit Types r : Replica TM.

(** the slots below it are committed *)
Definition floor r : Z := suffixBase (r_stableSlot r) (r_haveStable r).

(** the counters have room for executing the whole log and [k] entries more *)
Definition room r (hi : Z) (k : nat) : Prop := roomy r hi (S (size (r_globalLog r)) + k).

Lemma room_le r hi k k' : room r hi k -> (k' <= k)%nat -> room r hi k'.
Proof. intros H Hk. eapply roomy_le; [exact H|lia]. Qed.

(** ** Filling *)

(** a step that fills at most one slot, above the executed prefix *)
Record fills_one r r' : Prop := {
  fo_core : same_core r r';
  fo_retain : r_retainBytes r' = r_retainBytes r;
  fo_pending : r_pendingBuses r' = r_pendingBuses r;
  fo_pruned : r_prunedBelow r' = r_prunedBelow r;
  fo_stable : r_haveStable r' = r_haveStable r /\ r_stableSlot r' = r_stableSlot r;
  fo_log : exists s, forall s' e, r_globalLog r' !! s' = Some e ->
    r_globalLog r !! s' = Some e \/ s' = s /\ entry_len e <= 2 ^ 32;
  fo_inv : forall snap hi, log_inv r snap hi -> log_inv r' snap hi }.

Lemma fills_refl r : fills_one r r.
Proof. split; try done. exists 0. auto. Qed.

Lemma fills_room r r' hi k : fills_one r r' -> room r hi (S k) -> room r' hi k.
Proof.
  intros [[] _ _ _ _ [s Hl] _] [H1 H2 H3].
  assert (Hsz : (size (r_globalLog r') <= S (size (r_globalLog r)))%nat).
  { rewrite <- !size_dom. transitivity (size ({[s]} ∪ dom (r_globalLog r))).
    - apply subseteq_size. intros s' [e He]%elem_of_dom.
      destruct (Hl s' e He) as [E|[-> _]]; [|set_solver]. apply elem_of_union_r, elem_of_dom. eauto.
    - pose proof (size_union_alt (C:=gset Z) {[s]} (dom (r_globalLog r))) as E.
      rewrite E, size_singleton.
      assert (size (dom (r_globalLog r) ∖ {[s]}) <= size (dom (r_globalLog r)))%nat
        by (apply subseteq_size; set_solver).
      lia. }
  unfold room in *. split; rewrite ?sc_next, ?sc_ringSize, ?sc_nextLogIndex; [lia|lia|].
  intros s' e He. destruct (Hl s' e He) as [E|[_ E]]; [by eapply H3|done].
Qed.

Lemma kept_fills r r' s :
  log_kept (eq s) r r' -> same_core r r' -> r_retainBytes r' = r_retainBytes r ->
  r_pendingBuses r' = r_pendingBuses r ->
  (forall s' e, r_globalLog r' !! s' = Some e -> r_globalLog r !! s' = Some e \/ s' = s /\ entry_len e <= 2 ^ 32) ->
  (forall snap hi, log_inv r snap hi -> log_inv r' snap hi) -> fills_one r r'.
Proof. intros [] Hc Hr Hp Hl Hi. split; try done. by exists s. Qed.

Lemma claimed_fills r s (e : globalEntry) n :
  ge_state e = slotReceived -> ge_ownerSet e = true -> ge_undo e = [] -> Zlength (ge_requests e) <= 2 ^ 32 ->
  fills_one r (if (claimSlot r s).2
               then (setEntry (claimSlot r s).1 s e) <| r_residentBytes ::= n |> else (claimSlot r s).1).
Proof.
  intros Hst How Hun Hlen.
  pose proof (claimed_kept r s e n Hst) as [Hk _]. cbv zeta in Hk.
  pose proof (claimSlot_spec r s) as (Hc & Hp & Ho & Hs & _).
  assert (Hx : r_retainBytes (claimSlot r s).1 = r_retainBytes r /\
               r_pendingBuses (claimSlot r s).1 = r_pendingBuses r).
  { unfold claimSlot, slotEntry, observeSlot.
    destruct (_ || _); rsimpl; destruct (r_globalLog r !! s); by rsimpl. }
  assert (Hbase : forall s' e0, r_globalLog (claimSlot r s).1 !! s' = Some e0 ->
            r_globalLog r !! s' = Some e0 \/ s' = s /\ entry_len e0 <= 2 ^ 32).
  { intros s' e0. destruct (decide (s' = s)) as [->|]; [|rewrite Ho by done; by left].
    rewrite Hs. destruct (r_globalLog r !! s); cbn; intros [= <-]; [by left|]. right. split; [done|]. by vm_compute. }
  assert (Hclaim : forall snap hi, log_inv r snap hi -> log_inv (claimSlot r s).1 snap hi).
  { intros snap hi Hinv. unfold log_inv. rewrite Hp. by apply log_inv_claimSlot. }
  destruct (claimSlot r s) as [b free] eqn:Ec. cbn [fst snd] in *. destruct Hx as [Hx1 Hx2].
  destruct free; [|by eapply kept_fills].
  eapply kept_fills; [exact Hk|destruct Hc; unfold setEntry; split; by rsimpl|by unfold setEntry; rsimpl|
    by unfold setEntry; rsimpl| |].
  - intros s' e0. unfold setEntry. rsimpl. destruct (decide (s' = s)) as [->|].
    + rewrite lookup_insert_eq. intros [= <-]. right. split; [done|]. unfold entry_len.
      by destruct (is_noop e).
    + rewrite lookup_insert_ne by done. apply Hbase.
  - intros snap hi Hinv. unfold log_inv, setEntry. rsimpl. rewrite Hp.
    eapply (log_inv_claim _ r snap hi s e b); [exact Hinv|exact Ec|by split| |];
      unfold setEntry; [split; by rsimpl|by rsimpl].
Qed.

Lemma recordBusReceived_fills r s c q reqs : Zlength reqs <= 2 ^ 32 ->
  fills_one r (recordBusReceived r s c q reqs).1.
Proof.
  intros Hl. unfold recordBusReceived.
  match goal with |- context [setEntry _ s ?e] =>
    pose proof (claimed_fills r s e (fun n => add64 n (busSizeBytes reqs)) eq_refl eq_refl eq_refl Hl) as H end.
  by destruct (claimSlot r s) as [b []].
Qed.

Lemma storeRecovered_fills r s c q payload isBus : fills_one r (storeRecovered r s c q payload isBus).1.
Proof.
  unfold storeRecovered, recordReceived. destruct isBus; cbn [negb].
  - destruct (UnmarshalRequests payload) as [reqs|] eqn:E; [|apply fills_refl].
    apply recordBusReceived_fills. apply UnmarshalRequests_wf in E as [E _]. word_lia.
  - match goal with |- context [setEntry _ s ?e] =>
      pose proof (claimed_fills r s e (fun n => add64 n (add64 (Zlength payload) requestOverheadBytes))
        eq_refl eq_refl eq_refl ltac:(by vm_compute)) as H end.
    by destruct (claimSlot r s) as [b []].
Qed.

Lemma fills_counted r r' (f : Replica TM -> Replica TM) :
  fills_one r r' -> (forall x, same_log x (f x) /\ r_pendingBuses (f x) = r_pendingBuses x /\
    r_haveStable (f x) = r_haveStable x /\ r_stableSlot (f x) = r_stableSlot x) -> fills_one r (f r').
Proof.
  intros [H1 H2 H3 H4 [H5 H6] H7 H8] Hf. destruct (Hf r') as ([Hc Hl Hp Hr] & Hq & Ha & Hb).
  split; try congruence.
  - destruct H1, Hc. split; congruence.
  - split; congruence.
  - by rewrite Hl.
  - intros snap hi Hinv. eapply same_log_inv; [by split|]. by apply H8.
Qed.

Lemma setNoOp_fills r s : fills_one r (setNoOp r s).1.
Proof.
  destruct (setNoOp_log r s) as (Hc & Hp & Ho & Hs). destruct (setNoOp_stable r s) as [S1 S2].
  assert (Hx : r_retainBytes (setNoOp r s).1 = r_retainBytes r /\ r_pendingBuses (setNoOp r s).1 = r_pendingBuses r).
  { pose proof (LogFrame.setNoOp_frame r s) as Hf. unfold log_frame in Hf.
    split; rewrite Hf; unfold with_log; by rsimpl. }
  destruct Hx as [Hx1 Hx2]. eapply kept_fills; [apply setNoOp_kept|done|done|done| |].
  - intros s' e. destruct (decide (s' = s)) as [->|]; [|rewrite Ho by done; by left].
    destruct (executed r s) eqn:Ex; [rewrite setNoOp_executed by done; by left|].
    destruct (Hs eq_refl) as (e' & -> & Hst & _). intros [= <-]. right. split; [done|].
    unfold entry_len, is_noop. rewrite Hst. by vm_compute.
  - intros snap hi Hinv. unfold log_inv. rewrite Hp. by apply setNoOp_inv.
Qed.

(** ** The log of a replica between its steps *)

Record log_ok r (snap : Z -> snapshot) (hi : Z) : Prop := {
  lo_inv : log_inv r snap hi;
  lo_stable : r_haveStable r = true -> 0 <= r_stableSlot r < r_nextExpected r;
  lo_bytes : 0 <= r_retainBytes r;
  lo_pending : r_pendingBuses r = [] }.

(** the log after a step: its history up to the commit point is the same, and the
    commit point does not go back *)
Definition log_moves r (snap : Z -> snapshot) r' : Prop :=
  exists snap' hi', log_ok r' snap' hi' /\ floor r <= floor r' /\
    forall s, s <= floor r -> snap' s = snap s.

(** ... and nothing executed is undone *)
Record log_grows r (snap : Z -> snapshot) (hi : Z) r' (snap' : Z -> snapshot) (hi' : Z) : Prop := {
  lg_ok : log_ok r' snap' hi';
  lg_next : r_nextExpected r <= r_nextExpected r';
  lg_snap : forall s, s <= r_nextExpected r -> snap' s = snap s;
  lg_stable : r_haveStable r' = r_haveStable r /\ r_stableSlot r' = r_stableSlot r }.

Lemma floor_next r snap hi : log_ok r snap hi -> 0 <= floor r <= r_nextExpected r.
Proof.
  intros [Hinv Hst _ _]. pose proof (li_bounds _ _ _ _ Hinv). pose proof (li_fit _ _ _ _ Hinv).
  pose proof (li_ring _ _ _ _ Hinv).
  unfold floor, suffixBase. destruct (r_haveStable r); cbn [negb]; [|lia]. specialize (Hst eq_refl).
  unfold add64. rewrite u64_small by word_lia. lia.
Qed.

Lemma floor_same r r' :
  r_haveStable r' = r_haveStable r /\ r_stableSlot r' = r_stableSlot r -> floor r' = floor r.
Proof. unfold floor. by intros [-> ->]. Qed.

Lemma grows_moves r snap hi r' snap' hi' :
  log_ok r snap hi -> log_grows r snap hi r' snap' hi' -> log_moves r snap r'.
Proof.
  intros Hok [H1 H2 H3 H4]. exists snap', hi'. split; [done|]. rewrite (floor_same _ _ H4). split; [done|].
  intros s Hs. apply H3. pose proof (floor_next r snap hi Hok). lia.
Qed.

Lemma log_ok_same r r' snap hi : same_log r r' -> r_pendingBuses r' = r_pendingBuses r ->
  r_haveStable r' = r_haveStable r /\ r_stableSlot r' = r_stableSlot r ->
  log_ok r snap hi -> log_ok r' snap hi.
Proof.
  intros Hs Hp [H1 H2] [A B C D]. split; [by eapply same_log_inv| | |congruence].
  - rewrite H1, H2, (sc_next _ _ (sl_core _ _ Hs)). done.
  - by rewrite (sl_retain _ _ Hs).
Qed.

Lemma fills_ok r r' snap hi : fills_one r r' -> log_ok r snap hi -> log_ok r' snap hi.
Proof.
  intros [Hc Hr Hp _ [S1 S2] _ Hi] [A B C D]. split; [by apply Hi| |congruence|congruence].
  destruct Hc. rewrite S1, S2, sc_next. done.
Qed.

Lemma frame_same_fields r r' : log_frame r r' ->
  r_pendingBuses r' = r_pendingBuses r /\ r_retainBytes r' = r_retainBytes r /\
  r_status r' = r_status r.
Proof. unfold log_frame. intros H. rewrite H. unfold with_log. by rsimpl. Qed.

(** executing what is contiguous, in whatever status *)
Lemma advance_ok r snap hi k :
  log_ok r snap hi -> room r hi k ->
  exists snap' hi', log_grows r snap hi (advanceNextExpected r) snap' hi'.
Proof.
  intros [Hinv Hst Hrb Hpend] Hroom.
  assert (Hpre : exists snap' hi' r1, advanceNextExpected r = pruneCommitted r1 /\
    log_inv r1 snap' hi' /\ r_nextExpected r <= r_nextExpected r1 /\
    (forall s, s <= r_nextExpected r -> snap' s = snap s) /\ r_retainBytes r1 = r_retainBytes r /\
    (r_haveStable r1 = r_haveStable r /\ r_stableSlot r1 = r_stableSlot r)).
  { unfold advanceNextExpected. destruct (bool_decide _).
    - destruct (advance_loop_spec (S (size (r_globalLog r))) _ r snap hi Hinv) as ((snap' & hi' & Hinv' & Hadv) & _).
      { eapply roomy_le; [exact Hroom|]. lia. }
      pose proof (frame_same_fields _ _ (advance_loop_frame (S (size (r_globalLog r))) r)) as (_ & Erb & _).
      destruct (adv_frame _ _ _ _ _ _ Hadv) as (F1 & _ & F3 & F4).
      exists snap', hi'. eexists. split; [reflexivity|]. split; [unfold log_inv; by rewrite F1|].
      split; [apply Hadv|]. split; [apply Hadv|]. done.
    - exists snap, hi, r. done. }
  pose proof (frame_same_fields _ _ (advanceNextExpected_frame r)) as (Ep & Eb & _).
  destruct Hpre as (snap' & hi' & r1 & E & Hinv1 & Hn & Hsnap & Hrb1 & [S1 S2]). rewrite E in Ep, Eb |- *.
  pose proof (li_bounds _ _ _ _ Hinv1). pose proof (li_fit _ _ _ _ Hinv1). pose proof (li_ring _ _ _ _ Hinv1).
  assert (0 <= prune_limit r1 < W64) as Hl.
  { pose proof (prune_bounds r1). unfold prune_limit in *. rewrite S1, S2 in *.
    destruct (r_haveStable r); cbn [andb] in *; [|lia]. specialize (Hst eq_refl). destruct (_ <? _); lia. }
  destruct (pruneCommitted_spec r1 ltac:(lia) Hl ltac:(lia)) as ([Hh _ _ _ [T1 T2] T3] & _).
  destruct Hh as (E1 & _). exists snap', hi'. split; [|by rewrite E1|done|by rewrite T1, T2].
  split; [apply pruneCommitted_inv; [done|lia]| |lia|congruence].
  rewrite T1, T2, S1, S2, E1. intros Hs. specialize (Hst Hs). lia.
Qed.

(** filling a slot, then executing *)
Lemma fill_advance_ok r r1 snap hi k :
  log_ok r snap hi -> room r hi (S k) -> fills_one r r1 ->
  exists snap' hi', log_grows r snap hi (advanceNextExpected r1) snap' hi'.
Proof.
  intros Hok Hroom Hf. pose proof (fills_ok _ _ _ _ Hf Hok) as Hok1.
  destruct (advance_ok r1 snap hi k Hok1) as (snap' & hi' & [A B C [D1 D2]]); [by eapply fills_room|].
  destruct Hf as [[] _ _ _ [S1 S2] _ _]. exists snap', hi'. split; [done|congruence| |split; congruence].
  intros s Hs. apply C. lia.
Qed.

Lemma grows_same r r1 snap hi r' snap' hi' :
  log_grows r snap hi r1 snap' hi' -> same_log r1 r' -> r_pendingBuses r' = r_pendingBuses r1 ->
  r_haveStable r' = r_haveStable r1 /\ r_stableSlot r' = r_stableSlot r1 ->
  log_grows r snap hi r' snap' hi'.
Proof.
  intros [A B C [D1 D2]] Hs Hp [E1 E2]. split; [by eapply log_ok_same| |done|split; congruence].
  by rewrite (sc_next _ _ (sl_core _ _ Hs)).
Qed.

(** moving the commit point *)
Lemma setStable_ok r snap hi s :
  log_ok r snap hi -> 0 <= s ->
  log_ok (setStable r s) snap hi /\ floor r <= floor (setStable r s).
Proof.
  intros Hok Hs. pose proof (floor_next r snap hi Hok) as Hfl. destruct Hok as [Hinv Hst Hrb Hp].
  pose proof (li_bounds _ _ _ _ Hinv) as Hb. pose proof (li_fit _ _ _ _ Hinv). pose proof (li_ring _ _ _ _ Hinv).
  assert (H1 : log_inv (setStable r s) snap hi) by (eapply same_log_inv; [apply setStable_same|done]).
  assert (Hx : r_retainBytes (setStable r s) = r_retainBytes r /\ r_pendingBuses (setStable r s) = r_pendingBuses r).
  { destruct (frame_same_fields _ _ (setStable_frame r s)) as (? & ? & _). done. }
  destruct Hx as [Hx1 Hx2].
  assert (Hy : (r_haveStable (setStable r s) = true -> 0 <= r_stableSlot (setStable r s) < r_nextExpected (setStable r s)) /\
          floor r <= floor (setStable r s)).
  { unfold setStable. cbv zeta. destruct (Z.eqb_spec (r_nextExpected r) 0); [done|].
    set (top := r_nextExpected r - 1). destruct (r_haveStable r) eqn:Eh; cbn [negb orb].
    - specialize (Hst eq_refl). destruct (Z.ltb_spec (r_stableSlot r) (if top <? s then top else s)) as [Hlt|];
        [|rewrite Eh; split; [done|lia]].
      rsimpl. split; [intros _; destruct (Z.ltb_spec top s); unfold top in *; lia|].
      unfold floor, suffixBase. rsimpl. rewrite Eh. cbn [negb].
      unfold add64. rewrite !u64_small by (destruct (Z.ltb_spec top s); unfold top in *; word_lia). lia.
    - rsimpl. split; [intros _; destruct (Z.ltb_spec top s); unfold top in *; lia|].
      unfold floor at 1, suffixBase. rewrite Eh. cbn [negb]. unfold floor, suffixBase. rsimpl. cbn [negb].
      unfold add64. rewrite u64_small by (destruct (Z.ltb_spec top s); unfold top in *; word_lia).
      destruct (Z.ltb_spec top s); unfold top in *; lia. }
  destruct Hy as [Hy1 Hy2]. split; [|done]. split; [done|done|lia|congruence].
Qed.
End node.

(** * The invariant of a replica, over every step it takes: a message of a
    connection, a turn of a goroutine, a connection that ends
    ([src/paxosbus/internal/protocol/replica.go]: [clientListener], [serve]). *)

Section node.
Context {TM : Treemap Value}.
Implicit Types r : Replica TM.

(** * Steps that leave the log and the views alone *)

(** all that the invariants of the log and of the views read *)
Definition core_of r :=
  (r_globalLog r, r_nextExpected r, r_ringSize r, r_retainSlots r, r_hashRing r, r_logIdxRing r,
   r_prefixHash r, r_nextLogIndex r, r_State r, r_dedup r, r_prunedBelow r, r_retainBytes r,
   r_pendingBuses r, r_haveStable r, r_stableSlot r,
   (r_config r, r_idx r, r_viewId r, r_status r, r_lastNormalView r, r_vc r, r_recovery r,
    r_viewChangeWatchdog r, r_viewChangeWatchdogGen r, r_sync r, r_startViewQ r)).

Definition idle r r' : Prop := core_of r' = core_of r.

#[export] Instance idle_equiv : Equivalence idle.
Proof. split; [done|by intros ???|intros ??? H1 H2; unfold idle in *; congruence]. Qed.

Ltac idle := unfold idle, core_of; reflexivity.

Lemma idle_view r r' : idle r r' -> view_same r r'.
Proof. unfold idle, core_of. intros H. injection H. intros. by split. Qed.
Lemma idle_log r r' : idle r r' -> same_log r r'.
Proof. unfold idle, core_of. intros H. injection H. intros. by split; [split|..]. Qed.

Lemma sched_frame_idle r r' : sched_frame r r' -> idle r r'.
Proof. unfold sched_frame. intros H. rewrite H. unfold with_sched. idle. Qed.

(** ** The schedule agreement *)

Lemma acceptSchedulePrepare_idle r m : idle r (acceptSchedulePrepare r m).1.
Proof. apply sched_frame_idle, acceptSchedulePrepare_frame. Qed.

Lemma handleSchdPrepare_idle r m : idle r (handleSchdPrepare r m).1.
Proof.
  unfold handleSchdPrepare. pose proof (acceptSchedulePrepare_idle r m) as H.
  by destruct (acceptSchedulePrepare r m).
Qed.

Lemma handleSchdPrepareReply_idle r m : idle r (handleSchdPrepareReply r m).
Proof.
  unfold handleSchdPrepareReply. destruct (r_scheduleProposal r); [|done].
  destruct (_ && _); [idle|done].
Qed.

Lemma handleSchdCommit_idle r m : idle r (handleSchdCommit r m).
Proof.
  unfold handleSchdCommit. destruct (_ || _); [done|]. destruct (existsb _ _); [|done].
  cbv zeta. destruct (_ <? _); idle.
Qed.

Lemma handleScheduleInstall_idle r m : idle r (handleScheduleInstall r m).1.
Proof.
  unfold handleScheduleInstall. destruct (install_rejected r m); [done|].
  destruct (last _); [|done]. destruct (schedulePrefix _ _).
  { apply sched_frame_idle, installSchedule_frame. }
  destruct (schedulePrefix _ _); [|done]. cbv zeta. destruct (_ <? _); idle.
Qed.

Lemma handleHsRequest_idle r m lw wall : idle r (handleHsRequest r m lw wall).1.
Proof.
  unfold handleHsRequest. cbv zeta. destruct (_ || _); [done|]. destruct (_ || _); [done|].
  destruct (scheduled_reply r m); [done|]. destruct (request_too_late_or_early _ _ _); [done|].
  destruct (_ && _); idle.
Qed.

Lemma scheduleLoop_idle r wall wall' mono : idle r (scheduleLoop r wall wall' mono).1.
Proof.
  unfold scheduleLoop. destruct (_ || _); [done|]. cbv zeta.
  set (r1 := expireScheduleRequests r _).
  assert (H1 : idle r r1) by (unfold r1, expireScheduleRequests; idle). clearbody r1.
  assert (H2 : idle r1 (propose r1 (u64 wall'))).
  { unfold propose. destruct (r_scheduleInstallActive r1); [done|]. cbv zeta.
    destruct (_ =? _); [done|]. destruct (_ <? _); [idle|].
    match goal with |- context [acceptSchedulePrepare ?x ?m] =>
      pose proof (acceptSchedulePrepare_idle x m) as H; destruct (acceptSchedulePrepare x m) as [r2 []] end;
      cbn [fst] in H; (etransitivity; [|etransitivity; [exact H|]]); idle. }
  etransitivity; [exact H1|]. etransitivity; [exact H2|]. set (r2 := propose _ _). clearbody r2.
  destruct (r_scheduleProposal r2) as [msg|].
  - unfold drive_proposal. cbv zeta. cbn [fst].
    destruct (_ <=? _); [idle|]. cbn [orb]. destruct (send_due r2 mono); [idle|done].
  - unfold repeat_schedule. destruct (_ && _); [idle|done].
Qed.

Lemma handleClientControl_idle r m lw wall : idle r (handleClientControl r m lw wall).1.
Proof. unfold handleClientControl, clientControlReply. idle. Qed.

(** ** Admission, peers, queues *)

Lemma admitLocked_idle r c q now : idle r (admitLocked r c q now).1.
Proof.
  unfold admitLocked. destruct (r_clients r !! c) as [line|]; [|done]. destruct (_ || _); [done|].
  set (p := if cl_maxSeqSeen line <? q then _ else (r, line)).
  assert (H : idle r p.1) by (unfold p; destruct (_ <? _); [idle|done]).
  destruct p as [r1 line1]. cbn [fst] in H. clear -H. etransitivity; [exact H|].
  destruct (negb _); [idle|]. cbv zeta. destruct (shouldDrop _ _); [idle|].
  unfold observeArrival. cbv zeta. destruct (_ =? _); [idle|].
  destruct (_ <? r_winDeltaMinUs _); destruct (_ <? _); idle.
Qed.

Lemma mark_done_idle r key : idle r (mark_done r key).
Proof. unfold mark_done. idle. Qed.

Lemma retirePeer_idle r j lw : idle r (retirePeer r j lw).1.
Proof.
  unfold retirePeer. cbv zeta. cbn [fst].
  destruct (match lw with Some _ => _ | None => _ end); destruct (negb _ && _); first [idle|done].
Qed.

Lemma peerConnLost_idle r j : idle r (peerConnLost r j).1.
Proof. unfold peerConnLost. destruct (_ || _); [done|apply retirePeer_idle]. Qed.

Lemma conn_closed_idle r c : idle r (conn_closed r c).1.
Proof. unfold conn_closed. destruct (_ <=? _); [apply peerConnLost_idle|done]. Qed.

Lemma push_fetch_idle r q : idle r (push_fetch r q).1.
Proof. unfold push_fetch. destruct (_ <? _); [idle|done]. Qed.

Lemma fetchRange_idle r id v peer from to slots : idle r (fetchRange r id v peer from to slots).1.
Proof.
  unfold fetchRange, next_fetch. destruct (_ || _); [done|].
  match goal with |- context [push_fetch ?x ?q] =>
    pose proof (push_fetch_idle x q) as H; destruct (push_fetch x q) as [r1 []] end;
    cbn [fst] in *; (etransitivity; [|exact H]); idle.
Qed.

Lemma fetchRecoveryRange_idle r rec from to : idle r (fetchRecoveryRange r rec from to).1.
Proof.
  unfold fetchRecoveryRange, next_fetch. destruct (_ || _); [done|].
  match goal with |- context [push_fetch ?x ?q] =>
    pose proof (push_fetch_idle x q) as H; destruct (push_fetch x q) as [r1 []] end;
    cbn [fst] in *; (etransitivity; [|exact H]); idle.
Qed.

Lemma enqueueSyncFetch_idle r q : idle r (enqueueSyncFetch r q).
Proof.
  unfold enqueueSyncFetch. pose proof (push_fetch_idle r q) as H.
  destruct (push_fetch r q) as [r1 []]; cbn [fst] in H; [exact H|].
  destruct (syncCatchupMatches _ _); [|exact H]. etransitivity; [exact H|idle].
Qed.

Lemma enqueueFetch_idle r peer from to : idle r (enqueueFetch r peer from to).
Proof.
  unfold enqueueFetch, next_fetch. destruct (_ || _); [done|].
  etransitivity; [|apply push_fetch_idle]. idle.
Qed.

Lemma newSyncFetch_idle r from to : idle r (newSyncFetch r from to).1.
Proof. unfold newSyncFetch, next_fetch. idle. Qed.

Lemma behind_catchup_idle r m : idle r (behind_catchup r m).
Proof.
  unfold behind_catchup. cbv zeta. destruct (_ || _).
  - match goal with |- context [newSyncFetch ?x ?a ?b] =>
      pose proof (newSyncFetch_idle x a b) as H; destruct (newSyncFetch x a b) as [r1 q] end.
    cbn [fst] in H. etransitivity; [|etransitivity; [exact H|apply enqueueSyncFetch_idle]]. idle.
  - destruct (_ <? _); [idle|done].
Qed.

Lemma handleNewState_idle r m : idle r (handleNewState r m).
Proof. unfold handleNewState. repeat case_match; first [done|idle]. Qed.

Lemma handleGetState_idle r m : idle r (handleGetState r m).
Proof. unfold handleGetState. repeat case_match; first [done|idle]. Qed.

Lemma stateFetch_take_idle r : idle r (stateFetch_take r).1.
Proof. unfold stateFetch_take. destruct (r_fetchQ r); [done|idle]. Qed.

Lemma open_gap_idle r key now : idle r (open_gap r key now).1.
Proof. unfold open_gap. idle. Qed.

Lemma genCursor_idle fuel r target : idle r (genCursor fuel r target).
Proof. destruct (genCursor_frame fuel r target) as (a & b & c & ->). idle. Qed.

Lemma slotOwner_idle r s : idle r (slotOwner r s).1.
Proof. apply genCursor_idle. Qed.

Lemma entryOwner_idle r s e : idle r (entryOwner r s e).1.
Proof. destruct (entryOwner_frame r s e) as (a & b & c & ->). idle. Qed.

Lemma detect_slots_idle n : forall r slot wall mono, idle r (detect_slots n r slot wall mono).1.
Proof.
  induction n as [|n IH]; intros r slot wall mono; cbn [detect_slots]; [done|]. cbv zeta.
  destruct (filled r slot); [apply IH|]. destruct (r_slotMeta r !! slot) as [meta|]; [|apply IH].
  destruct (negb _); [apply IH|]. destruct (r_gaps r !! _); [apply IH|].
  pose proof (open_gap_idle r (view r, slot) mono) as H. destruct (open_gap r _ _) as [r1 gs].
  cbn [fst] in H. specialize (IH r1 (slot + 1) wall mono). destruct (detect_slots _ _ _ _ _) as [r2 fx].
  cbn [fst] in *. by etransitivity.
Qed.

Lemma gapDetect_idle r wall mono : idle r (gapDetect r wall mono).1.
Proof.
  unfold gapDetect. destruct (_ && _); [|done]. cbv zeta. unfold genCursorUpTo.
  etransitivity; [apply genCursor_idle|apply detect_slots_idle].
Qed.

Lemma ownerLog_idle r s : idle r (ownerLog r s).1.
Proof.
  unfold ownerLog. destruct (r_globalLog r !! s); [apply entryOwner_idle|].
  pose proof (slotOwner_idle r s) as H. by destruct (slotOwner r s).
Qed.

Lemma ensureLeaderResolve_idle r v slot asker now : idle r (ensureLeaderResolve r v slot asker now).1.
Proof.
  unfold ensureLeaderResolve. cbv zeta. destruct (_ || _); [done|].
  pose proof (open_gap_idle r (v, slot) now) as H.
  destruct (r_gaps r !! (v, slot)) as [gs|]; [|destruct (open_gap r (v, slot) now) as [r1 gs]];
    cbn [fst] in *; (etransitivity; [|apply slotOwner_idle]); [idle|].
  etransitivity; [exact H|idle].
Qed.

(** a gap is finished: with no bus pending nothing is executed *)
Lemma finishGap_idle r key id : r_pendingBuses r = [] -> idle r (finishGap r key id).
Proof.
  intros Hp. unfold finishGap. destruct (negb _); [done|]. cbv zeta.
  destruct (Nat.eqb _ _); [|idle]. rewrite drain_nothing by done. idle.
Qed.

Lemma probe_take_idle r key id notFound : idle r (probe_take r key id notFound).1.1.
Proof.
  unfold probe_take. destruct (r_gaps r !! key) as [gs|]; [|done]. destruct (gap_probeReplies gs) as [|m l]; [done|].
  destruct (_ =? _); [|done]. destruct (probe_reply r notFound m). idle.
Qed.

Lemma collect_take_idle r key id acked : idle r (collect_take r key id acked).1.
Proof.
  unfold collect_take. destruct (r_gaps r !! key) as [gs|]; [|done]. destruct (gap_commitAcks gs); [done|].
  destruct (_ =? _); [idle|done].
Qed.

Lemma idle_pending r r' : idle r r' -> r_pendingBuses r' = r_pendingBuses r.
Proof. unfold idle, core_of. intros H. by injection H. Qed.

Lemma finish_with_answers_idle r key id :
  r_pendingBuses r = [] -> idle r (finish_with_answers r key id).1.
Proof.
  intros Hp. unfold finish_with_answers. cbv zeta. destruct (slotGapPayload _ _). by apply finishGap_idle.
Qed.

Lemma beginViewChange_log r v now : r_pendingBuses r = [] ->
  let r' := (beginViewChange r v now).1 in
  same_log r r' /\ r_pendingBuses r' = [] /\
  (r_haveStable r' = r_haveStable r /\ r_stableSlot r' = r_stableSlot r) /\
  r_startViewQ r' = r_startViewQ r /\
  (r' = r \/ r_sync r' = None /\ r_recovery r' = None).
Proof.
  intros Hp. cbv zeta. unfold beginViewChange. destruct (_ <=? _); [cbn [fst]; split; [by split; [split|..]|];
    split; [done|]; split; [done|]; split; [done|]; by left|].
  cbv zeta. rewrite drain_nothing by (rewrite <- Hp; reflexivity). cbn [fst].
  split; [split; [split|..]; reflexivity|]. split; [rewrite <- Hp; reflexivity|].
  split; [split; reflexivity|]. split; [reflexivity|]. right. split; reflexivity.
Qed.

(** ** Replies, statistics, the serving loop *)

Lemma readSlot_idle r k slot : idle r (readSlot r k slot).1.1.
Proof.
  unfold readSlot. destruct (r_globalLog r !! slot) as [e|].
  - destruct (bool_decide _).
    + pose proof (entryOwner_idle r slot e) as H. destruct (entryOwner r slot e) as [r1 o]. cbn [fst] in H.
      cbv zeta. by destruct (if bool_decide _ then _ else slotGapPayload r1 slot).
    + destruct (_ && _); [|done]. by destruct (readSlotFromDisk k slot).
  - destruct (_ && _); [|done]. by destruct (readSlotFromDisk k slot).
Qed.

Lemma serve_loop_idle fuel : forall r k req slot rest s,
  idle r (serve_loop fuel r k req slot rest s).1.1.
Proof.
  induction fuel as [|fuel IH]; intros r k req slot rest s; cbn [serve_loop]; [done|].
  destruct (_ <? _); [done|]. cbv zeta.
  destruct (if Nat.ltb 0 _ then _ else _) as [[slot' rest']|]; [|done].
  pose proof (readSlot_idle r k slot') as H. destruct (readSlot r k slot') as [[r1 k1] ent]. cbn [fst] in H.
  destruct (_ || _); [exact H|]. etransitivity; [exact H|apply IH].
Qed.

Lemma serveState_idle r k req : idle r (serveState r k req).1.1.
Proof.
  unfold serveState. destruct (_ || _); [done|].
  match goal with |- context [serve_loop ?f r k req ?a ?b ?c] =>
    pose proof (serve_loop_idle f r k req a b c) as H; by destruct (serve_loop f r k req a b c) as [[r1 k1] s] end.
Qed.

Lemma stateServeLoop_idle r k : idle r (stateServeLoop r k).1.1.
Proof.
  unfold stateServeLoop. destruct (r_serveQ r) as [|req rest]; [done|].
  etransitivity; [|apply serveState_idle]. idle.
Qed.

Lemma handleGapRequest_idle r m now : idle r (handleGapRequest r m now).1.
Proof.
  unfold handleGapRequest. destruct (negb _); [done|]. cbv zeta. destruct (_ || _); [done|].
  destruct (_ && _); [done|]. destruct (slotGapPayload _ _) as [op isBus].
  destruct (negb _); [done|]. destruct (slotState_of _ _); [|done|done].
  destruct (_ && _); [done|apply ensureLeaderResolve_idle].
Qed.

Lemma handleGapCommitReply_idle r m : idle r (handleGapCommitReply r m).
Proof.
  unfold handleGapCommitReply. destruct (_ || _); [done|]. cbv zeta.
  destruct (r_gaps r !! _); [|done]. destruct (leaderGapActive _ _ _); [idle|done].
Qed.
End node.
