(* ===== verification/NodeView.v ===== *)
(** The views of a replica through every step it takes
    ([src/paxosbus/internal/protocol/replica.go]: [clientListener] and the
    goroutines [serve] starts): no handler and no turn goes back to an earlier
    view, and the bookkeeping of a view change is always that of the view the
    replica is in. *)
From S2P Require Import Prelude WireBase Wire WireStream Config Lines GlobalOrder State.
From S2P Require Import ReplicaState Cursor Log LogSpec LogInv Admission.
From S2P Require Import ScheduleProto SchedInv Merge Gaps Sync ViewChange Recovery LogFrame.
From S2P Require Import ViewInv RecoveryInv DurableLog Serve Listener NodeInv.

Section views.
Context {TM : Treemap Value}.
Implicit Types r : Replica TM.

Lemma idle_step_view r r' : idle r r' -> view_inv r -> view_step_ok r r'.
Proof. intros H. by apply view_step_same, idle_view. Qed.

Lemma frame_step_view r r' : log_frame r r' -> view_inv r -> view_step_ok r r'.
Proof. intros H. by apply view_step_same, log_frame_view. Qed.

(** an idle part, then one that only touches the log *)
Lemma idle_frame_view r r1 r2 : idle r r1 -> log_frame r1 r2 -> view_same r r2.
Proof. intros H1 H2. eapply view_same_trans; [by apply idle_view|by apply log_frame_view]. Qed.

Lemma mark_done_view r key : view_same r (mark_done r key).
Proof. apply idle_view, mark_done_idle. Qed.

Lemma applyDuringRecovery_view r m : view_same r (applyDuringRecovery r m).
Proof.
  unfold applyDuringRecovery. cbv zeta.
  match goal with |- context [recordBusReceived r ?s ?c ?q ?l] =>
    pose proof (recordBusReceived_frame r s c q l) as H; destruct (recordBusReceived r s c q l) as [r1 b] end.
  cbn [fst] in H. assert (view_same r (advanceNextExpected r1)) as H1
    by (apply log_frame_view; eapply log_frame_trans; [exact H|apply advanceNextExpected_frame]).
  destruct b; [|exact H1]. eapply view_same_trans; [exact H1|apply mark_done_view].
Qed.

Lemma handleBus_view r m lw now : view_same r (handleBus r m lw now).1.
Proof.
  unfold handleBus. cbv zeta. set (r0 := bindReplySender r _ lw).
  assert (H0 : idle r r0) by reflexivity. clearbody r0.
  pose proof (admitLocked_idle r0 (bm_ClientId m) (bm_BusSeqNum m) now) as H1.
  destruct (admitLocked r0 _ _ _) as [r1 a]. cbn [fst] in H1.
  assert (H2 : view_same r r1) by (apply idle_view; by etransitivity).
  destruct a; try exact H2. destruct (Nat.ltb _ _); cbn [fst].
  - eapply view_same_trans; [exact H2|apply applyDuringRecovery_view].
  - match goal with |- context [recordBusReceived r1 ?s ?c ?q ?l] =>
      pose proof (recordBusReceived_frame r1 s c q l) as H; destruct (recordBusReceived r1 s c q l) as [r2 b] end.
    cbn [fst] in *. eapply view_same_trans; [exact H2|]. apply log_frame_view.
    eapply log_frame_trans; [exact H|apply advanceNextExpected_frame].
Qed.

Lemma counted_recovered_view r r' : log_frame r r' ->
  log_frame r (r' <| r_winRecovered ::= fun n => add64 n 1 |>).
Proof. intros H. eapply log_frame_trans; [exact H|unfold log_frame, with_log; replica_eq]. Qed.

Lemma counted_noop_view r r' : log_frame r r' ->
  log_frame r (r' <| r_winNoops ::= fun n => add64 n 1 |>).
Proof. intros H. eapply log_frame_trans; [exact H|unfold log_frame, with_log; replica_eq]. Qed.

Lemma handleGapReply_view r m : view_same r (handleGapReply r m).
Proof.
  unfold handleGapReply. destruct (negb _); [done|]. cbv zeta. destruct (active_gap _ _); [|done].
  destruct (_ =? _); [destruct (_ =? _); [done|apply idle_view; reflexivity]|].
  destruct (_ || _); [done|].
  pose proof (slotOwner_idle r (gr_Slot m)) as H0. destruct (slotOwner r _) as [r1 sm]. cbn [fst] in H0.
  match goal with |- context [storeRecovered r1 ?s ?c ?q ?p ?b] =>
    pose proof (storeRecovered_frame r1 s c q p b) as H; destruct (storeRecovered r1 s c q p b) as [r2 st] end.
  cbn [fst] in H. eapply view_same_trans; [|apply mark_done_view].
  eapply idle_frame_view; [exact H0|]. eapply log_frame_trans; [|apply advanceNextExpected_frame].
  destruct st; [by apply counted_recovered_view|exact H].
Qed.

Lemma setNoOp_counted_frame r s :
  let (r1, ok) := setNoOp r s in
  log_frame r (advanceNextExpected (if ok then r1 <| r_winNoops ::= fun n => add64 n 1 |> else r1)).
Proof.
  pose proof (setNoOp_frame r s) as H. destruct (setNoOp r s) as [r1 ok]. cbn [fst] in H.
  eapply log_frame_trans; [|apply advanceNextExpected_frame].
  destruct ok; [by apply counted_noop_view|exact H].
Qed.

Lemma applyGapCommit_frame r slot : log_frame r (applyGapCommit r slot).1.
Proof.
  unfold applyGapCommit. destruct (bool_decide _); [apply log_frame_refl|].
  destruct (executed r slot); [apply log_frame_refl|].
  pose proof (setNoOp_counted_frame r slot) as H. by destruct (setNoOp r slot) as [r1 ok].
Qed.

Lemma handleGapCommit_view r m : view_same r (handleGapCommit r m).1.
Proof.
  unfold handleGapCommit. destruct (negb _); [done|]. cbv zeta. destruct (_ || _); [done|].
  pose proof (log_frame_view _ _ (applyGapCommit_frame r (gc_Slot m))) as H.
  destruct (applyGapCommit r _) as [r1 ack]. cbn [fst] in H.
  set (r2 := match active_gap r1 _ with Some _ => _ | None => _ end).
  assert (H2 : view_same r1 r2) by (unfold r2; destruct (active_gap _ _); [apply mark_done_view|done]).
  destruct (negb ack); cbn [fst]; by eapply view_same_trans.
Qed.

Lemma finishGap_view r key id : view_same r (finishGap r key id).
Proof.
  unfold finishGap. destruct (negb _); [done|]. cbv zeta.
  destruct (Nat.eqb _ _); [|apply idle_view; reflexivity].
  eapply view_same_trans; [|apply drainPendingBuses_view]. apply idle_view. reflexivity.
Qed.

Lemma finish_with_answers_view r key id : view_same r (finish_with_answers r key id).1.
Proof. unfold finish_with_answers. cbv zeta. destruct (slotGapPayload _ _). apply finishGap_view. Qed.

Lemma leaderResolve_found_view r key id op b : view_same r (leaderResolve_found r key id op b).1.
Proof.
  unfold leaderResolve_found. destruct (negb _); [done|]. cbv zeta.
  pose proof (slotOwner_idle r key.2) as H0. destruct (slotOwner r _) as [r1 sm]. cbn [fst] in H0.
  match goal with |- context [storeRecovered r1 ?s ?c ?q ?p ?b] =>
    pose proof (storeRecovered_frame r1 s c q p b) as H; destruct (storeRecovered r1 s c q p b) as [r2 st] end.
  cbn [fst] in H. eapply view_same_trans; [|apply finish_with_answers_view].
  eapply idle_frame_view; [exact H0|]. eapply log_frame_trans; [|apply advanceNextExpected_frame].
  destruct st; [by apply counted_recovered_view|exact H].
Qed.

Lemma leaderResolve_start_view r key id : view_same r (leaderResolve_start r key id).1.1.
Proof.
  unfold leaderResolve_start. destruct (negb _); [done|]. cbv zeta. destruct (bool_decide _); [done|].
  pose proof (finish_with_answers_view r key id) as H. by destruct (finish_with_answers r key id).
Qed.

Lemma leaderResolve_noop_view r key id : view_same r (leaderResolve_noop r key id).1.1.
Proof.
  unfold leaderResolve_noop. destruct (negb _); [done|]. cbv zeta. destruct (bool_decide _).
  - pose proof (finish_with_answers_view r key id) as H. by destruct (finish_with_answers r key id).
  - pose proof (setNoOp_counted_frame r key.2) as H. destruct (setNoOp r key.2) as [r1 ok].
    by apply log_frame_view.
Qed.

Lemma gap_turn_view r r' fx : gap_turn r r' fx -> view_same r r'.
Proof.
  destruct 1 as [wall mono|key|key id|key id|key id r' fx more E|key id notFound|
    key id op b|key id r' fx more E|key id fx E|key id acked|key id acked].
  - apply idle_view, gapDetect_idle.
  - done.
  - unfold followerRecover_done. destruct (negb _); [done|]. eapply view_same_trans; [apply finishGap_view|].
    apply idle_view, ownerLog_idle.
  - apply finishGap_view.
  - pose proof (leaderResolve_start_view r key id) as H. by rewrite E in H.
  - apply idle_view, probe_take_idle.
  - apply leaderResolve_found_view.
  - pose proof (leaderResolve_noop_view r key id) as H. by rewrite E in H.
  - done.
  - apply idle_view, collect_take_idle.
  - unfold leaderResolve_end. cbv zeta. destruct acked; [|apply finishGap_view].
    eapply view_same_trans; [apply finishGap_view|]. apply idle_view, ownerLog_idle.
Qed.

Lemma view_turn_ok r r' fx : view_turn r r' fx -> view_inv r -> view_step_ok r r'.
Proof.
  intros [] Hinv; eauto using suspectLeader_spec, expireViewChangeWatchdog_spec, drive_take_spec,
    drive_merge_spec, drive_publish_spec, view_step_refl.
  - by apply startViewChange_spec.
  - apply view_step_same; [apply merge_prefix_view|done].
Qed.

Lemma adopt_turn_ok r r' fx : adopt_turn r r' fx -> view_inv r -> view_step_ok r r'.
Proof.
  intros [] Hinv; eauto using viewInstall_spec, recover_turn_spec, finishRecovery_spec;
    (apply view_step_same; [first [apply merge_donor_view|apply drive_install_view]|done]).
Qed.

Lemma loop_turn_view r r' fx : loop_turn r r' fx -> view_same r r'.
Proof.
  destruct 1 as [| | | | |k r' k' fx E| | | | | ]; try (apply idle_view; reflexivity).
  - apply syncOnce_view.
  - apply stateFetch_take_view.
  - apply log_frame_view, fetch_receive_frame.
  - apply finishSyncFetch_view.
  - pose proof (stateServeLoop_idle r k) as H. rewrite E in H. by apply idle_view.
  - apply idle_view, scheduleLoop_idle.
  - apply idle_view, retirePeer_idle.
Qed.

Lemma handle_msg_view r c m mono wall :
  view_inv r -> view_step_ok r (handle_msg r c m mono wall).1.1.
Proof.
  intros Hinv. unfold handle_msg.
  assert (Hs : forall r', view_same r r' -> view_step_ok r r') by (intros r' H; by apply view_step_same).
  assert (Hi : forall r', idle r r' -> view_step_ok r r') by (intros r' H; by apply idle_step_view).
  destruct m; cbn [fst];
    repeat match goal with |- context [let (r, fx) := ?x in (r, _, fx)] =>
      destruct x as [r1 fx] eqn:E; cbn [fst]; apply (f_equal fst) in E; cbn [fst] in E; subst r1 end.
  all: try by eauto using handleHsRequest_idle, handleSchdPrepareReply_idle, handleSchdCommit_idle,
    handleClientControl_idle, handleBus_view, handleGapRequest_idle, handleGapReply_view, handleGapCommit_view,
    handleGapCommitReply_idle, handleSyncPrepare_view, handleSyncReply_view, handleSyncCommit_view,
    handleScheduleInstall_idle, handleViewChangeRequest_spec, handleViewChange_spec, handleStartView_spec,
    handleGetState_view, handleNewState_view, view_step_refl.
  - destruct (_ && _); cbn [fst]; eauto using handleSchdPrepare_idle, view_step_refl.
  - pose proof (handleScheduleInstall_idle r m) as H. destruct (handleScheduleInstall r m). eauto.
Qed.

Lemma plain_step_view r r' fx : plain_step r r' fx -> view_inv r -> view_step_ok r r'.
Proof.
  intros [c m mono wall r1 c1 fx1 _ E|c|r1 fx1 H|r1 fx1 H|r1 fx1 H] Hinv.
  - pose proof (handle_msg_view r c m mono wall Hinv) as H. by rewrite E in H.
  - apply idle_step_view; [apply conn_closed_idle|done].
  - apply view_step_same; [by eapply gap_turn_view|done].
  - by eapply view_turn_ok.
  - apply view_step_same; [by eapply loop_turn_view|done].
Qed.

Lemma replica_step_view r r' fx : replica_step r r' fx -> view_inv r -> view_step_ok r r'.
Proof. intros []; eauto using plain_step_view, adopt_turn_ok. Qed.

Lemma replica_steps_view r r' : rtc replica_next r r' -> view_inv r -> view_step_ok r r'.
Proof.
  induction 1 as [|r1 r2 r3 [fx H12] _ IH]; intros Hinv; [by apply view_step_refl|].
  pose proof (replica_step_view _ _ _ H12 Hinv) as H. eapply view_step_trans; [exact H|apply IH, H].
Qed.

Lemma serve_view_inv config idx logs mode every gap opts now :
  view_inv (serve (NewReplica config idx logs mode every gap opts) now).
Proof. split; unfold view; rsimpl; try done. by left. Qed.
End views.
