(* ===== verification/NodeSteps.v ===== *)
(** The log of a replica through every step that installs no view: what was
    executed below the commit point stays as it is and the commit point does not
    go back. *)
From S2P Require Import Prelude WireBase Wire WireStream Config Lines GlobalOrder State.
From S2P Require Import ReplicaState Cursor Log LogSpec LogInv Admission.
From S2P Require Import ScheduleProto SchedInv Merge Gaps Sync ViewChange Recovery LogFrame.
From S2P Require Import ViewInv RecoveryInv RecoveryLog RecoveryExec FetchLog DurableLog Serve.
From S2P Require Import Listener NodeInv.

Section steps.
Context {TM : Treemap Value} {TL : TreemapLaws TM}.
Implicit Types r : Replica TM.

(** * Steps that leave the log as it is *)

Record log_unchanged r r' : Prop := {
  lu_log : same_log r r';
  lu_pending : r_pendingBuses r' = r_pendingBuses r;
  lu_stable : r_haveStable r' = r_haveStable r /\ r_stableSlot r' = r_stableSlot r;
  lu_sync : r_sync r' = r_sync r \/ r_sync r' = None }.

Lemma unchanged_trans r1 r2 r3 : log_unchanged r1 r2 -> log_unchanged r2 r3 -> log_unchanged r1 r3.
Proof.
  intros [A1 B1 [C1 D1] E1] [A2 B2 [C2 D2] E2]. split; [by eapply same_log_trans|congruence|split; congruence|].
  destruct E1, E2; (by right) || (left; congruence) || (right; congruence).
Qed.

Lemma idle_unchanged r r' : idle r r' -> log_unchanged r r'.
Proof.
  intros H. pose proof (idle_log _ _ H). unfold idle, core_of in H. injection H. intros.
  split; [done|done|by split|by left].
Qed.

Lemma unchanged_refl r : log_unchanged r r.
Proof. by apply idle_unchanged. Qed.

(** the fields of a view change *)
Ltac unchanged := split; [by split; [split|..]|done|done|by left].

Lemma set_vc_unchanged r vc : log_unchanged r (r <| r_vc := vc |>).
Proof. unchanged. Qed.

Lemma unchanged_room r r' hi k : log_unchanged r r' -> room r hi k -> room r' hi k.
Proof. intros [H _ _ _]. unfold room. rewrite (sl_log _ _ H). by apply same_log_roomy. Qed.

Lemma unchanged_ok r r' snap hi : log_unchanged r r' -> log_ok r snap hi -> log_ok r' snap hi.
Proof. intros [A B C _]. by apply log_ok_same. Qed.

(** the round of the leader is about a slot *)
Definition sync_ok r : Prop := forall s, r_sync r = Some s -> 0 <= yp_SlotToSync (sr_prepare s).

Lemma unchanged_sync r r' : log_unchanged r r' -> sync_ok r -> sync_ok r'.
Proof. intros [_ _ _ [E|E]] H s; rewrite E; [apply H|done]. Qed.

(** * What a step does *)

Record node_log r (snap : Z -> snapshot) (hi : Z) : Prop := {
  nl_log : log_ok r snap hi;
  nl_sync : sync_ok r }.

Definition node_moves r (snap : Z -> snapshot) r' : Prop :=
  exists snap' hi', node_log r' snap' hi' /\ floor r <= floor r' /\
    forall s, s <= floor r -> snap' s = snap s.

Section moves.
Context (r : Replica TM) (snap : Z -> snapshot) (hi : Z) (Hok : node_log r snap hi).

Lemma unchanged_moves r' : log_unchanged r r' -> node_moves r snap r'.
Proof.
  intros H. exists snap, hi. split; [|split; [|done]].
  - split; [by eapply unchanged_ok, Hok|by eapply unchanged_sync, Hok].
  - by rewrite (floor_same r r' (lu_stable _ _ H)).
Qed.

Lemma idle_moves r' : idle r r' -> node_moves r snap r'.
Proof. intros H. by apply unchanged_moves, idle_unchanged. Qed.

(** slots are filled and executed between two parts that leave the log alone *)
Lemma grows_node r1 r2 r3 snap' hi' :
  log_unchanged r r1 -> log_grows r1 snap hi r2 snap' hi' -> r_sync r2 = r_sync r1 ->
  log_unchanged r2 r3 -> node_moves r snap r3.
Proof.
  intros H1 [G1 G2 G3 G4] Hs H3. exists snap', hi'. destruct Hok as [Hl Hy].
  pose proof (unchanged_ok _ _ _ _ H1 Hl) as Hl1. pose proof (floor_next _ _ _ Hl1) as Hf.
  assert (E1 : floor r1 = floor r) by apply floor_same, H1.
  assert (E2 : floor r2 = floor r1) by (by apply floor_same).
  assert (E3 : floor r3 = floor r2) by apply floor_same, H3.
  split; [split; [by eapply unchanged_ok|]|split; [lia|]].
  - apply (unchanged_sync _ _ H3). intros s. rewrite Hs. by apply (unchanged_sync _ _ H1).
  - intros s Hsl. apply G3. lia.
Qed.

Lemma frame_sync r1 r2 : log_frame r1 r2 -> r_sync r2 = r_sync r1.
Proof. unfold log_frame. intros ->. unfold with_log. by rsimpl. Qed.

Lemma fill_moves k r1 r2 r3 :
  room r hi (S k) -> log_unchanged r r1 -> fills_one r1 r2 -> log_frame r1 r2 ->
  log_unchanged (advanceNextExpected r2) r3 -> node_moves r snap r3.
Proof.
  intros Hroom H1 Hf Hfr H3. pose proof (unchanged_ok _ _ _ _ H1 (nl_log _ _ _ Hok)) as Hl1.
  destruct (fill_advance_ok r1 r2 snap hi k Hl1 (unchanged_room _ _ _ _ H1 Hroom) Hf) as (snap' & hi' & G).
  eapply grows_node; [exact H1|exact G| |exact H3].
  apply frame_sync. eapply log_frame_trans; [exact Hfr|apply advanceNextExpected_frame].
Qed.
End moves.

(** ** Buses and gaps *)

Lemma storeRecovered_counted r s c q p b :
  let (r1, stored) := storeRecovered r s c q p b in
  let r2 := if stored then r1 <| r_winRecovered ::= fun n => add64 n 1 |> else r1 in
  fills_one r r2 /\ log_frame r r2.
Proof.
  pose proof (storeRecovered_fills r s c q p b) as H. pose proof (storeRecovered_frame r s c q p b) as Hf.
  destruct (storeRecovered r s c q p b) as [r1 []]; cbn [fst] in *; [|done]. split.
  - apply (fills_counted r r1 (fun x => x <| r_winRecovered ::= fun n => add64 n 1 |>) H).
    intros x. split; [by split; [split|..]|done].
  - eapply log_frame_trans; [exact Hf|unfold log_frame, with_log; replica_eq].
Qed.

Lemma setNoOp_counted r s :
  let (r1, ok) := setNoOp r s in
  let r2 := if ok then r1 <| r_winNoops ::= fun n => add64 n 1 |> else r1 in
  fills_one r r2 /\ log_frame r r2.
Proof.
  pose proof (setNoOp_fills r s) as H. pose proof (setNoOp_frame r s) as Hf.
  destruct (setNoOp r s) as [r1 []]; cbn [fst] in *; [|done]. split.
  - apply (fills_counted r r1 (fun x => x <| r_winNoops ::= fun n => add64 n 1 |>) H).
    intros x. split; [by split; [split|..]|done].
  - eapply log_frame_trans; [exact Hf|unfold log_frame, with_log; replica_eq].
Qed.

Lemma advance_pending r : r_pendingBuses (advanceNextExpected r) = r_pendingBuses r.
Proof. by destruct (frame_same_fields _ _ (advanceNextExpected_frame r)). Qed.

Section gap.
Context (r : Replica TM) (snap : Z -> snapshot) (hi : Z) (Hok : node_log r snap hi).
Context (k : nat) (Hroom : room r hi (S k)).

Lemma no_pending : r_pendingBuses r = [].
Proof. apply Hok. Qed.

Lemma handleBus_moves m lw now : Zlength (bm_Requests m) <= 2 ^ 32 -> node_moves r snap (handleBus r m lw now).1.
Proof.
  intros Hl. unfold handleBus. cbv zeta. set (r0 := bindReplySender r _ lw).
  assert (H0 : idle r r0) by reflexivity. clearbody r0.
  pose proof (admitLocked_idle r0 (bm_ClientId m) (bm_BusSeqNum m) now) as H1.
  destruct (admitLocked r0 _ _ _) as [r1 a]. cbn [fst] in H1.
  assert (H2 : log_unchanged r r1) by (apply idle_unchanged; by etransitivity).
  destruct a; try by eapply unchanged_moves. unfold applyDuringRecovery. cbv zeta.
  pose proof (recordBusReceived_fills r1 (computeGlobalSlot (r_clients r1) (bm_ClientId m) (bm_BusSeqNum m))
    (bm_ClientId m) (bm_BusSeqNum m) (bm_Requests m) Hl) as Hf.
  pose proof (recordBusReceived_frame r1 (computeGlobalSlot (r_clients r1) (bm_ClientId m) (bm_BusSeqNum m))
    (bm_ClientId m) (bm_BusSeqNum m) (bm_Requests m)) as Hfr.
  destruct (recordBusReceived r1 _ _ _ _) as [r2 stored]. cbn [fst] in *.
  destruct (Nat.ltb _ _); cbn [fst]; eapply fill_moves; eauto.
  - destruct stored; [apply idle_unchanged, mark_done_idle|apply unchanged_refl].
  - apply unchanged_refl.
Qed.

Lemma handleGapReply_moves m : node_moves r snap (handleGapReply r m).
Proof.
  unfold handleGapReply. destruct (negb _); [by apply (idle_moves _ _ _ Hok)|]. cbv zeta.
  destruct (active_gap _ _); [|by apply (idle_moves _ _ _ Hok)].
  destruct (_ =? _); [destruct (_ =? _); by apply (idle_moves _ _ _ Hok)|].
  destruct (_ || _); [by apply (idle_moves _ _ _ Hok)|].
  pose proof (slotOwner_idle r (gr_Slot m)) as H0. destruct (slotOwner r _) as [r1 sm]. cbn [fst] in H0.
  pose proof (storeRecovered_counted r1 (gr_Slot m) (sm_clientId sm) (sm_reqId sm) (gr_Op m) (gr_Bus m)) as H.
  destruct (storeRecovered r1 _ _ _ _ _) as [r2 st]. destruct H as [Hf Hfr].
  eapply fill_moves; [exact Hok|exact Hroom|by apply idle_unchanged|exact Hf|exact Hfr|].
  apply idle_unchanged, mark_done_idle.
Qed.

Lemma handleGapCommit_moves m : node_moves r snap (handleGapCommit r m).1.
Proof.
  unfold handleGapCommit. destruct (negb _); [by apply (idle_moves _ _ _ Hok)|]. cbv zeta.
  destruct (_ || _); [by apply (idle_moves _ _ _ Hok)|].
  unfold applyGapCommit.
  assert (Hm : forall x, log_unchanged x (match active_gap x (gc_ViewId m, gc_Slot m) with
    Some _ => mark_done x (gc_ViewId m, gc_Slot m) | None => x end)).
  { intros x. destruct (active_gap _ _); [apply idle_unchanged, mark_done_idle|apply unchanged_refl]. }
  destruct (bool_decide _); cbn [negb fst]; [apply (unchanged_moves _ _ _ Hok), Hm|].
  destruct (executed _ _); cbn [negb fst]; [apply (unchanged_moves _ _ _ Hok), Hm|].
  pose proof (setNoOp_counted r (gc_Slot m)) as H. destruct (setNoOp r _) as [r2 st]. destruct H as [Hf Hfr].
  cbn [negb fst]. eapply fill_moves; [exact Hok|exact Hroom|apply unchanged_refl|exact Hf|exact Hfr|apply Hm].
Qed.

Lemma finishGap_unchanged key id : log_unchanged r (finishGap r key id).
Proof. apply idle_unchanged, finishGap_idle, no_pending. Qed.

Lemma finish_after_fill r1 r2 key id :
  log_unchanged r r1 -> fills_one r1 r2 -> log_frame r1 r2 ->
  node_moves r snap (finish_with_answers (advanceNextExpected r2) key id).1.
Proof.
  intros H1 Hf Hfr. eapply fill_moves; [exact Hok|exact Hroom|exact H1|exact Hf|exact Hfr|].
  apply idle_unchanged, finish_with_answers_idle. rewrite advance_pending, (fo_pending _ _ Hf).
  rewrite (lu_pending _ _ H1). apply no_pending.
Qed.

Lemma gap_turn_moves r' fx : gap_turn r r' fx -> node_moves r snap r'.
Proof.
  assert (Hfin : forall key id, log_unchanged r (finish_with_answers r key id).1).
  { intros key id. apply idle_unchanged, finish_with_answers_idle, no_pending. }
  destruct 1 as [wall mono|key|key id|key id|key id r' fx more E|key id notFound|
    key id op b|key id r' fx more E|key id fx E|key id acked|key id acked].
  - apply (idle_moves _ _ _ Hok), gapDetect_idle.
  - by apply (idle_moves _ _ _ Hok).
  - unfold followerRecover_done. destruct (negb _); [by apply (idle_moves _ _ _ Hok)|].
    apply (unchanged_moves _ _ _ Hok). eapply unchanged_trans; [apply finishGap_unchanged|].
    apply idle_unchanged, ownerLog_idle.
  - apply (unchanged_moves _ _ _ Hok), finishGap_unchanged.
  - apply (unchanged_moves _ _ _ Hok). revert E. unfold leaderResolve_start.
    destruct (negb _); [by intros [= <- _ _]; apply unchanged_refl|]. cbv zeta.
    destruct (bool_decide _); [by intros [= <- _ _]; apply unchanged_refl|].
    specialize (Hfin key id). destruct (finish_with_answers r key id). by intros [= <- _ _].
  - apply (idle_moves _ _ _ Hok), probe_take_idle.
  - unfold leaderResolve_found. destruct (negb _); [by apply (idle_moves _ _ _ Hok)|]. cbv zeta.
    pose proof (slotOwner_idle r key.2) as H0. destruct (slotOwner r _) as [r1 sm]. cbn [fst] in H0.
    pose proof (storeRecovered_counted r1 key.2 (sm_clientId sm) (sm_reqId sm) op b) as H.
    destruct (storeRecovered r1 _ _ _ _ _) as [r2 st]. destruct H as [Hf Hfr].
    by eapply finish_after_fill; [apply idle_unchanged|..].
  - revert E. unfold leaderResolve_noop.
    destruct (negb _); [by intros [= <- _ _]; apply (idle_moves _ _ _ Hok)|]. cbv zeta. destruct (bool_decide _).
    { specialize (Hfin key id). destruct (finish_with_answers r key id). intros [= <- _ _].
      by apply (unchanged_moves _ _ _ Hok). }
    pose proof (setNoOp_counted r key.2) as H. destruct (setNoOp r _) as [r2 st]. destruct H as [Hf Hfr].
    intros [= <- _ _].
    eapply fill_moves; [exact Hok|exact Hroom|apply unchanged_refl|exact Hf|exact Hfr|apply unchanged_refl].
  - by apply (idle_moves _ _ _ Hok).
  - apply (idle_moves _ _ _ Hok), collect_take_idle.
  - apply (unchanged_moves _ _ _ Hok). unfold leaderResolve_end. cbv zeta.
    destruct acked; [|apply finishGap_unchanged]. eapply unchanged_trans; [apply finishGap_unchanged|].
    apply idle_unchanged, ownerLog_idle.
Qed.
End gap.

(** ** Synchronisation *)

Lemma node_moves_from r r1 snap r' : floor r1 = floor r -> node_moves r1 snap r' -> node_moves r snap r'.
Proof. intros E (snap' & hi' & H & Hf & Hs). rewrite E in *. by exists snap', hi'. Qed.

(** the leader's round changes *)
Lemma set_sync_node r snap hi o :
  (forall s, o = Some s -> 0 <= yp_SlotToSync (sr_prepare s)) -> node_log r snap hi ->
  node_log (r <| r_sync := o |>) snap hi /\ floor (r <| r_sync := o |>) = floor r.
Proof.
  intros Ho [Hl _]. split; [split; [|exact Ho]|done].
  apply (log_ok_same r); [by split; [split|..]|done|done|exact Hl].
Qed.

Lemma setStable_moves r snap hi s : node_log r snap hi -> 0 <= s -> node_moves r snap (setStable r s).
Proof.
  intros [Hl Hy] Hs. destruct (setStable_ok r snap hi s Hl Hs) as [H1 H2].
  exists snap, hi. split; [split; [done|]|done].
  intros x. rewrite (frame_sync _ _ (setStable_frame r s)). apply Hy.
Qed.

Lemma maybeCommitSync_moves r snap hi : node_log r snap hi -> node_moves r snap (maybeCommitSync r).1.
Proof.
  intros Hok. unfold maybeCommitSync. destruct (r_sync r) as [s|] eqn:Es; [|by apply (idle_moves _ _ _ Hok)].
  destruct (_ || _); [by apply (idle_moves _ _ _ Hok)|]. cbv zeta. cbn [fst].
  assert (Hs : 0 <= yp_SlotToSync (sr_prepare s)) by (by apply (nl_sync _ _ _ Hok)).
  destruct (set_sync_node r snap hi (Some (s <| sr_done := true |>))) as [H1 H2];
    [by intros ? [= <-]|done|].
  eapply node_moves_from; [exact H2|]. by eapply setStable_moves.
Qed.

Lemma open_round_ok r snap hi s : node_log r snap hi -> open_round r = Some s ->
  0 <= yp_SlotToSync (sr_prepare s).
Proof.
  intros [[Hinv _ _ _] _]. pose proof (li_bounds _ _ _ _ Hinv). unfold open_round.
  destruct (Z.eqb_spec (r_nextExpected r) 0); [done|]. cbv zeta.
  destruct (prefixHashAt _ _); [|done]. intros [= <-]. cbn. lia.
Qed.

Lemma start_round_moves r snap hi : node_log r snap hi -> node_moves r snap (start_round r).1.
Proof.
  intros Hok. unfold start_round. cbv zeta.
  destruct (set_sync_node r snap hi (open_round r)) as [H1 H2]; [intros s; by eapply open_round_ok|done|].
  eapply node_moves_from; [exact H2|]. destruct (open_round r) as [s|]; [|by apply (idle_moves _ _ _ H1)].
  pose proof (maybeCommitSync_moves _ _ _ H1) as H. by destruct (maybeCommitSync _).
Qed.

Lemma syncOnce_moves r snap hi : node_log r snap hi -> node_moves r snap (syncOnce r).1.
Proof.
  intros Hok. unfold syncOnce. destruct (_ || _).
  { destruct (set_sync_node r snap hi None) as [H1 H2]; [done|done|].
    eapply node_moves_from; [exact H2|]. by apply (idle_moves _ _ _ H1). }
  destruct (r_sync r) as [s|]; [destruct (_ || _); [|by apply (idle_moves _ _ _ Hok)]|]; by eapply start_round_moves.
Qed.

Lemma handleSyncReply_moves r snap hi m : node_log r snap hi -> node_moves r snap (handleSyncReply r m).1.
Proof.
  intros Hok. unfold handleSyncReply. destruct (_ || _); [by apply (idle_moves _ _ _ Hok)|].
  destruct (r_sync r) as [s|] eqn:Es; [|by apply (idle_moves _ _ _ Hok)].
  destruct (_ && _); [|by apply (idle_moves _ _ _ Hok)]. cbv zeta.
  match goal with |- context [r <| r_sync := ?o |>] => destruct (set_sync_node r snap hi o) as [H1 H2] end;
    [|done|].
  { intros s' [= <-]. exact (nl_sync _ _ _ Hok s Es). }
  eapply node_moves_from; [exact H2|].
  pose proof (maybeCommitSync_moves _ _ _ H1) as H. by destruct (maybeCommitSync _).
Qed.

Lemma handleSyncCommit_moves r snap hi m now :
  node_log r snap hi -> 0 <= yc_StableSlot m -> node_moves r snap (handleSyncCommit r m now).
Proof.
  intros Hok Hm. unfold handleSyncCommit. destruct (negb _); [by apply (idle_moves _ _ _ Hok)|].
  destruct (_ && _); [|by apply (idle_moves _ _ _ Hok)].
  destruct (setStable_moves r snap hi _ Hok Hm) as (snap' & hi' & H1 & H2 & H3).
  set (r1 := setStable r _) in *.
  destruct (unchanged_moves r1 snap' hi' H1 (r1 <| r_lastHeartbeatNs := now |> <| r_leaderLost := false |>))
    as (snap2 & hi2 & G1 & G2 & G3); [by apply idle_unchanged|].
  exists snap2, hi2. split; [done|]. split; [lia|]. intros s Hs. rewrite G3 by lia. by apply H3.
Qed.

(** *** Rewinding to the commit point *)

Lemma clear_up_eq n : forall r s, clear_up n r s = foldl clearSlot r (seqZ s (Z.of_nat n)).
Proof.
  induction n as [|n IH]; intros r s; [done|]. cbn [clear_up].
  rewrite seqZ_cons by lia. cbn [foldl]. rewrite IH.
  replace (Z.pred (Z.of_nat (S n))) with (Z.of_nat n) by lia. done.
Qed.

Lemma clearSlotsAbove_ok r snap hi s : log_inv r snap hi -> r_nextExpected r <= s ->
  log_inv (clearSlotsAbove r s) snap hi /\ r_nextExpected (clearSlotsAbove r s) = r_nextExpected r /\
  r_haveStable (clearSlotsAbove r s) = r_haveStable r /\ r_stableSlot (clearSlotsAbove r s) = r_stableSlot r.
Proof.
  intros Hinv Hs. unfold clearSlotsAbove. destruct (negb _); [done|]. rewrite clear_up_eq.
  destruct (clear_slots_spec (seqZ s (Z.of_nat (Z.to_nat (r_maxSlotSeen r + 1 - s)))) r snap hi Hinv)
    as (H1 & H2 & _); [intros s' Hs'; apply elem_of_seqZ in Hs'; lia|].
  split; [done|]. split; [apply H2|]. apply (lk_stable _ _ _ H2).
Qed.

(** the rings still know the commit point *)
Definition ring_covers r (hi : Z) : Prop :=
  r_haveStable r = true -> r_prunedBelow r <= floor r /\ hi - r_ringSize r < floor r.

Lemma rewindToStableAndRefetch_moves r snap hi peer v :
  node_log r snap hi -> ring_covers r hi ->
  node_moves r snap (rewindToStableAndRefetch r peer v (r_stableSlot r) (r_haveStable r)).
Proof.
  intros Hok Hring. unfold rewindToStableAndRefetch.
  destruct (r_haveStable r) eqn:Eh; cbn [negb]; [|by apply (idle_moves _ _ _ Hok)].
  destruct (_ || _); [by apply (idle_moves _ _ _ Hok)|].
  destruct Hok as [[Hinv Hst Hrb Hp] Hy]. pose proof (floor_next r snap hi ltac:(by split)) as Hfl.
  assert (Ef : add64 (r_stableSlot r) 1 = floor r) by (unfold floor, suffixBase; by rewrite Eh).
  rewrite Ef. destruct (Hring Eh) as [R1 R2].
  destruct (rewindTo r (floor r)) as [r1 ok] eqn:Er. pose proof (rewindTo_frame r (floor r)) as Hfr.
  rewrite Er in Hfr. cbn [fst] in Hfr.
  assert (H1 : ok = true /\ log_inv r1 snap hi /\ r_nextExpected r1 = floor r /\
               r_haveStable r1 = r_haveStable r /\ r_stableSlot r1 = r_stableSlot r).
  { destruct (decide (floor r < r_nextExpected r)) as [Hlt|Hge].
    - destruct (rewindTo_spec r snap hi (floor r) Hinv) as (r1' & E & Hinv1 & Hn & _); [lia|lia|].
      rewrite Er in E. injection E as <- ->. pose proof (rewindTo_kept _ _ _ Er) as (_ & K1 & K2). done.
    - unfold rewindTo in Er. rewrite (proj2 (Z.leb_le _ _)) in Er by lia. injection Er as <- <-.
      split; [done|]. split; [done|]. split; [lia|done]. }
  destruct H1 as (-> & Hinv1 & Hn & S1 & S2). cbn [negb].
  destruct (clearSlotsAbove_ok r1 snap hi (floor r) Hinv1 ltac:(lia)) as (Hinv2 & Hn2 & T1 & T2).
  pose proof (clearSlotsAbove_frame r1 (floor r)) as Hfr2. set (r2 := clearSlotsAbove r1 _) in *.
  pose proof (log_frame_trans _ _ _ Hfr Hfr2) as Hf.
  pose proof (frame_same_fields _ _ Hf) as (F1 & F2 & _).
  assert (Hn2' : node_log r2 snap hi).
  { split; [split; [done| |by rewrite F2|by rewrite F1]|intros s; rewrite (frame_sync _ _ Hf); apply Hy].
    rewrite T1, T2, S1, S2, Hn2, Hn. intros _. specialize (Hst Eh). split; [lia|].
    unfold floor, suffixBase. rewrite Eh. cbn [negb]. pose proof (li_bounds _ _ _ _ Hinv).
    pose proof (li_fit _ _ _ _ Hinv). pose proof (li_ring _ _ _ _ Hinv).
    unfold add64. rewrite u64_small by word_lia. lia. }
  apply (node_moves_from r r2); [apply floor_same; split; congruence|].
  destruct (_ <? _); [|by apply (idle_moves _ _ _ Hn2')].
  apply (idle_moves _ _ _ Hn2'), enqueueFetch_idle.
Qed.

Lemma answerSyncPrepare_moves r r0 snap hi m known :
  node_log r snap hi -> ring_covers r hi -> idle r r0 ->
  node_moves r snap (answerSyncPrepare r0 m known (r_stableSlot r) (r_haveStable r)).1.
Proof.
  intros Hok Hring H0. pose proof (idle_unchanged _ _ H0) as Hu.
  assert (Hok0 : node_log r0 snap hi)
    by (split; [by eapply unchanged_ok, Hok|by eapply unchanged_sync, Hok]).
  assert (Ef : floor r0 = floor r) by apply floor_same, Hu.
  assert (Hr0 : ring_covers r0 hi).
  { unfold ring_covers. rewrite Ef, (proj1 (lu_stable _ _ Hu)).
    rewrite (sl_pruned _ _ (lu_log _ _ Hu)), (sc_ringSize _ _ (sl_core _ _ (lu_log _ _ Hu))). done. }
  unfold answerSyncPrepare. cbv zeta. destruct (negb _); [by apply (idle_moves _ _ _ Hok)|].
  destruct known as [h|]; [|by apply (idle_moves _ _ _ Hok)].
  destruct (negb _); [|by apply (idle_moves _ _ _ Hok)]. cbn [fst].
  destruct (lu_stable _ _ Hu) as [<- <-].
  apply (node_moves_from r r0); [done|]. by apply (rewindToStableAndRefetch_moves _ _ _ _ _ Hok0).
Qed.

Lemma handleSyncPrepare_moves r snap hi m now :
  node_log r snap hi -> ring_covers r hi -> node_moves r snap (handleSyncPrepare r m now).1.
Proof.
  intros Hok Hring. unfold handleSyncPrepare. destruct (_ || _); [by apply (idle_moves _ _ _ Hok)|].
  destruct (_ <? _); [by apply (idle_moves _ _ _ Hok)|]. destruct (_ <? _); [by apply (idle_moves _ _ _ Hok)|].
  cbv zeta. set (r0 := r <| r_lastHeartbeatNs := now |> <| r_leaderLost := false |>).
  assert (H0 : idle r r0) by reflexivity. destruct (_ || _); [by apply (idle_moves _ _ _ Hok)|].
  destruct (_ || _); cbn [fst].
  - apply (idle_moves _ _ _ Hok). etransitivity; [exact H0|apply behind_catchup_idle].
  - by apply (answerSyncPrepare_moves r r0 snap hi).
Qed.

Lemma finishSyncFetch_moves r snap hi q ok :
  node_log r snap hi -> ring_covers r hi -> node_moves r snap (finishSyncFetch r q ok).1.
Proof.
  intros Hok Hring. unfold finishSyncFetch. destruct (negb _); [by apply (idle_moves _ _ _ Hok)|].
  destruct (negb ok); [by apply (idle_moves _ _ _ Hok)|]. cbv zeta. destruct (_ || _).
  - destruct (_ <=? _); [by apply (idle_moves _ _ _ Hok)|].
    match goal with |- context [newSyncFetch ?x ?a ?b] =>
      pose proof (newSyncFetch_idle x a b) as H; destruct (newSyncFetch x a b) as [r1 q'] end.
    cbn [fst] in *. apply (idle_moves _ _ _ Hok). etransitivity; [exact H|apply enqueueSyncFetch_idle].
  - by apply (answerSyncPrepare_moves r _ snap hi).
Qed.

(** ** Slots of a state transfer *)

Lemma apply_entry_fills r e : fills_one r (apply_entry r e).
Proof.
  unfold apply_entry. destruct (se_IsNoOp e).
  - unfold count_noop. pose proof (setNoOp_counted r (se_Slot e)) as H.
    by destruct (setNoOp r (se_Slot e)) as [r1 []]; destruct H.
  - pose proof (storeRecovered_counted r (se_Slot e) (se_ClientId e) (se_ReqId e) (se_Payload e) (se_IsBus e)) as H.
    by destruct (storeRecovered r _ _ _ _ _) as [r1 []]; destruct H.
Qed.

Lemma apply_entries_ok es : forall r snap hi k,
  log_ok r snap hi -> room r hi (length es + k) ->
  let r' := foldl apply_entry r es in
  log_ok r' snap hi /\ room r' hi k /\ r_nextExpected r' = r_nextExpected r /\
  (r_haveStable r' = r_haveStable r /\ r_stableSlot r' = r_stableSlot r).
Proof.
  induction es as [|e es IH]; intros r snap hi k Hok Hroom; cbn [foldl]; [by split_and!|].
  pose proof (apply_entry_fills r e) as Hf.
  destruct (IH (apply_entry r e) snap hi k) as (A & B & C & D1 & D2).
  { by eapply fills_ok. }
  { by eapply fills_room. }
  destruct (fo_stable _ _ Hf) as [S1 S2]. pose proof (sc_next _ _ (fo_core _ _ Hf)).
  split; [done|]. split; [done|]. split; [congruence|split; congruence].
Qed.

Lemma entries_moves r snap hi k es :
  node_log r snap hi -> room r hi (length es + k) ->
  node_moves r snap (advanceNextExpected (foldl apply_entry r es)).
Proof.
  intros [Hl Hy] Hroom. destruct (apply_entries_ok es r snap hi k Hl Hroom) as (H1 & H2 & H3 & H4).
  assert (Hf : log_frame r (foldl apply_entry r es)) by (apply foldl_frame; intros; apply apply_entry_frame).
  set (r1 := foldl apply_entry r es) in *.
  destruct (advance_ok r1 snap hi k H1 H2) as (snap' & hi' & G).
  assert (Hn1 : node_log r1 snap hi) by (split; [done|intros s; rewrite (frame_sync _ _ Hf); apply Hy]).
  apply (node_moves_from r r1); [by apply floor_same|].
  eapply grows_node; [exact Hn1|apply unchanged_refl|exact G| |apply unchanged_refl].
  apply frame_sync, advanceNextExpected_frame.
Qed.

Lemma fetch_receive_moves r snap hi k q next to slots m :
  node_log r snap hi -> room r hi (length (ns_Entries m) + k) ->
  node_moves r snap (fetch_receive r q next to slots m).1.
Proof.
  intros Hok Hroom. unfold fetch_receive. destruct (_ || _); [by apply (idle_moves _ _ _ Hok)|]. cbv zeta.
  destruct (negb _); [by apply (idle_moves _ _ _ Hok)|]. unfold applyStateEntries.
  destruct (_ || _); [by apply (idle_moves _ _ _ Hok)|]. destruct (negb _); [by apply (idle_moves _ _ _ Hok)|].
  destruct (negb _); [by apply (idle_moves _ _ _ Hok)|]. by eapply entries_moves.
Qed.

(** ** View changes *)

Lemma beginViewChange_unchanged r v now : r_pendingBuses r = [] ->
  log_unchanged r (beginViewChange r v now).1.
Proof.
  intros Hp. destruct (beginViewChange_log r v now Hp) as (H1 & H2 & H3 & _ & H4).
  split; [done|congruence|done|]. destruct H4 as [->|[-> _]]; [by left|by right].
Qed.

Lemma startViewChange_unchanged r v now wall : r_pendingBuses r = [] ->
  log_unchanged r (startViewChange r v now wall).1.
Proof.
  intros Hp. unfold startViewChange. pose proof (beginViewChange_unchanged r v now Hp) as H.
  destruct (beginViewChange r v now) as [r1 [st|]]; cbn [fst] in *; [|done].
  unfold publishViewChange, pauseClients. cbn [fst]. eapply unchanged_trans; [exact H|].
  by apply idle_unchanged.
Qed.

Lemma deliverViewChange_unchanged r m : log_unchanged r (deliverViewChange r m).
Proof.
  unfold deliverViewChange. destruct (r_vc r); [|apply unchanged_refl].
  destruct (_ && _); [apply set_vc_unchanged|apply unchanged_refl].
Qed.

Lemma count_request_unchanged r m : log_unchanged r (count_request r m).1.
Proof.
  unfold count_request. destruct (r_vc r); [|apply unchanged_refl]. destruct (_ || _); [apply unchanged_refl|].
  cbv zeta. destruct (_ <? _); [apply set_vc_unchanged|]. destruct (_ =? _); cbn [fst]; [|apply set_vc_unchanged].
  eapply unchanged_trans; [apply set_vc_unchanged|apply deliverViewChange_unchanged].
Qed.

Lemma handleViewChangeRequest_unchanged r m now wall : r_pendingBuses r = [] ->
  log_unchanged r (handleViewChangeRequest r m now wall).1.
Proof.
  intros Hp. unfold handleViewChangeRequest.
  assert (H : log_unchanged r (if view r <? vq_ViewId m then startViewChange r (vq_ViewId m) now wall
    else (r, [])).1) by (destruct (_ <? _); [by apply startViewChange_unchanged|apply unchanged_refl]).
  destruct (if view r <? vq_ViewId m then _ else _) as [r1 fx]. cbn [fst] in H.
  destruct (negb _); [done|]. pose proof (count_request_unchanged r1 m) as H2.
  destruct (count_request r1 m) as [r2 fx2]. by eapply unchanged_trans.
Qed.

Lemma handleViewChange_unchanged r m now wall : r_pendingBuses r = [] ->
  log_unchanged r (handleViewChange r m now wall).1.
Proof.
  intros Hp. unfold handleViewChange. destruct (_ <? _); [apply unchanged_refl|].
  assert (H : log_unchanged r (if view r <? vc_ViewId m then startViewChange r (vc_ViewId m) now wall
    else (r, [])).1) by (destruct (_ <? _); [by apply startViewChange_unchanged|apply unchanged_refl]).
  destruct (if view r <? vc_ViewId m then _ else _) as [r1 fx]. cbn [fst] in H.
  destruct (_ && _); [done|]. cbn [fst]. eapply unchanged_trans; [exact H|apply deliverViewChange_unchanged].
Qed.

Lemma handleStartView_unchanged r m : log_unchanged r (handleStartView r m).
Proof.
  unfold handleStartView. destruct (negb _); [apply unchanged_refl|]. destruct (_ || _); [apply unchanged_refl|].
  destruct (_ <? _); [|apply unchanged_refl]. cbv zeta.
  assert (Hq : forall x q, log_unchanged x (x <| r_startViewQ := q |>)) by (intros; unchanged).
  assert (Hs : forall x v, log_unchanged x (x <| r_startViewSeen := v |>)) by (intros; unchanged).
  assert (Hc : forall x, log_unchanged x (cancelRecovery x)) by (intros; unchanged).
  set (r1 := r <| r_startViewQ ::= _ |>). assert (H1 : log_unchanged r r1) by apply Hq. clearbody r1.
  set (r2 := if r_startViewSeen r1 <? _ then _ else _).
  assert (H2 : log_unchanged r r2).
  { unfold r2. destruct (_ <? _); [eapply unchanged_trans; [exact H1|apply Hs]|exact H1]. }
  clearbody r2. destruct (r_recovery r2); [|exact H2]. destruct (_ <? _); [|exact H2].
  eapply unchanged_trans; [exact H2|apply Hc].
Qed.

Lemma drive_publish_moves r snap hi k id v wd plan now :
  node_log r snap hi -> room r hi k -> node_moves r snap (drive_publish r id v wd plan now).1.
Proof.
  intros Hok Hroom. unfold drive_publish. destruct (_ || _); [by apply (idle_moves _ _ _ Hok)|]. cbn [fst].
  unfold publishNormalView. set (r1 := r <| r_vc := None |>).
  assert (H1 : log_unchanged r (enter_normal r1 v now)).
  { eapply unchanged_trans; [apply (set_vc_unchanged r None)|]. fold r1.
    unfold enter_normal, commitScheduleHistory. cbv zeta. destruct (last _); unchanged. }
  set (r2 := enter_normal r1 v now) in *.
  destruct (advance_ok r2 snap hi k) as (snap' & hi' & G);
    [eapply unchanged_ok; [exact H1|apply Hok]|by eapply unchanged_room|].
  eapply grows_node; [exact Hok|exact H1|exact G| |apply unchanged_refl].
  apply frame_sync, advanceNextExpected_frame.
Qed.

(** ** Every step that installs no view *)

(** room for the slots of one message, and rings that reach down to the commit point *)
Record calm r (hi : Z) : Prop := {
  cm_room : room r hi (Z.to_nat MaxStateEntries + 1);
  cm_ring : ring_covers r hi }.

Section plain.
Context (r : Replica TM) (snap : Z -> snapshot) (hi : Z) (Hok : node_log r snap hi) (Hcalm : calm r hi).

Lemma calm_one : room r hi 1.
Proof. eapply room_le; [apply Hcalm|]. pose proof MaxStateEntries_u32. lia. Qed.

Lemma view_turn_moves r' fx : view_turn r r' fx -> node_moves r snap r'.
Proof.
  pose proof (lo_pending _ _ _ (nl_log _ _ _ Hok)) as Hp.
  assert (Hs : forall v now wall, node_moves r snap (startViewChange r v now wall).1).
  { intros. by apply (unchanged_moves _ _ _ Hok), startViewChange_unchanged. }
  destruct 1 as [now wall|wd now wall|id reports|v now wall|v reports now wall|id v wd plan|msg|id v wd plan now].
  - unfold suspectLeader. destruct (_ || _); [by apply (idle_moves _ _ _ Hok)|].
    destruct (_ <? _); [by apply (idle_moves _ _ _ Hok)|apply Hs].
  - unfold expireViewChangeWatchdog. cbv zeta. destruct (_ || _); [by apply (idle_moves _ _ _ Hok)|apply Hs].
  - apply (unchanged_moves _ _ _ Hok). unfold drive_take. destruct (r_vc r); [|apply unchanged_refl].
    destruct (_ =? _); [|apply unchanged_refl]. destruct (vcs_reports _); [apply unchanged_refl|apply set_vc_unchanged].
  - apply Hs.
  - unfold drive_merge. cbv zeta. destruct (_ || _); [apply Hs|by apply (idle_moves _ _ _ Hok)].
  - apply (idle_moves _ _ _ Hok). unfold merge_prefix. destruct (negb _); [done|]. destruct (negb _); [done|].
    destruct (committedPrefixMissing _ _ _) as [from|]; [|done]. destruct (_ && _); [|done].
    pose proof (fetchRange_idle r id v (mp_catchUp plan) from (mp_stableSlot plan) None) as H.
    by destruct (fetchRange _ _ _ _ _ _ _).
  - by apply (idle_moves _ _ _ Hok).
  - eapply drive_publish_moves; [exact Hok|apply calm_one].
Qed.

Lemma loop_turn_moves r' fx : loop_turn r r' fx -> node_moves r snap r'.
Proof.
  destruct 1 as [| |q next to slots|q next to slots m Hm|q ok|k r' k' fx E| | | | |];
    try (by apply (idle_moves _ _ _ Hok)).
  - by eapply syncOnce_moves.
  - apply (idle_moves _ _ _ Hok), stateFetch_take_idle.
  - apply (fetch_receive_moves r snap hi 1 _ _ _ _ _ Hok). eapply room_le; [apply Hcalm|].
    destruct Hm as (_ & _ & _ & _ & _ & Hb). destruct Hb as [Hb _]. lia.
  - by eapply finishSyncFetch_moves, Hcalm.
  - pose proof (stateServeLoop_idle r k) as H. rewrite E in H. by apply (idle_moves _ _ _ Hok).
  - apply (idle_moves _ _ _ Hok), scheduleLoop_idle.
  - apply (idle_moves _ _ _ Hok), retirePeer_idle.
Qed.

Lemma handle_msg_moves c m mono wall : msg_wf m -> node_moves r snap (handle_msg r c m mono wall).1.1.
Proof.
  intros Hm. pose proof (lo_pending _ _ _ (nl_log _ _ _ Hok)) as Hp. pose proof calm_one as Hr.
  unfold handle_msg.
  assert (Hu : forall r', log_unchanged r r' -> node_moves r snap r') by (by apply (unchanged_moves r snap hi Hok)).
  assert (Hi : forall r', idle r r' -> node_moves r snap r') by (by apply (idle_moves r snap hi Hok)).
  destruct m; cbn [fst];
    repeat match goal with |- context [let (r, fx) := ?x in (r, _, fx)] =>
      destruct x as [r1 fx] eqn:E; cbn [fst]; apply (f_equal fst) in E; cbn [fst] in E; subst r1 end.
  all: try by eauto using handleHsRequest_idle, handleSchdPrepareReply_idle, handleSchdCommit_idle,
    handleClientControl_idle, handleGapRequest_idle, handleGapReply_moves, handleGapCommit_moves,
    handleGapCommitReply_idle, handleSyncPrepare_moves, cm_ring, handleSyncReply_moves,
    handleViewChangeRequest_unchanged, handleViewChange_unchanged, handleStartView_unchanged,
    handleGetState_idle, handleNewState_idle.
  - destruct (_ && _); cbn [fst]; [|by apply Hi]. eauto using handleSchdPrepare_idle.
  - apply (handleBus_moves r snap hi Hok 0 Hr). destruct Hm as (_ & _ & _ & [Hl _]). word_lia.
  - apply (handleSyncCommit_moves r snap hi _ _ Hok). apply Hm.
  - pose proof (handleScheduleInstall_idle r m) as H. destruct (handleScheduleInstall r m). eauto.
  - by apply Hi.
Qed.

Lemma plain_step_moves r' fx : plain_step r r' fx -> node_moves r snap r'.
Proof.
  destruct 1 as [c m mono wall r1 c1 fx1 Hm E|c|r1 fx1 H|r1 fx1 H|r1 fx1 H].
  - pose proof (handle_msg_moves c m mono wall Hm) as H. by rewrite E in H.
  - apply (idle_moves _ _ _ Hok), conn_closed_idle.
  - eapply gap_turn_moves; [exact Hok|apply calm_one|exact H].
  - by eapply view_turn_moves.
  - by eapply loop_turn_moves.
Qed.
End plain.
End steps.
