(* ===== verification/MergeProps.v ===== *)
(** Properties of view-change reports and of their merge. *)
From stdpp Require Import sorting.
From S2P Require Import Prelude WireBase Wire WireStream Config Lines GlobalOrder State.
From S2P Require Import ReplicaState Cursor Log Admission ScheduleProto SchedInv.
From S2P Require Import LogSpec LogInv Merge MergeSpec ConfigProps ScheduleProps LogProps AgreementProps.

#[local] Existing Instances store store_laws.

Lemma existsb_slot (l : list Z) s : existsb (fun n => n =? s) l = bool_decide (s ∈ l).
Proof.
  apply eq_true_iff_eq. rewrite existsb_exists, bool_decide_eq_true. split.
  - intros (n & Hn & ->%Z.eqb_eq). by apply list_elem_of_In.
  - intros H. exists s. split; [by apply list_elem_of_In|apply Z.eqb_refl].
Qed.

(** the report, read back with the test the merge uses *)
Lemma report_read {TM : Treemap Value} (r : Replica TM) v s :
  report_ok r ->
  vc_BitmapBase (buildViewChange r v) <= s <= report_top r ->
  (bitSet (vc_FilledBitmap (buildViewChange r v)) (s - vc_BitmapBase (buildViewChange r v)) =
     bool_decide (report_state r s <> slotEmpty)) /\
  (s ∈ vc_NoOpSlots (buildViewChange r v) <-> report_state r s = slotNoOp) /\
  reports_received s (buildViewChange r v) = bool_decide (report_state r s = slotReceived).
Proof.
  intros Hok Hs. destruct (buildViewChange_spec r v Hok) as (Hb & _ & _ & [_ _ Hbit Hno _]).
  pose proof (report_range r Hok) as Hr.
  set (m := buildViewChange r v) in *. cbv zeta in *. rewrite Z2Nat.id in Hbit, Hno by lia.
  specialize (Hbit s ltac:(lia)).
  assert (s ∈ vc_NoOpSlots m <-> report_state r s = slotNoOp) as Hn.
  { rewrite Hno, list_elem_of_filter, elem_of_seqZ. split; [naive_solver|]. intros ->. split; [done|lia]. }
  assert (bitSet (vc_FilledBitmap m) (s - vc_BitmapBase m) = bool_decide (report_state r s <> slotEmpty))
    as Hbit'.
  { rewrite Hbit. apply bool_decide_ext. unfold report_filled. split; [naive_solver|]. split; [lia|done]. }
  split; [done|]. split; [done|]. unfold reports_received.
  rewrite (proj2 (Z.ltb_ge _ _)) by lia. cbn [negb andb].
  assert (sub64 s (vc_BitmapBase m) = s - vc_BitmapBase m) as -> by (apply u64_small; word_lia).
  rewrite Hbit', existsb_slot. destruct (report_state r s) eqn:E.
  - done.
  - rewrite (bool_decide_eq_false_2 (s ∈ _)) by (by rewrite Hn). done.
  - rewrite (bool_decide_eq_true_2 (s ∈ _)) by (by apply Hn). done.
Qed.

(** A replica's view-change report says exactly which slots it has filled
    from the reported base to its top, and which of them are no-ops; the base is
    the slot after its commit point (or the first slot not pruned), moved up only
    if more than the bitmap's 8 * 2^20 slots would have to be reported. *)
Theorem report_describes_slots {TM : Treemap Value} (r : Replica TM) v :
  report_ok r ->
  let m := buildViewChange r v in
  report_base r <= vc_BitmapBase m <= report_top r /\
  Zlength (vc_FilledBitmap m) <= MaxBitmapBytes /\
  (report_top r - report_base r < MaxBitmapBytes * 8 -> vc_BitmapBase m = report_base r) /\
  forall s, vc_BitmapBase m <= s <= report_top r ->
    bitSet (vc_FilledBitmap m) (s - vc_BitmapBase m) = bool_decide (report_state r s <> slotEmpty) /\
    (s ∈ vc_NoOpSlots m <-> report_state r s = slotNoOp) /\
    reports_received s m = bool_decide (report_state r s = slotReceived).
Proof.
  intros Hok m. destruct (buildViewChange_spec r v Hok) as (Hb & Hl & Hfull & _).
  split; [done|]. split; [done|]. split; [done|]. intros s Hs. by apply report_read.
Qed.

Definition noop2 : Replica store := (setNoOp filled3 2).1.

Lemma noop2_ok : report_ok noop2.
Proof. split; [by vm_compute..|by vm_compute]. Qed.

Theorem report_describes_slots_witness :
  2 ∈ vc_NoOpSlots (buildViewChange noop2 1) /\
  reports_received 3 (buildViewChange noop2 1) = true.
Proof.
  pose proof (report_describes_slots noop2 1 noop2_ok) as (_ & _ & _ & H). split.
  - apply (H 2); by vm_compute.
  - destruct (H 3) as (_ & _ & E); [by vm_compute|]. rewrite E. by vm_compute.
Defined.

(** * The merge *)

(** three reports on four slots: replica 0 and 1 of view 2, replica 2 of view 1 *)
Definition report (i normal : Z) (bm : byte) (noops : list Z) (max : Z) : BusViewChange :=
  mkBusViewChange i 3 normal 0 false 0 0 max true 0 [bm] noops [].
Definition sample_reports : list BusViewChange :=
  [report 0 2 x0d [2] 3; report 1 2 x05 [] 2; report 2 1 x0f [] 3].

Lemma merge_spec_of reports :
  reports <> [] -> Forall BusViewChange_wf reports -> merge_spec reports (mergeSuffix reports).
Proof.
  intros Hne Hwf. apply mergeSuffix_spec; [done|]. intros m Hm _. rewrite Forall_forall in Hwf.
  by destruct (Hwf m Hm) as (_ & _ & _ & H & _).
Qed.

#[local] Instance BusViewChange_wf_dec m : Decision (BusViewChange_wf m).
Proof.
  unfold BusViewChange_wf, slots_wf, schedule_wf, bounded, BusSyncMessage_wf, is_u64, is_u32.
  apply _.
Defined.

Lemma sample_reports_wf : Forall BusViewChange_wf sample_reports.
Proof. apply (bool_decide_unpack _). by vm_compute. Qed.

(** The merge decides every slot above the merged stable slot up to the
    greatest filled one: either the slot is a no-op, and then no survivor (report
    of the latest normal view) has received it, or it has donors, and these are
    exactly the survivors that have received it.  Every other slot is left alone,
    and the no-op list is sorted. *)
Theorem merge_partitions_suffix reports :
  reports <> [] -> Forall BusViewChange_wf reports ->
  let plan := mergeSuffix reports in
  StronglySorted Z.lt (mp_noops plan) /\
  (forall s, merged plan s ->
     (s ∈ mp_noops plan /\ (mp_donors plan !! s) = None /\
      forall m, m ∈ survivors_of reports -> reports_received s m = false) \/
     ((s ∉ mp_noops plan) /\ exists donors, (mp_donors plan !! s) = Some donors /\ donors <> [] /\
      forall i, i ∈ donors <-> exists m, m ∈ survivors_of reports /\
        reports_received s m = true /\ vc_SenderIdx m = i)) /\
  (forall s, ~ merged plan s -> (s ∉ mp_noops plan) /\ (mp_donors plan !! s) = None).
Proof.
  intros Hne Hwf plan. pose proof (merge_spec_of reports Hne Hwf) as [_ _ _ _ _ _ Hsort Hno Hdo].
  fold plan in Hsort, Hno, Hdo. split; [done|]. split; intros s Hs.
  - specialize (Hdo s). rewrite decide_True in Hdo by done.
    pose proof (elem_of_donors (survivors_of reports) s) as Hel.
    destruct (donors_of (survivors_of reports) s) as [|d l] eqn:Ed; [left|right].
    + split; [by apply Hno|]. split; [done|]. intros m Hm.
      destruct (reports_received s m) eqn:Er; [|done].
      destruct (proj1 (elem_of_nil _) (proj2 (Hel (vc_SenderIdx m)) ltac:(eauto))).
    + split; [rewrite Hno, Ed; by intros [_ ?]|]. exists (d :: l). split; [done|]. split; [done|].
      apply Hel.
  - split; [rewrite Hno; by intros [? _]|]. specialize (Hdo s). by rewrite decide_False in Hdo.
Qed.

Theorem merge_partitions_suffix_witness :
  (2 ∉ mp_noops (mergeSuffix sample_reports)) /\
  exists donors, (mp_donors (mergeSuffix sample_reports) !! 2) = Some donors /\ donors <> [].
Proof.
  destruct (merge_partitions_suffix sample_reports) as (_ & H & _); [done|exact sample_reports_wf|].
  destruct (H 2) as [(Hn & _)|(Hn & donors & Hd & Hne & _)].
  - by vm_compute.
  - exfalso. revert Hn. apply (bool_decide_unpack (~ _)). by vm_compute.
  - split; [exact Hn|]. exists donors. by split.
Defined.

#[local] Instance Zlt_antisymm : AntiSymm (=) Z.lt.
Proof. intros x y. lia. Qed.

Lemma strictly_sorted_NoDup (l : list Z) : StronglySorted Z.lt l -> NoDup l.
Proof.
  induction 1 as [|x l _ IH Hx]; constructor; [|done]. intros Hin.
  rewrite Forall_forall in Hx. specialize (Hx x Hin). lia.
Qed.

(** The merge does not depend on the order in which the reports arrive (the
    code ranges over a map): every field of the plan is the same, up to the choice
    among equally advanced replicas to catch up from, and up to the schedule when
    two reports' schedules conflict, which is then detected in any order. *)
Theorem merge_order_independent reports reports' :
  reports ≡ₚ reports' -> Forall BusViewChange_wf reports ->
  let p := mergeSuffix reports in
  let p' := mergeSuffix reports' in
  p' <| mp_catchUp := mp_catchUp p |> <| mp_schedule := mp_schedule p |> = p /\
  (mp_scheduleConflict p = false -> mp_schedule p' = mp_schedule p) /\
  (reports <> [] -> exists m m', m ∈ reports /\ m' ∈ reports /\ mp_catchUp p = vc_SenderIdx m /\
     mp_catchUp p' = vc_SenderIdx m' /\ vc_NextExpected m = vc_NextExpected m').
Proof.
  intros Hp Hwf p p'. destruct (decide (reports = [])) as [E|Hne].
  { subst reports. apply Permutation_nil_l in Hp. subst reports'. by split_and!. }
  assert (reports' <> []) as Hne' by (intros ->; by apply Permutation_nil_r in Hp).
  assert (Forall BusViewChange_wf reports') as Hwf' by (by rewrite <- Hp).
  pose proof (survivors_perm _ _ Hp) as Hsp.
  destruct (merge_spec_of _ Hne Hwf) as [V1 S1 C1 St1 M1 [H1 (m & Hm & Ec & Hmax)] Srt1 N1 D1].
  destruct (merge_spec_of _ Hne' Hwf') as [V2 S2 C2 St2 M2 [H2 (m' & Hm' & Ec' & Hmax')] Srt2 N2 D2].
  fold p in V1, S1, C1, St1, M1, H1, Ec, Srt1, N1, D1. fold p' in V2, S2, C2, St2, M2, H2, Ec', Srt2, N2, D2.
  rewrite <- (best_view_perm _ _ Hp) in V2. rewrite <- (max_of_perm _ _ _ _ Hsp) in St2. rewrite <- (max_of_perm _ _ _ _ Hsp) in M2.
  destruct (merge_schedules_perm _ _ Hsp) as [Hc Hsame]. rewrite <- C1, <- C2 in Hc, Hsame. cbn [snd] in Hc, Hsame.
  assert (forall s, merged p s <-> merged p' s) as Hmer.
  { intros s. unfold merged. rewrite <- St2 in St1. rewrite <- M2 in M1.
    injection St1 as -> ->. injection M1 as -> ->. done. }
  assert (mp_noops p = mp_noops p') as En.
  { apply (StronglySorted_unique Z.lt); [done..|]. apply NoDup_Permutation.
    - by apply strictly_sorted_NoDup.
    - by apply strictly_sorted_NoDup.
    - intros s. rewrite N1, N2, Hmer. by rewrite (donors_of_perm _ _ s Hsp). }
  assert (mp_donors p = mp_donors p') as Ed.
  { apply map_eq. intros s. rewrite D1, D2, (donors_of_perm _ _ s Hsp).
    by apply decide_ext. }
  rewrite <- St2 in St1. rewrite <- M2 in M1. injection St1 as E1 E2. injection M1 as E3 E4.
  assert (mp_selected p = mp_selected p') as Es.
  { rewrite S1, S2. apply merge_sort_perm. by rewrite Hsp. }
  split; [|split].
  - clear S1 S2. clearbody p p'. destruct p, p'. cbn in *. subst. reflexivity.
  - intros Hf. specialize (Hsame Hf). by injection Hsame.
  - intros _. exists m, m'. rewrite <- Hsp in Hm'. apply elem_of_survivors in Hm as Hmr.
    apply elem_of_survivors in Hm' as Hmr'. split; [by apply Hmr|]. split; [by apply Hmr'|].
    split; [done|]. split; [done|]. specialize (Hmax m' Hm'). specialize (Hmax' m). rewrite <- Hsp in Hmax'.
    specialize (Hmax' Hm). lia.
Qed.

Theorem merge_order_independent_witness :
  mp_schedule (mergeSuffix (reverse sample_reports)) = mp_schedule (mergeSuffix sample_reports).
Proof.
  apply (merge_order_independent sample_reports (reverse sample_reports)).
  - symmetry. apply reverse_Permutation.
  - exact sample_reports_wf.
  - by vm_compute.
Defined.

(** the report of a replica that has received slot [s] *)
Lemma report_received {TM : Treemap Value} (r : Replica TM) v s :
  report_ok r -> vc_BitmapBase (buildViewChange r v) <= s <= report_top r ->
  report_state r s = slotReceived ->
  reports_received s (buildViewChange r v) = true /\
  vc_HasMax (buildViewChange r v) = true /\ s <= vc_MaxSlotFilled (buildViewChange r v).
Proof.
  intros Hok Hs Hst. destruct (report_read r v s Hok Hs) as (_ & _ & E).
  split; [rewrite E; by apply bool_decide_eq_true|].
  destruct (buildViewChange_spec r v Hok) as (Hb & _ & _ & [_ _ _ _ Hmax]).
  pose proof (report_range r Hok) as Hr. set (m := buildViewChange r v) in *. cbv zeta in *.
  rewrite Z2Nat.id in Hmax by lia. assert (report_filled r s) as Hf by (unfold report_filled; congruence).
  destruct (vc_HasMax m).
  - split; [done|]. destruct Hmax as (_ & _ & Hmax).
    destruct (decide (s <= vc_MaxSlotFilled m)); [done|]. exfalso. apply (Hmax s); [lia|done].
  - exfalso. destruct Hmax as [_ Hmax]. apply (Hmax s); [lia|done].
Qed.


(** two members of a three-replica group that have executed slot 0 *)
Definition other2 : Replica store := noop2 <| r_idx := 1 |>.
Definition two_reports : list BusViewChange := [buildViewChange noop2 1; buildViewChange other2 1].


Lemma valid_selected_spec n seen l :
  Forall (fun i => i < n) l -> NoDup l -> (forall i, i ∈ l -> i ∉ seen) -> valid_selected n seen l = true.
Proof.
  intros HF Hnd. revert seen. induction l as [|i l IH]; intros seen Hs; cbn [valid_selected]; [done|].
  inversion_clear HF as [|? ? Hi HF']. inversion_clear Hnd as [|? ? Hn Hnd'].
  rewrite (proj2 (Z.leb_gt _ _)) by lia. rewrite decide_False by (apply Hs; by left).
  apply IH; [done..|]. intros j Hj. assert (j <> i) by (intros ->; done).
  pose proof (Hs j ltac:(by right)). set_solver.
Qed.

Lemma NoDup_fmap_filter {A} (f : A -> Z) (P : A -> Prop) `{!forall x, Decision (P x)} l :
  NoDup (f <$> l) -> NoDup (f <$> filter P l).
Proof.
  induction l as [|x l IH]; [done|]. cbn [fmap list_fmap]. intros [Hn Hnd]%NoDup_cons.
  rewrite filter_cons. case_decide; [|auto]. cbn [fmap list_fmap]. constructor; [|auto].
  contradict Hn. apply list_elem_of_fmap in Hn as (y & -> & [_ Hy]%list_elem_of_filter).
  apply list_elem_of_fmap. eauto.
Qed.

(** reports a leader can merge into view [v]: one per replica, none of a later
    view, none at the end of the slot space *)
Record mergeable (n v : Z) (reports : list BusViewChange) : Prop := {
  mg_nonempty : reports <> [];
  mg_wf : Forall BusViewChange_wf reports;
  mg_senders : NoDup (vc_SenderIdx <$> reports);
  mg_bounds : forall m, m ∈ reports -> vc_SenderIdx m < n /\ vc_LastNormalView m <= v /\
    vc_StableSlot m < W64 - 1 /\ vc_MaxSlotFilled m < W64 - 1 }.

Lemma bound_of_max {A} has (val : A -> Z) l x b :
  (x, b) = bound_of (max_of has val l) -> b = true -> exists m, m ∈ l /\ val m = x.
Proof.
  intros E Hb. pose proof (max_of_spec has val l) as H.
  destruct (max_of has val l) as [y|]; injection E as -> ->; [|done].
  destruct H as [(m & Hm & _ & E) _]. eauto.
Qed.

Lemma mergeable_plan n v reports :
  mergeable n v reports ->
  let plan := mergeSuffix reports in
  mp_sourceNormalView plan <= v /\
  (mp_hasStable plan = true -> 0 <= mp_stableSlot plan < W64 - 1) /\
  (mp_hasMax plan = true -> mp_maxSlot plan < W64 - 1) /\
  Forall (fun i => i < n) (mp_selected plan) /\ NoDup (mp_selected plan).
Proof.
  intros [Hne Hwf Hnd Hm] plan. destruct (merge_spec_of reports Hne Hwf) as [HV HS _ Hst Hmx _ _ _ _].
  fold plan in HV, HS, Hst, Hmx.
  assert (forall m, m ∈ survivors_of reports -> m ∈ reports) as Hsub.
  { intros m Hin. by apply elem_of_survivors in Hin as [? _]. }
  split; [|split; [|split; [|split]]].
  - rewrite HV. destruct (best_view_in reports Hne) as (m & Hin & <-). by apply Hm.
  - intros Hh. destruct (bound_of_max _ _ _ _ _ Hst Hh) as (m & Hin & <-). apply Hsub in Hin.
    rewrite Forall_forall in Hwf. destruct (Hwf m Hin) as (_ & _ & _ & [? _] & _).
    destruct (Hm m Hin) as (_ & _ & ? & _). lia.
  - intros Hh. destruct (bound_of_max _ _ _ _ _ Hmx Hh) as (m & Hin & <-). by apply Hm, Hsub.
  - rewrite HS. apply Forall_forall. intros i Hi. rewrite elem_of_merge_sort in Hi.
    apply list_elem_of_fmap in Hi as (m & -> & Hin). by apply Hm, Hsub.
  - rewrite HS, merge_sort_Permutation. unfold survivors_of. apply NoDup_fmap_filter. exact Hnd.
Qed.

Lemma suffixBase_small stable has :
  (has = true -> 0 <= stable < W64 - 1) -> suffixBase stable has = if has then stable + 1 else 0.
Proof.
  intros H. unfold suffixBase. destruct has; cbn [negb]; [|done]. specialize (H eq_refl).
  unfold add64. apply u64_small. word_lia.
Qed.

Lemma canonical_bounds plan maxSlot hasMax :
  mergeCanonicalBoundary plan = (maxSlot, hasMax) ->
  (mp_hasStable plan = true -> hasMax = true /\ mp_stableSlot plan <= maxSlot) /\
  (mp_hasMax plan = true -> hasMax = true /\ mp_maxSlot plan <= maxSlot) /\
  (hasMax = true -> (mp_hasStable plan = true /\ maxSlot = mp_stableSlot plan) \/
                    (mp_hasMax plan = true /\ maxSlot = mp_maxSlot plan)).
Proof.
  unfold mergeCanonicalBoundary. destruct (mp_hasStable plan), (mp_hasMax plan); cbn [andb negb orb];
    try destruct (Z.ltb_spec (mp_stableSlot plan) (mp_maxSlot plan)); intros [= <- <-];
    split_and!; intros; try discriminate; auto; try (split; [done|lia]).
Qed.

(** The start view a leader makes of its merge passes the followers' checks:
    from mergeable reports, with an acceptable merged schedule and any no-ops
    among the merged slots, [validStartView] accepts the message. *)
Theorem merged_startView_accepted {TM : Treemap Value} (r follower : Replica TM) reports v noops :
  let c := r_config r in
  let plan := (mergeSuffix reports) <| mp_noops := noops |> in
  let b := mergeCanonicalBoundary plan in
  config_ok c -> r_config follower = c -> r_idx r = LeaderIndex c v ->
  mergeable (cfg_N c) v reports ->
  mp_schedule plan = [] \/ validateSchedule (mp_schedule plan) = true ->
  (forall s, s ∈ noops -> merged plan s) ->
  validStartView follower (initialStartViewMsg r v plan b.1 b.2) = true.
Proof.
  intros c plan b Hc Ef Hl Hm Hs Hn.
  destruct (mergeable_plan _ _ _ Hm) as (Hv & Hst & Hmx & Hsel & Hnd).
  change (mp_sourceNormalView (mergeSuffix reports)) with (mp_sourceNormalView plan) in Hv.
  change (mp_hasStable (mergeSuffix reports)) with (mp_hasStable plan) in Hst.
  change (mp_stableSlot (mergeSuffix reports)) with (mp_stableSlot plan) in Hst.
  pose proof (suffixBase_small _ _ Hst) as Hb.
  destruct (canonical_bounds plan b.1 b.2 (surjective_pairing b)) as (B1 & B2 & B3).
  pose proof (LeaderIndex_range c v Hc) as HL.
  assert (u32 (r_idx r) = r_idx r) as Eidx.
  { apply u32_small. destruct Hc. unfold maxReplicaCount in *. word_lia. }
  unfold validStartView, initialStartViewMsg. cbn [sv_Schedule sv_ViewId sv_SourceNormalView sv_SenderIdx
    sv_HasStable sv_HasMax sv_MaxSlot sv_StableSlot sv_NoOpSlots sv_SelectedReports].
  rewrite Ef, Eidx. fold c. rewrite (proj2 (Z.ltb_ge v _)) by lia.
  assert (Nat.ltb 0 (length (mp_schedule plan)) && negb (validateSchedule (mp_schedule plan)) = false) as ->.
  { destruct Hs as [-> | ->]; [done|apply andb_false_r]. }
  rewrite (proj2 (Z.leb_gt (cfg_N c) _)) by lia. rewrite Hl, Z.eqb_refl. cbn [negb orb].
  destruct (mp_hasStable plan && _) eqn:E1.
  { exfalso. destruct (mp_hasStable plan); [|done]. destruct (B1 eq_refl) as [Eb ?]. rewrite Eb in E1.
    cbn in E1. lia. }
  destruct (b.2 && _) eqn:E2.
  { exfalso. apply andb_prop in E2 as [E2 E3]. apply Z.eqb_eq in E3.
    destruct (B3 E2) as [[Hh ?]|[Hh ?]]; [specialize (Hst Hh); lia|specialize (Hmx Hh)].
    change (mp_maxSlot (mergeSuffix reports)) with (mp_maxSlot plan) in Hmx. lia. }
  destruct (existsb _ _) eqn:E3.
  { exfalso. apply existsb_exists in E3 as (s & Hin & E). apply list_elem_of_In in Hin.
    destruct (Hn s Hin) as (Hmm & Hlo & Hhi). destruct (B2 Hmm) as [Eb ?]. rewrite Eb in E.
    unfold suffixBase in *. destruct (mp_hasStable plan); cbn in *; lia. }
  by apply valid_selected_spec; [..|set_solver].
Qed.

(** replica 0 leads view 3 and merges the sample reports *)
Definition leader3 : Replica store := NewReplica sample_config 0 false dropNone 0 0 opts4.
Definition follower3 : Replica store := NewReplica sample_config 2 false dropNone 0 0 opts4.

Lemma sample_mergeable : mergeable 3 3 sample_reports.
Proof.
  split; [done|exact sample_reports_wf|apply (bool_decide_unpack _); by vm_compute|].
  intros m [->|[->|[->|[]%elem_of_nil]%elem_of_cons]%elem_of_cons]%elem_of_cons;
    split_and!; by vm_compute.
Qed.

Theorem merged_startView_accepted_witness :
  validStartView follower3 (initialStartViewMsg leader3 3
    ((mergeSuffix sample_reports) <| mp_noops := [1] |>) 3 true) = true.
Proof.
  refine (merged_startView_accepted leader3 follower3 sample_reports 3 [1] _ _ _ sample_mergeable _ _).
  - exact (ReadConfig_ok _ _ _ sample_config_read).
  - reflexivity.
  - by vm_compute.
  - left. by vm_compute.
  - intros s ->%list_elem_of_singleton. by vm_compute.
Defined.
