(* ===== verification/NodeProps.v ===== *)
(** The composition of a replica's components: its history under every handler and
    turn that installs no view. *)
From S2P Require Import Prelude WireBase Wire WireStream Config Lines GlobalOrder State.
From S2P Require Import ReplicaState Cursor Log LogSpec LogInv Admission.
From S2P Require Import ScheduleProto SchedInv Merge Gaps Sync ViewChange Recovery LogFrame.
From S2P Require Import ViewInv RecoveryInv RecoveryLog RecoveryExec FetchLog ConfigProps LogProps AgreementProps.
From S2P Require Import DurableLog Serve Listener NodeInv NodeSteps.


#[local] Existing Instance store.
#[local] Existing Instance store_laws.

(** replica 1 of three: slots 0 and 1 executed and committed, slot 2 missing, slot 3
    received; the leader commits slot 2 as a no-op *)
Definition committed2 : Replica store := (setStable run4 1) <| r_idx := 1 |>.
Definition gapCommit2 : BusGapCommit := {| gc_Slot := 2; gc_SenderIdx := 0; gc_ViewId := 0 |}.

Lemma committed2_same : same_log run4 committed2.
Proof.
  eapply same_log_trans; [apply (setStable_same run4 1)|]. unfold committed2. split; [split|..]; by rsimpl.
Qed.

Lemma committed2_node : exists snap, node_log committed2 snap 2.
Proof.
  destruct run4_inv as (snap & hi & Hinv & ->). exists snap. split; [|by vm_compute].
  split; [|by vm_compute|by vm_compute|by vm_compute].
  eapply same_log_inv; [exact committed2_same|exact Hinv].
Qed.

Lemma committed2_calm : calm committed2 2.
Proof.
  split; [|by vm_compute]. split; [by vm_compute|by vm_compute|].
  assert (map_Forall (fun _ e => entry_len e <= 2 ^ 32) (r_globalLog committed2)) as H; [|exact H].
  apply (bool_decide_unpack _). by vm_compute.
Qed.

Lemma committed2_step :
  plain_step committed2 (handleGapCommit committed2 gapCommit2).1 (handleGapCommit committed2 gapCommit2).2.
Proof.
  apply (step_msg _ (newConn 1) (RGapCommit gapCommit2) 0 0 _ (mkconnState 1 0 false 0)); [by split_and!; cbn|].
  unfold handle_msg. by destruct (handleGapCommit _ _).
Qed.

