(* ===== verification/GapProps.v ===== *)
(** Properties of gap recovery: a missing slot's payload reaches the replica that
    asked for it, and a slot is agreed to be a no-op only by a quorum. *)
From S2P Require Import Prelude WireBase Wire WireStream Config Lines GlobalOrder State.
From S2P Require Import ReplicaState Cursor Log LogSpec LogInv Admission.
From S2P Require Import ScheduleProto SchedInv Merge Gaps LogFrame RecoveryLog RecoveryExec FetchLog.
From S2P Require Import ViewInv Listener ConfigProps LogProps AgreementProps NodeInv NodeSteps NodeProps.

Section gaps.
Context {TM : Treemap Value} {TL : TreemapLaws TM}.
Implicit Types r p q : Replica TM.

(** * A slot recovered from a peer *)

Lemma sendToPeer_in r j j' m m' : Send j' m' ∈ sendToPeer r j m -> j' = j /\ m' = m.
Proof.
  unfold sendToPeer. destruct (_ || _); [by intros ?%elem_of_nil|].
  destruct (r_peerWriters r !! Z.to_nat j) as [[c|]|]; try by intros ?%elem_of_nil.
  rewrite elem_of_cons. intros [[= -> ->]|?%elem_of_nil]; done.
Qed.

(** a found reply carries what the slot holds *)
Lemma found_reply_payload r req now j m :
  Send j (RGapReply m) ∈ (handleGapRequest r req now).2 -> gr_Found m = true ->
  j = gq_SenderIdx req /\ gr_Slot m = gq_Slot req /\ gr_ViewId m = gq_ViewId req /\
  slotState_of r (gr_Slot m) = slotReceived /\ slotGapPayload r (gr_Slot m) = (gr_Op m, gr_Bus m).
Proof.
  unfold handleGapRequest. destruct (negb _); [by intros ?%elem_of_nil|]. cbv zeta.
  destruct (_ || _); [by intros ?%elem_of_nil|]. destruct (_ && _); [by intros ?%elem_of_nil|].
  destruct (slotGapPayload r (gq_Slot req)) as [op b] eqn:Ep. destruct (negb _); cbn [snd].
  - intros [-> [= ->]]%sendToPeer_in. cbn. intros ->%bool_decide_eq_true. by rewrite Ep.
  - destruct (slotState_of r (gq_Slot req)) eqn:Es; cbn [snd].
    + unfold ensureLeaderResolve. cbv zeta. destruct (_ && _); [by intros ?%elem_of_nil|].
      destruct (_ || _); [by intros ?%elem_of_nil|]. destruct (r_gaps r !! _); cbn [snd].
      * by intros ?%elem_of_nil.
      * destruct (open_gap _ _ _). cbn [snd]. by intros [[=]|?%elem_of_nil]%elem_of_cons.
    + intros [-> [= ->]]%sendToPeer_in. cbn. by rewrite Es, Ep.
    + by intros [_ [=]]%sendToPeer_in.
Qed.

(** storing in an empty slot *)
Lemma stored_empty r s c qid op b :
  slotState_of r s = slotEmpty -> (b = true -> exists reqs, UnmarshalRequests op = Some reqs) ->
  let (r1, stored) := storeRecovered r s c qid op b in
  stored = true /\ exists e, r_globalLog r1 !! s = Some e /\ ge_state e = slotReceived /\
    ge_clientId e = c /\ ge_reqId e = qid /\ ge_isBus e = b /\
    (if b then Some (ge_requests e) = UnmarshalRequests op else ge_op e = op) /\
    forall s', s' <> s -> r_globalLog r1 !! s' = r_globalLog r !! s'.
Proof.
  intros He Hb. pose proof (claimSlot_spec r s) as (_ & _ & Ho & _ & Hf).
  rewrite bool_decide_true in Hf by done. unfold storeRecovered, recordBusReceived, recordReceived.
  destruct (claimSlot r s) as [r1 free]. cbn [fst snd] in *. subst free.
  assert (Hoth : forall e n s', s' <> s ->
    r_globalLog ((setEntry r1 s e) <| r_residentBytes ::= n |>) !! s' = r_globalLog r !! s').
  { intros e n s' Hs'. unfold setEntry. rsimpl. rewrite lookup_insert_ne by done. auto. }
  destruct b; cbn [negb].
  - destruct (Hb eq_refl) as [reqs ->]. split; [done|]. eexists.
    split; [unfold setEntry; rsimpl; by rewrite lookup_insert_eq|]. cbn. split_and!; [done..|by apply Hoth].
  - split; [done|]. eexists.
    split; [unfold setEntry; rsimpl; by rewrite lookup_insert_eq|]. cbn. split_and!; [done..|by apply Hoth].
Qed.

(** what an active gap's asker does with a found reply of its leader *)
Lemma gap_reply_stored r m gs :
  validReplicaIndex r (gr_SenderIdx m) = true ->
  r_gaps r !! (gr_ViewId m, gr_Slot m) = Some gs -> gapActive r (gr_ViewId m, gr_Slot m) (gap_id gs) = true ->
  LeaderIndex (r_config r) (gr_ViewId m) = gr_SenderIdx m -> gr_SenderIdx m <> r_idx r ->
  gr_Found m = true ->
  let r0 := (slotOwner r (gr_Slot m)).1 in let own := (slotOwner r (gr_Slot m)).2 in
  let '(r1, stored) := storeRecovered r0 (gr_Slot m) (sm_clientId own) (sm_reqId own) (gr_Op m) (gr_Bus m) in
  handleGapReply r m =
    mark_done (advanceNextExpected (if stored then r1 <| r_winRecovered ::= fun n => add64 n 1 |> else r1))
      (gr_ViewId m, gr_Slot m).
Proof.
  intros Hv Hg Ha Hl Hi Hf. cbv zeta. unfold handleGapReply. rewrite Hv. cbn [negb]. cbv zeta.
  unfold active_gap. rewrite Hg, Ha, Hl. rewrite (proj2 (Z.eqb_neq _ _)) by done.
  rewrite Z.eqb_refl, Hf. cbn [negb orb]. destruct (slotOwner r (gr_Slot m)) as [r0 own]. cbn [fst snd].
  by destruct (storeRecovered r0 _ _ _ _ _).
Qed.

(** C24: a slot one replica holds is recovered by the replica that asked for it: when
    the leader finds the slot in its log, its reply makes the asker store the same
    bus with the same requests, under the owner the asker's own schedule gives the
    slot, without touching any other slot; the asker then executes what has become
    contiguous and the gap's goroutine is woken. *)
Theorem gap_reply_recovers p q req now j m gs :
  Send j (RGapReply m) ∈ (handleGapRequest p req now).2 -> gr_Found m = true ->
  (forall e, r_globalLog p !! gr_Slot m = Some e -> requests_wf (ge_requests e)) ->
  validReplicaIndex q (gr_SenderIdx m) = true ->
  r_gaps q !! (gr_ViewId m, gr_Slot m) = Some gs -> gapActive q (gr_ViewId m, gr_Slot m) (gap_id gs) = true ->
  LeaderIndex (r_config q) (gr_ViewId m) = gr_SenderIdx m -> gr_SenderIdx m <> r_idx q ->
  slotState_of q (gr_Slot m) = slotEmpty ->
  exists e q1 e', r_globalLog p !! gr_Slot m = Some e /\ ge_state e = slotReceived /\
    handleGapReply q m = mark_done (advanceNextExpected q1) (gr_ViewId m, gr_Slot m) /\
    r_globalLog q1 !! gr_Slot m = Some e' /\ ge_state e' = slotReceived /\ ge_isBus e' = ge_isBus e /\
    (if ge_isBus e then ge_requests e' = ge_requests e else ge_op e' = ge_op e) /\
    ge_clientId e' = sm_clientId (slotOwner q (gr_Slot m)).2 /\ ge_reqId e' = sm_reqId (slotOwner q (gr_Slot m)).2 /\
    (forall s, s <> gr_Slot m -> r_globalLog q1 !! s = r_globalLog q !! s).
Proof.
  intros Hs Hf Hwf Hv Hg Ha Hl Hi He. destruct (found_reply_payload _ _ _ _ _ Hs Hf) as (_ & _ & _ & Hst & Hp).
  set (s := gr_Slot m) in *.
  assert (exists e, r_globalLog p !! s = Some e /\ ge_state e = slotReceived) as (e & Ee & Este)
    by (by apply slotState_entry).
  unfold slotGapPayload in Hp. rewrite Ee in Hp.
  pose proof (gap_reply_stored q m gs Hv Hg Ha Hl Hi Hf) as Hh. cbv zeta in Hh. fold s in Hh.
  assert (Ho : r_globalLog (slotOwner q s).1 = r_globalLog q).
  { pose proof (slotOwner_idle q s) as H. unfold idle, core_of in H. by injection H. }
  assert (He0 : slotState_of (slotOwner q s).1 s = slotEmpty) by (unfold slotState_of in *; by rewrite Ho).
  assert (Hu : gr_Bus m = true -> UnmarshalRequests (gr_Op m) = Some (ge_requests e)).
  { destruct (ge_isBus e); injection Hp as <- <-; [|done]. intros _. by apply UnmarshalRequests_Marshal, Hwf. }
  pose proof (stored_empty (slotOwner q s).1 s (sm_clientId (slotOwner q s).2) (sm_reqId (slotOwner q s).2)
    (gr_Op m) (gr_Bus m) He0 (fun H => ex_intro _ _ (Hu H))) as Hst2.
  destruct (storeRecovered _ _ _ _ _ _) as [q1 stored].
  destruct Hst2 as (-> & e' & E1 & E2 & E3 & E4 & E5 & E6 & E7).
  exists e, (q1 <| r_winRecovered ::= fun n => add64 n 1 |>), e'.
  assert (Hb : ge_isBus e' = ge_isBus e) by (rewrite E5; destruct (ge_isBus e); by injection Hp as _ <-).
  split_and!; try done; [|intros s' Hs'; rewrite <- Ho; by apply E7].
  rewrite <- E5, Hb in E6. destruct (ge_isBus e); injection Hp as Hop Hgb; [|congruence].
  rewrite Hu in E6 by done. by injection E6.
Qed.

(** * A slot that becomes a no-op *)

(** executing and pruning leave a slot in its state, or reclaim it executed *)
Lemma advance_slots r snap hi k s : log_ok r snap hi -> room r hi k ->
  slotState_of (advanceNextExpected r) s = slotState_of r s \/
  slotState_of (advanceNextExpected r) s = slotEmpty /\ executed (advanceNextExpected r) s = true.
Proof.
  intros [Hinv Hst Hrb Hpend] Hroom.
  assert (exists r1, advanceNextExpected r = pruneCommitted r1 /\ slotState_of r1 s = slotState_of r s /\
    0 <= r_prunedBelow r1 /\ 0 <= prune_limit r1 < W64 /\ 0 <= r_retainBytes r1) as (r1 & E & Es & H1 & H2 & H3).
  { assert (Hb : forall r1 snap1 hi1, log_inv r1 snap1 hi1 -> r_nextExpected r <= r_nextExpected r1 ->
      r_haveStable r1 = r_haveStable r /\ r_stableSlot r1 = r_stableSlot r ->
      0 <= r_prunedBelow r1 /\ 0 <= prune_limit r1 < W64).
    { intros r1 snap1 hi1 Hi Hn [S1 S2]. pose proof (li_bounds _ _ _ _ Hi). pose proof (li_fit _ _ _ _ Hi).
      pose proof (li_ring _ _ _ _ Hi). pose proof (prune_bounds r1). split; [lia|]. split; [|lia].
      unfold prune_limit. rewrite S1, S2. destruct (r_haveStable r); cbn [andb]; [|lia].
      specialize (Hst eq_refl). destruct (_ <? _); lia. }
    unfold advanceNextExpected. destruct (bool_decide _); [|by exists r; split_and!; try done; eapply Hb].
    destruct (advance_loop_spec (S (size (r_globalLog r))) _ r snap hi Hinv) as ((snap' & hi' & Hinv' & Hadv) & _).
    { eapply roomy_le; [exact Hroom|]. lia. }
    pose proof (frame_same_fields _ _ (advance_loop_frame (S (size (r_globalLog r))) r)) as (_ & Erb & _).
    destruct (adv_frame _ _ _ _ _ _ Hadv) as (F1 & _ & F3 & F4).
    eexists. split; [reflexivity|]. split; [apply Hadv|]. rewrite Erb.
    assert (log_inv (advance_loop (S (size (r_globalLog r))) r) snap' hi') as Hi by (unfold log_inv; by rewrite F1).
    destruct (Hb _ _ _ Hi (adv_next _ _ _ _ _ _ Hadv) (conj F3 F4)). done. }
  rewrite E, <- Es. destruct (pruneCommitted_spec r1 H1 H2 H3) as ([(En & _) _ Hlog _ _ _] & _).
  unfold slotState_of. destruct (decide (prune_limit r1 <= s)) as [Hle|Hlt].
  - left. by rewrite Hlog.
  - destruct (r_globalLog (pruneCommitted r1) !! s) as [e|] eqn:Ee.
    + left. apply pruneCommitted_sub in Ee. by rewrite Ee.
    + right. split; [done|]. unfold executed. rewrite En. pose proof (prune_bounds r1). apply Z.ltb_lt. lia.
Qed.

(** A follower acknowledges the leader's no-op only in the leader's view and in
    normal operation, to the leader, and only when the slot is a no-op in its own log
    - it already was, or it had not been executed and is one now, and stays one until
    it is executed and reclaimed; a slot it executed as a request is never
    acknowledged. *)
Theorem noop_acknowledged r snap hi m r' fx j a :
  log_ok r snap hi -> room r hi 1 ->
  handleGapCommit r m = (r', fx) -> Send j (RGapCommitReply a) ∈ fx ->
  r_status r = statusNormal /\ gc_ViewId m = view r /\ gc_SenderIdx m = LeaderIndex (r_config r) (view r) /\
  j = gc_SenderIdx m /\ a = {| ga_Slot := gc_Slot m; ga_SenderIdx := u32 (r_idx r); ga_ViewId := view r |} /\
  (slotState_of r (gc_Slot m) = slotNoOp \/ executed r (gc_Slot m) = false) /\
  (slotState_of r' (gc_Slot m) = slotNoOp \/
   slotState_of r' (gc_Slot m) = slotEmpty /\ executed r' (gc_Slot m) = true).
Proof.
  intros Hok Hroom. unfold handleGapCommit. destruct (negb _); [by intros [= <- <-] ?%elem_of_nil|]. cbv zeta.
  destruct (_ || _) eqn:Eg; [by intros [= <- <-] ?%elem_of_nil|].
  rewrite !orb_false_iff, !negb_false_iff, bool_decide_eq_true, !Z.eqb_eq in Eg. destruct Eg as [[E1 E2] E3].
  set (s := gc_Slot m). destruct (applyGapCommit r s) as [r1 ack] eqn:Ea.
  set (r2 := match active_gap r1 _ with Some _ => _ | None => _ end).
  assert (H2 : idle r1 r2) by (unfold r2; destruct (active_gap _ _); [apply mark_done_idle|done]).
  assert (H2s : forall s', slotState_of r2 s' = slotState_of r1 s' /\ executed r2 s' = executed r1 s').
  { intros s'. pose proof (idle_log _ _ H2) as [Hc Hl _ _]. unfold slotState_of, executed.
    by rewrite Hl, (sc_next _ _ Hc). }
  destruct ack; cbn [negb]; [|by intros [= <- <-] ?%elem_of_nil].
  intros [= <- <-] [-> [= ->]]%sendToPeer_in.
  assert (Ei : r_idx r2 = r_idx r).
  { assert (H1 : r_idx r1 = r_idx r).
    { revert Ea. unfold applyGapCommit. destruct (bool_decide _); [by intros [= <-]|].
      destruct (executed r s); [by intros [= <-]|]. pose proof (setNoOp_frame r s) as Hf.
      destruct (setNoOp r s) as [x ok]. cbn [fst] in Hf. intros [= <-].
      match goal with |- r_idx (advanceNextExpected ?y) = _ => pose proof (advanceNextExpected_frame y) as Hg end.
      unfold log_frame in Hf, Hg. rewrite Hg. unfold with_log. rsimpl.
      destruct ok; rewrite Hf; unfold with_log; by rsimpl. }
    rewrite <- H1. apply (vs_idx _ _ (idle_view _ _ H2)). }
  rewrite Ei, E2 in *. split_and!; try done.
  - revert Ea. unfold applyGapCommit. destruct (bool_decide _) eqn:Ed; [apply bool_decide_eq_true in Ed; by left|].
    destruct (executed r s); [done|by right].
  - destruct (H2s s) as [-> ->]. revert Ea. unfold applyGapCommit.
    destruct (bool_decide _) eqn:Ed; [apply bool_decide_eq_true in Ed; intros [= <-]; by left|].
    destruct (executed r s) eqn:Ex; [done|]. pose proof (setNoOp_counted r s) as Hc.
    destruct (setNoOp_log r s) as (_ & _ & _ & Hs).
    destruct (setNoOp r s) as [x ok]. destruct Hc as [Hf _]. intros [= <-].
    destruct (Hs Ex) as (e' & He' & Hst & _). cbn [fst] in He'.
    match goal with |- slotState_of (advanceNextExpected ?y) _ = _ \/ _ => set (x1 := y) in * end.
    assert (Es : slotState_of x1 s = slotNoOp) by (unfold slotState_of, x1; destruct ok; rsimpl; by rewrite He').
    rewrite <- Es. apply (advance_slots x1 snap hi 0); [by eapply fills_ok|by eapply fills_room].
Qed.

(** * The quorum of a no-op *)

(** the acknowledgements of a leader's no-op for a gap, as messages are handled, the
    goroutine receives from the gap's channel and anything else that does not put
    into the channel happens *)
Inductive collect_run (key : Z * Z) (id : Z) : Replica TM -> gset Z -> list BusGapCommitReply -> Prop :=
| collect_start r :
    (forall gs, r_gaps r !! key = Some gs -> gap_id gs = id -> gap_commitAcks gs = []) ->
    collect_run key id r ∅ []
| collect_hear r acked heard m : collect_run key id r acked heard ->
    collect_run key id (handleGapCommitReply r m) acked (m :: heard)
| collect_receive r acked heard : collect_run key id r acked heard ->
    collect_run key id (collect_take r key id acked).1 (collect_take r key id acked).2 heard
| collect_other r acked heard r' : collect_run key id r acked heard ->
    r_config r' = r_config r -> r_idx r' = r_idx r ->
    (forall gs, r_gaps r' !! key = Some gs -> gap_id gs = id ->
       exists gs0, r_gaps r !! key = Some gs0 /\ gap_id gs0 = id /\ gap_commitAcks gs = gap_commitAcks gs0) ->
    collect_run key id r' acked heard.

(** the other replicas whose acknowledgement for the gap was handled *)
Definition ackers r (key : Z * Z) (heard : list BusGapCommitReply) : gset Z :=
  list_to_set (ga_SenderIdx <$>
    filter (fun m => (ga_ViewId m, ga_Slot m) = key /\ ga_SenderIdx m <> r_idx r /\
                     ga_SenderIdx m < cfg_N (r_config r)) heard).

Definition acks_ok r (key : Z * Z) (id : Z) (acked : gset Z) (heard : list BusGapCommitReply) : Prop :=
  acked ⊆ ackers r key heard /\
  forall gs, r_gaps r !! key = Some gs -> gap_id gs = id ->
    list_to_set (gap_commitAcks gs) ⊆ ackers r key heard.

Lemma elem_ackers r key heard i :
  i ∈ ackers r key heard <-> exists m, m ∈ heard /\ (ga_ViewId m, ga_Slot m) = key /\ ga_SenderIdx m = i /\
    i <> r_idx r /\ i < cfg_N (r_config r).
Proof.
  unfold ackers. rewrite elem_of_list_to_set, list_elem_of_fmap. split.
  - intros (m & -> & H). apply list_elem_of_filter in H as ((H1 & H2 & H3) & H4). by exists m.
  - intros (m & H1 & H2 & <- & H3 & H4). exists m. split; [done|]. by apply list_elem_of_filter.
Qed.

Lemma ackers_mono r r' key heard heard' :
  r_config r' = r_config r -> r_idx r' = r_idx r -> (forall m, m ∈ heard -> m ∈ heard') ->
  ackers r key heard ⊆ ackers r' key heard'.
Proof.
  intros Ec Ei Hm i. rewrite !elem_ackers, Ec, Ei.
  intros (m & H1 & H2). exists m. split; [auto|exact H2].
Qed.

Lemma push8_sub (x : Z) l : (list_to_set (push8 x l) : gset Z) ⊆ {[x]} ∪ list_to_set l.
Proof. unfold push8. destruct (Nat.ltb _ _); set_solver. Qed.

Lemma collect_run_ok key id r acked heard : collect_run key id r acked heard -> acks_ok r key id acked heard.
Proof.
  induction 1 as [r H0|r acked heard m _ [IH1 IH2]|r acked heard _ IH|r acked heard r' _ [IH1 IH2] Ec Ei H].
  - split; [set_solver|]. intros gs Hg Hid. rewrite (H0 gs Hg Hid). set_solver.
  - assert (Hmono : forall r', r_config r' = r_config r -> r_idx r' = r_idx r ->
      ackers r key heard ⊆ ackers r' key (m :: heard)) by (intros; apply ackers_mono; set_solver).
    unfold handleGapCommitReply. destruct (_ || _) eqn:Ev.
    { split; [set_solver|]. intros gs Hg Hid. specialize (IH2 gs Hg Hid). set_solver. }
    apply orb_false_iff in Ev as [Ev Ev2]. apply negb_false_iff in Ev. apply Z.eqb_neq in Ev2. cbv zeta.
    destruct (r_gaps r !! (ga_ViewId m, ga_Slot m)) as [gs0|] eqn:Eg; [destruct (leaderGapActive _ _ _)|];
      (split; [etransitivity; [exact IH1|by apply Hmono]|]); intros gs;
      [|intros Hg Hid; etransitivity; [by apply (IH2 gs)|by apply Hmono]..].
    rsimpl. destruct (decide (key = (ga_ViewId m, ga_Slot m))) as [->|Hne].
    + rewrite (lookup_alter_eq (M:=gmap (Z * Z))), Eg. cbn [fmap option_map]. intros [= <-]. rsimpl. intros Hid.
      etransitivity; [apply push8_sub|]. apply union_subseteq. split.
      * apply singleton_subseteq_l, elem_ackers. exists m. split; [apply elem_of_cons; by left|].
        unfold validReplicaIndex in Ev. apply andb_true_iff in Ev as [Ev _]. apply Z.ltb_lt in Ev.
        split; [done|]. split; [done|]. split; [exact Ev2|exact Ev].
      * etransitivity; [by apply (IH2 gs0)|by apply Hmono].
    + rewrite (lookup_alter_ne (M:=gmap (Z * Z))) by done. intros Hg Hid. etransitivity; [by apply (IH2 gs)|by apply Hmono].
  - unfold collect_take. destruct (r_gaps r !! key) as [gs|] eqn:Eg; [|exact IH].
    destruct (gap_commitAcks gs) as [|i rest] eqn:Eq; [exact IH|].
    destruct (Z.eqb_spec (gap_id gs) id) as [Hid|]; [|exact IH]. cbn [fst snd].
    destruct IH as [IH1 IH2]. pose proof (IH2 gs Eg Hid) as Hsub. rewrite Eq in Hsub. cbn in Hsub. split.
    + unfold collect_ack. destruct (_ && _); [|done]. intros x. rewrite elem_of_union, elem_of_singleton.
      intros [->|]; [|by apply IH1]. apply Hsub. set_solver.
    + intros gs'. rsimpl. rewrite lookup_insert_eq. intros [= <-] _. rsimpl. intros x Hx. apply Hsub. set_solver.
  - split; [etransitivity; [exact IH1|by apply ackers_mono]|]. intros gs Hg Hid.
    destruct (H gs Hg Hid) as (gs0 & H1 & H2 & ->). etransitivity; [by apply (IH2 gs0)|by apply ackers_mono].
Qed.

(** C25: the leader takes a slot as agreed to be a no-op only while it leads the gap's
    view in normal operation, and only once, itself included, QuorumSize distinct
    replicas have acknowledged that slot as a no-op in that view. *)
Theorem noop_needs_quorum key id r acked heard :
  collect_run key id r acked heard -> collect_end r key id acked = true ->
  gapActive r key id = true /\ LeaderIndex (r_config r) key.1 = r_idx r /\
  QuorumSize (r_config r) <= Z.of_nat (size ({[r_idx r]} ∪ ackers r key heard)).
Proof.
  intros H Hend. destruct (collect_run_ok _ _ _ _ _ H) as [Hsub _].
  unfold collect_end, leaderGapActive in Hend. rewrite !andb_true_iff, Z.eqb_eq in Hend.
  destruct Hend as (Hq & Ha & Hl). split; [done|]. split; [done|].
  unfold collect_quorum in Hq. apply Z.leb_le in Hq.
  rewrite size_union, size_singleton; [pose proof (subseteq_size _ _ Hsub); lia|].
  intros x ->%elem_of_singleton (m & _ & _ & _ & Hne & _)%elem_ackers. done.
Qed.
End gaps.

(** * Concrete replicas *)

#[local] Existing Instance store.
#[local] Existing Instance store_laws.

(** the leader holds slot 3; replica 1 misses it and asks *)
Definition holder : Replica store := filled3 <| r_peerWriters := [None; Some 1; Some 2] |>.
Definition asker : Replica store := (open_gap (fresh4 <| r_idx := 1 |>) (0, 3) 0).1.
Definition request3 : BusGapRequest := {| gq_Slot := 3; gq_SenderIdx := 1; gq_ViewId := 0 |}.
Definition reply3 : BusGapReply :=
  {| gr_Slot := 3; gr_SenderIdx := 0; gr_ViewId := 0; gr_Found := true; gr_Bus := true;
     gr_Op := MarshalRequests [rq2] |}.
Definition gap3 : gapState := (open_gap (fresh4 <| r_idx := 1 |>) (0, 3) 0).2.

Lemma holder_answers : Send 1 (RGapReply reply3) ∈ (handleGapRequest holder request3 0).2.
Proof.
  assert ((handleGapRequest holder request3 0).2 = [Send 1 (RGapReply reply3)]) as -> by by vm_compute.
  apply elem_of_cons. by left.
Qed.

Lemma holder_wf e : r_globalLog holder !! gr_Slot reply3 = Some e -> requests_wf (ge_requests e).
Proof.
  assert ((ge_requests <$> r_globalLog holder !! 3) = Some [rq2]) as H by by vm_compute.
  cbn [gr_Slot reply3]. intros He. rewrite He in H. injection H as ->.
  split; [cbn; word_lia|]. repeat constructor; cbn; word_lia.
Qed.

Lemma asker_gap : r_gaps asker !! (gr_ViewId reply3, gr_Slot reply3) = Some gap3.
Proof. unfold asker, open_gap. cbn [fst]. rsimpl. by rewrite lookup_insert_eq. Qed.

Lemma asker_ready :
  validReplicaIndex asker 0 = true /\ gapActive asker (0, 3) (gap_id gap3) = true /\
  slotState_of asker 3 = slotEmpty.
Proof. split_and!; by vm_compute. Qed.

Theorem gap_reply_recovers_witness :
  exists q1 e', handleGapReply asker reply3 = mark_done (advanceNextExpected q1) (0, 3) /\
    r_globalLog q1 !! 3 = Some e' /\ ge_state e' = slotReceived.
Proof.
  destruct asker_ready as (V & A & S).
  destruct (gap_reply_recovers holder asker request3 0 1 reply3 gap3 holder_answers eq_refl holder_wf
    V asker_gap A eq_refl ltac:(by vm_compute) S) as (e & q1 & e' & _ & _ & H1 & H2 & H3 & _).
  exists q1, e'. exact (conj H1 (conj H2 H3)).
Defined.

(** replica 1 with a connection to the leader, which commits slot 2 as a no-op *)
Definition follower2 : Replica store := committed2 <| r_peerWriters := [Some 5; None; None] |>.
Definition ack2 : BusGapCommitReply := {| ga_Slot := 2; ga_SenderIdx := 1; ga_ViewId := 0 |}.

Lemma follower2_unchanged : log_unchanged committed2 follower2.
Proof. unfold follower2. generalize committed2 as r. intros r. by apply idle_unchanged. Qed.

Lemma follower2_ok : exists snap, log_ok follower2 snap 2.
Proof.
  destruct committed2_node as [snap [H _]]. exists snap. by eapply unchanged_ok; [exact follower2_unchanged|].
Qed.

Lemma follower2_room : room follower2 2 1.
Proof.
  eapply unchanged_room; [exact follower2_unchanged|]. eapply room_le; [apply committed2_calm|].
  pose proof MaxStateEntries_u32. lia.
Qed.

Lemma follower2_acks : Send 0 (RGapCommitReply ack2) ∈ (handleGapCommit follower2 gapCommit2).2.
Proof.
  assert ((handleGapCommit follower2 gapCommit2).2 = [Send 0 (RGapCommitReply ack2)]) as -> by by vm_compute.
  apply elem_of_cons. by left.
Qed.

Theorem noop_acknowledged_witness :
  slotState_of (handleGapCommit follower2 gapCommit2).1 2 = slotNoOp \/
  slotState_of (handleGapCommit follower2 gapCommit2).1 2 = slotEmpty /\
  executed (handleGapCommit follower2 gapCommit2).1 2 = true.
Proof.
  destruct follower2_ok as [snap H].
  pose proof (noop_acknowledged follower2 snap 2 gapCommit2 _ _ 0 ack2 H follower2_room
    (surjective_pairing _) follower2_acks) as (_ & _ & _ & _ & _ & _ & Hn).
  exact Hn.
Defined.

(** the leader of three replicas has a gap at slot 2 and hears replica 1 *)
Definition leading2 : Replica store :=
  (open_gap (run4 <| r_peerWriters := [None; Some 1; Some 2] |>) (0, 2) 0).1.
Definition gap2_id : Z := gap_id (open_gap (run4 <| r_peerWriters := [None; Some 1; Some 2] |>) (0, 2) 0).2.
Definition heard2 : Replica store := handleGapCommitReply leading2 ack2.
Definition collected2 : Replica store * gset Z := collect_take heard2 (0, 2) gap2_id ∅.

Lemma open_gap_empty (r : Replica store) key now gs :
  r_gaps (open_gap r key now).1 !! key = Some gs -> gap_commitAcks gs = [].
Proof. unfold open_gap. cbn [fst]. rsimpl. rewrite lookup_insert_eq. by intros [= <-]. Qed.

Lemma collected2_run : collect_run (0, 2) gap2_id collected2.1 collected2.2 [ack2].
Proof.
  unfold collected2. apply collect_receive. unfold heard2. apply collect_hear, collect_start.
  intros gs Hg _. exact (open_gap_empty _ _ _ _ Hg).
Qed.

Theorem noop_needs_quorum_witness :
  collect_end collected2.1 (0, 2) gap2_id collected2.2 = true /\
  QuorumSize (r_config collected2.1) <= Z.of_nat (size ({[r_idx collected2.1]} ∪ ackers collected2.1 (0, 2) [ack2])).
Proof.
  assert (H : collect_end collected2.1 (0, 2) gap2_id collected2.2 = true) by by vm_compute.
  split; [exact H|]. apply (noop_needs_quorum (0, 2) gap2_id collected2.1 collected2.2 [ack2] collected2_run H).
Defined.
