(* ===== verification/ViewProps.v ===== *)
(** Properties of view changes, synchronisation and the fetch loop. *)
From S2P Require Import Prelude WireBase Wire WireStream Config Lines GlobalOrder State.
From S2P Require Import ReplicaState Cursor Log Admission ScheduleProto SchedInv.
From S2P Require Import Merge Gaps Sync ViewChange Recovery LogFrame ViewInv RecoveryInv ConfigProps LogProps AgreementProps.
From S2P Require Import Listener NodeView.

Section view.
Context {TM : Treemap Value}.
Implicit Types r : Replica TM.

(** C11: whatever messages arrive on whatever connections, and however the turns of
    the replica's goroutines and timers interleave with them, the view and the last
    normal view of a replica never go back; the last normal view never passes the
    view and equals it in normal operation; a view change or a recovery under way is
    for the current view, never both at once and never in normal operation; and
    outside normal operation a watchdog for the current view is always armed. *)
Theorem view_change_invariant config idx logs mode every gap opts now r1 r2 :
  rtc replica_next (serve (NewReplica config idx logs mode every gap opts) now) r1 ->
  rtc replica_next r1 r2 ->
  view_inv r2 /\ view r1 <= view r2 /\ r_lastNormalView r1 <= r_lastNormalView r2.
Proof.
  intros H1 H2. apply replica_steps_view in H1; [|apply serve_view_inv].
  apply replica_steps_view in H2; [|apply H1]. destruct H2. auto.
Qed.

(** * Leaving a view change *)

(** what a replica does when it moves to view [v] *)
Record begins_view r v (r' : Replica TM) (fx : list effect) : Prop := {
  bv_view : view r' = v;
  bv_status : r_status r' = statusViewChange;
  bv_watchdog : r_viewChangeWatchdog r' = Some (mkviewChangeWatchdog v (r_viewChangeWatchdogGen r'));
  bv_request : forall e,
    e ∈ broadcastToPeers r' (RViewChangeRequest {| vq_ViewId := v; vq_SenderIdx := u32 (r_idx r) |}) ->
    e ∈ fx;
  bv_leader : LeaderIndex (r_config r) v = r_idx r ->
    exists vc, r_vc r' = Some vc /\ vcs_view vc = v /\ StartDrive (vcs_id vc) ∈ fx }.

Lemma startViewChange_begins r v now wall :
  view r < v -> begins_view r v (startViewChange r v now wall).1 (startViewChange r v now wall).2.
Proof.
  intros Hlt. unfold startViewChange.
  destruct (beginViewChange_fields r v now Hlt) as
    (E1 & E2 & _ & _ & E5 & E6 & E7 & vc & Ev & Hv & _ & _ & _ & Est).
  destruct (beginViewChange r v now) as [r1 st]. cbn [fst snd] in *. subst st.
  unfold publishViewChange. pose proof (pauseClients_view r1 v wall) as [].
  cbn [vst_view vst_leader vst_vc]. destruct (pauseClients r1 v wall) as [r2 fx]. cbn [fst snd] in *.
  split; unfold view in *; try congruence.
  - intros e He. rewrite !elem_of_app. right. left. by rewrite vs_idx, E6.
  - intros HL. exists vc. split; [congruence|]. split; [done|].
    rewrite vs_idx, E6, HL, Z.eqb_refl. rewrite !elem_of_app. right. right. apply elem_of_cons. by left.
Qed.

Lemma expired_begins r wd now wall :
  view_inv r -> 0 <= view r -> view r + 1 < W64 -> r_status r = statusViewChange ->
  r_viewChangeWatchdog r = Some wd ->
  begins_view r (view r + 1) (expireViewChangeWatchdog r wd now wall).1
    (expireViewChangeWatchdog r wd now wall).2.
Proof.
  intros Hinv H0 Hv Hs Hwd. pose proof (vi_watchdog r Hinv Hs) as E. rewrite Hwd in E. injection E as ->.
  unfold expireViewChangeWatchdog. rewrite Hwd. cbn [wd_generation wd_view]. rewrite !Z.eqb_refl.
  rewrite bool_decide_true by done. cbn [negb orb]. unfold add64. rewrite u64_small by word_lia.
  apply startViewChange_begins. lia.
Qed.

Lemma view_nonneg config idx logs mode every gap opts now r :
  rtc replica_next (serve (NewReplica config idx logs mode every gap opts) now) r -> 0 <= view r.
Proof.
  intros H. apply replica_steps_view in H; [|apply serve_view_inv].
  pose proof (vso_view _ _ H) as H1. unfold view in H1. by revert H1; rsimpl.
Qed.

(** C12: a replica cannot be stuck in a view change or a recovery: a watchdog is
    armed, and when its timer fires the replica moves to the next view, arms the
    next watchdog, asks every connected peer for a view change and, if it leads
    the new view, starts driving it. *)
Theorem watchdog_leaves_view config idx logs mode every gap opts now0 r :
  rtc replica_next (serve (NewReplica config idx logs mode every gap opts) now0) r ->
  r_status r = statusViewChange -> view r + 1 < W64 ->
  exists wd, r_viewChangeWatchdog r = Some wd /\ wd_view wd = view r /\
    forall now wall,
      begins_view r (view r + 1) (expireViewChangeWatchdog r wd now wall).1
        (expireViewChangeWatchdog r wd now wall).2.
Proof.
  intros H Hs Hv. pose proof (view_nonneg _ _ _ _ _ _ _ _ _ H) as H0.
  apply replica_steps_view in H; [|apply serve_view_inv]. pose proof (vso_inv _ _ H) as Hinv.
  eexists. split; [by apply vi_watchdog|]. split; [done|]. intros now wall.
  apply expired_begins; try done. by apply vi_watchdog.
Qed.

(** * The sync round *)

(** The replies a leader has heard, as its rounds, the replies delivered to it
    and its other steps go by; the effects are those of the last step. *)
Inductive sync_run : Replica TM -> list BusSyncReply -> list effect -> Prop :=
| sync_start config idx logs mode every gap opts :
    sync_run (NewReplica config idx logs mode every gap opts) [] []
| sync_tick r heard fx :
    sync_run r heard fx -> sync_run (syncOnce r).1 heard (syncOnce r).2
| sync_hear r heard fx m :
    sync_run r heard fx -> sync_run (handleSyncReply r m).1 (m :: heard) (handleSyncReply r m).2
| sync_other r heard fx r' :
    sync_run r heard fx -> r_sync r' = r_sync r \/ r_sync r' = None ->
    r_idx r' = r_idx r -> r_config r' = r_config r -> sync_run r' heard [].

(** the replicas that vouched for the prefix up to [slot]: the leader itself
    and the senders of the replies heard *)
Definition vouchers r (heard : list BusSyncReply) (v slot : Z) : gset Z :=
  {[u32 (r_idx r)]} ∪
  list_to_set (yr_SenderIdx <$> filter (fun m => yr_ViewId m = v /\ yr_Slot m = slot) heard).

Definition round_ok r (heard : list BusSyncReply) : Prop :=
  forall s, r_sync r = Some s ->
    sr_acks s ⊆ vouchers r heard (yp_ViewId (sr_prepare s)) (yp_SlotToSync (sr_prepare s)).

Definition commits_ok r (heard : list BusSyncReply) (fx : list effect) : Prop :=
  forall j c, Send j (RSyncCommit c) ∈ fx ->
    QuorumSize (r_config r) <= Z.of_nat (size (vouchers r heard (yc_ViewId c) (yc_StableSlot c))).

Lemma vouchers_mono r r' heard m v slot :
  r_idx r' = r_idx r -> vouchers r heard v slot ⊆ vouchers r' (m :: heard) v slot.
Proof.
  intros E. unfold vouchers. rewrite E. rewrite filter_cons. destruct (decide _); set_solver.
Qed.

Lemma vouchers_idx r r' heard v slot :
  r_idx r' = r_idx r -> vouchers r' heard v slot = vouchers r heard v slot.
Proof. unfold vouchers. by intros ->. Qed.

Lemma send_broadcast r j m m' : Send j m' ∈ broadcastToPeers r m -> m' = m.
Proof.
  unfold broadcastToPeers. rewrite list_elem_of_bind. intros (i & Hi & _). revert Hi.
  unfold sendToPeer. destruct (_ || _); [by intros ?%elem_of_nil|].
  destruct (r_peerWriters r !! Z.to_nat i) as [[c|]|]; try by intros ?%elem_of_nil.
  rewrite elem_of_cons. intros [[= -> ->]|?%elem_of_nil]; done.
Qed.

Lemma maybeCommitSync_ok r heard :
  round_ok r heard ->
  let '(r', c) := maybeCommitSync r in
  round_ok r' heard /\ commits_ok r' heard (commit_effects r' c).
Proof.
  intros Hok. unfold maybeCommitSync. destruct (r_sync r) as [s|] eqn:Es.
  2:{ split; [done|]. by intros j c ?%elem_of_nil. }
  destruct (_ || _) eqn:Eq; [split; [done|]; by intros j c ?%elem_of_nil|]. cbv zeta.
  apply orb_false_iff in Eq as [_ Eq]. apply Z.ltb_ge in Eq.
  match goal with |- context [setStable ?x ?y] => set (r1 := x); pose proof (setStable_frame r1 y) as Hf;
    set (r2 := setStable r1 y) in * end.
  assert (r_sync r2 = Some (s <| sr_done := true |>) /\ r_idx r2 = r_idx r /\ r_config r2 = r_config r) as (E1 & E2 & E3).
  { unfold log_frame in Hf. rewrite Hf. unfold with_log, r1. rsimpl. done. }
  clearbody r2. specialize (Hok s Es). split.
  - intros s'. rewrite E1. intros [= <-]. rsimpl. by rewrite (vouchers_idx r).
  - intros j c Hc. unfold commit_effects in Hc. apply send_broadcast in Hc. injection Hc as ->.
    cbn [yc_ViewId yc_StableSlot]. rewrite E3, (vouchers_idx r) by done.
    etrans; [exact Eq|]. apply inj_le, subseteq_size, Hok.
Qed.

Lemma syncOnce_ok r heard :
  round_ok r heard -> round_ok (syncOnce r).1 heard /\ commits_ok (syncOnce r).1 heard (syncOnce r).2.
Proof.
  intros Hok.
  assert (round_ok (start_round r).1 heard /\ commits_ok (start_round r).1 heard (start_round r).2) as Hst.
  { unfold start_round. cbv zeta. set (r1 := r <| r_sync := open_round r |>).
    assert (round_ok r1 heard) as H1.
    { intros s Hs. unfold r1 in Hs. revert Hs. rsimpl. unfold open_round. destruct (_ =? _); [done|].
      cbv zeta. destruct (prefixHashAt _ _); [|done]. intros [= <-]. cbn. set_solver. }
    pose proof (maybeCommitSync_ok r1 heard H1) as H2. destruct (open_round r) as [s|].
    - destruct (maybeCommitSync r1) as [r2 c]. destruct H2 as [H2 H3]. split; [done|].
      intros j c' [Hc|Hc]%elem_of_app; [by apply send_broadcast in Hc|by eapply H3].
    - split; [done|]. intros j c [Hc|Hc]%elem_of_app; [by apply send_broadcast in Hc|].
      by apply elem_of_nil in Hc. }
  unfold syncOnce. destruct (_ || _).
  { split; [|by intros j c ?%elem_of_nil]. intros s. by rsimpl. }
  destruct (r_sync r) as [s|] eqn:Es; [|done]. destruct (_ || _); [done|].
  split; [done|]. intros j c Hc. by apply send_broadcast in Hc.
Qed.

Lemma handleSyncReply_ok r heard m :
  round_ok r heard ->
  round_ok (handleSyncReply r m).1 (m :: heard) /\
  commits_ok (handleSyncReply r m).1 (m :: heard) (handleSyncReply r m).2.
Proof.
  intros Hok.
  assert (round_ok r (m :: heard)) as Hkeep.
  { intros s Hs. etrans; [by apply Hok|by apply vouchers_mono]. }
  unfold handleSyncReply. destruct (_ || _); [split; [done|]; by intros j c ?%elem_of_nil|].
  destruct (r_sync r) as [s|] eqn:Es; [|split; [done|]; by intros j c ?%elem_of_nil].
  destruct (_ && _) eqn:E; [|split; [done|]; by intros j c ?%elem_of_nil]. cbv zeta.
  apply andb_true_iff in E as [E Eslot]. apply andb_true_iff in E as [_ Ev].
  apply Z.eqb_eq in Eslot, Ev.
  match goal with |- context [maybeCommitSync ?x] => set (r1 := x) end.
  assert (round_ok r1 (m :: heard)) as H1.
  { intros s' Hs'. unfold r1 in Hs'. revert Hs'. rsimpl. intros [= <-]. rsimpl.
    apply union_least; [|rewrite (vouchers_idx r) by (unfold r1; by rsimpl); by apply Hkeep].
    unfold vouchers. rewrite filter_cons_True by (by split). set_solver. }
  pose proof (maybeCommitSync_ok r1 _ H1) as H2. by destruct (maybeCommitSync r1).
Qed.

Lemma sync_run_ok r heard fx : sync_run r heard fx -> round_ok r heard /\ commits_ok r heard fx.
Proof.
  induction 1 as [|r heard fx _ [IH _]|r heard fx m _ [IH _]|r heard fx r' _ [IH _] Hs Hi Hc].
  - split; [|by intros j c ?%elem_of_nil]. intros s. by rsimpl.
  - by apply syncOnce_ok.
  - by apply handleSyncReply_ok.
  - split; [|by intros j c ?%elem_of_nil]. intros s Hs'. rewrite (vouchers_idx r) by done.
    apply IH. destruct Hs; congruence.
Qed.


(** ** The followers' replies *)

(** why a follower may reply to [m] *)
Record may_reply r (m : BusSyncPrepare) (j : Z) (rep : BusSyncReply) : Prop := {
  mr_reply : rep = {| yr_ViewId := yp_ViewId m; yr_Slot := yp_SlotToSync m; yr_SenderIdx := u32 (r_idx r) |};
  mr_leader : j = yp_SenderIdx m /\ j = LeaderIndex (r_config r) (yp_ViewId m);
  mr_normal : r_status r = statusNormal /\ view r = yp_ViewId m;
  mr_executed : r_nextExpected r <> 0 /\ yp_SlotToSync m <= r_nextExpected r - 1;
  mr_hash : forall h, prefixHashAt r (yp_SlotToSync m) = Some h -> h = yp_PrefixHash m }.

Lemma sendToPeer_elem r i m j m' : Send j m' ∈ sendToPeer r i m -> j = i /\ m' = m.
Proof.
  unfold sendToPeer. destruct (_ || _); [by intros ?%elem_of_nil|].
  destruct (r_peerWriters r !! Z.to_nat i) as [[c|]|]; try by intros ?%elem_of_nil.
  rewrite elem_of_cons. intros [[= -> ->]|?%elem_of_nil]; done.
Qed.

Lemma answerSyncPrepare_reply r m known stable haveStable j rep :
  Send j (RSyncReply rep) ∈ (answerSyncPrepare r m known stable haveStable).2 ->
  rep = {| yr_ViewId := yp_ViewId m; yr_Slot := yp_SlotToSync m; yr_SenderIdx := u32 (r_idx r) |} /\
  j = yp_SenderIdx m /\ j = LeaderIndex (r_config r) (yp_ViewId m) /\
  r_status r = statusNormal /\ view r = yp_ViewId m /\ (forall h, known = Some h -> h = yp_PrefixHash m).
Proof.
  unfold answerSyncPrepare. cbv zeta. destruct (_ && _) eqn:Ec; cbn [negb]; [|by intros ?%elem_of_nil].
  rewrite !andb_true_iff, bool_decide_eq_true, !Z.eqb_eq in Ec. destruct Ec as [[Es Ev] El].
  destruct known as [h|].
  - destruct (_ =? _) eqn:Eh; cbn [negb]; [|by intros ?%elem_of_nil]. apply Z.eqb_eq in Eh.
    cbn [snd]. intros [-> [= ->]]%sendToPeer_elem. split_and!; try done. by intros h' [= <-].
  - cbn [snd]. intros [-> [= ->]]%sendToPeer_elem. by split_and!.
Qed.

(** the running catch-up is for the slot of the prepare it will answer *)
Definition catchup_ok r : Prop :=
  cu_active (r_syncCatchup r) = true ->
  cu_target (r_syncCatchup r) = yp_SlotToSync (cu_prepare (r_syncCatchup r)).

Lemma catchup_cleared r : catchup_ok (clearSyncCatchup r).
Proof. intros H. revert H. unfold clearSyncCatchup. by rsimpl. Qed.

Lemma catchup_same r r' : r_syncCatchup r' = r_syncCatchup r -> catchup_ok r -> catchup_ok r'.
Proof. unfold catchup_ok. by intros ->. Qed.

Lemma push_fetch_catchup r q : r_syncCatchup (push_fetch r q).1 = r_syncCatchup r.
Proof. unfold push_fetch. by destruct (_ <? _). Qed.

Lemma enqueueSyncFetch_catchup r q : catchup_ok r -> catchup_ok (enqueueSyncFetch r q).
Proof.
  intros H. unfold enqueueSyncFetch. pose proof (push_fetch_catchup r q) as E.
  destruct (push_fetch r q) as [r1 ok]. cbn [fst] in E.
  pose proof (catchup_same r r1 E H). destruct ok; [done|].
  destruct (syncCatchupMatches r1 q); [apply catchup_cleared|done].
Qed.

Lemma newSyncFetch_catchup r from to :
  r_syncCatchup (newSyncFetch r from to).1 = r_syncCatchup r.
Proof. unfold newSyncFetch, next_fetch. cbn [fst]. by rsimpl. Qed.

Lemma behind_catchup_ok r m : catchup_ok r -> catchup_ok (behind_catchup r m).
Proof.
  intros H. unfold behind_catchup. cbv zeta. destruct (_ || _).
  - match goal with |- context [newSyncFetch ?x _ _] => set (r1 := x) end.
    pose proof (newSyncFetch_catchup r1 (r_nextExpected r1) (yp_SlotToSync m)) as E.
    destruct (newSyncFetch _ _ _) as [r2 q]. cbn [fst] in E. apply enqueueSyncFetch_catchup.
    apply (catchup_same r1 r2 E). intros _. unfold r1, clearSyncCatchup. by rsimpl.
  - destruct (_ <? _); [|done]. intros Ha. by rsimpl.
Qed.

Lemma rewindToStableAndRefetch_catchup r peer v stable haveStable :
  r_syncCatchup (rewindToStableAndRefetch r peer v stable haveStable) = r_syncCatchup r.
Proof.
  unfold rewindToStableAndRefetch. destruct (negb _); [done|]. destruct (_ || _); [done|].
  pose proof (rewindTo_frame r (add64 stable 1)) as H.
  destruct (rewindTo r (add64 stable 1)) as [r1 ok]. cbn [fst] in H.
  assert (r_syncCatchup r1 = r_syncCatchup r) as E1.
  { unfold log_frame in H. rewrite H. unfold with_log. by rsimpl. }
  clear H. destruct (negb ok); [done|]. cbv zeta.
  pose proof (clearSlotsAbove_frame r1 (add64 stable 1)) as H.
  set (r2 := clearSlotsAbove _ _) in *.
  assert (r_syncCatchup r2 = r_syncCatchup r) as E2.
  { unfold log_frame in H. rewrite H. unfold with_log. by rsimpl. }
  clearbody r2. destruct (_ <? _); [|done]. rewrite <- E2. unfold enqueueFetch.
  destruct (_ || _); [done|]. unfold next_fetch. rewrite push_fetch_catchup. by rsimpl.
Qed.

Lemma answerSyncPrepare_catchup r m known stable haveStable :
  r_syncCatchup (answerSyncPrepare r m known stable haveStable).1 = r_syncCatchup r.
Proof.
  unfold answerSyncPrepare. cbv zeta. destruct (negb _); [done|]. destruct known as [h|]; [|done].
  destruct (negb _); [apply rewindToStableAndRefetch_catchup|done].
Qed.

Lemma handleSyncPrepare_catchup r m now : catchup_ok r -> catchup_ok (handleSyncPrepare r m now).1.
Proof.
  intros H. unfold handleSyncPrepare. destruct (_ || _); [done|]. destruct (_ <? _); [done|].
  destruct (_ <? _); [unfold requestCatchUp; cbn [fst]; revert H; apply catchup_same; by rsimpl|].
  cbv zeta. match goal with |- context [behind_catchup ?x m] => set (r1 := x) end.
  assert (catchup_ok r1) as H1 by (revert H; apply catchup_same; unfold r1; by rsimpl).
  destruct (_ || _); [done|]. destruct (_ || _); [by apply behind_catchup_ok|].
  revert H1. apply catchup_same, answerSyncPrepare_catchup.
Qed.

Lemma finishSyncFetch_catchup r q ok : catchup_ok r -> catchup_ok (finishSyncFetch r q ok).1.
Proof.
  intros H. unfold finishSyncFetch. destruct (negb _); [done|].
  destruct (negb ok); [apply catchup_cleared|]. cbv zeta. destruct (_ || _).
  - destruct (_ <=? _); [apply catchup_cleared|].
    pose proof (newSyncFetch_catchup r (r_nextExpected r) (cu_target (r_syncCatchup r))) as E.
    destruct (newSyncFetch _ _ _) as [r2 q']. cbn [fst] in *.
    apply enqueueSyncFetch_catchup. by apply (catchup_same r).
  - eapply catchup_same; [apply answerSyncPrepare_catchup|apply catchup_cleared].
Qed.

(** A follower vouches for a prefix only in normal operation, to the leader of
    its own view, when it has executed through the slot and its prefix hash at
    the slot is the leader's, unless the slot has left its hash window: both when
    it is up to date on arrival and after catching up. *)
Theorem sync_reply_agrees r :
  catchup_ok r ->
  (forall m now, catchup_ok (handleSyncPrepare r m now).1 /\
     forall j rep, Send j (RSyncReply rep) ∈ (handleSyncPrepare r m now).2 -> may_reply r m j rep) /\
  (forall q ok, catchup_ok (finishSyncFetch r q ok).1 /\
     forall j rep, Send j (RSyncReply rep) ∈ (finishSyncFetch r q ok).2 ->
     may_reply r (cu_prepare (r_syncCatchup r)) j rep).
Proof.
  intros Hok. split.
  - intros m now. split; [by apply handleSyncPrepare_catchup|]. intros j rep.
    unfold handleSyncPrepare. destruct (_ || _); [by intros ?%elem_of_nil|].
    destruct (_ <? _); [by intros ?%elem_of_nil|].
    destruct (_ <? _); [unfold requestCatchUp; cbn [snd]; by intros ?%send_broadcast|]. cbv zeta.
    match goal with |- context [behind_catchup ?x m] => set (r1 := x) end.
    destruct (_ || _); [by intros ?%elem_of_nil|].
    destruct (_ || _) eqn:Eb; [by intros ?%elem_of_nil|].
    apply orb_false_iff in Eb as [E0 E1]. apply Z.eqb_neq in E0. apply Z.ltb_ge in E1.
    intros (H1 & H2 & H3 & H4 & H5 & H6)%answerSyncPrepare_reply. by split.
  - intros q ok. split; [by apply finishSyncFetch_catchup|]. intros j rep.
    unfold finishSyncFetch. destruct (syncCatchupActive r q) eqn:Ea; [|by intros ?%elem_of_nil].
    destruct (negb ok); [by intros ?%elem_of_nil|]. cbv zeta. cbn [negb].
    destruct (_ || _) eqn:Eb.
    { destruct (_ <=? _); [by intros ?%elem_of_nil|].
      destruct (newSyncFetch _ _ _). by intros ?%elem_of_nil. }
    apply orb_false_iff in Eb as [E0 E1]. apply Z.eqb_neq in E0. apply Z.ltb_ge in E1.
    rewrite Hok in E1.
    2:{ revert Ea. unfold syncCatchupActive, syncCatchupMatches. cbv zeta.
        destruct (cu_active _); [done|]. by rewrite andb_false_r. }
    intros (H1 & H2 & H3 & H4 & H5 & H6)%answerSyncPrepare_reply. by split.
Qed.
End view.

(** * A concrete replica *)

#[local] Existing Instance store.
#[local] Existing Instance store_laws.

(** replica 0 of three hears replica 1 ask for view 1, which it does not lead *)
Definition suspected : Replica store :=
  (handleViewChangeRequest (serve fresh4 0) {| vq_ViewId := 1; vq_SenderIdx := 1 |} 0 0).1.

Lemma suspected_reached : rtc replica_next (serve fresh4 0) suspected.
Proof.
  apply rtc_once.
  exists (handleViewChangeRequest (serve fresh4 0) {| vq_ViewId := 1; vq_SenderIdx := 1 |} 0 0).2.
  apply step_plain.
  apply (step_msg _ (newConn 1) (RViewChangeRequest {| vq_ViewId := 1; vq_SenderIdx := 1 |}) 0 0 _
    (mkconnState 1 1 false 0)); [by split; cbn|].
  unfold suspected, handle_msg. by destruct (handleViewChangeRequest _ _ _ _).
Qed.

Theorem view_change_invariant_witness :
  view_inv suspected /\ view (serve fresh4 0) <= view suspected.
Proof.
  destruct (view_change_invariant (mkConfig 3 1 2 250 []) 0 false dropNone 0 0 opts4 0 (serve fresh4 0) suspected
    (rtc_refl _ _) suspected_reached) as (H1 & H2 & _).
  exact (conj H1 H2).
Defined.

Lemma suspected_status : r_status suspected = statusViewChange.
Proof. by vm_compute. Qed.

Theorem watchdog_leaves_view_witness :
  exists wd, r_viewChangeWatchdog suspected = Some wd /\ wd_view wd = view suspected /\
    begins_view suspected (view suspected + 1) (expireViewChangeWatchdog suspected wd 0 0).1
      (expireViewChangeWatchdog suspected wd 0 0).2.
Proof.
  destruct (watchdog_leaves_view (mkConfig 3 1 2 250 []) 0 false dropNone 0 0 opts4 0 suspected
    suspected_reached suspected_status) as (wd & H1 & H2 & H3); [by vm_compute|].
  exists wd. exact (conj H1 (conj H2 (H3 0 0))).
Defined.

(** the leader, with slots 0 and 1 executed and both followers connected, opens a
    round and hears replica 1 *)
Definition leading : Replica store :=
  run4 <| r_config := sample_config |> <| r_peerWriters := [None; Some 1; Some 2] |>.
Definition opened : Replica store := (syncOnce leading).1.
Definition reply01 : BusSyncReply := {| yr_ViewId := 0; yr_Slot := 1; yr_SenderIdx := 1 |}.
Definition commit01 : BusSyncCommit := {| yc_ViewId := 0; yc_StableSlot := 1; yc_SenderIdx := 0 |}.

Lemma opened_run : sync_run opened [] (syncOnce leading).2.
Proof.
  apply (sync_tick leading [] []). apply (sync_other leader0 [] []); [|by left; vm_compute|by vm_compute|by vm_compute].
  apply (sync_start sample_config 0 false dropNone 0 0 opts4).
Qed.

Lemma heard_commit : Send 2 (RSyncCommit commit01) ∈ (handleSyncReply opened reply01).2.
Proof.
  assert ((handleSyncReply opened reply01).2 = [Send 1 (RSyncCommit commit01); Send 2 (RSyncCommit commit01)])
    as -> by (vm_compute; reflexivity).
  set_solver.
Qed.


(** a follower with the same log answers the leader's prepare *)
Definition following : Replica store :=
  run4 <| r_idx := 1 |> <| r_peerWriters := [Some 1; None; Some 2] |>.
Definition prepare01 : BusSyncPrepare :=
  {| yp_ViewId := 0; yp_SlotToSync := 1; yp_HasSlot := true; yp_PrefixHash := r_prefixHash run4;
     yp_SenderIdx := 0 |}.

Lemma following_idle : catchup_ok following.
Proof. intros H. by vm_compute in H. Qed.

Lemma following_replies :
  Send 0 (RSyncReply {| yr_ViewId := 0; yr_Slot := 1; yr_SenderIdx := 1 |}) ∈
    (handleSyncPrepare following prepare01 5).2.
Proof.
  assert ((handleSyncPrepare following prepare01 5).2 =
    [Send 0 (RSyncReply {| yr_ViewId := 0; yr_Slot := 1; yr_SenderIdx := 1 |})]) as ->
    by (vm_compute; reflexivity).
  set_solver.
Qed.

Theorem sync_reply_agrees_witness :
  may_reply following prepare01 0 {| yr_ViewId := 0; yr_Slot := 1; yr_SenderIdx := 1 |}.
Proof.
  destruct (sync_reply_agrees following following_idle) as [H _].
  destruct (H prepare01 5) as [_ H1]. exact (H1 0 _ following_replies).
Defined.
