(* ===== verification/RecoveryProps.v ===== *)
(** Properties of a recovery: what the installation of a start view and the state
    fetched do to the bus log. *)
From stdpp Require Import sorting.
From S2P Require Import Prelude WireBase Wire WireStream Config Lines GlobalOrder State ReplicaState Cursor Log LogSpec LogInv Admission ScheduleProto SchedInv Merge Gaps Sync ViewChange Recovery LogFrame RecoveryLog RecoveryExec FetchLog ConfigProps LogProps.


(** C10: a recovery that finishes has executed through the end of the merge, on the
    same history as before, and if the prefix was still to be verified, the hash
    of the history through the merge's stable slot is the hash the new leader
    sent.  Otherwise the replica is not back in normal operation. *)
Theorem recovery_verifies_prefix {TM : Treemap Value} {TL : TreemapLaws TM} (r : Replica TM)
    gen now snap hi rec r' :
  recovery_is r gen = Some rec -> recoverable r rec snap hi ->
  finishRecovery r gen now = (r', true) ->
  exists snap' hi', log_inv r' snap' hi' /\
    (forall s, s <= r_nextExpected r -> snap' s = snap s) /\
    (rec_hasMax rec = true -> rec_maxSlot rec < r_nextExpected r') /\
    (rec_verifyPrefix rec = true -> r_nextExpected r <= rec_stable rec ->
       sn_hash (snap' (rec_stable rec + 1)) = rec_prefixHash rec).
Proof.
  intros H1 H2 H3. destruct (finishRecovery_log r gen now snap hi rec r' H1 H2 H3)
    as (snap' & hi' & Hinv & [A B C]).
  exists snap', hi'. auto.
Qed.

(** A fetched reply that is not for the fetch, or holds a slot outside its
    range or twice, changes nothing.  One that is accepted fills exactly its
    entries' slots: a no-op closes its slot unless the slot is executed, anything
    else only fills a slot that is still empty; no other slot changes, the
    executed history is kept, and what has become contiguous is executed. *)
Theorem fetched_state_applied {TM : Treemap Value} {TL : TreemapLaws TM} (r : Replica TM) m q snap hi :
  log_inv r snap hi ->
  (applyStateEntries r m q).2 = false /\ (applyStateEntries r m q).1 = r \/
  exists r1, applyStateEntries r m q = (advanceNextExpected r1, true) /\
    log_inv r1 snap hi /\ r_nextExpected r1 = r_nextExpected r /\
    (forall e, e ∈ ns_Entries m ->
       fq_from q <= se_Slot e <= fq_to q /\ slotState_of r1 (se_Slot e) = entry_state r e) /\
    (forall s, s ∉ se_Slot <$> ns_Entries m -> slotState_of r1 s = slotState_of r s).
Proof.
  intros Hinv. unfold applyStateEntries. destruct (_ || _); [by left|].
  destruct (fetchActive r q); [|by left]. cbn [negb].
  destruct (entries_ok m q ∅ (ns_Entries m)) eqn:Eok; [|by left]. cbn [negb]. right.
  apply entries_ok_spec in Eok as (Hnd & _ & Hrange).
  destruct (apply_entries_spec (ns_Entries m) r snap hi Hinv Hnd) as (H1 & H2 & H3).
  eexists. split; [reflexivity|]. split; [done|]. split; [apply H2|]. split.
  - intros e He. split; [by apply Hrange|by apply H3].
  - intros s Hs. by apply H2.
Qed.

(** * A concrete recovery *)

#[local] Existing Instance store.
#[local] Existing Instance store_laws.

(** slots 0 and 1 executed, 1 stable, 3 received; the merge ends at 3 with slot 2
    a no-op *)
Definition stable1 : Replica store := setStable run4 1.
Definition startView3 : BusStartView :=
  {| sv_ViewId := 1; sv_SourceNormalView := 0; sv_SelectedReports := []; sv_StableSlot := 1;
     sv_HasStable := true; sv_PrefixHash := r_prefixHash run4; sv_MaxSlot := 3; sv_HasMax := true;
     sv_SenderIdx := 1; sv_Schedule := []; sv_NoOpSlots := [2] |}.

Lemma stable1_inv : exists snap, log_inv stable1 snap 2.
Proof.
  destruct run4_inv as (snap & hi & Hinv & ->). exists snap.
  eapply same_log_inv; [apply setStable_same|exact Hinv].
Qed.

Definition prepared3 : Replica store := (prepareRecovery stable1 startView3 true).1.

Lemma prepared3_eq : prepareRecovery stable1 startView3 true = (prepared3, true).
Proof.
  assert ((prepareRecovery stable1 startView3 true).2 = true) as E by by vm_compute.
  unfold prepared3. destruct (prepareRecovery stable1 startView3 true). cbn [snd fst] in *. by rewrite E.
Qed.

Lemma startView3_noops s : s ∈ sv_NoOpSlots startView3 -> 0 <= s.
Proof. intros [->|H%elem_of_nil]%elem_of_cons; done. Qed.


(** slots 0 and 1 received but not executed; the merge's prefix ends at slot 1 *)
Definition recovery1 : viewRecovery :=
  {| rec_view := 1; rec_generation := 1; rec_leader := 1; rec_stable := 1; rec_hasStable := true;
     rec_maxSlot := 1; rec_hasMax := true; rec_replayFrom := 0; rec_replayTo := 0;
     rec_verifyPrefix := true; rec_prefixHash := r_prefixHash run4; rec_repairFrom := 0 |}.
Definition recovering : Replica store :=
  filled3 <| r_viewId := 1 |> <| r_status := statusViewChange |> <| r_recovery := Some recovery1 |>.

Lemma recovering_same : same_log filled3 recovering.
Proof. unfold recovering. split; [split|..]; by rsimpl. Qed.

Lemma recovering_rec : recovery_is recovering 1 = Some recovery1.
Proof. unfold recovery_is, recovering. rsimpl. unfold recovery1. by rsimpl. Qed.

Lemma recovering_ok : recoverable recovering recovery1 snap0 0.
Proof.
  split.
  - eapply same_log_inv; [exact recovering_same|exact filled3_inv].
  - eapply same_log_roomy; [exact recovering_same|]. split; [by vm_compute|by vm_compute|].
    exact (roomy_entries _ _ _ filled3_roomy).
  - by intros H.
  - by vm_compute.
  - by intros _.
  - intros _. by split.
Qed.

Definition recovered1 : Replica store := (finishRecovery recovering 1 7).1.

Lemma recovered1_eq : finishRecovery recovering 1 7 = (recovered1, true).
Proof.
  assert ((finishRecovery recovering 1 7).2 = true) as E by by vm_compute.
  unfold recovered1. destruct (finishRecovery recovering 1 7). cbn [snd fst] in *. by rewrite E.
Qed.

Theorem recovery_verifies_prefix_witness :
  1 < r_nextExpected recovered1 /\ exists snap' hi', log_inv recovered1 snap' hi' /\
    sn_hash (snap' 2) = r_prefixHash run4.
Proof.
  destruct (recovery_verifies_prefix recovering 1 7 snap0 0 recovery1 recovered1 recovering_rec recovering_ok
    recovered1_eq) as (snap' & hi' & H1 & _ & H2 & H3).
  split; [exact (H2 eq_refl)|]. exists snap', hi'. split; [exact H1|].
  apply (H3 eq_refl). by vm_compute.
Defined.

(** replica 1 sends slot 2 as a no-op *)
Definition fetch22 : fetchReq := mkfetchReq 1 2 2 0 1 0 0 None None.
Definition state2 : BusNewState :=
  {| ns_ViewId := 0; ns_FromSlot := 2; ns_ToSlot := 2; ns_FetchId := 1; ns_SenderIdx := 1;
     ns_Entries := [{| se_Slot := 2; se_ClientId := 0; se_ReqId := 0; se_IsNoOp := true;
                       se_IsBus := false; se_Payload := [] |}] |}.

Lemma state2_accepted : (applyStateEntries filled3 state2 fetch22).2 = true.
Proof. by vm_compute. Qed.

Theorem fetched_state_applied_witness :
  exists r1, applyStateEntries filled3 state2 fetch22 = (advanceNextExpected r1, true) /\
    slotState_of r1 3 = slotState_of filled3 3.
Proof.
  destruct (fetched_state_applied filled3 state2 fetch22 snap0 0 filled3_inv)
    as [[H _]|(r1 & H1 & _ & _ & _ & H2)].
  - pose proof state2_accepted as E. congruence.
  - exists r1. split; [exact H1|]. apply H2. apply (bool_decide_unpack _). by vm_compute.
Defined.

(** * Properties of the fetch loop ([recovery.go]: [missingFetchSlots], [runFetch]). *)

Section fetch.
Context {TM : Treemap Value}.
Implicit Types r : Replica TM.

(** the slots a request still has to look at, from [from] on *)
Definition candidates (q : fetchReq) (from : Z) : list Z :=
  match fq_slots q with
  | Some slots => filter (fun s => from <= s) slots
  | None => seqZ from (fq_to q - from + 1)
  end.

(** a request as [fetchRange] and the others make it *)
Record fetch_wf (q : fetchReq) : Prop := {
  fw_range : 0 <= fq_from q <= fq_to q /\ fq_to q < W64 - 1;
  fw_slots : forall slots, fq_slots q = Some slots ->
    StronglySorted Z.lt slots /\ forall s, s ∈ slots -> 0 <= s <= fq_to q }.

Definition room (acc : list Z) : nat := Z.to_nat (stateFetchSlots - Zlength acc).

Lemma take_wanted r s acc :
  Zlength acc < stateFetchSlots ->
  let acc' := if wanted r s then acc ++ [s] else acc in
  Zlength acc' <= stateFetchSlots /\
  forall l, acc ++ take (room acc) (if decide (wanted r s = true) then s :: l else l) =
    acc' ++ take (room acc') l.
Proof.
  intros Hlt. cbv zeta. destruct (wanted r s) eqn:Ew.
  - split; [rewrite length_app; cbn [length]; lia|]. intros l. rewrite decide_True by done.
    rewrite <- app_assoc. f_equal. replace (room acc) with (S (room (acc ++ [s]))); [done|].
    unfold room. rewrite length_app. cbn [length]. lia.
  - split; [lia|]. intros l. by rewrite decide_False.
Qed.

Lemma missing_ranged_spec fuel r to slot acc :
  Z.of_nat fuel = Z.max 0 (to - slot + 1) -> Zlength acc <= stateFetchSlots ->
  missing_ranged fuel r to slot acc =
    acc ++ take (room acc) (filter (fun s => wanted r s = true) (seqZ slot (to - slot + 1))).
Proof.
  revert slot acc. induction fuel as [|fuel IH]; intros slot acc Hf Ha; cbn [missing_ranged].
  { rewrite seqZ_nil by lia. by rewrite filter_nil, take_nil, app_nil_r. }
  rewrite (proj2 (Z.leb_le _ _)) by lia. cbn [andb].
  destruct (Z.ltb_spec (Zlength acc) stateFetchSlots) as [Hlt|Hge].
  2:{ replace (room acc) with 0%nat by (unfold room; lia). by rewrite take_0, app_nil_r. }
  rewrite seqZ_cons by lia. rewrite filter_cons.
  destruct (take_wanted r slot acc Hlt) as [Ha' E].
  rewrite E. destruct (Z.eqb_spec slot to) as [->|Hne].
  - rewrite (seqZ_nil (Z.succ to)) by lia. by rewrite filter_nil, take_nil, app_nil_r.
  - rewrite IH by lia. do 3 f_equal. f_equal; lia.
Qed.

Lemma missing_listed_spec r to slot listed acc :
  slot <= to -> StronglySorted Z.lt listed -> (forall s, s ∈ listed -> 0 <= s <= to) -> to < W64 - 1 ->
  Zlength acc <= stateFetchSlots ->
  missing_listed r to slot listed acc =
    acc ++ take (room acc) (filter (fun s => wanted r s = true) listed).
Proof.
  intros Hs Hsort. revert slot acc Hs. induction Hsort as [|s l Hsort IH Hlt]; intros slot acc Hs Hin Hto Ha;
    cbn [missing_listed].
  { by rewrite filter_nil, take_nil, app_nil_r. }
  rewrite (proj2 (Z.leb_le _ _)) by lia. cbn [andb].
  destruct (Z.ltb_spec (Zlength acc) stateFetchSlots) as [Hl|Hge].
  2:{ replace (room acc) with 0%nat by (unfold room; lia). by rewrite take_0, app_nil_r. }
  rewrite filter_cons.
  destruct (take_wanted r s acc Hl) as [Ha' E].
  rewrite E. assert (0 <= s <= to) as Hsb by (apply Hin; set_solver).
  rewrite Forall_forall in Hlt.
  destruct (Z.eqb_spec s to) as [->|Hne].
  - destruct l as [|s' l]; [by rewrite filter_nil, take_nil, app_nil_r|].
    specialize (Hlt s' ltac:(set_solver)). specialize (Hin s' ltac:(set_solver)). lia.
  - unfold add64. rewrite u64_small by word_lia. apply IH; [lia| |done|done]. intros s' Hs'. apply Hin. set_solver.
Qed.

Lemma filter_every {A} (P : A -> Prop) `{!forall x, Decision (P x)} (l : list A) :
  (forall x, x ∈ l -> P x) -> filter P l = l.
Proof.
  induction l as [|x l IH]; intros Hl; [done|]. rewrite filter_cons_True by (apply Hl; set_solver).
  f_equal. apply IH. set_solver.
Qed.

Lemma sorted_lookup_lt (l : list Z) i j x y :
  StronglySorted Z.lt l -> l !! i = Some x -> l !! j = Some y -> (i < j)%nat -> x < y.
Proof.
  intros Hs. revert i j. induction Hs as [|z l Hs IH Hz]; intros i j Hi Hj Hij; [done|].
  destruct j as [|j]; [lia|]. cbn in Hj. destruct i as [|i]; cbn in Hi.
  - injection Hi as <-. rewrite Forall_forall in Hz. apply Hz. by eapply list_elem_of_lookup_2.
  - apply (IH i j); [done..|lia].
Qed.

(** [sort.Search] in an ascending list finds where the slots from [from] on start *)
Lemma search_filter (slots : list Z) from :
  StronglySorted Z.lt slots ->
  drop (Search (length slots)
          (fun i => match slots !! i with Some s => from <=? s | None => false end)) slots =
  filter (fun s => from <= s) slots.
Proof.
  intros Hs. set (f := fun i => _).
  assert (forall i j, (i <= j < length slots)%nat -> f i = true -> f j = true) as Hmono.
  { intros i j Hij. unfold f. destruct (slots !! i) as [a|] eqn:Ei; [|done].
    destruct (lookup_lt_is_Some_2 slots j ltac:(lia)) as [b Eb]. rewrite Eb.
    destruct (decide (i = j)) as [->|]; [by simplify_eq|].
    pose proof (sorted_lookup_lt _ _ _ _ _ Hs Ei Eb ltac:(lia)). rewrite !Z.leb_le. lia. }
  destruct (Search_spec (length slots) f Hmono) as (H1 & H2 & H3). set (k := Search _ _) in *.
  assert (forall i s, slots !! i = Some s -> f i = (from <=? s)) as Hf by (intros i s E; unfold f; by rewrite E).
  rewrite <- (take_drop k slots) at 2. rewrite filter_app, (filter_none _ (take k slots)), (filter_every _ (drop k slots)).
  - done.
  - intros s (i & Hi)%list_elem_of_lookup_1. rewrite lookup_drop in Hi.
    pose proof (lookup_lt_Some _ _ _ Hi). pose proof (H3 (k + i)%nat ltac:(lia)) as E.
    rewrite (Hf _ _ Hi) in E. lia.
  - intros s (i & Hi)%list_elem_of_lookup_1. apply lookup_take_Some in Hi as [Hi Hk].
    pose proof (H2 i Hk) as E. rewrite (Hf _ _ Hi) in E. lia.
Qed.

Lemma filter_sorted (P : Z -> Prop) `{forall x, Decision (P x)} l :
  StronglySorted Z.lt l -> StronglySorted Z.lt (filter P l).
Proof.
  induction 1 as [|x l Hs IH Hx]; [constructor|]. rewrite filter_cons.
  destruct (decide (P x)); [|done]. constructor; [done|].
  rewrite Forall_forall in *. intros y [_ Hy]%list_elem_of_filter. auto.
Qed.

Lemma missingFetchSlots_candidates r q from :
  fetch_wf q -> 0 <= from <= fq_to q ->
  missingFetchSlots r q from =
    take (Z.to_nat stateFetchSlots) (filter (fun s => wanted r s = true) (candidates q from)).
Proof.
  intros [Hr Hslots] Hf. unfold missingFetchSlots, candidates. destruct (fq_slots q) as [slots|].
  - destruct (Hslots slots eq_refl) as [Hs Hin]. cbv zeta. rewrite search_filter by done.
    rewrite missing_listed_spec; [done|lia|by apply filter_sorted| |lia|done].
    intros s [_ Hs']%list_elem_of_filter. auto.
  - rewrite missing_ranged_spec; [done|lia|done].
Qed.

Lemma candidates_bounds q from s :
  fetch_wf q -> s ∈ candidates q from -> from <= s <= fq_to q.
Proof.
  intros [Hr Hslots]. unfold candidates. destruct (fq_slots q) as [slots|].
  - destruct (Hslots slots eq_refl) as [Hs Hin]. intros [H1 H2]%list_elem_of_filter.
    specialize (Hin s H2). lia.
  - rewrite elem_of_seqZ. lia.
Qed.

Lemma seqZ_sorted from n : StronglySorted Z.lt (seqZ from n).
Proof.
  destruct (decide (0 <= n)) as [Hn|]; [|rewrite seqZ_nil by lia; constructor].
  revert from. pattern n. apply natlike_ind; [|clear n Hn; intros n Hn IH|done]; intros from.
  - rewrite seqZ_nil by lia. constructor.
  - rewrite seqZ_cons by lia. constructor; [rewrite Z.pred_succ; apply IH|].
    rewrite Forall_forall. intros x Hx%elem_of_seqZ. lia.
Qed.

Lemma candidates_sorted q from : fetch_wf q -> StronglySorted Z.lt (candidates q from).
Proof.
  intros [Hr Hslots]. unfold candidates. destruct (fq_slots q) as [slots|].
  - apply filter_sorted, Hslots. done.
  - apply seqZ_sorted.
Qed.

(** A state request asks for the first slots, at most [stateFetchSlots] of
    them and in ascending order, that the replica still wants from the range or
    the list of the fetch: neither executed nor filled. *)
Theorem missingFetchSlots_first r q from :
  fetch_wf q -> 0 <= from <= fq_to q ->
  missingFetchSlots r q from =
    take (Z.to_nat stateFetchSlots) (filter (fun s => wanted r s = true) (candidates q from)) /\
  StronglySorted Z.lt (filter (fun s => wanted r s = true) (candidates q from)) /\
  (forall s, s ∈ missingFetchSlots r q from ->
     from <= s <= fq_to q /\ r_nextExpected r <= s /\ slotState_of r s = slotEmpty) /\
  (missingFetchSlots r q from = [] <->
   forall s, s ∈ candidates q from -> s < r_nextExpected r \/ slotState_of r s <> slotEmpty).
Proof.
  intros Hq Hf. rewrite (missingFetchSlots_candidates r q from Hq Hf).
  assert (forall s, wanted r s = true <-> r_nextExpected r <= s /\ slotState_of r s = slotEmpty) as Hw.
  { intros s. unfold wanted. by rewrite andb_true_iff, Z.leb_le, bool_decide_eq_true. }
  split; [done|]. split; [by apply filter_sorted, candidates_sorted|]. split.
  - intros s Hs.
    assert (s ∈ filter (fun s => wanted r s = true) (candidates q from)) as Hin.
    { exact (subseteq_take _ _ _ Hs). }
    apply list_elem_of_filter in Hin as [Hwt Hc]. apply Hw in Hwt.
    pose proof (candidates_bounds q from s Hq Hc). tauto.
  - split.
    + intros E s Hs. destruct (decide (s < r_nextExpected r)); [by left|]. right. intros He.
      assert (s ∈ filter (fun s => wanted r s = true) (candidates q from)) as Hin.
      { apply list_elem_of_filter. split; [apply Hw; split; [lia|done]|done]. }
      destruct (filter _ _) as [|x l]; [by apply elem_of_nil in Hin|done].
    + intros H. rewrite filter_none; [by rewrite take_nil|]. intros s Hs Hwt.
      apply Hw in Hwt. destruct (H s Hs); [lia|tauto].
Qed.

(** * Progress *)

(** The rounds of one fetch: each asks from where the last reply ended, against
    whatever state the replica is in by then. *)
Inductive fetch_rounds (q : fetchReq) : Z -> nat -> Prop :=
| rounds_start : fetch_rounds q (fq_from q) 0
| rounds_next next n r s to slots r' m r'' next' :
    fetch_rounds q next n -> fetch_ask r q next = FetchAsk s to slots ->
    fetch_receive r' q s to slots m = (r'', ReplyApplied next') ->
    fetch_rounds q next' (S n).

Lemma fetch_ask_bounds r q next s to slots :
  fetch_wf q -> 0 <= next -> fetch_ask r q next = FetchAsk s to slots ->
  next <= s <= to /\ to <= fq_to q /\ Zlength slots <= stateFetchSlots.
Proof.
  intros Hq Hn. unfold fetch_ask. destruct (Z.ltb_spec (fq_to q) next) as [|Hle]; [done|].
  destruct (negb _); [done|]. destruct (_ || _).
  - rewrite missingFetchSlots_candidates by (done || lia).
    set (l := filter _ (candidates q next)).
    assert (StronglySorted Z.lt l) as Hl by (by apply filter_sorted, candidates_sorted).
    assert (forall x, x ∈ take (Z.to_nat stateFetchSlots) l -> next <= x <= fq_to q) as Hin.
    { intros x Hx%(subseteq_take _ _). apply list_elem_of_filter in Hx as [_ Hx].
      by apply candidates_bounds. }
    assert (StronglySorted Z.lt (take (Z.to_nat stateFetchSlots) l)) as Ht.
    { rewrite <- (take_drop (Z.to_nat stateFetchSlots) l) in Hl. by eapply StronglySorted_app_1_l. }
    assert (Zlength (take (Z.to_nat stateFetchSlots) l) <= stateFetchSlots) as Hlen.
    { rewrite length_take. unfold stateFetchSlots. lia. }
    destruct (take (Z.to_nat stateFetchSlots) l) as [|x t]; [done|]. intros [= <- <- <-].
    assert (x <= List.last t x /\ List.last t x ∈ x :: t) as [H1 H2].
    { inversion Ht as [|? ? _ Hx]; subst. rewrite Forall_forall in Hx. destruct t as [|y t]; [split; [done|set_solver]|].
      assert (List.last (y :: t) x ∈ y :: t) as Hlast.
      { apply list_elem_of_In. destruct (@exists_last _ (y :: t) ltac:(done)) as (t' & z & ->).
        rewrite last_last. apply in_or_app. right. by left. }
      split; [specialize (Hx _ Hlast); lia|set_solver]. }
    pose proof (Hin x ltac:(set_solver)). pose proof (Hin _ H2). split; [lia|]. split; [lia|done].
  - intros [= <- <- <-]. unfold stateFetchSlots. cbn [length]. lia.
Qed.

Lemma fetch_receive_bounds r q s to slots m r' next' :
  fetch_receive r q s to slots m = (r', ReplyApplied next') ->
  next' = add64 (ns_ToSlot m) 1 /\ s <= ns_ToSlot m <= to.
Proof.
  unfold fetch_receive. destruct (_ || _) eqn:E; [done|]. cbv zeta.
  rewrite !orb_false_iff, !Z.ltb_ge in E.
  destruct (forallb _ _); cbn [negb]; [|done]. destruct (applyStateEntries r m q) as [r1 []]; [|done].
  intros [= <- <-]. split; [done|lia].
Qed.

Lemma fetch_rounds_bounds q next n :
  fetch_wf q -> fetch_rounds q next n -> fq_from q + Z.of_nat n <= next <= fq_to q + 1.
Proof.
  intros Hq. pose proof (fw_range q Hq) as Hr.
  induction 1 as [|next n r s to slots r' m r'' next' _ IH Ha Hrec]; [lia|].
  apply fetch_ask_bounds in Ha as (H1 & H2 & _); [|done|lia].
  apply fetch_receive_bounds in Hrec as [-> H3]. unfold add64. rewrite u64_small by word_lia. lia.
Qed.

(** C26: a fetch ends: every reply it accepts moves it forward within its range, so
    it accepts at most one reply per slot of the range, whatever the replies hold
    and however the log changes between them, and once past its end it reports
    success. *)
Theorem fetch_terminates q next n r :
  fetch_wf q -> fetch_rounds q next n ->
  Z.of_nat n <= fq_to q - fq_from q + 1 /\
  (forall s to slots, fetch_ask r q next = FetchAsk s to slots ->
     Z.of_nat n < fq_to q - fq_from q + 1 /\ next <= s <= to /\ to <= fq_to q /\
     Zlength slots <= stateFetchSlots) /\
  (Z.of_nat n = fq_to q - fq_from q + 1 -> fetch_ask r q next = FetchDone true).
Proof.
  intros Hq Hn. pose proof (fetch_rounds_bounds q next n Hq Hn) as Hb.
  pose proof (fw_range q Hq) as Hr. split; [lia|]. split.
  - intros s to slots Ha. apply fetch_ask_bounds in Ha as (H1 & H2 & H3); [|done|lia].
    split; [lia|]. done.
  - intros E. unfold fetch_ask. rewrite (proj2 (Z.ltb_lt _ _)) by lia. done.
Qed.
End fetch.

(** * A concrete fetch *)

#[local] Existing Instance store.
#[local] Existing Instance store_laws.

(** slots 0 to 4 from replica 1, of which the log holds 0, 1 and 3 *)
Definition fetch04 : fetchReq := mkfetchReq 1 0 4 0 1 0 0 None None.

Lemma fetch04_wf : fetch_wf fetch04.
Proof. split; [by vm_compute|]. by intros slots [=]. Qed.

Theorem missingFetchSlots_first_witness : missingFetchSlots filled3 fetch04 0 = [2; 4].
Proof.
  destruct (missingFetchSlots_first filled3 fetch04 0 fetch04_wf) as (H & _); [by vm_compute|].
  exact H.
Defined.

(** replica 1 answers up to slot 2 *)
Definition state02 : BusNewState :=
  {| ns_ViewId := 0; ns_FromSlot := 0; ns_ToSlot := 2; ns_FetchId := 1; ns_SenderIdx := 1;
     ns_Entries := [] |}.

Lemma fetch04_round : fetch_rounds fetch04 3 1.
Proof.
  apply (rounds_next fetch04 0 0 filled3 0 4 [] filled3 state02
           (fetch_receive filled3 fetch04 0 4 [] state02).1 3).
  - apply (rounds_start fetch04).
  - by vm_compute.
  - assert ((fetch_receive filled3 fetch04 0 4 [] state02).2 = ReplyApplied 3) as E by by vm_compute.
    destruct (fetch_receive filled3 fetch04 0 4 [] state02). cbn [snd] in E. by rewrite E.
Qed.

Theorem fetch_terminates_witness :
  1 <= fq_to fetch04 - fq_from fetch04 + 1.
Proof.
  destruct (fetch_terminates fetch04 3 1 filled3 fetch04_wf fetch04_round) as (H & _).
  exact H.
Defined.
