(* ===== verification/ClientProps.v ===== *)
(** Properties of the client. *)
From Stdlib Require Import Sorting.Sorted.
From S2P Require Import Prelude WireBase Wire WireStream Config Lines GlobalOrder State ReplicaState Cursor Log Admission ScheduleProto SchedInv Client ClientRun ClientInv ClientPlan ConfigProps AgreementProps.

(** a client made by [NewClient] and connected *)
Record started (config : Config) (c : Client) : Prop := {
  st_config : config_ok config;
  st_made : exists clientId intervalMs resendMs genIntervalUs verbose startDelayMs maxOwdNs owdAuto
      payload c0 rtts,
    is_u64 clientId /\ interval_ok intervalMs /\
    NewClient config clientId intervalMs resendMs genIntervalUs verbose startDelayMs maxOwdNs owdAuto
      payload = Some c0 /\ c = Connect c0 rtts }.

(** every run of such a client keeps the invariants *)
Lemma started_fields config c : started config c ->
  c_config c = config /\ is_u64 (c_clientId c) /\ interval_ok (c_desiredInterval c) /\
  c_scheduleStart c = 0 /\ c_submitted c = ∅ /\ c_windows c = ∅ /\ c_rInflight c = ∅ /\
  c_paused c = false /\ c_pauseView c = 0 /\ c_activeView c = 0 /\ c_viewHint c = 0 /\
  c_handshakeReplies c = [] /\ c_startupComplete c = false /\
  c_controlStatus c = replicate (Z.to_nat (cfg_N config)) clientControlMessage0.
Proof.
  intros [_ (cid & iv & rs & gi & vb & sd & owd & auto & payload & c0 & rtts & Hid & Hiv & Hc0 & ->)].
  unfold NewClient in Hc0. destruct payload as [op|]; [|done]. cbn in Hc0. injection Hc0 as <-.
  unfold Connect. rsimpl. destruct auto; rsimpl; done.
Qed.

Lemma started_inv config c wall now : started config c ->
  vote_inv [] (client_start c wall now) /\ pause_inv [] (client_start c wall now) /\
  plan_inv [] (client_start c wall now) /\ request_inv [] (client_start c wall now).
Proof.
  intros H. pose proof (st_config _ _ H) as Hcfg.
  apply started_fields in H as (E1 & Hid & Hiv & E2 & E3 & E4 & E5 & E6 & E7 & E8 & E9 & E10 & E11 & E12).
  split; [|split; [|split]].
  - split; cbn; rewrite ?E5; [by intros rid e vk mask|by intros rid ?%elem_of_nil].
  - constructor; cbn; rewrite ?E1, ?E6, ?E7, ?E8, ?E9, ?E10, ?E11, ?E12; try done.
    + rewrite length_replicate, Z2Nat.id; [done|]. destruct Hcfg. lia.
    + intros i m [-> _]%lookup_replicate. done.
  - constructor; unfold windows_ok; cbn; rewrite ?E1, ?E2, ?E3, ?E4; try done.
    + by intros msg ?%elem_of_nil.
    + constructor.
  - constructor; cbn; [by intros rid ?%elem_of_nil|by rewrite E5].
Qed.

Lemma run_invs config c wall now tr s : started config c ->
  client_run (client_start c wall now) tr s ->
  c_config (k_c s) = config /\ c_clientId (k_c s) = c_clientId c /\
  vote_inv tr s /\ pause_inv tr s /\ plan_inv tr s /\ request_inv tr s.
Proof.
  intros Hst Hrun. pose proof (started_inv config c wall now Hst) as H0.
  pose proof (started_fields config c Hst) as (Ec & _).
  assert (Hcfg : c_config (k_c s) = c_config c /\ c_clientId (k_c s) = c_clientId c).
  { induction Hrun as [|tr s evs s' _ IH Hs]; [done|].
    destruct (client_step_config _ _ _ Hs) as [-> ->]. done. }
  destruct Hcfg as [-> ->]. rewrite Ec. split; [done|]. split; [done|].
  destruct H0 as (H1 & H2 & H3 & H4).
  split; [by eapply (client_run_ind_inv vote_inv); eauto using vote_inv_step|].
  split; [by eapply (client_run_ind_inv pause_inv); eauto using pause_inv_step|].
  split; [by eapply (client_run_ind_inv plan_inv); eauto using plan_inv_step|].
  by eapply (client_run_ind_inv request_inv); eauto using request_inv_step.
Qed.

(** ** A run *)

Definition client7 : Client :=
  match NewClient sample_config 7 50 0 1000 false 0 0 false (Some [x00]) with
  | Some c => Connect c []
  | None => mkClient sample_config 0 0 0 0 [] 0 false 0 0 0 0 0 0 ∅ ∅ [] 0 0 false [] [] [] 0 ∅
              0 0 0 0 0 0 0 false 0 0 0 [] false
  end.
Definition start7 : ClientRun := client_start client7 1000000000 100.

(** the leader's answer for the window of 250 ms that begins at [start] *)
Definition grant7 (view leader start : Z) : HsReply :=
  mkHsReply leader view 50 start (start + 250000000).
Definition reply7 (idx view : Z) : RequestReplyMessage :=
  mkRequestReplyMessage 7 1 0 0 view idx [].
Definition normal7 (view idx : Z) : clientControlMessage := mkclientControlMessage 7 view idx true.

(** the first window is granted, a request generated, sent and committed *)
Definition first_send : list action :=
  [DoDial; DoTarget 1000000000; DoRequest 1000000000 1500000000; DoHandshake (grant7 0 0 1500000000);
   DoAwait 1000000000; DoGenerate 100 1500000000; DoPick 1500000000; DoSend 1500000000 200].
Definition first_commit : list action := first_send ++ [DoReply (reply7 1 0) 300; DoReply (reply7 0 0) 400].

Lemma client7_started : started sample_config client7.
Proof.
  split; [by apply (ReadConfig_ok sample_lines false), sample_config_read|].
  exists 7, 50, 0, 1000, false, 0, 0, false, (Some [x00]). eexists _, [].
  split_and!; [by vm_compute..|reflexivity|by vm_compute].
Qed.

(** * Commitment *)


Lemma first_commit_run : exists tr s,
  client_run start7 tr s /\ Committed 1 ∈ tr /\ c_committedCount (k_c s) = 1.
Proof.
  destruct (client_execs start7 first_commit) as [[tr s]|] eqn:E; [|by vm_compute in E].
  exists tr, s. split; [exact (client_execs_sound _ _ _ _ E)|].
  assert (option_map (fun r => (last r.1, c_committedCount (k_c r.2)))
    (client_execs start7 first_commit) = Some (Some (Committed 1), 1)) as H by by vm_compute.
  rewrite E in H. cbn in H. injection H as H1 H2. split; [|done].
  apply last_Some in H1 as [l ->]. apply elem_of_app. right. by left.
Qed.


(** the replicas a mask and a further reply count for *)
Definition voters_with (mask idx : Z) : gset Z := voters mask ∪ (if idx <? 32 then {[idx]} else ∅).

Lemma voters_lor mask idx : 0 <= mask -> 0 <= idx ->
  voters (Z.lor mask (bit32 idx)) = voters_with mask idx.
Proof.
  intros Hm Hi. apply set_eq. intros i. unfold voters_with. rewrite elem_of_union, !elem_of_voters.
  assert (Hs : i ∈ (if idx <? 32 then {[idx]} else ∅ : gset Z) <-> i = idx /\ idx < 32).
  { destruct (Z.ltb_spec idx 32); rewrite ?elem_of_singleton, ?elem_of_empty; intuition lia. }
  rewrite Hs. destruct (decide (0 <= i)) as [H0|H0]; [|intuition lia].
  rewrite Z.lor_spec, bit32_testbit, orb_true_iff, andb_true_iff, Z.eqb_eq, Z.ltb_lt by done.
  intuition lia.
Qed.

(** A reply to a request in flight adds its replica to the ones counted for
    its log index and view, and commits the request, once, when they are a
    quorum with the leader; a reply from a replica already counted changes
    nothing. *)
Theorem reply_decides c m now e :
  c_rInflight c !! rr_RequestId m = Some e ->
  (forall vk mask, e_votes e !! vk = Some mask -> 0 <= mask) -> 0 <= rr_ReplicaIdx m ->
  let vk := (rr_LogIndex m, rr_ViewId m) in
  let mask := default 0 (e_votes e !! vk) in
  let q := voters_with mask (rr_ReplicaIdx m) in
  let (c', committed) := handleRequestReply c m now in
  if decide (rr_ReplicaIdx m ∈ voters mask) then c' = c /\ committed = false
  else
    (committed = true <-> e_committed e = false /\
       QuorumSize (c_config c) <= Z.of_nat (size q) /\ LeaderIndex (c_config c) (rr_ViewId m) ∈ q) /\
    c_committedCount c' = (if committed then add64 (c_committedCount c) 1 else c_committedCount c) /\
    (exists e' mask', c_rInflight c' = <[rr_RequestId m := e']> (c_rInflight c) /\
       e_votes e' = <[vk := mask']> (e_votes e) /\ voters mask' = q /\
       e_committed e' = e_committed e || committed).
Proof.
  intros He Hpos Hidx vk mask q. unfold handleRequestReply. rewrite He. cbv zeta. fold vk. fold mask.
  assert (Hmask : 0 <= mask) by (unfold mask; destruct (e_votes e !! vk) eqn:Ev; [by eapply Hpos|done]).
  pose proof (land_bit32 mask (rr_ReplicaIdx m) Hmask) as Hl. rewrite <- elem_of_voters in Hl.
  destruct (Z.eqb_spec (Z.land mask (bit32 (rr_ReplicaIdx m))) 0) as [E|E]; cbn [negb]; cbv iota.
  2:{ destruct (decide (rr_ReplicaIdx m ∈ voters mask)); [done|tauto]. }
  destruct (decide (rr_ReplicaIdx m ∈ voters mask)) as [Hin|_]; [tauto|].
  pose proof (voters_lor mask _ Hmask Hidx) as Hvl. fold q in Hvl.
  pose proof (bit32_nonneg (rr_ReplicaIdx m)) as Hb.
  pose proof (quorumReached_spec c (Z.lor mask (bit32 (rr_ReplicaIdx m))) (rr_ViewId m)
    ltac:(apply Z.lor_nonneg; lia)) as Hq. rewrite Hvl in Hq.
  set (mask' := Z.lor mask _) in *. clearbody mask'. rsimpl.
  destruct (e_committed e) eqn:Ec; cbn [negb andb].
  { rsimpl. split; [naive_solver|]. split; [done|]. eexists _, mask'. split_and!; [done|by rsimpl|done|].
    by rsimpl; rewrite Ec. }
  destruct (quorumReached c mask' (rr_ViewId m)); unfold recordCommit; rsimpl;
    (split; [naive_solver|]); (split; [done|]);
    (eexists _, mask'; split_and!; [done|by rsimpl|done|]); by rsimpl; rewrite ?Ec.
Qed.

(** one vote, of replica 1, is counted; the leader's makes it two *)
Definition one_vote : Client :=
  client7 <| c_rInflight := {[1 := mkreqInflight 5 5 [] {[(4, 0) := 2]} false]} |>.

Theorem reply_decides_witness :
  (handleRequestReply one_vote (mkRequestReplyMessage 7 1 9 4 0 0 []) 10).2 = true.
Proof.
  pose proof (reply_decides one_vote (mkRequestReplyMessage 7 1 9 4 0 0 []) 10
    (mkreqInflight 5 5 [] {[(4, 0) := 2]} false) eq_refl) as H.
  cbv zeta in H. destruct (handleRequestReply one_vote _ _) as [c' committed].
  assert (Hm : forall vk mask, ({[(4, 0) := 2]} : gmap voteKey Z) !! vk = Some mask -> 0 <= mask)
    by (intros vk mask [<- <-]%lookup_singleton_Some; lia).
  specialize (H Hm ltac:(done)). rewrite decide_False in H by (apply (bool_decide_unpack _); by vm_compute).
  apply H. split_and!; [done|apply (bool_decide_unpack _); by vm_compute..].
Defined.

(** The client counts one request as committed twice: its retry copy waits in
    [retry] while the client is paused, the janitor forgets the committed entry
    after two seconds, and the next bus boards the copy as a new request. *)
Definition second_commit : list action :=
  first_send ++
  [DoTarget 6000000000; DoRequest 6000000000 6500000000; DoHandshake (grant7 0 0 6500000000);
   DoTimeout 5000000200 6500000000; DoReply (reply7 1 0) 5000000300; DoReply (reply7 0 0) 5000000300;
   DoControl MsgClientPause (normal7 1 1); DoPause; DoJanitor 7000000200;
   DoControl MsgClientStatusReply (normal7 1 2); DoDial; DoTarget 8000000000;
   DoRequest 8000000000 8500000000; DoHandshake (grant7 1 1 8500000000);
   DoPick 8500000000; DoSend 8500000000 8000000000;
   DoReply (reply7 1 1) 8000000300; DoReply (reply7 2 1) 8000000300].

Definition is_generated (ev : event) : bool := match ev with Generated _ => true | _ => false end.
Definition is_committed (ev : event) : bool := match ev with Committed 1 => true | _ => false end.

(** Concretely, a run that generates one request and commits it twice. *)
Theorem request_counted_twice : exists tr s,
  client_run start7 tr s /\ Zlength (filter (fun ev => is_generated ev = true) tr) = 1 /\
  Zlength (filter (fun ev => is_committed ev = true) tr) = 2 /\ c_committedCount (k_c s) = 2.
Proof.
  destruct (client_execs start7 second_commit) as [[tr s]|] eqn:E; [|by vm_compute in E].
  exists tr, s. split; [exact (client_execs_sound _ _ _ _ E)|].
  assert (option_map (fun r => (Zlength (filter (fun ev => is_generated ev = true) r.1),
    Zlength (filter (fun ev => is_committed ev = true) r.1), c_committedCount (k_c r.2)))
    (client_execs start7 second_commit) = Some (1, 2, 2)) as H by by vm_compute.
  rewrite E in H. clear E.
  cbn [option_map fst snd] in H. injection H as H1 H2 H3. split; [exact H1|]. split; [exact H2|exact H3].
Qed.

(** C18: a generated request is not forgotten: it waits for a bus or is in flight
    until the client has taken it as committed. *)
Theorem request_not_lost config c wall now tr s rid :
  started config c -> client_run (client_start c wall now) tr s -> Generated rid ∈ tr ->
  rid ∈ request_ids (c_pending (k_c s)) \/ is_Some (c_rInflight (k_c s) !! rid) \/ Committed rid ∈ tr.
Proof.
  intros Hst Hrun Hg. destruct (run_invs _ _ _ _ _ _ Hst Hrun) as (_ & _ & _ & _ & _ & Hr).
  destruct (ri_kept _ _ Hr rid Hg) as [[?|?]|?]; auto.
Qed.

Theorem request_not_lost_witness : exists tr s,
  client_run start7 tr s /\
  (1 ∈ request_ids (c_pending (k_c s)) \/ is_Some (c_rInflight (k_c s) !! 1) \/ Committed 1 ∈ tr).
Proof.
  destruct (client_execs start7 first_send) as [[tr s]|] eqn:E; [|by vm_compute in E].
  exists tr, s. pose proof (client_execs_sound _ _ _ _ E) as Hrun. split; [exact Hrun|].
  apply (request_not_lost sample_config client7 1000000000 100 tr s 1 client7_started Hrun).
  assert (option_map (fun r => nth 1 r.1 (Committed 0)) (client_execs start7 first_send) =
    Some (Generated 1)) as H by by vm_compute.
  rewrite E in H. destruct tr as [|ev1 [|ev2 tr]]; [done|done|]. cbn in H. injection H as ->.
  right. left.
Defined.

(** * Views *)

(** C19: the client follows the view only where a quorum has moved: the hint is a
    view that [QuorumSize] distinct replicas, its leader among them, reported as
    normal; a client that is not paused has seen no pause for a view beyond the
    one it works in, and its views never go back. *)
Theorem views_follow_quorum config c wall now tr s :
  started config c -> client_run (client_start c wall now) tr s ->
  (c_viewHint (k_c s) <> 0 -> exists q : gset Z,
     QuorumSize config <= Z.of_nat (size q) /\ LeaderIndex config (c_viewHint (k_c s)) ∈ q /\
     forall i, i ∈ q -> 0 <= i < cfg_N config /\ exists m, GotControl m ∈ tr /\
       cc_ReplicaIdx m = i /\ cc_Normal m = true /\ cc_ViewId m = c_viewHint (k_c s)) /\
  (c_paused (k_c s) = false -> c_pauseView (k_c s) <= c_activeView (k_c s)) /\
  (c_paused (k_c s) = true -> c_activeView (k_c s) < c_pauseView (k_c s)) /\
  forall evs s', client_step s evs s' ->
    c_viewHint (k_c s) <= c_viewHint (k_c s') /\ c_pauseView (k_c s) <= c_pauseView (k_c s') /\
    c_activeView (k_c s) <= c_activeView (k_c s').
Proof.
  intros Hst Hrun. destruct (run_invs _ _ _ _ _ _ Hst Hrun) as (E & _ & _ & Hp & _).
  split; [|split; [apply (pi_active _ _ Hp)|split; [apply (pi_paused _ _ Hp)|]]].
  - intros Hne. destruct (pi_hint _ _ Hp Hne) as (q & Hq). rewrite E in Hq. by exists q.
  - intros evs s' Hs. destruct (client_views_step _ _ _ _ Hp Hs) as (? & ? & ? & _). done.
Qed.

(** the run of [second_commit] up to the new view's hint *)
Definition hinted : list action := take 20 second_commit.

Lemma hinted_run : exists tr s, client_run start7 tr s /\ c_viewHint (k_c s) = 1.
Proof.
  destruct (client_execs start7 hinted) as [[tr s]|] eqn:E; [|by vm_compute in E].
  exists tr, s. split; [exact (client_execs_sound _ _ _ _ E)|].
  assert (option_map (fun r => c_viewHint (k_c r.2)) (client_execs start7 hinted) = Some 1) as H
    by by vm_compute.
  rewrite E in H. clear E. cbn [option_map snd] in H.
  injection H as H. exact H.
Qed.

Theorem views_follow_quorum_witness : exists (q : gset Z) (tr : list event),
  2 <= Z.of_nat (size q) /\ 1 ∈ q /\
  forall i, i ∈ q -> exists m, GotControl m ∈ tr /\ cc_ReplicaIdx m = i /\ cc_ViewId m = 1.
Proof.
  destruct hinted_run as (tr & s & Hrun & Hh).
  destruct (views_follow_quorum sample_config client7 1000000000 100 tr s client7_started Hrun) as [H _].
  rewrite Hh in H. destruct (H ltac:(done)) as (q & Hq & Hl & Hi). exists q, tr.
  split; [exact Hq|]. split; [exact Hl|]. intros i Hiq.
  destruct (Hi i Hiq) as (_ & m & ? & ? & _ & ?). by exists m.
Defined.

(** * The schedule *)

(** C20: whatever a client receives, the windows it keeps are well-formed windows
    of its own, filed under their start, its requests and the intervals it
    submitted are in range, its last arrival is a valid time, and it has one
    control status per replica. *)
Theorem client_well_formed config c wall now tr s :
  started config c -> client_run (client_start c wall now) tr s ->
  (forall start m, c_windows (k_c s) !! start = Some m ->
     hr_StartTime m = start /\ window_ok (window_of (c_clientId c) m)) /\
  (forall start req, k_requests s !! start = Some req ->
     hs_StartTime req = start /\ 0 <= start /\ start + ScheduleWindow config < W64 /\
     interval_ok (hs_IntervalMs req)) /\
  (forall start ivs iv, c_submitted (k_c s) !! start = Some ivs -> iv ∈ ivs -> interval_ok iv) /\
  0 <= k_last s <= MaxInt64 /\ Zlength (c_controlStatus (k_c s)) = cfg_N config.
Proof.
  intros Hst Hrun. destruct (run_invs _ _ _ _ _ _ Hst Hrun) as (E & Eid & _ & Hpa & Hp & _).
  pose proof (pl_windows _ _ Hp) as Hw. unfold windows_ok in Hw. rewrite Eid in Hw.
  split; [exact Hw|]. split; [|split; [apply (pl_submitted _ _ Hp)|split; [apply (pl_last _ _ Hp)|]]].
  - intros start req Hr. destruct (pl_requests _ _ Hp start req Hr) as [? [? ?] ?]. by rewrite <- E.
  - rewrite <- E. apply (pi_length _ _ Hpa).
Qed.

Theorem client_well_formed_witness : exists s,
  is_Some (c_windows (k_c s) !! 1500000000) /\
  forall m, c_windows (k_c s) !! 1500000000 = Some m -> window_ok (window_of 7 m).
Proof.
  destruct (client_execs start7 first_send) as [[tr s]|] eqn:E; [|by vm_compute in E].
  exists s. split.
  - assert (option_map (fun r => c_windows (k_c r.2) !! 1500000000) (client_execs start7 first_send) =
      Some (Some (grant7 0 0 1500000000))) as H by by vm_compute.
    rewrite E in H. clear E. cbn [option_map snd] in H. injection H as H. rewrite H. eauto.
  - destruct (client_well_formed sample_config client7 1000000000 100 tr s client7_started
      (client_execs_sound _ _ _ _ E)) as [H _].
    intros m Hm. exact (proj2 (H _ _ Hm)).
Defined.

(** [nextBusArrival] does not panic on the windows a client keeps and gives
    the earliest arrival it may still send: of a window that is open at [now],
    not paused and not of an older view, later than the last one sent; it
    forgets only windows that are over and have nothing left to send. *)
Theorem nextBusArrival_first c now last :
  windows_ok c -> 0 <= last <= MaxInt64 ->
  exists c' next, nextBusArrival c now last = Some (c', next) /\
    match next with
    | Some t => (exists start m, c_windows c !! start = Some m /\ offered c now last (start, m) t) /\
        forall start m t', c_windows c !! start = Some m -> offered c now last (start, m) t' -> t <= t'
    | None => forall start m t', c_windows c !! start = Some m -> ~ offered c now last (start, m) t'
    end /\
    (forall start m, c_windows c !! start = Some m ->
       c_windows c' !! start = Some m \/
       hr_EndTime m <= now /\ forall t, ~ offered c now last (start, m) t).
Proof.
  intros Hok Hl. destruct (nextBusArrival_spec c now last Hok Hl) as (c' & next & Hn & Hleast & ->).
  eexists _, next. split; [exact Hn|]. split.
  - destruct next as [t|]; cbn in Hleast.
    + destruct Hleast as [([start m] & Hm & Ho) Hle]. split; [by exists start, m|].
      intros start' m' t' Hm' Ho'. by eapply (Hle (start', m')).
    + intros start m t' Hm. by apply (Hleast (start, m)).
  - intros start m Hm. rsimpl. destruct (window_dropped c now last start m) eqn:Ed.
    + right. destruct (Hok start m Hm) as [Hs Hw]. by eapply window_dropped_spec.
    + left. by apply map_lookup_filter_Some.
Qed.

(** a client with two windows, of which the first is over *)
Definition two_windows : Client :=
  client7 <| c_windows := {[1000000000 := grant7 0 0 1000000000; 1250000000 := grant7 0 0 1250000000]} |>.

Theorem nextBusArrival_first_witness : exists c',
  nextBusArrival two_windows 1300000000 1200000000 = Some (c', Some 1250000000).
Proof.
  destruct (nextBusArrival_first two_windows 1300000000 1200000000) as (c' & next & Hn & _ & _).
  - intros k m. unfold two_windows. rsimpl. rewrite lookup_insert_Some, lookup_singleton_Some.
    intros [[<- <-]|[_ [<- <-]]]; (split; [done|]); constructor; by vm_compute.
  - by vm_compute.
  - exists c'. assert (option_map snd (nextBusArrival two_windows 1300000000 1200000000) =
      Some (Some 1250000000)) as H by by vm_compute.
    rewrite Hn in H. cbn in H. injection H as ->. exact Hn.
Defined.

Lemma send_step_open s evs s' msg : client_step s evs s' -> Sent msg ∈ evs ->
  c_paused (k_c s) = false /\ k_pick s = Some (bm_BusSeqNum msg).
Proof.
  intros Hs Hm. destruct Hs; try by apply elem_of_nil in Hm.
  - destruct committed; set_solver.
  - set_solver.
  - set_solver.
  - destruct more; set_solver.
  - apply sendBus_plan in H1 as (_ & _ & _ & _ & _ & _ & H1). rsimpl in H1.
    destruct sent as [msg'|]; [|by apply elem_of_nil in Hm].
    apply list_elem_of_singleton in Hm as [= ->]. destruct H1 as (? & _ & ->). done.
Qed.


Lemma first_send_run : exists tr s msg,
  client_run start7 tr s /\ Sent msg ∈ tr /\ bm_BusSeqNum msg = 1500000000.
Proof.
  destruct (client_execs start7 first_send) as [[tr s]|] eqn:E; [|by vm_compute in E].
  assert (exists msg, option_map (fun r => last r.1) (client_execs start7 first_send) =
    Some (Some (Sent msg)) /\ bm_BusSeqNum msg = 1500000000) as (msg & H & Hs).
  { eexists. split; [vm_compute; reflexivity|done]. }
  exists tr, s, msg. split; [exact (client_execs_sound _ _ _ _ E)|].
  rewrite E in H. clear E. cbn [option_map fst] in H. injection H as H. split; [|exact Hs].
  apply last_Some in H as [l ->]. apply elem_of_app. right. by left.
Qed.


(** * The sender *)

(** C23: the per-connection sender refines a queue: each operation of its buffer,
    wake-up channel and loop is one step of the abstract queue, so it writes
    exactly what was handed to it, in order and once, until a write fails, and
    then drops the rest; and a live sender with something to write is awake. *)
Theorem sender_refines_queue ops :
  let (s, written) := sender_run newConnSender ops in
  queue_ok (enqueued ops) written (abs_sender s) /\
  (cs_dead s = false -> cs_buf s <> [] -> cs_wake s || cs_busy s = true) /\
  forall op, let (s', w) := sender_do s op in
    queue_step (abs_sender s) (enqueued [op]) w (abs_sender s').
Proof.
  destruct newConnSender_ok as [Hi Hq].
  destruct (sender_run_ok newConnSender ops [] [] Hi Hq) as [Hinv Hok].
  destruct (sender_run newConnSender ops) as [s written]. cbn [fst snd app] in *.
  split; [exact Hok|]. split; [apply (sn_wake _ Hinv)|].
  intros op. pose proof (sender_simulation s op Hinv) as H. destruct (sender_do s op). apply H.
Qed.

(** * The client and the replicas *)

Section admission.
Context {TM : Treemap Value}.
Implicit Types r : Replica TM.

(** [m], granted to client [cid], is in the replica's committed schedule *)
Definition committed_window r (cid : Z) (m : HsReply) : Prop :=
  window_of cid m ∈ r_schedule r /\ hr_EndTime m <= r_scheduleCommittedEnd r.

(** an answer to a request for a window that is committed already *)
Lemma request_reply_committed r q lw wall lw' m :
  sched_inv r -> SendHsReply lw' m ∈ (handleHsRequest r q lw wall).2 ->
  lw' = lw /\ committed_window (handleHsRequest r q lw wall).1 (hs_ClientId q) m.
Proof.
  intros _. unfold handleHsRequest. cbv zeta.
  destruct (_ || _ || _); [by intros ?%elem_of_nil|]. destruct (_ || _); [by intros ?%elem_of_nil|].
  destruct (scheduled_reply r q) as [e|] eqn:Ee.
  - cbn [fst snd]. intros [= -> ->]%list_elem_of_singleton. split; [done|].
    unfold scheduled_reply in Ee. apply List.find_some in Ee as [Hin Hb].
    rewrite !andb_true_iff, !Z.eqb_eq, Z.leb_le in Hb. destruct Hb as [[_ Hc] He].
    split; [|exact He]. unfold window_of. cbn. rewrite <- Hc. destruct e. by apply list_elem_of_In.
  - destruct (request_too_late_or_early _ _ _); [by intros ?%elem_of_nil|].
    destruct (_ && _); by intros ?%elem_of_nil.
Qed.

Lemma mapM_entry (p : SchdPrepare) qs entries q : mapM (prepare_entry p) qs = Some entries ->
  q ∈ qs -> exists e, prepare_entry p q = Some e /\ e ∈ entries.
Proof.
  intros H%mapM_Some_1 Hq. apply list_elem_of_lookup_1 in Hq as [i Hi].
  destruct (Forall2_lookup_l _ _ _ _ _ H Hi) as (e & He & Hpe). exists e. split; [done|].
  by eapply list_elem_of_lookup_2.
Qed.

Lemma broadcast_no_reply r code body lw m : SendHsReply lw m ∉ broadcastSchedule r code body.
Proof. unfold broadcastSchedule. intros (j & H & _)%list_elem_of_fmap. done. Qed.

(** the leader answers the clients of a proposal it commits *)
Lemma drive_reply_committed r p mono lw m :
  sched_inv r -> r_scheduleProposal r = Some p -> SendHsReply lw m ∈ (drive_proposal r p mono).2 ->
  exists cid, committed_window (drive_proposal r p mono).1 cid m.
Proof.
  intros Hinv Ep. destruct (sci_proposal _ Hinv p Ep) as (_ & entries & Hm & Hes).
  unfold drive_proposal. cbv zeta. cbn [fst snd].
  destruct (QuorumSize (r_config r) <=? _); cbn [orb negb].
  - intros [Hin|Hin]%elem_of_app; [by apply broadcast_no_reply in Hin|].
    apply list_elem_of_bind in Hin as (q & Hin & Hq).
    unfold answer_waiter in Hin. destruct (_ !! hs_ClientId q); [|by apply elem_of_nil in Hin].
    apply list_elem_of_singleton in Hin as [= -> ->].
    destruct (mapM_entry p _ entries q Hm Hq) as (e & He & Hin). apply Hes in Hin.
    exists (hs_ClientId q). unfold committed_window. rsimpl. cbn. split; [|lia].
    unfold prepare_entry in He. destruct (Z.eqb_spec (hs_StartTime q) (sp_StartTime p)) as [Es|]; [|done].
    injection He as <-. unfold window_of. cbn. by rewrite <- Es.
  - destruct (send_due r mono); cbn [negb]; [|by intros ?%elem_of_nil].
    rewrite app_nil_r. intros Hin. by apply broadcast_no_reply in Hin.
Qed.

Lemma loop_reply_committed r wall wall' mono lw m :
  sched_inv r -> SendHsReply lw m ∈ (scheduleLoop r wall wall' mono).2 ->
  exists cid, committed_window (scheduleLoop r wall wall' mono).1 cid m.
Proof.
  intros Hinv. unfold scheduleLoop. cbv zeta. destruct (_ || _); [by intros ?%elem_of_nil|].
  pose proof (expire_spec r (u64 wall) Hinv) as H1.
  pose proof (propose_spec _ (u64 wall') (ss_inv _ _ H1)) as H2.
  set (r2 := propose _ _) in *. clearbody r2. apply ss_inv in H2.
  destruct (r_scheduleProposal r2) as [p|] eqn:Ep; [by apply drive_reply_committed|].
  unfold repeat_schedule. destruct (_ && _); [|by intros ?%elem_of_nil].
  cbn [snd]. intros Hin. by apply broadcast_no_reply in Hin.
Qed.

(** an arrival of a committed window passes admission *)
Lemma committed_arrival_valid r cid m t :
  sched_inv r -> committed_window r cid m -> t ∈ window_arrivals (window_of cid m) ->
  exists line, r_clients r !! cid = Some line /\
    validSequence line t (r_scheduleCommittedEnd r) = true.
Proof.
  intros Hinv [Hin He] Ht. pose proof (lines_of_ok _ _ (sci_lines r Hinv) (sci_valid r Hinv)) as Hok.
  pose proof (sci_lines r Hinv cid) as Hl. cbv zeta in Hl.
  assert (Hf : window_of cid m ∈ filter (fun w => bs_ClientId w = cid) (r_schedule r))
    by (by apply list_elem_of_filter).
  destruct (r_clients r !! cid) as [line|] eqn:Ec; [|by rewrite Hl in Hf; apply elem_of_nil in Hf].
  exists line. split; [done|]. destruct Hl as (_ & Hws & _). rewrite <- Hws in Hf.
  apply list_elem_of_lookup_1 in Hf as [i Hi].
  pose proof (line_window_ok _ _ _ (Hok _ _ Ec) Hi) as Hw.
  pose proof (window_arrivals_bounds _ _ Hw Ht) as Hb. destruct Hw as [_ Hw0 Hw1 _].
  apply validSequence_spec; [by eapply Hok|lia|]. exists i, (window_of cid m). done.
Qed.

Lemma valid_admitted r cid line t ns :
  r_clients r !! cid = Some line -> validSequence line t (r_scheduleCommittedEnd r) = true -> t <> 0 ->
  (admitLocked r cid t ns).2 <> admitUnsynced /\
  (scheduleActive r = true -> r_dropEvery r = 0 -> (admitLocked r cid t ns).2 = admitted).
Proof.
  intros Hc Hv Ht. unfold admitLocked. rewrite Hc, Hv. rewrite (proj2 (Z.eqb_neq t 0) Ht). cbn [orb negb].
  assert (Hrest : forall r1 l1, scheduleActive r1 = scheduleActive r -> r_dropEvery r1 = r_dropEvery r ->
    let res := (if negb (scheduleActive r1)
       then (r1 <| r_winFenced ::= fun n => add64 n 1 |>, admitFenced)
       else if shouldDrop r1 (if Nat.ltb 0 (length (cl_windows l1))
                              then add64 (countBefore l1 (i64 t) false) 1 else t)
       then (r1 <| r_winDropped ::= fun n => add64 n 1 |>, admitDropped)
       else (observeArrival r1 l1 t ns, admitted)).2 in
    res <> admitUnsynced /\ (scheduleActive r = true -> r_dropEvery r = 0 -> res = admitted)).
  { intros r1 l1 E1 E2. cbv zeta. rewrite E1. destruct (scheduleActive r); cbn [negb]; [|done].
    destruct (shouldDrop r1 _) eqn:Ed; cbn [snd]; [|done]. split; [done|]. intros _ E0.
    unfold shouldDrop in Ed. by rewrite E2, E0 in Ed. }
  destruct (cl_maxSeqSeen line <? t); apply Hrest; done.
Qed.
End admission.

(** a step of the leader that may answer a client *)
Inductive answers {TM : Treemap Value} (r : Replica TM) : Replica TM -> list effect -> Prop :=
| answers_request q lw wall :
    answers r (handleHsRequest r q lw wall).1 (handleHsRequest r q lw wall).2
| answers_loop wall wall' mono :
    answers r (scheduleLoop r wall wall' mono).1 (scheduleLoop r wall wall' mono).2.


