(* ===== verification/DurableProps.v ===== *)
(** Properties of the durable logs and of the state served from them. *)
From stdpp Require Import sorting.
From S2P Require Import Prelude WireBase Wire WireStream Config Lines GlobalOrder State ReplicaState Cursor Log LogSpec LogInv Admission ScheduleProto Merge Gaps Sync ViewChange Recovery FetchLog DurableLog DurableSpec DurableInv Serve LogProps RecoveryProps.

(** * The log as a map *)

Inductive log_op :=
| OpPush (rec : Z * list byte)
| OpWake | OpFlush | OpTick | OpBacklog
| OpRead (lo hi : Z).

Definition log_do (d : durableLog) (op : log_op) : durableLog :=
  match op with
  | OpPush rec => push d rec
  | OpWake => writer_wake d
  | OpFlush => writer_flush d
  | OpTick => writer_tick d
  | OpBacklog => (backlogMax d).1
  | OpRead lo hi => (readRecords d lo hi true).1
  end.

Definition pushed (ops : list log_op) : list (Z * list byte) :=
  omap (fun op => match op with OpPush rec => Some rec | _ => None end) ops.

Definition reads_ok (op : log_op) : Prop :=
  match op with OpRead _ hi => hi < W64 - 1 | _ => True end.

(** everything pushed is either in the file or pending *)
Record log_state (prefix : list byte) (recs : list (Z * list byte)) (d : durableLog) : Prop := {
  ls_done : exists done, recs = done ++ dl_pending d /\ dlog_ok prefix (keep_all None done) d }.

Section log_state.
Context (prefix : list byte) (all : list (Z * list byte)).
Hypothesis Hkeys : keys_ok None all.
Hypothesis Hfits : fits prefix (keep_all None all).

Lemma drain_state recs d : recs `prefix_of` all -> log_state prefix recs d ->
  log_state prefix recs (drain d) /\ dl_pending (drain d) = [] /\
  dlog_ok prefix (keep_all None recs) (drain d).
Proof.
  intros [tl Hall] [(done & Hd & Hok)]. rewrite Hall, Hd in Hkeys, Hfits.
  rewrite <- app_assoc in Hkeys, Hfits. apply keys_ok_app in Hkeys as [_ Hk].
  apply keys_ok_app in Hk as [Hk _].
  unfold keep_all in Hfits. rewrite !foldl_app in Hfits. apply fits_keep_all in Hfits.
  destruct (drain_spec prefix _ d Hok Hk Hfits) as [H1 H2].
  unfold keep_all in H1. rewrite <- foldl_app, <- Hd in H1.
  split; [|done]. constructor. exists recs. by rewrite H2, app_nil_r.
Qed.

Lemma Flush_state recs d : log_state prefix recs d -> log_state prefix recs (Flush d).
Proof.
  intros [(done & Hd & Hok)]. constructor. exists done. split; [unfold Flush; by rsimpl|].
  by apply Flush_spec.
Qed.

Lemma queue_state recs d d' : log_state prefix recs d ->
  d' = d <| dl_pending := dl_pending d' |> <| dl_maxDepth := dl_maxDepth d' |>
         <| dl_wake := dl_wake d' |> -> dl_pending d' = dl_pending d -> log_state prefix recs d'.
Proof.
  intros [(done & Hd & Hok)] E Ep. constructor. exists done. rewrite Ep. split; [done|].
  by eapply dlog_ok_queue.
Qed.

Lemma log_do_state recs d op :
  recs ++ pushed [op] `prefix_of` all -> reads_ok op -> log_state prefix recs d ->
  log_state prefix (recs ++ pushed [op]) (log_do d op).
Proof.
  intros Hall Hr Hs. destruct op as [rec| | | | |lo hi]; cbn [pushed omap list_omap log_do] in *;
    rewrite ?app_nil_r in *.
  - destruct Hs as [(done & Hd & Hok)]. constructor. exists done. unfold push. rsimpl.
    destruct (_ <? _); rsimpl; (split; [by rewrite Hd, app_assoc|]);
      apply (dlog_ok_queue _ _ _ _ Hok); destruct d; reflexivity.
  - unfold writer_wake.
    assert (Hs' : log_state prefix recs (d <| dl_wake := false |>)).
    { apply (queue_state _ _ _ Hs); [destruct d; reflexivity|by rsimpl]. }
    destruct (drain_state _ _ Hall Hs') as (H1 & _ & Hok).
    destruct (do_open _ _ _ Hok) as [_ ->]. done.
  - unfold writer_flush. destruct (drain_state _ _ Hall Hs) as (H1 & _). by apply Flush_state.
  - by apply Flush_state.
  - cbn. apply (queue_state _ _ _ Hs); [destruct d; reflexivity|by rsimpl].
  - destruct (decide (lo <= hi)).
    2:{ unfold readRecords. by rewrite (proj2 (Z.ltb_lt _ _)) by lia. }
    destruct Hs as [(done & Hd & Hok)]. destruct Hall as [tl Hall]. rewrite Hall, Hd in Hkeys, Hfits.
    rewrite <- app_assoc in Hkeys, Hfits. apply keys_ok_app in Hkeys as [_ Hk].
    apply keys_ok_app in Hk as [Hk _].
    unfold keep_all in Hfits. rewrite !foldl_app in Hfits. apply fits_keep_all in Hfits.
    pose proof (readRecords_spec prefix _ d lo hi Hok Hk Hfits Hr ltac:(lia)) as H. cbv zeta in H.
    destruct (readRecords d lo hi true) as [d' out]. destruct H as (Hok' & Hp & _).
    unfold keep_all in Hok'. rewrite <- foldl_app, <- Hd in Hok'. cbn [fst].
    constructor. exists recs. by rewrite Hp, app_nil_r.
Qed.

Lemma log_run_state ops recs d :
  recs ++ pushed ops `prefix_of` all -> Forall reads_ok ops -> log_state prefix recs d ->
  log_state prefix (recs ++ pushed ops) (foldl log_do d ops).
Proof.
  revert recs d. induction ops as [|op ops IH]; intros recs d Hall Hr Hs.
  { cbn. by rewrite app_nil_r. }
  apply Forall_cons in Hr as [Hr Hrs].
  assert (E : pushed (op :: ops) = pushed [op] ++ pushed ops) by (unfold pushed; by rewrite <- omap_app).
  rewrite E, app_assoc in Hall |- *. cbn [foldl]. apply IH; [done|done|].
  apply log_do_state; [|done|done]. etransitivity; [|exact Hall]. by apply prefix_app_r.
Qed.
End log_state.

Lemma open_state prefix : Zlength prefix <= MaxInt64 -> log_state prefix [] (openDurableLog prefix).
Proof. intros H. constructor. exists []. split; [done|]. by apply openDurableLog_ok. Qed.


(** three slots, of which the second is pushed again after a rewind *)
Definition pushes3 : list (Z * list byte) :=
  [(5, busRecordBody 5 1 20 [0; 1] false); (6, busRecordBody 6 1 30 [] true);
   (7, busRecordBody 7 2 40 [2] false); (6, busRecordBody 6 1 30 [2] false)].
Definition ops3 : list log_op :=
  match pushes3 with
  | [a; b; c; e] => [OpPush a; OpPush b; OpWake; OpRead 5 6; OpPush c; OpTick; OpPush e]
  | _ => []
  end.

Lemma pushes3_ok : keys_ok None (pushed ops3).
Proof.
  cbn [pushed ops3 pushes3 omap list_omap keys_ok]. unfold key_ok.
  split_and!; try done; try (cbn; lia);
    (apply busRecordBody_line; repeat constructor; cbn; lia).
Qed.


(** * Slots read from disk *)

Definition bus_entry (b : busRecord) : Z * list byte :=
  (br_slot b, busRecordBody (br_slot b) (br_clientId b) (br_busSeq b) (br_logIdxs b) (br_noop b)).
Definition req_entry (q : reqRecord) : Z * list byte :=
  (qr_logIndex q, reqListRecordBody (qr_logIndex q) (qr_clientId q) (qr_reqId q) (qr_op q)).

Definition bus_wf (b : busRecord) : Prop :=
  is_u64 (br_slot b) /\ is_u64 (br_clientId b) /\ is_u64 (br_busSeq b) /\
  Forall (fun li => 0 <= li < W64 - 1) (br_logIdxs b).
Definition req_wf (q : reqRecord) : Prop :=
  is_u64 (qr_logIndex q) /\ is_u64 (qr_clientId q) /\ is_u64 (qr_reqId q) /\ is_u64 (Zlength (qr_op q)).

(** the log holds what the replica appended to it *)
Record holds (d : durableLog) (recs : list (Z * list byte)) : Prop := {
  ho_prefix : exists prefix, log_state prefix recs d /\ keys_ok None recs /\ fits prefix (keep_all None recs) }.

Lemma holds_read d recs lo hi : holds d recs -> lo <= hi -> hi < W64 - 1 ->
  let (d', out) := readRecords d lo hi true in
  holds d' recs /\ forall k, out !! k = read_spec (keep_all None recs) lo hi k.
Proof.
  intros [(prefix & [(done & Hd & Hok)] & Hk & Hf)] Hlo Hhi.
  pose proof Hk as Hk1. pose proof Hf as Hf1. rewrite Hd in Hk1, Hf1.
  apply keys_ok_app in Hk1 as [_ Hk1]. unfold keep_all in Hf1. rewrite foldl_app in Hf1.
  pose proof (readRecords_spec prefix _ d lo hi Hok Hk1 Hf1 Hhi Hlo) as H. cbv zeta in H.
  destruct (readRecords d lo hi true) as [d' out]. destruct H as (Hok' & Hp' & H).
  unfold keep_all in *. rewrite <- foldl_app, <- Hd in Hok', H.
  split; [|exact H]. constructor. exists prefix. split_and!; [|done|done].
  constructor. exists recs. by rewrite Hp', app_nil_r.
Qed.

Lemma foldl_min_spec l x : foldl Z.min x l <= x /\ Forall (fun y => foldl Z.min x l <= y) l.
Proof.
  revert x. induction l as [|y l IH]; intros x; cbn; [split; [lia|constructor]|].
  destruct (IH (Z.min x y)) as [H1 H2]. split; [lia|]. constructor; [lia|done].
Qed.
Lemma foldl_max_spec l x : x <= foldl Z.max x l /\ Forall (fun y => y <= foldl Z.max x l) l.
Proof.
  revert x. induction l as [|y l IH]; intros x; cbn; [split; [lia|constructor]|].
  destruct (IH (Z.max x y)) as [H1 H2]. split; [lia|]. constructor; [lia|done].
Qed.
Lemma foldl_max_bound l x n : x < n -> Forall (fun y => y < n) l -> foldl Z.max x l < n.
Proof. intros Hx Hl. revert x Hx. induction Hl; intros; cbn; [done|]. apply IHHl. lia. Qed.
Lemma foldl_min_bound l x n : n <= x -> Forall (fun y => n <= y) l -> n <= foldl Z.min x l.
Proof. intros Hx Hl. revert x Hx. induction Hl; intros; cbn; [done|]. apply IHHl. lia. Qed.

(** the requests a bus record names, as the request log has them *)
Lemma readRequests_spec durable d reqs idxs out :
  holds d (req_entry <$> reqs) ->
  Forall2 (fun li q => alog_get (keep_all None (req_entry <$> reqs)) li = Some (req_entry q).2 /\ req_wf q)
    idxs out -> Forall (fun li => 0 <= li < W64 - 1) idxs ->
  (readRequestsFromDisk (mkdisk durable (Some d)) idxs).2 =
    Some ((fun q => mkRequestMessage (qr_clientId q) (qr_reqId q) 0 (qr_op q)) <$> out).
Proof.
  intros Hd Hout Hidx. unfold readRequestsFromDisk. cbn [dk_reqListLog].
  destruct idxs as [|first idxs]; [apply Forall2_nil_inv_l in Hout; by subst out|].
  unfold index_bounds. set (l := first :: idxs) in *.
  destruct (foldl_min_spec l first) as [Hmin Hmin']. destruct (foldl_max_spec l first) as [Hmax Hmax'].
  set (lo := foldl Z.min first l) in *. set (hi := foldl Z.max first l) in *.
  assert (Hhi : hi < W64 - 1).
  { apply foldl_max_bound; [by apply Forall_cons in Hidx as [[_ ?] _]|].
    eapply Forall_impl; [exact Hidx|]. cbn. lia. }
  pose proof (holds_read d _ lo hi Hd ltac:(lia) Hhi) as H.
  destruct (readRecords d lo hi true) as [d' bodies]. destruct H as [_ Hb]. cbn [snd].
  assert (Hin : forall li, li ∈ l -> lo <= li <= hi).
  { intros li Hli. rewrite Forall_forall in Hmin', Hmax'. split; [by apply Hmin'|by apply Hmax']. }
  assert (Hget : forall li body, li ∈ l -> alog_get (keep_all None (req_entry <$> reqs)) li = Some body ->
            bodies !! li = Some body).
  { intros li body Hli Hg. rewrite Hb. unfold read_spec, alog_get in *.
    destruct (keep_all None _) as [[f bs]|]; [|done].
    assert (f <= lo).
    { assert (Hf : forall x, x ∈ l -> f <= x).
      { intros x Hx. apply list_elem_of_lookup_1 in Hx as [i Hi].
        destruct (Forall2_lookup_l _ _ _ _ _ Hout Hi) as (q & _ & Hq & _).
        destruct (Z.ltb_spec x f); [done|lia]. }
      apply foldl_min_bound; [apply Hf; left|by apply Forall_forall]. }
    rewrite decide_True by (specialize (Hin li Hli); lia). done. }
  clear -Hout Hget. apply mapM_Some. rewrite Forall2_fmap_r. clearbody l.
  induction Hout as [|li q idxs' out' [Hq (H1 & H2 & H3 & H4)] Hout IH]; [constructor|].
  constructor; [|apply IH; intros li' body Hli'; apply Hget; by right].
  unfold disk_request. rewrite (Hget li _ ltac:(left) Hq). cbn [mbind option_bind req_entry snd].
  rewrite reqListRecordBody_parse by done. cbn [mbind option_bind qd_Op].
  by rewrite DecodeString_Encode.
Qed.


Lemma holds_pushed prefix recs :
  keys_ok None recs -> fits prefix (keep_all None recs) -> Zlength prefix <= MaxInt64 ->
  holds (foldl push (openDurableLog prefix) recs) recs.
Proof.
  intros Hk Hf Hp. constructor. exists prefix. split; [|done].
  assert (E : forall l, pushed (OpPush <$> l) = l).
  { induction l as [|x l IH]; [done|]. cbn. by f_equal. }
  assert (F : forall l d, foldl log_do d (OpPush <$> l) = foldl push d l).
  { induction l as [|x l IH]; intros d; [done|]. cbn. apply IH. }
  pose proof (log_run_state prefix recs Hk Hf (OpPush <$> recs) [] (openDurableLog prefix)) as H.
  rewrite F, E in H. apply H; [done| |by apply open_state].
  by apply Forall_fmap, Forall_true.
Qed.

(** a replica with logs executed a bus, a bus that repeats a request, and a no-op *)
#[local] Instance disk_store : Treemap Value := gmap_Treemap Value.

Definition logged : Replica disk_store :=
  let r := NewReplica (mkConfig 3 1 2 250 []) 0 true dropNone 0 0 (mkRecoveryOptions 0 0 0 0 0 4 0) in
  let r := (recordBusReceived r 0 1 10 [mkRequestMessage 1 1 0 [x00]; mkRequestMessage 2 1 0 [x01; x02]]).1 in
  let r := (recordBusReceived r 1 2 11 [mkRequestMessage 1 1 0 [x00]]).1 in
  advance_loop 3 (setNoOp r 2).1.
Definition logged_buses : list busRecord := default [] (r_durable logged).
Definition logged_reqs : list reqRecord := default [] (r_reqListLog logged).
Definition logged_disk : disk :=
  mkdisk (Some (foldl push_bus (openDurableLog []) logged_buses))
         (Some (foldl push_req (openDurableLog []) logged_reqs)).

Lemma foldl_entries {A} (f : A -> Z * list byte) d (l : list A) :
  foldl (fun d x => push d (f x)) d l = foldl push d (f <$> l).
Proof. revert d. induction l as [|x l IH]; intros d; [done|]. cbn. apply IH. Qed.

Lemma logged_buses_eq : logged_buses =
  [mkbusRecord 0 1 10 [0; 1] false; mkbusRecord 1 2 11 [2] false; mkbusRecord 2 0 0 [] true].
Proof. by vm_compute. Qed.
Lemma logged_reqs_eq : logged_reqs =
  [mkreqRecord 0 1 1 [x00]; mkreqRecord 1 2 1 [x01; x02]; mkreqRecord 2 1 1 [x00]].
Proof. by vm_compute. Qed.

Lemma logged_buses_hold :
  holds (foldl push_bus (openDurableLog []) logged_buses) (bus_entry <$> logged_buses).
Proof.
  change (foldl push_bus) with (foldl (fun d x => push d (bus_entry x))). rewrite foldl_entries.
  apply holds_pushed; [|by vm_compute|by vm_compute]. rewrite logged_buses_eq.
  cbn [fmap list_fmap keys_ok bus_entry br_slot br_clientId br_busSeq br_logIdxs br_noop].
  unfold key_ok. split_and!; try done; try (cbn; lia);
    (apply busRecordBody_line; repeat constructor; cbn; lia).
Qed.

Lemma logged_reqs_hold :
  holds (foldl push_req (openDurableLog []) logged_reqs) (req_entry <$> logged_reqs).
Proof.
  change (foldl push_req) with (foldl (fun d x => push d (req_entry x))). rewrite foldl_entries.
  apply holds_pushed; [|by vm_compute|by vm_compute]. rewrite logged_reqs_eq.
  cbn [fmap list_fmap keys_ok req_entry qr_logIndex qr_clientId qr_reqId qr_op].
  unfold key_ok. split_and!; try done; try (cbn; lia); (apply reqListRecordBody_line; cbn; lia).
Qed.


(** * A slot executed again *)

(** slot 0 is executed as a no-op, rewound and cleared by a recovery, received as
    a bus and executed again *)
Definition replaced : Replica disk_store :=
  let r := NewReplica (mkConfig 3 1 2 250 []) 0 true dropNone 0 0 (mkRecoveryOptions 0 0 0 0 0 4 0) in
  let r := (advanceNextExpectedOne (setNoOp r 0).1).1 in
  let r := clearSlot (rewindTo r 0).1 0 in
  (advanceNextExpectedOne (recordBusReceived r 0 1 10 [mkRequestMessage 1 1 0 [x00]]).1).1.

(** The log keeps the record of the first execution: the slot the replica has
    executed as a bus is served from disk as a no-op. *)
Theorem stale_record_served :
  slotState_of replaced 0 = slotReceived /\ r_nextExpected replaced = 1 /\
  (readSlotFromDisk
     (mkdisk (Some (foldl push_bus (openDurableLog []) (default [] (r_durable replaced))))
             (Some (foldl push_req (openDurableLog []) (default [] (r_reqListLog replaced))))) 0).2
  = Some (mkStateEntry 0 0 0 false true []).
Proof. split_and!; by vm_compute. Qed.

(** * A fetch and the replica that serves it: what [serveState] answers to a request
    of [runFetch] is accepted by the fetch loop that made it. *)

Section serving.
Context {TM : Treemap Value}.
Implicit Types r p : Replica TM.

(** * What is asked *)

(** the slots of a request: none for the whole range, else ascending within the
    range, whose last slot ends it *)
Definition slots_ok (s to : Z) (slots : list Z) : Prop :=
  StronglySorted Z.lt slots /\ (forall x, x ∈ slots -> s <= x <= to) /\ (slots <> [] -> to ∈ slots).

Lemma last_default (y : Z) t d d' : List.last (y :: t) d = List.last (y :: t) d'.
Proof. revert y. induction t as [|z t IH]; intros y; [done|]. exact (IH z). Qed.

Lemma last_sorted x (t : list Z) : StronglySorted Z.lt (x :: t) ->
  List.last t x ∈ x :: t /\ forall y, y ∈ x :: t -> x <= y <= List.last t x.
Proof.
  revert x. induction t as [|y t IH]; intros x Hs.
  { cbn. split; [left|]. intros y Hy%list_elem_of_singleton. lia. }
  inversion Hs as [|? ? Ht Hx]; subst. destruct (IH y Ht) as [H1 H2].
  assert (E : List.last (y :: t) x = List.last t y) by (destruct t as [|z t]; [done|exact (last_default z t x y)]).
  rewrite E. split; [by right|]. rewrite Forall_forall in Hx. intros z [->|Hz]%elem_of_cons.
  - pose proof (Hx _ H1). lia.
  - pose proof (Hx _ Hz). specialize (H2 _ Hz). lia.
Qed.

Lemma fetch_ask_slots r q next s to slots :
  fetch_wf q -> 0 <= next -> fetch_ask r q next = FetchAsk s to slots -> slots_ok s to slots.
Proof.
  intros Hq Hn. unfold fetch_ask. destruct (Z.ltb_spec (fq_to q) next) as [|Hle]; [done|].
  destruct (negb _); [done|]. destruct (_ || _).
  - rewrite missingFetchSlots_candidates by (done || lia).
    assert (Hl : StronglySorted Z.lt (filter (fun s => wanted r s = true) (candidates q next)))
      by (by apply filter_sorted, candidates_sorted).
    rewrite <- (take_drop (Z.to_nat stateFetchSlots)) in Hl. apply StronglySorted_app_1_l in Hl.
    destruct (take _ _) as [|x t]; [done|]. intros [= <- <- <-].
    destruct (last_sorted x t Hl) as [H1 H2]. done.
  - intros [= <- <- <-]. split; [constructor|]. split; [|done]. intros x Hx. by apply elem_of_nil in Hx.
Qed.

(** the reply's entries pass [runFetch]'s check of the slots asked for *)
Lemma search_asked (slots : list Z) x : StronglySorted Z.lt slots -> x ∈ slots ->
  slots !! Search (length slots)
    (fun i => match slots !! i with Some s => x <=? s | None => false end) = Some x.
Proof.
  intros Hs Hx. pose proof (search_filter slots x Hs) as E. set (i := Search _ _) in *.
  assert (H0 : slots !! i = filter (fun s => x <= s) slots !! 0%nat).
  { rewrite <- E, lookup_drop. f_equal. lia. }
  assert (Hx' : x ∈ filter (fun s => x <= s) slots) by (by apply list_elem_of_filter).
  assert (Hf : StronglySorted Z.lt (filter (fun s => x <= s) slots)) by (by apply filter_sorted).
  rewrite H0. destruct (filter _ slots) as [|y l] eqn:El; [by apply elem_of_nil in Hx'|].
  cbn. f_equal. assert (Hy : y ∈ filter (fun s => x <= s) slots) by (rewrite El; left).
  apply list_elem_of_filter in Hy as [Hy _]. apply elem_of_cons in Hx' as [->|Hl]; [done|].
  inversion Hf as [|? ? _ Hall]; subst. rewrite Forall_forall in Hall. specialize (Hall _ Hl). lia.
Qed.

(** * What is served *)

Lemma readSlot_slot p k slot p' k' e : readSlot p k slot = (p', k', Some e) -> se_Slot e = slot.
Proof.
  assert (Hd : forall k k' e, readSlotFromDisk k slot = (k', Some e) -> se_Slot e = slot).
  { clear. intros k k' e. unfold readSlotFromDisk. destruct (dk_durable k); [|done].
    destruct (readRecords _ _ _ _) as [d' b]. destruct (b !! slot); [|done].
    destruct (Unmarshal_disk _); [|done]. destruct (dr_Pending _); [done|].
    destruct (dr_NoOp _); [by intros [= <- <-]|]. destruct (dr_Bus _); [|done].
    destruct (readRequestsFromDisk _ _) as [k1 [reqs|]]; [|done]. cbn. by intros [= <- <-]. }
  assert (Hr : (if (slot <? r_prunedBelow p) && r_haveStable p && (slot <=? r_stableSlot p)
                then let (k, ent) := readSlotFromDisk k slot in (p, k, ent)
                else (p, k, None)) = (p', k', Some e) -> se_Slot e = slot).
  { destruct (_ && _); [|done]. destruct (readSlotFromDisk k slot) as [k1 [e1|]] eqn:E; [|done].
    intros [= _ <- <-]. by eapply Hd. }
  unfold readSlot. destruct (r_globalLog p !! slot) as [ge|]; [|exact Hr].
  destruct (bool_decide _); [|exact Hr]. destruct (entryOwner p slot ge) as [p1 o].
  destruct (if bool_decide (ge_state ge = slotNoOp) then _ else _) as [payload isBus].
  by intros [= _ _ <-].
Qed.

Definition full (sv : serving) : Prop :=
  stateChunkBytes <= sv_size sv \/ MaxStateEntries <= Zlength (sv_entries sv).

(** one slot looked at *)
Definition serve_turn p k slot (sv : serving) : Replica TM * disk * serving :=
  let '(p, k, ent) := readSlot p k slot in
  let sv := match ent with
           | Some ent => mkserving (sv_entries sv ++ [ent])
               (sv_size sv + Zlength (se_Payload ent) + stateEntryOverhead) (sv_last sv)
           | None => sv
           end in
  (p, k, mkserving (sv_entries sv) (sv_size sv) slot).

Lemma serve_turn_spec p k slot sv p' k' sv' :
  serve_turn p k slot sv = (p', k', sv') ->
  sv_last sv' = slot /\ exists es : list StateEntry, sv_entries sv' = sv_entries sv ++ es /\
    (length es <= 1)%nat /\ Forall (fun e => se_Slot e = slot) es.
Proof.
  unfold serve_turn. destruct (readSlot p k slot) as [[p1 k1] ent] eqn:Er.
  intros [= <- <- <-]. split; [done|]. destruct ent as [e|]; cbn.
  - exists [e]. split; [done|]. split; [cbn; lia|]. repeat constructor. by eapply readSlot_slot.
  - exists []. rewrite app_nil_r. split; [done|]. split; [cbn; lia|constructor].
Qed.

(** the next slot of the range or of the list *)
Definition next_slot (req : BusGetState) (slot : Z) (rest : list Z) : option (Z * list Z) :=
  if Nat.ltb 0 (length (gs_Slots req))
  then match rest with [] => None | slot :: rest => Some (slot, rest) end
  else Some (slot, rest).

Lemma serve_loop_S fuel p k req slot rest sv :
  serve_loop (S fuel) p k req slot rest sv =
  if gs_ToSlot req <? slot then (p, k, sv) else
  match next_slot req slot rest with
  | None => (p, k, sv)
  | Some (slot, rest) =>
      let '(p, k, sv) := serve_turn p k slot sv in
      if (stateChunkBytes <=? sv_size sv) || (MaxStateEntries <=? Zlength (sv_entries sv)) ||
         (slot =? gs_ToSlot req)
      then (p, k, sv) else serve_loop fuel p k req (add64 slot 1) rest sv
  end.
Proof.
  cbn [serve_loop]. destruct (_ <? _); [done|]. fold (next_slot req slot rest).
  destruct (next_slot req slot rest) as [[s l]|]; [|done]. unfold serve_turn.
  by destruct (readSlot p k s) as [[p1 k1] [e|]].
Qed.

(** what is left of the request, and the turns it takes *)
Definition rest_ok (req : BusGetState) (slot : Z) (rest : list Z) : Prop :=
  gs_Slots req <> [] -> StronglySorted Z.lt rest /\ forall x, x ∈ rest -> slot <= x <= gs_ToSlot req.
Definition turns_left (req : BusGetState) (slot : Z) (rest : list Z) (fuel : nat) : Prop :=
  if Nat.ltb 0 (length (gs_Slots req)) then (length rest < fuel)%nat /\ gs_ToSlot req ∈ rest
  else slot <= gs_ToSlot req /\ gs_ToSlot req - slot < Z.of_nat fuel.

Lemma next_slot_spec req slot rest s l :
  0 <= slot <= gs_ToSlot req -> gs_ToSlot req < W64 - 1 -> rest_ok req slot rest ->
  next_slot req slot rest = Some (s, l) ->
  slot <= s <= gs_ToSlot req /\ rest_ok req (s + 1) l /\
  (gs_Slots req <> [] -> rest = s :: l) /\
  (forall fuel, turns_left req slot rest (S fuel) -> s <> gs_ToSlot req -> turns_left req (s + 1) l fuel).
Proof.
  intros Hs Hto Hr. unfold next_slot, turns_left. destruct (gs_Slots req) as [|x0 xs] eqn:El; cbn [length].
  - change (Nat.ltb 0 0) with false. cbn iota. intros [= <- <-]. split; [lia|].
    split; [by intros H; rewrite El in H|]. split; [done|]. intros fuel. lia.
  - change (Nat.ltb 0 (S _)) with true. cbn iota. destruct rest as [|x rest]; [done|]. intros [= -> ->].
    destruct (Hr ltac:(by rewrite El)) as [Hsort Hin]. inversion Hsort as [|? ? Hl Hx]; subst.
    rewrite Forall_forall in Hx. pose proof (Hin s ltac:(left)). split; [lia|].
    split; [intros _; split; [done|]; intros y Hy; specialize (Hx y Hy); specialize (Hin y ltac:(by right)); lia|].
    split; [done|]. intros fuel [Hf Hm] Hne. cbn [length] in Hf. split; [lia|].
    apply elem_of_cons in Hm as [Hm|Hm]; [congruence|done].
Qed.

Lemma serve_loop_spec fuel : forall p k req slot rest sv p' k' sv',
  serve_loop fuel p k req slot rest sv = (p', k', sv') ->
  0 <= slot -> gs_ToSlot req < W64 - 1 -> Zlength (sv_entries sv) < MaxStateEntries ->
  rest_ok req slot rest ->
  exists es : list StateEntry, sv_entries sv' = sv_entries sv ++ es /\
    Zlength (sv_entries sv') <= MaxStateEntries /\
    StronglySorted Z.lt (se_Slot <$> es) /\
    Forall (fun e => slot <= se_Slot e <= sv_last sv' /\
                     (gs_Slots req <> [] -> se_Slot e ∈ rest)) es /\
    (sv_last sv' = sv_last sv /\ es = [] \/ slot <= sv_last sv' <= gs_ToSlot req) /\
    (turns_left req slot rest fuel -> sv_last sv' = gs_ToSlot req \/ full sv').
Proof.
  assert (Hstop : forall (p : Replica TM) (k : disk) req slot rest sv (p' : Replica TM) (k' : disk) sv' fuel,
    (p, k, sv) = (p', k', sv') -> Zlength (sv_entries sv) < MaxStateEntries ->
    ~ turns_left req slot rest fuel ->
    exists es : list StateEntry, sv_entries sv' = sv_entries sv ++ es /\
    Zlength (sv_entries sv') <= MaxStateEntries /\ StronglySorted Z.lt (se_Slot <$> es) /\
    Forall (fun e => slot <= se_Slot e <= sv_last sv' /\ (gs_Slots req <> [] -> se_Slot e ∈ rest)) es /\
    (sv_last sv' = sv_last sv /\ es = [] \/ slot <= sv_last sv' <= gs_ToSlot req) /\
    (turns_left req slot rest fuel -> sv_last sv' = gs_ToSlot req \/ full sv')).
  { intros ?????????? [= <- <- <-] ??. exists []. rewrite app_nil_r.
    split_and!; try done; [lia|constructor|by left]. }
  induction fuel as [|fuel IH]; intros p k req slot rest sv p' k' sv' E Hs Hto Hn Hrest.
  { eapply Hstop; [exact E|done|]. unfold turns_left. destruct (Nat.ltb _ _); lia. }
  rewrite serve_loop_S in E.
  destruct (Z.ltb_spec (gs_ToSlot req) slot) as [Hlt|Hle].
  { eapply Hstop; [exact E|done|]. unfold turns_left. destruct (Nat.ltb_spec 0 (length (gs_Slots req))); [|lia].
    intros [_ Hm]. destruct (Hrest ltac:(by destruct (gs_Slots req); [cbn in *; lia|])) as [_ Hin].
    specialize (Hin _ Hm). lia. }
  destruct (next_slot req slot rest) as [[s l]|] eqn:En.
  2:{ eapply Hstop; [exact E|done|]. unfold next_slot in En. unfold turns_left.
      destruct (Nat.ltb _ _); [|done]. destruct rest; [|done]. intros [_ Hm]. by apply elem_of_nil in Hm. }
  destruct (next_slot_spec req slot rest s l ltac:(lia) Hto Hrest En) as (Hb & Hr & Hl & Ht).
  destruct (serve_turn p k s sv) as [[p1 k1] sv1] eqn:Et.
  destruct (serve_turn_spec _ _ _ _ _ _ _ Et) as (Elast & es0 & Ees & Hlen & Hes).
  assert (Hin0 : Forall (fun e => slot <= se_Slot e <= s /\ (gs_Slots req <> [] -> se_Slot e ∈ rest)) es0).
  { eapply Forall_impl; [exact Hes|]. cbn. intros e ->. split; [lia|]. intros Hne. rewrite (Hl Hne). left. }
  destruct (_ || _) eqn:Estop.
  - injection E as <- <- <-. exists es0. split; [done|].
    split; [rewrite Ees, length_app; lia|].
    split; [destruct es0 as [|e [|]]; [constructor|repeat constructor|cbn in Hlen; lia]|].
    rewrite Elast. split; [done|]. split; [right; lia|]. intros _. unfold full.
    rewrite !orb_true_iff, !Z.leb_le, Z.eqb_eq in Estop. tauto.
  - rewrite !orb_false_iff, !Z.leb_gt, Z.eqb_neq in Estop. destruct Estop as [[Hsz Hcnt] Hne].
    assert (Ea : add64 s 1 = s + 1) by (unfold add64; apply u64_small; word_lia). rewrite Ea in E.
    destruct (IH _ _ _ _ _ _ _ _ _ E ltac:(lia) Hto Hcnt Hr) as (es & E1 & H1 & H2 & H3 & H4 & H5).
    assert (Hge : s <= sv_last sv') by (destruct H4 as [[-> _]|?]; lia).
    exists (es0 ++ es). split; [by rewrite E1, Ees, app_assoc|]. split; [done|]. split.
    { destruct es0 as [|e [|]]; [done| |cbn in Hlen; lia]. cbn. constructor; [done|].
      apply Forall_cons in Hes as [He _]. rewrite Forall_fmap. eapply Forall_impl; [exact H3|]. cbn. lia. }
    split.
    { apply Forall_app. split.
      - eapply Forall_impl; [exact Hin0|]. cbn. intros e [? ?]. split; [lia|done].
      - eapply Forall_impl; [exact H3|]. cbn. intros e [? Hm]. split; [lia|]. intros Hq.
        rewrite (Hl Hq). right. auto. }
    split; [right; destruct H4 as [[-> _]|?]; lia|]. intros Hturns. apply H5. by apply Ht.
Qed.

(** ** The size of a reply, and what serving leaves alone *)

Definition entry_bytes (e : StateEntry) : Z := Zlength (se_Payload e) + stateEntryOverhead.
Definition entries_bytes (es : list StateEntry) : Z := foldr (fun e n => entry_bytes e + n) 0 es.

Lemma entries_bytes_app l e : entries_bytes (l ++ [e]) = entries_bytes l + entry_bytes e.
Proof. unfold entries_bytes. induction l as [|x l IH]; cbn; [lia|]. rewrite IH. lia. Qed.

Lemma readSlot_idx p k slot : r_idx (readSlot p k slot).1.1 = r_idx p.
Proof.
  assert (Hd : forall b : bool, r_idx (if b then let (k, ent) := readSlotFromDisk k slot in (p, k, ent)
                              else (p, k, None)).1.1 = r_idx p).
  { intros []; [|done]. by destruct (readSlotFromDisk k slot). }
  unfold readSlot. destruct (r_globalLog p !! slot) as [e|]; [|apply Hd].
  destruct (bool_decide _); [|apply Hd]. pose proof (entryOwner_frame p slot e) as H.
  destruct (entryOwner p slot e) as [p1 o].
  destruct (if bool_decide (ge_state e = slotNoOp) then _ else _). cbn in *. destruct H as (? & ? & ? & ->).
  by rsimpl.
Qed.

Lemma serve_loop_keeps fuel : forall p k req slot rest sv p' k' sv',
  serve_loop fuel p k req slot rest sv = (p', k', sv') -> sv_size sv = entries_bytes (sv_entries sv) ->
  r_idx p' = r_idx p /\ sv_size sv' = entries_bytes (sv_entries sv').
Proof.
  induction fuel as [|fuel IH]; intros p k req slot rest sv p' k' sv' E Hs.
  { by injection E as <- <- <-. }
  rewrite serve_loop_S in E. destruct (_ <? _); [by injection E as <- <- <-|].
  destruct (next_slot req slot rest) as [[s l]|]; [|by injection E as <- <- <-].
  unfold serve_turn in E. pose proof (readSlot_idx p k s) as Hi.
  destruct (readSlot p k s) as [[p1 k1] ent]. cbn in Hi.
  set (sv1 := mkserving _ _ _) in E.
  assert (H1 : sv_size sv1 = entries_bytes (sv_entries sv1)).
  { unfold sv1. destruct ent; cbn; [|done]. rewrite entries_bytes_app, Hs. unfold entry_bytes. lia. }
  destruct (_ || _); [by injection E as <- <- <-|].
  destruct (IH _ _ _ _ _ _ _ _ _ E H1) as [-> ?]. done.
Qed.

(** * A round of a fetch *)

(** the request [fetch_send] sends *)
Definition fetch_req r (q : fetchReq) (s to : Z) (slots : list Z) : BusGetState :=
  {| gs_ViewId := fq_view q; gs_FromSlot := s; gs_ToSlot := to; gs_FetchId := fq_fetchID q;
     gs_SenderIdx := u32 (r_idx r); gs_Slots := slots |}.

Definition reply_full (m : BusNewState) : Prop :=
  stateChunkBytes <= entries_bytes (ns_Entries m) \/ MaxStateEntries <= Zlength (ns_Entries m).

Lemma slots_ok_ascend s to slots : slots_ok s to slots -> slots_ascend s to None slots = true.
Proof.
  intros (Hs & Hin & _).
  assert (H : forall prev, match prev with Some x => Forall (Z.lt x) slots | None => True end ->
                           slots_ascend s to prev slots = true); [|by apply (H None)].
  induction Hs as [|x l Hl IH Hx]; intros prev Hp; [done|]. cbn [slots_ascend].
  rewrite IH; [|intros y Hy; apply Hin; by right|done]. rewrite andb_true_r.
  pose proof (Hin x ltac:(left)). rewrite (proj2 (Z.ltb_ge x s)), (proj2 (Z.ltb_ge to x)) by lia.
  destruct prev as [y|]; [|done]. apply Forall_cons in Hp as [Hp _]. cbn.
  by rewrite (proj2 (Z.leb_gt _ _)) by lia.
Qed.

Lemma entries_ok_sorted m q es : StronglySorted Z.lt (se_Slot <$> es) ->
  Forall (fun e => entry_in_range m q e = true) es -> forall seen,
  (forall x e, x ∈ seen -> e ∈ es -> x < se_Slot e) -> entries_ok m q seen es = true.
Proof.
  induction es as [|e es IH]; intros Hs Hr seen Hseen; [done|]. cbn [entries_ok].
  apply Forall_cons in Hr as [-> Hr]. cbn [fmap list_fmap] in Hs. inversion Hs as [|? ? Hs' Hx]; subst.
  rewrite Forall_fmap, Forall_forall in Hx. cbn in Hx.
  rewrite decide_False by (intros Hin; specialize (Hseen _ e Hin ltac:(left)); lia).
  apply IH; [done..|]. intros x e' [->%elem_of_singleton|Hin]%elem_of_union He'; [by apply Hx|].
  apply Hseen; [done|by right].
Qed.

(** C16: a fetch is answered: the request [runFetch] makes is queued by a replica
    in its view, and what that replica then serves — slots of its log or of its
    disk — is a reply the fetch accepts while it is still wanted; the reply moves
    it to the end of what it asked for, unless the reply is full. *)
Theorem served_reply_accepted r q next s to slots p k p' k' effs :
  fetch_wf q -> fq_from q <= next -> fetch_ask r q next = FetchAsk s to slots ->
  view p = fq_view q -> r_idx p = fq_peer q -> 0 <= fq_peer q < W32 ->
  u32 (r_idx r) < cfg_N (r_config p) ->
  serveState p k (fetch_req r q s to slots) = (p', k', effs) ->
  (Zlength (r_serveQ p) < serveQ_cap ->
   r_serveQ (handleGetState p (fetch_req r q s to slots)) = r_serveQ p ++ [fetch_req r q s to slots]) /\
  exists m, effs = sendToPeer p' (u32 (r_idx r)) (RNewState m) /\
    Zlength (ns_Entries m) <= MaxStateEntries /\
    forall r', fetchActive r' q = true ->
    exists next', (fetch_receive r' q s to slots m).2 = ReplyApplied next' /\
      s < next' <= to + 1 /\ (next' = to + 1 \/ reply_full m).
Proof.
  intros Hq Hfrom Hask Hview Hidx Hpeer HN Hserve. pose proof (fw_range q Hq) as Hrange.
  pose proof (fetch_ask_slots r q next s to slots Hq ltac:(lia) Hask) as Hslots.
  pose proof (fetch_ask_bounds r q next s to slots Hq ltac:(lia) Hask) as (Hs & Hto & Hlen).
  set (req := fetch_req r q s to slots) in *. split.
  { intros Hroom. unfold handleGetState. cbn [req fetch_req gs_SenderIdx gs_ToSlot gs_FromSlot gs_ViewId gs_Slots].
    rewrite (proj2 (Z.leb_gt _ _)), (proj2 (Z.ltb_ge to s)), Hview, Z.eqb_refl by lia. cbn [negb orb].
    rewrite (proj2 (Z.ltb_ge _ _)), slots_ok_ascend, (proj2 (Z.ltb_lt _ _)) by done. cbn [negb]. by rsimpl. }
  unfold serveState in Hserve. cbn [req fetch_req gs_SenderIdx gs_ToSlot gs_FromSlot gs_ViewId gs_Slots gs_FetchId] in Hserve.
  fold (fetch_req r q s to slots) in Hserve. fold req in Hserve.
  rewrite Hview, Z.eqb_refl, (proj2 (Z.leb_gt _ _)) in Hserve by lia. cbn [negb orb] in Hserve.
  destruct (serve_loop _ p k req s slots _) as [[p1 k1] sv] eqn:El. injection Hserve as <- <- <-.
  destruct (serve_loop_keeps _ _ _ _ _ _ _ _ _ _ El eq_refl) as [Hp1 Hsz].
  apply serve_loop_spec in El as (es & Ees & Hmax & Hsort & Hes & Hlast & Hend);
    [|lia|cbn; lia|by vm_compute|intros _; split; [apply Hslots|cbn; intros x Hx; by apply Hslots]].
  cbn [app sv_entries sv_last] in Ees, Hlast. 
  assert (Hturns : turns_left req s slots (serve_fuel req)).
  { unfold turns_left, serve_fuel. cbn [req fetch_req gs_Slots gs_ToSlot gs_FromSlot].
    destruct (Nat.ltb_spec 0 (length slots)) as [Hl|]; [|lia]. split; [lia|].
    apply Hslots. by destruct slots; [cbn in Hl; lia|]. }
  specialize (Hend Hturns). cbn [req fetch_req gs_Slots gs_ToSlot] in Hend, Hlast, Hes.
  eexists. split; [done|]. cbn [ns_Entries]. split; [done|]. intros r' Hactive.
  assert (Hb : s <= sv_last sv <= to) by (destruct Hlast as [[-> _]|?]; lia).
  exists (sv_last sv + 1). split; [|split; [lia|]].
  2:{ destruct Hend as [->|Hf]; [by left|right]. unfold reply_full, full in *. cbn [ns_Entries]. by rewrite <- Hsz. }
  unfold fetch_receive. cbn [ns_ViewId ns_SenderIdx ns_FetchId ns_FromSlot ns_ToSlot ns_Entries].
  assert (Ei : u32 (r_idx p1) = fq_peer q) by (rewrite Hp1, Hidx; by apply u32_small).
  rewrite Ei, !Z.eqb_refl, (proj2 (Z.ltb_ge _ _)), (proj2 (Z.ltb_ge to _)) by lia. cbn [negb orb].
  rewrite Ees. rewrite (proj2 (forallb_forall _ _)).
  2:{ intros e He%list_elem_of_In. rewrite Forall_forall in Hes. destruct (Hes e He) as [_ Hm].
      destruct slots as [|x0 xs]; [done|]. apply orb_true_intro. right.
      rewrite search_asked; [apply Z.eqb_refl|apply Hslots|by apply Hm]. }
  cbn [negb]. unfold applyStateEntries.
  cbn [ns_ViewId ns_SenderIdx ns_FetchId ns_FromSlot ns_ToSlot ns_Entries].
  rewrite !Z.eqb_refl, !(proj2 (Z.ltb_ge _ _)), Hactive by lia. cbn [negb orb].
  rewrite entries_ok_sorted; [|done| |by intros ? ? ?%elem_of_empty].
  2:{ eapply Forall_impl; [exact Hes|]. intros e [He _]. unfold entry_in_range.
      cbn [ns_FromSlot ns_ToSlot]. by rewrite !(proj2 (Z.ltb_ge _ _)) by lia. }
  cbn [negb snd]. f_equal. unfold add64. apply u64_small. word_lia.
Qed.
End serving.

(** * A concrete round *)

#[local] Existing Instance store.
#[local] Existing Instance store_laws.

(** replica 1 holds slots 2 and 4 *)
Definition server1 : Replica store :=
  let p := NewReplica (mkConfig 3 1 2 250 []) 1 false dropNone 0 0 opts4 in
  (recordBusReceived (setNoOp p 2).1 4 1 14 [rq1]).1.
Definition request04 : BusGetState := fetch_req filled3 fetch04 0 4 [].
Definition served04 := serveState server1 (mkdisk None None) request04.

Lemma served04_eq : serveState server1 (mkdisk None None) request04 =
  (served04.1.1, served04.1.2, served04.2).
Proof. unfold served04. by destruct (serveState server1 (mkdisk None None) request04) as [[? ?] ?]. Qed.

Theorem served_reply_accepted_witness :
  exists m next', (fetch_receive filled3 fetch04 0 4 [] m).2 = ReplyApplied next' /\ 0 < next' <= 5.
Proof.
  destruct (served_reply_accepted filled3 fetch04 0 0 4 [] server1 (mkdisk None None) _ _ _
    fetch04_wf ltac:(by vm_compute) ltac:(by vm_compute) ltac:(by vm_compute) ltac:(by vm_compute)
    ltac:(by vm_compute) ltac:(by vm_compute) served04_eq) as (_ & m & _ & _ & H).
  destruct (H filled3 ltac:(by vm_compute)) as (n & H1 & H2 & _). exists m, n. split; [exact H1|].
  exact H2.
Defined.
