(* ===== verification/BaseWireProps.v ===== *)
(** The baselines on the wire: what a replica reads of what its peer wrote. *)
From stdpp Require Import gmap list.
From S2P Require Import Prelude WireBase Wire State QuorumSets GobWire DefsWire Handlers Paxos Rpc PaxosWire.
From S2P Require N2Wire FastWire CurpWire EpaxosWire SwiftWire.

(** * Every baseline *)

Inductive baseline := Bpaxos | Bn2paxos | Bfastpaxos | Bcurp | Bepaxos | Bswift.

Section baselines.
Context `{Conn} {MSync : Type} {sync_codec : GobCodec MSync}.

Definition baseline_msg (b : baseline) : Type :=
  match b with
  | Bpaxos => paxos_msg
  | Bn2paxos => N2Wire.n2paxos_msg
  | Bfastpaxos => FastWire.fastpaxos_msg
  | Bcurp => CurpWire.curp_msg
  | Bepaxos => EpaxosWire.epaxos_msg
  | Bswift => SwiftWire.swift_msg (MSync := MSync)
  end.
Definition baseline_protocol (b : baseline) : Protocol (baseline_msg b) :=
  match b with
  | Bpaxos => paxos_msg_protocol
  | Bn2paxos => N2Wire.n2paxos_msg_protocol
  | Bfastpaxos => FastWire.fastpaxos_msg_protocol
  | Bcurp => CurpWire.curp_msg_protocol
  | Bepaxos => EpaxosWire.epaxos_msg_protocol
  | Bswift => SwiftWire.swift_msg_protocol
  end.
#[export] Existing Instance baseline_protocol.

End baselines.

(** a peer of the EPaxos baseline *)
Definition sent3 : list (peer_msg (baseline_msg (MSync := Z) Bepaxos)) :=
  [MsgBeacon (mkBeacon 17); MsgRpc (EpaxosWire.EAccept (EpaxosWire.mkAccept 0 1 2 (-3) 4 [5; -6])); MsgBeaconReply (mkBeaconReply (-1))].
#[local] Instance one_byte : Conn := fun _ => 1%nat.
#[local] Instance Z_codec : GobCodec Z := {|
  gob_zero := 0; GMarshal := le32; GUnmarshal := int32_fields; GWf := is_i32; gob_reads := int32_fields_reads |}.


(** * A connection that ends inside a message *)

Lemma fill_nothing {B} (d : into B) (zero : B) n : (exists e, d zero [] = Fails zero [] e) ->
  fill true d zero n [] = Done (replicate n zero) [].
Proof. intros [e He]. induction n as [|n IH]; cbn [fill replicate]; [done|]. by rewrite He, IH. Qed.

(** the count of a slice of commands, and nothing after it *)
Lemma commands_cut {A} (set : list Command -> A -> A) n t : 0 <= n -> n * 40 <= maxAlloc ->
  slice_into 40 true GUnmarshal gob_zero set t (PutVarint n) =
    Done (set (replicate (Z.to_nat n) (mkCommand 0 0 [])) t) [].
Proof.
  intros H0 Hn. unfold slice_into. rewrite <- (app_nil_r (PutVarint n)), ReadVarint_app by lia.
  rewrite (proj2 (Z.ltb_ge n 0)), (proj2 (Z.ltb_ge _ _)) by lia. cbn [orb].
  rewrite fill_nothing; [done|]. by eexists.
Qed.

(** The errors of the commands inside a message are dropped: when the connection
    of a Multi-Paxos peer ends after the number of commands of an accept, the listener
    hands the replica an accept with the same leader, instance and ballot and as many
    empty commands in the place of those that were sent, before it reports the end of
    the connection. *)
Theorem truncated_accept_delivered (m : Accept) :
  is_i32 (pa_LeaderId m) -> is_i32 (pa_Instance m) -> is_i32 (pa_Ballot m) ->
  Zlength (pa_Command m) * 40 <= maxAlloc ->
  let cut := SendMsg_bytes (MsgRpc (PAccept (m <| pa_Command := [] |>))) in
  let sent := take (length cut - 1) cut ++ PutVarint (Zlength (pa_Command m)) in
  let made_up := m <| pa_Command := replicate (length (pa_Command m)) (mkCommand 0 0 []) |> in
  (exists rest, SendMsg_bytes (MsgRpc (PAccept m)) = sent ++ rest) /\
  replicaListener (S (length sent)) sent = ([MsgRpc (PAccept made_up)], ConnError (ReadError EOF)).
Proof.
  destruct m as [l i b cmds]. intros Hl Hi Hb Hn cut sent made_up.
  cbn [pa_LeaderId pa_Instance pa_Ballot pa_Command] in Hl, Hi, Hb, Hn, sent, made_up.
  set (hdr := le32 l ++ le32 i ++ le32 b).
  assert (Esent : sent = byte_of 10 :: hdr ++ PutVarint (Zlength cmds)).
  { unfold sent, cut. change (SendMsg_bytes _) with (byte_of 10 :: hdr ++ [x00]).
    replace (length (byte_of 10 :: hdr ++ [x00]) - 1)%nat with (length (byte_of 10 :: hdr))
      by (cbn [length]; rewrite length_app; cbn; lia).
    change (byte_of 10 :: hdr ++ [x00]) with ((byte_of 10 :: hdr) ++ [x00]). by rewrite take_app_length. }
  clearbody sent. subst sent. split.
  { exists (concat (GMarshal <$> cmds)).
    change (SendMsg_bytes _) with (byte_of 10 :: hdr ++ put_slice GMarshal cmds).
    unfold put_slice. cbn [app]. by rewrite <- (assoc_L (++)). }
  cbn [length replicaListener]. rewrite byte_val_of.
  change (10 mod 256 =? GENERIC_SMR_BEACON) with false. change (10 mod 256 =? GENERIC_SMR_BEACON_REPLY) with false.
  change (Get proto_table (10 mod 256)) with (Some (decode PAccept)). cbv iota. unfold decode.
  change (GUnmarshal (A := Accept)) with Accept_Unmarshal. unfold Accept_Unmarshal, seq_into.
  rewrite (Puts_chunk 12 _ hdr gob_zero eq_refl), commands_cut by lia. rewrite Nat2Z.id.
  unfold made_up, hdr. autorewrite with gob. reflexivity.
Qed.

Lemma truncated_accept_delivered_witness :
  let m := mkAccept 0 7 3 [mkCommand 1 5 [x01]] in
  let cut := SendMsg_bytes (MsgRpc (PAccept (m <| pa_Command := [] |>))) in
  let sent := take (length cut - 1) cut ++ PutVarint (Zlength (pa_Command m)) in
  replicaListener (S (length sent)) sent =
    ([MsgRpc (PAccept (mkAccept 0 7 3 [mkCommand 0 0 []]))], ConnError (ReadError EOF)).
Proof.
  intros m. apply (proj2 (truncated_accept_delivered m ltac:(cbn; unfold is_i32; lia) ltac:(cbn; unfold is_i32; lia)
    ltac:(cbn; unfold is_i32; lia) ltac:(cbn; unfold maxAlloc; lia))).
Defined.

(** * What three messages lose *)

#[local] Existing Instances EpaxosWire.eta_PrepareReply EpaxosWire.PrepareReply_codec CurpWire.MReply_codec
  SwiftWire.MReply_codec.

(** [VBallot] does not travel: whatever was sent, zero is read. *)
Lemma prepare_reply_loses_vballot (m : EpaxosWire.PrepareReply) :
  EpaxosWire.PrepareReply_wf (m <| EpaxosWire.epr_VBallot := 0 |>) -> forall rest,
  GUnmarshal gob_zero (EpaxosWire.PrepareReply_Marshal m ++ rest) =
    Done (m <| EpaxosWire.epr_VBallot := 0 |>) rest.
Proof. intros Hwf. exact (gob_reads _ Hwf). Qed.

(** A CURP reply without a value, read one byte at a time: fifteen bytes of it are left
    for the next message. *)
Lemma empty_reply_misread :
  let m := CurpWire.mkMReply 2 1 (CurpWire.mkCommandId 9 4) [] 1 in
  exists rest, GUnmarshal gob_zero (GMarshal m) = Done m rest /\ length rest = 15%nat.
Proof. eexists. by vm_compute. Qed.

(** A SwiftPaxos reply without a checksum whose value has two bytes: with the message
    at hand the first read takes both, and the second fails. *)
Lemma unchecked_reply_misread :
  let m := SwiftWire.mkMReply 2 1 (SwiftWire.mkCommandId 9 4) [] [x05; x06] in
  exists t, SwiftWire.MReply_Unmarshal (H := fun bs => length bs) gob_zero (GMarshal m) = Fails t [] (ReadError EOF).
Proof. eexists. by vm_compute. Qed.

(** * [BinarySize] *)

(** a message of a known size is written in that many bytes *)
Definition size_holds {M} (size : Z * bool) (marshal : M -> list byte) : Prop :=
  forall m, Z.of_nat (length (marshal m)) = size.1.

Lemma sizes_hold :
  size_holds DefsWire.PingArgs_BinarySize DefsWire.PingArgs_Marshal /\
  size_holds DefsWire.BeTheLeaderReply_BinarySize DefsWire.BeTheLeaderReply_Marshal /\
  size_holds DefsWire.BeaconReply_BinarySize DefsWire.BeaconReply_Marshal /\
  size_holds DefsWire.ProposeReply_BinarySize DefsWire.ProposeReply_Marshal /\
  size_holds DefsWire.Beacon_BinarySize DefsWire.Beacon_Marshal /\
  size_holds PaxosWire.CommitShort_BinarySize PaxosWire.CommitShort_Marshal /\
  size_holds N2Wire.M1A_BinarySize N2Wire.M1A_Marshal /\
  size_holds N2Wire.CommandId_BinarySize N2Wire.CommandId_Marshal /\
  size_holds N2Wire.M2B_BinarySize N2Wire.M2B_Marshal /\
  size_holds FastWire.CommandId_BinarySize FastWire.CommandId_Marshal /\
  size_holds FastWire.M2B_BinarySize FastWire.M2B_Marshal /\
  size_holds CurpWire.MCommit_BinarySize CurpWire.MCommit_Marshal /\
  size_holds CurpWire.MAcceptAck_BinarySize CurpWire.MAcceptAck_Marshal /\
  size_holds CurpWire.MRecordAck_BinarySize CurpWire.MRecordAck_Marshal /\
  size_holds CurpWire.MSync_BinarySize CurpWire.MSync_Marshal /\
  size_holds CurpWire.CommandId_BinarySize CurpWire.CommandId_Marshal /\
  size_holds EpaxosWire.Prepare_BinarySize EpaxosWire.Prepare_Marshal /\
  size_holds EpaxosWire.PreAcceptOK_BinarySize EpaxosWire.PreAcceptOK_Marshal /\
  size_holds SwiftWire.CommandId_BinarySize SwiftWire.CommandId_Marshal /\
  size_holds SwiftWire.MNewLeaderAck_BinarySize SwiftWire.MNewLeaderAck_Marshal /\
  size_holds SwiftWire.MLightSync_BinarySize SwiftWire.MLightSync_Marshal /\
  size_holds SwiftWire.MLightSlowAck_BinarySize SwiftWire.MLightSlowAck_Marshal /\
  size_holds SwiftWire.MNewLeader_BinarySize SwiftWire.MNewLeader_Marshal /\
  size_holds SwiftWire.MShareState_BinarySize SwiftWire.MShareState_Marshal /\
  size_holds SwiftWire.MPing_BinarySize SwiftWire.MPing_Marshal /\
  size_holds SwiftWire.MPingRep_BinarySize SwiftWire.MPingRep_Marshal.
Proof. split_and!; by intros []. Qed.

(** four of them are wrong *)
Lemma wrong_sizes :
  (PaxosWire.Prepare_BinarySize.1 <> 12 /\ forall m, length (PaxosWire.Prepare_Marshal m) = 12%nat) /\
  (PaxosWire.AcceptReply_BinarySize.1 <> 8 /\ forall m, length (PaxosWire.AcceptReply_Marshal m) = 8%nat) /\
  (EpaxosWire.AcceptReply_BinarySize.1 <> 12 /\ forall m, length (EpaxosWire.AcceptReply_Marshal m) = 12%nat) /\
  (EpaxosWire.TryPreAcceptReply_BinarySize.1 <> 29 /\ forall m, length (EpaxosWire.TryPreAcceptReply_Marshal m) = 29%nat).
Proof. split_and!; try done; by intros []. Qed.
