(* ===== verification/BaseProps.v ===== *)
(** The baselines: deferred calls, quorum systems, sets of replies, and the acceptor
    of the Multi-Paxos baseline. *)
From stdpp Require Import gmap list.
From S2P Require Import Prelude WireBase Wire State Hook QuorumSets GobWire DefsWire Handlers Paxos PaxosInv PaxosNet SwiftWire SwiftKeys.

(** The two implementations of a deferred call, the one that composes closures and
    the one that keeps them in a slice it reuses, behave as one queue: whatever the
    sequence of calls, recalls and reinitialisations, at every use the same closures
    run in the same order (those that waited since the last run, each once, then the
    new one) and the same result is returned. *)
Theorem deferred_calls_refine_queue {E F : Type} (cond : E -> bool) (os : list (cond_op E F)) :
  outputs CondF_op (NewCondF cond) os = outputs queue_op (cond, []) os /\
  outputs OptCondF_op (NewOptCondF cond) os = outputs queue_op (cond, []) os.
Proof.
  split.
  - apply (outputs_simulate _ _ cond_rel); [|by split]. intros s t o. apply CondF_op_queue.
  - apply (outputs_simulate _ _ opt_rel); [|by split]. intros s t o. apply OptCondF_op_queue.
Qed.

(** The ballots of a quorum system name its quorums: for every leader and every
    quorum of [k] of [N] replicas that holds it, the ballot [BallotOf] computes is one
    the leader owns and [AQ] gives the quorum back; and whatever the ballot, [AQ] gives
    a quorum of exactly [k] replicas that holds the ballot's leader. *)
Theorem ballot_quorum_roundtrip (N k : Z) (Hk : 0 < k <= N) (HN : N <= 26) :
  let qs := NewQuorumSet k N in
  (forall (l : Z) (q : Quorum), 0 <= l < N -> (forall r, r ∈ q -> 0 <= r < N) ->
     Z.of_nat (size q) = k -> l ∈ q ->
     let b := BallotOf qs l q in 0 <= b /\ Leader b N = l /\ AQ qs b = Some q) /\
  (forall b, 0 <= b -> exists q, AQ qs b = Some q /\ (forall r, r ∈ q -> 0 <= r < N) /\
     Z.of_nat (size q) = k /\ Leader b N ∈ q).
Proof.
  intros qs. assert (Hall : all_quorums N k qs) by (apply NewQuorumSet_all; lia). split.
  - intros l q Hl Hq Hsz Hin.
    destruct (BallotOf_spec N k qs l q) as (qid & L & Hnum & Hqid & Hlen & Hlq & Eb); [done..|].
    cbn zeta. rewrite Eb. assert (H0 : 0 <= qid * N + l) by nia. split; [done|].
    assert (EL : Leader (qid * N + l) N = l).
    { unfold Leader. rewrite i32_small by lia. rewrite Z.rem_mod_nonneg by lia.
      rewrite Z.add_comm, Z_mod_plus_full. by apply Z.mod_small. }
    split; [done|]. destruct (AQ_spec N k qs (qid * N + l)) as (_ & L' & Hnum' & Hpos & ->); [done..|].
    rewrite EL in Hnum' |- *.
    assert (length L' = length L) as -> by (rewrite <- (proj1 Hnum), <- (proj1 Hnum'); done).
    assert (Z.quot (qid * N + l) N = qid) as ->.
    { rewrite Z.quot_div_nonneg, Z.div_add_l, Z.div_small by lia. lia. }
    rewrite Z.rem_small by lia. done.
  - intros b Hb. destruct (AQ_spec N k qs b) as (Hl & L & Hnum & Hpos & E); [done..|].
    destruct (aq_leader _ _ _ Hall _ Hl) as (L' & Hnum' & _ & Hmem).
    set (i := Z.rem _ _) in E. assert (Hi : 0 <= i < Z.of_nat (length L)).
    { apply Z.rem_bound_pos; [apply Z.quot_pos; lia|lia]. }
    destruct (lookup_lt_is_Some_2 L (Z.to_nat i)) as [q Eq]; [lia|].
    assert (Elq : default ∅ (qs !! Leader b N) !! i = Some q) by (apply (numbered_lookup _ L); [done|split; [lia|done]]).
    exists q. rewrite E. split; [done|].
    apply (numbered_lookup _ L') in Elq as [_ Elq]; [|done].
    by apply Hmem, (list_elem_of_lookup_2 L' (Z.to_nat i)).
Qed.

Lemma ballot_quorum_roundtrip_witness :
  let qs := NewQuorumSet 2 3 in
  let q : Quorum := {[1; 2]} in
  let b := BallotOf qs 1 q in 0 <= b /\ Leader b 3 = 1 /\ AQ qs b = Some q.
Proof.
  apply (proj1 (ballot_quorum_roundtrip 3 2 ltac:(lia) ltac:(lia))); [lia| |done|set_solver].
  intros r. rewrite elem_of_union, !elem_of_singleton. lia.
Defined.

(** A set of replies calls its handler only with the messages of distinct members
    of its quorum, each of which passes the filter against the leader's message that
    the handler is given; there are as many as the quorum needs, or one less when the
    leader's message is there, and that one came marked as the leader's from a member
    of the quorum. *)
Theorem handler_gets_quorum {Q M : Type} `{QuorumI Q} (q : Q) (accept : M -> option M -> bool)
    (l : list (arrival (M := M))) (leaderMsg : option M) (msgs : list M) :
  Handler leaderMsg msgs ∈ (adds (NewMsgSet q accept) l).2 -> handled q accept l leaderMsg msgs.
Proof.
  pose proof (adds_ok q accept l [] _ (NewMsgSet_ok q accept [])) as Hadds.
  destruct (adds _ l) as [ms fx]. destruct Hadds as [_ Hfx]. cbn [snd]. intros Hin.
  eapply handled_weaken; [|by apply Hfx]. intros a. rewrite app_nil_r. by rewrite !list_elem_of_In, <- in_rev.
Qed.

Lemma handler_gets_quorum_witness :
  handled (NewMajorityOf 3) (fun m o => default true (Z.eqb m <$> o)) [(2, false, 7); (1, false, 8); (0, true, 7)]
    (Some 7) [7].
Proof.
  apply (handler_gets_quorum (NewMajorityOf 3)). apply list_elem_of_In. vm_compute. tauto.
Defined.

(** C32: a replica of the Multi-Paxos baseline that has answered a prepare keeps the
    promise of its reply while it handles the messages of an acceptor: the reply
    carries what the instance held, the instance's ballot stays at least the promised
    one, an accept below it changes nothing but is answered with a ballot at least the
    promised one; and an instance that is committed keeps its commands, its ballots
    and its status. *)
Theorem acceptor_keeps_promise {TM : Treemap Value} (r0 r1 r2 : PaxosReplica TM) fx peer p :
  acceptor_step r0 r1 fx -> PSend peer (PPrepareReply p) ∈ fx -> rtc acceptor_moves r1 r2 ->
  (exists inst, p_instanceSpace r1 !! pr_Instance p = Some inst /\
     pr_Ballot p = in_bal inst /\ pr_VBallot p = in_vbal inst /\ pr_Command p = default [] (in_cmds inst)) /\
  (exists inst, p_instanceSpace r2 !! pr_Instance p = Some inst /\ pr_Ballot p <= in_bal inst) /\
  (forall m r3 fx', pa_Instance m = pr_Instance p -> pa_Ballot m < pr_Ballot p ->
     handleAccept r2 m = Ok (r3, fx') -> p_instanceSpace r3 = p_instanceSpace r2 /\
     forall dst a, PSend dst (PAcceptReply a) ∈ fx' -> par_Instance a = pr_Instance p -> pr_Ballot p <= par_Ballot a) /\
  (forall i a, p_instanceSpace r1 !! i = Some a -> in_status a = COMMITTED ->
     exists b, p_instanceSpace r2 !! i = Some b /\ in_status b = COMMITTED /\ in_cmds b = in_cmds a /\
       in_vbal b = in_vbal a /\ in_bal b = in_bal a).
Proof.
  intros H1 Hp H2. apply acceptor_step_later in H1 as [_ Hpr]. apply acceptor_run_later in H2.
  destruct (proj1 Hpr peer p Hp) as (inst & Ei & Eb & Ev & Ec).
  destruct (H2 _ _ Ei) as (inst2 & Ei2 & Hle & _). rewrite Eb in Hle.
  split; [by exists inst|]. split; [by exists inst2|]. split.
  - intros m r3 fx' Em Hlt H3. destruct (handleAccept_acceptor _ _ _ _ H3) as ([_ Ha] & _ & Hn).
    assert (E : p_instanceSpace r3 = p_instanceSpace r2).
    { apply Hn. unfold accepts. rewrite Em, Ei2. lia. }
    split; [done|]. intros dst a Hin Ea. destruct (Ha dst a Hin) as (inst3 & Ei3 & <-).
    rewrite E, Ea in Ei3. assert (inst3 = inst2) as -> by congruence. done.
  - intros i a Ha Hc. destruct (H2 i a Ha) as (b & Hb & _ & Hl). exists b. split; [done|].
    destruct (Hl Hc) as (? & ? & ? & ?). done.
Qed.

#[local] Instance base_store : Treemap Value := gmap_Treemap Value.

(** replica 1 of three, connected; it has heard of instance 0 *)
Definition acceptor1 : PaxosReplica base_store :=
  (New_ 1 3 1 false) <| p_PeerWriters := [true; false; true] |>.
Definition prepare0 : Prepare := mkPrepare 0 0 3.
Definition reply0 : PrepareReply := mkPrepareReply 0 3 (-1) 3 1 [].
Definition acceptor1' : PaxosReplica base_store :=
  match handlePrepare acceptor1 prepare0 with Ok (r, _) => r | _ => acceptor1 end.

Lemma acceptor1_step : acceptor_step acceptor1 acceptor1' [PSend 0 (PPrepareReply reply0)].
Proof. exists (PPrepare prepare0). split; [done|]. by vm_compute. Qed.

Lemma acceptor_keeps_promise_witness :
  exists inst, p_instanceSpace acceptor1' !! 0 = Some inst /\ 3 <= in_bal inst.
Proof.
  apply (proj1 (proj2 (acceptor_keeps_promise acceptor1 acceptor1' acceptor1' _ 0 reply0 acceptor1_step
    ltac:(by apply list_elem_of_singleton) (rtc_refl _ _)))).
Defined.


(** replica 0 of three leads and commits what a client proposed; then replica 2 *)
Definition propose1 : GPropose := mkGPropose 1 1 (mkCommand 1 5 [x01]) 0 0 true.
Definition propose2 : GPropose := mkGPropose 1 2 (mkCommand 1 5 [x02]) 0 0 true.
Definition run1 : list action := [APropose 0 propose1; ADeliver 0; ADeliver 1; ADeliver 1; ADeliver 2].
Definition run2 : list action :=
  run1 ++ [ALead 2; APropose 2 propose2; ADeliver 5; ADeliver 5; ADeliver 6; ADeliver 6].
Definition net2 : net base_store := default (net_init 3 1 0) (net_run (net_init 3 1 0) run2).

Lemma run2_net2 : net_run (net_init 3 1 0) run2 = Some net2.
Proof. apply returned. by vm_compute. Qed.
Lemma net2_committed : committed net2 2 0 = Some (Some [gp_Command propose2]).
Proof. by vm_compute. Qed.


(** Two leaders decide differently: replica 2 has learnt from replica 1 what replica 0
    committed for instance 0, and commits its own client's command for it. *)
Lemma leaders_disagree :
  net_run (net_init 3 1 0) run2 = Some net2 /\
  committed net2 0 0 = Some (Some [gp_Command propose1]) /\ committed net2 2 0 = Some (Some [gp_Command propose2]).
Proof. split; [exact run2_net2|]. split; [by vm_compute|exact net2_committed]. Qed.

(** With one leader: replica 2 handles the leader's commit before its accept, and has
    committed an instance without commands. *)
Lemma commit_without_commands :
  (n ← net_run (TM := base_store) (net_init 3 1 0) (run1 ++ [ADeliver 0; ADeliver 2]);
   Some (committed n 0 0, committed n 2 0)) = Some (Some (Some [gp_Command propose1]), Some None).
Proof. by vm_compute. Qed.

(** * SwiftPaxos: the commands a new command depends on, the comparison of
    dependencies, and the log of hashes. *)

(** The slices and indices of [fullKeyInfo] implement a map from clients to their
    last command and a map from clients to their last write: whatever commands are
    added and removed, in whatever order, no index is out of range, and the conflicts
    of a command are, each once and in some order, the last writes of all clients for a
    read and the last commands of all clients otherwise. *)
Theorem key_info_refines_map (os : list key_op) :
  exists ki, full_run newFullKeyInfo os = Some ki /\
    forall cmd, let s := foldl last_op (mkLast ∅ ∅) os in
      full_getConflictCmds ki cmd ≡ₚ (map_to_list (if is_op cmd GET then lc_write s else lc_cmd s)).*2.
Proof.
  destruct (full_run_repr os _ _ newFullKeyInfo_repr) as (ki & E & Hc & Hw). exists ki. split; [exact E|].
  intros cmd s. unfold full_getConflictCmds. destruct (is_op cmd GET); by eapply slot_repr_values.
Qed.

(** On dependencies without repetition [Equals] decides that one is a permutation
    of the other, in the single pass over both that it makes; [EqualsAndDiff] gives
    the same answer and the commands of the first that the second has not. *)
Theorem dep_equals_permutation (d1 d2 : Dep) (H1 : NoDup d1) (H2 : NoDup d2) :
  (dep_Equals d1 d2 = true <-> d1 ≡ₚ d2) /\
  EqualsAndDiff d1 d2 = (dep_Equals d1 d2, seen_of d1 d2).
Proof.
  assert (E : EqualsAndDiff d1 d2 = (dep_Equals d1 d2, seen_of d1 d2)).
  { unfold EqualsAndDiff, dep_Equals. rewrite dep_loop_start by done. by destruct (Nat.eqb (length d1) (length d2)). }
  split; [|exact E]. unfold dep_Equals. rewrite dep_loop_start by done.
  destruct (Nat.eqb (length d1) (length d2)) eqn:El; cbn [negb].
  - apply Nat.eqb_eq in El. rewrite andb_true_iff, Nat.eqb_eq, seen_of_empty. split.
    + intros [Hsz Hsub]. apply NoDup_Permutation; [done..|]. intros c. split; [apply Hsub|].
      assert (H0 : Nat.eqb (size (seen_of d2 d1)) 0 = true) by (rewrite <- Hsz; by apply seen_of_empty).
      rewrite seen_of_empty in H0. apply H0.
    + intros Hp. assert (Hsub : forall c, c ∈ d1 -> c ∈ d2) by (intros c; by rewrite Hp).
      split; [|exact Hsub]. assert (Hb : forall c, c ∈ d2 -> c ∈ d1) by (intros c; by rewrite Hp).
      apply seen_of_empty, Nat.eqb_eq in Hsub. apply seen_of_empty, Nat.eqb_eq in Hb. congruence.
  - apply Nat.eqb_neq in El. split; [done|]. intros Hp. by apply Permutation_length in Hp.
Qed.

Lemma dep_equals_permutation_witness :
  let a := mkCommandId 1 7 in let b := mkCommandId 2 3 in
  (dep_Equals [a; b] [b; a] = true <-> [a; b] ≡ₚ [b; a]) /\
  EqualsAndDiff [a; b] [b; a] = (dep_Equals [a; b] [b; a], seen_of [a; b] [b; a]).
Proof.
  apply (dep_equals_permutation [mkCommandId 1 7; mkCommandId 2 3] [mkCommandId 2 3; mkCommandId 1 7]);
    [by apply (bool_decide_unpack (NoDup [mkCommandId 1 7; mkCommandId 2 3]))
    |by apply (bool_decide_unpack (NoDup [mkCommandId 2 3; mkCommandId 1 7]))].
Defined.


