(* ===== verification/N2Props.v ===== *)
(** The N2Paxos baseline: agreement of the replicas, and what an execution means. *)
From stdpp Require Import gmap list.
From S2P Require Import Prelude WireBase Wire State Hook QuorumSets GobWire DefsWire Handlers N2Wire N2Paxos N2Inv N2Turns.



#[local] Instance base_store : Treemap Value := gmap_Treemap Value.

(** replica 0 of three leads; slot 0 is accepted by replicas 0 and 1; slot 1 is known
    to the leader only *)
Definition proposal1 : GPropose := mkGPropose 1 1 (mkCommand 1 5 [x01]) 0 0 true.
Definition proposal2 : GPropose := mkGPropose 2 1 (mkCommand 1 5 [x02]) 0 0 true.
Definition n2_run1 : list n2_action :=
  [NTurn 0 (TRunPropose 0 proposal1); NTurn 1 (TRunPropose 0 proposal1); NTurn 0 (TDesc 0); NTurn 0 (TBatcher true); NTurn 0 TSender;
   NDeliver 0; NTurn 1 (TRunNext 0); NTurn 1 (TRunNext 0); NTurn 1 (TDesc 0); NTurn 1 (TDesc 0);
   NTurn 1 (TBatcher false); NTurn 1 TSender; NDeliver 1; NTurn 0 (TRunNext 0); NTurn 0 (TDesc 0)].
Definition n2_run2 : list n2_action :=
  n2_run1 ++ [NTurn 0 (TRunPropose 0 proposal2); NTurn 0 (TRunDeliver 0 0); NTurn 0 (TDesc 1); NTurn 0 (TDesc 1)].
Definition n2_net1 : n2_net base_store := default (n2_net_init 3 1 0) (n2_net_run (n2_net_init 3 1 0) n2_run1).
Definition n2_net2 : n2_net base_store := default (n2_net_init 3 1 0) (n2_net_run (n2_net_init 3 1 0) n2_run2).

Lemma n2_run1_net : n2_net_run (n2_net_init 3 1 0) n2_run1 = Some n2_net1.
Proof. apply returned. by vm_compute. Qed.
Lemma n2_run2_net : n2_net_run (n2_net_init 3 1 0) n2_run2 = Some n2_net2.
Proof. apply returned. by vm_compute. Qed.
Definition n2_follower : N2Replica base_store := default (n2_replica 3 1 0 1) (nn_replicas n2_net1 !! 1%nat).
Lemma n2_follower_there : nn_replicas n2_net1 !! 1%nat = Some n2_follower.
Proof. apply returned. by vm_compute. Qed.
Lemma n2_follower_executed : 0 ∈ n_delivered n2_follower.
Proof. apply (bool_decide_unpack (0 ∈ n_delivered n2_follower)). by vm_compute. Qed.



(** The leader itself does not wait: once slot 0 is executed it executes slot 1 and
    answers its client, although no other replica has heard of the command. *)
Lemma leader_executes_unaccepted :
  n2_net_run (n2_net_init 3 1 0) n2_run2 = Some n2_net2 /\
  (fun r => bool_decide (1 ∈ n_delivered r)) <$> nn_replicas n2_net2 = [true; false; false] /\
  (fun r => n_slots r !! commandId_of proposal2) <$> nn_replicas n2_net2 = [Some 1; None; None].
Proof. split; [exact n2_run2_net|]. split; by vm_compute. Qed.
