(* ===== verification/EpaxosProps.v ===== *)
(** Properties of the EPaxos baseline: the acceptor, the dependencies, the order of
    execution; and runs in which it loses what it should keep. *)
From stdpp Require Import gmap list sorting.
From S2P Require Import Prelude WireBase Wire State QuorumSets GobWire DefsWire Handlers EpaxosWire EPaxos EpaxosExec EpaxosOrder EpaxosInv.

(** * A small instance *)

(** [sort.Sort] as an insertion sort *)
Fixpoint insert_by {A} (less : A -> A -> bool) (a : A) (l : list A) : list A :=
  match l with
  | [] => [a]
  | b :: l => if less b a then b :: insert_by less a l else a :: b :: l
  end.
Definition insertion_sort {A} (less : A -> A -> bool) (l : list A) : list A := foldr (insert_by less) [] l.
Definition insertion_Sorter : Sorter := {| sort_Sort := fun A less l => insertion_sort less l |}.
Lemma insert_by_perm {A} (less : A -> A -> bool) a l : insert_by less a l ≡ₚ a :: l.
Proof. induction l as [|b l IH]; cbn; [done|]. destruct (less b a); [|done]. rewrite IH. apply Permutation_swap. Qed.
Lemma insert_by_sorted {A} (less : A -> A -> bool) a l :
  (forall a b, less a b = true -> less b a = false) ->
  Sorted (fun a b => less b a = false) l -> Sorted (fun a b => less b a = false) (insert_by less a l).
Proof.
  intros Asym. induction 1 as [|b l S IH H]; cbn; [by repeat constructor|]. destruct (less b a) eqn:E; [|constructor; [by constructor|by constructor]].
  constructor; [done|]. destruct l as [|c l]; cbn; [constructor; by apply Asym|].
  destruct (less c a); constructor; [by inversion H|by apply Asym].
Qed.
Lemma insertion_SorterLaws : SorterLaws insertion_Sorter.
Proof.
  split; cbn; unfold insertion_sort.
  - intros A less l. induction l as [|a l IH]; cbn; [done|]. by rewrite insert_by_perm, IH.
  - intros A less l Asym _. induction l as [|a l IH]; cbn; [constructor|]. by apply insert_by_sorted.
Qed.

Definition gm : Treemap Value := gmap_Treemap Value.
Definition put_cmd (k : Z) : Command := mkCommand 1 k [].
Definition prop_cmd (k : Z) : GPropose := mkGPropose k 0 (put_cmd k) 0 0 false.
Definition replica0 : EReplica gm := New_ 0 5 2 false false.
Definition status_of (r : EReplica gm) (v : Z * Z) : option Z := ei_Status <$> x_InstanceSpace r !! v.
Definition deps_of (r : EReplica gm) (v : Z * Z) : option (list Z) := (fun i => slice r (ei_Deps i)) <$> x_InstanceSpace r !! v.
(** what a computation that was seen to return gives *)
Definition is_ok {A} (m : outcome A) : bool := match m with Ok _ => true | _ => false end.
Definition value_of {A} (d : A) (m : outcome A) : A := match m with Ok a => a | _ => d end.
Lemma is_ok_value {A} (d : A) m : is_ok m = true -> m = Ok (value_of d m).
Proof. by destruct m. Qed.
Definition final (m : outcome (EReplica gm)) : option (EReplica gm) := match m with Ok r => Some r | _ => None end.
Definition nil5 : list Z := [-1; -1; -1; -1; -1].
Definition run_of (es : list e_event) : option (EReplica gm) := final (run_events replica0 ((fun e => (7, e)) <$> es)).

(** * The acceptor *)


Definition committed_run : list e_event := [EvPropose (prop_cmd 1); EvMsg (ECommit (mkCommit 1 0 0 6 NOOP 0 nil5))].
Definition committed_state : EReplica gm := value_of replica0 (run_events replica0 ((fun e => (7, e)) <$> committed_run)).

(** * Dependencies *)

(** C37: as long as nothing is recovered, a replica that pre-accepts a single command,
    proposed to it or by another replica, gives it dependencies that cover, in every
    row but that of another proposer, each instance it knows with a command on the same
    key of which one is not a read; so of two such commands a replica has pre-accepted,
    the later one depends on the earlier. *)
Theorem dependencies_cover_conflicts {TM : Treemap Value} (id N F : Z) (durable transconf : bool)
    (es : list (Z * e_event)) (r : EReplica TM) (now : Z) (e : e_event) (r' : EReplica TM) (fx : list e_effect)
    (q i : Z) (c : Command)
    (Hn : Forall (fun te => no_recovery te.2 = true) es)
    (Hr : run_events (New_ id N F durable transconf) es = Ok r)
    (Hp : pre_accepted r e = Some (q, i, c)) (He : handle_event r now e = Ok (r', fx)) :
  exists inst, x_InstanceSpace r' !! (q, i) = Some inst /\ ei_Cmds inst = Some [c] /\ covers r (slice r' (ei_Deps inst)) q c.
Proof.
  destruct (run_recorded es _ r (New_known id N F durable transconf) (New_recorded id N F durable transconf) Hn Hr) as [K A].
  exact (handle_event_covers r now e r' fx q i c A Hp He).
Qed.

Definition conflicting_run : list e_event := [EvMsg (ECommit (mkCommit 1 1 3 1 [put_cmd 1] 0 nil5))].
Definition conflicting_state : EReplica gm := value_of replica0 (run_events replica0 ((fun e => (7, e)) <$> conflicting_run)).
Definition proposed_turn : EReplica gm * list e_effect :=
  value_of (replica0, []) (handle_event conflicting_state 7 (EvPropose (prop_cmd 1))).
Lemma dependencies_cover_conflicts_witness :
  run_events replica0 ((fun e => (7, e)) <$> conflicting_run) = Ok conflicting_state /\
  deps_of proposed_turn.1 (0, 0) = Some [-1; 3; -1; -1; -1] /\
  exists inst, x_InstanceSpace proposed_turn.1 !! (0, 0) = Some inst /\ ei_Cmds inst = Some [put_cmd 1] /\
    covers conflicting_state (slice proposed_turn.1 (ei_Deps inst)) 0 (put_cmd 1).
Proof.
  assert (run_events replica0 ((fun e => (7, e)) <$> conflicting_run) = Ok conflicting_state) as Hr
    by (apply is_ok_value; vm_compute; reflexivity).
  assert (handle_event conflicting_state 7 (EvPropose (prop_cmd 1)) = Ok (proposed_turn.1, proposed_turn.2)) as He.
  { rewrite <- surjective_pairing. apply is_ok_value. vm_compute. reflexivity. }
  split; [exact Hr|]. split; [vm_compute; reflexivity|].
  apply (dependencies_cover_conflicts 0 5 2 false false ((fun e => (7, e)) <$> conflicting_run) conflicting_state 7
           (EvPropose (prop_cmd 1)) proposed_turn.1 proposed_turn.2 0 0 (put_cmd 1)); [|exact Hr| |exact He].
  - repeat constructor.
  - vm_compute. reflexivity.
Defined.

(** * The order of execution *)

(** C38: a call of [executeCommand] returns, and what it executed are components that each
    run once, after everything their instances depend on: every dependency of an
    instance of a component was executed before the call, or is in an earlier component
    or in the same one, and the instances of a component run in the order of their
    sequence numbers, rows and times; every executed instance was committed, no other
    instance changes its status, no index is left behind for the next call, and a call
    that says yes has executed its instance. *)
Theorem execution_respects_dependencies {TM : Treemap Value} {So : Sorter} {SL : SorterLaws So} (r : EReplica TM) (q i : Z)
    (W : exec_wf r) :
  executeCommand r q i <> Stuck /\
  forall s b, executeCommand r q i = Ok (s, b) ->
    call_ok r (xs_r s) (xs_batches s) /\ (b = true -> executed (x_InstanceSpace (xs_r s)) (q, i)).
Proof. split; [by apply executeCommand_total|]. intros s b. by apply executeCommand_ok. Qed.

Lemma exec_wf_check {TM : Treemap Value} (r : EReplica TM) :
  forallb (fun p : (Z * Z) * EInstance => (ei_Status p.2 =? st_EXECUTED) || (ei_Index p.2 =? 0)) (map_to_list (x_InstanceSpace r)) = true -> exec_wf r.
Proof.
  rewrite forallb_forall. intros H v i E S. specialize (H (v, i)). cbn [snd] in H.
  assert ((ei_Status i =? st_EXECUTED) || (ei_Index i =? 0) = true); [|lia]. apply H, list_elem_of_In, elem_of_map_to_list, E.
Qed.
(** two instances that depend on each other, and one both depend on *)
Definition cyclic_run : list e_event :=
  [EvMsg (ECommit (mkCommit 1 1 0 1 [put_cmd 1] 2 [0; -1; 0; -1; -1]));
   EvMsg (ECommit (mkCommit 2 2 0 2 [put_cmd 1] 0 nil5));
   EvMsg (ECommit (mkCommit 3 0 0 3 [put_cmd 1] 1 [-1; 0; 0; -1; -1]))].
Definition cyclic_state : EReplica gm := default replica0 (run_of cyclic_run).
Definition cyclic_call : ExecState gm * bool :=
  value_of (mkExecState replica0 [] 0 [] [], false) (executeCommand (So := insertion_Sorter) cyclic_state 1 0).
Lemma execution_respects_dependencies_witness :
  exec_wf cyclic_state /\ cyclic_call.2 = true /\ xs_batches cyclic_call.1 = [[(2, 0)]; [(0, 0); (1, 0)]] /\
  call_ok cyclic_state (xs_r cyclic_call.1) (xs_batches cyclic_call.1).
Proof.
  assert (exec_wf cyclic_state) as W by (apply exec_wf_check; vm_compute; reflexivity). split; [exact W|].
  split; [vm_compute; reflexivity|]. split; [vm_compute; reflexivity|].
  apply (proj2 (execution_respects_dependencies (So := insertion_Sorter) (SL := insertion_SorterLaws) cyclic_state 1 0 W)
           cyclic_call.1 cyclic_call.2).
  rewrite <- surjective_pairing. apply is_ok_value. vm_compute. reflexivity.
Defined.

(** * Where it loses what it should keep *)

(** a committed instance goes back to accepted: two late answers to the pre-accept of
    the ballot it was proposed at arrive after another replica recovered and committed
    it *)
Lemma late_reply_uncommits :
  let late := [EvMsg (EPreAcceptReply (mkPreAcceptReply 0 0 0 0 0 nil5 nil5 2));
               EvMsg (EPreAcceptReply (mkPreAcceptReply 0 0 0 0 1 [-1; 4; -1; -1; -1] nil5 1))] in
  (run_of committed_run ≫= fun r => status_of r (0, 0)) = Some st_COMMITTED /\
  (run_of (committed_run ++ late) ≫= fun r => status_of r (0, 0)) = Some st_ACCEPTED /\
  (run_of committed_run ≫= fun r => ei_bal <$> x_InstanceSpace r !! (0, 0)) = Some 6 /\
  (run_of (committed_run ++ late) ≫= fun r => ei_bal <$> x_InstanceSpace r !! (0, 0)) = Some 0.
Proof. repeat split; vm_compute; reflexivity. Qed.

(** the second command of a batch conflicts with instance 7 of row 1, the dependency
    stays at 3, where the first command left it *)
Lemma batch_misses_conflict :
  (run_of [EvMsg (ECommit (mkCommit 1 1 3 1 [put_cmd 1] 0 nil5)); EvMsg (ECommit (mkCommit 1 1 7 1 [put_cmd 2] 0 nil5));
           EvMsg (EPreAccept (mkPreAccept 2 2 0 2 [put_cmd 1; put_cmd 2] 0 nil5))] ≫= fun r => deps_of r (2, 0))
  = Some [-1; 3; -1; -1; -1].
Proof. vm_compute. reflexivity. Qed.

(** an instance that was accepted is still reported as unknown *)
Lemma accepted_reported_none :
  let run := run_of [EvMsg (EAccept (mkAccept 1 1 0 6 0 nil5))] in
  (run ≫= fun r => status_of r (1, 0)) = Some st_NONE /\ (run ≫= fun r => ei_vbal <$> x_InstanceSpace r !! (1, 0)) = Some 6.
Proof. split; vm_compute; reflexivity. Qed.

(** a recovery in which two of three replicas answer that the instance is committed
    starts over with a no-op: the replica's own answer carries the new ballot *)
Lemma recovery_ignores_committed :
  let start := value_of (replica0, []) (startRecoveryForInstance replica0 1 0) in
  (final (run_events start.1 [(8, EvMsg (EPrepareReply (mkPrepareReply 2 1 0 5 1 4 [put_cmd 1] 1 nil5)));
                              (9, EvMsg (EPrepareReply (mkPrepareReply 3 1 0 5 1 4 [put_cmd 1] 1 nil5)))]) ≫=
   fun r => (fun i => (ei_Status i, ei_Cmds i)) <$> x_InstanceSpace r !! (1, 0)) = Some (st_PREACCEPTED, Some NOOP).
Proof. vm_compute. reflexivity. Qed.

(** the attempt to pre-accept is never made: the case before it has the same condition *)
Lemma recovery_never_tries {TM : Treemap Value} (r r' : EReplica TM) lb n c : sub_case r lb n = Ok (r', c) -> c <> CaseTry.
Proof.
  unfold sub_case. intros H. destruct (_ <=? _); [by injection H as _ <-|]. destruct (_ =? _); [by injection H as _ <-|].
  destruct (_ || _).
  - apply obind_Ok in H as ((r1 & b) & _ & H). destruct (_ && b); [by injection H as _ <-|].
    destruct (_ && _); [by injection H as _ <-|done].
  - destruct (_ =? _); [by injection H as _ <-|done].
Qed.
